(* ===== verification/_CoqProject ===== *)
-Q . S2P
Prelude.v
PyTime.v
Decimal.v
Sha256.v
Base64.v
Json.v
JsonParse.v
Models.v
JsonLogic.v
Policy.v
Dict.v
Velocity.v
Reservation.v
Idempotency.v
Stores.v
EscalationFlow.v
DecisionService.v
DecisionSafety.v
DecisionBudget.v
DecisionReplay.v
DecisionExact.v
StateMachine.v
Ledger.v
Canonical.v
Jose.v
Prog.v
RappiClient.v
Bridge.v
BridgeFacts.v
BridgeClicks.v
CartHash.v
BridgeDemo.v
AgentRules.v
AgentGate.v
AgentBudget.v
AgentBudgetFacts.v
AgentSpending.v
AgentRace.v
AgentDemo.v
AgentAudit.v
AgentAuditFacts.v
AgentChains.v
AgentWorld.v
AgentJws.v
AgentMandate.v
AgentMerchant.v
AgentKernel.v
AgentEscalation.v
AgentBooks.v
AgentFrame.v
AgentColumns.v
AgentSaga.v
AgentLane.v
AgentPurchase.v
AgentSound.v
AgentHistory.v
AgentApproval.v
AgentTimeout.v
AgentMandateFacts.v
AgentRevocation.v
AgentTypes.v
AgentLaneDemo.v
Relay.v
RelayFacts.v
LedgerFacts.v
SdJwt.v
SdJwtFacts.v
Rail.v
RailFacts.v
RailVault.v
RailDemo.v
PgReservation.v
PgReservationFacts.v
ApiEscalation.v
ApiEscalationFacts.v
Merchant.v
MerchantFacts.v
ApiMandate.v
ApiMandateFacts.v
