(* ===== verification/Prelude.v ===== *)
(** * Aval: a verification library

    Aval lets a person sign a mandate (who may spend what, where, on which
    conditions) and makes every purchase of an agent pass a deterministic kernel
    that checks the mandate, reserves budget, asks a human when in doubt, and
    leaves a tamper-evident record.  This library models the parts of the
    repository that decide, move money or record, as executable definitions
    translated from the Python source, and proves what makes them correct.

    ** The program and its parts

    - The decision kernel of the API (src/src/api/domain, src/src/api/decision):
      value objects, mandate conditions in a JsonLogic subset, the policy gate,
      velocity counters, budget reservations, derived idempotency keys, the
      escalation envelope, and the service that composes them.
    - The mandate state machine (src/src/api/services/state_machine.py) run by a
      guarded SQL UPDATE (src/src/api/repository.py).
    - The audit ledger (src/src/api/audit): a hash chain with signed roots that
      a witness outside the database records.
    - The outbox relay (src/src/api/events): events written with a decision are
      delivered to sinks at least once.
    - Canonical serialisations and tokens (src/src/api/canonical.py,
      src/src/agent/crypto/canonical.py, src/src/trustlib/jose.py,
      src/src/api/decision/capture_token.py, src/src/rappi_bridge/token.py).
    - The Rappi bridge (src/src/rappi_bridge): a separate process that holds the
      account and makes the paying click, trusting nothing but a capture token.
    - The agent lane (src/src/agent): mandates are issued and revoked
      (mandate.py), purchases pass the kernel (kernel.py) with its gate and the
      budget of the whole ancestry, escalate to a human (escalation.py) or are
      charged through a merchant port (ports, mocks/merchant.py) at the rail
      (mocks/rail.py); every step leaves an event in a hash chain (audit.py).
    - The mandates of the API lane as SD-JWTs and the AP2 bindings of a payment
      to a cart (src/src/trustlib/sdjwt.py, ap2.py), and the payment rail that
      verifies them before it settles (src/src/yuno_sim).
    - The mandates of the API lane (src/src/api/routers/mandates.py with its
      services): a person's passkey signs the hash of the claims to activate a
      mandate, and again to revoke it; the rail forgets the token afterwards.
    - The human answers of the API lane (src/src/api/services/escalations.py),
      told to the purchase saga through the outbox.
    - The merchant of the API lane (src/src/merchant): it quotes signed carts and
      is the only route from a mandate and an intent to the rail.

    The decision service calls the gate, the stores and the envelope; its
    approvals become capture tokens, which the bridge verifies before it pays.
    Both lanes write their decisions to a ledger and to the outbox.  The
    merchant checks mandate, intent, price and cart, asks the kernel for its
    decision and only then the rail.  The rail
    verifies the presentation of a mandate and the merchant's signed cart, asks
    the issuer whether the mandate lives, and files every settlement under an
    idempotency key.

    ** Files

    Shared: Prelude.v (exceptions as values, state and error monads, tactics,
    lemmas), PyTime.v (datetime), Decimal.v (decimal.Decimal), Sha256.v, Base64.v,
    Json.v and JsonParse.v (Python values, json.dumps and json.loads), Dict.v
    (ordered dicts), Prog.v (programs of atomic statements, interleaving,
    rely-guarantee triples).

    - Models.v: api/domain/models.py, a Record per dataclass and a [mk_*]
      function per constructor.
    - JsonLogic.v and Policy.v: api/domain/policy.py, the conditions and the
      gate ([PolicyGate.evaluate] is [Policy.evaluate]).
    - Velocity.v, Reservation.v, Idempotency.v, Stores.v: the in-memory stores of
      api/decision/repository_memory.py, with api/decision/reservation.py,
      api/decision/idempotency.py, api/domain/idempotency.py and the records of
      api/decision/ports.py.
    - EscalationFlow.v: api/decision/escalation_flow.py.
    - DecisionService.v: api/decision/service.py; its theorems are in
      DecisionSafety.v, DecisionBudget.v, DecisionReplay.v and DecisionExact.v.
    - StateMachine.v: api/services/state_machine.py and [transition] of
      api/repository.py.
    - Ledger.v: api/audit (hashing, models, chain, repository_memory,
      witness_memory, service); theorems in LedgerFacts.v.
    - Canonical.v and Jose.v: the canonical forms, signed tokens and the capture
      token.
    - RappiClient.v and Bridge.v: rappi_bridge/rappi.py, errors.py, guard.py,
      state.py, config.py and service.py; theorems in BridgeFacts.v,
      BridgeClicks.v, CartHash.v, concrete runs in BridgeDemo.v.
    - AgentRules.v: agent/crypto/money.py, agent/jsonlogic.py and [gate] of
      agent/kernel.py, with its theorem in AgentGate.v.
    - AgentBudget.v: [chain], [reserve_chain], [_unreserve], [release] and
      [settle] of agent/kernel.py; theorems in AgentBudgetFacts.v,
      AgentSpending.v and AgentRace.v, concrete runs in AgentDemo.v.
    - AgentAudit.v: agent/audit.py and [scrub_payload] of agent/scrub.py; lemmas in
      AgentAuditFacts.v, theorems and a run in AgentChains.v.
    - AgentWorld.v: the database of the lane ([world], a field per table of
      aval/contracts/fixtures/schema.sql), agent/ids.py, agent/limits.py.
    - AgentJws.v: agent/crypto/jws.py and keys.py (Module [Jws], class [Ed25519]).
    - AgentMandate.v: agent/mandate.py and agent/mocks/rail.py.
    - AgentMerchant.v: agent/ports/base.py, ports/local.py, mocks/merchant.py.
    - AgentKernel.v: [verify], [submit_purchase] and the charge of
      agent/kernel.py, [open_escalation]; AgentEscalation.v: the rest of
      agent/escalation.py.
    - AgentBooks.v (the amounts of mandates), AgentFrame.v (what a statement
      leaves alone), AgentColumns.v (texts that a column keeps), AgentSaga.v (the
      class [HonestPort] and the amounts of a purchase), AgentLane.v (the class
      [LaneInvariant]: what holds of every program of the lane under every
      schedule), AgentSound.v (sound databases): lemmas.
    - AgentPurchase.v, AgentHistory.v, AgentApproval.v, AgentTimeout.v,
      AgentMandateFacts.v, AgentRevocation.v, AgentTypes.v: the theorems on the
      lane; AgentLaneDemo.v applies them to a concrete database.
    - SdJwt.v: trustlib/sdjwt.py and the amounts and bindings of trustlib/ap2.py,
      over the class [JwkLibrary]; its theorem is in SdJwtFacts.v, applied to a
      library with marks for signatures.
    - Rail.v: yuno_sim/vault.py, ap2_verifier.py, payments.py, disputes.py and the
      endpoints of main.py over the tables of models.py, a [prog] per endpoint;
      theorems in RailFacts.v and RailVault.v, concrete runs and races in
      RailDemo.v.
    - PgReservation.v: [PostgresReservationStore] of
      api/decision/repository_postgres.py, statement by statement; its theorem and
      a concrete race are in PgReservationFacts.v.
    - ApiMandate.v: api/routers/mandates.py, api/services/passkey.py,
      mandate_registry.py and rail_client.py, api/repository.py and the claims of
      trustlib/models.py with their projection of trustlib/ap2.py, over the record
      [office]; theorems and one mandate from draft to revocation in
      ApiMandateFacts.v.
    - ApiEscalation.v: api/services/escalations.py, the endpoint of
      api/routers/escalations.py and [emit_event] of trustlib/events.py over the
      record [desk]; theorems and a concrete race in ApiEscalationFacts.v.
    - Merchant.v: merchant/catalog.py, checkout_jwt.py, kernel_client.py,
      rail_client.py, charge.py, schemas.py and the endpoints of main.py that
      change state, over the record [shop]; theorems and concrete runs in
      MerchantFacts.v.
    - Relay.v: api/events/ports.py, relay.py and sinks_memory.py; theorems in
      RelayFacts.v.

    ** Conventions

    - A Python [str] is the list of its UTF-8 bytes ([string]); an aware datetime
      is its microseconds since the epoch; an [int] is a [Z]; a [Decimal] is
      [Decimal.dec]; other values that reach a serializer or an evaluator are
      [Json.pyval].  A float carries its [repr] text.
    - A function that may raise returns [res], an exception class or a value;
      messages are modelled only where they are stored.  Code that changes state
      is in [st], which keeps the changes made before an exception.
    - Code that several threads or sessions run at once is a [prog]: a tree of
      statements, each atomic because the source holds a lock or executes one SQL
      statement or makes one HTTP exchange; theorems quantify over schedules and
      over where each program is cut off.
    - The wall clock, uuid4 and the network are arguments or part of the state.
      Third-party code (signatures, JWS, the network, sinks, transaction managers)
      is a class or a parameter with the laws the code relies on as hypotheses.

    ** What the theorems show

    - Decision kernel: what a first verification answers, exactly
      ([first_verification_exact]); what every approval stands on
      ([verify_approval_sound], [resolution_approval_sound]); a refusal holds
      nothing back; the budget over every history ([service_budget_safe]);
      repetition is stable ([verify_replay_stable]);
      the gate admits exactly its contract ([gate_approves_exact]) with its
      limits, step-up and conditions exact on the cent; a condition is its truth or
      a denial ([evaluate_conditions_total]), unless an arithmetic result leaves the
      exponents of the decimal context ([product_overflows]).
    - Mandates: every interleaving of transitions keeps to the table
      ([mandate_lifecycle]).
    - Ledger: every history verifies ([history_verifies]); two histories with
      one last hash are equal or exhibit a SHA-256 collision; what an erased
      signature hides ([unsigned_suffix_accepted]).
    - Tokens: a capture token is accepted exactly for what it was minted for, and
      hands over what was minted ([capture_token_exact]); the canonical forms agree
      and decode.
    - Bridge: one paying click per key when keys do not run against themselves
      ([one_paying_click]), everything that stands behind a click whatever runs
      at the same time ([clicks_authorised]), receipts replay, the cart hash
      binds; and the race that charges one key twice
      ([same_key_charged_twice]).
    - Agent kernel: the gate's table ([gate_exact]); reservations over the
      ancestry are all or nothing ([reserve_chain_exact]), exact over every
      sequential history ([spending_within_budget]) and counted under races
      ([racing_reservations_counted], [racing_reservations_within_budget]); and
      the race in which a compensation loses a reservation.
    - Agent lane: over every history of calls, whatever merchants with honest
      prices ([HonestPort]: non-negative cents) answer, each mandate keeps its claims
      and stays within their budget ([agent_budgets_hold]); what a purchase moves on each
      of its answers ([purchase_books]); what an approval stands for
      ([approval_stands]); a revoked token is never charged again, under any
      schedule ([revocation_final]); silence denies ([silence_denies]) and the
      sweep ends and denies exactly what is overdue ([sweep_expires_overdue]);
      issued mandates verify offline ([issued_mandate_verifies]); captures repeat
      ([capture_repeats]); the columns keep their values ([columns_typed]); and the
      approval that changes nothing ([plain_approval_escalates_again]).
    - Agent evidence: every history of appends verifies
      ([every_history_verifies]); a checkpoint that still verifies binds every
      event of every chain ([witnessed_checkpoint_binds]); an append between two
      reads of the verifier makes it raise a false alarm.
    - SD-JWT: what an issuer signs and a holder binds verifies exactly while it is
      fresh and for that binding ([presentation_accepted]).
    - Rail: whatever requests run at once, one payment per key
      ([one_settlement_per_key]), every payment on record verified and, in cents,
      the amount of its cart ([payments_verified]; beyond cents the two conversions
      part: [booked_over_the_cart]), a
      deleted token never charged by a later request
      ([deleted_token_never_charged]); the verdict on a mandate and a cart, signed,
      forged or missing ([mandate_verdict_exact]) and on a dispute ([adjudication_exact]); and what
      is not checked: the token against the mandate
      ([token_not_tied_to_mandate]), two confirmations of one enrolment, two
      adjudications of one dispute.
    - API mandates: whatever requests run at once, no mandate is active, signed or
      revoked without a passkey gesture over its exact claims
      ([mandates_consented]); a revocation stands whatever the rail answers
      ([revocation_stands]); and the expired challenge that makes it impossible
      ([revocation_locked_out]).
    - API escalations: each is decided once, by the answer that reports it or at a
      moment past its deadline, with one event ([escalations_decided_once]); what an
      answer does on each branch, rows and outbox ([resolve_exact]).
    - Merchant: everything that stands behind a request to the rail, in the order
      and in the states of the run where it stood, whatever runs
      at the same time ([money_route]); a cart is captured once
      ([captured_once]); and the lost answer of the rail that lets it be charged
      twice ([lost_answer_charges_twice]).
    - Reservations on PostgreSQL: the compare-and-swap counts
      ([pg_reservations_counted]), for reservations that are not the replay of one
      whose purchase waits for its capture.
    - Relay: marked means accepted ([relayed_means_delivered]), eventual delivery
      ([everything_delivered]), and the batch of refusals that starves the rest.

    ** Bounds and fuel

    The decimal context has 28 digits; theorems on amounts in cents ask for
    amounts below 10^26, so that no sum is rounded.  The values of conditions go
    through the operators with the exponent limits of the context ([dround]);
    amounts through those without ([dfix]), which agree within the limits.  [chain] is a [while] loop
    over rows: its fuel is enough from two more than the number of mandates
    ([chain_terminates]).  [days_from] and the calendar of PyTime.v, SHA-256 and
    the JSON decoder are structural or bounded by the length of their input.

    ** Not modelled

    The other HTTP endpoints of the API and front ends, language-model calls, key
    files and environment, the PostgreSQL and cloud adapters of ports whose
    in-memory implementations are modelled (except the reservations), the
    catalogue seeding, tools and webhooks of the merchant, the login of the
    bridge, and evidence bundles.  Of the agent
    lane, the searches of merchants, the merchants over MCP and HTTP (any port
    satisfies the theorems that quantify over ports), the token buckets and locks
    of agent/limits.py, and the conversation around the kernel.  The regular
    expressions of agent/scrub.py and the texts of exceptions that an answer
    shows are parameters. *)
From Stdlib Require Export ZArith NArith Lia Bool Ascii String.
From stdpp Require Export base option list strings gmap.

Declare Scope aval_scope.
Delimit Scope aval_scope with aval.
#[global] Open Scope Z_scope.

(** ** Exceptions *)

(** The exception classes the modelled code raises or catches.  Messages are
    not part of the model: no modelled handler reads them. *)
Inductive exn : Type :=
| ValueError
| TypeError
| KeyError
| RuntimeError
| AmountFormatError
| IdempotencyConflict
| InvalidOperation
| DivisionByZero
| ReservationRejected
| AttributeError
| IndexError
| OverflowError
(* decimal.Overflow, trapped by the default context *)
| Overflow
| StopIteration
(* psycopg.errors, an insertion that breaks a UNIQUE constraint *)
| UniqueViolation
(* src/src/agent/crypto/canonical.py, jsonlogic.py, crypto/jws.py *)
| NonCanonical
| RuleError
| BadSignature
(* src/src/agent/mocks/rail.py and limits.py, by their reason code *)
| RailError (code : string)
| LimitExceeded (code : string)
(* src/src/rappi_bridge/errors.py, by the reason of the class *)
| BridgeError (reason : string)
(* jwcrypto, and src/src/trustlib/sdjwt.py by the name of the class *)
| InvalidJWSSignature
| InvalidJWSObject
| SDJWTError (class : string)
(* src/src/yuno_sim, src/src/merchant: the refusals by their reason code *)
| VaultError
| DisputeError
| PaymentRefused (reason : string)
| CheckoutJWTError
| KernelClientError
| ChargeRefused (reason : string)
| ChargeSettlementError
(* sqlalchemy.exc: a constraint the statement breaks; a value the column
   refuses *)
| IntegrityError
| DBAPIError
(* fastapi *)
| HTTPException (status_code : Z)
(* src/src/api/services, src/src/api/evidence *)
| PasskeyError
| EscalationNotFound
| EscalationConflict (reason : option string)
| EvidenceNotFoundError.

#[export] Instance exn_eq_dec : EqDecision exn.
Proof. solve_decision. Defined.

(** [isinstance(e, ValueError)]: [AmountFormatError] (domain/models.py),
    [IdempotencyConflict] (domain/idempotency.py), [NonCanonical] and
    [RuleError] (src/src/agent) derive from it; [decimal.InvalidOperation] does
    not. *)
Definition is_value_error (e : exn) : bool :=
  match e with
  | ValueError | AmountFormatError | IdempotencyConflict | NonCanonical | RuleError => true
  | _ => false
  end.

(** ** Results: a value or a raised exception *)

Inductive res (A : Type) : Type :=
| Ok (a : A)
| Raise (e : exn).
Arguments Ok {A} _.
Arguments Raise {A} _.

#[export] Instance res_eq_dec {A} `{EqDecision A} : EqDecision (res A).
Proof. solve_decision. Defined.

Definition rbind {A B} (m : res A) (f : A -> res B) : res B :=
  match m with Ok a => f a | Raise e => Raise e end.

Notation "'let?' x := m 'in' k" := (rbind m (fun x => k))
  (at level 10, x name, m at level 100, k at level 200) : aval_scope.
Notation "'let?' ' p := m 'in' k" := (rbind m (fun x => match x with p => k end))
  (at level 10, p strict pattern, m at level 100, k at level 200, only parsing) : aval_scope.
#[global] Open Scope aval_scope.

(** [try: m except <classes h handles>: handler] *)
Definition try_except {A} (m : res A) (catches : exn -> bool) (handler : A) : A + exn :=
  match m with
  | Ok a => inl a
  | Raise e => if catches e then inl handler else inr e
  end.

(** [x if x is not None else current], and [d.get(k, current)]. *)
Definition override {A} (o : option A) (current : A) : A :=
  match o with Some v => v | None => current end.

Definition is_ok {A} (m : res A) : bool := match m with Ok _ => true | _ => false end.

Definition guard_res (b : bool) (e : exn) : res unit := if b then Ok () else Raise e.

(** [mapM] over a list, left to right, stopping at the first exception: a
    Python list comprehension whose body may raise. *)
Fixpoint res_map {A B} (f : A -> res B) (l : list A) : res (list B) :=
  match l with
  | [] => Ok []
  | x :: l' => let? y := f x in let? ys := res_map f l' in Ok (y :: ys)
  end.

(** The same on outcomes already computed: evaluation being pure, the outcome
    of each element stands for the call that would produce it, and outcomes
    after the first exception are not looked at. *)
Fixpoint res_seq {A} (l : list (res A)) : res (list A) :=
  match l with
  | [] => Ok []
  | r :: l' => let? x := r in let? xs := res_seq l' in Ok (x :: xs)
  end.

Lemma res_map_ok_length {A B} (f : A -> res B) l ys :
  res_map f l = Ok ys -> List.length ys = List.length l.
Proof.
  revert ys. induction l as [|x l IH]; intros ys; cbn.
  - intros [= <-]. done.
  - destruct (f x); cbn; [|done]. destruct (res_map f l); cbn; [|done].
    intros [= <-]. cbn. by rewrite (IH _ eq_refl).
Qed.

(** ** The state-and-exception monad

    Python code mutating shared in-process objects: an exception leaves the
    mutations done so far in place, so the state is returned beside the
    outcome. *)
Definition st (S A : Type) : Type := S -> res A * S.

Definition ret {S A} (a : A) : st S A := fun s => (Ok a, s).
Definition sbind {S A B} (m : st S A) (f : A -> st S B) : st S B := fun s =>
  match m s with
  | (Ok a, s') => f a s'
  | (Raise e, s') => (Raise e, s')
  end.

Notation "x <- m ;; k" := (sbind m (fun x => k))
  (at level 100, m at next level, right associativity) : aval_scope.
Notation "m ;;; k" := (sbind m (fun _ => k))
  (at level 100, right associativity) : aval_scope.

Definition get {S} : st S S := fun s => (Ok s, s).
Definition put {S} (s : S) : st S unit := fun _ => (Ok (), s).
Definition gets {S A} (f : S -> A) : st S A := fun s => (Ok (f s), s).
Definition modify {S} (f : S -> S) : st S unit := fun s => (Ok (), f s).
Definition raise {S A} (e : exn) : st S A := fun s => (Raise e, s).
Definition lift {S A} (m : res A) : st S A := fun s => (m, s).

(** [try: m except ...: h]; [h e = None] means the class is not caught. *)
Definition catch {S A} (m : st S A) (h : exn -> option (st S A)) : st S A := fun s =>
  match m s with
  | (Ok a, s') => (Ok a, s')
  | (Raise e, s') => match h e with Some k => k s' | None => (Raise e, s') end
  end.

(** [with transaction: m] whose context manager undoes the enclosed writes
    when the block raises. *)
Definition rollback_on_raise {S A} (m : st S A) : st S A := fun s =>
  match m s with
  | (Ok a, s') => (Ok a, s')
  | (Raise e, _) => (Raise e, s)
  end.

(** Run an operation on one component of a larger state. *)
Definition zoom {S T A} (view : S -> T) (update : T -> S -> S) (m : st T A) : st S A := fun s =>
  let '(r, t) := m (view s) in (r, update t s).

Definition run {S A} (m : st S A) (s : S) : res A * S := m s.
Definition exec {S A} (m : st S A) (s : S) : S := (m s).2.
Definition outcome {S A} (m : st S A) (s : S) : res A := (m s).1.

Section StLaws.
Context {S : Type}.

Lemma sbind_ok {A B} (m : st S A) (f : A -> st S B) s a s' :
  m s = (Ok a, s') -> sbind m f s = f a s'.
Proof. unfold sbind. by intros ->. Qed.

Lemma sbind_raise {A B} (m : st S A) (f : A -> st S B) s e s' :
  m s = (Raise e, s') -> sbind m f s = (Raise e, s').
Proof. unfold sbind. by intros ->. Qed.

(** Inversion of a sequence that returned. *)
Lemma sbind_inv_ok {A B} (m : st S A) (f : A -> st S B) s b s'' :
  sbind m f s = (Ok b, s'') -> exists a s', m s = (Ok a, s') /\ f a s' = (Ok b, s'').
Proof. unfold sbind. destruct (m s) as [[a|e] s'] eqn:E; naive_solver. Qed.
End StLaws.

(** ** What an operation may do to the state *)

(** Whatever [m] returns or raises, the states before and after are related. *)
Definition respects {S A} (R : S -> S -> Prop) (m : st S A) : Prop := forall s, R s (m s).2.

Section Respects.
Context {S : Type} (R : S -> S -> Prop) `{!PreOrder R}.

Lemma respects_pure {A} (m : st S A) : (forall s, (m s).2 = s) -> respects R m.
Proof. intros H s. by rewrite H. Qed.

Lemma respects_bind {A B} (m : st S A) (f : A -> st S B) :
  respects R m -> (forall a, respects R (f a)) -> respects R (sbind m f).
Proof.
  intros Hm Hf s. unfold sbind. specialize (Hm s). destruct (m s) as [[a|e] s']; cbn in *; [|done].
  etransitivity; [exact Hm|apply Hf].
Qed.

Lemma respects_catch {A} (m : st S A) (h : exn -> option (st S A)) :
  respects R m -> (forall e k, h e = Some k -> respects R k) -> respects R (catch m h).
Proof.
  intros Hm Hh s. unfold catch. specialize (Hm s). destruct (m s) as [[a|e] s']; cbn in *; [done|].
  destruct (h e) as [k|] eqn:E; [|done]. etransitivity; [exact Hm|by eapply Hh].
Qed.

Lemma respects_zoom {T A} (view : S -> T) (update : T -> S -> S) (m : st T A) :
  (forall s, R s (update (m (view s)).2 s)) -> respects R (zoom view update m).
Proof. intros H s. unfold zoom. specialize (H s). by destruct (m (view s)). Qed.
End Respects.

(** ** Tactics *)

(** Split every match of the goal, one at a time, discarding the impossible
    cases. *)
Ltac split_match :=
  repeat (case_match; simplify_eq/=; try done).

(** The same on a hypothesis recording a run of the model. *)
Ltac split_match_in H :=
  repeat (match type of H with
          | context [match ?x with _ => _ end] => destruct x eqn:?; simplify_eq/=; try done
          end).

Ltac bool_prop :=
  repeat match goal with
  | H : _ && _ = true |- _ => apply andb_prop in H as [? ?]
  | H : _ || _ = false |- _ => apply orb_false_elim in H as [? ?]
  | H : negb _ = true |- _ => apply negb_true_iff in H
  | H : negb _ = false |- _ => apply negb_false_iff in H
  | H : (_ <=? _) = true |- _ => apply Z.leb_le in H
  | H : (_ <=? _) = false |- _ => apply Z.leb_gt in H
  | H : (_ <? _) = true |- _ => apply Z.ltb_lt in H
  | H : (_ <? _) = false |- _ => apply Z.ltb_ge in H
  | H : (_ =? _) = true |- _ => apply Z.eqb_eq in H
  | H : (_ =? _) = false |- _ => apply Z.eqb_neq in H
  | H : bool_decide _ = true |- _ => apply bool_decide_eq_true in H
  | H : bool_decide _ = false |- _ => apply bool_decide_eq_false in H
  end.

(** ** Strings *)

(** A Python [str] is represented by its UTF-8 bytes.  [str.upper()] acts on
    the ASCII letters; the modelled code applies it to ISO 4217 currency codes
    and to the word APPROVE. *)
Definition ascii_upper (c : ascii) : ascii :=
  let n := N_of_ascii c in
  if ((97 <=? n) && (n <=? 122))%N then ascii_of_N (n - 32) else c.

Fixpoint str_map (f : ascii -> ascii) (s : string) : string :=
  match s with
  | EmptyString => EmptyString
  | String.String c s' => String.String (f c) (str_map f s')
  end.

Definition upper (s : string) : string := str_map ascii_upper s.

Definition is_digit (c : ascii) : bool :=
  let n := N_of_ascii c in ((48 <=? n) && (n <=? 57))%N.
Definition digit_val (c : ascii) : N := (N_of_ascii c - 48)%N.
Definition digit_chr (d : N) : ascii := ascii_of_N (48 + d).

(** The value of a hexadecimal digit. *)
Definition hex_value (c : ascii) : option N :=
  let n := N_of_ascii c in
  if ((48 <=? n) && (n <=? 57))%N then Some (n - 48)%N
  else if ((97 <=? n) && (n <=? 102))%N then Some (n - 87)%N
  else if ((65 <=? n) && (n <=? 70))%N then Some (n - 55)%N
  else None.

(** [bool(s)] for a string. *)
Definition truthy_str (s : string) : bool :=
  match s with EmptyString => false | _ => true end.

Fixpoint str_forallb (p : ascii -> bool) (s : string) : bool :=
  match s with EmptyString => true | String.String c s' => p c && str_forallb p s' end.

Definition ascii_only (s : string) : bool := str_forallb (fun c => (N_of_ascii c <? 128)%N) s.

Lemma ascii_upper_idemp c : ascii_upper (ascii_upper c) = ascii_upper c.
Proof. by destruct c as [[] [] [] [] [] [] [] []]. Qed.

Lemma upper_idemp s : upper (upper s) = upper s.
Proof. induction s as [|c s IH]; cbn; [done|]. rewrite ascii_upper_idemp. f_equal. exact IH. Qed.

Lemma string_app_assoc (a b c : string) : ((a +:+ b) +:+ c)%string = (a +:+ (b +:+ c))%string.
Proof. induction a as [|x a IH]; [done|]. exact (f_equal (String.String x) IH). Qed.

Lemma string_app_nil_r (a : string) : (a +:+ EmptyString)%string = a.
Proof. induction a as [|x a IH]; [done|]. exact (f_equal (String.String x) IH). Qed.

Lemma string_app_inj_l (a b c : string) : (a +:+ b)%string = (a +:+ c)%string -> b = c.
Proof. induction a as [|x a IH]; [done|]. intros H. injection H as H. auto. Qed.

(** ** Lists *)

Create HintDb aval discriminated.

Lemma lookup_last_app {A} (l : list A) x : last (l ++ [x]) = Some x.
Proof. apply last_snoc. Qed.

#[export] Hint Resolve lookup_last_app upper_idemp : aval.
#[export] Hint Rewrite upper_idemp string_app_nil_r : aval.
