(* ===== verification/PyTime.v ===== *)
(** Timestamps of the Python standard library as the modelled code uses them:
    aware and naive [datetime] values, [timedelta] as microseconds,
    [isoformat] and [fromisoformat] for UTC values, and [ensure_utc]
    (domain/models.py).  The calendar is the proleptic Gregorian one of
    CPython's datetime.py ([_ord2ymd], [_ymd2ord]). *)
From S2P Require Import Prelude.

(** An aware timestamp is the instant it denotes, in microseconds since the
    Unix epoch; a naive one carries its wall-clock reading and no instant. *)
Inductive datetime : Type :=
| Aware (us : Z)
| Naive (us : Z).

#[export] Instance datetime_eq_dec : EqDecision datetime.
Proof. solve_decision. Defined.

Definition usec : Z := 1.
Definition seconds (n : Z) : Z := n * 1000000.
Definition minutes (n : Z) : Z := seconds (60 * n).
Definition hours (n : Z) : Z := minutes (60 * n).
Definition days (n : Z) : Z := hours (24 * n).

(** [int(td.total_seconds())]: truncation toward zero. *)
Definition total_seconds_int (td : Z) : Z := Z.quot td 1000000.

(** domain/models.py, [ensure_utc]: a naive timestamp is refused, an aware one
    is normalised to UTC, which keeps the instant. *)
Definition ensure_utc (d : datetime) : res Z :=
  match d with Aware us => Ok us | Naive _ => Raise ValueError end.

(** ** Calendar *)

Definition is_leap (y : Z) : bool :=
  (y mod 4 =? 0) && (negb (y mod 100 =? 0) || (y mod 400 =? 0)).

(** Days before 1 January of year [y], counted from 0001-01-01. *)
Definition days_before_year (y : Z) : Z :=
  let y := y - 1 in y * 365 + y / 4 - y / 100 + y / 400.

Definition month_lengths (leap : bool) : list Z :=
  [31; if leap then 29 else 28; 31; 30; 31; 30; 31; 31; 30; 31; 30; 31].

(** Month (from 1) and day of month (from 1) of day [n] (from 0) of a year. *)
Fixpoint month_day (ls : list Z) (m n : Z) : Z * Z :=
  match ls with
  | [] => (m, n + 1)
  | l :: ls' => if n <? l then (m, n + 1) else month_day ls' (m + 1) (n - l)
  end.

Fixpoint days_before_month (ls : list Z) (m : Z) : Z :=
  match ls with
  | [] => 0
  | l :: ls' => if m <=? 1 then 0 else l + days_before_month ls' (m - 1)
  end.

(** CPython's [_ord2ymd] on a day number counted from 0001-01-01 = 0. *)
Definition ord2ymd (n : Z) : Z * Z * Z :=
  let n400 := n / 146097 in
  let n := n mod 146097 in
  let n100 := n / 36524 in
  let r100 := n mod 36524 in
  let n4 := r100 / 1461 in
  let r4 := r100 mod 1461 in
  let n1 := r4 / 365 in
  let doy := r4 mod 365 in
  let year := n400 * 400 + 1 + n100 * 100 + n4 * 4 + n1 in
  if (n1 =? 4) || (n100 =? 4) then (year - 1, 12, 31)
  else
    let leap := (n1 =? 3) && (negb (n4 =? 24) || (n100 =? 3)) in
    let '(m, d) := month_day (month_lengths leap) 1 doy in (year, m, d).

(** CPython's [_ymd2ord], minus one. *)
Definition ymd2ord (y m d : Z) : Z :=
  days_before_year y + days_before_month (month_lengths (is_leap y)) m + (d - 1).

(** 1970-01-01 in days from 0001-01-01. *)
Definition epoch_ord : Z := 719162.
Definition day_us : Z := 86400000000.

(** [datetime.min] and [datetime.max] in UTC. *)
Definition min_us : Z := - epoch_ord * day_us.
Definition max_us : Z := (3652059 - epoch_ord) * day_us - 1.
Definition valid_us (us : Z) : Prop := min_us <= us <= max_us.

(** ** Text form *)

(** The [k] least significant decimal digits of [n], zero padded. *)
Fixpoint pad (k : nat) (n : Z) : string :=
  match k with
  | O => EmptyString
  | S k' => String.String (digit_chr (Z.to_N (n / 10 ^ Z.of_nat k' mod 10))) (pad k' n)
  end.

(** [value.isoformat()] of a UTC value. *)
Definition isoformat (us : Z) : string :=
  let d := us / day_us in
  let t := us mod day_us in
  let '(y, mo, dd) := ord2ymd (d + epoch_ord) in
  let micro := t mod 1000000 in
  let s := t / 1000000 in
  (pad 4 y +:+ "-" +:+ pad 2 mo +:+ "-" +:+ pad 2 dd +:+ "T" +:+
   pad 2 (s / 3600) +:+ ":" +:+ pad 2 (s / 60 mod 60) +:+ ":" +:+ pad 2 (s mod 60) +:+
   (if Z.eqb micro 0 then "+00:00" else "." +:+ pad 6 micro +:+ "+00:00"))%string.

(** [str(value)]: the date and the time separated by a blank; a naive value has
    no offset. *)
Definition datetime_str (d : datetime) : string :=
  let blank := str_map (fun c => if Ascii.eqb c "T" then " "%char else c) in
  match d with
  | Aware us => blank (isoformat us)
  | Naive us => let s := blank (isoformat us) in String.substring 0 (String.length s - 6) s
  end.

(** [isoformat().replace("+00:00", "Z")] *)
Definition isoformat_z (us : Z) : string :=
  let d := us / day_us in
  let t := us mod day_us in
  let '(y, mo, dd) := ord2ymd (d + epoch_ord) in
  let micro := t mod 1000000 in
  let s := t / 1000000 in
  (pad 4 y +:+ "-" +:+ pad 2 mo +:+ "-" +:+ pad 2 dd +:+ "T" +:+
   pad 2 (s / 3600) +:+ ":" +:+ pad 2 (s / 60 mod 60) +:+ ":" +:+ pad 2 (s mod 60) +:+
   (if Z.eqb micro 0 then "Z" else "." +:+ pad 6 micro +:+ "Z"))%string.

Fixpoint read_digits (k : nat) (acc : Z) (s : string) : option (Z * string) :=
  match k, s with
  | O, _ => Some (acc, s)
  | S k', String.String c s' =>
      if is_digit c then read_digits k' (acc * 10 + Z.of_N (digit_val c)) s' else None
  | S _, EmptyString => None
  end.

Definition read_char (c : ascii) (s : string) : option string :=
  match s with
  | String.String c' s' => if Ascii.eqb c c' then Some s' else None
  | EmptyString => None
  end.

(** [datetime.fromisoformat] on the shape [isoformat] gives for UTC values; a
    trailing [Z] is read as [+00:00], the replacement the callers make.  Other
    ISO 8601 shapes are never stored by the modelled code and are refused. *)
Definition fromisoformat (s : string) : option Z :=
  '(y, s) ← read_digits 4 0 s; s ← read_char "-" s;
  '(mo, s) ← read_digits 2 0 s; s ← read_char "-" s;
  '(d, s) ← read_digits 2 0 s; s ← read_char "T" s;
  '(h, s) ← read_digits 2 0 s; s ← read_char ":" s;
  '(mi, s) ← read_digits 2 0 s; s ← read_char ":" s;
  '(sec, s) ← read_digits 2 0 s;
  '(micro, s) ← (match read_char "." s with
                 | Some s => read_digits 6 0 s
                 | None => Some (0, s)
                 end);
  if String.eqb s "+00:00" || String.eqb s "Z" then
    Some ((ymd2ord y mo d - epoch_ord) * day_us
          + ((h * 60 + mi) * 60 + sec) * 1000000 + micro)
  else None.

(** ** The calendar round trip *)

Lemma month_day_inv (leap : bool) (n : Z) :
  0 <= n < (if leap then 366 else 365) ->
  let '(m, d) := month_day (month_lengths leap) 1 n in
  days_before_month (month_lengths leap) m + (d - 1) = n /\ 1 <= m <= 12 /\ 1 <= d <= 31.
Proof.
  intros Hn.
  cut (forallb (fun k => let '(m, d) := month_day (month_lengths leap) 1 (Z.of_nat k) in
         (days_before_month (month_lengths leap) m + (d - 1) =? Z.of_nat k)
         && (1 <=? m) && (m <=? 12) && (1 <=? d) && (d <=? 31))
       (seq 0 (if leap then 366 else 365)) = true).
  - intros H. rewrite forallb_forall in H. specialize (H (Z.to_nat n)).
    rewrite Z2Nat.id in H; [|lia].
    destruct (month_day _ 1 n) as [m d]. 
    rewrite !andb_true_iff, Z.eqb_eq, !Z.leb_le in H.
    assert (In (Z.to_nat n) (seq 0 (if leap then 366 else 365))) as Hin.
    { apply in_seq. destruct leap; lia. }
    specialize (H Hin). lia.
  - by destruct leap; vm_compute.
Qed.

Lemma leap_of_cycle (n400 n100 n4 n1 : Z) :
  0 <= n100 <= 3 -> 0 <= n4 <= 24 -> 0 <= n1 <= 3 ->
  is_leap (n400 * 400 + 1 + n100 * 100 + n4 * 4 + n1)
  = (n1 =? 3) && (negb (n4 =? 24) || (n100 =? 3)).
Proof.
  intros ???. unfold is_leap.
  set (y := n400 * 400 + 1 + n100 * 100 + n4 * 4 + n1).
  assert (y mod 4 = (n1 + 1) mod 4) as ->.
  { subst y. Z.div_mod_to_equations. lia. }
  assert (y mod 100 = (n4 * 4 + n1 + 1) mod 100) as ->.
  { subst y. Z.div_mod_to_equations. lia. }
  assert (y mod 400 = (n100 * 100 + n4 * 4 + n1 + 1) mod 400) as ->.
  { subst y. Z.div_mod_to_equations. lia. }
  destruct (Z.eqb_spec n1 3), (Z.eqb_spec n4 24), (Z.eqb_spec n100 3);
    repeat match goal with |- context [?a =? ?b] => destruct (Z.eqb_spec a b) end;
    try done; Z.div_mod_to_equations; lia.
Qed.

Lemma days_before_year_cycle (n400 n100 n4 n1 : Z) :
  0 <= n100 <= 3 -> 0 <= n4 <= 24 -> 0 <= n1 <= 3 ->
  days_before_year (n400 * 400 + 1 + n100 * 100 + n4 * 4 + n1)
  = n400 * 146097 + n100 * 36524 + n4 * 1461 + n1 * 365.
Proof. intros. unfold days_before_year. Z.div_mod_to_equations. lia. Qed.

Lemma ymd2ord_year_end (y : Z) : is_leap y = true ->
  ymd2ord y 12 31 = days_before_year y + 365.
Proof. unfold ymd2ord. intros ->. replace (days_before_month (month_lengths true) 12) with 335 by done. lia. Qed.

(** [_ymd2ord] undoes [_ord2ymd]. *)
Lemma ord2ymd_inv (n : Z) :
  let '(y, m, d) := ord2ymd n in
  ymd2ord y m d = n /\ 1 <= m <= 12 /\ 1 <= d <= 31.
Proof.
  unfold ord2ymd.
  set (n400 := n / 146097). set (k := n mod 146097).
  set (n100 := k / 36524). set (r100 := k mod 36524).
  set (n4 := r100 / 1461). set (r4 := r100 mod 1461).
  set (n1 := r4 / 365). set (doy := r4 mod 365).
  assert (Hn : n = n400 * 146097 + k /\ 0 <= k < 146097) by (subst n400 k; Z.div_mod_to_equations; lia).
  assert (Hk : k = n100 * 36524 + r100 /\ 0 <= r100 < 36524) by (subst n100 r100; Z.div_mod_to_equations; lia).
  assert (Hr : r100 = n4 * 1461 + r4 /\ 0 <= r4 < 1461) by (subst n4 r4; Z.div_mod_to_equations; lia).
  assert (Hd : r4 = n1 * 365 + doy /\ 0 <= doy < 365) by (subst n1 doy; Z.div_mod_to_equations; lia).
  clearbody n400 k n100 r100 n4 r4 n1 doy.
  destruct (Z.eqb_spec n1 4) as [E1|E1]; cbn [orb].
  - replace (n400 * 400 + 1 + n100 * 100 + n4 * 4 + n1 - 1)
      with (n400 * 400 + 1 + n100 * 100 + n4 * 4 + 3) by lia.
    rewrite ymd2ord_year_end.
    + rewrite days_before_year_cycle by lia. lia.
    + rewrite leap_of_cycle by lia. cbn. destruct (Z.eqb_spec n4 24), (Z.eqb_spec n100 3); first [done | lia].
  - destruct (Z.eqb_spec n100 4) as [E2|E2].
    + replace (n400 * 400 + 1 + n100 * 100 + n4 * 4 + n1 - 1)
        with (n400 * 400 + 1 + 3 * 100 + 24 * 4 + 3) by lia.
      rewrite ymd2ord_year_end.
      * rewrite days_before_year_cycle by lia. lia.
      * rewrite leap_of_cycle by lia. done.
    + set (leap := (n1 =? 3) && _).
      assert (Hdoy : 0 <= doy < (if leap then 366 else 365)) by (destruct leap; lia).
      pose proof (month_day_inv leap doy Hdoy) as Hmd.
      destruct (month_day (month_lengths leap) 1 doy) as [m d].
      unfold ymd2ord. rewrite leap_of_cycle by lia. fold leap.
      rewrite days_before_year_cycle by lia. lia.
Qed.

Lemma ord2ymd_year (n : Z) : 0 <= n < 3652059 ->
  let '(y, m, d) := ord2ymd n in 1 <= y <= 9999.
Proof.
  intros Hn. unfold ord2ymd.
  assert (0 <= n / 146097 <= 24) by (Z.div_mod_to_equations; lia).
  destruct (_ || _) eqn:E.
  - Z.div_mod_to_equations. lia.
  - destruct (month_day _ _ _) as [m d]. Z.div_mod_to_equations. lia.
Qed.

(** ** The text round trip *)

Lemma digit_chr_spec (d : Z) : 0 <= d < 10 ->
  is_digit (digit_chr (Z.to_N d)) = true /\ Z.of_N (digit_val (digit_chr (Z.to_N d))) = d.
Proof.
  intros H.
  assert (d = 0 \/ d = 1 \/ d = 2 \/ d = 3 \/ d = 4 \/ d = 5 \/ d = 6 \/ d = 7 \/ d = 8 \/ d = 9)
    as Hd by lia.
  destruct_or! Hd; subst d; done.
Qed.

Lemma read_pad_acc (k : nat) (n acc : Z) (s : string) : 0 <= n ->
  read_digits k acc (pad k n +:+ s)%string
  = Some (acc * 10 ^ Z.of_nat k + n mod 10 ^ Z.of_nat k, s).
Proof.
  intros Hn. revert acc. induction k as [|k IH]; intros acc.
  - cbn. f_equal. f_equal. rewrite Z.mod_1_r. lia.
  - cbn [pad read_digits].
    change ((String.String ?c ?p +:+ s)%string) with (String.String c (p +:+ s)%string).
    cbn [read_digits].
    destruct (digit_chr_spec (n / 10 ^ Z.of_nat k mod 10)) as [-> ->].
    { apply Z.mod_pos_bound. lia. }
    rewrite IH. f_equal. f_equal.
    rewrite Nat2Z.inj_succ, Z.pow_succ_r by lia.
    set (p := 10 ^ Z.of_nat k). assert (0 < p) by (apply Z.pow_pos_nonneg; lia).
    rewrite (Z.mul_comm 10 p), Z.rem_mul_r by lia. lia.
Qed.

Lemma read_pad (k : nat) (n : Z) (s : string) : 0 <= n < 10 ^ Z.of_nat k ->
  read_digits k 0 (pad k n +:+ s)%string = Some (n, s).
Proof. intros H. rewrite read_pad_acc by lia. rewrite Z.mod_small by lia. f_equal. Qed.

Lemma valid_us_ord (us : Z) : valid_us us -> 0 <= us / day_us + epoch_ord < 3652059.
Proof. unfold valid_us, min_us, max_us, day_us, epoch_ord. intros. Z.div_mod_to_equations. lia. Qed.

(** The fields of a timestamp laid out as [isoformat] does, before any
    calendar reading. *)
Definition iso_text (y mo d h mi sec micro : Z) (suffix : string) : string :=
  (pad 4 y +:+ "-" +:+ pad 2 mo +:+ "-" +:+ pad 2 d +:+ "T" +:+
   pad 2 h +:+ ":" +:+ pad 2 mi +:+ ":" +:+ pad 2 sec +:+
   (if Z.eqb micro 0 then suffix else "." +:+ pad 6 micro +:+ suffix))%string.

Lemma fromisoformat_text (y mo d h mi sec micro : Z) (suffix : string) :
  0 <= y < 10000 -> 0 <= mo < 100 -> 0 <= d < 100 ->
  0 <= h < 100 -> 0 <= mi < 100 -> 0 <= sec < 100 -> 0 <= micro < 1000000 ->
  suffix = "+00:00"%string \/ suffix = "Z"%string ->
  fromisoformat (iso_text y mo d h mi sec micro suffix)
  = Some ((ymd2ord y mo d - epoch_ord) * day_us
          + ((h * 60 + mi) * 60 + sec) * 1000000 + micro).
Proof.
  intros ? ? ? ? ? ? ? Hsuf. unfold fromisoformat, iso_text.
  repeat (rewrite read_pad by (cbn; lia); cbn [mbind option_bind];
          rewrite ?string_app_nil_r;
          try match goal with
          | |- context [read_char ?c (?a +:+ ?b)%string] =>
              change (read_char c (a +:+ b)%string) with (Some b); cbn [mbind option_bind]
          end).
  destruct (Z.eqb_spec micro 0) as [->|Hm].
  - destruct Hsuf as [-> | ->]; done.
  - change (read_char "." ("." +:+ pad 6 micro +:+ suffix)%string)
      with (Some (pad 6 micro +:+ suffix)%string).
    cbn [mbind option_bind]. rewrite read_pad by (cbn; lia). cbn [mbind option_bind].
    destruct Hsuf as [-> | ->]; done.
Qed.

(** Instant of the fields [isoformat] prints. *)
Lemma iso_fields (us : Z) : valid_us us ->
  let t := us mod day_us in
  let s := t / 1000000 in
  let micro := t mod 1000000 in
  let '(y, mo, d) := ord2ymd (us / day_us + epoch_ord) in
  (0 <= y < 10000 /\ 0 <= mo < 100 /\ 0 <= d < 100 /\
   0 <= s / 3600 < 100 /\ 0 <= s / 60 mod 60 < 100 /\ 0 <= s mod 60 < 100 /\ 0 <= micro < 1000000) /\
  (ymd2ord y mo d - epoch_ord) * day_us
    + ((s / 3600 * 60 + s / 60 mod 60) * 60 + s mod 60) * 1000000 + micro = us.
Proof.
  intros Hv t s micro.
  pose proof (ord2ymd_inv (us / day_us + epoch_ord)) as Hinv.
  pose proof (ord2ymd_year _ (valid_us_ord us Hv)) as Hy.
  destruct (ord2ymd _) as [[y mo] d]. destruct Hinv as [-> Hmd].
  assert (Ht : us = us / day_us * day_us + t /\ 0 <= t < day_us).
  { subst t. unfold day_us. Z.div_mod_to_equations. lia. }
  assert (Hs : t = s * 1000000 + micro /\ 0 <= micro < 1000000 /\ 0 <= s < 86400).
  { subst s micro. unfold day_us in Ht. clearbody t. Z.div_mod_to_equations. lia. }
  clearbody t s micro.
  assert (Hh : s = (s / 3600 * 60 + s / 60 mod 60) * 60 + s mod 60
               /\ 0 <= s / 3600 < 24 /\ 0 <= s / 60 mod 60 < 60 /\ 0 <= s mod 60 < 60).
  { Z.div_mod_to_equations. lia. }
  lia.
Qed.

(** Every timestamp Python can hold is read back from its [isoformat] text. *)
Lemma isoformat_parse (us : Z) : valid_us us -> fromisoformat (isoformat us) = Some us.
Proof.
  intros Hv. pose proof (iso_fields us Hv) as H. unfold isoformat. cbn zeta in *.
  destruct (ord2ymd _) as [[y mo] d]. destruct H as [Hb He].
  etransitivity; [apply (fromisoformat_text y mo d _ _ _ _ "+00:00"); first [lia | by left]|].
  by rewrite He.
Qed.

Lemma isoformat_z_parse (us : Z) : valid_us us -> fromisoformat (isoformat_z us) = Some us.
Proof.
  intros Hv. pose proof (iso_fields us Hv) as H. unfold isoformat_z. cbn zeta in *.
  destruct (ord2ymd _) as [[y mo] d]. destruct H as [Hb He].
  etransitivity; [apply (fromisoformat_text y mo d _ _ _ _ "Z"); first [lia | by right]|].
  by rewrite He.
Qed.

Lemma isoformat_z_inj (a b : Z) :
  valid_us a -> valid_us b -> isoformat_z a = isoformat_z b -> a = b.
Proof.
  intros Ha Hb E. apply isoformat_z_parse in Ha, Hb. rewrite E in Ha. congruence.
Qed.

#[export] Hint Resolve isoformat_parse isoformat_z_parse : aval.
