(* ===== verification/Decimal.v ===== *)
(** Python's [decimal.Decimal] as the modelled code uses it: exact
    construction from text, the default context (28 significant digits,
    ROUND_HALF_EVEN, InvalidOperation and DivisionByZero trapped),
    [quantize], the arithmetic operators, comparison and the text forms.
    The operators come twice: [dadd] and the like, for operands whose exponents
    are far from the limits of the context (a million digits), as amounts are;
    and [add_in dround] and the like, with the limits of the context, for
    operands that may be anything, as the values of a condition are.  The two
    agree within the limits ([dround_within]). *)
From S2P Require Import Prelude PyTime.

(** Sign, coefficient (never negative) and exponent; or a special value. *)
Inductive dec : Type :=
| DFin (neg : bool) (coef exp : Z)
| DInf (neg : bool)
| DNaN.

#[export] Instance dec_eq_dec : EqDecision dec.
Proof. solve_decision. Defined.

Inductive rounding : Type := ROUND_HALF_EVEN | ROUND_HALF_UP.

Definition prec : Z := 28.
Definition max_coef : Z := 10 ^ 28.

(** ** Digits *)

Fixpoint digits_fuel (fuel : nat) (n : Z) : list Z :=
  match fuel with
  | O => []
  | S f => if n <? 10 then [n] else digits_fuel f (n / 10) ++ [n mod 10]
  end.

(** Decimal digits of [n >= 0], most significant first; the fuel is the number
    of binary digits, which is never smaller. *)
Definition digits (n : Z) : list Z := digits_fuel (S (Z.to_nat (Z.log2 n))) n.
Definition ndigits (n : Z) : Z := Z.of_nat (List.length (digits n)).

Fixpoint digits_val (acc : Z) (ds : list Z) : Z :=
  match ds with [] => acc | d :: ds' => digits_val (acc * 10 + d) ds' end.

Fixpoint digits_str (ds : list Z) : string :=
  match ds with
  | [] => EmptyString
  | d :: ds' => String.String (digit_chr (Z.to_N d)) (digits_str ds')
  end.

(** [str(n)] of an [int]. *)
Definition int_str (n : Z) : string :=
  if n <? 0 then String.String "-" (digits_str (digits (- n))) else digits_str (digits n).

(** ** Rounding *)

Definition div_round (r : rounding) (a b : Z) : Z :=
  let q := a / b in
  let m := a mod b in
  let up := match r with
            | ROUND_HALF_EVEN => (b <? 2 * m) || ((b =? 2 * m) && Z.odd q)
            | ROUND_HALF_UP => b <=? 2 * m
            end in
  if up then q + 1 else q.

(** [_fix]: round a coefficient to the context precision. *)
Definition dfix (neg : bool) (coef exp : Z) : dec :=
  if coef <? max_coef then DFin neg coef exp
  else
    let d := ndigits coef - prec in
    let q := div_round ROUND_HALF_EVEN coef (10 ^ d) in
    if q <? max_coef then DFin neg q (exp + d) else DFin neg (q / 10) (exp + d + 1).

(** Emax, and the exponents of the largest and of the smallest last digit. *)
Definition Emax : Z := 999999.
Definition Etop : Z := Emax - prec + 1.
Definition Etiny : Z := - Emax - prec + 1.

(** [_fix] with the limits: a result above Emax signals Overflow, one below Emin
    is rounded at Etiny (Underflow, Subnormal and Clamped are not trapped). *)
Definition dround (neg : bool) (coef exp : Z) : res dec :=
  if coef =? 0 then Ok (DFin neg 0 (Z.min (Z.max exp Etiny) Emax))
  else
    let exp_min := ndigits coef + exp - prec in
    if Etop <? exp_min then Raise Overflow
    else if exp_min <? Etiny then
      Ok (if exp <? Etiny then DFin neg (div_round ROUND_HALF_EVEN coef (10 ^ (Etiny - exp))) Etiny else DFin neg coef exp)
    else
      match dfix neg coef exp with
      | DFin neg' c e => if (exp <? exp_min) && (Etop <? e) then Raise Overflow else Ok (DFin neg' c e)
      | d => Ok d
      end.

(** [value.quantize(Decimal("0.01"), rounding)]: a result that needs more than
    28 digits signals InvalidOperation. *)
Definition quantize_cent (r : rounding) (d : dec) : res dec :=
  match d with
  | DFin neg coef exp =>
      let c := if coef =? 0 then 0
               else if -2 <=? exp then coef * 10 ^ (exp + 2)
               else div_round r coef (10 ^ (- 2 - exp)) in
      if c <? max_coef then Ok (DFin neg c (-2)) else Raise InvalidOperation
  | DInf _ => Raise InvalidOperation
  | DNaN => Ok DNaN
  end.

Definition is_finite (d : dec) : bool := match d with DFin _ _ _ => true | _ => false end.

(** ** Comparison *)

Definition signed (neg : bool) (c : Z) : Z := if neg then - c else c.

Definition dcompare (a b : dec) : option comparison :=
  match a, b with
  | DNaN, _ | _, DNaN => None
  | DInf n, DInf m => Some (if Bool.eqb n m then Eq else if n then Lt else Gt)
  | DInf n, _ => Some (if n then Lt else Gt)
  | _, DInf m => Some (if m then Gt else Lt)
  | DFin n c e, DFin m k f =>
      let z := Z.min e f in
      Some (signed n c * 10 ^ (e - z) ?= signed m k * 10 ^ (f - z))
  end.

Definition deq (a b : dec) : bool := match dcompare a b with Some Eq => true | _ => false end.
(** Ordering a NaN signals InvalidOperation. *)
Definition dlt (a b : dec) : res bool :=
  match dcompare a b with Some Lt => Ok true | Some _ => Ok false | None => Raise InvalidOperation end.
Definition dle (a b : dec) : res bool :=
  match dcompare a b with Some Gt => Ok false | Some _ => Ok true | None => Raise InvalidOperation end.

(** ** Arithmetic *)

Definition dzero : dec := DFin false 0 0.
Definition dneg (d : dec) : dec :=
  match d with DFin n c e => DFin (negb n) c e | DInf n => DInf (negb n) | DNaN => DNaN end.

Section Operators.
(** What rounds a result. *)
Variable fix_ : bool -> Z -> Z -> res dec.

Definition add_in (a b : dec) : res dec :=
  match a, b with
  | DFin n c e, DFin m k f =>
      let z := Z.min e f in
      let s := signed n c * 10 ^ (e - z) + signed m k * 10 ^ (f - z) in
      let neg := if s =? 0 then n && m else s <? 0 in
      fix_ neg (Z.abs s) z
  | DNaN, _ | _, DNaN => Ok DNaN
  | DInf n, DInf m => if Bool.eqb n m then Ok (DInf n) else Raise InvalidOperation
  | DInf n, _ | _, DInf n => Ok (DInf n)
  end.

Definition sub_in (a b : dec) : res dec := add_in a (dneg b).

Definition mul_in (a b : dec) : res dec :=
  match a, b with
  | DFin n c e, DFin m k f => fix_ (xorb n m) (c * k) (e + f)
  | DNaN, _ | _, DNaN => Ok DNaN
  | DInf n, DFin m k _ | DFin m k _, DInf n =>
      if k =? 0 then Raise InvalidOperation else Ok (DInf (xorb n m))
  | DInf n, DInf m => Ok (DInf (xorb n m))
  end.

(** Drop trailing zeros while the exponent is below the ideal one. *)
Fixpoint strip_zeros (fuel : nat) (c e ideal : Z) : Z * Z :=
  match fuel with
  | O => (c, e)
  | S f => if (e <? ideal) && (c mod 10 =? 0) then strip_zeros f (c / 10) (e + 1) ideal else (c, e)
  end.

Definition div_in (a b : dec) : res dec :=
  match a, b with
  | DFin n c e, DFin m k f =>
      if k =? 0 then (if c =? 0 then Raise InvalidOperation else Raise DivisionByZero)
      else if c =? 0 then fix_ (xorb n m) 0 (e - f)
      else
        let shift := ndigits k - ndigits c + prec + 1 in
        let ex := e - f - shift in
        let num := if 0 <=? shift then c * 10 ^ shift else c in
        let den := if 0 <=? shift then k else k * 10 ^ (- shift) in
        let q := num / den in
        if num mod den =? 0 then
          let '(q, ex) := strip_zeros (Z.to_nat (e - f - ex)) q ex (e - f) in
          fix_ (xorb n m) q ex
        else fix_ (xorb n m) (if q mod 5 =? 0 then q + 1 else q) ex
  | DNaN, _ | _, DNaN => Ok DNaN
  | DInf _, DInf _ => Raise InvalidOperation
  | DInf n, DFin m _ _ => Ok (DInf (xorb n m))
  | DFin n _ _, DInf m => fix_ (xorb n m) 0 Etiny
  end.

(** [a % b]: the sign of the dividend; a quotient over 28 digits signals
    InvalidOperation (DivisionImpossible). *)
Definition mod_in (a b : dec) : res dec :=
  match a, b with
  | DFin n c e, DFin m k f =>
      if k =? 0 then Raise InvalidOperation
      else
        let z := Z.min e f in
        let x := c * 10 ^ (e - z) in
        let y := k * 10 ^ (f - z) in
        if x / y <? max_coef then fix_ n (x mod y) z else Raise InvalidOperation
  | DNaN, _ | _, DNaN => Ok DNaN
  | DInf _, _ => Raise InvalidOperation
  | DFin n c e, DInf _ => fix_ n c e
  end.
End Operators.

Definition dfixed (neg : bool) (coef exp : Z) : res dec := Ok (dfix neg coef exp).
Definition dadd (a b : dec) : res dec := add_in dfixed a b.
Definition dsub (a b : dec) : res dec := dadd a (dneg b).
Definition dmul (a b : dec) : res dec := mul_in dfixed a b.
Definition ddiv (a b : dec) : res dec := div_in dfixed a b.

(** ** Text *)

Definition zeros (n : Z) : list Z := List.repeat 0 (Z.to_nat n).

(** [str(d)], the to-scientific-string form. *)
Definition dec_str (d : dec) : string :=
  match d with
  | DInf neg => if neg then "-Infinity" else "Infinity"
  | DNaN => "NaN"
  | DFin neg coef exp =>
      let ds := digits coef in
      let len := Z.of_nat (List.length ds) in
      let left := exp + len in
      let dot := if (exp <=? 0) && (-6 <? left) then left else 1 in
      let body :=
        if dot <=? 0 then ("0." +:+ digits_str (zeros (- dot) ++ ds))%string
        else if len <=? dot then digits_str (ds ++ zeros (dot - len))
        else (digits_str (firstn (Z.to_nat dot) ds) +:+ "." +:+
              digits_str (skipn (Z.to_nat dot) ds))%string in
      let ex := if left =? dot then EmptyString
                else ("E" +:+ (if Z.ltb (left - dot) 0 then EmptyString else "+") +:+
                      int_str (left - dot))%string in
      ((if neg then "-" else "") +:+ body +:+ ex)%string
  end.

(** [format(d, "f")]: never an exponent. *)
Definition dec_fmt_f (d : dec) : string :=
  match d with
  | DFin neg coef exp =>
      let ds := digits coef in
      let len := Z.of_nat (List.length ds) in
      let left := exp + len in
      let body :=
        if 0 <=? exp then digits_str (if coef =? 0 then [0] else ds ++ zeros exp)
        else if left <=? 0 then ("0." +:+ digits_str (zeros (- left) ++ ds))%string
        else (digits_str (firstn (Z.to_nat left) ds) +:+ "." +:+
              digits_str (skipn (Z.to_nat left) ds))%string in
      ((if neg then "-" else "") +:+ body)%string
  | _ => dec_str d
  end.

(** [format(d, ".2f")] of a value whose exponent is already -2. *)
Definition fmt_cents (neg : bool) (c : Z) : string :=
  ((if neg then "-" else "") +:+ digits_str (digits (c / 100)) +:+ "." +:+ pad 2 (c mod 100))%string.

(** ** [Decimal(text)] *)

Definition is_space (c : ascii) : bool :=
  let n := N_of_ascii c in
  ((n =? 32) || ((9 <=? n) && (n <=? 13)) || ((28 <=? n) && (n <=? 31)))%N.

Fixpoint lstrip (s : string) : string :=
  match s with
  | String.String c s' => if is_space c then lstrip s' else s
  | EmptyString => EmptyString
  end.

Fixpoint rstrip (s : string) : string :=
  match s with
  | EmptyString => EmptyString
  | String.String c s' =>
      match rstrip s' with
      | EmptyString => if is_space c then EmptyString else String.String c EmptyString
      | r => String.String c r
      end
  end.

Fixpoint drop_underscores (s : string) : string :=
  match s with
  | EmptyString => EmptyString
  | String.String c s' =>
      if Ascii.eqb c "_" then drop_underscores s' else String.String c (drop_underscores s')
  end.

(** The longest prefix of digits, and the rest. *)
Fixpoint span_digits (s : string) : list Z * string :=
  match s with
  | String.String c s' =>
      if is_digit c then
        let '(ds, r) := span_digits s' in (Z.of_N (digit_val c) :: ds, r)
      else ([], s)
  | EmptyString => ([], EmptyString)
  end.

Definition read_sign (s : string) : bool * string :=
  match s with
  | String.String c s' =>
      if Ascii.eqb c "-" then (true, s')
      else if Ascii.eqb c "+" then (false, s') else (false, s)
  | EmptyString => (false, EmptyString)
  end.

Definition parse_exponent (s : string) : option Z :=
  match s with
  | EmptyString => Some 0
  | String.String c s' =>
      if Ascii.eqb (ascii_upper c) "E" then
        let '(neg, s'') := read_sign s' in
        let '(ds, r) := span_digits s'' in
        match ds, r with
        | [], _ => None
        | _, EmptyString => Some (signed neg (digits_val 0 ds))
        | _, _ => None
        end
      else None
  end.

Definition parse_special (neg : bool) (s : string) : option dec :=
  let u := upper s in
  if String.eqb u "INF" || String.eqb u "INFINITY" then Some (DInf neg)
  else
    let u := match u with String.String c r => if Ascii.eqb c "S" then r else u | _ => u end in
    if String.prefix "NAN" u then
      match span_digits (String.substring 3 (String.length u - 3) u) with
      | (_, EmptyString) => Some DNaN
      | _ => None
      end
    else None.

Definition parse_number (neg : bool) (s : string) : option dec :=
  let '(ip, r) := span_digits s in
  let '(fp, r) := match r with
                  | String.String c r' => if Ascii.eqb c "." then span_digits r' else ([], r)
                  | EmptyString => ([], r)
                  end in
  match ip ++ fp with
  | [] => None
  | ds => match parse_exponent r with
          | Some x => Some (DFin neg (digits_val 0 ds) (x - Z.of_nat (List.length fp)))
          | None => None
          end
  end.

(** [Decimal(s)]; text outside the grammar signals InvalidOperation. *)
Definition decimal_of_string (s : string) : res dec :=
  let '(neg, r) := read_sign (drop_underscores (rstrip (lstrip s))) in
  match parse_number neg r with
  | Some d => Ok d
  | None => match parse_special neg r with Some d => Ok d | None => Raise InvalidOperation end
  end.

Definition decimal_of_int (n : Z) : dec := DFin (n <? 0) (Z.abs n) 0.

(** ** The value of a float *)

(** The double nearest to a positive ratio, ties to even: a mantissa below 2^53
    (or 2^53 itself) and a power of two not below the least one. *)
Definition double_nearest (num den : Z) : Z * Z :=
  let scaled k := if 0 <=? k then (num, den * 2 ^ k) else (num * 2 ^ (- k), den) in
  let k := Z.max (-1074) (Z.log2 num - Z.log2 den - 53) in
  let '(n, d) := scaled k in
  let k := if n / d <? 2 ^ 53 then k else k + 1 in
  let '(n, d) := scaled k in
  (div_round ROUND_HALF_EVEN n d, k).

(** The exact value of the float that has this [repr]. *)
Definition float_exact (r : string) : dec :=
  match decimal_of_string r with
  | Ok (DFin neg c e) =>
      if c =? 0 then DFin neg 0 0
      else
        let '(m, k) := if 0 <=? e then double_nearest (c * 10 ^ e) 1 else double_nearest c (10 ^ (- e)) in
        if 0 <=? k then DFin neg (m * 2 ^ k) 0 else DFin neg (m * 5 ^ (- k)) k
  | Ok d => d
  | Raise _ => DNaN
  end.

Example float_exact_tenth : float_exact "0.1" = DFin false (3602879701896397 * 2 * 5 ^ 56) (-56).
Proof. vm_compute. reflexivity. Qed.
Example float_exact_large : deq (float_exact "1.152921504606847e+18") (decimal_of_int (2 ^ 60)) = true.
Proof. vm_compute. reflexivity. Qed.

(** ** Digits: value, range and uniqueness *)

Lemma log2_div10 (n : Z) : 10 <= n -> Z.log2 (n / 10) < Z.log2 n.
Proof.
  intros Hn. assert (1 <= n / 10 /\ n / 10 * 2 ^ 1 <= n) as [H1 H2].
  { change (2 ^ 1) with 2. Z.div_mod_to_equations. lia. }
  apply Z.log2_le_mono in H2. rewrite Z.log2_mul_pow2 in H2; lia.
Qed.

Lemma digits_fuel_irrel (f g : nat) (n : Z) :
  0 <= n -> Z.log2 n < Z.of_nat f -> Z.log2 n < Z.of_nat g ->
  digits_fuel f n = digits_fuel g n.
Proof.
  revert g n. induction f as [|f IH]; intros g n Hn Hf Hg.
  - pose proof (Z.log2_nonneg n). lia.
  - destruct g as [|g]; [pose proof (Z.log2_nonneg n); lia|]. cbn [digits_fuel].
    destruct (Z.ltb_spec n 10); [done|]. f_equal.
    pose proof (log2_div10 n ltac:(lia)).
    apply IH; [Z.div_mod_to_equations; lia|lia|lia].
Qed.

Lemma digits_eq (n : Z) : 0 <= n ->
  digits n = if n <? 10 then [n] else digits (n / 10) ++ [n mod 10].
Proof.
  intros Hn. unfold digits at 1. cbn [digits_fuel].
  destruct (Z.ltb_spec n 10); [done|]. f_equal. unfold digits.
  pose proof (Z.log2_nonneg n). pose proof (Z.log2_nonneg (n / 10)).
  pose proof (log2_div10 n ltac:(lia)).
  apply digits_fuel_irrel; [Z.div_mod_to_equations; lia|lia|lia].
Qed.

(** Induction along the digits of a number. *)
Lemma digits_ind (P : Z -> Prop) :
  (forall n, 0 <= n < 10 -> P n) ->
  (forall n, 10 <= n -> P (n / 10) -> P n) ->
  forall n, 0 <= n -> P n.
Proof.
  intros Hb Hs n Hn. generalize Hn. pattern n. apply Z_lt_induction; [|exact Hn].
  intros x IH Hx. destruct (Z.lt_ge_cases x 10); [by apply Hb|].
  apply Hs; [done|]. apply IH; Z.div_mod_to_equations; lia.
Qed.

Lemma digits_val_app acc ds d : digits_val acc (ds ++ [d]) = digits_val acc ds * 10 + d.
Proof. revert acc. induction ds as [|x ds IH]; intros acc; [done|]. cbn. apply IH. Qed.

Lemma digits_val_cat acc ds es : digits_val acc (ds ++ es) = digits_val (digits_val acc ds) es.
Proof. revert acc. induction ds as [|x ds IH]; intros acc; [done|]. cbn. apply IH. Qed.

Lemma digits_value (n : Z) : 0 <= n -> digits_val 0 (digits n) = n.
Proof.
  revert n. apply digits_ind.
  - intros n Hn. rewrite digits_eq by lia. destruct (Z.ltb_spec n 10); [cbn; lia|lia].
  - intros n Hn IH. rewrite digits_eq by lia. destruct (Z.ltb_spec n 10); [lia|].
    rewrite digits_val_app, IH. Z.div_mod_to_equations. lia.
Qed.

Definition is_digit_val (d : Z) : Prop := 0 <= d < 10.

Lemma digits_range (n : Z) : 0 <= n -> Forall is_digit_val (digits n).
Proof.
  revert n. apply digits_ind.
  - intros n Hn. rewrite digits_eq by lia. destruct (Z.ltb_spec n 10); [|lia]. by apply Forall_singleton.
  - intros n Hn IH. rewrite digits_eq by lia. destruct (Z.ltb_spec n 10); [lia|].
    apply Forall_app. split; [done|]. apply Forall_singleton, Z.mod_pos_bound. lia.
Qed.

(** A digit list without a leading zero, other than [[0]] itself. *)
Definition plain_digits (ds : list Z) : Prop :=
  match ds with [] => False | [_] => True | d :: _ => d <> 0 end.

Lemma digits_val_pos acc ds :
  0 <= acc -> Forall is_digit_val ds -> acc <= digits_val acc ds.
Proof.
  intros Ha H. revert acc Ha. induction H as [|d ds Hd _ IH]; intros acc Ha; [done|].
  unfold is_digit_val in Hd. cbn. etransitivity; [|apply IH]; lia.
Qed.

Lemma digits_plain (n : Z) : 0 <= n -> plain_digits (digits n).
Proof.
  intros Hn. cut (plain_digits (digits n) /\ (1 <= n -> hd 0 (digits n) <> 0)); [tauto|].
  revert n Hn. apply digits_ind.
  - intros n Hn. rewrite digits_eq by lia. destruct (Z.ltb_spec n 10); [|lia]. cbn. lia.
  - intros n Hn IH. rewrite digits_eq by lia. destruct (Z.ltb_spec n 10); [lia|].
    assert (1 <= n / 10) by (Z.div_mod_to_equations; lia).
    destruct IH as [IH1 IH2]. specialize (IH2 ltac:(done)).
    destruct (digits (n / 10)) as [|d ds]; [done|]. cbn in *. by destruct ds.
Qed.

(** The digits of a value are the only plain digit list with that value. *)
Lemma digits_unique (ds : list Z) :
  plain_digits ds -> Forall is_digit_val ds -> digits (digits_val 0 ds) = ds.
Proof.
  induction ds as [|d ds IH] using rev_ind; [done|]. intros Hp Hr.
  apply Forall_app in Hr as [Hr Hd]. rewrite Forall_singleton in Hd. unfold is_digit_val in Hd.
  rewrite digits_val_app. destruct ds as [|x ds].
  - change (digits_val 0 [] * 10 + d) with d.
    rewrite digits_eq by lia. destruct (Z.ltb_spec d 10); [done|lia].
  - assert (Hx : x <> 0) by (cbn in Hp; by destruct ds). clear Hp.
    assert (1 <= digits_val 0 (x :: ds)).
    { inversion Hr as [|? ? Hx' Hr' E]. subst. unfold is_digit_val in Hx'. cbn.
      etransitivity; [|apply digits_val_pos; [lia|done]]. lia. }
    rewrite digits_eq by lia. destruct (Z.ltb_spec (digits_val 0 (x :: ds) * 10 + d) 10); [lia|].
    rewrite Z.div_add_l, Z.div_small, Z.add_0_r by lia.
    rewrite (Z.add_comm _ d), Z.mod_add, Z.mod_small by lia.
    rewrite IH; [done| |done]. cbn. by destruct ds.
Qed.

Lemma digits_val_lt ds : Forall is_digit_val ds -> digits_val 0 ds < 10 ^ Z.of_nat (List.length ds).
Proof.
  induction ds as [|d ds IH] using rev_ind; [done|]. intros H.
  apply Forall_app in H as [H Hd]. rewrite Forall_singleton in Hd. unfold is_digit_val in Hd.
  specialize (IH H). rewrite digits_val_app, length_app. cbn [List.length].
  rewrite Nat.add_1_r, Nat2Z.inj_succ, Z.pow_succ_r by lia. lia.
Qed.

Lemma ndigits_bounds (n : Z) : 1 <= n -> 10 ^ (ndigits n - 1) <= n < 10 ^ ndigits n.
Proof.
  intros Hn. split.
  - assert (Hn0 : 0 <= n) by lia. revert Hn.
    apply (digits_ind (fun n => 1 <= n -> 10 ^ (ndigits n - 1) <= n)); [| |exact Hn0]; clear n Hn0.
    + intros n Hn Hn1. unfold ndigits. rewrite digits_eq by lia.
      destruct (Z.ltb_spec n 10); cbn; lia.
    + intros n Hn IH _. unfold ndigits in *. rewrite digits_eq by lia.
      destruct (Z.ltb_spec n 10); [lia|]. rewrite length_app. cbn [List.length].
      assert (1 <= n / 10) as H1 by (Z.div_mod_to_equations; lia). specialize (IH H1).
      set (k := List.length (digits (n / 10))) in *.
      assert (0 < k)%nat.
      { pose proof (digits_plain (n / 10) ltac:(lia)). subst k.
        destruct (digits (n / 10)); cbn in *; [done|lia]. }
      replace (Z.of_nat (k + 1) - 1) with (Z.succ (Z.of_nat k - 1)) by lia.
      rewrite Z.pow_succ_r by lia.
      transitivity (10 * (n / 10)); [lia|]. Z.div_mod_to_equations. lia.
  - rewrite <- (digits_value n) at 1 by lia. apply digits_val_lt, digits_range. lia.
Qed.

(** ** Parsing of plain two-decimal text *)

Lemma str_forallb_app p a b :
  str_forallb p (a +:+ b)%string = str_forallb p a && str_forallb p b.
Proof.
  induction a as [|c a IH]; [done|].
  change ((String.String c a +:+ b)%string) with (String.String c (a +:+ b)%string).
  cbn. by rewrite IH, andb_assoc.
Qed.

Lemma str_forallb_impl (p q : ascii -> bool) s :
  (forall c, p c = true -> q c = true) -> str_forallb p s = true -> str_forallb q s = true.
Proof.
  intros H. induction s as [|c s IH]; [done|]. cbn. rewrite !andb_true_iff.
  intros [? ?]. eauto.
Qed.

Definition number_char (c : ascii) : bool := is_digit c || Ascii.eqb c ".".

Lemma number_char_plain c : number_char c = true ->
  is_space c = false /\ Ascii.eqb c "_" = false.
Proof. destruct c as [[] [] [] [] [] [] [] []]; vm_compute; split; congruence. Qed.

Lemma lstrip_plain s : str_forallb number_char s = true -> lstrip s = s.
Proof.
  destruct s as [|c s]; [done|]. cbn. intros H%andb_prop. destruct H as [H _].
  apply number_char_plain in H as [-> _]. done.
Qed.

Lemma rstrip_plain s : str_forallb number_char s = true -> rstrip s = s.
Proof.
  induction s as [|c s IH]; [done|]. cbn. intros [H Hs]%andb_prop.
  apply number_char_plain in H as [-> _]. rewrite IH by done. by destruct s.
Qed.

Lemma drop_underscores_plain s : str_forallb number_char s = true -> drop_underscores s = s.
Proof.
  induction s as [|c s IH]; [done|]. cbn. intros [H Hs]%andb_prop.
  apply number_char_plain in H as [_ ->]. by rewrite IH.
Qed.

Lemma digits_str_forallb ds : Forall is_digit_val ds -> str_forallb is_digit (digits_str ds) = true.
Proof.
  induction 1 as [|d ds Hd _ IH]; [done|]. cbn. rewrite IH, andb_true_r.
  by apply digit_chr_spec.
Qed.

Definition no_digit_head (r : string) : Prop :=
  match r with String.String c _ => is_digit c = false | EmptyString => True end.

Lemma span_digits_str ds r : Forall is_digit_val ds -> no_digit_head r ->
  span_digits (digits_str ds +:+ r)%string = (ds, r).
Proof.
  intros H Hr. induction H as [|d ds Hd _ IH].
  - destruct r as [|c r]; [done|].
    change ((digits_str [] +:+ String.String c r)%string) with (String.String c r).
    cbn in *. by rewrite Hr.
  - change ((digits_str (d :: ds) +:+ r)%string)
      with (String.String (digit_chr (Z.to_N d)) (digits_str ds +:+ r)%string).
    cbn [span_digits]. destruct (digit_chr_spec d Hd) as [-> E]. by rewrite IH, E.
Qed.

Lemma span_digits_pad k n r : 0 <= n -> no_digit_head r ->
  exists ds, span_digits (pad k n +:+ r)%string = (ds, r)
             /\ List.length ds = k
             /\ forall acc, digits_val acc ds = acc * 10 ^ Z.of_nat k + n mod 10 ^ Z.of_nat k.
Proof.
  intros Hn Hr. induction k as [|k IH].
  - exists []. split; [by apply (span_digits_str [] r)|]. split; [done|]. intros acc. cbn.
    rewrite Z.mod_1_r. lia.
  - destruct IH as (ds & Hsp & Hl & Hv). eexists (_ :: ds).
    change ((pad (S k) n +:+ r)%string)
      with (String.String (digit_chr (Z.to_N (n / 10 ^ Z.of_nat k mod 10))) (pad k n +:+ r)%string).
    cbn [span_digits].
    destruct (digit_chr_spec (n / 10 ^ Z.of_nat k mod 10)) as [-> E].
    { apply Z.mod_pos_bound. lia. }
    rewrite Hsp. split; [done|]. split; [cbn; lia|]. intros acc. cbn [digits_val].
    rewrite E, Hv, Nat2Z.inj_succ, Z.pow_succ_r by lia.
    set (p := 10 ^ Z.of_nat k). assert (0 < p) by (apply Z.pow_pos_nonneg; lia).
    rewrite (Z.mul_comm 10 p), Z.rem_mul_r by lia. lia.
Qed.

Lemma pad_forallb k n : str_forallb is_digit (pad k n) = true.
Proof.
  induction k as [|k IH]; [done|]. cbn. rewrite IH, andb_true_r.
  apply digit_chr_spec, Z.mod_pos_bound. lia.
Qed.

Definition cents_text (c : Z) : string :=
  (digits_str (digits (c / 100)) +:+ "." +:+ pad 2 (c mod 100))%string.

Lemma cents_text_plain c : 0 <= c -> str_forallb number_char (cents_text c) = true.
Proof.
  intros Hc. unfold cents_text. rewrite !str_forallb_app.
  assert (forall x, is_digit x = true -> number_char x = true) as Hi.
  { intros x Hx. unfold number_char. by rewrite Hx. }
  rewrite (str_forallb_impl _ _ _ Hi (digits_str_forallb _
            (digits_range (c / 100) ltac:(Z.div_mod_to_equations; lia)))).
  rewrite (str_forallb_impl _ _ _ Hi (pad_forallb 2 _)). done.
Qed.

Lemma cents_text_head c : 0 <= c ->
  exists x r, cents_text c = String.String x r /\ is_digit x = true.
Proof.
  intros Hc. assert (0 <= c / 100) as Hq by (Z.div_mod_to_equations; lia).
  pose proof (digits_plain _ Hq) as Hp. pose proof (digits_range _ Hq) as Hr.
  unfold cents_text. destruct (digits (c / 100)) as [|d ds]; [done|].
  inversion Hr; subst. eexists _, _. split; [reflexivity|]. by apply digit_chr_spec.
Qed.

Lemma decimal_of_cents_text c : 0 <= c ->
  decimal_of_string (cents_text c) = Ok (DFin false c (-2)).
Proof.
  intros Hc. assert (0 <= c / 100) as Hq by (Z.div_mod_to_equations; lia).
  pose proof (cents_text_plain c Hc) as Hp. unfold decimal_of_string.
  rewrite lstrip_plain, rstrip_plain, drop_underscores_plain by done.
  destruct (cents_text_head c Hc) as (x & r & E & Hx).
  assert (read_sign (cents_text c) = (false, cents_text c)) as ->.
  { rewrite E. cbn. destruct x as [[] [] [] [] [] [] [] []]; vm_compute in Hx; done. }
  destruct (span_digits_pad 2 (c mod 100) EmptyString) as (ds & Hsp & Hl & Hv);
    [Z.div_mod_to_equations; lia|done|].
  rewrite string_app_nil_r in Hsp.
  assert (parse_number false (cents_text c) = Some (DFin false c (-2))) as ->; [|done].
  unfold parse_number, cents_text.
  rewrite span_digits_str by (done || by apply digits_range).
  change (("." +:+ pad 2 (c mod 100))%string) with (String.String "." (pad 2 (c mod 100))).
  cbn [Ascii.eqb Bool.eqb]. rewrite Hsp.
  destruct (digits (c / 100) ++ ds) as [|d l] eqn:El.
  { apply (f_equal List.length) in El. rewrite length_app in El. cbn in El. lia. }
  rewrite <- El, digits_val_cat, digits_value, Hv, Hl by done. cbn.
  do 2 f_equal. Z.div_mod_to_equations. lia.
Qed.

(** Distinct amounts have distinct text. *)
Lemma cents_text_inj a b : 0 <= a -> 0 <= b -> cents_text a = cents_text b -> a = b.
Proof.
  intros Ha Hb E. apply decimal_of_cents_text in Ha, Hb. rewrite E in Ha. congruence.
Qed.

(** ** Arithmetic on amounts: exponent -2, at most 28 digits *)

Definition cents (c : Z) : dec := DFin false c (-2).

Lemma dadd_cents a b : 0 <= a -> 0 <= b -> a + b < max_coef ->
  dadd (cents a) (cents b) = Ok (cents (a + b)).
Proof.
  intros Ha Hb Hab. unfold dadd, add_in, dfixed, cents, dfix. cbn -[max_coef].
  rewrite !Z.mul_1_r, Z.abs_eq by lia.
  destruct (Z.ltb_spec (a + b) max_coef); [|lia].
  destruct (Z.eqb_spec (a + b) 0), (Z.ltb_spec (a + b) 0); try done; lia.
Qed.

Lemma dsub_cents a b : 0 <= b <= a -> a < max_coef -> dsub (cents a) (cents b) = Ok (cents (a - b)).
Proof.
  intros Hab Ha. unfold dsub, dadd, add_in, dfixed, cents, dneg, dfix. cbn -[max_coef]. rewrite !Z.mul_1_r.
  replace (a + - b) with (a - b) by lia. rewrite Z.abs_eq by lia.
  destruct (Z.ltb_spec (a - b) max_coef); [|lia].
  destruct (Z.eqb_spec (a - b) 0), (Z.ltb_spec (a - b) 0); try done; lia.
Qed.

Lemma dcompare_cents a b : dcompare (cents a) (cents b) = Some (a ?= b).
Proof. unfold dcompare, cents. cbn. by rewrite !Z.mul_1_r. Qed.

Lemma dlt_cents a b : dlt (cents a) (cents b) = Ok (a <? b).
Proof. unfold dlt, Z.ltb. rewrite dcompare_cents. by destruct (a ?= b). Qed.

Lemma dle_cents a b : dle (cents a) (cents b) = Ok (a <=? b).
Proof. unfold dle, Z.leb. rewrite dcompare_cents. by destruct (a ?= b). Qed.

Lemma deq_cents a b : deq (cents a) (cents b) = (a =? b).
Proof. unfold deq. rewrite dcompare_cents, Z.eqb_compare. by destruct (a ?= b). Qed.

Lemma quantize_cents r n c : c < max_coef -> 0 <= c ->
  quantize_cent r (DFin n c (-2)) = Ok (DFin n c (-2)).
Proof.
  intros Hc Hc0. cbn -[max_coef]. rewrite Z.mul_1_r.
  destruct (Z.eqb_spec c 0) as [->|]; [done|]. destruct (Z.ltb_spec c max_coef); [done|lia].
Qed.

#[export] Hint Rewrite dlt_cents dle_cents deq_cents dcompare_cents : aval.

(** ** [str] of an amount *)

Lemma digits_split2 c : 100 <= c -> digits c = digits (c / 100) ++ [c / 10 mod 10; c mod 10].
Proof.
  intros Hc. rewrite digits_eq by lia. destruct (Z.ltb_spec c 10); [lia|].
  rewrite (digits_eq (c / 10)) by (Z.div_mod_to_equations; lia).
  destruct (Z.ltb_spec (c / 10) 10); [Z.div_mod_to_equations; lia|].
  rewrite Z.div_div by lia. by rewrite <- app_assoc.
Qed.

Lemma digits_str_app a b : digits_str (a ++ b) = (digits_str a +:+ digits_str b)%string.
Proof. induction a as [|d a IH]; [done|]. exact (f_equal (String.String _) IH). Qed.

Lemma pad2_digits m : 0 <= m < 100 -> pad 2 m = digits_str [m / 10 mod 10; m mod 10].
Proof.
  intros H. cbn [pad digits_str Z.of_nat Pos.of_succ_nat].
  change (10 ^ 1) with 10. change (10 ^ 0) with 1. by rewrite Z.div_1_r.
Qed.

Lemma dec_str_body c : 0 <= c ->
  let ds := digits c in
  let len := Z.of_nat (List.length ds) in
  let dot := -2 + len in
  -6 < dot /\
  (if dot <=? 0 then ("0." +:+ digits_str (zeros (- dot) ++ ds))%string
   else if len <=? dot then digits_str (ds ++ zeros (dot - len))
   else (digits_str (firstn (Z.to_nat dot) ds) +:+ "." +:+
         digits_str (skipn (Z.to_nat dot) ds))%string) = cents_text c.
Proof.
  intros Hc ds len dot.
  assert (forall m, 0 <= m < 100 -> cents_text m = ("0." +:+ digits_str [m / 10 mod 10; m mod 10])%string) as Hsmall.
  { intros m Hm. unfold cents_text. rewrite Z.div_small, Z.mod_small, pad2_digits by lia. done. }
  destruct (Z.lt_ge_cases c 10) as [H10|H10]; [|destruct (Z.lt_ge_cases c 100) as [H100|H100]].
  - subst dot len ds. rewrite digits_eq by lia. destruct (Z.ltb_spec c 10); [|lia].
    rewrite Hsmall by lia. split; [done|]. cbn [length]. cbn -[Z.div Z.modulo cents_text digit_chr].
    by rewrite (Z.mod_small c), (Z.div_small c) by lia.
  - assert (ds = [c / 10; c mod 10]) as Eds.
    { subst ds. rewrite digits_eq by lia. destruct (Z.ltb_spec c 10); [lia|].
      rewrite digits_eq by (Z.div_mod_to_equations; lia).
      destruct (Z.ltb_spec (c / 10) 10); [done|Z.div_mod_to_equations; lia]. }
    subst dot len. rewrite Eds, Hsmall by lia. split; [done|].
    cbn -[Z.div Z.modulo cents_text digit_chr].
    rewrite (Z.mod_small (c / 10)); [done|]. Z.div_mod_to_equations; lia.
  - pose proof (digits_split2 c H100) as E. fold ds in E.
    assert (0 < List.length (digits (c / 100)))%nat as Hl.
    { pose proof (digits_plain (c / 100) ltac:(Z.div_mod_to_equations; lia)) as Hp.
      destruct (digits (c / 100)); cbn in *; [done|lia]. }
    assert (dot = Z.of_nat (List.length (digits (c / 100)))) as Ed.
    { subst dot len. rewrite E, length_app. cbn [List.length]. lia. }
    split; [lia|]. destruct (Z.leb_spec dot 0); [lia|].
    destruct (Z.leb_spec len dot); [subst dot; lia|].
    rewrite Ed, Nat2Z.id, E, take_app_length, drop_app_length.
    unfold cents_text. rewrite pad2_digits by (Z.div_mod_to_equations; lia).
    do 3 f_equal.
    replace (c mod 100 / 10 mod 10) with (c / 10 mod 10) by (Z.div_mod_to_equations; lia).
    by replace (c mod 100 mod 10) with (c mod 10) by (Z.div_mod_to_equations; lia).
Qed.

Lemma dec_str_cents neg c : 0 <= c ->
  dec_str (DFin neg c (-2)) = ((if neg then "-" else "") +:+ cents_text c)%string.
Proof.
  intros Hc. destruct (dec_str_body c Hc) as [Hd Hb]. unfold dec_str.
  destruct (Z.ltb_spec (-6) (-2 + Z.of_nat (List.length (digits c)))); [|lia].
  cbn [Z.leb Z.compare andb]. change (-2 <=? 0) with true. cbn [andb].
  rewrite Hb, Z.eqb_refl, string_app_nil_r. done.
Qed.

(** ** Division against a threshold

    A quotient is rounded to 28 digits before it is compared; when the operands
    are amounts, the rounding never moves it across a two-decimal ratio. *)

Lemma dcompare_scale n c e m k f s : s <= e -> s <= f ->
  dcompare (DFin n c e) (DFin m k f) = Some (signed n c * 10 ^ (e - s) ?= signed m k * 10 ^ (f - s)).
Proof.
  intros He Hf. cbn. f_equal. set (z := Z.min e f).
  replace (e - s) with ((e - z) + (z - s)) by lia. replace (f - s) with ((f - z) + (z - s)) by lia.
  rewrite !Z.pow_add_r, !Z.mul_assoc by lia.
  assert (0 < 10 ^ (z - s)) by (apply Z.pow_pos_nonneg; lia).
  set (x := signed n c * _). set (y := signed m k * _). clearbody x y.
  apply Zmult_compare_compat_r. lia.
Qed.

Lemma div_round_near r a b : 0 <= a -> 0 < b -> - b <= 2 * (div_round r a b * b - a) <= b.
Proof.
  intros Ha Hb. unfold div_round. pose proof (Z.div_mod a b ltac:(lia)).
  pose proof (Z.mod_pos_bound a b ltac:(lia)).
  set (q := a / b) in *. set (m := a mod b) in *. clearbody q m. clear Ha.
  destruct r; cbn.
  - destruct (Z.ltb_spec b (2 * m)); cbn; [nia|].
    destruct (Z.eqb_spec b (2 * m)); cbn; [destruct (Z.odd q); nia|nia].
  - destruct (Z.leb_spec b (2 * m)); nia.
Qed.

Lemma max_coef_value : max_coef = 10000000000000000000000000000.
Proof. done. Qed.

Lemma dfix_threshold q ex T : 0 <= q < 10 ^ 30 -> (100 | T) ->
  exists R E, dfix false q ex = DFin false R E /\ ex <= E /\
    (T <= q -> T <= R * 10 ^ (E - ex)) /\ (q <= T - 100 -> R * 10 ^ (E - ex) < T) /\
    (q < max_coef -> R = q /\ E = ex).
Proof.
  pose proof max_coef_value as Hm. change (10 ^ 30) with 1000000000000000000000000000000.
  intros Hq [t ->]. unfold dfix. destruct (Z.ltb_spec q max_coef) as [Hs|Hs].
  { exists q, ex. rewrite Z.sub_diag, Z.mul_1_r. repeat split; lia. }
  assert (1 <= q) as Hq1 by lia.
  pose proof (ndigits_bounds q Hq1) as Hn. set (d := ndigits q - prec).
  assert (d = 1 \/ d = 2) as Hd.
  { subst d. unfold prec.
    assert (28 < ndigits q); [|assert (ndigits q - 1 < 30); [|lia]].
    - apply (Z.pow_lt_mono_r_iff 10); [lia|unfold ndigits; lia|]. fold max_coef. lia.
    - apply (Z.pow_lt_mono_r_iff 10); [lia|lia|].
      change (10 ^ 30) with 1000000000000000000000000000000. lia. }
  pose proof (div_round_near ROUND_HALF_EVEN q (10 ^ d) ltac:(lia)
                ltac:(apply Z.pow_pos_nonneg; lia)) as Hr.
  set (r := div_round _ _ _) in *.
  assert (t * 100 <= q -> t * 100 <= r * 10 ^ d) as Hlo by (destruct Hd as [-> | ->]; lia).
  assert (q <= t * 100 - 100 -> r * 10 ^ d < t * 100) as Hhi by (destruct Hd as [-> | ->]; lia).
  destruct (Z.ltb_spec r max_coef) as [Hrm|Hrm].
  - exists r, (ex + d). replace (ex + d - ex) with d by lia. repeat split; lia.
  - assert (r = max_coef) as ->.
    { assert (q < 10 ^ (28 + d)) by (replace (28 + d) with (ndigits q) by (unfold d, prec; lia); lia).
      clear Hn Hlo Hhi. unfold max_coef in *. destruct Hd as [Hd|Hd]; rewrite Hd in *; lia. }
    exists (max_coef / 10), (ex + d + 1). replace (ex + d + 1 - ex) with (d + 1) by lia.
    assert (max_coef / 10 * 10 ^ (d + 1) = max_coef * 10 ^ d) as ->.
    { rewrite Z.pow_add_r by lia. rewrite (Z.mul_comm (10 ^ d)), Z.mul_assoc. done. }
    repeat split; lia.
Qed.

Lemma strip_zeros_value fuel c e ideal :
  let '(c', e') := strip_zeros fuel c e ideal in e <= e' /\ c = c' * 10 ^ (e' - e).
Proof.
  revert c e. induction fuel as [|f IH]; intros c e; cbn.
  - rewrite Z.sub_diag. lia.
  - destruct ((e <? ideal) && (c mod 10 =? 0)) eqn:E; [|rewrite Z.sub_diag; lia]. bool_prop.
    specialize (IH (c / 10) (e + 1)). destruct (strip_zeros _ _ _ _) as [c' e'].
    destruct IH as [He Hc]. split; [lia|].
    replace (e' - e) with (1 + (e' - (e + 1))) by lia. rewrite Z.pow_add_r, Z.mul_assoc by lia.
    Z.div_mod_to_equations. nia.
Qed.

(** What the rounding of [dfix] does to a comparison, the coefficient being
    given with some trailing zeros stripped. *)
Lemma dfix_compare q' j ex T p :
  0 <= q' -> 0 <= j -> q' * 10 ^ j < 10 ^ 30 -> (1000 | T) -> ex <= 0 -> 0 <= p ->
  T = p * 10 ^ (- ex - 2) -> 2 <= - ex ->
  q' * 10 ^ j <= T - 1000 \/ T <= q' * 10 ^ j \/ q' * 10 ^ j < max_coef ->
  dle (cents p) (dfix false q' (ex + j)) = Ok (T <=? q' * 10 ^ j).
Proof.
  intros Hq Hj Hb [t Ht] Hex Hp HT Hx Hcase.
  assert (0 < 10 ^ j) by (apply Z.pow_pos_nonneg; lia).
  assert (forall R E, ex + j <= E -> dfix false q' (ex + j) = DFin false R E ->
    dle (cents p) (dfix false q' (ex + j)) = Ok (T <=? R * 10 ^ (E - (ex + j)) * 10 ^ j)) as Hcmp.
  { intros R E HE ->. unfold dle, cents. rewrite (dcompare_scale _ _ _ _ _ _ ex) by lia. cbn [signed].
    replace (-2 - ex) with (- ex - 2) by lia. rewrite <- HT.
    replace (E - ex) with ((E - (ex + j)) + j) by lia. rewrite Z.pow_add_r, Z.mul_assoc by lia.
    unfold Z.leb. by destruct (T ?= _). }
  destruct (Z.ltb_spec q' max_coef) as [Hs|Hs].
  { rewrite (Hcmp q' (ex + j)); [|lia|unfold dfix; by rewrite (proj2 (Z.ltb_lt _ _) Hs)].
    by rewrite Z.sub_diag, Z.mul_1_r. }
  pose proof max_coef_value as Hm.
  assert (10 ^ 30 = 1000000000000000000000000000000) as H30 by done. rewrite H30 in Hb.
  assert (j = 0 \/ j = 1) as Hj2.
  { destruct (Z.le_gt_cases 2 j) as [H2|]; [|lia].
    assert (10 ^ 2 <= 10 ^ j) by (apply Z.pow_le_mono_r; lia). nia. }
  set (T' := t * (1000 / 10 ^ j)).
  assert (T = T' * 10 ^ j /\ (100 | T')) as [HT' Hd].
  { subst T'. rewrite Ht. destruct Hj2 as [-> | ->].
    - change (1000 / 10 ^ 0) with 1000. change (10 ^ 0) with 1. split; [lia|]. exists (t * 10). lia.
    - change (1000 / 10 ^ 1) with 100. change (10 ^ 1) with 10. split; [lia|]. by exists t. }
  destruct (dfix_threshold q' (ex + j) T') as (R & E & HR & HE & Hlo & Hhi & _); [nia|done|].
  rewrite (Hcmp R E HE HR), HT'. f_equal. clear Hcmp HR Hd HT Ht.
  set (V := R * 10 ^ (E - (ex + j))) in *. clearbody V T'.
  assert (Hcase' : q' <= T' - 100 \/ T' <= q').
  { destruct Hj2 as [-> | ->]; change (10 ^ 0) with 1 in *; change (10 ^ 1) with 10 in *; lia. }
  destruct (Z.leb_spec (T' * 10 ^ j) (V * 10 ^ j)), (Z.leb_spec (T' * 10 ^ j) (q' * 10 ^ j)); nia.
Qed.

Lemma ndigits_pos n : 0 <= n -> 1 <= ndigits n.
Proof.
  intros Hn. unfold ndigits. pose proof (digits_plain n Hn).
  destruct (digits n); cbn in *; [done|lia].
Qed.

Lemma ndigits_le n b : 1 <= n -> 0 <= b -> n < 10 ^ b -> ndigits n <= b.
Proof.
  intros Hn Hb Hlt. pose proof (ndigits_bounds n Hn).
  assert (ndigits n - 1 < b); [|lia]. apply (Z.pow_lt_mono_r_iff 10); [lia|lia|]. lia.
Qed.

(** Far from the limits of the context they make no difference. *)
Lemma dround_within neg coef exp : 0 <= coef < 10 ^ 1000 -> -1000 <= exp <= 1000 -> dround neg coef exp = Ok (dfix neg coef exp).
Proof.
  intros Hc He. unfold dround. assert (Etiny = -1000026 /\ Etop = 999972 /\ Emax = 999999) as (Ey & Et & Em) by done. rewrite Ey, Et, Em.
  destruct (Z.eqb_spec coef 0) as [->|Hne]; [unfold dfix; cbn -[Z.max Z.min]; do 2 f_equal; lia|].
  pose proof (ndigits_le coef 1000 ltac:(lia) ltac:(lia) ltac:(lia)) as Hn. pose proof (ndigits_pos coef ltac:(lia)) as Hp. unfold dfix, prec in *.
  destruct (Z.ltb_spec 999972 (ndigits coef + exp - 28)); [lia|]. destruct (Z.ltb_spec (ndigits coef + exp - 28) (-1000026)); [lia|].
  destruct (coef <? max_coef); [|destruct (_ <? max_coef)]; (match goal with |- context [999972 <? ?e] => destruct (Z.ltb_spec 999972 e); [lia|] end); by rewrite andb_false_r.
Qed.

(** A ratio of two amounts below 10^24 cents, compared with a two-decimal
    ratio: exactly the integer comparison. *)
Theorem ddiv_ratio (c k p : Z) : 0 <= c < 10 ^ 24 -> 0 < k < 10 ^ 24 -> 0 < p ->
  exists q, ddiv (cents c) (cents k) = Ok q /\ dle (cents p) q = Ok (p * k <=? 100 * c).
Proof.
  intros Hc Hk Hp. unfold ddiv, div_in, dfixed, cents. rewrite (proj2 (Z.eqb_neq k 0)) by lia.
  destruct (Z.eqb_spec c 0) as [->|Hc0].
  { exists (DFin false 0 0). split; [done|]. unfold dle. rewrite (dcompare_scale _ _ _ _ _ _ (-2)) by lia.
    cbn [signed]. rewrite Z.sub_diag, Z.mul_1_r, !Z.mul_0_l.
    destruct (Z.leb_spec (p * k) (100 * 0)); [nia|]. by destruct (Z.compare_spec p 0); try lia. }
  pose proof (ndigits_bounds c ltac:(lia)) as Bc. pose proof (ndigits_bounds k ltac:(lia)) as Bk.
  pose proof (ndigits_le c 24 ltac:(lia) ltac:(lia) ltac:(lia)) as Lc.
  pose proof (ndigits_le k 24 ltac:(lia) ltac:(lia) ltac:(lia)) as Lk.
  pose proof (ndigits_pos c ltac:(lia)). pose proof (ndigits_pos k ltac:(lia)).
  cbv zeta. change (-2 - -2) with 0. unfold prec.
  set (nc := ndigits c) in *. set (nk := ndigits k) in *.
  set (sh := nk - nc + 28 + 1). assert (6 <= sh) as Hsh by (subst sh; lia).
  assert ((0 <=? sh) = true) as -> by (apply Z.leb_le; lia).
  set (X := c * 10 ^ sh). set (T := p * 10 ^ (sh - 2)).
  assert (0 < 10 ^ (sh - 2)) by (apply Z.pow_pos_nonneg; lia).
  assert (X = 100 * c * 10 ^ (sh - 2)) as HX.
  { subst X. replace sh with (2 + (sh - 2)) at 1 by lia. rewrite Z.pow_add_r by lia. lia. }
  assert (HT : T * k <= X <-> p * k <= 100 * c).
  { rewrite HX. subst T. split; nia. }
  assert (1000 | T) as HdT.
  { subst T. exists (p * 10 ^ (sh - 5)). replace (sh - 2) with (3 + (sh - 5)) by lia.
    rewrite Z.pow_add_r by lia. lia. }
  pose proof (Z.div_mod X k ltac:(lia)) as HXq. pose proof (Z.mod_pos_bound X k ltac:(lia)) as Hm.
  set (q := X / k) in *. set (m := X mod k) in *.
  assert (0 <= q) as Hq0 by (apply Z.div_pos; lia).
  assert (q < 10 ^ 30) as Hq30.
  { assert (X < 10 ^ nc * 10 ^ sh) by (subst X; nia).
    replace (10 ^ nc * 10 ^ sh) with (10 ^ 30 * 10 ^ (nk - 1)) in * by
      (rewrite <- !Z.pow_add_r by lia; f_equal; lia).
    nia. }
  assert (X < T * k -> q <= T - 1001) as Hgap.
  { intros Hlt. assert (10 ^ (sh - 2) <= (T - q) * k) by (rewrite HX in *; nia).
    assert (1000 * 10 ^ nk <= 10 ^ (sh - 2)).
    { transitivity (10 ^ (3 + nk)); [rewrite Z.pow_add_r by lia; lia|].
      apply Z.pow_le_mono_r; lia. }
    nia. }
  assert (Hval : forall v j ex r, 0 <= v -> 0 <= j -> ex = - sh + j -> v * 10 ^ j = r -> r < 10 ^ 30 ->
            (r <= T - 1000 <-> X < T * k) -> (T <= r <-> T * k <= X) ->
            dle (cents p) (dfix false v ex) = Ok (p * k <=? 100 * c)).
  { intros v j ex r Hv Hj -> Hr Hr30 I1 I2.
    rewrite (dfix_compare v j (- sh) T p); rewrite ?Hr; try done; try lia.
    - f_equal. destruct (Z.leb_spec T r), (Z.leb_spec (p * k) (100 * c)); try done; lia.
    - unfold T. do 2 f_equal. lia. }
  destruct (Z.eqb_spec m 0) as [Hm0|Hm0].
  - pose proof (strip_zeros_value (Z.to_nat (0 - (0 - sh))) q (0 - sh) 0) as Hst.
    destruct (strip_zeros _ _ _ _) as [q' ex']. destruct Hst as [He Hq'].
    eexists. split; [done|]. assert (0 < 10 ^ (ex' - (0 - sh))) by (apply Z.pow_pos_nonneg; lia).
    apply (Hval q' (ex' - (0 - sh)) ex' q); try done; try lia; try nia.
  - eexists. split; [done|].
    assert (10 ^ 30 = 1000000000000000000000000000000) as H30 by done.
    pose proof (Z.mod_pos_bound q 5). pose proof (Z.div_mod q 5).
    apply (Hval _ 0 (0 - sh) (if q mod 5 =? 0 then q + 1 else q)); try lia.
    + destruct (q mod 5 =? 0); lia.
    + destruct (Z.eqb_spec (q mod 5) 0); lia.
    + destruct (q mod 5 =? 0); split; intros; try nia.
    + destruct (q mod 5 =? 0); split; intros; nia.
Qed.

(** Rounding to the precision moves a coefficient by half a unit of its last digit. *)
Lemma dfix_near neg coef exp : 0 <= coef -> exists q d, dfix neg coef exp = DFin neg q (exp + d) /\ 0 <= d /\ 0 <= q /\
  Z.abs (2 * (q * 10 ^ d - coef)) <= 10 ^ d /\ (d = 0 \/ 10 ^ (d + 26) <= coef).
Proof.
  intros Hc. unfold dfix. destruct (Z.ltb_spec coef max_coef) as [Hs|Hs].
  { exists coef, 0. rewrite Z.add_0_r. change (10 ^ 0) with 1. repeat split; lia. }
  pose proof max_coef_value as Hm. pose proof (ndigits_bounds coef ltac:(lia)) as Hn. set (d := ndigits coef - prec).
  assert (1 <= d) as Hd.
  { subst d. unfold prec. assert (28 < ndigits coef); [|lia]. apply (Z.pow_lt_mono_r_iff 10); [lia|unfold ndigits; lia|]. fold max_coef. lia. }
  assert (0 < 10 ^ d) as Hp by (apply Z.pow_pos_nonneg; lia).
  pose proof (div_round_near ROUND_HALF_EVEN coef (10 ^ d) Hc Hp) as Hr. set (q := div_round _ _ _) in *.
  assert (10 ^ (d + 27) <= coef) as Hlow by (replace (d + 27) with (ndigits coef - 1) by (unfold d, prec; lia); lia).
  assert (10 ^ (d + 26) <= 10 ^ (d + 27)) by (apply Z.pow_le_mono_r; lia).
  destruct (Z.ltb_spec q max_coef) as [Hq|Hq].
  - exists q, d. repeat split; try lia. nia.
  - assert (coef < max_coef * 10 ^ d) as Hup.
    { unfold max_coef. rewrite <- Z.pow_add_r by lia. replace (28 + d) with (ndigits coef) by (unfold d, prec; lia). lia. }
    assert (q = max_coef) as ->.
    { assert (~ max_coef + 1 <= q); [|lia]. intros Hge. apply (Z.mul_le_mono_nonneg_r _ _ (10 ^ d)) in Hge; lia. }
    exists (max_coef / 10), (d + 1). replace (d + 1 + 26) with (d + 27) by lia. change (max_coef / 10) with (10 ^ 27).
    split; [f_equal; lia|]. split; [lia|]. split; [by apply Z.pow_nonneg|]. rewrite (Z.pow_add_r 10 d 1) by lia. change max_coef with (10 ^ 27 * 10 ^ 1) in Hr.
    change (10 ^ 1) with 10 in *. split; [|lia]. lia.
Qed.
