(* ===== verification/Sha256.v ===== *)
(** [hashlib.sha256] and [hmac] of the Python standard library (FIPS 180-4,
    RFC 2104), executable: the digests the modelled code stores are computed,
    not assumed.  32-bit words are integers kept below 2^32. *)
From S2P Require Import Prelude.

Definition w32 : Z := 2 ^ 32.
Definition add32 (a b : Z) : Z := (a + b) mod w32.
Definition rotr (n x : Z) : Z := Z.lor (Z.shiftr x n) (Z.shiftl x (32 - n) mod w32).

Definition ch (x y z : Z) : Z := Z.lxor (Z.land x y) (Z.land (w32 - 1 - x) z).
Definition maj (x y z : Z) : Z := Z.lxor (Z.lxor (Z.land x y) (Z.land x z)) (Z.land y z).
Definition bsig0 (x : Z) : Z := Z.lxor (Z.lxor (rotr 2 x) (rotr 13 x)) (rotr 22 x).
Definition bsig1 (x : Z) : Z := Z.lxor (Z.lxor (rotr 6 x) (rotr 11 x)) (rotr 25 x).
Definition ssig0 (x : Z) : Z := Z.lxor (Z.lxor (rotr 7 x) (rotr 18 x)) (Z.shiftr x 3).
Definition ssig1 (x : Z) : Z := Z.lxor (Z.lxor (rotr 17 x) (rotr 19 x)) (Z.shiftr x 10).

(** The constants of the standard are the first 32 bits of the fractional parts
    of the cube roots (round constants) and of the square roots (initial state)
    of the first primes; they are computed from that description. *)
Definition is_prime (n : Z) : bool :=
  forallb (fun d => negb (n mod d =? 0)) (map Z.of_nat (seq 2 (Z.to_nat (n - 2)))).

Definition first_primes (k : nat) : list Z :=
  take k (List.filter is_prime (map Z.of_nat (seq 2 311))).

(** Integer cube root, one bit at a time from bit [k - 1] down. *)
Fixpoint cbrt_bits (k : nat) (acc n : Z) : Z :=
  match k with
  | O => acc
  | S k' =>
      let acc' := acc + 2 ^ Z.of_nat k' in
      cbrt_bits k' (if acc' * acc' * acc' <=? n then acc' else acc) n
  end.

Definition round_constants : list Z :=
  Eval vm_compute in map (fun p => cbrt_bits 36 0 (p * 2 ^ 96) mod w32) (first_primes 64).

Definition initial_state : list Z :=
  Eval vm_compute in map (fun p => Z.sqrt (p * 2 ^ 64) mod w32) (first_primes 8).

(** The message schedule: the list is kept newest first, so the words 2, 7, 15
    and 16 places back are at fixed positions. *)
Fixpoint schedule (n : nat) (ws : list Z) : list Z :=
  match n with
  | O => ws
  | S n' =>
      let w k := nth k ws 0 in
      schedule n' (add32 (add32 (ssig1 (w 1%nat)) (w 6%nat)) (add32 (ssig0 (w 14%nat)) (w 15%nat)) :: ws)
  end.

Definition round (s : list Z) (kw : Z * Z) : list Z :=
  match s with
  | [a; b; c; d; e; f; g; h] =>
      let t1 := add32 (add32 (add32 h (bsig1 e)) (add32 (ch e f g) kw.1)) kw.2 in
      let t2 := add32 (bsig0 a) (maj a b c) in
      [add32 t1 t2; a; b; c; add32 d t1; e; f; g]
  | _ => s
  end.

Definition compress (s : list Z) (block : list Z) : list Z :=
  let ws := rev (schedule 48 (rev block)) in
  zip_with add32 s (fold_left round (zip round_constants ws) s).

(** ** Bytes and padding *)

Fixpoint bytes_of_string (s : string) : list Z :=
  match s with
  | EmptyString => []
  | String.String c s' => Z.of_N (N_of_ascii c) :: bytes_of_string s'
  end.

Fixpoint string_of_bytes (bs : list Z) : string :=
  match bs with
  | [] => EmptyString
  | b :: bs' => String.String (ascii_of_N (Z.to_N b)) (string_of_bytes bs')
  end.

Fixpoint be_bytes (k : nat) (n : Z) : list Z :=
  match k with O => [] | S k' => be_bytes k' (n / 256) ++ [n mod 256] end.

Definition padded (bs : list Z) : list Z :=
  let len := Z.of_nat (List.length bs) in
  bs ++ [128] ++ List.repeat 0 (Z.to_nat ((55 - len) mod 64)) ++ be_bytes 8 (len * 8).

Fixpoint words (bs : list Z) : list Z :=
  match bs with
  | a :: b :: c :: d :: bs' => ((a * 256 + b) * 256 + c) * 256 + d :: words bs'
  | _ => []
  end.

(** Blocks of sixteen words; the fuel is the number of words. *)
Fixpoint blocks (fuel : nat) (ws : list Z) : list (list Z) :=
  match fuel, ws with
  | S f, _ :: _ => firstn 16 ws :: blocks f (skipn 16 ws)
  | _, _ => []
  end.

Definition sha256_bytes (bs : list Z) : list Z :=
  let ws := words (padded bs) in
  flat_map (be_bytes 4) (fold_left compress (blocks (List.length ws) ws) initial_state).

Definition hex_digit (n : Z) : ascii :=
  ascii_of_N (Z.to_N (if n <? 10 then 48 + n else 87 + n)).

Fixpoint hex (bs : list Z) : string :=
  match bs with
  | [] => EmptyString
  | b :: bs' => String.String (hex_digit (b / 16)) (String.String (hex_digit (b mod 16)) (hex bs'))
  end.

(** [hashlib.sha256(s.encode("utf-8")).hexdigest()] *)
Definition sha256_hex (s : string) : string := hex (sha256_bytes (bytes_of_string s)).

(** [hmac.new(key, msg, hashlib.sha256).hexdigest()] *)
Definition hmac_key (key : list Z) : list Z :=
  let k := if 64 <? Z.of_nat (List.length key) then sha256_bytes key else key in
  k ++ List.repeat 0 (64 - List.length k)%nat.

Definition hmac_bytes (key msg : list Z) : list Z :=
  let k := hmac_key key in
  sha256_bytes (List.map (Z.lxor 92) k ++ sha256_bytes (List.map (Z.lxor 54) k ++ msg)).

Definition hmac_hex (key msg : string) : string :=
  hex (hmac_bytes (bytes_of_string key) (bytes_of_string msg)).

(** ** Known answers and the shape of a digest *)

Example sha256_abc :
  sha256_hex "abc" = "ba7816bf8f01cfea414140de5dae2223b00361a396177a9cb410ff61f20015ad"%string.
Proof. vm_compute. reflexivity. Qed.

Example hmac_fox :
  hmac_hex "key" "The quick brown fox jumps over the lazy dog"
  = "f7bc83f430538424b13298e6aa6fb143ef4d59a14946175997479dbc2d1a3cd8"%string.
Proof. vm_compute. reflexivity. Qed.

Lemma round_length s kw : List.length s = 8%nat -> List.length (round s kw) = 8%nat.
Proof.
  intros H. unfold round. repeat (destruct s as [|? s]; try done).
Qed.

Lemma compress_length s b : List.length s = 8%nat -> List.length (compress s b) = 8%nat.
Proof.
  intros H. unfold compress. rewrite length_zip_with, H.
  assert (List.length (fold_left round (zip round_constants (rev (schedule 48 (rev b)))) s) = 8%nat) as ->;
    [|done].
  generalize (zip round_constants (rev (schedule 48 (rev b)))). intros l. revert s H.
  induction l as [|kw l IH]; intros s H; [done|]. cbn. apply IH. by apply round_length.
Qed.

Lemma be_bytes_length k n : List.length (be_bytes k n) = k.
Proof. revert n. induction k as [|k IH]; intros n; [done|]. cbn. rewrite length_app, IH. cbn. lia. Qed.

Lemma sha256_bytes_length bs : List.length (sha256_bytes bs) = 32%nat.
Proof.
  unfold sha256_bytes. generalize (blocks (List.length (words (padded bs))) (words (padded bs))).
  intros l. assert (List.length (fold_left compress l initial_state) = 8%nat) as H.
  { assert (List.length initial_state = 8%nat) as H0 by done. revert H0.
    generalize initial_state. induction l as [|b l IH]; intros s H0; [done|].
    cbn. apply IH. by apply compress_length. }
  revert H. generalize (fold_left compress l initial_state). intros s H.
  do 9 (destruct s as [|? s]; try done).
Qed.

Lemma hex_length bs : String.length (hex bs) = (2 * List.length bs)%nat.
Proof. induction bs as [|b bs IH]; [done|]. cbn [hex String.length List.length]. rewrite IH. lia. Qed.

(** A hex digest has 64 characters. *)
Lemma sha256_hex_length s : String.length (sha256_hex s) = 64%nat.
Proof. unfold sha256_hex. by rewrite hex_length, sha256_bytes_length. Qed.

Lemma hmac_hex_length k m : String.length (hmac_hex k m) = 64%nat.
Proof. unfold hmac_hex, hmac_bytes. by rewrite hex_length, sha256_bytes_length. Qed.

Definition byte_range (b : Z) : Prop := 0 <= b < 256.

Lemma be_bytes_range k n : Forall byte_range (be_bytes k n).
Proof.
  revert n. induction k as [|k IH]; intros n; cbn; [constructor|].
  apply Forall_app. split; [done|]. repeat constructor; apply Z.mod_pos_bound; lia.
Qed.

Lemma sha256_bytes_range bs : Forall byte_range (sha256_bytes bs).
Proof.
  unfold sha256_bytes. induction (fold_left _ _ _) as [|w ws IH]; cbn -[be_bytes]; [constructor|].
  apply Forall_app. split; [apply be_bytes_range|done].
Qed.

Lemma hex_digit_ascii n : 0 <= n < 16 -> (N_of_ascii (hex_digit n) <? 128)%N = true.
Proof.
  intros H.
  assert (forallb (fun k => (N_of_ascii (hex_digit (Z.of_nat k)) <? 128)%N) (seq 0 16) = true) as F
    by reflexivity.
  rewrite forallb_forall in F. specialize (F (Z.to_nat n)). rewrite Z2Nat.id in F by lia.
  apply F, in_seq. lia.
Qed.

Lemma hex_ascii bs : Forall byte_range bs -> ascii_only (hex bs) = true.
Proof.
  unfold ascii_only, byte_range. induction 1 as [|b bs Hb _ IH]; [done|]. cbn [hex str_forallb].
  rewrite !hex_digit_ascii by (Z.div_mod_to_equations; lia). exact IH.
Qed.

Lemma sha256_hex_ascii s : ascii_only (sha256_hex s) = true.
Proof. apply hex_ascii, sha256_bytes_range. Qed.

Lemma hmac_hex_ascii k m : ascii_only (hmac_hex k m) = true.
Proof. apply hex_ascii, sha256_bytes_range. Qed.

#[export] Hint Rewrite sha256_hex_ascii hmac_hex_ascii sha256_hex_length hmac_hex_length : aval.
#[global] Opaque sha256_hex hmac_hex.
