(* ===== verification/Base64.v ===== *)
(** Base64 as the standard library codes it: [base64.urlsafe_b64encode] and the
    lenient [base64.urlsafe_b64decode], with the unpadded forms of
    src/src/trustlib/jose.py, [b64u_encode] and [b64u_decode]. *)
From S2P Require Import Prelude.

(** ** The alphabet *)

(** The symbol of a 6-bit value, URL-safe. *)
Definition b64_chr (n : N) : ascii :=
  (if n <? 26 then ascii_of_N (65 + n)
   else if n <? 52 then ascii_of_N (71 + n)
   else if n <? 62 then ascii_of_N (n - 4)
   else if n =? 62 then "-"%char else "_"%char)%N.

(** The value of a symbol.  [urlsafe_b64decode] turns the two URL-safe symbols
    into the standard ones, which it accepts as well. *)
Definition b64_val (c : ascii) : option N :=
  let n := N_of_ascii c in
  (if (65 <=? n) && (n <=? 90) then Some (n - 65)
   else if (97 <=? n) && (n <=? 122) then Some (n - 71)
   else if (48 <=? n) && (n <=? 57) then Some (n + 4)
   else if (n =? 45) || (n =? 43) then Some 62
   else if (n =? 95) || (n =? 47) then Some 63
   else None)%N.

(** ** Encoding *)

(** [b64u_encode(data)]: without the padding. *)
Fixpoint b64u_encode (s : string) : string :=
  match s with
  | EmptyString => EmptyString
  | String.String a EmptyString =>
      let a := N_of_ascii a in
      String.String (b64_chr (a / 4)) (String.String (b64_chr (a mod 4 * 16)) EmptyString)
  | String.String a (String.String b EmptyString) =>
      let a := N_of_ascii a in let b := N_of_ascii b in
      String.String (b64_chr (a / 4)) (String.String (b64_chr (a mod 4 * 16 + b / 16))
        (String.String (b64_chr (b mod 16 * 4)) EmptyString))
  | String.String a (String.String b (String.String c s')) =>
      let a := N_of_ascii a in let b := N_of_ascii b in let c := N_of_ascii c in
      String.String (b64_chr (a / 4)) (String.String (b64_chr (a mod 4 * 16 + b / 16))
        (String.String (b64_chr (b mod 16 * 4 + c / 64)) (String.String (b64_chr (c mod 64)) (b64u_encode s'))))
  end.

(** ** Decoding *)

(** [binascii.a2b_base64], not strict: symbols outside the alphabet are skipped, a
    completed padding ends the text.  [quad] counts the symbols of the open group,
    [left] holds its pending bits. *)
Fixpoint a2b (s : string) (quad pads left : N) : res string :=
  match s with
  | EmptyString => if (quad =? 0)%N then Ok EmptyString else Raise ValueError
  | String.String c s' =>
      if Ascii.eqb c "=" then
        if (2 <=? quad)%N then
          if (4 <=? quad + (pads + 1))%N then Ok EmptyString else a2b s' quad (pads + 1) left
        else a2b s' quad pads left
      else
        match b64_val c with
        | None => a2b s' quad pads left
        | Some v =>
            if (quad =? 0)%N then a2b s' 1 0 v
            else if (quad =? 1)%N then
              let? r := a2b s' 2 0 (v mod 16) in Ok (String.String (ascii_of_N (left * 4 + v / 16)) r)
            else if (quad =? 2)%N then
              let? r := a2b s' 3 0 (v mod 4) in Ok (String.String (ascii_of_N (left * 16 + v / 4)) r)
            else
              let? r := a2b s' 0 0 0 in Ok (String.String (ascii_of_N (left * 64 + v)) r)
        end
  end.

(** ["=" * (-len(data) % 4)] *)
Definition padding (n : nat) : string :=
  match (n mod 4)%nat with O => "" | 1%nat => "===" | 2%nat => "==" | _ => "=" end.

(** [b64u_decode(data)]: text outside ASCII is refused. *)
Definition b64u_decode (data : string) : res string :=
  if ascii_only data then a2b (data +:+ padding (String.length data))%string 0 0 0 else Raise ValueError.

(** ** Round trip *)

Lemma b64_val_chr n : (n < 64)%N -> b64_val (b64_chr n) = Some n.
Proof.
  intros Hn.
  assert (forallb (fun k => match b64_val (b64_chr (N.of_nat k)) with Some v => (v =? N.of_nat k)%N | None => false end)
            (seq 0 64) = true) as Hall by reflexivity.
  rewrite forallb_forall in Hall. specialize (Hall (N.to_nat n)). rewrite N2Nat.id in Hall.
  assert (In (N.to_nat n) (seq 0 64)) as Hin by (apply in_seq; lia). apply Hall in Hin.
  destruct (b64_val (b64_chr n)); [|done]. apply N.eqb_eq in Hin. by subst.
Qed.

Lemma b64_chr_plain n : (n < 64)%N -> Ascii.eqb (b64_chr n) "=" = false /\ (N_of_ascii (b64_chr n) <? 128)%N = true.
Proof.
  intros Hn.
  assert (forallb (fun k => negb (Ascii.eqb (b64_chr (N.of_nat k)) "=") && (N_of_ascii (b64_chr (N.of_nat k)) <? 128)%N)
            (seq 0 64) = true) as Hall by reflexivity.
  rewrite forallb_forall in Hall. specialize (Hall (N.to_nat n)). rewrite N2Nat.id in Hall.
  assert (In (N.to_nat n) (seq 0 64)) as Hin by (apply in_seq; lia). apply Hall, andb_prop in Hin as [H1 H2].
  split; [by apply negb_true_iff|done].
Qed.

(** One symbol read. *)
Lemma a2b_chr n s quad pads left : (n < 64)%N ->
  a2b (String.String (b64_chr n) s) quad pads left =
    if (quad =? 0)%N then a2b s 1 0 n
    else if (quad =? 1)%N then let? r := a2b s 2 0 (n mod 16) in Ok (String.String (ascii_of_N (left * 4 + n / 16)) r)
    else if (quad =? 2)%N then let? r := a2b s 3 0 (n mod 4) in Ok (String.String (ascii_of_N (left * 16 + n / 4)) r)
    else let? r := a2b s 0 0 0 in Ok (String.String (ascii_of_N (left * 64 + n)) r).
Proof. intros Hn. cbn [a2b]. destruct (b64_chr_plain n Hn) as [-> _]. by rewrite b64_val_chr. Qed.

Lemma byte_bound c : (N_of_ascii c < 256)%N.
Proof. apply N_ascii_bounded. Qed.

Ltac N_bytes := repeat match goal with c : ascii |- _ => lazymatch goal with
  | H : (N_of_ascii c < 256)%N |- _ => fail | _ => pose proof (byte_bound c) end end.

Ltac N_arith := N_bytes; zify; Z.to_euclidean_division_equations; lia.

(** The bytes regrouped from their bits. *)
Lemma regroup c n : n = N_of_ascii c -> ascii_of_N n = c.
Proof. intros ->. apply ascii_N_embedding. Qed.

Lemma a2b_group a b c s :
  a2b (String.String (b64_chr (N_of_ascii a / 4)) (String.String (b64_chr (N_of_ascii a mod 4 * 16 + N_of_ascii b / 16))
        (String.String (b64_chr (N_of_ascii b mod 16 * 4 + N_of_ascii c / 64))
           (String.String (b64_chr (N_of_ascii c mod 64)) s)))) 0 0 0
  = let? r := a2b s 0 0 0 in Ok (String.String a (String.String b (String.String c r))).
Proof.
  rewrite !a2b_chr by N_arith. cbn [N.eqb Pos.eqb]. destruct (a2b s 0 0 0) as [r|]; [|done]. cbn [rbind].
  f_equal; repeat f_equal; apply regroup; N_arith.
Qed.

Lemma b64_chr_ascii n : (n < 64)%N -> (N_of_ascii (b64_chr n) <? 128)%N = true.
Proof. intros Hn. by apply b64_chr_plain. Qed.

(** Induction by groups of three bytes. *)
Lemma by_three (P : string -> Prop) : P EmptyString -> (forall a, P (String.String a EmptyString)) ->
  (forall a b, P (String.String a (String.String b EmptyString))) ->
  (forall a b c s, P s -> P (String.String a (String.String b (String.String c s)))) -> forall s, P s.
Proof.
  intros H0 H1 H2 H3. fix IH 1. intros [|a [|b [|c s]]]; [apply H0|apply H1|apply H2|apply H3, IH].
Qed.

Lemma b64u_ascii s : ascii_only (b64u_encode s) = true.
Proof.
  unfold ascii_only. induction s as [|a|a b|a b c s IH] using by_three; cbn [b64u_encode str_forallb]; [done| | |].
  all: rewrite !b64_chr_ascii by N_arith; rewrite ?IH; done.
Qed.

Lemma b64u_length_mod s : exists n, String.length (b64u_encode s) = n /\
  padding n = match (String.length s mod 3)%nat with O => "" | 1%nat => "==" | _ => "=" end%string.
Proof.
  eexists. split; [done|]. induction s as [|a|a b|a b c s IH] using by_three; [done|done|done|].
  cbn [b64u_encode String.length]. unfold padding in *.
  replace (S (S (S (S (String.length (b64u_encode s)))))) with (String.length (b64u_encode s) + 1 * 4)%nat by lia.
  replace (S (S (S (String.length s)))) with (String.length s + 1 * 3)%nat by lia.
  rewrite !Nat.Div0.mod_add. exact IH.
Qed.

(** Decoding an encoded text, whatever padding its length asks for. *)
Lemma a2b_encode s : a2b (b64u_encode s +:+ match (String.length s mod 3)%nat with O => "" | 1%nat => "==" | _ => "=" end)%string 0 0 0
  = Ok s.
Proof.
  induction s as [|a|a b|a b c s IH] using by_three; [done| | |].
  - cbn [b64u_encode String.length]. change (1 mod 3)%nat with 1%nat. cbv iota.
    change ((String.String (b64_chr (N_of_ascii a / 4)) (String.String (b64_chr (N_of_ascii a mod 4 * 16)) "") +:+ "==")%string)
      with (String.String (b64_chr (N_of_ascii a / 4)) (String.String (b64_chr (N_of_ascii a mod 4 * 16)) "==")).
    rewrite !a2b_chr by N_arith. cbn [N.eqb Pos.eqb].
    match goal with |- context [a2b "==" 2 0 ?l] => change (a2b "==" 2 0 l) with (@Ok string "") end. cbn [rbind].
    do 2 f_equal. apply regroup. N_arith.
  - cbn [b64u_encode String.length]. change (2 mod 3)%nat with 2%nat. cbv iota.
    match goal with |- a2b (String.String ?x (String.String ?y (String.String ?z "")) +:+ "=")%string _ _ _ = _ =>
      change ((String.String x (String.String y (String.String z "")) +:+ "=")%string)
        with (String.String x (String.String y (String.String z "="))) end.
    rewrite !a2b_chr by N_arith. cbn [N.eqb Pos.eqb].
    match goal with |- context [a2b "=" 3 0 ?l] => change (a2b "=" 3 0 l) with (@Ok string "") end. cbn [rbind].
    do 2 f_equal; [|f_equal]; apply regroup; N_arith.
  - cbn [b64u_encode String.length]. replace (S (S (S (String.length s)))) with (String.length s + 1 * 3)%nat by lia.
    rewrite Nat.Div0.mod_add.
    match goal with |- a2b (String.String ?x (String.String ?y (String.String ?z (String.String ?w ?r))) +:+ ?p)%string _ _ _ = _ =>
      change ((String.String x (String.String y (String.String z (String.String w r))) +:+ p)%string)
        with (String.String x (String.String y (String.String z (String.String w (r +:+ p)%string)))) end.
    by rewrite a2b_group, IH.
Qed.

(** Decoding undoes encoding, for every byte string. *)
Lemma b64u_roundtrip s : b64u_decode (b64u_encode s) = Ok s.
Proof.
  unfold b64u_decode. rewrite b64u_ascii. destruct (b64u_length_mod s) as (n & -> & ->). apply a2b_encode.
Qed.
