(* ===== verification/Json.v ===== *)
(** Python values that reach a serializer, and [json.dumps] with
    [sort_keys=True, separators=(",", ":"), ensure_ascii=False,
    allow_nan=False]: the canonical form hashed by domain/idempotency.py,
    domain/policy.py, decision/service.py and audit/hashing.py.  The form is
    injective on the values that carry no float ([print_inj]). *)
From S2P Require Import Prelude PyTime Decimal.

Set Warnings "-register-all".

(** A value of the kinds the modelled code stores in mappings.  A float is its
    [repr]: no modelled code computes with one.  Mapping keys are strings. *)
Inductive pyval : Type :=
| VNone
| VBool (b : bool)
| VInt (n : Z)
| VStr (s : string)
| VDec (d : dec)
| VFloat (repr : string)
| VTime (t : datetime)
| VList (l : list pyval)
| VDict (kvs : list (string * pyval)).

(** A text or [None]. *)
Definition opt_str (s : option string) : pyval := match s with Some x => VStr x | None => VNone end.

(** Insertion-ordered mapping with distinct keys: [d.get(k)], [d[k] = v]. *)
Abbreviation pydict := (list (string * pyval)).
Fixpoint assoc {A} (k : string) (kvs : list (string * A)) : option A :=
  match kvs with
  | [] => None
  | (k', v) :: kvs' => if String.eqb k k' then Some v else assoc k kvs'
  end.

Fixpoint dict_set {A} (k : string) (v : A) (kvs : list (string * A)) : list (string * A) :=
  match kvs with
  | [] => [(k, v)]
  | (k', v') :: kvs' => if String.eqb k k' then (k, v) :: kvs' else (k', v') :: dict_set k v kvs'
  end.

(** [d.update(other)] *)
Definition dict_update {A} (kvs other : list (string * A)) : list (string * A) :=
  fold_left (fun acc kv => dict_set kv.1 kv.2 acc) other kvs.

Section PyvalInd.
Variable P : pyval -> Prop.
Hypothesis HLeaf : forall v, (forall l, v <> VList l) -> (forall kvs, v <> VDict kvs) -> P v.
Hypothesis HSeq : forall l, Forall P l -> P (VList l).
Hypothesis HMap : forall kvs, Forall (fun kv => P kv.2) kvs -> P (VDict kvs).

(** Induction on Python values that reaches the members of lists and
    mappings, leaves taken together. *)
Fixpoint pyval_nested_ind (v : pyval) : P v :=
  match v as v' return ((forall l, v' <> VList l) -> (forall kvs, v' <> VDict kvs) -> P v') -> P v' with
  | VList l => fun _ => HSeq l ((fix go l : Forall P l :=
      match l with
      | [] => List.Forall_nil _
      | x :: l' => List.Forall_cons _ _ _ (pyval_nested_ind x) (go l')
      end) l)
  | VDict kvs => fun _ => HMap kvs ((fix go l : Forall (fun kv => P kv.2) l :=
      match l with
      | [] => List.Forall_nil _
      | (k, x) :: l' => List.Forall_cons _ (k, x) _ (pyval_nested_ind x) (go l')
      end) kvs)
  | _ => fun leaf => leaf ltac:(discriminate) ltac:(discriminate)
  end (HLeaf v).
End PyvalInd.

(** ** JSON trees *)

Inductive json : Type :=
| JNull
| JBool (b : bool)
| JInt (n : Z)
| JFloat (repr : string)
| JStr (s : string)
| JList (l : list json)
| JObj (kvs : list (string * json)).

Section JsonInd.
Variable P : json -> Prop.
Hypothesis HNull : P JNull.
Hypothesis HBool : forall b, P (JBool b).
Hypothesis HInt : forall n, P (JInt n).
Hypothesis HFloat : forall r, P (JFloat r).
Hypothesis HStr : forall s, P (JStr s).
Hypothesis HList : forall l, Forall P l -> P (JList l).
Hypothesis HObj : forall kvs, Forall (fun kv => P kv.2) kvs -> P (JObj kvs).

(** Induction that reaches the members of arrays and objects. *)
Fixpoint json_nested_ind (j : json) : P j :=
  match j with
  | JNull => HNull
  | JBool b => HBool b
  | JInt n => HInt n
  | JFloat r => HFloat r
  | JStr s => HStr s
  | JList l => HList l ((fix go l : Forall P l :=
      match l with [] => List.Forall_nil _ | x :: l' => List.Forall_cons _ _ _ (json_nested_ind x) (go l') end) l)
  | JObj kvs => HObj kvs ((fix go l : Forall (fun kv => P kv.2) l :=
      match l with [] => List.Forall_nil _ | (k, x) :: l' => List.Forall_cons _ (k, x) _ (json_nested_ind x) (go l') end) kvs)
  end.
End JsonInd.

(** ** Normalisation: keys sorted, other objects through [default] *)

Fixpoint insert_key {A} (k : string) (v : A) (kvs : list (string * A)) : list (string * A) :=
  match kvs with
  | [] => [(k, v)]
  | (k', v') :: kvs' =>
      if String.leb k k' then (k, v) :: (k', v') :: kvs' else (k', v') :: insert_key k v kvs'
  end.

Definition sort_keys {A} (kvs : list (string * A)) : list (string * A) :=
  fold_right (fun kv acc => insert_key kv.1 kv.2 acc) [] kvs.

(** [default(value)] for the two kinds [json] cannot serialise itself. *)
Record json_default : Type := {
  default_dec : dec -> res json;
  default_time : datetime -> res json;
  default_float : string -> res json;
}.

(** What [json.dumps] writes for a float: its repr, NaN and infinities being
    refused by [allow_nan=False]. *)
Definition dumps_float (r : string) : res json :=
  if existsb (String.eqb r) ["nan"; "inf"; "-inf"]%string then Raise ValueError else Ok (JFloat r).

Fixpoint to_json (dflt : json_default) (v : pyval) : res json :=
  match v with
  | VNone => Ok JNull
  | VBool b => Ok (JBool b)
  | VInt n => Ok (JInt n)
  | VStr s => Ok (JStr s)
  | VDec d => default_dec dflt d
  | VFloat r => default_float dflt r
  | VTime t => default_time dflt t
  | VList l =>
      let? l' := (fix go l := match l with
                        | [] => Ok []
                        | x :: l' => let? y := to_json dflt x in let? ys := go l' in Ok (y :: ys)
                        end) l in
      Ok (JList l')
  | VDict kvs =>
      let? l' := (fix go l := match l with
                        | [] => Ok []
                        | (k, x) :: l' => let? y := to_json dflt x in let? ys := go l' in Ok ((k, y) :: ys)
                        end) kvs in
      Ok (JObj (sort_keys l'))
  end.

(** ** Printing *)

Definition hex_chr (n : N) : ascii := ascii_of_N (if (n <? 10)%N then 48 + n else 87 + n).

(** The JSON escape of one byte of a string (json.encoder.ESCAPE). *)
Definition escape_chr (c : ascii) : string :=
  let n := N_of_ascii c in
  if Ascii.eqb c (ascii_of_N 34) then String.String (ascii_of_N 92) (String.String (ascii_of_N 34) "")
  else if Ascii.eqb c (ascii_of_N 92) then String.String (ascii_of_N 92) (String.String (ascii_of_N 92) "")
  else if (n =? 10)%N then "\n"
  else if (n =? 13)%N then "\r"
  else if (n =? 9)%N then "\t"
  else if (n =? 12)%N then "\f"
  else if (n =? 8)%N then "\b"
  else if (n <? 32)%N then ("\u00" +:+ String.String (hex_chr (n / 16)) (String.String (hex_chr (n mod 16)) ""))%string
  else String.String c "".

Definition quote : ascii := ascii_of_N 34.

Fixpoint escape_to (s tail : string) : string :=
  match s with
  | EmptyString => String.String quote tail
  | String.String c s' => (escape_chr c +:+ escape_to s' tail)%string
  end.

(** A quoted string followed by [tail]. *)
Definition str_to (s tail : string) : string := String.String quote (escape_to s tail).

(** [print_to j tail] is the text of [j] followed by [tail]. *)
Fixpoint print_to (j : json) (tail : string) : string :=
  match j with
  | JNull => ("null" +:+ tail)%string
  | JBool b => ((if b then "true" else "false") +:+ tail)%string
  | JInt n => (int_str n +:+ tail)%string
  | JFloat r => (r +:+ tail)%string
  | JStr s => str_to s tail
  | JList l =>
      String.String "[" (match l with
      | [] => String.String "]" tail
      | x :: l' => print_to x ((fix go l := match l with
                                            | [] => String.String "]" tail
                                            | y :: l' => String.String "," (print_to y (go l'))
                                            end) l')
      end)
  | JObj kvs =>
      String.String "{" (match kvs with
      | [] => String.String "}" tail
      | (k, x) :: l' =>
          str_to k (String.String ":" (print_to x ((fix go l := match l with
            | [] => String.String "}" tail
            | (k, y) :: l' => String.String "," (str_to k (String.String ":" (print_to y (go l'))))
            end) l')))
      end)
  end.

Definition print (j : json) : string := print_to j EmptyString.

(** [json.dumps(value, ...)] *)
Definition dumps (dflt : json_default) (v : pyval) : res string := let? j := to_json dflt v in Ok (print j).

(** ** The text determines the tree *)

(** Reading back one escaped byte, or the closing quote. *)
Definition unhex (c : ascii) : N :=
  let n := N_of_ascii c in if (n <? 58)%N then n - 48 else n - 87.

Definition unescape1 (s : string) : option (option ascii * string) :=
  match s with
  | EmptyString => None
  | String.String c r =>
      if Ascii.eqb c quote then Some (None, r)
      else if Ascii.eqb c (ascii_of_N 92) then
        match r with
        | EmptyString => None
        | String.String e r' =>
            if Ascii.eqb e "n" then Some (Some (ascii_of_N 10), r')
            else if Ascii.eqb e "r" then Some (Some (ascii_of_N 13), r')
            else if Ascii.eqb e "t" then Some (Some (ascii_of_N 9), r')
            else if Ascii.eqb e "f" then Some (Some (ascii_of_N 12), r')
            else if Ascii.eqb e "b" then Some (Some (ascii_of_N 8), r')
            else if Ascii.eqb e "u" then
              match r' with
              | String.String _ (String.String _ (String.String h (String.String l r''))) =>
                  Some (Some (ascii_of_N (unhex h * 16 + unhex l)), r'')
              | _ => None
              end
            else Some (Some e, r')
        end
      else Some (Some c, r)
  end.

Lemma unescape1_escape c s : unescape1 (escape_chr c +:+ s)%string = Some (Some c, s).
Proof. by destruct c as [[] [] [] [] [] [] [] []]. Qed.

Lemma escape_to_inj s1 s2 t1 t2 : escape_to s1 t1 = escape_to s2 t2 -> s1 = s2 /\ t1 = t2.
Proof.
  revert s2. induction s1 as [|c1 s1 IH]; intros [|c2 s2] E; cbn [escape_to] in E.
  - by injection E.
  - apply (f_equal unescape1) in E. rewrite unescape1_escape in E. done.
  - apply (f_equal unescape1) in E. rewrite unescape1_escape in E. done.
  - apply (f_equal unescape1) in E. rewrite !unescape1_escape in E.
    injection E as -> E. apply IH in E as [-> ->]. done.
Qed.

Lemma str_to_inj s1 s2 t1 t2 : str_to s1 t1 = str_to s2 t2 -> s1 = s2 /\ t1 = t2.
Proof. unfold str_to. intros [= E]. by apply escape_to_inj. Qed.

Lemma digits_str_inj ds1 ds2 r1 r2 :
  Forall is_digit_val ds1 -> Forall is_digit_val ds2 -> no_digit_head r1 -> no_digit_head r2 ->
  (digits_str ds1 +:+ r1)%string = (digits_str ds2 +:+ r2)%string -> ds1 = ds2 /\ r1 = r2.
Proof.
  intros H1 H2 Hr1 Hr2 E. apply (f_equal span_digits) in E.
  rewrite !span_digits_str in E by done. by injection E.
Qed.

Lemma digits_str_head n r : 0 <= n ->
  exists c s, (digits_str (digits n) +:+ r)%string = String.String c s /\ is_digit c = true.
Proof.
  intros Hn. pose proof (digits_plain n Hn) as Hp. pose proof (digits_range n Hn) as Hr.
  destruct (digits n) as [|d ds]; [done|]. inversion Hr; subst.
  eexists _, _. split; [reflexivity|]. by apply digit_chr_spec.
Qed.

Lemma digits_inj n m : 0 <= n -> 0 <= m -> digits n = digits m -> n = m.
Proof. intros Hn Hm E. rewrite <- (digits_value n), <- (digits_value m), E; done. Qed.

Lemma int_str_inj n m r1 r2 : no_digit_head r1 -> no_digit_head r2 ->
  (int_str n +:+ r1)%string = (int_str m +:+ r2)%string -> n = m /\ r1 = r2.
Proof.
  intros H1 H2 E. unfold int_str in E.
  destruct (Z.ltb_spec n 0) as [Hn|Hn], (Z.ltb_spec m 0) as [Hm|Hm].
  - injection E as E. apply digits_str_inj in E as [E ->]; try (apply digits_range; lia); try done.
    apply digits_inj in E; [|lia|lia]. split; [lia|done].
  - destruct (digits_str_head m r2 ltac:(lia)) as (c & s & Ec & Hc). rewrite Ec in E.
    injection E as <- _. done.
  - destruct (digits_str_head n r1 ltac:(lia)) as (c & s & Ec & Hc). rewrite Ec in E.
    injection E as -> _. done.
  - apply digits_str_inj in E as [E ->]; try (apply digits_range; lia); try done.
    apply digits_inj in E; [|lia|lia]. split; [lia|done].
Qed.

(** No float anywhere in the tree. *)
Fixpoint exact (j : json) : bool :=
  match j with
  | JFloat _ => false
  | JList l => forallb exact l
  | JObj kvs => forallb (fun kv => exact kv.2) kvs
  | _ => true
  end.

(** What may follow a value inside a larger text. *)
Definition follow (s : string) : Prop :=
  match s with
  | EmptyString => True
  | String.String c _ => c = "," \/ c = "]" \/ c = "}"
  end%char.

Lemma follow_no_digit s : follow s -> no_digit_head s.
Proof. destruct s as [|c s]; [done|]. cbn. intros H. by destruct_or! H; subst c. Qed.

(** The first byte of a printed value tells its kind. *)
Inductive kind : Type := KNull | KTrue | KFalse | KNum | KStr | KList | KObj.

Definition head_kind (s : string) : option kind :=
  match s with
  | EmptyString => None
  | String.String c _ =>
      if Ascii.eqb c "n" then Some KNull
      else if Ascii.eqb c "t" then Some KTrue
      else if Ascii.eqb c "f" then Some KFalse
      else if Ascii.eqb c quote then Some KStr
      else if Ascii.eqb c "[" then Some KList
      else if Ascii.eqb c "{" then Some KObj
      else if is_digit c || Ascii.eqb c "-" then Some KNum
      else None
  end.

Definition kind_of (j : json) : option kind :=
  match j with
  | JNull => Some KNull
  | JBool b => Some (if b then KTrue else KFalse)
  | JInt _ => Some KNum
  | JFloat _ => None
  | JStr _ => Some KStr
  | JList _ => Some KList
  | JObj _ => Some KObj
  end.

Lemma head_kind_digit c s : is_digit c = true -> head_kind (String.String c s) = Some KNum.
Proof. by destruct c as [[] [] [] [] [] [] [] []]. Qed.

Lemma head_kind_print j t : exact j = true -> head_kind (print_to j t) = kind_of j.
Proof.
  destruct j as [|[]|n|r|s|l|kvs]; intros Hx; try done.
  cbn [print_to kind_of]. unfold int_str. destruct (Z.ltb_spec n 0); [done|].
  destruct (digits_str_head n t ltac:(done)) as (c & s & -> & Hc). by apply head_kind_digit.
Qed.

Lemma print_kind_eq j1 j2 t1 t2 : exact j1 = true -> exact j2 = true ->
  print_to j1 t1 = print_to j2 t2 -> kind_of j1 = kind_of j2.
Proof. intros H1 H2 E. rewrite <- (head_kind_print j1 t1), <- (head_kind_print j2 t2), E; done. Qed.

(** The tails of arrays and objects, named. *)
Fixpoint items_to (l : list json) (tail : string) : string :=
  match l with
  | [] => String.String "]" tail
  | y :: l' => String.String "," (print_to y (items_to l' tail))
  end.

Fixpoint members_to (kvs : list (string * json)) (tail : string) : string :=
  match kvs with
  | [] => String.String "}" tail
  | (k, y) :: l' => String.String "," (str_to k (String.String ":" (print_to y (members_to l' tail))))
  end.

Lemma print_list_cons x l t :
  print_to (JList (x :: l)) t = String.String "[" (print_to x (items_to l t)).
Proof. cbn [print_to]. do 2 f_equal. induction l as [|y l IH]; [done|]. cbn. by rewrite IH. Qed.

Lemma print_obj_cons k x l t :
  print_to (JObj ((k, x) :: l)) t
  = String.String "{" (str_to k (String.String ":" (print_to x (members_to l t)))).
Proof.
  cbn [print_to]. do 4 f_equal. induction l as [|[k' y] l IH]; [done|]. cbn. by rewrite IH.
Qed.

Lemma follow_items l t : follow t -> follow (items_to l t).
Proof. destruct l; cbn; auto. Qed.
Lemma follow_members l t : follow t -> follow (members_to l t).
Proof. destruct l as [|[k x] l]; cbn; auto. Qed.

Definition inj_at (j1 : json) : Prop :=
  forall j2 t1 t2, exact j1 = true -> exact j2 = true -> follow t1 -> follow t2 ->
  print_to j1 t1 = print_to j2 t2 -> j1 = j2 /\ t1 = t2.

Lemma items_inj l1 l2 t1 t2 :
  Forall inj_at l1 -> forallb exact l1 = true -> forallb exact l2 = true ->
  follow t1 -> follow t2 -> items_to l1 t1 = items_to l2 t2 -> l1 = l2 /\ t1 = t2.
Proof.
  intros H. revert l2. induction H as [|x l1 Hx _ IH]; intros [|y l2] X1 X2 F1 F2 E; cbn in *.
  - by injection E.
  - done.
  - done.
  - apply andb_prop in X1 as [X1 Y1]. apply andb_prop in X2 as [X2 Y2]. injection E as E.
    apply Hx in E as [-> E]; auto using follow_items.
    apply IH in E as [-> ->]; auto.
Qed.

Lemma members_inj l1 l2 t1 t2 :
  Forall (fun kv => inj_at kv.2) l1 ->
  forallb (fun kv : string * json => exact kv.2) l1 = true ->
  forallb (fun kv : string * json => exact kv.2) l2 = true ->
  follow t1 -> follow t2 -> members_to l1 t1 = members_to l2 t2 -> l1 = l2 /\ t1 = t2.
Proof.
  intros H. revert l2.
  induction H as [|[k x] l1 Hx _ IH]; intros [|[k' y] l2] X1 X2 F1 F2 E; cbn in *.
  - by injection E.
  - done.
  - done.
  - apply andb_prop in X1 as [X1 Y1]. apply andb_prop in X2 as [X2 Y2].
    injection E as E. apply escape_to_inj in E as [-> E]. injection E as E.
    apply Hx in E as [-> E]; auto using follow_members.
    apply IH in E as [-> ->]; auto.
Qed.

Lemma print_to_inj j1 : inj_at j1.
Proof.
  induction j1 as [|b1|n1|r1|s1|l1 IH|l1 IH] using json_nested_ind;
    intros j2 t1 t2 X1 X2 F1 F2 E;
    pose proof (print_kind_eq _ _ _ _ X1 X2 E) as K;
    destruct j2 as [|b2|n2|r2|s2|l2|l2]; try done;
    try (by destruct b1); try (by destruct b2); try (destruct b1, b2; try done).
  - by injection E.
  - by injection E.
  - by injection E.
  - cbn [print_to] in E. apply int_str_inj in E as [-> ->]; auto using follow_no_digit.
  - apply str_to_inj in E as [-> ->]. done.
  - destruct l1 as [|x l1], l2 as [|y l2]; rewrite ?print_list_cons in E.
    + by injection E.
    + injection E as E. exfalso. apply (f_equal head_kind) in E.
      cbn in X2. apply andb_prop in X2 as [X2 _]. rewrite head_kind_print in E by done.
      cbn in E. by destruct y as [|[]| | | | |].
    + injection E as E. exfalso. apply (f_equal head_kind) in E.
      cbn in X1. apply andb_prop in X1 as [X1 _]. rewrite head_kind_print in E by done.
      cbn in E. by destruct x as [|[]| | | | |].
    + injection E as E. cbn in X1, X2. apply andb_prop in X1 as [X1 Y1].
      apply andb_prop in X2 as [X2 Y2]. inversion IH as [|? ? Hx IH']; subst.
      apply Hx in E as [-> E]; auto using follow_items.
      apply items_inj in E as [-> ->]; auto.
  - destruct l1 as [|[k x] l1], l2 as [|[k' y] l2]; rewrite ?print_obj_cons in E; try done.
    + by injection E.
    + injection E as E. cbn in X1, X2. apply andb_prop in X1 as [X1 Y1].
      apply andb_prop in X2 as [X2 Y2]. inversion IH as [|? ? Hx IH']; subst.
      cbn in Hx. apply escape_to_inj in E as [-> E]. injection E as E.
      apply Hx in E as [-> E]; auto using follow_members.
      apply members_inj in E as [-> ->]; auto.
Qed.

(** Two trees without floats that print alike are equal. *)
Lemma print_inj j1 j2 :
  exact j1 = true -> exact j2 = true -> print j1 = print j2 -> j1 = j2.
Proof. intros X1 X2 E. by apply (print_to_inj j1 j2 EmptyString EmptyString) in E as [-> _]. Qed.

Lemma sort_keys_exact l : forallb (fun kv => exact kv.2) l = true -> forallb (fun kv => exact kv.2) (sort_keys l) = true.
Proof.
  assert (Hi : forall k v l, exact v = true -> forallb (fun kv => exact kv.2) l = true ->
    forallb (fun kv => exact kv.2) (insert_key k v l) = true).
  { intros k v l0 Hv. induction l0 as [|[k' v'] l0 IH]; cbn; [by rewrite Hv|]. intros [Hv' Hl]%andb_prop.
    destruct (String.leb k k'); cbn; rewrite ?Hv, ?Hv', ?Hl; [done|]. by apply IH. }
  induction l as [|[k v] l IH]; [done|]. cbn. intros [Hv Hl]%andb_prop. by apply Hi, IH.
Qed.
