(* ===== verification/JsonParse.v ===== *)
(** [json.loads]: the decoder of the standard library, as the agent kernel, its
    audit log and the JWS code use it, and the round trip with the canonical
    form of Json.v. *)
From S2P Require Import Prelude PyTime Decimal Json.

(** ** Characters *)

(** White space between tokens. *)
Definition is_json_space (c : ascii) : bool :=
  let n := N_of_ascii c in ((n =? 32) || (n =? 9) || (n =? 10) || (n =? 13))%N.

Fixpoint skip (s : string) : string :=
  match s with
  | String.String c s' => if is_json_space c then skip s' else s
  | EmptyString => EmptyString
  end.

(** The UTF-8 bytes of a code point; a lone surrogate keeps its three bytes. *)
Definition utf8 (n : N) (tail : string) : string :=
  let c x := String.String (ascii_of_N x) in
  (if n <? 128 then c n tail
   else if n <? 2048 then c (192 + n / 64) (c (128 + n mod 64) tail)
   else if n <? 65536 then c (224 + n / 4096) (c (128 + n / 64 mod 64) (c (128 + n mod 64) tail))
   else c (240 + n / 262144) (c (128 + n / 4096 mod 64) (c (128 + n / 64 mod 64) (c (128 + n mod 64) tail))))%N.

Definition hex4 (a b c d : ascii) : option N :=
  match hex_value a, hex_value b, hex_value c, hex_value d with
  | Some x, Some y, Some z, Some w => Some (x * 4096 + y * 256 + z * 16 + w)%N
  | _, _, _, _ => None
  end.

Definition is_high (n : N) : bool := ((55296 <=? n) && (n <=? 56319))%N.
Definition is_low (n : N) : bool := ((56320 <=? n) && (n <=? 57343))%N.

Definition backslash : ascii := ascii_of_N 92.

(** A one-character escape. *)
Definition simple_escape (e : ascii) : option ascii :=
  if Ascii.eqb e quote then Some quote
  else if Ascii.eqb e backslash then Some backslash
  else if Ascii.eqb e "/" then Some "/"%char
  else if Ascii.eqb e "b" then Some (ascii_of_N 8)
  else if Ascii.eqb e "f" then Some (ascii_of_N 12)
  else if Ascii.eqb e "n" then Some (ascii_of_N 10)
  else if Ascii.eqb e "r" then Some (ascii_of_N 13)
  else if Ascii.eqb e "t" then Some (ascii_of_N 9)
  else None.

(** After the opening quote: the text and what follows the closing quote.
    Control characters are refused; a high surrogate joins the low one that
    follows it. *)
Fixpoint scan_string (s : string) : option (string * string) :=
  match s with
  | EmptyString => None
  | String.String c r =>
      if Ascii.eqb c quote then Some (EmptyString, r)
      else if (N_of_ascii c <? 32)%N then None
      else if Ascii.eqb c backslash then
        match r with
        | EmptyString => None
        | String.String e r1 =>
            match simple_escape e with
            | Some x => '(t, rest) ← scan_string r1; Some (String.String x t, rest)
            | None =>
                if Ascii.eqb e "u" then
                  match r1 with
                  | String.String a (String.String b (String.String c1 (String.String d r2))) =>
                      match hex4 a b c1 d with
                      | None => None
                      | Some n =>
                          match r2 with
                          | String.String x1 (String.String x2
                              (String.String a2 (String.String b2 (String.String c2 (String.String d2 r3))))) =>
                              if is_high n && Ascii.eqb x1 backslash && Ascii.eqb x2 "u" then
                                match hex4 a2 b2 c2 d2 with
                                | None => None
                                | Some m =>
                                    if is_low m then
                                      '(t, rest) ← scan_string r3;
                                      Some (utf8 (65536 + (n - 55296) * 1024 + (m - 56320)) t, rest)
                                    else '(t, rest) ← scan_string r2; Some (utf8 n t, rest)
                                end
                              else '(t, rest) ← scan_string r2; Some (utf8 n t, rest)
                          | _ => '(t, rest) ← scan_string r2; Some (utf8 n t, rest)
                          end
                      end
                  | _ => None
                  end
                else None
            end
        end
      else '(t, rest) ← scan_string r; Some (String.String c t, rest)
  end.

(** ** Numbers *)

(** [int(text)] refuses more than 4300 digits. *)
Definition max_int_digits : nat := 4300.

Definition scan_frac (s : string) : option (list Z * string) :=
  match s with
  | String.String c r =>
      if Ascii.eqb c "." then
        match span_digits r with ([], _) => None | (ds, r') => Some (ds, r') end
      else None
  | EmptyString => None
  end.

Definition scan_exp (s : string) : option (string * string) :=
  match s with
  | String.String c r =>
      if Ascii.eqb (ascii_upper c) "E" then
        let '(sign, r1) := match r with
                           | String.String g r' =>
                               if Ascii.eqb g "-" || Ascii.eqb g "+" then (String.String g EmptyString, r') else (EmptyString, r)
                           | EmptyString => (EmptyString, r)
                           end in
        match span_digits r1 with
        | ([], _) => None
        | (ds, r') => Some (String.String c (sign +:+ digits_str ds)%string, r')
        end
      else None
  | EmptyString => None
  end.

Section Loads.
(** [repr(float(text))] *)
Variable float_repr : string -> string.

(** The integer part: a zero, or digits that do not start with one. *)
Definition scan_int (s : string) : option (list Z * string) :=
  match s with
  | String.String c r =>
      if Ascii.eqb c "0" then Some ([0], r)
      else match span_digits s with ([], _) => None | (ds, r') => Some (ds, r') end
  | EmptyString => None
  end.

Definition scan_number (s : string) : option (res pyval * string) :=
  let '(neg, s1) := match s with
                    | String.String c r => if Ascii.eqb c "-" then (true, r) else (false, s)
                    | EmptyString => (false, s)
                    end in
  '(ds, r) ← scan_int s1;
  let sign := (if neg then "-" else "")%string in
  let frac := scan_frac r in
  let r1 := match frac with Some (_, r') => r' | None => r end in
  let ftext := match frac with Some (fs, _) => String.String "." (digits_str fs) | None => EmptyString end in
  match frac, scan_exp r1 with
  | None, None =>
      if (max_int_digits <? length ds)%nat then Some (Raise ValueError, r)
      else Some (Ok (VInt (signed neg (digits_val 0 ds))), r)
  | _, Some (e, r2) => Some (Ok (VFloat (float_repr (sign +:+ digits_str ds +:+ ftext +:+ e)%string)), r2)
  | _, None => Some (Ok (VFloat (float_repr (sign +:+ digits_str ds +:+ ftext)%string)), r1)
  end.

(** What follows the prefix, if the text starts with it. *)
Fixpoint drop_prefix (p s : string) : option string :=
  match p, s with
  | EmptyString, _ => Some s
  | String.String c p', String.String d s' => if Ascii.eqb c d then drop_prefix p' s' else None
  | _, EmptyString => None
  end.

(** The literals, NaN and the infinities included. *)
Definition literals : list (string * pyval) :=
  [("null", VNone); ("true", VBool true); ("false", VBool false); ("NaN", VFloat "nan");
   ("Infinity", VFloat "inf"); ("-Infinity", VFloat "-inf")]%string.

Fixpoint scan_literal (ls : list (string * pyval)) (s : string) : option (pyval * string) :=
  match ls with
  | [] => None
  | (text, v) :: ls' =>
      match drop_prefix text s with Some r => Some (v, r) | None => scan_literal ls' s end
  end.

Definition decode_error {A} : res A := Raise ValueError.

(** ** Values *)

Fixpoint scan (fuel : nat) (s : string) : res (pyval * string) :=
  match fuel, s with
  | O, _ | _, EmptyString => decode_error
  | S f, String.String c r =>
      if Ascii.eqb c quote then
        match scan_string r with Some (t, r') => Ok (VStr t, r') | None => decode_error end
      else if Ascii.eqb c "[" then
        match skip r with
        | String.String d r' => if Ascii.eqb d "]" then Ok (VList [], r') else scan_items f [] (skip r)
        | EmptyString => decode_error
        end
      else if Ascii.eqb c "{" then
        match skip r with
        | String.String d r' => if Ascii.eqb d "}" then Ok (VDict [], r') else scan_members f [] (skip r)
        | EmptyString => decode_error
        end
      else
        match scan_literal literals s with
        | Some x => Ok x
        | None =>
            match scan_number s with
            | Some (v, r') => let? v := v in Ok (v, r')
            | None => decode_error
            end
        end
  end
with scan_items (fuel : nat) (acc : list pyval) (s : string) : res (pyval * string) :=
  match fuel with
  | O => decode_error
  | S f =>
      let? x := scan f s in
      match skip x.2 with
      | String.String d r =>
          if Ascii.eqb d "]" then Ok (VList (acc ++ [x.1]), r)
          else if Ascii.eqb d "," then scan_items f (acc ++ [x.1]) (skip r)
          else decode_error
      | EmptyString => decode_error
      end
  end
with scan_members (fuel : nat) (acc : pydict) (s : string) : res (pyval * string) :=
  match fuel, s with
  | O, _ | _, EmptyString => decode_error
  | S f, String.String c r =>
      if Ascii.eqb c quote then
        match scan_string r with
        | None => decode_error
        | Some (k, r1) =>
            match skip r1 with
            | String.String d r2 =>
                if Ascii.eqb d ":" then
                  let? x := scan f (skip r2) in
                  match skip x.2 with
                  | String.String e r3 =>
                      if Ascii.eqb e "}" then Ok (VDict (dict_set k x.1 acc), r3)
                      else if Ascii.eqb e "," then scan_members f (dict_set k x.1 acc) (skip r3)
                      else decode_error
                  | EmptyString => decode_error
                  end
                else decode_error
            | EmptyString => decode_error
            end
        end
      else decode_error
  end.

(** Every call consumes a byte of the text or is followed by one that does. *)
Definition loads_fuel (s : string) : nat := 2 * String.length s + 2.

(** [json.loads(text)] *)
Definition loads (s : string) : res pyval :=
  let? x := scan (loads_fuel s) (skip s) in
  match skip x.2 with EmptyString => Ok x.1 | _ => decode_error end.
End Loads.

(** ** Reading the canonical form back *)

(** The Python value of a tree. *)
Fixpoint of_json (j : json) : pyval :=
  match j with
  | JNull => VNone
  | JBool b => VBool b
  | JInt n => VInt n
  | JFloat r => VFloat r
  | JStr s => VStr s
  | JList l => VList (map of_json l)
  | JObj kvs => VDict (map (fun kv => (kv.1, of_json kv.2)) kvs)
  end.

(** Keys of one object are distinct, and integers within what [int] reads. *)
Fixpoint readable (j : json) : Prop :=
  match j with
  | JInt n => (length (digits (Z.abs n)) <= max_int_digits)%nat
  | JList l => (fix go l := match l with [] => True | x :: l' => readable x /\ go l' end) l
  | JObj kvs => NoDup kvs.*1 /\ (fix go l := match l with [] => True | (_, x) :: l' => readable x /\ go l' end) kvs
  | _ => True
  end.

(** *** Strings *)

Lemma scan_string_u a b c d n r : hex4 a b c d = Some n -> is_high n = false ->
  scan_string (String.String backslash (String.String "u" (String.String a (String.String b
    (String.String c (String.String d r))))))
  = ('(t, rest) ← scan_string r; Some (utf8 n t, rest)).
Proof.
  intros Hx Hh. cbn -[hex4 utf8 is_high]. rewrite Hx, Hh. cbn [andb].
  destruct r as [|x1 [|x2 [|x3 [|x4 [|x5 [|x6 r]]]]]]; reflexivity.
Qed.

Lemma scan_escaped c r : scan_string (escape_chr c +:+ r)%string
  = ('(t, rest) ← scan_string r; Some (String.String c t, rest)).
Proof.
  destruct c as [[] [] [] [] [] [] [] []];
    first [ reflexivity
          | match goal with |- scan_string (escape_chr ?c +:+ r)%string = _ =>
              exact (scan_string_u "0" "0" (hex_chr (N_of_ascii c / 16)) (hex_chr (N_of_ascii c mod 16))
                       (N_of_ascii c) r eq_refl eq_refl)
            end ].
Qed.

Lemma scan_escape_to s r : scan_string (escape_to s r) = Some (s, r).
Proof. induction s as [|c s IH]; [reflexivity|]. cbn [escape_to]. by rewrite scan_escaped, IH. Qed.

(** *** Numbers *)

Lemma follow_scan t : follow t -> scan_frac t = None /\ scan_exp t = None.
Proof. destruct t as [|c t]; [done|]. cbn. intros H. by destruct_or! H; subst c. Qed.

Lemma scan_int_digits n t : 0 <= n -> no_digit_head t ->
  scan_int (digits_str (digits n) +:+ t)%string = Some (digits n, t).
Proof.
  intros Hn Ht. pose proof (digits_plain n Hn) as Hp. pose proof (digits_range n Hn) as Hr.
  pose proof (span_digits_str (digits n) t Hr Ht) as Hs. destruct (digits n) as [|d ds]; [done|].
  change ((digits_str (d :: ds) +:+ t)%string) with (String.String (digit_chr (Z.to_N d)) (digits_str ds +:+ t)%string) in *.
  unfold scan_int; cbv beta iota.
  destruct (Ascii.eqb_spec (digit_chr (Z.to_N d)) "0") as [E|_]; [|by rewrite Hs].
  assert (d = 0) as ->.
  { apply Forall_cons in Hr as [Hd _]. apply digit_chr_spec in Hd as [_ Hd].
    rewrite E in Hd. by rewrite <- Hd. }
  destruct ds as [|e ds]; [reflexivity|]. cbn in Hp. congruence.
Qed.

Lemma scan_number_int fr n t : follow t -> (length (digits (Z.abs n)) <= max_int_digits)%nat ->
  scan_number fr (int_str n +:+ t)%string = Some (Ok (VInt n), t).
Proof.
  intros Ht Hlen. pose proof (follow_no_digit t Ht) as Hd. destruct (follow_scan t Ht) as [Hf He].
  assert (Hmax : (max_int_digits <? length (digits (Z.abs n)))%nat = false) by (by apply Nat.ltb_ge).
  unfold int_str. destruct (Z.ltb_spec n 0) as [Hn|Hn].
  - change ((String.String "-" (digits_str (digits (- n))) +:+ t)%string)
      with (String.String "-" (digits_str (digits (- n)) +:+ t)%string). unfold scan_number. cbn [Ascii.eqb Bool.eqb]. rewrite scan_int_digits by (done || lia). cbn -[max_int_digits digits digits_val Nat.ltb length].
    rewrite Hf, He. replace (- n) with (Z.abs n) by lia. rewrite Hmax, digits_value by lia. cbn. do 4 f_equal. lia.
  - replace n with (Z.abs n) at 1 by lia. destruct (digits_str_head (Z.abs n) t ltac:(lia)) as (c & s & Hc & Hdig).
    unfold scan_number. rewrite Hc. destruct (Ascii.eqb_spec c "-") as [->|_]; [done|]. rewrite <- Hc.
    rewrite scan_int_digits by (done || lia). cbn -[max_int_digits digits digits_val Nat.ltb length].
    rewrite Hf, He, Hmax, digits_value by lia. cbn. do 4 f_equal. lia.
Qed.

(** *** Values *)

Lemma slen_app a b : String.length (a +:+ b)%string = (String.length a + String.length b)%nat.
Proof. induction a as [|c a IH]; [done|]. exact (f_equal S IH). Qed.

Lemma escape_longer s t : (String.length t < String.length (escape_to s t))%nat.
Proof. induction s as [|c s IH]; cbn [escape_to]; [cbn; lia|]. rewrite slen_app. lia. Qed.

Lemma items_longer l t : Forall (fun j => forall t, (String.length t < String.length (print_to j t))%nat) l ->
  (String.length t < String.length (items_to l t))%nat.
Proof. induction 1 as [|j l Hj _ IH]; cbn [items_to String.length]; [lia|]. specialize (Hj (items_to l t)). lia. Qed.

Lemma members_longer l t :
  Forall (fun kv => forall t, (String.length t < String.length (print_to kv.2 t))%nat) l ->
  (String.length t < String.length (members_to l t))%nat.
Proof.
  induction 1 as [|[k j] l Hj _ IH]; cbn [members_to String.length]; [lia|]. unfold str_to. cbn [String.length].
  pose proof (escape_longer k (String.String ":" (print_to j (members_to l t)))) as Hk. cbn [String.length] in Hk.
  specialize (Hj (members_to l t)). cbn [snd] in Hj. lia.
Qed.

Lemma int_str_longer n t : (String.length t < String.length (int_str n +:+ t))%nat.
Proof.
  rewrite slen_app. unfold int_str. destruct (n <? 0) eqn:E; [cbn; lia|]. apply Z.ltb_ge in E.
  pose proof (digits_plain n E). destruct (digits n); [done|cbn; lia].
Qed.

Lemma print_longer j t : exact j = true -> (String.length t < String.length (print_to j t))%nat.
Proof.
  revert t. induction j as [|b|n|r|s|l IH|kvs IH] using json_nested_ind; intros t Hx.
  - cbn [print_to]. rewrite slen_app. cbn. lia.
  - cbn [print_to]. rewrite slen_app. destruct b; cbn; lia.
  - apply int_str_longer.
  - done.
  - cbn [print_to]. unfold str_to. cbn [String.length]. pose proof (escape_longer s t). lia.
  - assert (Hl : Forall (fun j => forall t, (String.length t < String.length (print_to j t))%nat) l).
    { cbn in Hx. rewrite forallb_forall in Hx. rewrite Forall_forall in *. intros j Hj t'. apply IH; [done|].
      by apply Hx, list_elem_of_In. }
    destruct l as [|x l]; [cbn; lia|]. rewrite print_list_cons. apply Forall_cons in Hl as [Hj Hl]. cbn [String.length].
    pose proof (items_longer l t Hl). specialize (Hj (items_to l t)). lia.
  - assert (Hl : Forall (fun kv => forall t, (String.length t < String.length (print_to kv.2 t))%nat) kvs).
    { cbn in Hx. rewrite forallb_forall in Hx. rewrite Forall_forall in *. intros kv Hj t'. apply IH; [done|].
      by apply Hx, list_elem_of_In. }
    destruct kvs as [|[k x] l]; [cbn; lia|]. rewrite print_obj_cons. unfold str_to. apply Forall_cons in Hl as [Hj Hl].
    cbn [String.length]. pose proof (escape_longer k (String.String ":" (print_to x (members_to l t)))) as Hk.
    cbn [String.length] in Hk. pose proof (members_longer l t Hl). specialize (Hj (members_to l t)). cbn [snd] in Hj. lia.
Qed.

Lemma items_longer' l t : forallb exact l = true -> (String.length t < String.length (items_to l t))%nat.
Proof.
  intros Hx. apply items_longer. induction l as [|j l IH]; [constructor|]. apply andb_prop in Hx as [Hj Hl].
  constructor; [intros t'; by apply print_longer|by apply IH].
Qed.

Lemma members_longer' l t : forallb (fun kv => exact kv.2) l = true ->
  (String.length t < String.length (members_to l t))%nat.
Proof.
  intros Hx. apply members_longer. induction l as [|j l IH]; [constructor|]. apply andb_prop in Hx as [Hj Hl].
  constructor; [intros t'; by apply print_longer|by apply IH].
Qed.

Section RoundTrip.
Variable fr : string -> string.

(** Nothing to skip before a value or a delimiter. *)
Definition unspaced (s : string) : Prop := skip s = s.

Lemma unspaced_print j t : exact j = true -> unspaced (print_to j t).
Proof.
  intros Hx. destruct j as [|[]|n|r|s|l|kvs]; try done. cbn [print_to]. unfold int_str, unspaced.
  destruct (n <? 0) eqn:E; [done|]. apply Z.ltb_ge in E. destruct (digits_str_head n t E) as (c & s & -> & Hc).
  cbn. replace (is_json_space c) with false; [done|]. clear -Hc. by destruct c as [[] [] [] [] [] [] [] []].
Qed.

(** The parser finds a printed tree. *)
Definition found (j : json) : Prop := forall fuel t, exact j = true -> readable j -> follow t ->
  (2 * String.length (print_to j t) <= fuel + 2 * String.length t)%nat ->
  scan fr fuel (print_to j t) = Ok (of_json j, t).

Definition readables (l : list json) : Prop :=
  (fix go l := match l with [] => True | x :: l' => readable x /\ go l' end) l.

Lemma scan_items_found l j acc t fuel : Forall found (j :: l) -> forallb exact (j :: l) = true -> readables (j :: l) ->
  (2 * String.length (print_to j (items_to l t)) <= fuel + 2 * String.length t)%nat -> follow t ->
  scan_items fr fuel acc (print_to j (items_to l t)) = Ok (VList (acc ++ map of_json (j :: l)), t).
Proof.
  revert j acc fuel. induction l as [|y l IH]; intros j acc fuel [Hj Hl]%Forall_cons [Xj Xl]%andb_prop [Rj Rl] Hfuel Ht.
  - cbn [items_to] in *. pose proof (print_longer j (String.String "]" t) Xj). cbn [String.length] in *.
    destruct fuel as [|f]; [lia|]. cbn [scan_items].
    rewrite (Hj f (String.String "]" t)); [done|done|done|by right; left|cbn [String.length]; lia].
  - cbn [items_to] in *. set (rest := print_to y (items_to l t)) in *.
    pose proof (print_longer j (String.String "," rest) Xj). cbn [String.length] in *.
    assert (Xl' := Xl). apply andb_prop in Xl as [Xy Xr].
    assert (String.length t < String.length rest)%nat.
    { unfold rest. etransitivity; [by apply items_longer'|by apply print_longer]. }
    destruct fuel as [|f]; [lia|]. cbn [scan_items].
    rewrite (Hj f (String.String "," rest)); [|done|done|by left|cbn [String.length]; lia]. cbn [rbind snd fst skip].
    change (is_json_space ",") with false. cbn [Ascii.eqb Bool.eqb].
    fold rest. rewrite (unspaced_print y (items_to l t) Xy : skip rest = rest).
    unfold rest. rewrite IH; [|done|done|done|fold rest; lia|done]. by rewrite <- app_assoc.
Qed.

Definition readable_members (l : list (string * json)) : Prop :=
  (fix go l := match l with [] => True | (_, x) :: l' => readable x /\ go l' end) l.

Lemma dict_set_fresh {A} k (v : A) d : k ∉ d.*1 -> dict_set k v d = d ++ [(k, v)].
Proof.
  induction d as [|[k' v'] d IH]; [done|]. cbn. intros Hk. apply not_elem_of_cons in Hk as [Hk Hd].
  destruct (String.eqb_spec k k'); [done|]. by rewrite IH.
Qed.

Lemma scan_members_found k j l acc t fuel : Forall (fun kv => found kv.2) ((k, j) :: l) ->
  forallb (fun kv => exact kv.2) ((k, j) :: l) = true -> readable_members ((k, j) :: l) ->
  NoDup (acc.*1 ++ k :: l.*1) -> follow t ->
  (2 * String.length (str_to k (String.String ":" (print_to j (members_to l t)))) <= fuel + 2 * String.length t)%nat ->
  scan_members fr fuel acc (str_to k (String.String ":" (print_to j (members_to l t))))
  = Ok (VDict (acc ++ map (fun kv => (kv.1, of_json kv.2)) ((k, j) :: l)), t).
Proof.
  revert k j acc fuel. induction l as [|[k' y] l IH];
    intros k j acc fuel [Hj Hl]%Forall_cons [Xj Xl]%andb_prop [Rj Rl] Hk Ht Hfuel; cbn [snd] in *.
  all: pose proof (escape_longer k (String.String ":" (print_to j (members_to [] t)))) as He0.
  all: unfold str_to in Hfuel; cbn [String.length] in Hfuel.
  - cbn [members_to] in *. pose proof (print_longer j (String.String "}" t) Xj) as Hlj.
    pose proof (escape_longer k (String.String ":" (print_to j (String.String "}" t)))) as He. cbn [String.length] in *.
    destruct fuel as [|f]; [lia|]. unfold str_to. cbn [scan_members]. change (Ascii.eqb quote quote) with true. cbv iota.
    rewrite scan_escape_to. cbn [skip]. change (is_json_space ":") with false. cbv iota. change (Ascii.eqb ":" ":") with true. cbv iota.
    rewrite (unspaced_print j (String.String "}" t) Xj : skip _ = _).
    rewrite (Hj f (String.String "}" t)); [|done|done|by right; right|cbn [String.length]; lia].
    cbn [rbind fst snd skip]. change (is_json_space "}") with false. cbv iota. change (Ascii.eqb "}" "}") with true. cbv iota.
    rewrite dict_set_fresh; [done|]. apply NoDup_app in Hk as (_ & Hk & _). intros Hin. by apply (Hk k Hin), list_elem_of_here.
  - cbn [members_to] in *. set (rest := str_to k' (String.String ":" (print_to y (members_to l t)))) in *.
    pose proof (print_longer j (String.String "," rest) Xj) as Hlj.
    pose proof (escape_longer k (String.String ":" (print_to j (String.String "," rest)))) as He. cbn [String.length] in *.
    assert (Hrest : (String.length t < String.length rest)%nat).
    { apply andb_prop in Xl as [Xy Xl]. pose proof (members_longer' l t Xl). pose proof (print_longer y (members_to l t) Xy).
      pose proof (escape_longer k' (String.String ":" (print_to y (members_to l t)))) as Hm.
      unfold rest, str_to. cbn [String.length] in *. cbn [snd] in *. lia. }
    destruct fuel as [|f]; [lia|]. unfold str_to at 1. cbn [scan_members]. change (Ascii.eqb quote quote) with true. cbv iota.
    rewrite scan_escape_to. cbn [skip]. change (is_json_space ":") with false. cbv iota. change (Ascii.eqb ":" ":") with true. cbv iota.
    rewrite (unspaced_print j (String.String "," rest) Xj : skip _ = _).
    rewrite (Hj f (String.String "," rest)); [|done|done|by left|cbn [String.length]; lia].
    cbn [rbind fst snd skip]. change (is_json_space ",") with false. cbv iota. change (Ascii.eqb "," "}") with false.
    change (Ascii.eqb "," ",") with true. cbv iota.
    assert (skip rest = rest) as -> by reflexivity. rewrite dict_set_fresh.
    2: { apply NoDup_app in Hk as (_ & Hk & _). intros Hin. by apply (Hk k Hin), list_elem_of_here. }
    unfold rest. rewrite IH; [by rewrite <- app_assoc|done|done|done| |done|fold rest; lia].
    rewrite fmap_app. cbn [fmap list_fmap fst]. by rewrite <- app_assoc.
Qed.

Lemma scan_found j : found j.
Proof.
  induction j as [|b|n|r|s|l IH|kvs IH] using json_nested_ind; intros fuel t Hx Hr Ht Hfuel;
    pose proof (print_longer _ t Hx) as Hlen; (destruct fuel as [|f]; [lia|]).
  - reflexivity.
  - by destruct b.
  - cbn [print_to]. pose proof (scan_number_int fr n t Ht Hr) as Hs.
    assert (exists c s, (int_str n +:+ t)%string = String.String c s /\ (is_digit c = true \/ c = "-"%char) /\
      scan_literal literals (int_str n +:+ t)%string = None) as (c & s & Hc & Hd & Hlit).
    { unfold int_str. destruct (Z.ltb_spec n 0).
      - destruct (digits_str_head (- n) t ltac:(lia)) as (c & s & Hc & Hd). exists "-"%char, (String.String c s).
        change ((String.String "-" (digits_str (digits (- n))) +:+ t)%string)
          with (String.String "-" (digits_str (digits (- n)) +:+ t)%string). rewrite Hc.
        split; [done|]. split; [by right|]. clear -Hd. by destruct c as [[] [] [] [] [] [] [] []].
      - destruct (digits_str_head n t ltac:(lia)) as (c & s & Hc & Hd). exists c, s. rewrite Hc.
        split; [done|]. split; [by left|]. clear -Hd. by destruct c as [[] [] [] [] [] [] [] []]. }
    rewrite Hc in *. cbn [scan].
    assert (Ascii.eqb c quote = false /\ Ascii.eqb c "[" = false /\ Ascii.eqb c "{" = false) as (-> & -> & ->).
    { clear -Hd. destruct Hd as [Hd| ->]; [|done]. by destruct c as [[] [] [] [] [] [] [] []]. }
    rewrite Hlit, Hs. done.
  - done.
  - cbn [print_to scan]. unfold str_to. change (Ascii.eqb quote quote) with true. cbv iota. by rewrite scan_escape_to.
  - destruct l as [|x l]; [done|]. rewrite print_list_cons in *. cbn [scan]. change (Ascii.eqb "[" quote) with false.
    cbv iota. change (Ascii.eqb "[" "[") with true. cbv iota. assert (Xl := Hx). apply andb_prop in Xl as [Xx _].
    rewrite (unspaced_print x (items_to l t) Xx : skip _ = _).
    assert (exists c s, print_to x (items_to l t) = String.String c s /\ Ascii.eqb c "]" = false) as (c & s & Hc & Hd).
    { pose proof (head_kind_print x (items_to l t) Xx) as Hk. destruct (print_to x (items_to l t)) as [|c s]; [by destruct x as [|[]| | | | |]|].
      exists c, s. split; [done|]. destruct (Ascii.eqb_spec c "]") as [->|]; [|done]. by destruct x as [|[]| | | | |]. }
    rewrite Hc, Hd, <- Hc. cbn [String.length] in Hfuel.
    exact (scan_items_found l x [] t f IH Hx Hr ltac:(lia) Ht).
  - destruct kvs as [|[k x] l]; [done|]. rewrite print_obj_cons in *. cbn [scan]. change (Ascii.eqb "{" quote) with false.
    change (Ascii.eqb "{" "[") with false. change (Ascii.eqb "{" "{") with true. cbv iota. cbn [String.length] in Hfuel.
    change (skip (str_to k (String.String ":" (print_to x (members_to l t)))))
      with (str_to k (String.String ":" (print_to x (members_to l t)))).
    unfold str_to at 1. change (Ascii.eqb quote "}") with false. cbv iota. destruct Hr as [Hnd Hr].
    exact (scan_members_found k x l [] t f IH Hx Hr Hnd Ht ltac:(lia)).
Qed.
End RoundTrip.

(** Decoding a canonical text gives back the value it was printed from: for every
    tree without floats whose objects have distinct keys. *)
Lemma scan_loads (fr : string -> string) (j : json) : exact j = true -> readable j -> loads fr (print j) = Ok (of_json j).
Proof.
  intros Hx Hr. unfold loads, print. rewrite (unspaced_print j EmptyString Hx : skip _ = _).
  rewrite (scan_found fr j); [done|done|done|done|]. unfold loads_fuel. cbn. lia.
Qed.
