(* ===== verification/Models.v ===== *)
(** The value objects of src/src/api/domain/models.py: money normalisation,
    the closed enumerations of the decision contract, and the frozen
    dataclasses with the checks of their [__post_init__].  A dataclass is a
    Record; its constructor call is a [mk_*] function into [res], which runs
    the checks in source order.  Fields the annotations type as [str], [int]
    or [datetime] are typed so here; money arguments ([AmountLike] and whatever
    else a caller passes) are [pyval], since their type is what is checked. *)
From S2P Require Import Prelude PyTime Decimal Json.

(** ** Money *)

(** [_AMOUNT_RE.fullmatch(value)]: (0|[1-9][0-9]* ) dot two digits. *)
Definition amount_re (s : string) : bool :=
  let '(ip, r) := span_digits s in
  match ip with
  | [] => false
  | [_] => true
  | d :: _ => negb (d =? 0)
  end &&
  match r with
  | String.String c r' =>
      Ascii.eqb c "." &&
      match span_digits r' with
      | ([_; _], EmptyString) => true
      | _ => false
      end
  | EmptyString => false
  end.

(** The part of [_decimal_amount] after the type dispatch, on [raw]. *)
Definition amount_of_raw (raw : string) : res dec :=
  match decimal_of_string raw with
  | Raise _ => Raise AmountFormatError
  | Ok amount =>
      if negb (is_finite amount) then Raise AmountFormatError
      else
        let? negative := dlt amount dzero in
        if negative then Raise AmountFormatError
        else
          match quantize_cent ROUND_HALF_EVEN amount with
          | Raise _ => Raise AmountFormatError
          | Ok quantized =>
              if deq quantized amount then Ok quantized else Raise AmountFormatError
          end
  end.

Definition _decimal_amount (value : pyval) (require_canonical_string : bool) : res dec :=
  match value with
  | VStr s =>
      if require_canonical_string && negb (amount_re s) then Raise AmountFormatError
      else if negb require_canonical_string && String.eqb s "" then Raise AmountFormatError
      else amount_of_raw s
  | VDec d => amount_of_raw (dec_str d)
  | VInt n => amount_of_raw (int_str n)
  | _ => Raise AmountFormatError
  end.

(** [format(amount, ".2f")] of the quantized result. *)
Definition fmt_2f (d : dec) : string :=
  match d with DFin neg c _ => fmt_cents neg c | _ => dec_str d end.

Definition is_str (v : pyval) : bool := match v with VStr _ => true | _ => false end.

Definition canonical_amount (value : pyval) : res string :=
  let? amount := _decimal_amount value (is_str value) in Ok (fmt_2f amount).

Definition amount_decimal (value : pyval) : res dec := _decimal_amount value (is_str value).

Definition _limit_decimal (value : pyval) : res dec := _decimal_amount value false.

(** ** Enumerations *)

Inductive DecisionValue : Type := APPROVED | REJECTED | ESCALATED.

Inductive ReasonCode : Type :=
| AMOUNT_EXCEEDS_PER_TXN | BUDGET_EXCEEDED | LIMIT_EXHAUSTED | CATEGORY_FORBIDDEN
| MERCHANT_NOT_ALLOWED | MANDATE_EXPIRED | MANDATE_NOT_YET_VALID | MANDATE_REVOKED
| MANDATE_SUSPENDED | MANDATE_EXHAUSTED | CONDITION_FAILED | INVALID_SIGNATURE
| INVALID_PROOF_OF_POSSESSION | DUPLICATE_JTI | NONCE_REUSED | ESCALATION_TIMEOUT_DENIED
| RAIL_ERROR | RAIL_TOKEN_DELETED | VELOCITY_BURST | STEPUP_AMOUNT_THRESHOLD
| STEPUP_BUDGET_USAGE | PRICE_MISMATCH_AUTO_REFUND | WEBHOOK_INVALID.

Inductive MandateStatus : Type := DRAFT | ACTIVE | SUSPENDED | REVOKED | EXPIRED | EXHAUSTED.

Inductive EscalationLevel : Type := L3 | L3_PLUS.

#[export] Instance DecisionValue_eq_dec : EqDecision DecisionValue.
Proof. solve_decision. Defined.
#[export] Instance ReasonCode_eq_dec : EqDecision ReasonCode.
Proof. solve_decision. Defined.
#[export] Instance MandateStatus_eq_dec : EqDecision MandateStatus.
Proof. solve_decision. Defined.
#[export] Instance EscalationLevel_eq_dec : EqDecision EscalationLevel.
Proof. solve_decision. Defined.

Definition DecisionValue_value (d : DecisionValue) : string :=
  match d with APPROVED => "APPROVED" | REJECTED => "REJECTED" | ESCALATED => "ESCALATED" end.

Definition ReasonCode_value (r : ReasonCode) : string :=
  match r with
  | AMOUNT_EXCEEDS_PER_TXN => "AMOUNT_EXCEEDS_PER_TXN"
  | BUDGET_EXCEEDED => "BUDGET_EXCEEDED"
  | LIMIT_EXHAUSTED => "LIMIT_EXHAUSTED"
  | CATEGORY_FORBIDDEN => "CATEGORY_FORBIDDEN"
  | MERCHANT_NOT_ALLOWED => "MERCHANT_NOT_ALLOWED"
  | MANDATE_EXPIRED => "MANDATE_EXPIRED"
  | MANDATE_NOT_YET_VALID => "MANDATE_NOT_YET_VALID"
  | MANDATE_REVOKED => "MANDATE_REVOKED"
  | MANDATE_SUSPENDED => "MANDATE_SUSPENDED"
  | MANDATE_EXHAUSTED => "MANDATE_EXHAUSTED"
  | CONDITION_FAILED => "CONDITION_FAILED"
  | INVALID_SIGNATURE => "INVALID_SIGNATURE"
  | INVALID_PROOF_OF_POSSESSION => "INVALID_PROOF_OF_POSSESSION"
  | DUPLICATE_JTI => "DUPLICATE_JTI"
  | NONCE_REUSED => "NONCE_REUSED"
  | ESCALATION_TIMEOUT_DENIED => "ESCALATION_TIMEOUT_DENIED"
  | RAIL_ERROR => "RAIL_ERROR"
  | RAIL_TOKEN_DELETED => "RAIL_TOKEN_DELETED"
  | VELOCITY_BURST => "VELOCITY_BURST"
  | STEPUP_AMOUNT_THRESHOLD => "STEPUP_AMOUNT_THRESHOLD"
  | STEPUP_BUDGET_USAGE => "STEPUP_BUDGET_USAGE"
  | PRICE_MISMATCH_AUTO_REFUND => "PRICE_MISMATCH_AUTO_REFUND"
  | WEBHOOK_INVALID => "WEBHOOK_INVALID"
  end.

Definition MandateStatus_value (s : MandateStatus) : string :=
  match s with
  | DRAFT => "draft" | ACTIVE => "active" | SUSPENDED => "suspended"
  | REVOKED => "revoked" | EXPIRED => "expired" | EXHAUSTED => "exhausted"
  end.

Definition EscalationLevel_value (l : EscalationLevel) : string :=
  match l with L3 => "L3" | L3_PLUS => "L3+" end.

Definition all_DecisionValue : list DecisionValue := [APPROVED; REJECTED; ESCALATED].
Definition all_ReasonCode : list ReasonCode :=
  [AMOUNT_EXCEEDS_PER_TXN; BUDGET_EXCEEDED; LIMIT_EXHAUSTED; CATEGORY_FORBIDDEN;
   MERCHANT_NOT_ALLOWED; MANDATE_EXPIRED; MANDATE_NOT_YET_VALID; MANDATE_REVOKED;
   MANDATE_SUSPENDED; MANDATE_EXHAUSTED; CONDITION_FAILED; INVALID_SIGNATURE;
   INVALID_PROOF_OF_POSSESSION; DUPLICATE_JTI; NONCE_REUSED; ESCALATION_TIMEOUT_DENIED;
   RAIL_ERROR; RAIL_TOKEN_DELETED; VELOCITY_BURST; STEPUP_AMOUNT_THRESHOLD;
   STEPUP_BUDGET_USAGE; PRICE_MISMATCH_AUTO_REFUND; WEBHOOK_INVALID].
Definition all_MandateStatus : list MandateStatus :=
  [DRAFT; ACTIVE; SUSPENDED; REVOKED; EXPIRED; EXHAUSTED].

(** [Enum(text)]: the member with that value, or ValueError. *)
Definition enum_of {A} (value : A -> string) (all : list A) (s : string) : res A :=
  match find (fun a => String.eqb (value a) s) all with
  | Some a => Ok a
  | None => Raise ValueError
  end.

Definition DecisionValue_of := enum_of DecisionValue_value all_DecisionValue.
Definition ReasonCode_of := enum_of ReasonCode_value all_ReasonCode.
Definition MandateStatus_of := enum_of MandateStatus_value all_MandateStatus.

(** [_as_level]: four spellings of L3+, else the enumeration itself. *)
Definition _as_level (s : string) : res EscalationLevel :=
  if existsb (String.eqb s) ["L3+"; "L3_PLUS"; "l3+"; "l3_plus"]%string then Ok L3_PLUS
  else if String.eqb s "L3" then Ok L3 else Raise ValueError.

(** [MandateClaims.status]: an unknown text is kept for the gate to deny. *)
Inductive status_field : Type := Known (s : MandateStatus) | Unknown (raw : string).

#[export] Instance status_field_eq_dec : EqDecision status_field.
Proof. solve_decision. Defined.

Definition _as_mandate_status (raw : string) : status_field :=
  match MandateStatus_of raw with Ok s => Known s | Raise _ => Unknown raw end.

(** ** Mandates *)

Record MaxTxnLimit : Type := { count : Z; period : string }.

Definition mk_MaxTxnLimit (count : Z) (period : string) : res MaxTxnLimit :=
  if count <? 0 then Raise ValueError
  else if existsb (String.eqb period) ["day"; "week"; "month"]%string
  then Ok {| count := count; period := period |}
  else Raise ValueError.

Record MandateLimits : Type :=
  { max_per_txn : dec; total_budget : dec; max_txn : option MaxTxnLimit }.

Definition mk_MandateLimits (max_per_txn total_budget : pyval) (max_txn : option MaxTxnLimit)
    : res MandateLimits :=
  let? m := _limit_decimal max_per_txn in
  let? t := _limit_decimal total_budget in
  Ok {| max_per_txn := m; total_budget := t; max_txn := max_txn |}.

Record MandateScope : Type := { categories : list string; merchants : list string }.

Definition mk_MandateScope (categories merchants : list string) : res MandateScope :=
  if existsb (fun item => negb (truthy_str item)) (categories ++ merchants)
  then Raise ValueError
  else Ok {| categories := categories; merchants := merchants |}.

Record MandateValidity : Type := { not_before : Z; expires_at : Z }.

Definition mk_MandateValidity (not_before expires_at : datetime) : res MandateValidity :=
  let? nb := ensure_utc not_before in
  let? ex := ensure_utc expires_at in
  if ex <=? nb then Raise ValueError
  else Ok {| not_before := nb; expires_at := ex |}.

Record MandateClaims : Type := {
  jti : string;
  agent : option string;
  currency : string;
  scope : MandateScope;
  limits : option MandateLimits;
  validity : option MandateValidity;
  status : status_field;
  conditions : option pyval;
  payment_method_ref : option string;
  subject : option string;
  agent_id : option string;
  parent_jti : option string;
}.

(** [a or b] on optional strings. *)
Definition or_str (a b : option string) : option string :=
  match a with Some s => if truthy_str s then a else b | None => b end.

Definition mk_MandateClaims (jti : string) (agent : option string) (currency : string)
    (scope : MandateScope) (limits : option MandateLimits) (validity : option MandateValidity)
    (status : string) (conditions : option pyval)
    (payment_method_ref subject agent_id parent_jti : option string) : res MandateClaims :=
  if negb (truthy_str jti) then Raise ValueError
  else
    let agent' := or_str agent agent_id in
    if bool_decide (agent' = Some ""%string) then Raise ValueError
    else Ok {| jti := jti; agent := agent'; currency := upper currency; scope := scope;
               limits := limits; validity := validity; status := _as_mandate_status status;
               conditions := conditions; payment_method_ref := payment_method_ref;
               subject := subject; agent_id := agent_id; parent_jti := parent_jti |}.

(** ** Offers and intents *)

Record Offer : Type := {
  o_offer_id : string;
  o_merchant_id : string;
  o_category : string;
  o_amount : string;
  o_currency : string;
  o_title : string;
  o_description : option string;
}.

Definition mk_Offer (offer_id merchant_id category : string) (amount : pyval)
    (currency title : string) (description : option string) : res Offer :=
  let? a := canonical_amount amount in
  Ok {| o_offer_id := offer_id; o_merchant_id := merchant_id; o_category := category;
        o_amount := a; o_currency := upper currency; o_title := title;
        o_description := description |}.

Record PurchaseIntent : Type := {
  i_jti : string;
  i_mandate_jti : string;
  i_agent : string;
  i_merchant_id : string;
  i_offer_id : string;
  i_amount : string;
  i_currency : string;
  i_nonce : string;
  i_iat : pyval;
  i_exp : pyval;
  i_category : option string;
  i_offer_amount : option string;
  i_agent_id : option string;
}.

Definition mk_PurchaseIntent (jti mandate_jti agent merchant_id offer_id : string)
    (amount : pyval) (currency nonce : string) (iat exp : pyval) (category : option string)
    (offer_amount : option pyval) (agent_id : option string) : res PurchaseIntent :=
  if negb (truthy_str jti) || negb (truthy_str mandate_jti) then Raise ValueError
  else if (match agent_id with
           | Some a => truthy_str a && truthy_str agent && negb (String.eqb a agent)
           | None => false
           end) then Raise ValueError
  else
    let? a := canonical_amount amount in
    let? oa := (match offer_amount with
          | Some v => let? x := canonical_amount v in Ok (Some x)
          | None => Ok None
          end) in
    Ok {| i_jti := jti; i_mandate_jti := mandate_jti; i_agent := agent;
          i_merchant_id := merchant_id; i_offer_id := offer_id; i_amount := a;
          i_currency := upper currency; i_nonce := nonce; i_iat := iat; i_exp := exp;
          i_category := category; i_offer_amount := oa;
          i_agent_id := or_str agent_id (Some agent) |}.

(** ** The ledger projection given to the gate *)

Record SpendView : Type := {
  spent_total : dec;
  reserved_total : dec;
  txn_count_period : Z;
  mandate_status : status_field;
  intents_last_60s : Z;
  escalations_last_hour : Z;
  open_authorizations : Z;
  cooldown_until : option Z;
}.

Definition opt_utc (d : option datetime) : res (option Z) :=
  match d with Some t => let? u := ensure_utc t in Ok (Some u) | None => Ok None end.

Definition mk_SpendView (spent_total reserved_total : pyval) (txn_count_period : Z)
    (mandate_status : status_field) (intents_last_60s escalations_last_hour open_authorizations : Z)
    (cooldown_until : option datetime) : res SpendView :=
  let? s := _limit_decimal spent_total in
  let? r := _limit_decimal reserved_total in
  if existsb (fun v => v <? 0)
       [txn_count_period; intents_last_60s; escalations_last_hour; open_authorizations]
  then Raise ValueError
  else
    let? c := opt_utc cooldown_until in
    Ok {| spent_total := s; reserved_total := r; txn_count_period := txn_count_period;
          mandate_status := mandate_status; intents_last_60s := intents_last_60s;
          escalations_last_hour := escalations_last_hour;
          open_authorizations := open_authorizations; cooldown_until := c |}.

(** ** Decisions *)

Record Decision : Type := {
  decision : DecisionValue;
  reason_code : option ReasonCode;
  reservation_id : option string;
  diff : option pydict;
  level : option EscalationLevel;
  ttl_seconds : option Z;
  requires_uv : bool;
}.

(** [Decision(value, reason, diff=diff)] with the remaining defaults. *)
Definition decide_diff (v : DecisionValue) (r : option ReasonCode) (d : option pydict) : Decision :=
  {| decision := v; reason_code := r; reservation_id := None; diff := d; level := None;
     ttl_seconds := None; requires_uv := false |}.
Definition reject (r : ReasonCode) : Decision := decide_diff REJECTED (Some r) None.
Definition approve : Decision := decide_diff APPROVED None None.

Definition is_approved (d : Decision) : bool := bool_decide (decision d = APPROVED).
Definition is_rejected (d : Decision) : bool := bool_decide (decision d = REJECTED).
Definition is_escalated (d : Decision) : bool := bool_decide (decision d = ESCALATED).

(** [Decision(...)] from texts, as [_result_from_idempotency] calls it. *)
Definition mk_Decision (decision : string) (reason_code reservation_id : option string)
    (diff : option pydict) (level : option string) (ttl_seconds : option Z) (requires_uv : bool)
    : res Decision :=
  let? d := DecisionValue_of decision in
  let? r := (match reason_code with Some s => let? x := ReasonCode_of s in Ok (Some x) | None => Ok None end) in
  let? l := (match level with Some s => let? x := _as_level s in Ok (Some x) | None => Ok None end) in
  if (match ttl_seconds with Some t => t <? 0 | None => false end) then Raise ValueError
  else Ok {| decision := d; reason_code := r; reservation_id := reservation_id; diff := diff;
             level := l; ttl_seconds := ttl_seconds; requires_uv := requires_uv |}.

(** ** Burst and step-up configuration, states and outcomes *)

Record BurstConfig : Type := {
  max_intents : Z;
  window : Z;
  cooldown : Z;
  max_open_authorizations : Z;
  max_escalations_per_hour : Z;
}.

Definition mk_BurstConfig (max_intents window cooldown max_open max_esc : Z) : res BurstConfig :=
  if (max_intents <? 0) || (max_open <? 0) || (max_esc <? 0) then Raise ValueError
  else if (window <=? 0) || (cooldown <=? 0) then Raise ValueError
  else Ok {| max_intents := max_intents; window := window; cooldown := cooldown;
             max_open_authorizations := max_open; max_escalations_per_hour := max_esc |}.

Definition default_BurstConfig : BurstConfig :=
  {| max_intents := 3; window := seconds 60; cooldown := minutes 10;
     max_open_authorizations := 3; max_escalations_per_hour := 5 |}.

Record BurstState : Type := {
  intents_in_window : Z;
  b_cooldown_until : option Z;
  b_open_authorizations : Z;
  escalations_in_hour : Z;
}.

Definition mk_BurstState (intents_in_window : Z) (cooldown_until : option Z)
    (open_authorizations escalations_in_hour : Z) : res BurstState :=
  if existsb (fun v => v <? 0) [intents_in_window; open_authorizations; escalations_in_hour]
  then Raise ValueError
  else Ok {| intents_in_window := intents_in_window; b_cooldown_until := cooldown_until;
             b_open_authorizations := open_authorizations;
             escalations_in_hour := escalations_in_hour |}.

Record BurstDecision : Type := {
  b_decision : DecisionValue;
  b_reason_code : option ReasonCode;
  b_decision_cooldown_until : option Z;
  auto_suspend : bool;
  b_diff : option pydict;
}.

Record StepUpConfig : Type := {
  amount_ratio : dec;
  budget_ratio : dec;
  ttl_l3 : Z;
  ttl_l3_plus : Z;
}.

Definition ratio_ok (d : dec) : res bool :=
  let? low := dle d dzero in
  let? high := dlt (DFin false 1 0) d in
  Ok (negb low && negb high).

Definition mk_StepUpConfig (amount_ratio budget_ratio : dec) (ttl_l3 ttl_l3_plus : Z)
    : res StepUpConfig :=
  let? a := ratio_ok amount_ratio in
  let? _ := guard_res a ValueError in
  let? b := ratio_ok budget_ratio in
  if negb b then Raise ValueError
  else if (ttl_l3 <=? 0) || (ttl_l3_plus <=? 0) then Raise ValueError
  else Ok {| amount_ratio := amount_ratio; budget_ratio := budget_ratio;
             ttl_l3 := ttl_l3; ttl_l3_plus := ttl_l3_plus |}.

Definition default_StepUpConfig : StepUpConfig :=
  {| amount_ratio := cents 70; budget_ratio := cents 80;
     ttl_l3 := seconds 120; ttl_l3_plus := seconds 300 |}.

Record StepUpDecision : Type := {
  required : bool;
  s_level : option EscalationLevel;
  reasons : list ReasonCode;
  s_ttl_seconds : option Z;
  max_age : option Z;
  s_requires_uv : bool;
  s_expires_at : option Z;
  s_diff : option pydict;
}.

Record Escalation : Type := {
  e_level : EscalationLevel;
  e_created_at : Z;
  e_timeout_at : option Z;
  e_diff : option pydict;
}.

Definition mk_Escalation (level : string) (created_at : datetime) (timeout_at : option datetime)
    (diff : option pydict) : res Escalation :=
  let? l := _as_level level in
  let? c := ensure_utc created_at in
  let? t := opt_utc timeout_at in
  match t with
  | Some u => if u <=? c then Raise ValueError
              else Ok {| e_level := l; e_created_at := c; e_timeout_at := t; e_diff := diff |}
  | None => Ok {| e_level := l; e_created_at := c; e_timeout_at := None; e_diff := diff |}
  end.

(** ** Money: what the normalisers accept and return *)

(** The shape of every amount [_decimal_amount] returns: two decimals, at most
    28 digits, never a strictly negative value. *)
Definition amount_shape (d : dec) : Prop :=
  exists neg c, d = DFin neg c (-2) /\ 0 <= c < max_coef /\ (neg = true -> c = 0).

Lemma dlt_zero neg c e :
  dlt (DFin neg c e) dzero = Ok (signed neg c * 10 ^ (e - Z.min e 0) <? 0).
Proof.
  unfold dlt, dcompare, dzero, Z.ltb. cbn [signed]. rewrite Z.mul_0_l. by destruct (_ ?= 0).
Qed.

Lemma span_digits_range s : Forall is_digit_val (span_digits s).1.
Proof.
  induction s as [|c s IH]; [constructor|]. cbn.
  destruct (is_digit c) eqn:E; [|constructor].
  destruct (span_digits s) as [ds r]. constructor; [|done].
  unfold is_digit_val, digit_val. unfold is_digit in E. bool_prop.
  apply N.leb_le in H, H0. lia.
Qed.

Lemma digit_chr_val c : is_digit c = true -> digit_chr (Z.to_N (Z.of_N (digit_val c))) = c.
Proof. by destruct c as [[] [] [] [] [] [] [] []]. Qed.

Lemma span_digits_recompose s :
  s = (digits_str (span_digits s).1 +:+ (span_digits s).2)%string.
Proof.
  induction s as [|c s IH]; [done|]. cbn [span_digits].
  destruct (is_digit c) eqn:E; [|done]. destruct (span_digits s) as [ds r]. cbn [fst snd] in *.
  change (digits_str (Z.of_N (digit_val c) :: ds) +:+ r)%string
    with (String.String (digit_chr (Z.to_N (Z.of_N (digit_val c)))) (digits_str ds +:+ r)%string).
  rewrite digit_chr_val by done. by f_equal.
Qed.

Lemma parse_number_nonneg neg s n c e : parse_number neg s = Some (DFin n c e) -> n = neg /\ 0 <= c.
Proof.
  unfold parse_number. pose proof (span_digits_range s) as H1.
  destruct (span_digits s) as [ip r]. cbn in H1.
  set (p := match r with EmptyString => _ | _ => _ end).
  assert (H2 : Forall is_digit_val p.1).
  { subst p. destruct r as [|x r]; [constructor|]. case_match; [apply span_digits_range|constructor]. }
  destruct p as [fp r']. cbn in H2.
  assert (0 <= digits_val 0 (ip ++ fp)).
  { apply digits_val_pos; [lia|]. by apply Forall_app. }
  destruct (ip ++ fp); [done|]. destruct (parse_exponent r'); [|done]. by intros [= <- <- <-].
Qed.

Lemma decimal_of_string_nonneg s n c e : decimal_of_string s = Ok (DFin n c e) -> 0 <= c.
Proof.
  unfold decimal_of_string. destruct (read_sign _) as [neg r].
  destruct (parse_number neg r) as [d|] eqn:E.
  - intros [= ->]. by apply parse_number_nonneg in E as [_ ?].
  - unfold parse_special. repeat case_match; congruence.
Qed.

Lemma quantize_cent_shape r neg c e q : 0 <= c ->
  quantize_cent r (DFin neg c e) = Ok q -> exists k, q = DFin neg k (-2) /\ 0 <= k < max_coef.
Proof.
  intros Hc. cbn. set (k := if c =? 0 then 0 else _).
  assert (0 <= k).
  { subst k. destruct (c =? 0); [lia|]. destruct (Z.leb_spec (-2) e).
    - apply Z.mul_nonneg_nonneg; [lia|]. apply Z.pow_nonneg. lia.
    - unfold div_round. assert (0 <= c / 10 ^ (- 2 - e)).
      { apply Z.div_pos; [lia|]. apply Z.pow_pos_nonneg; lia. }
      destruct r; case_match; lia. }
  destruct (Z.ltb_spec k max_coef); [|done]. intros [= <-]. eauto.
Qed.

Lemma amount_of_raw_shape raw d : amount_of_raw raw = Ok d -> amount_shape d.
Proof.
  unfold amount_of_raw. destruct (decimal_of_string raw) as [a|] eqn:E; [|done].
  destruct a as [n c e|n|]; try done. cbn [is_finite negb]. rewrite dlt_zero. cbn [rbind].
  apply decimal_of_string_nonneg in E.
  destruct (Z.ltb_spec (signed n c * 10 ^ (e - Z.min e 0)) 0) as [|Hs]; [done|].
  destruct (quantize_cent _ _) as [q|] eqn:Eq; [|done].
  pose proof Eq as Eq'. apply quantize_cent_shape in Eq' as (k & -> & Hk); [|done].
  destruct (deq _ _) eqn:Ed; [|done]. intros [= <-]. exists n, k. split; [done|]. split; [done|].
  intros ->. cbn [signed] in Hs.
  assert (0 < 10 ^ (e - Z.min e 0)) by (apply Z.pow_pos_nonneg; lia).
  assert (c = 0) as -> by nia. cbn in Eq. by injection Eq.
Qed.

Lemma _decimal_amount_shape v b d : _decimal_amount v b = Ok d -> amount_shape d.
Proof.
  unfold _decimal_amount. intros H. split_match_in H; by eapply amount_of_raw_shape.
Qed.

(** [AmountFormatError] is the only failure. *)
Lemma amount_of_raw_raise raw e : amount_of_raw raw = Raise e -> e = AmountFormatError.
Proof.
  unfold amount_of_raw. destruct (decimal_of_string raw) as [[n c x|n|]|]; cbn [is_finite negb];
    try congruence.
  rewrite dlt_zero. cbn [rbind]. repeat case_match; congruence.
Qed.

Lemma amount_decimal_raise v e : amount_decimal v = Raise e -> e = AmountFormatError.
Proof.
  unfold amount_decimal, _decimal_amount. intros H. split_match_in H; by eapply amount_of_raw_raise.
Qed.

Lemma amount_of_cents_text c : 0 <= c ->
  amount_of_raw (cents_text c) = if c <? max_coef then Ok (cents c) else Raise AmountFormatError.
Proof.
  intros Hc. unfold amount_of_raw. rewrite decimal_of_cents_text by done.
  cbn [is_finite negb]. rewrite dlt_zero. cbn [rbind signed].
  rewrite (proj2 (Z.ltb_ge _ 0)) by (apply Z.mul_nonneg_nonneg; [lia|apply Z.pow_nonneg; lia]).
  destruct (Z.ltb_spec c max_coef).
  - rewrite quantize_cents by lia. fold (cents c). by rewrite deq_cents, Z.eqb_refl.
  - assert (quantize_cent ROUND_HALF_EVEN (DFin false c (-2)) = Raise InvalidOperation) as ->; [|done].
    cbn -[max_coef]. rewrite Z.mul_1_r.
    destruct (Z.eqb_spec c 0) as [->|]; [done|]. destruct (Z.ltb_spec c max_coef); [lia|done].
Qed.

(** The accepted wire texts are exactly the texts of amounts. *)
Lemma amount_re_spec s : amount_re s = true <-> exists c, 0 <= c /\ s = cents_text c.
Proof.
  split.
  - unfold amount_re. intros H.
    pose proof (span_digits_recompose s) as E. pose proof (span_digits_range s) as R.
    destruct (span_digits s) as [ip r]. cbn in E, R.
    apply andb_prop in H as [Hip Hr].
    destruct r as [|c r']; [done|]. apply andb_prop in Hr as [Hc Hr'].
    apply Ascii.eqb_eq in Hc as ->.
    pose proof (span_digits_recompose r') as E'. pose proof (span_digits_range r') as R'.
    destruct (span_digits r') as [fp r'']. cbn in E', R'.
    destruct fp as [|x [|y [|]]]; try done. destruct r''; [|done].
    inversion R' as [|? ? Rx R2]; subst. inversion R2 as [|? ? Ry _]; subst.
    unfold is_digit_val in Rx, Ry.
    assert (plain_digits ip) as Hp.
    { destruct ip as [|d [|d' ip]]; [done|done|]. cbn in *. apply negb_true_iff, Z.eqb_neq in Hip. done. }
    pose proof (digits_val_pos 0 ip ltac:(lia) R).
    exists (digits_val 0 ip * 100 + (x * 10 + y)). split; [lia|]. unfold cents_text.
    rewrite Z.div_add_l, (Z.div_small (x * 10 + y)), Z.add_0_r by lia.
    rewrite (Z.add_comm _ (x * 10 + y)), Z.mod_add, Z.mod_small by lia.
    rewrite digits_unique by done. f_equal.
    change (String.String "." (digits_str [x; y] +:+ "")%string
            = String.String "." (pad 2 (x * 10 + y))).
    f_equal. cbn [pad digits_str]. cbn -[Z.div Z.modulo digit_chr].
    rewrite Z.div_add_l, (Z.div_small y), Z.add_0_r, (Z.mod_small x), Z.div_1_r by lia.
    rewrite (Z.add_comm _ y), Z.mod_add, (Z.mod_small y) by lia. done.
  - intros (c & Hc & ->). unfold amount_re, cents_text.
    assert (0 <= c / 100) as Hq by (Z.div_mod_to_equations; lia).
    rewrite span_digits_str by (done || by apply digits_range).
    pose proof (digits_plain _ Hq) as Hp. apply andb_true_intro. split.
    + destruct (digits (c / 100)) as [|d [|d' ds]]; try done. cbn in *. by apply negb_true_iff, Z.eqb_neq.
    + change (("." +:+ pad 2 (c mod 100))%string) with (String.String "." (pad 2 (c mod 100))).
      cbn [Ascii.eqb Bool.eqb andb].
      destruct (span_digits_pad 2 (c mod 100) EmptyString) as (ds & Hsp & Hl & _);
        [Z.div_mod_to_equations; lia|done|].
      rewrite string_app_nil_r in Hsp. rewrite Hsp.
      destruct ds as [|x [|y [|]]]; done.
Qed.

Lemma fmt_cents_text neg c :
  fmt_cents neg c = ((if neg then "-" else "") +:+ cents_text c)%string.
Proof. done. Qed.

Lemma amount_of_cents d : amount_shape d -> amount_of_raw (dec_str d) = Ok d.
Proof.
  intros (neg & c & -> & Hc & Hz). rewrite dec_str_cents by lia. destruct neg.
  - rewrite Hz by done. done.
  - change (("" +:+ cents_text c)%string) with (cents_text c).
    rewrite amount_of_cents_text by lia. destruct (Z.ltb_spec c max_coef); [done|lia].
Qed.

(** A normalised amount is a fixed point of every normaliser. *)
Lemma _decimal_amount_fixed d b : amount_shape d -> _decimal_amount (VDec d) b = Ok d.
Proof. apply amount_of_cents. Qed.

Lemma cents_shape c : 0 <= c < max_coef -> amount_shape (cents c).
Proof. intros H. exists false, c. done. Qed.

Lemma amount_decimal_cents c : 0 <= c < max_coef -> amount_decimal (VDec (cents c)) = Ok (cents c).
Proof. intros H. by apply _decimal_amount_fixed, cents_shape. Qed.

Lemma amount_decimal_text c : 0 <= c < max_coef ->
  amount_decimal (VStr (cents_text c)) = Ok (cents c).
Proof.
  intros H. unfold amount_decimal, _decimal_amount. cbn [is_str andb].
  rewrite (proj2 (amount_re_spec _)) by (exists c; split; [lia|done]).
  cbn [negb]. rewrite amount_of_cents_text by lia. destruct (Z.ltb_spec c max_coef); [done|lia].
Qed.

Lemma canonical_amount_text c : 0 <= c < max_coef ->
  canonical_amount (VStr (cents_text c)) = Ok (cents_text c).
Proof.
  intros H. unfold canonical_amount. pose proof (amount_decimal_text c H) as E.
  unfold amount_decimal in E. by rewrite E.
Qed.

#[export] Hint Rewrite amount_decimal_cents amount_decimal_text canonical_amount_text
  using lia : aval.
#[export] Hint Resolve cents_shape _decimal_amount_shape : aval.

(** on a wire string, [canonical_amount] is the identity on exactly the
    texts of two-decimal amounts of at most 28 digits, and refuses every other
    string: no rounding, no other spelling of the same number. *)
Theorem canonical_amount_wire (s t : string) :
  canonical_amount (VStr s) = Ok t <->
  t = s /\ exists c, 0 <= c < max_coef /\ s = cents_text c.
Proof.
  split.
  - unfold canonical_amount, _decimal_amount. cbn [is_str andb].
    destruct (amount_re s) eqn:E; [|done]. cbn [negb].
    apply amount_re_spec in E as (c & Hc & ->). rewrite amount_of_cents_text by done.
    destruct (Z.ltb_spec c max_coef); [|done]. cbn. intros [= <-]. eauto.
  - intros [-> (c & Hc & ->)]. by apply canonical_amount_text.
Qed.

(** a limit is normalised without rounding: whatever spelling the text
    uses (exponents, underscores, blanks, signs), an accepted value is
    numerically equal to the amount returned, which has exactly two decimals,
    fits 28 digits and is not negative. *)
Theorem limit_decimal_exact (s : string) (d q : dec) :
  decimal_of_string s = Ok d -> _limit_decimal (VStr s) = Ok q ->
  deq q d = true /\ amount_shape q.
Proof.
  intros Hd H. split; [|exact (_decimal_amount_shape _ _ _ H)].
  unfold _limit_decimal, _decimal_amount in H. cbn [andb negb] in H.
  destruct (String.eqb s ""); [done|].
  unfold amount_of_raw in H. rewrite Hd in H.
  destruct d as [n c e|n|]; try done. cbn [is_finite negb] in H.
  rewrite dlt_zero in H. cbn [rbind] in H. by split_match_in H.
Qed.

Lemma limit_decimal_exact_witness :
  _limit_decimal (VStr " 1_2.500e1") = Ok (cents 12500) /\
  deq (cents 12500) (DFin false 12500 (-2)) = true.
Proof.
  split; [vm_compute; reflexivity|].
  apply (limit_decimal_exact " 1_2.500e1" (DFin false 12500 (-2)) (cents 12500));
    vm_compute; reflexivity.
Defined.

(** the canonical text of a negative zero is not a canonical text: the
    sign survives quantisation and formatting, and the result is refused when
    it comes back on the wire. *)
Theorem canonical_amount_negative_zero :
  canonical_amount (VDec (DFin true 0 (-2))) = Ok "-0.00"%string /\
  canonical_amount (VStr "-0.00") = Raise AmountFormatError.
Proof. split; vm_compute; reflexivity. Qed.
