(* ===== verification/JsonLogic.v ===== *)
(** The signed conditions of a mandate: the JsonLogic subset of
    src/src/api/domain/policy.py ([_lookup_var] to [evaluate_conditions]) over
    [pyval].  Evaluation is structural, so it always ends; what it raises, and
    what [evaluate_conditions] lets through, is the subject of the theorems.
    The recursion limit of the interpreter is not modelled. *)
From S2P Require Import Prelude PyTime Decimal Json Models.

(** ** Python operators on values *)

(** [bool(v)] *)
Definition truthy (v : pyval) : bool :=
  match v with
  | VNone => false
  | VBool b => b
  | VInt n => negb (n =? 0)
  | VStr s => truthy_str s
  | VDec (DFin _ c _) => negb (c =? 0)
  | VDec _ => true
  | VFloat r => negb (existsb (String.eqb r) ["0.0"; "-0.0"]%string)
  | VTime _ => true
  | VList l => match l with [] => false | _ => true end
  | VDict kvs => match kvs with [] => false | _ => true end
  end.

(** Numbers compare by value across [bool], [int], [float] and [Decimal]. *)
Definition num_of (v : pyval) : option dec :=
  match v with
  | VBool b => Some (decimal_of_int (if b then 1 else 0))
  | VInt n => Some (decimal_of_int n)
  | VDec d => Some d
  | VFloat r => Some (float_exact r)
  | _ => None
  end.

(** [a == b]: numbers by value, lists in order, mappings whatever the order of
    their keys.  The identity that lists and mappings test first is not modelled:
    it matters to a NaN only. *)
Fixpoint py_eq (a b : pyval) : bool :=
  match a, b with
  | VNone, VNone => true
  | VStr s, VStr t => String.eqb s t
  | VList l, VList m =>
      (fix go l m := match l, m with
                     | [], [] => true
                     | x :: l', y :: m' => py_eq x y && go l' m'
                     | _, _ => false
                     end) l m
  | VTime t, VTime u => bool_decide (t = u)
  | VDict kvs, VDict m =>
      (List.length kvs =? List.length m)%nat &&
      (fix go kvs := match kvs with
                     | [] => true
                     | (k, x) :: rest => match assoc k m with Some y => py_eq x y && go rest | None => false end
                     end) kvs
  | _, _ => match num_of a, num_of b with Some x, Some y => deq x y | _, _ => false end
  end.

Example py_eq_values :
  py_eq (VFloat "1.0") (VInt 1) = true /\ py_eq (VFloat "0.1") (VDec (DFin false 1 (-1))) = false /\ py_eq (VFloat "nan") (VFloat "nan") = false /\
  py_eq (VDict [("a", VInt 1); ("b", VFloat "2.50")])%string (VDict [("b", VFloat "2.5"); ("a", VBool true)])%string = true.
Proof. vm_compute. by split_and!. Qed.

Inductive order_op : Type := OpLt | OpLe | OpGt | OpGe.

Definition order_holds (o : order_op) (c : comparison) : bool :=
  match o, c with
  | OpLt, Lt | OpLe, (Lt | Eq) | OpGt, Gt | OpGe, (Gt | Eq) => true
  | _, _ => false
  end.

(** [a < b] and the like: TypeError between kinds, InvalidOperation on a NaN;
    lists compare at their first unequal position. *)
Fixpoint py_order (o : order_op) (a b : pyval) : res bool :=
  match a, b with
  | VStr s, VStr t => Ok (order_holds o (String.compare s t))
  | VList l, VList m =>
      (fix go l m := match l, m with
                     | [], [] => Ok (order_holds o Eq)
                     | [], _ :: _ => Ok (order_holds o Lt)
                     | _ :: _, [] => Ok (order_holds o Gt)
                     | x :: l', y :: m' => if py_eq x y then go l' m' else py_order o x y
                     end) l m
  | _, _ =>
      match num_of a, num_of b with
      | Some x, Some y =>
          match dcompare x y with
          | Some c => Ok (order_holds o c)
          | None => Raise InvalidOperation
          end
      | _, _ => Raise TypeError
      end
  end.

Fixpoint str_contains (needle hay : string) : bool :=
  String.prefix needle hay ||
  match hay with EmptyString => false | String.String _ h => str_contains needle h end.

(** [needle in haystack] *)
Definition py_in (needle hay : pyval) : res bool :=
  match hay with
  | VStr h => match needle with VStr n => Ok (str_contains n h) | _ => Raise TypeError end
  | VList l => Ok (existsb (py_eq needle) l)
  | VDict kvs => match needle with
                 | VStr n => Ok (existsb (String.eqb n) kvs.*1)
                 | VList _ | VDict _ => Raise TypeError
                 | _ => Ok false
                 end
  | _ => Raise TypeError
  end.

(** [int(text)]: blanks around, one sign, digits with single underscores
    between them, at most 4300 of them. *)
Fixpoint int_digits (prev_digit : bool) (s : string) : option (list Z) :=
  match s with
  | EmptyString => if prev_digit then Some [] else None
  | String.String c s' =>
      if is_digit c then option_map (cons (Z.of_N (digit_val c))) (int_digits true s')
      else if Ascii.eqb c "_" && prev_digit then int_digits false s'
      else None
  end.

Definition int_of_string (s : string) : res Z :=
  let '(neg, r) := read_sign (rstrip (lstrip s)) in
  match int_digits false r with
  | Some ds =>
      if 4300 <? Z.of_nat (List.length ds) then Raise ValueError
      else Ok (signed neg (digits_val 0 ds))
  | None => Raise ValueError
  end.

(** [int(d)]: truncation. *)
Definition dec_int (d : dec) : res Z :=
  match d with
  | DFin neg c e => Ok (signed neg (if 0 <=? e then c * 10 ^ e else c / 10 ^ (- e)))
  | DInf _ => Raise OverflowError
  | DNaN => Raise ValueError
  end.

(** [int(v)]; a float is truncated as its repr reads. *)
Definition py_int (v : pyval) : res Z :=
  match v with
  | VBool b => Ok (if b then 1 else 0)
  | VInt n => Ok n
  | VStr s => int_of_string s
  | VDec d => dec_int d
  | VFloat r => let? d := decimal_of_string r in dec_int d
  | _ => Raise TypeError
  end.

(** [repr(text)], every byte above 127 taken as part of a printable character. *)
Definition repr_chr (q c : ascii) : string :=
  let n := N_of_ascii c in
  if Ascii.eqb c q then String.String (ascii_of_N 92) (String.String c "")
  else if Ascii.eqb c (ascii_of_N 92) then String.String c (String.String c "")
  else if (n =? 10)%N then "\n"
  else if (n =? 13)%N then "\r"
  else if (n =? 9)%N then "\t"
  else if ((n <? 32) || (n =? 127))%N then
    ("\x" +:+ String.String (hex_chr (n / 16)) (String.String (hex_chr (n mod 16)) ""))%string
  else String.String c "".

Fixpoint str_flat (f : ascii -> string) (s : string) : string :=
  match s with
  | EmptyString => EmptyString
  | String.String c s' => (f c +:+ str_flat f s')%string
  end.

Definition has_chr (c : ascii) (s : string) : bool := str_contains (String.String c "") s.

Definition py_repr_str (s : string) : string :=
  let q := if has_chr (ascii_of_N 39) s && negb (has_chr (ascii_of_N 34) s)
           then ascii_of_N 34 else ascii_of_N 39 in
  (String.String q (str_flat (repr_chr q) s) +:+ String.String q "")%string.

Fixpoint join (sep : string) (l : list string) : string :=
  match l with
  | [] => EmptyString
  | [x] => x
  | x :: l' => (x +:+ sep +:+ join sep l')%string
  end.

(** [repr(v)] and [str(v)]; a datetime within a list or a mapping does not occur
    in the modelled code. *)
Fixpoint py_repr (v : pyval) : string :=
  match v with
  | VNone => "None"
  | VBool b => if b then "True" else "False"
  | VInt n => int_str n
  | VStr s => py_repr_str s
  | VDec d => ("Decimal(" +:+ py_repr_str (dec_str d) +:+ ")")%string
  | VFloat r => r
  | VTime _ => ""
  | VList l => ("[" +:+ join ", " (map py_repr l) +:+ "]")%string
  | VDict kvs => ("{" +:+ join ", " (map (fun kv => (py_repr_str kv.1 +:+ ": " +:+ py_repr kv.2)%string) kvs) +:+ "}")%string
  end.

Definition py_str (v : pyval) : string :=
  match v with VStr s => s | VDec d => dec_str d | VTime t => datetime_str t | _ => py_repr v end.

(** ** Evaluation *)

(** The evaluation context: the offer mapping and the current time as text. *)
Record jl_context : Type := { ctx_offer : pydict; ctx_now : string }.

Fixpoint split_dots (s : string) : list string :=
  match s with
  | EmptyString => [EmptyString]
  | String.String c s' =>
      if Ascii.eqb c "." then EmptyString :: split_dots s'
      else match split_dots s' with
           | [] => [String.String c EmptyString]
           | w :: ws => String.String c w :: ws
           end
  end.

(** [for part in parts: current = current[part]], a missing part or a
    non-mapping being a KeyError. *)
Fixpoint walk (current : pyval) (parts : list string) : res pyval :=
  match parts with
  | [] => Ok current
  | part :: parts' =>
      match current with
      | VDict kvs =>
          match assoc part kvs with
          | Some v => walk v parts'
          | None => Raise KeyError
          end
      | _ => Raise KeyError
      end
  end.

(** [path] may be any value: what is not a string has no [startswith]. *)
Definition _lookup_var (path : pyval) (context : jl_context) : res pyval :=
  match path with
  | VStr p =>
      if String.eqb p "now" then Ok (VStr (ctx_now context))
      else if String.prefix "offer." p then
        walk (VDict (ctx_offer context)) (split_dots (String.substring 6 (String.length p) p))
      else Raise KeyError
  | _ => Raise AttributeError
  end.

Definition _lookup_missing (path : pyval) (context : jl_context) : res bool :=
  match _lookup_var path context with
  | Ok _ => Ok false
  | Raise KeyError | Raise TypeError => Ok true
  | Raise e => Raise e
  end.

Definition _as_decimal (value : pyval) : res dec :=
  match value with
  | VBool _ | VFloat _ => Raise AmountFormatError
  | VStr _ | VDec _ | VInt _ => amount_decimal value
  | _ => Raise AmountFormatError
  end.

Definition _numeric (value : pyval) : res (option dec) :=
  match value with
  | VStr _ | VDec _ | VInt _ =>
      match _as_decimal value with
      | Ok d => Ok (Some d)
      | Raise AmountFormatError => Ok None
      | Raise e => Raise e
      end
  | _ => Ok None
  end.

Definition is_one_of (op : string) (ops : list string) : bool := existsb (String.eqb op) ops.

Definition _comparison (left right : pyval) (operator : string) : res bool :=
  let? ln := _numeric left in
  let? rn := _numeric right in
  let '(l, r) := match ln, rn with
                 | Some x, Some y => (VDec x, VDec y)
                 | _, _ => (left, right)
                 end in
  if is_one_of operator ["=="; "==="; "="; "eq"] then Ok (py_eq l r)
  else if is_one_of operator ["!="; "!=="; "neq"] then Ok (negb (py_eq l r))
  else if String.eqb operator "<" then py_order OpLt l r
  else if String.eqb operator "<=" then py_order OpLe l r
  else if String.eqb operator ">" then py_order OpGt l r
  else if String.eqb operator ">=" then py_order OpGe l r
  else Raise ValueError.

(** [if]: conditions and values in turn, an odd last argument as the default. *)
Fixpoint if_chain (rs : list (res pyval)) : res pyval :=
  match rs with
  | [] => Ok VNone
  | [last] => last
  | c :: v :: rs' => let? b := c in if truthy b then v else if_chain rs'
  end.

(** [and] and [or]: the first value that settles the answer, else the last. *)
Fixpoint short_circuit (stop : bool) (result : pyval) (rs : list (res pyval)) : res pyval :=
  match rs with
  | [] => Ok result
  | r :: rs' =>
      let? v := r in
      if Bool.eqb (truthy v) stop then Ok v else short_circuit stop v rs'
  end.

(** [missing]: the paths whose lookup is a KeyError; nothing else is caught. *)
Fixpoint missing_paths (context : jl_context) (args : list pyval) : res (list pyval) :=
  match args with
  | [] => Ok []
  | arg :: args' =>
      let? gone := (match _lookup_var arg context with
                    | Ok _ => Ok false
                    | Raise KeyError => Ok true
                    | Raise e => Raise e
                    end) in
      let? rest := missing_paths context args' in
      Ok (if (gone : bool) then arg :: rest else rest)
  end.

(** The same with [_lookup_missing], for [missing_some]. *)
Fixpoint filter_missing (context : jl_context) (paths : list pyval) : res (list pyval) :=
  match paths with
  | [] => Ok []
  | p :: ps =>
      let? gone := _lookup_missing p context in
      let? rest := filter_missing context ps in
      Ok (if (gone : bool) then p :: rest else rest)
  end.

(** The bytes after the first of a character are 128 to 191. *)
Definition continues (s : string) : bool :=
  match s with
  | String.String c _ => let n := N_of_ascii c in ((128 <=? n) && (n <? 192))%N
  | EmptyString => false
  end.

(** The characters of a text. *)
Fixpoint chars_of (s : string) : list pyval :=
  match s with
  | EmptyString => []
  | String.String c s' =>
      match chars_of s' with
      | VStr t :: rest => if continues s' then VStr (String.String c t) :: rest else VStr (String.String c "") :: VStr t :: rest
      | rest => VStr (String.String c "") :: rest
      end
  end.

(** What [for path in paths] iterates over. *)
Definition py_iter (v : pyval) : res (list pyval) :=
  match v with
  | VList l => Ok l
  | VStr s => Ok (chars_of s)
  | VDict kvs => Ok (map (fun kv => VStr kv.1) kvs)
  | _ => Raise TypeError
  end.

(** [sum(exact, start)]; the operands may have any exponent. *)
Fixpoint dsum (start : dec) (l : list dec) : res dec :=
  match l with [] => Ok start | x :: l' => let? s := add_in dround start x in dsum s l' end.

Fixpoint dprod (start : dec) (l : list dec) : res dec :=
  match l with [] => Ok start | x :: l' => let? s := mul_in dround start x in dprod s l' end.

(** [min] and [max]: the first extremal value. *)
Fixpoint dextreme (is_min : bool) (best : dec) (l : list dec) : res dec :=
  match l with
  | [] => Ok best
  | x :: l' =>
      let? better := (if is_min then dlt x best else dlt best x) in
      dextreme is_min (if (better : bool) then x else best) l'
  end.

(** The numbers of all values, or None when some value has none. *)
Fixpoint numbers_of (values : list pyval) : res (option (list dec)) :=
  match values with
  | [] => Ok (Some [])
  | v :: vs =>
      let? n := _numeric v in
      let? ns := numbers_of vs in
      Ok (match n, ns with Some x, Some xs => Some (x :: xs) | _, _ => None end)
  end.

Definition arithmetic (operator : string) (exact : list dec) : res dec :=
  if String.eqb operator "+" then dsum dzero exact
  else if String.eqb operator "-" then
    match exact with
    | [] => Raise IndexError
    | [x] => Ok x
    | x :: xs => let? s := dsum dzero xs in sub_in dround x s
    end
  else if String.eqb operator "*" then dprod (decimal_of_int 1) exact
  else if String.eqb operator "/" then
    match exact with
    | [x; y] => if deq y dzero then Raise ValueError else div_in dround x y
    | _ => Raise ValueError
    end
  else if String.eqb operator "%" then
    match exact with
    | [x; y] => if deq y dzero then Raise ValueError else mod_in dround x y
    | _ => Raise ValueError
    end
  else
    match exact with
    | [] => Raise ValueError
    | x :: xs => dextreme (String.eqb operator "min") x xs
    end.

Definition comparison_ops : list string :=
  ["=="; "==="; "!="; "!=="; "="; "eq"; "neq"; "<"; "<="; ">"; ">="]%string.
Definition arithmetic_ops : list string := ["+"; "-"; "*"; "/"; "%"; "min"; "max"]%string.

(** One operator on its raw arguments [args] and the outcomes [rs] of
    evaluating them.  Evaluation has no effect but its outcome, so an operator
    that does not evaluate an argument is one that does not look at it. *)
Definition apply_operator (context : jl_context) (operator : string)
    (args : list pyval) (rs : list (res pyval)) : res pyval :=
  if String.eqb operator "var" then
    match (match args with [] => VStr "" | p :: _ => p end) with
    | VStr path =>
        match _lookup_var (VStr path) context with
        | Raise KeyError => match rs with _ :: d :: _ => d | _ => Ok VNone end
        | r => r
        end
    | _ => Raise ValueError
    end
  else if is_one_of operator ["if"; "?:"] then
    match rs with _ :: _ :: _ => if_chain rs | _ => Raise ValueError end
  else if String.eqb operator "and" then short_circuit false VNone rs
  else if String.eqb operator "or" then short_circuit true VNone rs
  else if is_one_of operator ["!"; "!!"] then
    let? result := (match rs with [] => Ok true | r :: _ => let? v := r in Ok (negb (truthy v)) end) in
    Ok (VBool (if String.eqb operator "!" then result else negb result))
  else if is_one_of operator comparison_ops then
    match rs with
    | [l; r] => let? x := l in let? y := r in let? b := _comparison x y operator in Ok (VBool b)
    | _ => Raise ValueError
    end
  else if String.eqb operator "in" then
    match rs with
    | [l; r] => let? x := l in let? y := r in let? b := py_in x y in Ok (VBool b)
    | _ => Raise ValueError
    end
  else if String.eqb operator "missing" then
    let? ms := missing_paths context args in Ok (VList ms)
  else if String.eqb operator "missing_some" then
    match rs with
    | [l; r] =>
        let? lv := l in
        let? minimum := py_int lv in
        let? paths := r in
        let? ps := py_iter paths in
        let? ms := filter_missing context ps in
        Ok (VList (if minimum <=? Z.of_nat (List.length ps) - Z.of_nat (List.length ms)
                   then [] else ms))
    | _ => Raise ValueError
    end
  else if is_one_of operator arithmetic_ops then
    let? values := res_seq rs in
    let? numbers := numbers_of values in
    match numbers with
    | None => Raise ValueError
    | Some exact => let? d := arithmetic operator exact in Ok (VDec d)
    end
  else if String.eqb operator "cat" then
    let? values := res_seq rs in Ok (VStr (join "" (map py_str values)))
  else if String.eqb operator "merge" then
    let? values := res_seq rs in
    Ok (VList (flat_map (fun v => match v with VList l => l | _ => [v] end) values))
  else Raise ValueError.

Fixpoint _jsonlogic (context : jl_context) (expression : pyval) : res pyval :=
  match expression with
  | VNone | VStr _ | VInt _ | VBool _ | VDec _ => Ok expression
  | VFloat _ => Raise ValueError
  | VList l => let? vs := res_seq (map (_jsonlogic context) l) in Ok (VList vs)
  | VDict [(operator, VList args)] =>
      apply_operator context operator args (map (_jsonlogic context) args)
  | VDict [(operator, raw_arg)] =>
      apply_operator context operator [raw_arg] [_jsonlogic context raw_arg]
  | _ => Raise ValueError
  end.

(** The offer as the conditions see it; contract examples call the amount
    price. *)
Definition _as_offer_mapping (offer : option Offer) : option pydict :=
  match offer with
  | None => None
  | Some o =>
      Some [("offer_id", VStr (o_offer_id o)); ("merchant_id", VStr (o_merchant_id o));
            ("category", VStr (o_category o)); ("amount", VStr (o_amount o));
            ("price", VStr (o_amount o)); ("currency", VStr (o_currency o));
            ("title", VStr (o_title o));
            ("description", match o_description o with Some d => VStr d | None => VNone end)]%string
  end.

(** The exceptions [evaluate_conditions] turns into a denial. *)
Definition conditions_caught (e : exn) : bool :=
  match e with KeyError | TypeError | InvalidOperation => true | _ => is_value_error e end.

Definition evaluate_conditions (conditions : option pyval) (offer_mapping : option pydict)
    (now : datetime) : res bool :=
  match conditions with
  | None => Ok true
  | Some c =>
      if negb (truthy c) then Ok true
      else
        match offer_mapping with
        | None => Ok false
        | Some om =>
            match (let? current := ensure_utc now in
                   let? v := _jsonlogic {| ctx_offer := om; ctx_now := isoformat_z current |} c in
                   Ok (truthy v)) with
            | Ok b => Ok b
            | Raise e => if conditions_caught e then Ok false else Raise e
            end
        end
  end.

(** ** What evaluation may raise *)

Section Raises.
(** Whether the operators that round are in use: a result above Emax signals
    Overflow. *)
Variable rounds : bool.

(** A value, or an exception [evaluate_conditions] turns into a denial, or an
    overflow of an operator that rounds. *)
Definition contained {A} (r : res A) : Prop :=
  match r with Ok _ => True | Raise Overflow => rounds = true | Raise e => conditions_caught e = true end.

Lemma contained_bind {A B} (m : res A) (f : A -> res B) :
  contained m -> (forall a, m = Ok a -> contained (f a)) -> contained (rbind m f).
Proof. destruct m; cbn; auto. Qed.

Lemma contained_res_seq {A} (l : list (res A)) : Forall contained l -> contained (res_seq l).
Proof.
  induction 1; cbn; [done|]. apply contained_bind; [done|]. intros ? _.
  apply contained_bind; done.
Qed.

(** Split a run into its parts and discharge the ones known to be contained. *)
Ltac contained :=
  repeat match goal with
  | |- contained (rbind _ _) => apply contained_bind; [|intros]
  | |- contained (match ?x with _ => _ end) => destruct x eqn:?
  | |- contained (if ?x then _ else _) => destruct x eqn:?
  | |- contained (Ok _) => exact I
  | |- contained (Raise _) => reflexivity
  | _ => progress simplify_eq
  | _ => done
  end.

Lemma contained_numeric v : contained (_numeric v).
Proof.
  unfold _numeric. destruct v; try done; (destruct (_as_decimal _) as [?|e] eqn:E; [done|]);
    unfold _as_decimal in E; apply amount_decimal_raise in E as ->; done.
Qed.

Lemma contained_order o a b : contained (py_order o a b).
Proof.
  revert b. induction a as [v Hl Hd|l IH|kvs _] using pyval_nested_ind; intros b.
  - destruct v; try (by destruct (Hl l)); try (by destruct (Hd kvs)); destruct b; cbn; contained.
  - destruct b; cbn; try (by contained). revert l0.
    induction IH as [|x l Hx _ IHl]; intros [|y m]; cbn; try done.
    destruct (py_eq x y); [apply IHl|apply Hx].
  - destruct b; cbn; contained.
Qed.

Lemma contained_comparison l r op : contained (_comparison l r op).
Proof.
  unfold _comparison. apply contained_bind; [apply contained_numeric|intros ln _].
  apply contained_bind; [apply contained_numeric|intros rn _].
  destruct ln, rn; repeat case_match; try done; apply contained_order.
Qed.

Lemma contained_numbers_of vs : contained (numbers_of vs).
Proof.
  induction vs as [|v vs IH]; cbn; [done|].
  apply contained_bind; [apply contained_numeric|intros ? _]. apply contained_bind; done.
Qed.

Lemma numbers_of_length vs xs : numbers_of vs = Ok (Some xs) -> List.length xs = List.length vs.
Proof.
  revert xs. induction vs as [|v vs IH]; intros xs; cbn; [by intros [= <-]|].
  destruct (_numeric v) as [[x|]|]; cbn; try done;
    destruct (numbers_of vs) as [[ys|]|]; cbn; try done.
  intros [= <-]. cbn. by rewrite (IH ys).
Qed.

Lemma res_seq_length {A} (rs : list (res A)) vs : res_seq rs = Ok vs -> List.length vs = List.length rs.
Proof.
  revert vs. induction rs as [|r rs IH]; intros vs; cbn; [by intros [= <-]|].
  destruct r; cbn; [|done]. destruct (res_seq rs); cbn; [|done]. intros [= <-]. cbn. by rewrite (IH _ eq_refl).
Qed.

Lemma contained_round neg c e : rounds = true -> contained (dround neg c e).
Proof using Type. unfold dround. intros Hr. repeat case_match; done. Qed.
Lemma contained_add a b : rounds = true -> contained (add_in dround a b).
Proof using Type. intros Hr. destruct a, b; cbn -[dround]; repeat case_match; try done; by apply contained_round. Qed.
Lemma contained_mul a b : rounds = true -> contained (mul_in dround a b).
Proof using Type. intros Hr. destruct a, b; cbn -[dround]; repeat case_match; try done; by apply contained_round. Qed.
Lemma contained_dlt a b : contained (dlt a b).
Proof. unfold dlt. repeat case_match; done. Qed.
Lemma contained_dsum s l : rounds = true -> contained (dsum s l).
Proof.
  intros Hr. revert s. induction l as [|x l IH]; intros s; cbn; [done|].
  apply contained_bind; [by apply contained_add|auto].
Qed.
Lemma contained_dprod s l : rounds = true -> contained (dprod s l).
Proof.
  intros Hr. revert s. induction l as [|x l IH]; intros s; cbn; [done|].
  apply contained_bind; [by apply contained_mul|auto].
Qed.
Lemma contained_dextreme m b l : contained (dextreme m b l).
Proof.
  revert b. induction l as [|x l IH]; intros b; cbn; [done|].
  apply contained_bind; [destruct m; apply contained_dlt|intros; apply IH].
Qed.

Lemma deq_zero_fin n c e : deq (DFin n c e) dzero = (c =? 0).
Proof.
  unfold deq, dcompare, dzero. cbn [signed]. rewrite Z.mul_0_l.
  assert (0 < 10 ^ (e - Z.min e 0)) by (apply Z.pow_pos_nonneg; lia).
  destruct (Z.compare_spec (signed n c * 10 ^ (e - Z.min e 0)) 0) as [Hc|Hc|Hc],
    (Z.eqb_spec c 0); subst; try done; destruct n; cbn [signed] in Hc; nia.
Qed.

Lemma contained_div a b : rounds = true -> deq b dzero = false -> contained (div_in dround a b).
Proof.
  intros Hr. destruct a, b; intros H; cbn -[deq dround] in *; try done; try (by repeat case_match); try by apply contained_round.
  all: rewrite deq_zero_fin in H; rewrite H; repeat case_match; try done; by apply contained_round.
Qed.

Lemma contained_mod a b : rounds = true -> contained (mod_in dround a b).
Proof. intros Hr. destruct a, b; cbn -[dround]; repeat case_match; try done; by apply contained_round. Qed.

(** The operators that round. *)
Definition rounding_ops : list string := ["+"; "-"; "*"; "/"; "%"]%string.

Lemma contained_arithmetic op xs :
  (op = "-"%string -> xs <> []) -> (is_one_of op rounding_ops = true -> rounds = true) -> contained (arithmetic op xs).
Proof.
  intros Hx Hr. unfold arithmetic. unfold is_one_of, rounding_ops in Hr. cbn [existsb] in Hr. rewrite !orb_true_iff in Hr.
  destruct (String.eqb op "+"); [apply contained_dsum; auto 10|].
  destruct (String.eqb_spec op "-") as [->|].
  { destruct xs as [|x [|y xs]]; [by destruct Hx|done|].
    apply contained_bind; [apply contained_dsum; auto 10|intros; apply contained_add; auto 10]. }
  destruct (String.eqb op "*"); [apply contained_dprod; auto 10|].
  destruct (String.eqb op "/").
  { destruct xs as [|x [|y [|z xs]]]; try done. destruct (deq y dzero) eqn:E; [done|apply contained_div; auto 10]. }
  destruct (String.eqb op "%").
  { destruct xs as [|x [|y [|z xs]]]; try done. destruct (deq y dzero); [done|apply contained_mod; auto 10]. }
  destruct xs; [done|apply contained_dextreme].
Qed.

(** ** Conditions that are always decided *)

(** The two places where a raw argument is used before its type is checked:
    [missing] paths must be texts, and [-] must have an operand.  For
    [missing_some] the checkable shape is a literal count and literal paths.
    And the operators that round, where they are in use. *)
Definition operator_safe (operator : string) (args : list pyval) : bool :=
  (rounds || negb (is_one_of operator rounding_ops)) &&
  if String.eqb operator "-" then match args with [] => false | _ => true end
  else if String.eqb operator "missing" then forallb is_str args
  else if String.eqb operator "missing_some" then
    match args with
    | [VInt _; VList paths] => forallb is_str paths
    | [_; _] => false
    | _ => true
    end
  else true.

Fixpoint conditions_safe (e : pyval) : bool :=
  match e with
  | VList l => forallb conditions_safe l
  | VDict [(operator, VList args)] => operator_safe operator args && forallb conditions_safe args
  | VDict [(operator, raw_arg)] => operator_safe operator [raw_arg] && conditions_safe raw_arg
  | _ => true
  end.

Lemma walk_raises v parts e : walk v parts = Raise e -> e = KeyError.
Proof.
  revert v. induction parts as [|p ps IH]; intros v; cbn; [done|].
  destruct v; try congruence. destruct (assoc p kvs); [apply IH|congruence].
Qed.

Lemma lookup_var_raises p ctx e : _lookup_var (VStr p) ctx = Raise e -> e = KeyError.
Proof.
  unfold _lookup_var. destruct (String.eqb p "now"); [done|].
  destruct (String.prefix "offer." p); [apply walk_raises|congruence].
Qed.

Lemma contained_missing_paths ctx args :
  forallb is_str args = true -> contained (missing_paths ctx args).
Proof.
  induction args as [|a args IH]; cbn -[_lookup_var]; [done|]. intros H. bool_prop.
  destruct a; try done. destruct (_lookup_var (VStr s) ctx) eqn:E.
  - apply contained_bind; [done|intros]. by apply contained_bind; [auto|].
  - apply lookup_var_raises in E as ->. apply contained_bind; [done|intros].
    by apply contained_bind; [auto|].
Qed.

Lemma contained_filter_missing ctx paths :
  forallb is_str paths = true -> contained (filter_missing ctx paths).
Proof.
  induction paths as [|a ps IH]; cbn -[_lookup_missing]; [done|]. intros H. bool_prop.
  destruct a; try done. apply contained_bind; [|intros ? _; by apply contained_bind; [auto|]].
  unfold _lookup_missing. destruct (_lookup_var _ ctx) eqn:E; [done|].
  by apply lookup_var_raises in E as ->.
Qed.

Lemma jsonlogic_texts ctx paths :
  forallb is_str paths = true -> res_seq (map (_jsonlogic ctx) paths) = Ok paths.
Proof.
  induction paths as [|p ps IH]; cbn; [done|]. intros H. bool_prop.
  destruct p; try done. cbn. by rewrite IH.
Qed.

Lemma contained_if_chain rs : Forall contained rs -> contained (if_chain rs).
Proof.
  assert (forall n rs, (List.length rs <= n)%nat -> Forall contained rs -> contained (if_chain rs)) as G.
  { induction n as [|n IH]; intros [|c [|v rs']] Hn H; cbn in *; try done; try lia;
      inversion_clear H as [|? ? Hc H']; [done|]. inversion_clear H' as [|? ? Hv H''].
    apply contained_bind; [done|]. intros b _. destruct (truthy b); [done|]. apply IH; [lia|done]. }
  intros. by eapply G.
Qed.

Lemma contained_short_circuit stop acc rs : Forall contained rs -> contained (short_circuit stop acc rs).
Proof.
  intros H. revert acc. induction H as [|r rs Hr _ IH]; intros acc; cbn; [done|].
  apply contained_bind; [done|]. intros v _. destruct (Bool.eqb _ _); [done|apply IH].
Qed.

Lemma contained_py_in a b : contained (py_in a b).
Proof. destruct a, b; done. Qed.

Lemma contained_two (rs : list (res pyval)) (k : res pyval -> res pyval -> res pyval) :
  Forall contained rs -> (forall l r, rs = [l; r] -> contained l -> contained r -> contained (k l r)) ->
  contained (match rs with [l; r] => k l r | _ => Raise ValueError end).
Proof.
  intros H Hk. destruct H as [|l ? Hl [|r ? Hr [|]]]; try done. by apply Hk.
Qed.

Lemma contained_arith ctx op args (rs : list (res pyval)) :
  rs = map (_jsonlogic ctx) args -> operator_safe op args = true -> Forall contained rs ->
  contained (let? values := res_seq rs in
             let? numbers := numbers_of values in
             match numbers with
             | None => Raise ValueError
             | Some exact => let? d := arithmetic op exact in Ok (VDec d)
             end).
Proof.
  intros -> Hs H. apply contained_bind; [by apply contained_res_seq|]. intros vs Hv.
  apply contained_bind; [apply contained_numbers_of|]. intros [xs|] Hn; [|done].
  unfold operator_safe in Hs. apply andb_prop in Hs as [Hround Hs].
  apply contained_bind; [|done]. apply contained_arithmetic.
  - intros -> ->. apply numbers_of_length in Hn. apply res_seq_length in Hv. rewrite length_map in Hv. destruct args; [done|]. cbn in *. lia.
  - intros Hop. rewrite Hop, orb_false_r in Hround. done.
Qed.

Lemma contained_missing_some ctx args :
  operator_safe "missing_some" args = true ->
  contained (match map (_jsonlogic ctx) args with
             | [l; r] =>
                 let? lv := l in
                 let? minimum := py_int lv in
                 let? paths := r in
                 let? ps := py_iter paths in
                 let? ms := filter_missing ctx ps in
                 Ok (VList (if minimum <=? Z.of_nat (List.length ps) - Z.of_nat (List.length ms)
                            then [] else ms))
             | _ => Raise ValueError
             end).
Proof.
  intros H. destruct args as [|a [|b [|]]]; try done. cbn [map].
  unfold operator_safe in H. apply andb_prop in H as [_ H]. destruct a; try done. destruct b; try done. cbn in H.
  cbn [_jsonlogic rbind py_int]. rewrite jsonlogic_texts by done. cbn [rbind py_iter].
  apply contained_bind; [by apply contained_filter_missing|done].
Qed.

Lemma contained_apply ctx op args :
  operator_safe op args = true -> Forall contained (map (_jsonlogic ctx) args) ->
  contained (apply_operator ctx op args (map (_jsonlogic ctx) args)).
Proof.
  intros Hs H. unfold apply_operator.
  destruct (String.eqb op "var").
  { case_match; try done. destruct (_lookup_var _ ctx) as [|e] eqn:E; [done|].
    apply lookup_var_raises in E as ->.
    destruct H as [|? ? ? [|? ? ? ?]]; done. }
  destruct (is_one_of op ["if"; "?:"]%string).
  { pose proof (contained_if_chain _ H). destruct (map _ args) as [|? [|? ?]]; done. }
  destruct (String.eqb op "and"); [by apply contained_short_circuit|].
  destruct (String.eqb op "or"); [by apply contained_short_circuit|].
  destruct (is_one_of op ["!"; "!!"]%string).
  { apply contained_bind; [|done]. destruct H; [done|]. by apply contained_bind. }
  destruct (is_one_of op comparison_ops).
  { apply contained_two; [done|]. intros l r _ Hl Hr. apply contained_bind; [done|intros].
    apply contained_bind; [done|intros]. apply contained_bind; [apply contained_comparison|done]. }
  destruct (String.eqb op "in").
  { apply contained_two; [done|]. intros l r _ Hl Hr. apply contained_bind; [done|intros].
    apply contained_bind; [done|intros]. apply contained_bind; [apply contained_py_in|done]. }
  destruct (String.eqb_spec op "missing") as [->|].
  { unfold operator_safe in Hs. apply andb_prop in Hs as [_ Hs]. apply contained_bind; [by apply contained_missing_paths|done]. }
  destruct (String.eqb_spec op "missing_some") as [->|]; [by apply contained_missing_some|].
  destruct (is_one_of op arithmetic_ops); [by eapply contained_arith|].
  destruct (String.eqb op "cat"); [apply contained_bind; [by apply contained_res_seq|done]|].
  destruct (String.eqb op "merge"); [apply contained_bind; [by apply contained_res_seq|done]|done].
Qed.

Lemma contained_map ctx l :
  Forall (fun e => conditions_safe e = true -> contained (_jsonlogic ctx e)) l ->
  forallb conditions_safe l = true -> Forall contained (map (_jsonlogic ctx) l).
Proof. induction 1; cbn; [done|]. intros. bool_prop. auto. Qed.

Lemma contained_jsonlogic ctx e : conditions_safe e = true -> contained (_jsonlogic ctx e).
Proof.
  enough ((conditions_safe e = true -> contained (_jsonlogic ctx e)) /\
          (forall l, e = VList l -> Forall (fun x => conditions_safe x = true -> contained (_jsonlogic ctx x)) l))
    by tauto.
  induction e as [v Hl Hd|l IH|kvs IH] using pyval_nested_ind.
  - split; [destruct v; try done; [by destruct (Hl l)|by destruct (Hd kvs)]|].
    intros l ->. by destruct (Hl l).
  - assert (Forall (fun x => conditions_safe x = true -> contained (_jsonlogic ctx x)) l) as IH'.
    { eapply List.Forall_impl; [|exact IH]. by intros x [Hx _]. }
    split; [|by intros ? [= <-]]. cbn. intros Hs.
    apply contained_bind; [|done]. by apply contained_res_seq, contained_map.
  - split; [|done]. destruct kvs as [|[op raw] [|]]; [done| |by destruct raw].
    inversion_clear IH as [|? ? [Hraw Hargs] _]. cbn in Hraw, Hargs.
    destruct raw; cbn [conditions_safe _jsonlogic]; intros Hs; apply andb_prop in Hs as [Ho Hs].
    8: { apply contained_apply; [done|]. apply contained_map; [by apply Hargs|done]. }
    all: match goal with |- contained (apply_operator _ _ [?r] _) =>
           apply (contained_apply ctx op [r]); [done|constructor; [by apply Hraw|constructor]]
         end.
Qed.

End Raises.


(** ** Conditions on the price and on the time *)

Definition order_text (o : order_op) : string :=
  match o with OpLt => "<" | OpLe => "<=" | OpGt => ">" | OpGe => ">=" end.

(** [{op: [{"var": path}, literal]}] *)
Definition var_condition (op path : string) (literal : pyval) : pyval :=
  VDict [(op, VList [VDict [("var"%string, VStr path)]; literal])].

Lemma eval_var_condition o om us path lit v :
  _lookup_var (VStr path) {| ctx_offer := om; ctx_now := isoformat_z us |} = Ok v ->
  _jsonlogic {| ctx_offer := om; ctx_now := isoformat_z us |} lit = Ok lit ->
  evaluate_conditions (Some (var_condition (order_text o) path lit)) (Some om) (Aware us) =
  match _comparison v lit (order_text o) with
  | Ok b => Ok b
  | Raise e => if conditions_caught e then Ok false else Raise e
  end.
Proof.
  intros Hv Hl. unfold evaluate_conditions, var_condition.
  cbn [truthy negb ensure_utc rbind _jsonlogic map].
  unfold apply_operator at 2. rewrite String.eqb_refl, Hv, Hl.
  destruct o; cbn -[_comparison]; by destruct (_comparison v lit _).
Qed.

Lemma numeric_cents_text c : 0 <= c < max_coef -> _numeric (VStr (cents_text c)) = Ok (Some (cents c)).
Proof. intros H. unfold _numeric, _as_decimal. by rewrite amount_decimal_text. Qed.

(** A price limit written as an amount compares exactly, cent by cent. *)
Theorem price_condition_exact (o : Offer) (op : order_op) (a b us : Z) :
  0 <= a < max_coef -> 0 <= b < max_coef -> o_amount o = cents_text a ->
  evaluate_conditions (Some (var_condition (order_text op) "offer.price" (VStr (cents_text b))))
    (_as_offer_mapping (Some o)) (Aware us)
  = Ok (order_holds op (a ?= b)).
Proof.
  intros Ha Hb Ho. cbn [_as_offer_mapping].
  rewrite (eval_var_condition _ _ _ _ _ (VStr (cents_text a))) by (cbn; by rewrite ?Ho).
  unfold _comparison. rewrite !numeric_cents_text by done.
  destruct op; cbn -[dcompare cents]; by rewrite dcompare_cents.
Qed.

Lemma string_compare_app p a b : String.compare (p +:+ a)%string (p +:+ b)%string = String.compare a b.
Proof.
  induction p as [|c p IH]; [done|].
  change (String.compare (String.String c (p +:+ a)) (String.String c (p +:+ b)) = String.compare a b).
  cbn [String.compare]. unfold Ascii.compare. by rewrite N.compare_refl.
Qed.

(** A time text is not a money text. *)
Lemma numeric_time us : valid_us us -> _numeric (VStr (isoformat_z us)) = Ok None.
Proof.
  intros Hv. unfold _numeric, _as_decimal, amount_decimal, _decimal_amount. cbn [is_str andb].
  assert (amount_re (isoformat_z us) = false) as ->; [|done].
  pose proof (iso_fields us Hv) as H. unfold isoformat_z. cbn zeta in *.
  destruct (ord2ymd _) as [[y mo] d]. destruct H as [Hb _]. unfold amount_re.
  match goal with |- context [(pad 4 y +:+ "-" +:+ ?r)%string] => set (rest := r) end.
  destruct (span_digits_pad 4 y ("-" +:+ rest)%string) as (ds & -> & _); [lia|done|].
  change (("-" +:+ rest)%string) with (String.String "-" rest). cbn. apply andb_false_r.
Qed.

(** The text up to the seconds is shared by all instants of that second. *)
Lemma isoformat_z_second us f :
  us mod 1000000 = 0 -> 0 < f < 1000000 ->
  exists p m, isoformat_z us = (p +:+ "Z")%string /\ isoformat_z (us + f) = (p +:+ "." +:+ m)%string.
Proof.
  intros Hs Hf. unfold isoformat_z.
  assert ((us + f) / day_us = us / day_us /\ (us + f) mod day_us = us mod day_us + f /\
          us mod day_us mod 1000000 = 0) as (-> & -> & H0).
  { unfold day_us. Z.div_mod_to_equations. lia. }
  rewrite H0. set (t := us mod day_us) in *. clearbody t.
  assert ((t + f) / 1000000 = t / 1000000 /\ (t + f) mod 1000000 = f) as [-> ->].
  { Z.div_mod_to_equations. lia. }
  destruct (ord2ymd _) as [[y mo] d]. cbn [Z.eqb].
  rewrite (proj2 (Z.eqb_neq f 0)) by lia.
  eexists (pad 4 y +:+ "-" +:+ pad 2 mo +:+ "-" +:+ pad 2 d +:+ "T" +:+
    pad 2 (t / 1000000 / 3600) +:+ ":" +:+ pad 2 (t / 1000000 / 60 mod 60) +:+ ":" +:+
    pad 2 (t / 1000000 mod 60))%string, (pad 6 f +:+ "Z")%string.
  split; rewrite ?string_app_assoc; reflexivity.
Qed.

(** A time limit is compared as text: during the second that follows a limit
    with whole seconds, the condition [now <= limit] still holds, because a
    fraction's dot sorts before the limit's [Z]. *)
Theorem now_fraction_misordered (om : pydict) (limit f : Z) :
  valid_us limit -> valid_us (limit + f) -> limit mod 1000000 = 0 -> 0 < f < 1000000 ->
  evaluate_conditions (Some (var_condition "<=" "now" (VStr (isoformat_z limit))))
    (Some om) (Aware (limit + f)) = Ok true.
Proof.
  intros Hl Hn Hs Hf.
  rewrite (eval_var_condition OpLe _ _ _ _ (VStr (isoformat_z (limit + f)))) by done.
  unfold _comparison. rewrite !numeric_time by done.
  destruct (isoformat_z_second limit f Hs Hf) as (p & m & -> & ->).
  cbn -[String.compare]. by rewrite string_compare_app.
Qed.

(** Two malformed conditions are not denied but escape as exceptions the
    handler does not list: a subtraction without operands and a missing path
    that is not a text. *)
Theorem evaluate_conditions_escapes (om : pydict) (us : Z) (x : Z) :
  evaluate_conditions (Some (VDict [("-"%string, VList [])])) (Some om) (Aware us) = Raise IndexError /\
  evaluate_conditions (Some (VDict [("missing"%string, VList [VInt x])])) (Some om) (Aware us)
    = Raise AttributeError.
Proof. done. Qed.

(** And a product may overflow. *)

Lemma large_product e : -2 <= e ->
  mul_in dround (DFin false (10 ^ 27) e) (cents (10 ^ 27)) = if Etop <? e + 25 then Raise Overflow else Ok (DFin false (10 ^ 27) (e + 25)).
Proof.
  intros He. unfold mul_in, cents. cbn [xorb]. unfold dround. change (10 ^ 27 * 10 ^ 27 =? 0) with false. cbn iota.
  assert (ndigits (10 ^ 27 * 10 ^ 27) = 55) as Hn by reflexivity. rewrite Hn. change prec with 28.
  replace (55 + (e + -2) - 28) with (e + 25) by lia. destruct (Etop <? e + 25) eqn:Eo; [done|].
  destruct (Z.ltb_spec (e + 25) Etiny) as [Ht|Ht]; [unfold Etiny, Emax, prec in Ht; lia|]. unfold dfix. rewrite Hn.
  change (10 ^ 27 * 10 ^ 27 <? max_coef) with false. change (55 - prec) with 27. cbn iota.
  change (div_round ROUND_HALF_EVEN (10 ^ 27 * 10 ^ 27) (10 ^ 27)) with (10 ^ 27). change (10 ^ 27 <? max_coef) with true. cbn iota.
  replace (e + -2 + 27) with (e + 25) by lia. by rewrite Eo, andb_false_r.
Qed.

Lemma large_products k e : -2 <= e -> Etop < e + 25 * Z.of_nat k -> e <= Etop -> dprod (DFin false (10 ^ 27) e) (repeat (cents (10 ^ 27)) k) = Raise Overflow.
Proof.
  revert e. induction k as [|k IH]; intros e He Hk Hle; [lia|]. cbn [repeat dprod]. rewrite large_product by done.
  destruct (Z.ltb_spec Etop (e + 25)); [done|]. cbn [rbind]. apply IH; lia.
Qed.

(** Forty thousand factors, each an amount the contract admits. *)
Theorem product_overflows (om : pydict) (us : Z) :
  evaluate_conditions (Some (VDict [("*"%string, VList (repeat (VStr (cents_text (10 ^ 27))) 40000))])) (Some om) (Aware us) = Raise Overflow.
Proof.
  unfold evaluate_conditions. cbn [truthy negb ensure_utc rbind _jsonlogic]. generalize (isoformat_z us) as now. intros now.
  assert (Hrun : forall k, (2 <= k)%nat -> res_seq (map (_jsonlogic {| ctx_offer := om; ctx_now := now |}) (repeat (VStr (cents_text (10 ^ 27))) k)) = Ok (repeat (VStr (cents_text (10 ^ 27))) k)).
  { intros k _. induction k as [|k IH]; [done|]. cbn [repeat map res_seq _jsonlogic rbind]. by rewrite IH. }
  assert (Hnum : forall k, numbers_of (repeat (VStr (cents_text (10 ^ 27))) k) = Ok (Some (repeat (cents (10 ^ 27)) k))).
  { induction k as [|k IH]; [done|]. cbn [repeat numbers_of]. rewrite numeric_cents_text by (vm_compute; split; congruence). cbn [rbind]. by rewrite IH. }
  unfold apply_operator. cbn [String.eqb Ascii.eqb Bool.eqb is_one_of existsb orb comparison_ops arithmetic_ops].
  rewrite Hrun by (apply Nat.leb_le; reflexivity). cbn [rbind]. rewrite Hnum. cbn [rbind]. unfold arithmetic. cbn [String.eqb Ascii.eqb Bool.eqb].
  change 40000%nat with (1 + 39999)%nat. rewrite repeat_app. cbn [repeat app dprod].
  assert (mul_in dround (decimal_of_int 1) (cents (10 ^ 27)) = Ok (DFin false (10 ^ 27) (-2))) as -> by (vm_compute; reflexivity). cbn [rbind].
  rewrite large_products; [done|lia|vm_compute; reflexivity|vm_compute; congruence].
Qed.

(** ** Concrete instances *)

Definition demo_offer : Offer :=
  {| o_offer_id := "o-1"; o_merchant_id := "m-1"; o_category := "food"; o_amount := "42.50";
     o_currency := "COP"; o_title := "Lunch"; o_description := None |}.

(** An unknown operator under a disjunction, a float and a division by zero. *)
Definition demo_broken : pyval :=
  VDict [("or"%string, VList
    [VDict [("/"%string, VList [VStr "1.00"; VStr "0.00"])];
     VDict [("frobnicate"%string, VList [VFloat "0.1"])]])].

(** A price limit, which the offer meets. *)
Definition demo_condition : pyval := var_condition "<=" "offer.price" (VStr "50.00").


Lemma price_condition_exact_witness :
  evaluate_conditions (Some (var_condition "<=" "offer.price" (VStr "42.49")))
    (_as_offer_mapping (Some demo_offer)) (Aware 0) = Ok false.
Proof.
  apply (price_condition_exact demo_offer OpLe 4250 4249 0); [vm_compute; split; congruence..|reflexivity].
Defined.

(** 2026-01-01T00:00:00Z, half a second later. *)
Lemma now_fraction_misordered_witness :
  evaluate_conditions (Some (var_condition "<=" "now" (VStr "2026-01-01T00:00:00Z")))
    (Some []) (Aware (1767225600000000 + 500000)) = Ok true.
Proof.
  apply (now_fraction_misordered [] 1767225600000000 500000);
    unfold valid_us; try (split; vm_compute; congruence); try reflexivity; lia.
Defined.
