(* ===== verification/Policy.v ===== *)
(** The pure policy gate of src/src/api/domain/policy.py: signal
    classification, price, scope, mandate state, limits, the burst rule, the
    step-up rule, escalation resolution and [PolicyGate.evaluate]. *)
From S2P Require Import Prelude PyTime Decimal Sha256 Json Models JsonLogic.

(** ** Signals *)

Definition VERDICTIVE_REASONS : list ReasonCode :=
  [AMOUNT_EXCEEDS_PER_TXN; BUDGET_EXCEEDED; LIMIT_EXHAUSTED; CATEGORY_FORBIDDEN;
   MERCHANT_NOT_ALLOWED; MANDATE_EXPIRED; MANDATE_NOT_YET_VALID; MANDATE_REVOKED;
   MANDATE_SUSPENDED; MANDATE_EXHAUSTED; CONDITION_FAILED; INVALID_SIGNATURE;
   INVALID_PROOF_OF_POSSESSION; DUPLICATE_JTI; NONCE_REUSED; ESCALATION_TIMEOUT_DENIED;
   RAIL_ERROR; RAIL_TOKEN_DELETED; PRICE_MISMATCH_AUTO_REFUND; WEBHOOK_INVALID].

Definition CORROBORATIVE_REASONS : list ReasonCode :=
  [VELOCITY_BURST; STEPUP_AMOUNT_THRESHOLD; STEPUP_BUDGET_USAGE].

Definition is_verdictive (r : ReasonCode) : bool := bool_decide (r ∈ VERDICTIVE_REASONS).
Definition is_corroborative (r : ReasonCode) : bool := bool_decide (r ∈ CORROBORATIVE_REASONS).

Record RiskSignal : Type :=
  { rs_reason_code : ReasonCode; rs_diff : option pydict; rs_verdictive : option bool }.

Definition signal_verdictive (s : RiskSignal) : bool :=
  bool_decide (rs_verdictive s = Some true) || is_verdictive (rs_reason_code s).

Fixpoint first_verdictive (signals : list RiskSignal) : option Decision :=
  match signals with
  | [] => None
  | s :: rest =>
      if signal_verdictive s then Some (decide_diff REJECTED (Some (rs_reason_code s)) (rs_diff s))
      else first_verdictive rest
  end.

Definition decision_from_signals (signals : list RiskSignal) : Decision :=
  match first_verdictive signals with
  | Some d => d
  | None =>
      match signals with
      | s :: _ =>
          {| decision := ESCALATED; reason_code := Some (rs_reason_code s); reservation_id := None;
             diff := rs_diff s; level := Some L3; ttl_seconds := Some 120; requires_uv := false |}
      | [] => approve
      end
  end.

(** ** Price and scope *)

Definition price_matches (intent_amount offer_amount : pyval) : res bool :=
  match (let? a := canonical_amount intent_amount in
         let? b := canonical_amount offer_amount in
         Ok (String.eqb a b)) with
  | Raise AmountFormatError => Ok false
  | r => r
  end.

Definition canonical_or_str (v : pyval) : res string :=
  match canonical_amount v with
  | Raise AmountFormatError => Ok (py_str v)
  | r => r
  end.

Definition price_check (intent_amount offer_amount : pyval) : res Decision :=
  let? same := price_matches intent_amount offer_amount in
  if (same : bool) then Ok approve
  else
    let? a := canonical_or_str intent_amount in
    let? b := canonical_or_str offer_amount in
    Ok (decide_diff REJECTED (Some CONDITION_FAILED)
          (Some [("field", VStr "amount"); ("attempted", VStr a); ("offer", VStr b)]%string)).

Definition scope_allows (scope : MandateScope) (merchant_id category : string) : bool :=
  truthy_str merchant_id && truthy_str category
  && existsb (String.eqb merchant_id) (merchants scope)
  && existsb (String.eqb category) (categories scope).

(** ** Mandate state *)

Definition status_reason (s : MandateStatus) : option ReasonCode :=
  match s with
  | DRAFT => Some MANDATE_NOT_YET_VALID
  | SUSPENDED => Some MANDATE_SUSPENDED
  | REVOKED => Some MANDATE_REVOKED
  | EXPIRED => Some MANDATE_EXPIRED
  | EXHAUSTED => Some MANDATE_EXHAUSTED
  | ACTIVE => None
  end.

Definition status_of (f : status_field) : res MandateStatus :=
  match f with Known s => Ok s | Unknown raw => MandateStatus_of raw end.

Definition mandate_state_reason (mandate : MandateClaims) (now : datetime) : option ReasonCode :=
  match ensure_utc now with
  | Raise _ => Some MANDATE_SUSPENDED
  | Ok current =>
      match status_of (status mandate) with
      | Raise _ => Some MANDATE_SUSPENDED
      | Ok s =>
          match status_reason s with
          | Some r => Some r
          | None =>
              match validity mandate with
              | None => Some MANDATE_NOT_YET_VALID
              | Some v =>
                  if expires_at v <=? not_before v then Some MANDATE_EXPIRED
                  else if current <? not_before v then Some MANDATE_NOT_YET_VALID
                  else if expires_at v <=? current then Some MANDATE_EXPIRED
                  else None
              end
          end
      end
  end.

Definition mandate_is_active (mandate : MandateClaims) (now : datetime) : bool :=
  bool_decide (mandate_state_reason mandate now = None).

(** ** Limits *)

(** [a > b] on decimals. *)
Definition dgt (a b : dec) : res bool := dlt b a.

Definition limit_diff (name : string) (value attempted : pyval) : option pydict :=
  Some [("limit", VStr name); ("value", value); ("attempted", attempted)]%string.

Definition _limits_decision (limits : option MandateLimits) (intent_amount : pyval)
    (spend : SpendView) : res Decision :=
  match limits with
  | None => Ok (reject LIMIT_EXHAUSTED)
  | Some normalized =>
      match (let? amount := _as_decimal intent_amount in
             let? spent := _as_decimal (VDec (spent_total spend)) in
             let? reserved := _as_decimal (VDec (reserved_total spend)) in
             Ok (amount, spent, reserved)) with
      | Raise e =>
          if is_value_error e || bool_decide (e = TypeError) then Ok (reject LIMIT_EXHAUSTED)
          else Raise e
      | Ok (amount, spent, reserved) =>
          let? over := dgt amount (max_per_txn normalized) in
          if (over : bool) then
            Ok (decide_diff REJECTED (Some AMOUNT_EXCEEDS_PER_TXN)
                  (limit_diff "max_per_txn" (VStr (dec_str (max_per_txn normalized)))
                     (VStr (dec_str amount))))
          else
            let? used := dadd spent reserved in
            let? total := dadd used amount in
            let? over := dgt total (total_budget normalized) in
            if (over : bool) then
              Ok (decide_diff REJECTED (Some BUDGET_EXCEEDED)
                    (limit_diff "total_budget" (VStr (dec_str (total_budget normalized)))
                       (VStr (dec_str total))))
            else
              match max_txn normalized with
              | None => Ok approve
              | Some mt =>
                  let n := txn_count_period spend in
                  if n <? 0 then Ok (reject LIMIT_EXHAUSTED)
                  else if count mt <? n + 1 then
                    Ok (decide_diff REJECTED (Some LIMIT_EXHAUSTED)
                          (limit_diff "max_txn" (VInt (count mt)) (VInt (n + 1))))
                  else Ok approve
              end
      end
  end.

(** ** The burst rule *)

Inductive burst_source : Type :=
| FromBurst (s : BurstState)
| FromSpend (v : SpendView)
| NoState.

Definition _burst_state (state : burst_source) : res BurstState :=
  match state with
  | FromBurst s => Ok s
  | FromSpend v =>
      mk_BurstState (intents_last_60s v) (cooldown_until v) (open_authorizations v)
        (escalations_last_hour v)
  | NoState => mk_BurstState 0 None 0 0
  end.

(** [if arg is not None: observed = BurstState(...)], one field replaced. *)
Definition replace_if {A} (arg : option A) (rebuild : A -> res BurstState) (observed : BurstState)
    : res BurstState :=
  match arg with None => Ok observed | Some v => rebuild v end.

Definition burst_rules (current : Z) (policy : BurstConfig) (observed : BurstState) : BurstDecision :=
  let n := intents_in_window observed in
  let decide v r until suspend d :=
    {| b_decision := v; b_reason_code := r; b_decision_cooldown_until := until;
       auto_suspend := suspend; b_diff := d |} in
  match (match b_cooldown_until observed with
         | Some until => if current <? until then Some until else None
         | None => None
         end) with
  | Some until =>
      decide REJECTED (Some VELOCITY_BURST) (Some until) false
        (Some [("cause", VStr "cooldown"); ("until", VStr (isoformat until))]%string)
  | None =>
      if max_escalations_per_hour policy <? escalations_in_hour observed then
        decide REJECTED (Some MANDATE_SUSPENDED) None true
          (Some [("limit", VStr "escalations_per_hour");
                 ("value", VInt (max_escalations_per_hour policy));
                 ("observed", VInt (escalations_in_hour observed))]%string)
      else if max_intents policy <? n + 1 then
        let until := current + cooldown policy in
        decide ESCALATED (Some VELOCITY_BURST) (Some until) false
          (Some [("limit", VStr "intents");
                 ("window_seconds", VInt (total_seconds_int (window policy)));
                 ("observed", VInt (n + 1));
                 ("cooldown_until", VStr (isoformat until))]%string)
      else if max_open_authorizations policy <? b_open_authorizations observed + 1 then
        decide ESCALATED (Some VELOCITY_BURST) None false
          (limit_diff "open_authorizations" (VInt (max_open_authorizations policy))
             (VInt (b_open_authorizations observed + 1)))
      else decide APPROVED None None false None
  end.

Definition evaluate_burst (state : burst_source) (now : option datetime)
    (config : option BurstConfig) (intents : option Z) (cooldown : option datetime)
    (open_authz escalations : option Z) : res BurstDecision :=
  match now with
  | None => Raise ValueError
  | Some n =>
      let? current := ensure_utc n in
      let policy := override config default_BurstConfig in
      let? o := _burst_state state in
      let? o := replace_if intents (fun v =>
                  mk_BurstState v (b_cooldown_until o) (b_open_authorizations o)
                    (escalations_in_hour o)) o in
      let? o := replace_if cooldown (fun v =>
                  let? c := ensure_utc v in
                  mk_BurstState (intents_in_window o) (Some c) (b_open_authorizations o)
                    (escalations_in_hour o)) o in
      let? o := replace_if open_authz (fun v =>
                  mk_BurstState (intents_in_window o) (b_cooldown_until o) v
                    (escalations_in_hour o)) o in
      let? o := replace_if escalations (fun v =>
                  mk_BurstState (intents_in_window o) (b_cooldown_until o)
                    (b_open_authorizations o) v) o in
      Ok (burst_rules current policy o)
  end.

(** ** The step-up rule *)

Definition ttl_for_level (level : EscalationLevel) (config : option StepUpConfig) : Z :=
  let policy := override config default_StepUpConfig in
  total_seconds_int (match level with L3_PLUS => ttl_l3_plus policy | L3 => ttl_l3 policy end).

Definition _level (level : string) : res EscalationLevel := _as_level level.

Definition escalation_deadline (created_at : datetime) (level : EscalationLevel)
    (config : option StepUpConfig) : res Z :=
  let? c := ensure_utc created_at in Ok (c + seconds (ttl_for_level level config)).

Definition escalation_expired (timeout_at now : datetime) : res bool :=
  let? n := ensure_utc now in
  let? t := ensure_utc timeout_at in
  Ok (t <=? n).

Definition not_required : StepUpDecision :=
  {| required := false; s_level := None; reasons := []; s_ttl_seconds := None; max_age := None;
     s_requires_uv := false; s_expires_at := None; s_diff := None |}.

(** Amounts that cannot be read force the strongest step-up. *)
Definition unreadable_step_up : StepUpDecision :=
  {| required := true; s_level := Some L3_PLUS; reasons := []; s_ttl_seconds := None;
     max_age := None; s_requires_uv := true; s_expires_at := None; s_diff := None |}.

Definition amount_rule (policy : StepUpConfig) (candidate maximum : dec)
    : res (list ReasonCode * pydict) :=
  let? positive := dgt maximum dzero in
  if negb positive then Ok ([], [])
  else
    let? threshold := dmul (amount_ratio policy) maximum in
    let? hit := dle threshold candidate in
    Ok (if (hit : bool) then
          ([STEPUP_AMOUNT_THRESHOLD],
           [("amount_threshold",
             VDict [("ratio", VStr (dec_str (amount_ratio policy)));
                    ("amount", VStr (dec_str candidate));
                    ("max_per_txn", VStr (dec_str maximum))])]%string)
        else ([], [])).

Definition budget_rule (policy : StepUpConfig) (spent reserved : dec) (budget : option dec)
    : res (list ReasonCode * pydict) :=
  match budget with
  | None => Ok ([], [])
  | Some b =>
      let? positive := dgt b dzero in
      if negb positive then Ok ([], [])
      else
        let? used := dadd spent reserved in
        let? usage := ddiv used b in
        let? hit := dle (budget_ratio policy) usage in
        Ok (if (hit : bool) then
              ([STEPUP_BUDGET_USAGE],
               [("budget_threshold",
                 VDict [("ratio", VStr (dec_str (budget_ratio policy)));
                        ("spent_plus_reserved", VStr (dec_str used));
                        ("total_budget", VStr (dec_str b))])]%string)
            else ([], []))
  end.

Definition opt_decimal (v : option pyval) : res (option dec) :=
  match v with None => Ok None | Some x => let? d := _as_decimal x in Ok (Some d) end.

Definition evaluate_step_up (amount max_per_txn spent_total reserved_total : pyval)
    (total_budget : option pyval) (now : option datetime) (config : option StepUpConfig)
    (first_escalation fresh_agent_key : bool) : res StepUpDecision :=
  let policy := override config default_StepUpConfig in
  match (let? candidate := _as_decimal amount in
         let? maximum := _as_decimal max_per_txn in
         let? spent := _as_decimal spent_total in
         let? reserved := _as_decimal reserved_total in
         let? budget := opt_decimal total_budget in
         Ok (candidate, maximum, spent, reserved, budget)) with
  | Raise AmountFormatError => Ok unreadable_step_up
  | Raise e => Raise e
  | Ok (candidate, maximum, spent, reserved, budget) =>
      let? ' (r1, d1) := amount_rule policy candidate maximum in
      let? ' (r2, d2) := budget_rule policy spent reserved budget in
      let rs := r1 ++ r2 in
      let high_risk_context := first_escalation || fresh_agent_key in
      if bool_decide (rs = []) && negb high_risk_context then Ok not_required
      else
        let lvl := if negb (bool_decide (rs = [])) || high_risk_context then L3_PLUS else L3 in
        let ttl := ttl_for_level lvl (Some policy) in
        let? expires := (match now with
                         | None => Ok None
                         | Some n => let? t := escalation_deadline n lvl (Some policy) in Ok (Some t)
                         end) in
        let d := dict_update d1 d2 in
        let d := if first_escalation then dict_set "first_escalation"%string (VBool true) d else d in
        let d := if fresh_agent_key then dict_set "fresh_agent_key"%string (VBool true) d else d in
        Ok {| required := true; s_level := Some lvl; reasons := rs; s_ttl_seconds := Some ttl;
              max_age := Some ttl; s_requires_uv := bool_decide (lvl = L3_PLUS);
              s_expires_at := expires; s_diff := Some d |}
  end.

Definition requires_step_up (amount max_per_txn spent_total reserved_total : pyval)
    (total_budget : option pyval) : res bool :=
  let? d := evaluate_step_up amount max_per_txn spent_total reserved_total total_budget None None
              false false in
  Ok (required d).

(** ** Resolving an escalation *)

(** [str(value)] of the objects [json.dumps] cannot write by itself. *)
Definition str_default : json_default :=
  {| default_dec := fun d => Ok (JStr (dec_str d));
     default_time := fun t => Ok (JStr (datetime_str t));
     default_float := dumps_float |}.

Definition canonical_diff_digest (d : option pydict) : res string :=
  let? text := dumps str_default (VDict (override d [])) in Ok (sha256_hex text).

Inductive approval_arg : Type := ApprovalStr (s : string) | ApprovalBool (b : bool).

Definition approval_word (a : approval_arg) : string :=
  match a with
  | ApprovalStr s => upper s
  | ApprovalBool b => if b then "TRUE" else "FALSE"
  end.

Definition is_false (a : approval_arg) : bool :=
  match a with ApprovalBool false => true | _ => false end.

(** The user-verification port: challenge, assertion and maximum age in
    seconds to a truth value; it may raise. *)
Definition uv_port : Type := string -> pyval -> Z -> res bool.

Definition FailClosedUVVerifier : uv_port := fun _ _ _ => Ok false.

Definition resolve_escalation (escalation : Escalation) (now : datetime) (approval : approval_arg)
    (uv_verifier : option uv_port) (assertion : pyval) (d : option pydict)
    (uv_verified : option bool) : res Decision :=
  let? current := ensure_utc now in
  let? timeout_at := (match e_timeout_at escalation with
                      | Some t => Ok t
                      | None => escalation_deadline (Aware (e_created_at escalation))
                                  (e_level escalation) None
                      end) in
  if timeout_at <=? current then Ok (reject ESCALATION_TIMEOUT_DENIED)
  else if is_false approval || negb (String.eqb (approval_word approval) "APPROVE") then
    Ok (reject ESCALATION_TIMEOUT_DENIED)
  else
    match e_level escalation with
    | L3 => Ok approve
    | L3_PLUS =>
        let verified :=
          match uv_verified with
          | Some b => b
          | None =>
              match (let? challenge := canonical_diff_digest
                                         (match d with Some x => Some x | None => e_diff escalation end) in
                     override uv_verifier FailClosedUVVerifier challenge assertion
                       (total_seconds_int (timeout_at - e_created_at escalation))) with
              | Ok b => b
              | Raise _ => false
              end
          end in
        Ok (if verified then approve else reject ESCALATION_TIMEOUT_DENIED)
    end.

(** ** The gate *)

Record PolicyGate : Type := { burst_config : BurstConfig; stepup_config : StepUpConfig }.

Definition default_gate : PolicyGate :=
  {| burst_config := default_BurstConfig; stepup_config := default_StepUpConfig |}.

(** The price and merchant checks, yielding the merchant and category the scope
    is checked against, or the decision that ends the evaluation.  Without an
    offer the category is [str(intent.category)], the text None when absent. *)
Definition gate_offer (intent : PurchaseIntent) (offer : option Offer)
    : res (Decision + string * string) :=
  match offer with
  | Some o =>
      if negb (String.eqb (i_offer_id intent) (o_offer_id o)) then Ok (inl (reject CONDITION_FAILED))
      else
        let? same := price_matches (VStr (i_amount intent)) (VStr (o_amount o)) in
        if negb same then
          let? d := price_check (VStr (i_amount intent)) (VStr (o_amount o)) in Ok (inl d)
        else if negb (String.eqb (i_merchant_id intent) (o_merchant_id o)) then
          Ok (inl (reject MERCHANT_NOT_ALLOWED))
        else Ok (inr (o_merchant_id o, o_category o))
  | None =>
      let where_ := (i_merchant_id intent, override (i_category intent) "None"%string) in
      match i_offer_amount intent with
      | None => Ok (inr where_)
      | Some oa =>
          let? same := price_matches (VStr (i_amount intent)) (VStr oa) in
          if negb same then
            let? d := price_check (VStr (i_amount intent)) (VStr oa) in Ok (inl d)
          else Ok (inr where_)
      end
  end.

Definition gate_identity (mandate : MandateClaims) (intent : PurchaseIntent) : option ReasonCode :=
  if negb (truthy_str (jti mandate)) || negb (String.eqb (i_mandate_jti intent) (jti mandate)) then
    Some INVALID_PROOF_OF_POSSESSION
  else if negb (match agent mandate with
                | Some a => truthy_str a && String.eqb (i_agent intent) a
                | None => false
                end) then Some INVALID_PROOF_OF_POSSESSION
  else if negb (truthy_str (upper (currency mandate)))
          || negb (String.eqb (upper (i_currency intent)) (upper (currency mandate))) then
    Some CONDITION_FAILED
  else None.

Definition gate_scope (mandate : MandateClaims) (merchant category : string) : option ReasonCode :=
  if scope_allows (scope mandate) merchant category then None
  else if negb (existsb (String.eqb merchant) (merchants (scope mandate))) then
    Some MERCHANT_NOT_ALLOWED
  else Some CATEGORY_FORBIDDEN.

(** The escalation signals and the choice between them: an L3+ signal first. *)
Definition gate_escalation (g : PolicyGate) (burst : BurstDecision) (stepup : StepUpDecision)
    : Decision :=
  let from_burst :=
    match b_decision burst with
    | ESCALATED =>
        [{| decision := ESCALATED; reason_code := b_reason_code burst; reservation_id := None;
            diff := b_diff burst; level := Some L3;
            ttl_seconds := Some (ttl_for_level L3 (Some (stepup_config g))); requires_uv := false |}]
    | _ => []
    end in
  let from_stepup :=
    if required stepup then
      [{| decision := ESCALATED; reason_code := hd_error (reasons stepup); reservation_id := None;
          diff := s_diff stepup; level := s_level stepup; ttl_seconds := s_ttl_seconds stepup;
          requires_uv := s_requires_uv stepup |}]
    else [] in
  let is_plus d := bool_decide (level d = Some L3_PLUS) in
  match from_burst ++ from_stepup with
  | [] => approve
  | d :: ds => fold_left (fun best e => if is_plus e && negb (is_plus best) then e else best) ds d
  end.

(** The risk rules, applied once the limits have accepted: burst, then step-up. *)
Definition risk_stage (g : PolicyGate) (m : MandateClaims) (i : PurchaseIntent) (sp : SpendView)
    (us : Z) (approved_stepup : bool) : res Decision :=
  let? burst := evaluate_burst (FromSpend sp) (Some (Aware us)) (Some (burst_config g))
                  None None None None in
  match b_decision burst with
  | REJECTED => Ok (decide_diff REJECTED (b_reason_code burst) (b_diff burst))
  | _ =>
      let? stepup :=
        (if approved_stepup then Ok not_required
         else evaluate_step_up (VStr (i_amount i))
                (match limits m with Some l => VDec (max_per_txn l) | None => VNone end)
                (VDec (spent_total sp)) (VDec (reserved_total sp))
                (option_map (fun l => VDec (total_budget l)) (limits m))
                (Some (Aware us)) (Some (stepup_config g)) false false) in
      Ok (gate_escalation g burst stepup)
  end.

Definition evaluate (g : PolicyGate) (mandate : MandateClaims) (intent : PurchaseIntent)
    (spend : SpendView) (now : datetime) (offer : option Offer) (approved_stepup : bool)
    : res Decision :=
  match ensure_utc now with
  | Raise _ => Ok (reject MANDATE_SUSPENDED)
  | Ok current =>
      match mandate_state_reason mandate (Aware current) with
      | Some r => Ok (reject r)
      | None =>
          match gate_identity mandate intent with
          | Some r => Ok (reject r)
          | None =>
              let? checked := gate_offer intent offer in
              match checked with
              | inl d => Ok d
              | inr (merchant, category) =>
                  match gate_scope mandate merchant category with
                  | Some r => Ok (reject r)
                  | None =>
                      let? conditions_hold :=
                        evaluate_conditions (conditions mandate) (_as_offer_mapping offer)
                          (Aware current) in
                      if negb conditions_hold then Ok (reject CONDITION_FAILED)
                      else
                        let? limit_decision :=
                          _limits_decision (limits mandate) (VStr (i_amount intent)) spend in
                        if is_rejected limit_decision then Ok limit_decision
                        else risk_stage g mandate intent spend current approved_stepup
                  end
              end
          end
      end
  end.

(** ** The gold rule *)

Lemma first_verdictive_spec signals :
  match first_verdictive signals with
  | Some d => exists s, s ∈ signals /\ signal_verdictive s = true /\ decision d = REJECTED
                        /\ reason_code d = Some (rs_reason_code s)
  | None => Forall (fun s => signal_verdictive s = false) signals
  end.
Proof.
  induction signals as [|s rest IH]; cbn; [constructor|].
  destruct (signal_verdictive s) eqn:E; cbn.
  - exists s. repeat split; [apply list_elem_of_here|done].
  - destruct (first_verdictive rest) as [d|].
    + destruct IH as (s' & Hin & ?). exists s'. split; [by apply list_elem_of_further|done].
    + by constructor.
Qed.

(** Corroborative signals never reject and a verdictive one always does: the
    outcome is REJECTED exactly when some signal is verdictive, ESCALATED when
    there are only corroborative ones, APPROVED when there is none; and every
    reason code falls in exactly one of the two classes. *)
Theorem gold_rule (signals : list RiskSignal) :
  (decision (decision_from_signals signals) = REJECTED <->
     exists s, s ∈ signals /\ signal_verdictive s = true) /\
  (decision (decision_from_signals signals) = ESCALATED <->
     signals <> [] /\ forall s, s ∈ signals -> signal_verdictive s = false) /\
  (decision (decision_from_signals signals) = APPROVED <-> signals = []) /\
  (forall r, is_verdictive r = negb (is_corroborative r)).
Proof.
  pose proof (first_verdictive_spec signals) as H.
  unfold decision_from_signals. destruct (first_verdictive signals) as [d|].
  - destruct H as (s & Hin & Hs & Hd & _). rewrite Hd. split_and!.
    + split; eauto.
    + split; [done|]. intros [_ Hall]. rewrite (Hall s Hin) in Hs. done.
    + split; [done|]. intros ->. by apply not_elem_of_nil in Hin.
    + by intros [].
  - rewrite Forall_forall in H. destruct signals as [|s rest]; cbn; split_and!; try (by intros []).
    + split; [done|]. intros (s & Hin & _). by apply not_elem_of_nil in Hin.
    + split; [done|]. by intros [].
    + done.
    + split; [done|]. intros (s' & Hin & Hs). rewrite (H s' Hin) in Hs. done.
    + done.
    + done.
Qed.

(** ** Amounts on the wire *)

(** Bound under which sums and products of amounts stay within 28 digits. *)
Definition small (c : Z) : Prop := 0 <= c < 10 ^ 24.

Lemma small_max c : small c -> 0 <= c < max_coef.
Proof. unfold small. rewrite max_coef_value. lia. Qed.

Lemma as_decimal_text c : small c -> _as_decimal (VStr (cents_text c)) = Ok (cents c).
Proof. intros H. by apply amount_decimal_text, small_max. Qed.

Lemma as_decimal_cents c : small c -> _as_decimal (VDec (cents c)) = Ok (cents c).
Proof. intros H. by apply amount_decimal_cents, small_max. Qed.

Lemma dadd_small a b : 0 <= a -> 0 <= b -> a + b < max_coef -> dadd (cents a) (cents b) = Ok (cents (a + b)).
Proof. apply dadd_cents. Qed.

Lemma dec_str_small c : small c -> dec_str (cents c) = cents_text c.
Proof. intros [H _]. unfold cents. by rewrite dec_str_cents by done. Qed.

#[export] Hint Resolve small_max : aval.

(** The amounts a decision depends on, in cents: candidate, limit per
    transaction, budget, spent and reserved. *)
Record Amounts : Type :=
  { am_candidate : Z; am_max : Z; am_budget : Z; am_spent : Z; am_reserved : Z }.

Definition small_amounts (A : Amounts) : Prop :=
  small (am_candidate A) /\ small (am_max A) /\ small (am_budget A) /\
  small (am_spent A) /\ small (am_reserved A).

(** The objects hold these amounts, as normalised by their constructors. *)
Definition holds_amounts (A : Amounts) (l : MandateLimits) (candidate : string) (sp : SpendView) : Prop :=
  small_amounts A /\ candidate = cents_text (am_candidate A) /\
  max_per_txn l = cents (am_max A) /\ total_budget l = cents (am_budget A) /\
  spent_total sp = cents (am_spent A) /\ reserved_total sp = cents (am_reserved A).

(** The limit rules over integers, first failure first. *)
Definition limit_verdict (A : Amounts) (mt : option MaxTxnLimit) (txn_count : Z)
    : DecisionValue * option ReasonCode :=
  if am_max A <? am_candidate A then (REJECTED, Some AMOUNT_EXCEEDS_PER_TXN)
  else if am_budget A <? am_spent A + am_reserved A + am_candidate A then
    (REJECTED, Some BUDGET_EXCEEDED)
  else match mt with
       | Some m => if (txn_count <? 0) || (count m <? txn_count + 1) then
                     (REJECTED, Some LIMIT_EXHAUSTED)
                   else (APPROVED, None)
       | None => (APPROVED, None)
       end.

Lemma limits_decision_verdict A l sp :
  holds_amounts A l (cents_text (am_candidate A)) sp ->
  exists d, _limits_decision (Some l) (VStr (cents_text (am_candidate A))) sp = Ok d /\
    (decision d, reason_code d) = limit_verdict A (max_txn l) (txn_count_period sp).
Proof.
  intros ((Ha & Hm & Hb & Hs & Hr) & _ & Em & Eb & Es & Er). unfold _limits_decision, limit_verdict.
  rewrite as_decimal_text, Es, Er, !as_decimal_cents by done. cbn [rbind]. rewrite Em, Eb.
  unfold dgt. rewrite dlt_cents. cbn [rbind].
  destruct (am_max A <? am_candidate A); [eexists; split; [done|done]|].
  pose proof max_coef_value. unfold small in *.
  rewrite dadd_small by lia. cbn [rbind]. rewrite dadd_small by lia. cbn [rbind].
  rewrite dlt_cents. cbn [rbind].
  destruct (am_budget A <? _); [eexists; split; done|].
  destruct (max_txn l) as [mt|]; [|eexists; split; done].
  destruct (txn_count_period sp <? 0); [eexists; split; done|].
  destruct (count mt <? _); eexists; split; done.
Qed.

Definition within_limits (A : Amounts) (mt : option MaxTxnLimit) (txn_count : Z) : Prop :=
  am_candidate A <= am_max A /\
  am_spent A + am_reserved A + am_candidate A <= am_budget A /\
  (forall m, mt = Some m -> 0 <= txn_count /\ txn_count + 1 <= count m).

Lemma limit_verdict_spec A mt n :
  (within_limits A mt n /\ limit_verdict A mt n = (APPROVED, None)) \/
  (~ within_limits A mt n /\ (limit_verdict A mt n).1 = REJECTED).
Proof.
  unfold within_limits, limit_verdict.
  destruct (Z.ltb_spec (am_max A) (am_candidate A)); [right; split; [lia|done]|].
  destruct (Z.ltb_spec (am_budget A) (am_spent A + am_reserved A + am_candidate A));
    [right; split; [lia|done]|].
  destruct mt as [m|]; [|left; done].
  destruct (Z.ltb_spec n 0), (Z.ltb_spec (count m) (n + 1)); cbn;
    try (right; split; [|done]; intros (_ & _ & Hm); destruct (Hm m eq_refl); lia).
  left. split_and!; [lia|lia| |done]. by intros ? [= <-].
Qed.

(** C33: The limits are enforced exactly, in cents, with the reason of the first
    limit exceeded: per transaction, then budget (spent plus reserved plus the
    candidate), then the number of transactions. *)
Theorem limits_decision_exact (A : Amounts) (l : MandateLimits) (sp : SpendView) :
  holds_amounts A l (cents_text (am_candidate A)) sp ->
  exists d, _limits_decision (Some l) (VStr (cents_text (am_candidate A))) sp = Ok d /\
    (decision d, reason_code d) = limit_verdict A (max_txn l) (txn_count_period sp) /\
    (is_approved d = true <-> within_limits A (max_txn l) (txn_count_period sp)) /\
    (is_approved d = false -> is_rejected d = true).
Proof.
  intros H. destruct (limits_decision_verdict A l sp H) as (d & Hd & Hv).
  exists d. split; [done|]. split; [done|]. unfold is_approved, is_rejected.
  rewrite bool_decide_eq_true, bool_decide_eq_false, bool_decide_eq_true.
  destruct (limit_verdict_spec A (max_txn l) (txn_count_period sp)) as [[Hw E]|[Hw E]];
    rewrite <- Hv in E; [injection E as E _|cbn in E]; rewrite E; split; try done; split; done.
Qed.

(** ** The step-up thresholds *)

Definition step_up_due (A : Amounts) : bool :=
  ((0 <? am_max A) && (70 * am_max A <=? 100 * am_candidate A)) ||
  ((0 <? am_budget A) && (80 * am_budget A <=? 100 * (am_spent A + am_reserved A))).

Lemma dgt_zero c : small c -> dgt (cents c) dzero = Ok (0 <? c).
Proof.
  intros H. unfold dgt, dlt, dzero, cents. rewrite (dcompare_scale _ _ _ _ _ _ (-2)) by lia.
  cbn [signed]. change (-2 - -2) with 0. rewrite Z.mul_1_r, Z.mul_0_l. unfold Z.ltb.
  by destruct (0 ?= c).
Qed.

Lemma amount_rule_exact a mx : small a -> small mx ->
  exists d, amount_rule default_StepUpConfig (cents a) (cents mx) =
    Ok (if (0 <? mx) && (70 * mx <=? 100 * a) then [STEPUP_AMOUNT_THRESHOLD] else [], d).
Proof.
  intros Ha Hm. unfold amount_rule. rewrite dgt_zero by done. cbn [rbind].
  destruct (0 <? mx); cbn [negb andb]; [|eauto].
  assert (dmul (cents 70) (cents mx) = Ok (DFin false (70 * mx) (-4))) as E.
  { unfold dmul, mul_in, dfixed, cents, dfix. pose proof max_coef_value. unfold small in *.
    destruct (Z.ltb_spec (70 * mx) max_coef); [done|lia]. }
  change (amount_ratio default_StepUpConfig) with (cents 70). rewrite E. cbn [rbind].
  unfold dle, cents. rewrite (dcompare_scale _ _ _ _ _ _ (-4)) by lia. cbn [signed].
  change (-4 - -4) with 0. change (-2 - -4) with 2. rewrite Z.mul_1_r.
  replace (a * 10 ^ 2) with (100 * a) by lia. unfold Z.leb.
  destruct (70 * mx ?= 100 * a); cbn; eauto.
Qed.

Lemma budget_rule_exact s r b : small s -> small r -> small (s + r) -> small b ->
  exists d, budget_rule default_StepUpConfig (cents s) (cents r) (Some (cents b)) =
    Ok (if (0 <? b) && (80 * b <=? 100 * (s + r)) then [STEPUP_BUDGET_USAGE] else [], d).
Proof.
  intros Hs Hr Hsr Hb. unfold budget_rule. rewrite dgt_zero by done. cbn [rbind].
  destruct (Z.ltb_spec 0 b) as [Hp|]; cbn [negb andb]; [|eauto].
  pose proof max_coef_value. unfold small in *. rewrite dadd_small by lia. cbn [rbind].
  destruct (ddiv_ratio (s + r) b 80) as (q & -> & Hq); [lia|lia|lia|]. cbn [rbind].
  change (budget_ratio default_StepUpConfig) with (cents 80). rewrite Hq. cbn [rbind].
  destruct (80 * b <=? 100 * (s + r)); eauto.
Qed.

(** With the default configuration a step-up is required exactly when the
    candidate reaches 70% of the limit per transaction or the budget in use
    reaches 80%, both thresholds included and decided without rounding; it is
    then of level L3+, with user verification and a 300 second limit. *)
Theorem step_up_exact (A : Amounts) (now : option Z) :
  small_amounts A -> small (am_spent A + am_reserved A) ->
  exists d,
    evaluate_step_up (VStr (cents_text (am_candidate A))) (VDec (cents (am_max A)))
      (VDec (cents (am_spent A))) (VDec (cents (am_reserved A)))
      (Some (VDec (cents (am_budget A)))) (option_map Aware now) (Some default_StepUpConfig)
      false false = Ok d /\
    required d = step_up_due A /\
    (required d = true ->
       s_level d = Some L3_PLUS /\ s_requires_uv d = true /\ s_ttl_seconds d = Some 300 /\
       s_expires_at d = option_map (fun t => t + seconds 300) now).
Proof.
  intros (Ha & Hm & Hb & Hs & Hr) Hsr. unfold evaluate_step_up.
  rewrite as_decimal_text, !as_decimal_cents by done. cbn [rbind opt_decimal].
  rewrite as_decimal_cents by done. cbn [rbind override].
  destruct (amount_rule_exact _ _ Ha Hm) as [d1 ->]. cbn [rbind].
  destruct (budget_rule_exact _ _ _ Hs Hr Hsr Hb) as [d2 ->]. cbn [rbind]. unfold step_up_due.
  destruct ((0 <? am_max A) && _), ((0 <? am_budget A) && _); destruct now; cbn;
    eexists; (split; [done|]); done.
Qed.

(** ** The burst rule *)

(** What the projection's constructor guarantees. *)
Definition counters_ok (v : SpendView) : Prop :=
  0 <= intents_last_60s v /\ 0 <= open_authorizations v /\ 0 <= escalations_last_hour v.

Definition in_cooldown (v : SpendView) (us : Z) : Prop :=
  exists until, cooldown_until v = Some until /\ us < until.

Lemma burst_state_of_spend v : counters_ok v ->
  _burst_state (FromSpend v) =
  Ok {| intents_in_window := intents_last_60s v; b_cooldown_until := cooldown_until v;
        b_open_authorizations := open_authorizations v;
        escalations_in_hour := escalations_last_hour v |}.
Proof.
  intros (H1 & H2 & H3). cbn. unfold mk_BurstState. cbn.
  by rewrite !(proj2 (Z.ltb_ge _ 0)) by lia.
Qed.

Lemma cooldown_cases v us :
  let live := match cooldown_until v with
              | Some until => if us <? until then Some until else None
              | None => None
              end in
  (in_cooldown v us /\ exists u, live = Some u) \/ (~ in_cooldown v us /\ live = None).
Proof.
  unfold in_cooldown. destruct (cooldown_until v) as [u|]; cbn.
  - destruct (Z.ltb_spec us u); [left; eauto|right]. split; [|done]. intros (? & [= <-] & ?). lia.
  - right. split; [by intros (? & ? & _)|done].
Qed.

(** The burst rule rejects exactly during a cooldown or after more escalations
    in the hour than allowed, escalates exactly when the candidate would be one
    intent or one open authorization too many, and then starts a cooldown
    exactly for an excess of intents. *)
Theorem burst_exact (v : SpendView) (us : Z) (cfg : BurstConfig) :
  counters_ok v ->
  exists d,
    evaluate_burst (FromSpend v) (Some (Aware us)) (Some cfg) None None None None = Ok d /\
    let stop := in_cooldown v us \/ max_escalations_per_hour cfg < escalations_last_hour v in
    let burst := max_intents cfg < intents_last_60s v + 1 in
    let crowded := max_open_authorizations cfg < open_authorizations v + 1 in
    (b_decision d = REJECTED <-> stop) /\
    (b_decision d = ESCALATED <-> ~ stop /\ (burst \/ crowded)) /\
    (b_decision d = ESCALATED ->
       b_reason_code d = Some VELOCITY_BURST /\
       (burst -> b_decision_cooldown_until d = Some (us + cooldown cfg)) /\
       (~ burst -> b_decision_cooldown_until d = None)) /\
    (auto_suspend d = true <->
       ~ in_cooldown v us /\ max_escalations_per_hour cfg < escalations_last_hour v).
Proof.
  intros H. unfold evaluate_burst. cbn [ensure_utc rbind override replace_if].
  rewrite burst_state_of_spend by done. cbn [rbind]. eexists. split; [reflexivity|]. cbn zeta.
  unfold burst_rules. cbn [intents_in_window b_cooldown_until b_open_authorizations escalations_in_hour].
  destruct (cooldown_cases v us) as [[Hc [u ->]]|[Hc ->]]; cbn;
    [intuition congruence|].
  destruct (Z.ltb_spec (max_escalations_per_hour cfg) (escalations_last_hour v)); cbn;
    [intuition congruence|].
  destruct (Z.ltb_spec (max_intents cfg) (intents_last_60s v + 1)); cbn;
    [intuition (lia || congruence)|].
  destruct (Z.ltb_spec (max_open_authorizations cfg) (open_authorizations v + 1)); cbn;
    intuition (lia || congruence).
Qed.

(** ** Resolving an escalation *)

(** The deadline in force: the recorded one, else the default time limit of
    the level. *)
Definition deadline (e : Escalation) : Z :=
  override (e_timeout_at e)
    (e_created_at e + seconds (match e_level e with L3 => 120 | L3_PLUS => 300 end)).

(** An escalation is approved exactly by the word APPROVE (in any case) before
    the deadline and, at level L3+, with a positive verification: the caller's
    own verdict when given, else the verifier's answer on the digest of the
    difference shown to the user.  Without a verifier L3+ is never approved, and
    a verifier that raises counts as a refusal. *)
Lemma resolve_escalation_exact (e : Escalation) (us : Z) (approval : approval_arg)
    (uv : option uv_port) (assertion : pyval) (d : option pydict) (verified : option bool) :
  exists r, resolve_escalation e (Aware us) approval uv assertion d verified = Ok r /\
    (is_approved r = true \/ r = reject ESCALATION_TIMEOUT_DENIED) /\
    (is_approved r = true <->
       us < deadline e /\ approval_word approval = "APPROVE"%string /\
       (e_level e = L3 \/
        verified = Some true \/
        verified = None /\
          exists v digest, uv = Some v /\
            canonical_diff_digest (match d with Some x => Some x | None => e_diff e end) = Ok digest /\
            v digest assertion (total_seconds_int (deadline e - e_created_at e)) = Ok true)).
Proof.
  unfold resolve_escalation, deadline. cbn [ensure_utc rbind].
  set (to := match e_timeout_at e with Some t => Ok t | None => _ end).
  assert (to = Ok (deadline e)) as ->.
  { unfold to, deadline, escalation_deadline. destruct (e_timeout_at e); [done|].
    cbn. by destruct (e_level e). }
  cbn [rbind]. fold (deadline e). destruct (Z.leb_spec (deadline e) us).
  { eexists. split; [done|]. split; [by right|]. split; [done|lia]. }
  assert (is_false approval || negb (String.eqb (approval_word approval) "APPROVE") =
          negb (String.eqb (approval_word approval) "APPROVE")) as ->.
  { by destruct approval as [|[]]. }
  destruct (String.eqb_spec (approval_word approval) "APPROVE") as [Hw|Hw]; cbn [negb].
  2: { eexists. split; [done|]. split; [by right|]. split; [done|]. by intros (_ & ? & _). }
  destruct (e_level e) eqn:El.
  { eexists. split; [done|]. split; [by left|]. split; [by auto|done]. }
  destruct verified as [[]|].
  - eexists. split; [done|]. split; [by left|]. split; [auto|done].
  - eexists. split; [done|]. split; [by right|]. split; [done|].
    by intros (_ & _ & [?|[?|[? _]]]).
  - destruct (canonical_diff_digest _) as [digest|x] eqn:Ed; cbn [rbind].
    + destruct uv as [v|]; cbn [override].
      * destruct (v digest assertion _) as [[]|] eqn:Ev; cbn.
        -- eexists. split; [done|]. split; [by left|]. split; [|done]. intros _.
           split; [done|]. split; [done|]. right; right. split; [done|]. by exists v, digest.
        -- eexists. split; [done|]. split; [by right|]. split; [done|].
           intros (_ & _ & [?|[?|(_ & v' & d' & [= <-] & [= <-] & Hv)]]); congruence.
        -- eexists. split; [done|]. split; [by right|]. split; [done|].
           intros (_ & _ & [?|[?|(_ & v' & d' & [= <-] & [= <-] & Hv)]]); congruence.
      * eexists. split; [done|]. split; [by right|]. split; [done|].
        by intros (_ & _ & [?|[?|(_ & v' & ? & ? & _)]]).
    + eexists. split; [done|]. split; [by right|]. split; [done|].
      by intros (_ & _ & [?|[?|(_ & v' & d' & _ & ? & _)]]).
Qed.

(** ** The gate *)

Lemma existsb_eqb x l : existsb (String.eqb x) l = true <-> x ∈ l.
Proof.
  rewrite existsb_exists. split.
  - intros (y & Hy & E). apply String.eqb_eq in E as ->. by apply list_elem_of_In.
  - intros H. exists x. rewrite String.eqb_refl. split; [by apply list_elem_of_In|done].
Qed.

Lemma truthy_str_spec s : truthy_str s = true <-> s <> ""%string.
Proof. by destruct s. Qed.

Lemma scope_allows_spec sc m c :
  scope_allows sc m c = true <->
  m <> ""%string /\ c <> ""%string /\ m ∈ merchants sc /\ c ∈ categories sc.
Proof.
  unfold scope_allows. rewrite !andb_true_iff, !existsb_eqb, !truthy_str_spec. tauto.
Qed.

Lemma gate_scope_spec m merchant category :
  gate_scope m merchant category = None <-> scope_allows (scope m) merchant category = true.
Proof. unfold gate_scope. destruct (scope_allows _ _ _); [done|]. by case_match. Qed.

Definition usable_at (m : MandateClaims) (us : Z) : Prop :=
  status_of (status m) = Ok ACTIVE /\
  exists v, validity m = Some v /\ not_before v <= us < expires_at v.

Lemma mandate_state_none m us : mandate_state_reason m (Aware us) = None <-> usable_at m us.
Proof.
  unfold mandate_state_reason, usable_at. cbn [ensure_utc].
  destruct (status_of (status m)) as [s|]; [|by split; [|intros []]].
  destruct s; cbn [status_reason]; try by split; [|intros [? _]].
  destruct (validity m) as [v|]; [|by split; [|intros (_ & ? & ? & _)]].
  destruct (Z.leb_spec (expires_at v) (not_before v)).
  { split; [done|]. intros (_ & ? & [= <-] & ?). lia. }
  destruct (Z.ltb_spec us (not_before v)).
  { split; [done|]. intros (_ & ? & [= <-] & ?). lia. }
  destruct (Z.leb_spec (expires_at v) us).
  { split; [done|]. intros (_ & ? & [= <-] & ?). lia. }
  split; [|done]. intros _. split; [done|]. by exists v.
Qed.

Definition identity_matches (m : MandateClaims) (i : PurchaseIntent) : Prop :=
  jti m <> ""%string /\ i_mandate_jti i = jti m /\
  i_agent i <> ""%string /\ agent m = Some (i_agent i) /\
  upper (currency m) <> ""%string /\ upper (i_currency i) = upper (currency m).

Lemma gate_identity_none m i : gate_identity m i = None <-> identity_matches m i.
Proof.
  unfold gate_identity, identity_matches. rewrite <- !truthy_str_spec.
  destruct (truthy_str (jti m)); cbn; [|by split; [|intros (? & _)]].
  destruct (String.eqb_spec (i_mandate_jti i) (jti m)); cbn; [|by split; [|intros (_ & ? & _)]].
  destruct (agent m) as [a|]; cbn; [|by split; [|intros (_ & _ & _ & ? & _)]].
  destruct (String.eqb_spec (i_agent i) a) as [->|]; cbn.
  2: { rewrite andb_false_r. cbn. split; [done|]. by intros (_ & _ & _ & [= ->] & _). }
  rewrite andb_true_r. destruct (truthy_str a); cbn; [|by split; [|intros (_ & _ & ? & _)]].
  destruct (truthy_str (upper (currency m))); cbn; [|by split; [|intros (_ & _ & _ & _ & ? & _)]].
  destruct (String.eqb_spec (upper (i_currency i)) (upper (currency m))); cbn;
    [by split|by split; [|intros (_ & _ & _ & _ & _ & ?)]].
Qed.

Lemma price_matches_text a b : small a -> small b ->
  price_matches (VStr (cents_text a)) (VStr (cents_text b)) = Ok (a =? b).
Proof.
  intros Ha Hb. unfold price_matches. rewrite !canonical_amount_text by (by apply small_max).
  cbn [rbind]. f_equal. destruct (Z.eqb_spec a b) as [->|Hn]; [apply String.eqb_refl|].
  apply String.eqb_neq. intros E. apply Hn. apply cents_text_inj in E; [done| |]; unfold small in *; lia.
Qed.

Lemma price_check_mismatch a b : small a -> small b -> a <> b ->
  exists d, price_check (VStr (cents_text a)) (VStr (cents_text b)) =
    Ok (decide_diff REJECTED (Some CONDITION_FAILED) (Some d)).
Proof.
  intros Ha Hb Hn. unfold price_check. rewrite price_matches_text by done.
  rewrite (proj2 (Z.eqb_neq a b)) by done. cbn [rbind]. unfold canonical_or_str.
  rewrite !canonical_amount_text by (by apply small_max). cbn [rbind]. eauto.
Qed.

(** The offer stage on canonical amounts. *)
Lemma gate_offer_exact i o a p :
  small a -> small p -> i_amount i = cents_text a -> o_amount o = cents_text p ->
  exists r, gate_offer i (Some o) = Ok r /\
    ((i_offer_id i = o_offer_id o /\ a = p /\ i_merchant_id i = o_merchant_id o /\
      r = inr (o_merchant_id o, o_category o)) \/
     (~ (i_offer_id i = o_offer_id o /\ a = p /\ i_merchant_id i = o_merchant_id o) /\
      exists d, r = inl d /\ decision d = REJECTED)).
Proof.
  intros Ha Hp Ei Eo. unfold gate_offer. rewrite Ei, Eo.
  destruct (String.eqb_spec (i_offer_id i) (o_offer_id o)); cbn [negb].
  2: { eexists. split; [done|]. right. split; [by intros (? & _)|]. by eexists. }
  rewrite price_matches_text by done. cbn [rbind].
  destruct (Z.eqb_spec a p); cbn [negb].
  2: { destruct (price_check_mismatch a p) as [d ->]; try done. cbn. eexists. split; [done|].
       right. split; [by intros (_ & ? & _)|]. by eexists. }
  destruct (String.eqb_spec (i_merchant_id i) (o_merchant_id o)); cbn [negb].
  - eexists. split; [done|]. by left.
  - eexists. split; [done|]. right. split; [by intros (_ & _ & ?)|]. by eexists.
Qed.

Lemma gate_escalation_approved g b s :
  b_decision b <> REJECTED ->
  is_approved (gate_escalation g b s) = true <-> b_decision b = APPROVED /\ required s = false.
Proof.
  intros Hb. unfold gate_escalation.
  destruct (b_decision b); [|done|]; destruct (required s); cbn; try (by split; [|intros []]).
  case_match; cbn; by split; [|intros []].
Qed.

(** What the burst rule lets through silently. *)
Definition quiet (v : SpendView) (us : Z) (cfg : BurstConfig) : Prop :=
  ~ in_cooldown v us /\ escalations_last_hour v <= max_escalations_per_hour cfg /\
  intents_last_60s v + 1 <= max_intents cfg /\
  open_authorizations v + 1 <= max_open_authorizations cfg.

(** The contract of the gate, over integers and membership: everything that
    must hold for a candidate to be approved at instant [us]. *)
Record admissible (g : PolicyGate) (m : MandateClaims) (i : PurchaseIntent) (sp : SpendView)
    (us : Z) (o : Offer) (A : Amounts) (approved_stepup : bool) : Prop := {
  adm_usable : usable_at m us;
  adm_identity : identity_matches m i;
  adm_offer : i_offer_id i = o_offer_id o /\ i_merchant_id i = o_merchant_id o;
  adm_price : o_amount o = i_amount i;
  adm_scope : o_merchant_id o <> ""%string /\ o_category o <> ""%string /\
              o_merchant_id o ∈ merchants (scope m) /\ o_category o ∈ categories (scope m);
  adm_conditions : evaluate_conditions (conditions m) (_as_offer_mapping (Some o)) (Aware us) = Ok true;
  adm_limits : forall l, limits m = Some l -> within_limits A (max_txn l) (txn_count_period sp);
  adm_quiet : quiet sp us (burst_config g);
  adm_stepup : approved_stepup = true \/ step_up_due A = false;
}.

(** The objects of one evaluation, with their amounts in cents. *)
Record gate_inputs (g : PolicyGate) (m : MandateClaims) (i : PurchaseIntent) (sp : SpendView)
    (o : Offer) (A : Amounts) (l : MandateLimits) (p : Z) : Prop := {
  gi_limits : limits m = Some l;
  gi_amounts : holds_amounts A l (i_amount i) sp;
  gi_used : small (am_spent A + am_reserved A);
  gi_offer : o_amount o = cents_text p /\ small p;
  gi_counters : counters_ok sp;
  gi_stepup : stepup_config g = default_StepUpConfig;
}.

Lemma step_up_stage g m i sp o A l p us ap : gate_inputs g m i sp o A l p ->
  exists s,
    (if ap : bool then Ok not_required
     else evaluate_step_up (VStr (i_amount i))
            (match limits m with Some l => VDec (max_per_txn l) | None => VNone end)
            (VDec (spent_total sp)) (VDec (reserved_total sp))
            (option_map (fun l => VDec (total_budget l)) (limits m))
            (Some (Aware us)) (Some (stepup_config g)) false false) = Ok s /\
    required s = negb ap && step_up_due A /\
    (required s = true -> s_level s = Some L3_PLUS /\ s_requires_uv s = true).
Proof.
  intros [El (Hsm & Ei & Em & Eb & Es & Er) Hu _ _ Hg]. destruct ap; [by exists not_required|].
  rewrite El, Ei, Hg, Es, Er. cbn [option_map]. rewrite Em, Eb.
  destruct (step_up_exact A (Some us) Hsm Hu) as (d & Hd & Hr & Hp).
  exists d. split; [exact Hd|]. split; [done|]. intros H. by destruct (Hp H) as (? & ? & _).
Qed.

Lemma quiet_spec v us cfg d :
  (b_decision d = REJECTED <->
     in_cooldown v us \/ max_escalations_per_hour cfg < escalations_last_hour v) ->
  (b_decision d = ESCALATED <->
     ~ (in_cooldown v us \/ max_escalations_per_hour cfg < escalations_last_hour v) /\
     (max_intents cfg < intents_last_60s v + 1 \/ max_open_authorizations cfg < open_authorizations v + 1)) ->
  b_decision d = APPROVED <-> quiet v us cfg.
Proof.
  intros HR HE. unfold quiet. destruct (b_decision d) eqn:E; split; try done.
  - intros _. assert (Hn : ~ (in_cooldown v us \/ max_escalations_per_hour cfg < escalations_last_hour v))
      by (intros Hs; discriminate (proj2 HR Hs)).
    assert (Hb : ~ (max_intents cfg < intents_last_60s v + 1 \/
                    max_open_authorizations cfg < open_authorizations v + 1))
      by (intros Hb; discriminate (proj2 HE (conj Hn Hb))).
    apply Decidable.not_or in Hn as [? ?], Hb as [? ?]. split; [done|lia].
  - intros (Hc & He & _). destruct (proj1 HR eq_refl); [done|lia].
  - intros (_ & _ & Hi & Ho). destruct (proj1 HE eq_refl) as [_ [?|?]]; lia.
Qed.

Lemma risk_stage_exact g m i sp o A l p us ap : gate_inputs g m i sp o A l p ->
  exists d, risk_stage g m i sp us ap = Ok d /\
    (is_approved d = true <-> quiet sp us (burst_config g) /\ (ap = true \/ step_up_due A = false)) /\
    (is_escalated d = true -> ap = false -> step_up_due A = true ->
       level d = Some L3_PLUS /\ requires_uv d = true) /\
    (is_escalated d = true -> step_up_due A = false ->
       level d = Some L3 /\ requires_uv d = false /\ reason_code d = Some VELOCITY_BURST).
Proof.
  intros H. unfold risk_stage.
  destruct (burst_exact sp us (burst_config g)) as (b & -> & HR & HE & Hr & _); [apply H|].
  cbn [rbind]. pose proof (quiet_spec _ _ _ _ HR HE) as HA.
  destruct (step_up_stage _ _ _ _ _ _ _ _ us ap H) as (s & -> & Hreq & Hlev). cbn [rbind].
  destruct (b_decision b) eqn:Eb.
  - eexists. split; [done|]. unfold gate_escalation. rewrite Eb, Hreq.
    destruct ap, (step_up_due A); cbn in *; unfold is_approved, is_escalated; cbn;
      (split; [clear Hlev; intuition congruence|]); split; try done; intros; by apply Hlev.
  - eexists. split; [done|]. unfold is_approved, is_escalated. cbn. split; [|done].
    split; [done|]. by intros [Hq%HA _].
  - eexists. split; [done|]. unfold gate_escalation. rewrite Eb, Hreq.
    destruct (Hr eq_refl) as (Hr1 & _).
    destruct ap, (step_up_due A); cbn in *; unfold is_approved, is_escalated; cbn;
      try (split; [split; [done|by intros [Hq%HA _]]|]; done).
    destruct (Hlev Hreq) as [Hl Hu]. rewrite Hl. cbn.
    split; [split; [done|by intros [Hq%HA _]]|]. done.
Qed.

(** A stage of the gate that ended the evaluation with a rejection. *)
Lemma stage_rejects (r : res Decision) (P : Prop) :
  (forall d, r = Ok d -> is_approved d = false) -> ~ P ->
  (exists d, r = Ok d /\ is_approved d = true) <-> P.
Proof.
  intros Hr HP. split; [|done]. intros (d & Hd & Ha). by rewrite (Hr d Hd) in Ha.
Qed.

Lemma rejected_not_approved d : decision d = REJECTED -> is_approved d = false.
Proof. unfold is_approved. by intros ->. Qed.

(** C32: The gate approves exactly the candidates its contract admits: an active
    mandate inside its validity window, the same mandate, agent, currency, offer,
    price and merchant, a scope that names the merchant and the category,
    conditions that hold, amounts within the limits and the budget including what
    is already reserved, no burst, and no step-up due unless one was approved. *)
Theorem gate_approves_exact (g : PolicyGate) (m : MandateClaims) (i : PurchaseIntent)
    (sp : SpendView) (us : Z) (o : Offer) (A : Amounts) (l : MandateLimits) (p : Z) (ap : bool) :
  gate_inputs g m i sp o A l p ->
  (exists d, evaluate g m i sp (Aware us) (Some o) ap = Ok d /\ is_approved d = true) <->
  admissible g m i sp us o A ap.
Proof.
  intros H. pose proof H as [El HA Hu (Eo & Hp) Hc Hg]. pose proof HA as (Hsm & Ei & _).
  unfold evaluate. cbn [ensure_utc]. pose proof (mandate_state_none m us) as Hst.
  destruct (mandate_state_reason m (Aware us)) as [r|].
  { apply stage_rejects; [by intros d [= <-]|]. intros [Hx]. by apply Hst in Hx. }
  pose proof (gate_identity_none m i) as Hid. destruct (gate_identity m i) as [r|].
  { apply stage_rejects; [by intros d [= <-]|]. intros [_ Hx]. by apply Hid in Hx. }
  destruct (gate_offer_exact i o (am_candidate A) p (proj1 Hsm) Hp Ei Eo)
    as (r & -> & [(Ho & Hpr & Hme & ->)|(Hn & d & -> & Hd)]); cbn [rbind].
  2: { apply stage_rejects; [intros d' [= <-]; by apply rejected_not_approved|].
       intros [_ _ [? ?] Hx]. apply Hn. split_and!; try done. rewrite Eo, Ei in Hx.
       symmetry. apply cents_text_inj in Hx; [done| |]; apply Hsm || apply Hp. }
  pose proof (gate_scope_spec m (o_merchant_id o) (o_category o)) as Hsc.
  rewrite scope_allows_spec in Hsc. destruct (gate_scope m _ _) as [r|].
  { apply stage_rejects; [by intros d [= <-]|]. intros [_ _ _ _ Hx]. by apply Hsc in Hx. }
  destruct (evaluate_conditions (conditions m) _ (Aware us)) as [[]|e] eqn:Econd; cbn [rbind negb].
  2: { apply stage_rejects; [by intros d [= <-]|]. intros [_ _ _ _ _ Hx]. congruence. }
  2: { apply stage_rejects; [done|]. intros [_ _ _ _ _ Hx]. congruence. }
  rewrite El, Ei. rewrite Ei in HA.
  destruct (limits_decision_verdict A l sp HA) as (ld & Hld & Hver).
  rewrite Hld. cbn [rbind].
  destruct (risk_stage_exact _ _ _ _ _ _ _ _ us ap H) as (d & Hd & Happ & _).
  destruct (limit_verdict_spec A (max_txn l) (txn_count_period sp)) as [[Hw Ev]|[Hw Ev]];
    rewrite <- Hver in Ev.
  2: { cbn in Ev. assert (is_rejected ld = true) as -> by (unfold is_rejected; by rewrite Ev).
       apply stage_rejects; [intros d' [= <-]; by apply rejected_not_approved|].
       intros [_ _ _ _ _ _ Hx]. by apply Hw, Hx. }
  injection Ev as Ev _. assert (is_rejected ld = false) as -> by (unfold is_rejected; by rewrite Ev).
  rewrite Hd. split.
  - intros (d' & [= <-] & Ha). apply Happ in Ha as [Hq Hs].
    split; try done; [by apply Hst|by apply Hid|by rewrite Ei, Eo, Hpr|by apply Hsc|].
    intros l' Hl. rewrite El in Hl. by injection Hl as <-.
  - intros []. exists d. split; [done|]. by apply Happ.
Qed.

(** ** What the gate's decisions carry *)

(** The difference shown with the decision has no [auto_suspend] entry. *)
Definition unflagged (d : option pydict) : Prop :=
  forall x, d = Some x -> assoc "auto_suspend" x = None.

Lemma price_check_unflagged a b d : price_check a b = Ok d -> unflagged (diff d).
Proof.
  unfold price_check. destruct (price_matches a b) as [[]|]; cbn; [|clear|done].
  { by intros [= <-]. }
  destruct (canonical_or_str a); cbn; [|done]. destruct (canonical_or_str b); cbn; [|done].
  intros [= <-] x [= <-]. done.
Qed.

Lemma price_check_rejects a b d : price_matches a b = Ok false -> price_check a b = Ok d -> decision d = REJECTED.
Proof.
  unfold price_check. intros ->. cbn. destruct (canonical_or_str a); cbn; [|done].
  destruct (canonical_or_str b); cbn; [|done]. by intros [= <-].
Qed.

Lemma gate_offer_ends i o d :
  gate_offer i o = Ok (inl d) -> decision d = REJECTED /\ unflagged (diff d).
Proof.
  unfold gate_offer. intros H.
  destruct o as [o|].
  - destruct (String.eqb (i_offer_id i) _); cbn [negb] in H; [|by injection H as <-].
    destruct (price_matches _ _) as [[]|] eqn:Ep; cbn [rbind negb] in H; [| |done].
    + destruct (String.eqb _ _); cbn [negb] in H; [done|]. by injection H as <-.
    + destruct (price_check _ _) eqn:Ec; cbn [rbind] in H; [|done]. injection H as <-.
      split; [by eapply price_check_rejects|by eapply price_check_unflagged].
  - destruct (i_offer_amount i) as [oa|]; [|done].
    destruct (price_matches _ _) as [[]|] eqn:Ep; cbn [rbind negb] in H; [done| |done].
    destruct (price_check _ _) eqn:Ec; cbn [rbind] in H; [|done]. injection H as <-.
    split; [by eapply price_check_rejects|by eapply price_check_unflagged].
Qed.

Lemma limits_unflagged l a sp d : _limits_decision l a sp = Ok d -> unflagged (diff d).
Proof.
  unfold _limits_decision, reject, approve, decide_diff, limit_diff. intros H x Hx.
  destruct l as [l|]; [|by injection H as <-].
  destruct (_ : res (dec * dec * dec)) as [[[am s] r]|e] eqn:E; clear E.
  2: { case_match; [|done]. by injection H as <-. }
  destruct (dgt am _) as [[]|]; cbn [rbind] in H; [by injection H as <-; injection Hx as <-| |done].
  destruct (dadd s r); cbn [rbind] in H; [|done]. destruct (dadd _ am); cbn [rbind] in H; [|done].
  destruct (dgt _ _) as [[]|]; cbn [rbind] in H; [by injection H as <-; injection Hx as <-| |done].
  repeat case_match; injection H as <-; try done; by injection Hx as <-.
Qed.

Lemma burst_unflagged us cfg o : unflagged (b_diff (burst_rules us cfg o)).
Proof.
  unfold burst_rules, unflagged. destruct (match b_cooldown_until o with Some _ => _ | None => _ end);
    repeat case_match; cbn; intros x; try done; by intros [= <-].
Qed.

Lemma step_up_unflagged a mx s r b n c d :
  evaluate_step_up a mx s r b n c false false = Ok d -> unflagged (s_diff d).
Proof.
  unfold evaluate_step_up. intros H x Hx.
  destruct (_ : res (dec * dec * dec * dec * option dec)) as [[[[[ca ma] sp] re] bu]|e] eqn:E; clear E.
  2: { destruct e; try done. by injection H as <-. }
  destruct (amount_rule _ _ _) as [[r1 d1]|] eqn:E1; cbn [rbind] in H; [|done].
  destruct (budget_rule _ _ _ _) as [[r2 d2]|] eqn:E2; cbn [rbind] in H; [|done].
  assert (d1 = [] \/ exists v, d1 = [("amount_threshold"%string, v)]) as H1.
  { unfold amount_rule, rbind in E1. split_match_in E1; eauto. }
  assert (d2 = [] \/ exists v, d2 = [("budget_threshold"%string, v)]) as H2.
  { unfold budget_rule, rbind in E2. split_match_in E2; eauto. }
  destruct (_ && _) in H; [by injection H as <-|].
  destruct (_ : res (option Z)) as [ex|]; cbn [rbind] in H; [|done].
  injection H as <-. injection Hx as <-.
  destruct H1 as [->|[? ->]], H2 as [->|[? ->]]; done.
Qed.

Lemma gate_escalation_unflagged g b s :
  unflagged (b_diff b) -> unflagged (s_diff s) -> unflagged (diff (gate_escalation g b s)).
Proof.
  intros Hb Hs. unfold gate_escalation.
  destruct (b_decision b), (required s); cbn; try done. by case_match.
Qed.

Lemma risk_stage_unflagged g m i sp us ap d : risk_stage g m i sp us ap = Ok d -> unflagged (diff d).
Proof.
  unfold risk_stage, evaluate_burst. cbn [ensure_utc rbind override replace_if]. intros H.
  destruct (_burst_state (FromSpend sp)) as [b|]; cbn [rbind] in H; [|done].
  pose proof (burst_unflagged us (burst_config g) b) as Hb.
  set (bd := burst_rules us (burst_config g) b) in *.
  destruct (b_decision bd); try (by injection H as <-);
    (destruct ap;
     [injection H as <-; by apply gate_escalation_unflagged
     |destruct (evaluate_step_up _ _ _ _ _ _ _ _ _) eqn:Es; cbn [rbind] in H; [|done];
      injection H as <-; apply gate_escalation_unflagged; [done|by eapply step_up_unflagged]]).
Qed.

(** A decision either comes from the risk rules or is a rejection. *)
Lemma evaluate_cases g m i sp now o ap d :
  evaluate g m i sp now o ap = Ok d ->
  (decision d = REJECTED /\ unflagged (diff d)) \/
  exists us, now = Aware us /\ risk_stage g m i sp us ap = Ok d.
Proof.
  unfold evaluate. destruct now as [us|us]; cbn [ensure_utc]; [|intros [= <-]; by left].
  intros H. destruct (mandate_state_reason _ _); [injection H as <-; by left|].
  destruct (gate_identity m i); [injection H as <-; by left|].
  destruct (gate_offer i o) as [[d'|[me ca]]|] eqn:Eo; cbn [rbind] in H; [| |done].
  { injection H as <-. left. by eapply gate_offer_ends. }
  destruct (gate_scope m me ca); [injection H as <-; by left|].
  destruct (evaluate_conditions _ _ _) as [[]|]; cbn [rbind negb] in H; [| |done].
  2: { injection H as <-. by left. }
  destruct (_limits_decision _ _ _) as [ld|] eqn:El; cbn [rbind] in H; [|done].
  destruct (is_rejected ld) eqn:Er.
  - injection H as <-. left. split; [by apply bool_decide_eq_true in Er|by eapply limits_unflagged].
  - right. eauto.
Qed.

(** A due step-up takes precedence over a burst: an escalated candidate that
    reaches a step-up threshold is escalated at L3+ with user verification, even
    when the burst rule escalates too; below the thresholds it is a plain L3
    burst escalation. *)
Theorem step_up_precedence (g : PolicyGate) (m : MandateClaims) (i : PurchaseIntent)
    (sp : SpendView) (us : Z) (o : Offer) (A : Amounts) (l : MandateLimits) (p : Z) (ap : bool)
    (d : Decision) :
  gate_inputs g m i sp o A l p ->
  evaluate g m i sp (Aware us) (Some o) ap = Ok d -> is_escalated d = true ->
  (ap = false -> step_up_due A = true -> level d = Some L3_PLUS /\ requires_uv d = true) /\
  (step_up_due A = false ->
     level d = Some L3 /\ requires_uv d = false /\ reason_code d = Some VELOCITY_BURST).
Proof.
  intros H He Hesc. apply evaluate_cases in He as [[Hd _]|(us' & [= <-] & He)].
  { unfold is_escalated in Hesc. by rewrite Hd in Hesc. }
  destruct (risk_stage_exact _ _ _ _ _ _ _ _ us ap H) as (d' & Hd' & _ & H1 & H2).
  rewrite He in Hd'. injection Hd' as <-. split; auto.
Qed.

(** No decision of the gate carries the [auto_suspend] flag its caller looks
    for, even when the burst rule asks for the suspension of the mandate. *)
Theorem gate_drops_auto_suspend (g : PolicyGate) (m : MandateClaims) (i : PurchaseIntent)
    (sp : SpendView) (now : datetime) (o : option Offer) (ap : bool) :
  match evaluate g m i sp now o ap with
  | Ok d => unflagged (diff d)
  | Raise _ => True
  end.
Proof.
  destruct (evaluate g m i sp now o ap) as [d|] eqn:E; [|done].
  apply evaluate_cases in E as [[_ ?]|(us & _ & E)]; [done|by eapply risk_stage_unflagged].
Qed.

(** ** Concrete instances *)

(** A mandate of 100.00 per transaction and 500.00 in total, with 120.00 spent
    and 30.00 reserved, and a purchase of 42.50. *)
Module Demo.
Definition limits0 : MandateLimits :=
  {| max_per_txn := cents 10000; total_budget := cents 50000;
     max_txn := Some {| count := 10; period := "month" |} |}.
Definition mandate : MandateClaims :=
  {| jti := "mandate-1"; agent := Some "agent-1"%string; currency := "COP";
     scope := {| categories := ["food"%string]; merchants := ["m-1"%string] |};
     limits := Some limits0;
     validity := Some {| not_before := 0; expires_at := seconds 1000000 |};
     status := Known ACTIVE; conditions := None; payment_method_ref := None; subject := None;
     agent_id := None; parent_jti := None |}.
Definition intent_of (amount : Z) : PurchaseIntent :=
  {| i_jti := "intent-1"; i_mandate_jti := "mandate-1"; i_agent := "agent-1"; i_merchant_id := "m-1";
     i_offer_id := "o-1"; i_amount := cents_text amount; i_currency := "COP"; i_nonce := "n";
     i_iat := VNone; i_exp := VNone; i_category := Some "food"%string; i_offer_amount := None;
     i_agent_id := Some "agent-1"%string |}.
Definition offer_of (amount : Z) : Offer :=
  {| o_offer_id := "o-1"; o_merchant_id := "m-1"; o_category := "food";
     o_amount := cents_text amount; o_currency := "COP"; o_title := "Lunch"; o_description := None |}.
Definition spend_of (intents : Z) : SpendView :=
  {| spent_total := cents 12000; reserved_total := cents 3000; txn_count_period := 2;
     mandate_status := Known ACTIVE; intents_last_60s := intents; escalations_last_hour := 0;
     open_authorizations := 1; cooldown_until := None |}.
Definition amounts_of (amount : Z) : Amounts :=
  {| am_candidate := amount; am_max := 10000; am_budget := 50000; am_spent := 12000;
     am_reserved := 3000 |}.
End Demo.

Lemma demo_inputs amount n : 0 <= amount < 10 ^ 24 -> 0 <= n ->
  gate_inputs default_gate Demo.mandate (Demo.intent_of amount) (Demo.spend_of n)
    (Demo.offer_of amount) (Demo.amounts_of amount) Demo.limits0 amount.
Proof.
  intros Ha Hn. split; try done; unfold small, counters_ok; cbn; try lia.
Qed.

Lemma limits_decision_exact_witness :
  exists d, _limits_decision (Some Demo.limits0) (VStr (cents_text 10001)) (Demo.spend_of 0) = Ok d /\
    reason_code d = Some AMOUNT_EXCEEDS_PER_TXN.
Proof.
  destruct (limits_decision_exact (Demo.amounts_of 10001) Demo.limits0 (Demo.spend_of 0)) as (d & Hd & Hv & _).
  { unfold holds_amounts, small_amounts, small. cbn. repeat split; lia. }
  exists d. split; [exact Hd|]. by injection Hv.
Defined.

Lemma step_up_exact_witness :
  exists d, evaluate_step_up (VStr (cents_text 7000)) (VDec (cents 10000)) (VDec (cents 12000))
      (VDec (cents 3000)) (Some (VDec (cents 50000))) None (Some default_StepUpConfig) false false = Ok d /\
    required d = true /\ s_level d = Some L3_PLUS.
Proof.
  destruct (step_up_exact (Demo.amounts_of 7000) None) as (d & Hd & Hr & Hp).
  { unfold small_amounts, small. cbn. repeat split; lia. }
  { unfold small. cbn. lia. }
  exists d. split; [exact Hd|]. split; [exact Hr|]. by apply Hp.
Defined.

Lemma burst_exact_witness :
  exists d, evaluate_burst (FromSpend (Demo.spend_of 3)) (Some (Aware 0)) (Some default_BurstConfig)
      None None None None = Ok d /\
    b_decision d = ESCALATED /\ b_decision_cooldown_until d = Some (minutes 10).
Proof.
  destruct (burst_exact (Demo.spend_of 3) 0 default_BurstConfig) as (d & Hd & _ & He & Hx & _).
  { unfold counters_ok. cbn. lia. }
  exists d. split; [exact Hd|].
  assert (Hesc : b_decision d = ESCALATED).
  { apply He. split; [|left; cbn; lia]. intros [(u & Hu & _)|Hm]; [discriminate Hu|cbn in Hm; lia]. }
  split; [exact Hesc|]. apply (Hx Hesc). cbn. lia.
Defined.

Lemma gate_approves_exact_witness :
  exists d, evaluate default_gate Demo.mandate (Demo.intent_of 4250) (Demo.spend_of 0) (Aware (seconds 5))
      (Some (Demo.offer_of 4250)) false = Ok d /\ is_approved d = true.
Proof.
  apply (gate_approves_exact default_gate Demo.mandate (Demo.intent_of 4250) (Demo.spend_of 0)
    (seconds 5) (Demo.offer_of 4250) (Demo.amounts_of 4250) Demo.limits0 4250 false).
  - apply demo_inputs; lia.
  - split; cbn.
    + split; [reflexivity|]. eexists. split; [reflexivity|]. unfold seconds. cbn. lia.
    + unfold identity_matches. cbn. done.
    + done.
    + done.
    + repeat split; try done; by apply list_elem_of_here.
    + reflexivity.
    + intros l [= <-]. unfold within_limits. cbn. split; [lia|]. split; [lia|]. intros m [= <-]. cbn. lia.
    + unfold quiet. cbn. split; [|lia]. by intros (? & ? & _).
    + right. reflexivity.
Defined.

Lemma step_up_precedence_witness :
  exists d, evaluate default_gate Demo.mandate (Demo.intent_of 7000) (Demo.spend_of 3) (Aware (seconds 5))
      (Some (Demo.offer_of 7000)) false = Ok d /\ level d = Some L3_PLUS /\ requires_uv d = true.
Proof.
  destruct (evaluate default_gate Demo.mandate (Demo.intent_of 7000) (Demo.spend_of 3) (Aware (seconds 5))
      (Some (Demo.offer_of 7000)) false) as [d|] eqn:E; [|vm_compute in E; discriminate E].
  exists d. split; [reflexivity|].
  apply (step_up_precedence default_gate Demo.mandate (Demo.intent_of 7000) (Demo.spend_of 3)
    (seconds 5) (Demo.offer_of 7000) (Demo.amounts_of 7000) Demo.limits0 7000 false d).
  - apply demo_inputs; lia.
  - exact E.
  - vm_compute in E. injection E as <-. reflexivity.
  - reflexivity.
  - reflexivity.
Defined.
