(* ===== verification/Dict.v ===== *)
(** Python's insertion-ordered dict as an association list with distinct keys:
    the in-memory stores look up, assign, pop and iterate in insertion order. *)
From S2P Require Import Prelude.

Definition dict (K V : Type) : Type := list (K * V).

Section Dict.
Context {K : Type} `{EqDecision K} {V : Type}.

(** [d.get(k)] *)
Fixpoint dget (k : K) (d : dict K V) : option V :=
  match d with
  | [] => None
  | (k', v) :: d' => if decide (k = k') then Some v else dget k d'
  end.

(** [d[k] = v]: an existing key keeps its place. *)
Fixpoint dset (k : K) (v : V) (d : dict K V) : dict K V :=
  match d with
  | [] => [(k, v)]
  | (k', v') :: d' => if decide (k = k') then (k, v) :: d' else (k', v') :: dset k v d'
  end.

(** [d.pop(k, None)] *)
Fixpoint ddel (k : K) (d : dict K V) : dict K V :=
  match d with
  | [] => []
  | (k', v) :: d' => if decide (k = k') then d' else (k', v) :: ddel k d'
  end.

(** [d.setdefault(k, v)], as the dict afterwards. *)
Definition dsetdefault (k : K) (v : V) (d : dict K V) : dict K V :=
  match dget k d with Some _ => d | None => dset k v d end.

Definition dict_ok (d : dict K V) : Prop := NoDup d.*1.

Lemma dget_dset k v d : dget k (dset k v d) = Some v.
Proof.
  induction d as [|[k' v'] d IH]; cbn; [by rewrite decide_True|].
  destruct (decide (k = k')); cbn; [by rewrite decide_True|by rewrite decide_False].
Qed.

Lemma dget_dset_ne k k' v d : k <> k' -> dget k' (dset k v d) = dget k' d.
Proof.
  intros Hn. induction d as [|[x y] d IH]; cbn; [by rewrite decide_False|].
  destruct (decide (k = x)) as [->|]; cbn.
  - by rewrite !decide_False.
  - by destruct (decide (k' = x)).
Qed.

Lemma dget_None k d : dget k d = None <-> k ∉ d.*1.
Proof.
  induction d as [|[x y] d IH]; cbn.
  - split; [intros _; apply not_elem_of_nil|done].
  - rewrite not_elem_of_cons. destruct (decide (k = x)); [naive_solver|]. rewrite IH. naive_solver.
Qed.

Lemma dset_keys k v d :
  (dset k v d).*1 = match dget k d with Some _ => d.*1 | None => d.*1 ++ [k] end.
Proof.
  induction d as [|[x y] d IH]; cbn; [done|].
  destruct (decide (k = x)) as [->|]; cbn; [done|]. rewrite IH. by destruct (dget k d).
Qed.

Lemma dset_ok k v d : dict_ok d -> dict_ok (dset k v d).
Proof.
  unfold dict_ok. intros Hd. rewrite dset_keys. destruct (dget k d) eqn:E; [done|].
  apply dget_None in E. apply NoDup_app. split; [done|]. split; [|apply NoDup_singleton].
  intros x Hx ->%list_elem_of_singleton. done.
Qed.

Lemma ddel_sub k d x : x ∈ (ddel k d).*1 -> x ∈ d.*1.
Proof.
  induction d as [|[y z] d IH]; cbn; [done|].
  destruct (decide (k = y)); cbn; rewrite !elem_of_cons; naive_solver.
Qed.

Lemma ddel_ok k d : dict_ok d -> dict_ok (ddel k d).
Proof.
  unfold dict_ok. induction d as [|[y z] d IH]; cbn; [done|]. intros [Hy Hd]%NoDup_cons.
  destruct (decide (k = y)); cbn; [done|]. apply NoDup_cons. split; [|auto].
  intros H. by apply ddel_sub in H.
Qed.

Lemma dget_ddel k d : dict_ok d -> dget k (ddel k d) = None.
Proof.
  unfold dict_ok. induction d as [|[y z] d IH]; cbn; [done|]. intros [Hy Hd]%NoDup_cons.
  destruct (decide (k = y)) as [->|]; cbn; [by apply dget_None|]. rewrite decide_False by done. auto.
Qed.

Lemma dget_ddel_ne k k' d : k <> k' -> dget k' (ddel k d) = dget k' d.
Proof.
  intros Hn. induction d as [|[y z] d IH]; cbn; [done|].
  destruct (decide (k = y)) as [->|]; cbn; [by rewrite decide_False|]. by destruct (decide (k' = y)).
Qed.

Lemma dget_elem_of k v d : dget k d = Some v -> (k, v) ∈ d.
Proof.
  induction d as [|[y z] d IH]; cbn; [done|].
  destruct (decide (k = y)) as [->|]; [intros [= ->]; apply list_elem_of_here|].
  intros H. by apply list_elem_of_further, IH.
Qed.

Lemma dset_elem k v d k' v' : (k', v') ∈ dset k v d -> (k', v') = (k, v) \/ (k', v') ∈ d.
Proof.
  induction d as [|[y z] d IH]; cbn.
  - intros H%list_elem_of_singleton. by left.
  - destruct (decide (k = y)) as [->|]; rewrite !elem_of_cons; [tauto|].
    intros [E|H]; [tauto|]. destruct (IH H); tauto.
Qed.

Lemma dset_same k v d : dget k d = Some v -> dset k v d = d.
Proof.
  induction d as [|[y z] d IH]; cbn; [done|].
  destruct (decide (k = y)) as [->|]; [by intros [= ->]|]. intros H. by rewrite IH.
Qed.

Lemma ddel_dset_fresh k v d : dget k d = None -> ddel k (dset k v d) = d.
Proof.
  induction d as [|[y z] d IH]; cbn; [by rewrite decide_True|].
  destruct (decide (k = y)); [done|]. intros H. cbn. rewrite decide_False by done. by rewrite IH.
Qed.

Lemma dset_dset k v w d : dset k w (dset k v d) = dset k w d.
Proof.
  induction d as [|[y z] d IH]; cbn; [by rewrite decide_True|].
  destruct (decide (k = y)) as [->|]; cbn; [by rewrite decide_True|]. rewrite decide_False by done. by rewrite IH.
Qed.

(** The sum of a measure over the items, and how assignment and removal move it. *)
Definition dsum_of (f : K -> V -> Z) (d : dict K V) : Z :=
  fold_right (fun kv acc => f kv.1 kv.2 + acc) 0 d.

Lemma dsum_of_dset f k v d :
  dsum_of f (dset k v d) = dsum_of f d + f k v - match dget k d with Some w => f k w | None => 0 end.
Proof.
  unfold dsum_of. induction d as [|[y z] d IH]; cbn; [lia|].
  destruct (decide (k = y)) as [->|]; cbn; [lia|]. rewrite IH. lia.
Qed.

Lemma dsum_of_ddel f k d :
  dsum_of f (ddel k d) = dsum_of f d - match dget k d with Some w => f k w | None => 0 end.
Proof.
  unfold dsum_of. induction d as [|[y z] d IH]; cbn; [lia|].
  destruct (decide (k = y)) as [->|]; cbn; [lia|]. rewrite IH. lia.
Qed.

Lemma dsum_of_nonneg f d : (forall k v, 0 <= f k v) -> 0 <= dsum_of f d.
Proof. intros Hf. unfold dsum_of. induction d as [|[k v] d IH]; cbn; [done|]. specialize (Hf k v). lia. Qed.

Lemma dsum_of_dget_le f k v d : (forall k v, 0 <= f k v) -> dget k d = Some v -> f k v <= dsum_of f d.
Proof.
  intros Hf Hk. pose proof (dsum_of_ddel f k d) as Hd. rewrite Hk in Hd. pose proof (dsum_of_nonneg f (ddel k d) Hf). lia.
Qed.
End Dict.

#[export] Hint Rewrite @dget_dset @dset_dset : aval.
#[export] Hint Resolve dset_ok ddel_ok : aval.
