(* ===== verification/Velocity.v ===== *)
(** The velocity counters of src/src/api/decision/repository_memory.py:
    minute buckets of Decimal counts, cooldown expiries, and the spend view
    handed to the gate. *)
From S2P Require Import Prelude PyTime Decimal Json Dict Models JsonLogic.

Definition _utc (value : datetime) : res Z := ensure_utc value.
Definition _decimal (value : pyval) : res dec := amount_decimal value.

Definition minute_us : Z := 60000000.
(** [current.replace(second=0, microsecond=0)] of a UTC instant. *)
Definition floor_minute (us : Z) : Z := us - us mod minute_us.
Definition _minute (value : datetime) : res Z := let? current := _utc value in Ok (floor_minute current).

(** Bucket key: mandate, counter, window, bucket start. *)
Abbreviation bucket_key := (string * string * string * Z)%type.

Record InMemoryVelocityStore : Type := {
  _buckets : dict bucket_key dec;
  _cooldowns : dict string Z;
}.

Definition vel (A : Type) : Type := st InMemoryVelocityStore A.
Definition _OPEN_BUCKET : Z := 0.

Definition empty_velocity : InMemoryVelocityStore := {| _buckets := []; _cooldowns := [] |}.

Definition dec_zero : dec := decimal_of_int 0.
Definition dec_one : dec := decimal_of_int 1.

Definition set_buckets (b : dict bucket_key dec) : vel unit :=
  modify (fun s => {| _buckets := b; _cooldowns := _cooldowns s |}).
Definition set_cooldowns (c : dict string Z) : vel unit :=
  modify (fun s => {| _buckets := _buckets s; _cooldowns := c |}).

Definition _add (mandate_id counter window : string) (bucket : Z) (value : dec) : vel unit :=
  s <- get ;;
  let key := (mandate_id, counter, window, bucket) in
  total <- lift (dadd (override (dget key (_buckets s)) dec_zero) value) ;;
  set_buckets (dset key total (_buckets s)).

(** The values summed, in insertion order. *)
Definition in_range (mandate_id counter window : string) (start stop : Z) (kv : bucket_key * dec) : bool :=
  let '(m, c, w, b) := kv.1 in
  String.eqb m mandate_id && String.eqb c counter && String.eqb w window && (start <=? b) && (b <=? stop).

Definition _sum (mandate_id counter window : string) (start stop : Z) (b : dict bucket_key dec) : res dec :=
  dsum dec_zero (map snd (List.filter (in_range mandate_id counter window start stop) b)).

Definition increment_intent (mandate_id : string) (amount : pyval) (now : datetime) : vel unit :=
  bucket <- lift (_minute now) ;;
  _add mandate_id "intents" "1m" bucket dec_one ;;;
  value <- lift (_decimal amount) ;;
  _add mandate_id "amount_sum" "1m" bucket value.

Definition increment_escalation (mandate_id : string) (now : datetime) : vel unit :=
  bucket <- lift (_minute now) ;;
  _add mandate_id "escalations" "1h" bucket dec_one.

Definition open_key (mandate_id : string) : bucket_key :=
  (mandate_id, "open_authz"%string, "current"%string, _OPEN_BUCKET).

Definition increment_open_authorizations (mandate_id : string) (now : datetime) : vel unit :=
  _ <- lift (_utc now) ;;
  _add mandate_id "open_authz" "current" _OPEN_BUCKET dec_one.

(** [max(Decimal("0"), x)]: the first of the two unless the second is greater. *)
Definition dmax_zero (x : dec) : res dec :=
  let? b := dlt dec_zero x in Ok (if (b : bool) then x else dec_zero).

Definition decrement_open_authorizations (mandate_id : string) (now : datetime) : vel unit :=
  _ <- lift (_utc now) ;;
  s <- get ;;
  let key := open_key mandate_id in
  less <- lift (dsub (override (dget key (_buckets s)) dec_zero) dec_one) ;;
  value <- lift (dmax_zero less) ;;
  set_buckets (dset key value (_buckets s)).

Definition record_cooldown (mandate_id : string) (expires_at : datetime) : vel unit :=
  expiry <- lift (_utc expires_at) ;;
  s <- get ;;
  if override (dget mandate_id (_cooldowns s)) min_us <? expiry then
    set_cooldowns (dset mandate_id expiry (_cooldowns s))
  else ret ().

Definition get_cooldown (mandate_id : string) (now : datetime) : vel (option Z) :=
  current <- lift (_utc now) ;;
  s <- get ;;
  match dget mandate_id (_cooldowns s) with
  | None => ret None
  | Some expiry =>
      if expiry <=? current then
        set_cooldowns (ddel mandate_id (_cooldowns s)) ;;; ret None
      else ret (Some expiry)
  end.

Definition count_in (mandate_id counter window : string) (span : Z) (now : datetime) : vel Z :=
  current <- lift (_utc now) ;;
  s <- get ;;
  total <- lift (_sum mandate_id counter window (floor_minute (current - span)) (floor_minute current) (_buckets s)) ;;
  lift (py_int (VDec total)).

Definition count_intents (mandate_id : string) (now : datetime) (window : Z) : vel Z :=
  count_in mandate_id "intents" "1m" window now.

Definition count_escalations (mandate_id : string) (now : datetime) : vel Z :=
  count_in mandate_id "escalations" "1h" (hours 1) now.

Definition amount_sum (mandate_id : string) (now : datetime) : vel dec :=
  current <- lift (_utc now) ;;
  s <- get ;;
  lift (_sum mandate_id "amount_sum" "1m" (floor_minute (current - seconds 60)) (floor_minute current)
          (_buckets s)).

Definition open_authorizations_count (mandate_id : string) (now : option datetime) : vel Z :=
  _ <- lift (match now with Some n => let? _ := _utc n in Ok () | None => Ok () end) ;;
  s <- get ;;
  n <- lift (py_int (VDec (override (dget (open_key mandate_id) (_buckets s)) dec_zero))) ;;
  ret (Z.max 0 n).

Definition get_spend_view (mandate_id : string) (now : datetime) (spent_total reserved_total : pyval)
    (txn_count_period : Z) (mandate_status : status_field) : vel SpendView :=
  intents <- count_intents mandate_id now (seconds 60) ;;
  escalations <- count_escalations mandate_id now ;;
  open_authz <- open_authorizations_count mandate_id (Some now) ;;
  cooldown <- get_cooldown mandate_id now ;;
  lift (mk_SpendView spent_total reserved_total txn_count_period mandate_status intents escalations
          open_authz (option_map Aware cooldown)).

(** ** Counters are exact on minutes *)

(** A recorded operation of the store. *)
Inductive vel_op : Type :=
| VIntent (mandate_id : string) (amount : pyval) (us : Z)
| VEscalation (mandate_id : string) (us : Z)
| VOpen (mandate_id : string) (us : Z)
| VClose (mandate_id : string) (us : Z)
| VCooldown (mandate_id : string) (until : Z)
| VReadCooldown (mandate_id : string) (us : Z).

Definition vel_step (o : vel_op) (s : InMemoryVelocityStore) : InMemoryVelocityStore :=
  match o with
  | VIntent m a us => exec (increment_intent m a (Aware us)) s
  | VEscalation m us => exec (increment_escalation m (Aware us)) s
  | VOpen m us => exec (increment_open_authorizations m (Aware us)) s
  | VClose m us => exec (decrement_open_authorizations m (Aware us)) s
  | VCooldown m u => exec (record_cooldown m (Aware u)) s
  | VReadCooldown m us => exec (get_cooldown m (Aware us)) s
  end.

Definition vel_run (ops : list vel_op) (s : InMemoryVelocityStore) : InMemoryVelocityStore :=
  fold_left (fun s o => vel_step o s) ops s.

(** What one operation adds to a counter of a mandate over a range of minutes. *)
Definition op_weight (mandate_id counter : string) (start stop : Z) (o : vel_op) : Z :=
  let hit m c us := if String.eqb m mandate_id && String.eqb c counter
                       && (start <=? floor_minute us) && (floor_minute us <=? stop) then 1 else 0 in
  match o with
  | VIntent m _ us => hit m "intents"%string us
  | VEscalation m us => hit m "escalations"%string us
  | _ => 0
  end.

Definition ops_weight (mandate_id counter : string) (start stop : Z) (ops : list vel_op) : Z :=
  fold_right (fun o acc => op_weight mandate_id counter start stop o + acc) 0 ops.

Definition whole (v : dec) : Prop := exists n, v = DFin false n 0 /\ 0 <= n.
Definition coef_of (v : dec) : Z := match v with DFin _ n _ => n | _ => 0 end.

(** The stored counts of a range, as integers. *)
Definition stored (mandate_id counter window : string) (start stop : Z) (b : dict bucket_key dec) : Z :=
  dsum_of (fun k v => if in_range mandate_id counter window start stop (k, v) then coef_of v else 0) b.

Definition counting (counter : string) : bool :=
  String.eqb counter "intents" || String.eqb counter "escalations".

(** Counts are whole numbers, bounded by the number of operations so far. *)
Definition vel_ok (n : Z) (s : InMemoryVelocityStore) : Prop :=
  forall m c w b v, ((m, c, w, b), v) ∈ _buckets s -> counting c = true ->
    exists k, v = DFin false k 0 /\ 0 <= k <= n.

Lemma dadd_whole a b : 0 <= a -> 0 <= b -> a + b < max_coef ->
  dadd (DFin false a 0) (DFin false b 0) = Ok (DFin false (a + b) 0).
Proof.
  intros Ha Hb Hab. unfold dadd, add_in, dfixed, dfix. cbn -[max_coef]. rewrite !Z.mul_1_r, Z.abs_eq by lia.
  destruct (Z.ltb_spec (a + b) max_coef); [|lia].
  destruct (Z.eqb_spec (a + b) 0), (Z.ltb_spec (a + b) 0); try done; lia.
Qed.

Lemma round_whole a b : 0 <= a -> 0 <= b -> a + b < max_coef ->
  add_in dround (DFin false a 0) (DFin false b 0) = Ok (DFin false (a + b) 0).
Proof.
  intros Ha Hb Hab. rewrite <- (dadd_whole a b) by done. unfold dadd, add_in. cbn [Z.min]. apply dround_within; [|lia].
  cbn -[max_coef Z.pow]. change (10 ^ (0 - 0)) with 1. split; [lia|]. rewrite !Z.mul_1_r. apply (Z.lt_trans _ max_coef); [lia|by vm_compute].
Qed.

(** What [_add] does to a whole count. *)
Lemma add_whole n m c w b s : vel_ok n s -> counting c = true -> 0 <= n -> n + 1 < max_coef ->
  exists k, 0 <= k <= n /\
    match dget (m, c, w, b) (_buckets s) with Some v => v = DFin false k 0 | None => k = 0 end /\
    _add m c w b dec_one s =
    (Ok (), {| _buckets := dset (m, c, w, b) (DFin false (k + 1) 0) (_buckets s);
               _cooldowns := _cooldowns s |}).
Proof.
  intros Hok Hc Hn Hb. unfold _add, sbind, get, lift, set_buckets, modify.
  destruct (dget (m, c, w, b) (_buckets s)) as [v|] eqn:E; cbn [override].
  - destruct (Hok _ _ _ _ _ (dget_elem_of _ _ _ E) Hc) as (k & -> & Hk). exists k.
    split; [done|]. split; [done|].
    change dec_one with (DFin false 1 0). by rewrite dadd_whole by lia.
  - exists 0. split; [lia|]. split; [done|]. done.
Qed.

Lemma vel_ok_dset n n' s m c w b v cd : vel_ok n s -> n <= n' ->
  (counting c = true -> exists k, v = DFin false k 0 /\ 0 <= k <= n') ->
  vel_ok n' {| _buckets := dset (m, c, w, b) v (_buckets s); _cooldowns := cd |}.
Proof.
  intros Hok Hn Hv m' c' w' b' v'. cbn. intros [E|H]%dset_elem Hc.
  - injection E as -> -> -> -> ->. auto.
  - destruct (Hok _ _ _ _ _ H Hc) as (k & -> & ?). exists k. split; [done|lia].
Qed.

Lemma stored_dset mid counter window start stop m c w b v d :
  stored mid counter window start stop (dset (m, c, w, b) v d) =
  stored mid counter window start stop d +
  (if in_range mid counter window start stop ((m, c, w, b), v) then
     coef_of v - match dget (m, c, w, b) d with Some x => coef_of x | None => 0 end else 0).
Proof.
  unfold stored. rewrite dsum_of_dset. generalize (dsum_of (fun k v => if in_range mid counter window start stop (k, v) then coef_of v else 0) d).
  intros S. assert (forall x y, in_range mid counter window start stop ((m, c, w, b), x) =
    in_range mid counter window start stop ((m, c, w, b), y)) as E by done.
  destruct (dget (m, c, w, b) d) as [x|]; cbv beta iota; [rewrite (E x v)|]; destruct (in_range _ _ _ _ _ _); lia.
Qed.

Lemma vel_ok_le n n' s cd : vel_ok n s -> n <= n' ->
  vel_ok n' {| _buckets := _buckets s; _cooldowns := cd |}.
Proof.
  intros Hok Hn m c w b v H Hc. destruct (Hok _ _ _ _ _ H Hc) as (k & -> & ?). exists k. split; [done|lia].
Qed.

(** Writing a bucket of a counter that is not summed changes no sum. *)
Lemma stored_other mid counter window start stop m c w b v d :
  counting counter = true -> counting c = false ->
  stored mid counter window start stop (dset (m, c, w, b) v d) = stored mid counter window start stop d.
Proof.
  intros Hcount Hc. rewrite stored_dset. unfold in_range. cbn.
  destruct (String.eqb_spec c counter) as [->|]; [congruence|]. rewrite andb_false_r. cbn. lia.
Qed.

(** One more whole count in one bucket. *)
Lemma stored_add n s mid counter start stop m c us (w := if String.eqb c "intents" then "1m"%string else "1h"%string)
    (window := if String.eqb counter "intents" then "1m"%string else "1h"%string) :
  vel_ok n s -> counting c = true -> counting counter = true -> 0 <= n -> n + 1 < max_coef ->
  exists s', _add m c w (floor_minute us) dec_one s = (Ok (), s') /\ vel_ok (n + 1) s' /\
    stored mid counter window start stop (_buckets s') =
    stored mid counter window start stop (_buckets s) +
    (if String.eqb m mid && String.eqb c counter && (start <=? floor_minute us)
        && (floor_minute us <=? stop) then 1 else 0).
Proof.
  intros Hok Hc Hcount Hn Hb.
  destruct (add_whole n m c w (floor_minute us) s Hok Hc Hn Hb) as (k & Hk & Hd & ->).
  eexists. split; [done|]. split.
  - apply (vel_ok_dset n); [done|lia|]. intros _. exists (k + 1). split; [done|lia].
  - cbn [_buckets]. rewrite stored_dset. unfold in_range. cbn [fst snd].
    destruct (String.eqb_spec m mid) as [->|]; cbn [andb]; [|lia].
    destruct (String.eqb_spec c counter) as [->|]; cbn [andb]; [|lia].
    subst w window. rewrite String.eqb_refl. cbn [andb].
    destruct (_ && _); [|lia]. cbn [coef_of].
    destruct (dget _ (_buckets s)); [subst; cbn [coef_of]; lia|lia].
Qed.

(** One operation adds its weight to every sum. *)
Lemma vel_step_ok n o s mid counter start stop
    (window := if String.eqb counter "intents" then "1m"%string else "1h"%string) :
  vel_ok n s -> counting counter = true -> 0 <= n -> n + 1 < max_coef ->
  vel_ok (n + 1) (vel_step o s) /\
  stored mid counter window start stop (_buckets (vel_step o s)) =
  stored mid counter window start stop (_buckets s) + op_weight mid counter start stop o.
Proof.
  intros Hok Hcount Hn Hb.
  assert (Hsame : forall cd, vel_ok (n + 1) {| _buckets := _buckets s; _cooldowns := cd |})
    by (intros; apply (vel_ok_le n); [done|lia]).
  destruct s as [bk cd0]. destruct o as [m a us|m us|m us|m us|m u|m us]; cbn [vel_step op_weight]; unfold exec.
  - destruct (stored_add n _ mid counter start stop m "intents" us Hok eq_refl Hcount Hn Hb) as (s' & Ha & Hv & Hs).
    unfold increment_intent, _minute. unfold sbind, lift. cbn [_utc ensure_utc rbind].
    change (if String.eqb "intents" "intents" then "1m" else "1h")%string with "1m"%string in Ha.
    rewrite Ha. destruct (_decimal a) as [v|]; [|by split].
    unfold _add, sbind, get, lift. destruct (dadd _ _) as [tot|]; [|by split].
    unfold set_buckets, modify. cbn [snd _buckets]. split.
    + apply (vel_ok_dset (n + 1)); [done|lia|done].
    + by rewrite stored_other.
  - destruct (stored_add n _ mid counter start stop m "escalations" us Hok eq_refl Hcount Hn Hb) as (s' & Ha & Hv & Hs).
    unfold increment_escalation, _minute. unfold sbind, lift. cbn [_utc ensure_utc rbind].
    change (if String.eqb "escalations" "intents" then "1m" else "1h")%string with "1h"%string in Ha.
    by rewrite Ha.
  - unfold increment_open_authorizations, _add, sbind, get, lift. cbn [_utc ensure_utc].
    rewrite Z.add_0_r. destruct (dadd _ _) as [tot|]; [|split; [apply Hsame|done]].
    unfold set_buckets, modify. cbn [snd _buckets]. rewrite stored_other by done.
    split; [|done]. apply (vel_ok_dset n (n + 1) {| _buckets := bk; _cooldowns := cd0 |}); [done|lia|done].
  - unfold decrement_open_authorizations, sbind, get, lift. cbn [_utc ensure_utc].
    rewrite Z.add_0_r. destruct (dsub _ _) as [x|]; [|split; [apply Hsame|done]].
    destruct (dmax_zero x) as [y|]; [|split; [apply Hsame|done]].
    unfold open_key, set_buckets, modify. cbn [snd _buckets]. rewrite stored_other by done.
    split; [|done]. apply (vel_ok_dset n (n + 1) {| _buckets := bk; _cooldowns := cd0 |}); [done|lia|done].
  - unfold record_cooldown, sbind, get, lift. cbn [_utc ensure_utc]. rewrite Z.add_0_r.
    destruct (_ <? _); (split; [apply Hsame|done]).
  - unfold get_cooldown, sbind, get, lift. cbn [_utc ensure_utc]. rewrite Z.add_0_r.
    destruct (dget m _) as [e|]; [|split; [apply Hsame|done]].
    destruct (e <=? us); (split; [apply Hsame|done]).
Qed.

Lemma vel_run_ok ops s n mid counter start stop
    (window := if String.eqb counter "intents" then "1m"%string else "1h"%string) :
  vel_ok n s -> counting counter = true -> 0 <= n -> n + Z.of_nat (List.length ops) < max_coef ->
  vel_ok (n + Z.of_nat (List.length ops)) (vel_run ops s) /\
  stored mid counter window start stop (_buckets (vel_run ops s)) =
  stored mid counter window start stop (_buckets s) + ops_weight mid counter start stop ops.
Proof.
  intros Hok Hc. revert s n Hok. induction ops as [|o ops IH]; intros s n Hok Hn Hb; cbn [vel_run fold_left].
  - cbn in *. rewrite !Z.add_0_r. done.
  - cbn [List.length] in *. destruct (vel_step_ok n o s mid counter start stop Hok Hc Hn ltac:(lia)) as [H1 H2].
    destruct (IH (vel_step o s) (n + 1) H1 ltac:(lia) ltac:(lia)) as [H3 H4].
    replace (n + Z.of_nat (S (List.length ops))) with (n + 1 + Z.of_nat (List.length ops)) by lia.
    split; [done|]. fold (vel_run ops (vel_step o s)). subst window. rewrite H4, H2.
    cbn [ops_weight fold_right]. fold (ops_weight mid counter start stop ops). lia.
Qed.

(** A range sum one item at a time; an item in the range counts by its whole
    value. *)
Definition wholes (d : dict bucket_key dec) : Prop :=
  forall m c w b v, ((m, c, w, b), v) ∈ d -> counting c = true -> exists k, v = DFin false k 0 /\ 0 <= k.

Lemma wholes_tail x d : wholes (x :: d) -> wholes d.
Proof. intros H m c w b v Hin. eapply H. by apply list_elem_of_further. Qed.

Lemma stored_cons mid counter window start stop kv d :
  stored mid counter window start stop (kv :: d) =
  (if in_range mid counter window start stop kv then coef_of kv.2 else 0) +
  stored mid counter window start stop d.
Proof. by destruct kv. Qed.

Lemma in_range_whole mid counter window start stop kv d :
  wholes (kv :: d) -> counting counter = true -> in_range mid counter window start stop kv = true ->
  exists k, kv.2 = DFin false k 0 /\ 0 <= k.
Proof.
  intros Hw Hc E. destruct kv as [[[[m c] w] b] v]. assert (c = counter) as ->.
  { unfold in_range in E. cbn in E. bool_prop. by apply String.eqb_eq. }
  exact (Hw m counter w b v (list_elem_of_here _ _) Hc).
Qed.

Lemma stored_nonneg mid counter window start stop d :
  wholes d -> counting counter = true -> 0 <= stored mid counter window start stop d.
Proof.
  intros Hw Hc. induction d as [|kv d IH]; [cbn; lia|]. rewrite stored_cons.
  specialize (IH (wholes_tail _ _ Hw)).
  destruct (in_range _ _ _ _ _ kv) eqn:E; [|lia].
  destruct (in_range_whole _ _ _ _ _ _ _ Hw Hc E) as (k & -> & ?). cbn. lia.
Qed.

(** Summing the buckets of a range adds up the stored counts. *)
Lemma sum_stored mid counter window start stop d acc :
  wholes d -> counting counter = true -> 0 <= acc ->
  acc + stored mid counter window start stop d < max_coef ->
  dsum (DFin false acc 0) (map snd (List.filter (in_range mid counter window start stop) d)) =
  Ok (DFin false (acc + stored mid counter window start stop d) 0).
Proof.
  intros Hw Hc. revert acc. induction d as [|kv d IH]; intros acc Ha Hb.
  - cbn. by rewrite Z.add_0_r.
  - pose proof (wholes_tail _ _ Hw) as Hw'. pose proof (stored_nonneg mid counter window start stop d Hw' Hc).
    rewrite stored_cons in *. cbn [List.filter].
    destruct (in_range _ _ _ _ _ kv) eqn:E.
    + destruct (in_range_whole _ _ _ _ _ _ _ Hw Hc E) as (k & Hk & ?). rewrite Hk in *.
      cbn [map dsum coef_of] in *. rewrite Hk, round_whole by lia. cbn [rbind].
      rewrite (IH Hw') by lia. do 2 f_equal. lia.
    + by rewrite (IH Hw') by lia.
Qed.

Lemma vel_ok_wholes n s : vel_ok n s -> wholes (_buckets s).
Proof. intros H m c w b v Hin Hc. destruct (H _ _ _ _ _ Hin Hc) as (k & -> & ?). exists k. split; [done|lia]. Qed.

Lemma empty_vel_ok : vel_ok 0 empty_velocity.
Proof. intros m c w b v H. by apply not_elem_of_nil in H. Qed.

Lemma ops_weight_range mid counter start stop ops :
  0 <= ops_weight mid counter start stop ops <= Z.of_nat (List.length ops).
Proof.
  induction ops as [|o ops IH]; cbn [ops_weight fold_right List.length]; [lia|].
  fold (ops_weight mid counter start stop ops).
  assert (0 <= op_weight mid counter start stop o <= 1) as Ho; [|lia].
  destruct o; cbn [op_weight]; try lia; match goal with |- 0 <= (if ?b then _ else _) <= 1 => destruct b end; lia.
Qed.

Lemma count_in_exact mid counter span us ops
    (window := if String.eqb counter "intents" then "1m"%string else "1h"%string) :
  counting counter = true -> Z.of_nat (List.length ops) < max_coef ->
  count_in mid counter window span (Aware us) (vel_run ops empty_velocity) =
  (Ok (ops_weight mid counter (floor_minute (us - span)) (floor_minute us) ops),
   vel_run ops empty_velocity).
Proof.
  intros Hc Hl.
  destruct (vel_run_ok ops empty_velocity 0 mid counter (floor_minute (us - span)) (floor_minute us)
    empty_vel_ok Hc ltac:(lia) ltac:(lia)) as [Hok Hst].
  unfold count_in, sbind, get, lift. cbn [_utc ensure_utc]. unfold _sum. change dec_zero with (DFin false 0 0).
  pose proof (ops_weight_range mid counter (floor_minute (us - span)) (floor_minute us) ops).
  rewrite sum_stored; subst window; rewrite ?Hst; [|by eapply vel_ok_wholes|done|lia|cbn; lia].
  cbn [py_int dec_int]. change (0 <=? 0) with true. cbn [signed]. change (10 ^ 0) with 1.
  do 2 f_equal. cbn. lia.
Qed.

(** How many recorded intents of a mandate satisfy [p]. *)
Definition intents_where (mandate_id : string) (p : Z -> bool) (ops : list vel_op) : Z :=
  Z.of_nat (List.length (List.filter
    (fun o => match o with VIntent m _ us => String.eqb m mandate_id && p us | _ => false end) ops)).

Lemma intents_where_mono mid (p q : Z -> bool) ops :
  (forall us, p us = true -> q us = true) -> intents_where mid p ops <= intents_where mid q ops.
Proof.
  intros H. unfold intents_where. induction ops as [|o ops IH]; [done|]. cbn.
  destruct o as [m a us| | | | |]; cbn; try exact IH.
  destruct (String.eqb m mid); cbn; [|exact IH].
  destruct (p us) eqn:E; [rewrite (H us E); cbn; lia|]. destruct (q us); cbn; lia.
Qed.

Lemma ops_weight_intents mid start stop ops :
  ops_weight mid "intents" start stop ops =
  intents_where mid (fun us => (start <=? floor_minute us) && (floor_minute us <=? stop)) ops.
Proof.
  unfold intents_where. induction ops as [|o ops IH]; [done|].
  cbn [ops_weight fold_right List.filter]. fold (ops_weight mid "intents" start stop ops). rewrite IH.
  destruct o as [m a us|m us|m us|m us|m us|m us]; cbn [op_weight]; try lia.
  - rewrite String.eqb_refl, andb_true_r.
    destruct (String.eqb m mid); cbn [andb]; [|lia].
    destruct (_ <=? _); cbn [andb]; [|lia]. destruct (_ <=? _); cbn [List.length]; lia.
  - change (String.eqb "escalations" "intents") with false. rewrite andb_false_r. cbn. lia.
Qed.

(** The intent count read at an instant is the number of intents recorded in
    the minutes the window touches: it misses no intent of the last 60 seconds
    and counts none that is two minutes old; an intent between 60 and 120
    seconds old may still be counted. *)
Theorem count_intents_window (ops : list vel_op) (mandate_id : string) (us : Z) :
  Z.of_nat (List.length ops) < max_coef ->
  exists n, count_intents mandate_id (Aware us) (seconds 60) (vel_run ops empty_velocity)
            = (Ok n, vel_run ops empty_velocity) /\
    n = intents_where mandate_id
          (fun t => (floor_minute us - minute_us <=? floor_minute t) && (floor_minute t <=? floor_minute us)) ops /\
    intents_where mandate_id (fun t => (us - seconds 60 <=? t) && (t <=? us)) ops <= n /\
    n <= intents_where mandate_id (fun t => us - seconds 120 <? t) ops.
Proof.
  intros Hl. eexists. split; [by apply count_in_exact|]. rewrite ops_weight_intents.
  assert (floor_minute (us - seconds 60) = floor_minute us - minute_us) as ->.
  { unfold floor_minute, seconds, minute_us. Z.div_mod_to_equations. lia. }
  split; [done|]. split; apply intents_where_mono; intros t; unfold floor_minute, seconds, minute_us;
    rewrite ?andb_true_iff, ?Z.leb_le, ?Z.ltb_lt; Z.div_mod_to_equations; lia.
Qed.

(** The second bound is reached: an intent 119 seconds old still counts. *)
Theorem count_intents_overcounts :
  outcome (count_intents "m" (Aware (seconds 119)) (seconds 60))
    (vel_run [VIntent "m" (VStr "1.00") 0] empty_velocity) = Ok 1.
Proof. reflexivity. Qed.

Lemma count_intents_window_witness :
  exists n, count_intents "m" (Aware (seconds 30)) (seconds 60)
      (vel_run [VIntent "m" (VStr "1.00") 0; VEscalation "m" 5; VIntent "n" (VStr "2.00") 7] empty_velocity)
    = (Ok n, vel_run [VIntent "m" (VStr "1.00") 0; VEscalation "m" 5; VIntent "n" (VStr "2.00") 7] empty_velocity)
    /\ 1 <= n.
Proof.
  destruct (count_intents_window [VIntent "m" (VStr "1.00") 0; VEscalation "m" 5; VIntent "n" (VStr "2.00") 7]
    "m" (seconds 30)) as (n & Hn & _ & Hlo & _); [reflexivity|].
  exists n. split; [exact Hn|exact Hlo].
Defined.
