(* ===== verification/Reservation.v ===== *)
(** The conditional reservation store of
    src/src/api/decision/repository_memory.py ([InMemoryReservationStore]) and
    the coordinator of src/src/api/decision/reservation.py.  The lock makes each
    operation atomic; the uuid4 of an unnamed reservation is an argument. *)
From S2P Require Import Prelude PyTime Decimal Json Dict Models JsonLogic Policy Velocity.

Record MandateState : Type := {
  ms_total_budget : dec;
  ms_spent_total : dec;
  ms_reserved_total : dec;
  ms_txn_count : Z;
  ms_status : string;
}.

Record InMemoryReservationStore : Type := {
  _mandates : dict string MandateState;
  _reservations : dict string (string * dec);
  _reservation_keys : dict string string;
}.

Definition rsv (A : Type) : Type := st InMemoryReservationStore A.

Definition set_mandates (m : dict string MandateState) : rsv unit :=
  modify (fun s => {| _mandates := m; _reservations := _reservations s;
                      _reservation_keys := _reservation_keys s |}).
Definition set_reservations (r : dict string (string * dec)) : rsv unit :=
  modify (fun s => {| _mandates := _mandates s; _reservations := r;
                      _reservation_keys := _reservation_keys s |}).
Definition set_keys (k : dict string string) : rsv unit :=
  modify (fun s => {| _mandates := _mandates s; _reservations := _reservations s;
                      _reservation_keys := k |}).

Definition register_mandate (mandate_id : string) (total_budget spent_total reserved_total : pyval)
    (txn_count_period : Z) (status : string) : rsv unit :=
  b <- lift (_decimal total_budget) ;;
  sp <- lift (_decimal spent_total) ;;
  re <- lift (_decimal reserved_total) ;;
  s <- get ;;
  set_mandates (dset mandate_id
    {| ms_total_budget := b; ms_spent_total := sp; ms_reserved_total := re;
       ms_txn_count := txn_count_period; ms_status := status |} (_mandates s)).

Definition with_reserved (m : MandateState) (reserved : dec) (n : Z) : MandateState :=
  {| ms_total_budget := ms_total_budget m; ms_spent_total := ms_spent_total m;
     ms_reserved_total := reserved; ms_txn_count := n; ms_status := ms_status m |}.

Definition new_state (budget : dec) : MandateState :=
  {| ms_total_budget := budget; ms_spent_total := cents 0; ms_reserved_total := cents 0;
     ms_txn_count := 0; ms_status := "active" |}.

(** [existing == (mandate_id, candidate)] *)
Definition same_reservation (existing : string * dec) (mandate_id : string) (candidate : dec) : bool :=
  String.eqb existing.1 mandate_id && deq existing.2 candidate.

(** The part of [reserve] after the replay check. *)
Definition reserve_new (mandate_id : string) (candidate budget : dec) (max_txn_count : option Z)
    (reservation_id reservation_key : option string) (uuid : string) : rsv (option string) :=
  s <- get ;;
  set_mandates (dsetdefault mandate_id (new_state budget) (_mandates s)) ;;;
  let state := override (dget mandate_id (_mandates s)) (new_state budget) in
  if negb (String.eqb (ms_status state) "active") then ret None
  else
    used <- lift (dadd (ms_spent_total state) (ms_reserved_total state)) ;;
    total <- lift (dadd used candidate) ;;
    over <- lift (dgt total (ms_total_budget state)) ;;
    if (over : bool) then ret None
    else if (match max_txn_count with Some n => n <? ms_txn_count state + 1 | None => false end) then ret None
    else
      let identifier := override (or_str reservation_id None) uuid in
      match dget identifier (_reservations s) with
      | Some existing =>
          ret (if same_reservation existing mandate_id candidate then Some identifier else None)
      | None =>
          reserved <- lift (dadd (ms_reserved_total state) candidate) ;;
          s <- get ;;
          set_mandates (dset mandate_id (with_reserved state reserved (ms_txn_count state + 1)) (_mandates s)) ;;;
          set_reservations (dset identifier (mandate_id, candidate) (_reservations s)) ;;;
          match reservation_key with
          | Some k => set_keys (dset k identifier (_reservation_keys s))
          | None => ret ()
          end ;;;
          ret (Some identifier)
      end.

Definition reserve (mandate_id : string) (amount total_budget : pyval) (max_txn_count : option Z)
    (reservation_id reservation_key : option string) (uuid : string) : rsv (option string) :=
  candidate <- lift (_decimal amount) ;;
  budget <- lift (_decimal total_budget) ;;
  s <- get ;;
  match (match reservation_key with Some k => dget k (_reservation_keys s) | None => None end) with
  | Some existing_id =>
      ret (match dget existing_id (_reservations s) with
           | Some existing => if same_reservation existing mandate_id candidate then Some existing_id else None
           | None => None
           end)
  | None => reserve_new mandate_id candidate budget max_txn_count reservation_id reservation_key uuid
  end.

(** The keys that name a reservation are forgotten with it. *)
Definition drop_keys (reservation_id : string) (k : dict string string) : dict string string :=
  List.filter (fun kv => negb (String.eqb kv.2 reservation_id)) k.

(** The budget part of [release], for the amount to give back. *)
Definition give_back (mandate_id : string) (candidate : dec) : rsv bool :=
  s <- get ;;
  match dget mandate_id (_mandates s) with
  | None => ret false
  | Some state =>
      short <- lift (dlt (ms_reserved_total state) candidate) ;;
      if (short : bool) then ret false
      else
        reserved <- lift (dsub (ms_reserved_total state) candidate) ;;
        set_mandates (dset mandate_id
          (with_reserved state reserved (Z.max 0 (ms_txn_count state - 1))) (_mandates s)) ;;;
        ret true
  end.

Definition release (mandate_id : string) (amount : pyval) (reservation_id : option string) : rsv bool :=
  candidate <- lift (_decimal amount) ;;
  match reservation_id with
  | None => give_back mandate_id candidate
  | Some rid =>
      s <- get ;;
      set_reservations (ddel rid (_reservations s)) ;;;
      match dget rid (_reservations s) with
      | None => ret false
      | Some stored =>
          if negb (String.eqb stored.1 mandate_id) then ret false
          else
            set_keys (drop_keys rid (_reservation_keys s)) ;;;
            give_back mandate_id stored.2
      end
  end.

(** ** The coordinator *)

Record ReservationResult : Type :=
  { rr_reservation_id : string; rr_mandate_id : string; rr_amount : dec }.

Definition coordinator_reserve (mandate_id : string) (amount total_budget : pyval)
    (max_txn_count : option Z) (reservation_id : option string) (uuid : string) : rsv ReservationResult :=
  result <- reserve mandate_id amount total_budget max_txn_count reservation_id None uuid ;;
  match or_str result None with
  | None => raise ReservationRejected
  | Some rid =>
      d <- lift (decimal_of_string (py_str amount)) ;;
      ret {| rr_reservation_id := rid; rr_mandate_id := mandate_id; rr_amount := d |}
  end.

Definition reserve_atomically := coordinator_reserve.

(** ** The store over integer amounts *)

(** A mandate's amounts in cents. *)
Definition holds (m : MandateState) (b sp r : Z) : Prop :=
  ms_total_budget m = cents b /\ ms_spent_total m = cents sp /\ ms_reserved_total m = cents r /\
  small b /\ small sp /\ small r.

Lemma decimal_cents_text c : small c -> _decimal (VStr (cents_text c)) = Ok (cents c).
Proof. intros H. by apply amount_decimal_text, small_max. Qed.

Lemma decimal_cents c : small c -> _decimal (VDec (cents c)) = Ok (cents c).
Proof. intros H. by apply amount_decimal_cents, small_max. Qed.

Lemma same_reservation_cents m1 c1 m2 c2 :
  same_reservation (m1, cents c1) m2 (cents c2) = String.eqb m1 m2 && (c1 =? c2).
Proof. unfold same_reservation. cbn [fst snd]. by rewrite deq_cents. Qed.

Definition admits (m : MandateState) (b sp r c : Z) (max_txn_count : option Z) : bool :=
  String.eqb (ms_status m) "active" && (sp + r + c <=? b)
  && match max_txn_count with Some n => ms_txn_count m + 1 <=? n | None => true end.

(** The store after a granted reservation. *)
Definition granted (s : InMemoryReservationStore) (mid : string) (m : MandateState) (r c : Z)
    (rid : string) (key : option string) : InMemoryReservationStore :=
  {| _mandates := dset mid (with_reserved m (cents (r + c)) (ms_txn_count m + 1)) (_mandates s);
     _reservations := dset rid (mid, cents c) (_reservations s);
     _reservation_keys := match key with Some k => dset k rid (_reservation_keys s)
                                       | None => _reservation_keys s end |}.

Definition with_mandate (s : InMemoryReservationStore) (mid : string) (m : MandateState) :=
  {| _mandates := dsetdefault mid m (_mandates s); _reservations := _reservations s;
     _reservation_keys := _reservation_keys s |}.

Lemma reserve_new_exact s mid c b max rid key uuid bm sp r
    (m := override (dget mid (_mandates s)) (new_state (cents b)))
    (id := override (or_str rid None) uuid) :
  holds m bm sp r -> small c ->
  (forall e, dget id (_reservations s) = Some e -> exists mid' c', e = (mid', cents c')) ->
  reserve_new mid (cents c) (cents b) max rid key uuid s =
  let s0 := with_mandate s mid (new_state (cents b)) in
  if admits m bm sp r c max then
    match dget id (_reservations s) with
    | Some e => (Ok (if same_reservation e mid (cents c) then Some id else None), s0)
    | None => (Ok (Some id), granted s0 mid m r c id key)
    end
  else (Ok None, s0).
Proof.
  intros (Eb & Es & Er & Hb & Hs & Hr) Hc Hres. unfold reserve_new, admits.
  unfold sbind, get, lift, ret, set_mandates, set_reservations, set_keys, modify. fold m.
  destruct (String.eqb (ms_status m) "active"); cbn [negb andb]; [|done].
  pose proof max_coef_value. unfold small in *.
  rewrite Es, Er, Eb, !dadd_small by lia. unfold dgt. rewrite dlt_cents.
  destruct (Z.ltb_spec bm (sp + r + c)), (Z.leb_spec (sp + r + c) bm); try lia; [done|].
  cbn [andb].
  assert ((match max with Some n => n <? ms_txn_count m + 1 | None => false end) =
          negb (match max with Some n => ms_txn_count m + 1 <=? n | None => true end)) as ->.
  { destruct max as [n|]; [|done]. by rewrite Z.ltb_antisym. }
  destruct (match max with Some n => _ | None => true end); cbn [negb]; [|done]. fold id.
  cbn [_reservations]. destruct (dget id (_reservations s)) as [e|] eqn:Ee; [done|].
  by destruct key.
Qed.

(** [reserve] of a canonical amount: a known key replays its reservation when
    mandate and amount are the same and refuses otherwise; else the budget, the
    status and the transaction count decide. *)
Lemma reserve_exact s mid c b max rid key uuid bm sp r
    (m := override (dget mid (_mandates s)) (new_state (cents b)))
    (id := override (or_str rid None) uuid) :
  holds m bm sp r -> small c -> small b ->
  (forall k e, dget k (_reservations s) = Some e -> exists mid' c', e = (mid', cents c')) ->
  reserve mid (VStr (cents_text c)) (VDec (cents b)) max rid key uuid s =
  match (match key with Some k => dget k (_reservation_keys s) | None => None end) with
  | Some e => (Ok (match dget e (_reservations s) with
                   | Some x => if same_reservation x mid (cents c) then Some e else None
                   | None => None end), s)
  | None =>
      let s0 := with_mandate s mid (new_state (cents b)) in
      if admits m bm sp r c max then
        match dget id (_reservations s) with
        | Some e => (Ok (if same_reservation e mid (cents c) then Some id else None), s0)
        | None => (Ok (Some id), granted s0 mid m r c id key)
        end
      else (Ok None, s0)
  end.
Proof.
  intros Hm Hc Hb Hres. unfold reserve, sbind, lift, get.
  rewrite decimal_cents_text, decimal_cents by done.
  destruct (match key with Some k => _ | None => None end) as [e|].
  - by destruct (dget e (_reservations s)) as [x|].
  - apply reserve_new_exact; try done. intros e He. by eapply Hres.
Qed.

(** ** Safety of the budget *)

(** The amount held by the live reservations of a mandate. *)
Definition held (mid : string) (s : InMemoryReservationStore) : Z :=
  dsum_of (fun _ v => if String.eqb v.1 mid then coef_of v.2 else 0) (_reservations s).

#[global] Arguments held : simpl never.

(** Amounts are normalised, no mandate exceeds its budget, and what a mandate
    has reserved covers its live reservations. *)
Record rsv_ok (s : InMemoryReservationStore) : Prop := {
  rsv_dicts : dict_ok (_mandates s) /\ dict_ok (_reservations s);
  rsv_mandates : forall mid m, dget mid (_mandates s) = Some m ->
    exists b sp r, holds m b sp r /\ sp + r <= b /\ held mid s <= r;
  rsv_reservations : forall rid v, dget rid (_reservations s) = Some v ->
    exists c, v.2 = cents c /\ small c;
  rsv_known : forall mid, dget mid (_mandates s) = None -> held mid s = 0;
}.

Inductive rsv_op : Type :=
| RReserve (mid : string) (c b : Z) (max_txn : option Z) (rid key : option string) (uuid : string)
| RRelease (mid : string) (c : Z) (rid : string).

Definition rsv_op_ok (o : rsv_op) : Prop :=
  match o with
  | RReserve _ c b _ _ _ _ => small c /\ small b
  | RRelease _ c _ => small c
  end.

Definition rsv_step (o : rsv_op) (s : InMemoryReservationStore) : InMemoryReservationStore :=
  match o with
  | RReserve mid c b mx rid key uuid =>
      exec (reserve mid (VStr (cents_text c)) (VDec (cents b)) mx rid key uuid) s
  | RRelease mid c rid => exec (release mid (VStr (cents_text c)) (Some rid)) s
  end.

Definition rsv_run (ops : list rsv_op) (s : InMemoryReservationStore) : InMemoryReservationStore :=
  fold_left (fun s o => rsv_step o s) ops s.

Lemma rsv_reservation_shape s : rsv_ok s ->
  forall k e, dget k (_reservations s) = Some e -> exists mid' c', e = (mid', cents c').
Proof.
  intros H k [mid d] He. destruct (rsv_reservations s H k _ He) as (c & Hc & _). cbn in Hc. subst. eauto.
Qed.

Lemma dget_setdefault {K V} `{EqDecision K} (k k' : K) (v : V) d :
  dget k' (dsetdefault k v d) = if decide (k' = k) then Some (override (dget k d) v) else dget k' d.
Proof.
  unfold dsetdefault. destruct (decide (k' = k)) as [->|].
  - destruct (dget k d) eqn:E; [done|]. by rewrite dget_dset.
  - destruct (dget k d); [done|]. by rewrite dget_dset_ne.
Qed.

Lemma dsetdefault_ok {K V} `{EqDecision K} (k : K) (v : V) d : dict_ok d -> dict_ok (dsetdefault k v d).
Proof. unfold dsetdefault. destruct (dget k d); [done|]. apply dset_ok. Qed.

(** The state a mandate is given on first use is a good one. *)
Lemma default_mandate s mid b : rsv_ok s -> small b ->
  exists bm sp r, holds (override (dget mid (_mandates s)) (new_state (cents b))) bm sp r /\
    sp + r <= bm /\ held mid s <= r.
Proof.
  intros H Hb. destruct (dget mid (_mandates s)) as [m|] eqn:E; [by apply (rsv_mandates s H)|].
  exists b, 0, 0. rewrite (rsv_known s H mid E). unfold holds, small in *. cbn.
  split_and!; try done; lia.
Qed.

Lemma with_mandate_ok s mid b : rsv_ok s -> small b -> rsv_ok (with_mandate s mid (new_state (cents b))).
Proof.
  intros H Hb. split; cbn.
  - split; [apply dsetdefault_ok, H|apply H].
  - intros mid' m. rewrite dget_setdefault. destruct (decide (mid' = mid)) as [->|].
    + intros [= <-]. destruct (default_mandate s mid b H Hb) as (bm & sp & r & ?). by exists bm, sp, r.
    + intros E. by apply (rsv_mandates s H).
  - apply H.
  - intros mid'. rewrite dget_setdefault. destruct (decide (mid' = mid)); [done|]. apply (rsv_known s H).
Qed.

Lemma held_granted s mid m r c rid key mid' :
  dget rid (_reservations s) = None ->
  held mid' (granted s mid m r c rid key) = held mid' s + (if String.eqb mid mid' then c else 0).
Proof.
  intros H. unfold held, granted. cbn [_reservations]. rewrite dsum_of_dset, H. cbn [fst snd coef_of cents].
  unfold cents. destruct (String.eqb mid mid'); lia.
Qed.

Lemma granted_ok s mid m b sp r c rid key :
  rsv_ok s -> dget mid (_mandates s) = Some m -> holds m b sp r -> small c -> sp + r + c <= b ->
  held mid s <= r -> dget rid (_reservations s) = None ->
  rsv_ok (granted s mid m r c rid key).
Proof.
  intros H Em (Eb & Es & Er & Hb & Hs & Hr) Hc Hle Hheld Hfresh.
  pose proof (fun mid' => held_granted s mid m r c rid key mid' Hfresh) as Hg.
  unfold granted in *. split; cbn [_mandates _reservations _reservation_keys].
  - split; apply dset_ok, H.
  - intros mid' m'. rewrite Hg. destruct (decide (mid = mid')) as [<-|Hn].
    + rewrite dget_dset, String.eqb_refl. intros [= <-]. exists b, sp, (r + c).
      unfold holds, small in *. cbn. split_and!; try done; lia.
    + rewrite dget_dset_ne, (proj2 (String.eqb_neq mid mid')) by done. rewrite Z.add_0_r.
      by apply (rsv_mandates s H).
  - intros rid' v. destruct (decide (rid = rid')) as [<-|Hn].
    + rewrite dget_dset. intros [= <-]. by exists c.
    + rewrite dget_dset_ne by done. apply (rsv_reservations s H).
  - intros mid'. rewrite Hg. destruct (decide (mid = mid')) as [<-|Hn].
    + by rewrite dget_dset.
    + rewrite dget_dset_ne, (proj2 (String.eqb_neq mid mid')) by done. rewrite Z.add_0_r.
      apply (rsv_known s H).
Qed.

Lemma held_le_elem s rid mid c : rsv_ok s -> dget rid (_reservations s) = Some (mid, cents c) -> 0 <= c.
Proof.
  intros H E. destruct (rsv_reservations s H rid _ E) as (c' & Hc & Hs). cbn in Hc.
  injection Hc as ->. apply Hs.
Qed.

(** Forgetting a reservation lowers what its mandate holds and nothing else. *)
Definition without (s : InMemoryReservationStore) (rid : string) (keys : dict string string) :=
  {| _mandates := _mandates s; _reservations := ddel rid (_reservations s); _reservation_keys := keys |}.

Lemma held_without s rid keys mid :
  held mid (without s rid keys) =
  held mid s - match dget rid (_reservations s) with
               | Some v => if String.eqb v.1 mid then coef_of v.2 else 0
               | None => 0
               end.
Proof. unfold held, without. cbn [_reservations]. by rewrite dsum_of_ddel. Qed.

Lemma sum_nonneg mid (rs : dict string (string * dec)) :
  dict_ok rs -> (forall rid v, dget rid rs = Some v -> exists c, v.2 = cents c /\ small c) ->
  0 <= dsum_of (fun _ v => if String.eqb v.1 mid then coef_of v.2 else 0) rs.
Proof.
  intros Hd Hr. induction rs as [|[k v] rs IH]; [cbn; lia|]. apply NoDup_cons in Hd as [Hk Hd].
  assert (0 <= dsum_of (fun _ v => if String.eqb v.1 mid then coef_of v.2 else 0) rs) as Hrs.
  { apply IH; [done|]. intros rid w E. apply (Hr rid w). cbn. destruct (decide (rid = k)) as [->|]; [|done].
    exfalso. apply Hk. apply dget_elem_of in E. apply list_elem_of_fmap. by exists (k, w). }
  destruct (Hr k v) as (c & Hc & Hs); [cbn; by rewrite decide_True|].
  unfold dsum_of in *. cbn [fold_right fst snd]. rewrite Hc. unfold small, cents in *. cbn [coef_of].
  destruct (String.eqb v.1 mid); lia.
Qed.

Lemma without_ok s rid keys : rsv_ok s -> rsv_ok (without s rid keys).
Proof.
  intros H. assert (Hsub : forall rid' v, dget rid' (ddel rid (_reservations s)) = Some v ->
      dget rid' (_reservations s) = Some v).
  { intros rid' v. destruct (decide (rid = rid')) as [<-|]; [|by rewrite dget_ddel_ne].
    by rewrite dget_ddel by apply H. }
  assert (Hle : forall mid, 0 <= held mid (without s rid keys) <= held mid s).
  { intros mid. split.
    - apply sum_nonneg; [apply ddel_ok, H|]. intros rid' v E. by apply (rsv_reservations s H rid'), Hsub.
    - rewrite held_without. destruct (dget rid (_reservations s)) as [v|] eqn:E; [|lia].
      destruct (rsv_reservations s H rid v E) as (c & -> & Hc). unfold small, cents in *. cbn [coef_of].
      destruct (String.eqb v.1 mid); lia. }
  split; cbn [without _mandates _reservations]; fold (without s rid keys).
  - split; [apply H|apply ddel_ok, H].
  - intros mid m E. destruct (rsv_mandates s H mid m E) as (b & sp & r & Hm & Hb & Hh).
    exists b, sp, r. specialize (Hle mid). split; [done|]. split; [done|]. lia.
  - intros rid' v E. by apply (rsv_reservations s H rid'), Hsub.
  - intros mid E. pose proof (rsv_known s H mid E). specialize (Hle mid). lia.
Qed.

(** The mandate's amount given back. *)
Definition returned (s : InMemoryReservationStore) (mid : string) (m : MandateState) (r c : Z) :=
  {| _mandates := dset mid (with_reserved m (cents (r - c)) (Z.max 0 (ms_txn_count m - 1))) (_mandates s);
     _reservations := _reservations s; _reservation_keys := _reservation_keys s |}.

Lemma give_back_exact s mid m b sp r c :
  dget mid (_mandates s) = Some m -> holds m b sp r -> small c ->
  give_back mid (cents c) s = if r <? c then (Ok false, s) else (Ok true, returned s mid m r c).
Proof.
  intros E (Eb & Es & Er & Hb & Hs & Hr) Hc. unfold give_back, sbind, get, lift, ret, set_mandates, modify.
  rewrite E, Er, dlt_cents. destruct (Z.ltb_spec r c); [done|].
  pose proof max_coef_value. unfold small in *. by rewrite dsub_cents by lia.
Qed.

(** [release] of a named reservation, by cases. *)
Lemma release_exact s mid c rid : small c ->
  release mid (VStr (cents_text c)) (Some rid) s =
  match dget rid (_reservations s) with
  | None => (Ok false, without s rid (_reservation_keys s))
  | Some v =>
      if String.eqb v.1 mid then
        give_back mid v.2 (without s rid (drop_keys rid (_reservation_keys s)))
      else (Ok false, without s rid (_reservation_keys s))
  end.
Proof.
  intros Hc. unfold release, sbind, lift, get, set_reservations, set_keys, modify, ret.
  rewrite decimal_cents_text by done. destruct (dget rid (_reservations s)) as [v|]; [|done].
  by destruct (String.eqb v.1 mid).
Qed.

Lemma rsv_step_ok o s : rsv_op_ok o -> rsv_ok s -> rsv_ok (rsv_step o s).
Proof.
  intros Ho H. destruct o as [mid c b mx rid key uuid|mid c rid]; cbn [rsv_step]; unfold exec.
  - destruct Ho as [Hc Hb]. destruct (default_mandate s mid b H Hb) as (bm & sp & r & Hm & Hle & Hh).
    rewrite (reserve_exact s mid c b mx rid key uuid bm sp r) by (done || apply (rsv_reservation_shape s H)).
    destruct (match key with Some k => _ | None => None end); [done|]. cbn zeta.
    set (m := override (dget mid (_mandates s)) _) in *. set (id := override _ uuid).
    pose proof (with_mandate_ok s mid b H Hb) as H0.
    destruct (admits m bm sp r c mx) eqn:Ea; [|done].
    destruct (dget id (_reservations s)) eqn:Ei; [by destruct (same_reservation _ _ _)|].
    unfold admits in Ea. bool_prop. apply (granted_ok _ mid m bm sp r); try done.
    cbn. rewrite dget_setdefault. by rewrite decide_True.
  - rewrite release_exact by done. destruct (dget rid (_reservations s)) as [v|] eqn:E; [|by apply without_ok].
    destruct (String.eqb_spec v.1 mid) as [Hv|]; [|by apply without_ok].
    destruct (rsv_reservations s H rid v E) as (cv & Ev & Hcv). rewrite Ev.
    set (s' := without s rid (drop_keys rid (_reservation_keys s))).
    assert (H' : rsv_ok s') by (by apply without_ok).
    destruct (dget mid (_mandates s')) as [m|] eqn:Em.
    2: { unfold give_back, sbind, get, ret. by rewrite Em. }
    destruct (rsv_mandates s H mid m Em) as (b & sp & r & Hm & Hle & Hh).
    rewrite (give_back_exact s' mid m b sp r) by done.
    destruct (Z.ltb_spec r cv); [done|]. cbn [snd].
    assert (held mid s' = held mid s - cv) as Hheld.
    { unfold s'. rewrite held_without, E, Ev, Hv, String.eqb_refl. done. }
    destruct Hm as (Eb & Es & Er & Hb & Hs & Hr).
    assert (Hh' : forall mid', held mid' (returned s' mid m r cv) = held mid' s') by done.
    split; cbn [returned _mandates _reservations]; fold (returned s' mid m r cv).
    + split; [apply dset_ok, H'|apply H'].
    + intros mid' m'. destruct (decide (mid = mid')) as [<-|Hn].
      * rewrite dget_dset. intros [= <-]. exists b, sp, (r - cv). unfold holds, small in *. cbn.
        rewrite Hh'. split_and!; try done; lia.
      * rewrite dget_dset_ne by done. apply (rsv_mandates s' H').
    + apply (rsv_reservations s' H').
    + intros mid'. destruct (decide (mid = mid')) as [<-|Hn]; [by rewrite dget_dset|].
      rewrite dget_dset_ne by done. apply (rsv_known s' H').
Qed.

(** No sequence of reservations and releases, in any order and with any ids,
    lets a mandate exceed its budget: spent plus reserved stays within it, and
    the reserved total always covers the live reservations. *)
Theorem budget_never_exceeded (ops : list rsv_op) (s : InMemoryReservationStore) :
  rsv_ok s -> Forall rsv_op_ok ops ->
  rsv_ok (rsv_run ops s) /\
  forall mid m, dget mid (_mandates (rsv_run ops s)) = Some m ->
    exists b sp r, holds m b sp r /\ sp + held mid (rsv_run ops s) <= sp + r <= b.
Proof.
  intros H Hops. assert (rsv_ok (rsv_run ops s)) as Hok.
  { revert s H. induction Hops as [|o ops Ho _ IH]; intros s H; [done|]. by apply IH, rsv_step_ok. }
  split; [done|]. intros mid m E. destruct (rsv_mandates _ Hok mid m E) as (b & sp & r & Hm & Hb & Hh).
  exists b, sp, r. split; [done|]. lia.
Qed.

(** A repeated reservation under the same key returns the same id and reserves
    nothing more; with another amount or mandate it is refused. *)
Theorem reserve_replay (s : InMemoryReservationStore) (mid mid' : string) (c c' b : Z)
    (max : option Z) (rid key uuid uuid' : string) :
  rsv_ok s -> small c -> small c' -> small b -> rid <> ""%string ->
  dget key (_reservation_keys s) = None -> dget rid (_reservations s) = None ->
  outcome (reserve mid (VStr (cents_text c)) (VDec (cents b)) max (Some rid) (Some key) uuid) s = Ok (Some rid) ->
  let s1 := exec (reserve mid (VStr (cents_text c)) (VDec (cents b)) max (Some rid) (Some key) uuid) s in
  reserve mid' (VStr (cents_text c')) (VDec (cents b)) max (Some rid) (Some key) uuid' s1
  = (Ok (if String.eqb mid mid' && (c =? c') then Some rid else None), s1).
Proof.
  intros H Hc Hc' Hb Hrid Hk Hr Hout s1.
  assert (Hid : forall u, override (or_str (Some rid) None) u = rid) by (intros u; by destruct rid).
  destruct (default_mandate s mid b H Hb) as (bm & sp & r & Hm & _ & _).
  assert (Hs1 : s1 = granted (with_mandate s mid (new_state (cents b))) mid
                       (override (dget mid (_mandates s)) (new_state (cents b))) r c rid (Some key)).
  { unfold s1, outcome, exec in *.
    rewrite (reserve_exact s mid c b max (Some rid) (Some key) uuid bm sp r) in * by
      (done || apply (rsv_reservation_shape s H)).
    rewrite Hk, Hid, Hr in *. by destruct (admits _ _ _ _ _ _). }
  clearbody s1. subst s1. set (s0 := with_mandate _ _ _). set (m := override _ _) in *.
  unfold reserve, sbind, lift, get. rewrite decimal_cents_text, decimal_cents by done.
  cbn [_reservation_keys granted]. rewrite dget_dset. cbn [_reservations granted]. rewrite dget_dset.
  unfold ret. by rewrite same_reservation_cents.
Qed.

(** Releasing a reservation gives back exactly what it took: the store is as it
    was before the reservation. *)
Theorem release_undoes_reserve (s : InMemoryReservationStore) (mid : string) (m : MandateState)
    (c b : Z) (max : option Z) (rid key uuid : string) :
  rsv_ok s -> small c -> small b -> rid <> ""%string ->
  dget mid (_mandates s) = Some m -> 0 <= ms_txn_count m ->
  dget key (_reservation_keys s) = None -> dget rid (_reservations s) = None ->
  drop_keys rid (_reservation_keys s) = _reservation_keys s ->
  outcome (reserve mid (VStr (cents_text c)) (VDec (cents b)) max (Some rid) (Some key) uuid) s = Ok (Some rid) ->
  release mid (VStr (cents_text c)) (Some rid)
    (exec (reserve mid (VStr (cents_text c)) (VDec (cents b)) max (Some rid) (Some key) uuid) s)
  = (Ok true, s).
Proof.
  intros H Hc Hb Hrid Em Hn Hk Hr Hdrop Hout.
  assert (Hid : forall u, override (or_str (Some rid) None) u = rid) by (intros u; by destruct rid).
  destruct (rsv_mandates s H mid m Em) as (bm & sp & r & Hm & Hle & Hh).
  assert (Hs : with_mandate s mid (new_state (cents b)) = s).
  { destruct s as [ms rs ks]. unfold with_mandate, dsetdefault. cbn in *. by rewrite Em. }
  unfold outcome, exec in *.
  rewrite (reserve_exact s mid c b max (Some rid) (Some key) uuid bm sp r) in * by
    (done || (by rewrite Em) || apply (rsv_reservation_shape s H)).
  rewrite Hk, Hid, Hr, Em, Hs in *. cbn [override] in *.
  destruct (admits m bm sp r c max) eqn:Ea; [|done]. cbn [snd fst] in *.
  rewrite release_exact by done. cbn [_reservations granted]. rewrite dget_dset. cbn [fst snd].
  rewrite String.eqb_refl. set (s' := without _ _ _).
  assert (Em' : dget mid (_mandates s') = Some (with_reserved m (cents (r + c)) (ms_txn_count m + 1)))
    by apply dget_dset.
  unfold admits in Ea. bool_prop. destruct Hm as (Eb & Es & Er & Hsb & Hss & Hsr).
  rewrite (give_back_exact s' mid (with_reserved m (cents (r + c)) (ms_txn_count m + 1)) bm sp (r + c)); [|done|unfold holds, small in *; cbn; split_and!; try done; lia|done].
  unfold small in Hc. destruct (Z.ltb_spec (r + c) c) as [Hlt|_]; [unfold small in *; lia|].
  f_equal. unfold returned, s', without, granted. destruct s as [ms rs ks]. cbn in *.
  rewrite dset_dset, ddel_dset_fresh by done. f_equal.
  - transitivity (dset mid m ms); [|by apply dset_same]. f_equal. destruct m as [mb msp mr n st]. cbn in *.
    unfold with_reserved. cbn. rewrite Er. f_equal; [f_equal; lia|lia].
  - clear - Hdrop Hk. unfold drop_keys in *.
    induction ks as [|[k v] ks IH]; cbn in *; [by rewrite String.eqb_refl|].
    destruct (decide (key = k)); [done|]. cbn.
    destruct (String.eqb v rid); cbn in *.
    + exfalso. assert (List.length (List.filter (fun kv : string * string => negb (String.eqb kv.2 rid)) ks)
                        <= List.length ks)%nat by apply List.filter_length_le.
      rewrite Hdrop in *. cbn in *. lia.
    + f_equal. apply IH; [done|]. congruence.
Qed.

(** Releasing with the wrong mandate loses the reservation: it is forgotten
    while its amount stays reserved, so no later release can give it back. *)
Theorem release_wrong_mandate_leaks (s : InMemoryReservationStore) (mid other : string) (c c' : Z)
    (rid : string) :
  rsv_ok s -> small c' -> dget rid (_reservations s) = Some (mid, cents c) -> other <> mid ->
  let s1 := exec (release other (VStr (cents_text c')) (Some rid)) s in
  outcome (release other (VStr (cents_text c')) (Some rid)) s = Ok false /\
  _mandates s1 = _mandates s /\ held mid s1 = held mid s - c /\
  release mid (VStr (cents_text c')) (Some rid) s1 = (Ok false, s1).
Proof.
  intros H Hc E Hn. unfold outcome, exec. rewrite !release_exact by done. rewrite E. cbn [fst].
  rewrite (proj2 (String.eqb_neq mid other)) by done. cbn [fst snd].
  split; [done|]. split; [done|]. split.
  - by rewrite held_without, E, String.eqb_refl.
  - cbn [_reservations without]. rewrite dget_ddel by apply H. f_equal. unfold without. cbn. f_equal.
    assert (forall d : dict string (string * dec), dget rid d = None -> ddel rid d = d) as Hdel.
    { induction d as [|[k v] d IH]; cbn; [done|]. destruct (decide (rid = k)); [done|]. intros Hd. by rewrite IH. }
    apply Hdel, dget_ddel, H.
Qed.

(** ** A concrete store *)

(** One mandate with a budget of 500.00, 120.00 spent and nothing reserved. *)
Definition demo_state : MandateState :=
  {| ms_total_budget := cents 50000; ms_spent_total := cents 12000; ms_reserved_total := cents 0;
     ms_txn_count := 0; ms_status := "active" |}.
Definition demo_rsv : InMemoryReservationStore :=
  {| _mandates := [("m"%string, demo_state)]; _reservations := []; _reservation_keys := [] |}.

Lemma demo_registered :
  exec (register_mandate "m" (VStr "500.00") (VStr "120.00") (VStr "0.00") 0 "active")
    {| _mandates := []; _reservations := []; _reservation_keys := [] |} = demo_rsv.
Proof. reflexivity. Qed.

Lemma demo_rsv_ok : rsv_ok demo_rsv.
Proof.
  split; cbn [demo_rsv _mandates _reservations].
  - split; apply (bool_decide_eq_true_1 _); reflexivity.
  - intros mid m. cbn. destruct (decide (mid = "m"%string)) as [->|]; [|done]. intros [= <-].
    exists 50000, 12000, 0. unfold holds, small. cbn. change (held "m" demo_rsv) with 0.
    split_and!; try done; lia.
  - done.
  - done.
Qed.

Definition demo_rsv_ops : list rsv_op :=
  [RReserve "m" 30000 50000 None (Some "r1"%string) (Some "p1"%string) "u";
   RReserve "m" 30000 50000 None (Some "r2"%string) (Some "p2"%string) "u";
   RRelease "m" 30000 "r1"].

Lemma budget_never_exceeded_witness : rsv_ok (rsv_run demo_rsv_ops demo_rsv).
Proof.
  apply (budget_never_exceeded demo_rsv_ops demo_rsv); [apply demo_rsv_ok|].
  repeat constructor; unfold small; lia.
Defined.

Lemma reserve_replay_witness :
  exists s1, reserve "m" (VStr "42.50") (VDec (cents 50000)) None (Some "r1"%string) (Some "p1"%string) "v" s1
             = (Ok (Some "r1"%string), s1).
Proof.
  eexists.
  apply (reserve_replay demo_rsv "m" "m" 4250 4250 50000 None "r1" "p1" "u" "v");
    try apply demo_rsv_ok; try (unfold small; lia); try reflexivity; discriminate.
Defined.

Lemma release_undoes_reserve_witness :
  release "m" (VStr "42.50") (Some "r1"%string)
    (exec (reserve "m" (VStr "42.50") (VDec (cents 50000)) None (Some "r1"%string) (Some "p1"%string) "u") demo_rsv)
  = (Ok true, demo_rsv).
Proof.
  apply (release_undoes_reserve demo_rsv "m" demo_state 4250 50000 None "r1" "p1" "u");
    try apply demo_rsv_ok; try (unfold small; lia); try reflexivity; try discriminate.
Defined.

Definition demo_reserved : InMemoryReservationStore :=
  rsv_run [RReserve "m" 30000 50000 None (Some "r1"%string) (Some "p1"%string) "u"] demo_rsv.

Lemma release_wrong_mandate_leaks_witness :
  exists s1, release "m" (VStr "300.00") (Some "r1"%string) s1 = (Ok false, s1) /\
    _mandates s1 = _mandates demo_reserved.
Proof.
  assert (rsv_ok demo_reserved) as Hok.
  { apply rsv_step_ok; [split; unfold small; lia|apply demo_rsv_ok]. }
  destruct (release_wrong_mandate_leaks demo_reserved "m" "n" 30000 30000 "r1" Hok
    ltac:(unfold small; lia) ltac:(reflexivity) ltac:(discriminate)) as (_ & Hm & _ & Hr).
  eexists. split; [exact Hr|exact Hm].
Defined.
