(* ===== verification/Idempotency.v ===== *)
(** Derived idempotency (R-IDEM): the key derivation, the request fingerprint
    and the record of src/src/api/domain/idempotency.py, the in-memory store of
    src/src/api/decision/repository_memory.py and the claim of
    src/src/api/decision/idempotency.py.  Timestamps that the store takes from
    the wall clock, and the uuid4 claim token, are arguments. *)
From S2P Require Import Prelude PyTime Decimal Sha256 Json Models.

Definition IDEMPOTENCY_TTL : Z := days 45.

(** ** Key and fingerprint *)

Definition _secret_bytes (secret : string) : res string :=
  if truthy_str secret then Ok secret else Raise ValueError.

Definition derive_idempotency_key (jti secret : string) : res string :=
  if negb (truthy_str jti) then Raise ValueError
  else let? key := _secret_bytes secret in Ok (hmac_hex key jti).

Definition idem_key := derive_idempotency_key.
Definition idempotency_key := derive_idempotency_key.

Definition _json_default : json_default :=
  {| default_dec := fun d => Ok (JStr (dec_fmt_f d));
     default_time := fun t =>
       match t with Aware us => Ok (JStr (isoformat_z us)) | Naive _ => Raise TypeError end;
     default_float := dumps_float |}.

Definition canonical_json (value : pyval) : res string := dumps _json_default value.

Definition request_fingerprint (value : pyval) : res string :=
  let? text := canonical_json value in Ok (sha256_hex text).

(** [dataclasses.asdict(intent)], what [_json_default] makes of an intent. *)
Definition intent_value (i : PurchaseIntent) : pyval :=
  VDict [("jti", VStr (i_jti i)); ("mandate_jti", VStr (i_mandate_jti i)); ("agent", VStr (i_agent i));
         ("merchant_id", VStr (i_merchant_id i)); ("offer_id", VStr (i_offer_id i));
         ("amount", VStr (i_amount i)); ("currency", VStr (i_currency i)); ("nonce", VStr (i_nonce i));
         ("iat", i_iat i); ("exp", i_exp i); ("category", opt_str (i_category i));
         ("offer_amount", opt_str (i_offer_amount i)); ("agent_id", opt_str (i_agent_id i))]%string.

(** ** The record *)

Record IdempotencyRecord : Type := {
  r_key : string;
  r_scope : string;
  r_derived_from : string;
  r_request_fingerprint : string;
  r_expires_at : Z;
  r_response : option pydict;
  r_created_at : option Z;
  r_claim_token : option string;
}.

Definition mk_IdempotencyRecord (key scope derived_from fingerprint : string) (expires_at : datetime)
    (response : option pydict) (created_at : option datetime) (claim_token : option string)
    : res IdempotencyRecord :=
  if negb (truthy_str key) || negb (truthy_str scope) || negb (truthy_str derived_from)
  then Raise ValueError
  else
    let? ex := ensure_utc expires_at in
    let? cr := opt_utc created_at in
    if (match cr with Some c => ex <=? c | None => false end) then Raise ValueError
    else Ok {| r_key := key; r_scope := scope; r_derived_from := derived_from;
               r_request_fingerprint := fingerprint; r_expires_at := ex; r_response := response;
               r_created_at := cr; r_claim_token := claim_token |}.

Definition is_expired (record : IdempotencyRecord) (now : Z) : bool := r_expires_at record <=? now.

Definition make_record (jti secret scope : string) (request : pyval) (created_at : datetime)
    (ttl : Z) (response : option pydict) (claim_token : option string) : res IdempotencyRecord :=
  let? created := ensure_utc created_at in
  if ttl <=? 0 then Raise ValueError
  else
    let? key := derive_idempotency_key jti secret in
    let? fingerprint := request_fingerprint request in
    mk_IdempotencyRecord key scope jti fingerprint (Aware (created + ttl)) response
      (Some (Aware created)) claim_token.

(** [hmac.compare_digest] on texts refuses non-ASCII ones. *)
Definition compare_digest (a b : string) : res bool :=
  if ascii_only a && ascii_only b then Ok (String.eqb a b) else Raise TypeError.

Definition validate_reuse (record : IdempotencyRecord) (jti secret scope : string) (request : pyval)
    (now : datetime) : res bool :=
  let? n := ensure_utc now in
  if is_expired record n then Ok false
  else
    let? expected_key := derive_idempotency_key jti secret in
    let? fingerprint := request_fingerprint request in
    if negb (String.eqb (r_key record) expected_key) || negb (String.eqb (r_derived_from record) jti)
       || negb (String.eqb (r_scope record) scope) then Raise IdempotencyConflict
    else
      let? same := compare_digest (r_request_fingerprint record) fingerprint in
      if (same : bool) then Ok true else Raise IdempotencyConflict.

(** ** The in-memory store *)

Record InMemoryIdempotencyStore : Type := {
  store_secret : string;
  _records : gmap string IdempotencyRecord;
}.

Definition with_records (s : InMemoryIdempotencyStore) (m : gmap string IdempotencyRecord)
    : InMemoryIdempotencyStore := {| store_secret := store_secret s; _records := m |}.

Definition idem (A : Type) : Type := st InMemoryIdempotencyStore A.

(** [_utc(now) if now is not None else datetime.now(UTC)] *)
Definition current_time (now : option datetime) (wall : Z) : res Z :=
  match now with Some n => ensure_utc n | None => Ok wall end.

(** The body of [reserve] under the lock. *)
Definition reserve_locked (record : IdempotencyRecord) (current : Z) : idem IdempotencyRecord :=
  s <- get ;;
  match _records s !! r_key record with
  | None => put (with_records s (<[r_key record := record]> (_records s))) ;;; ret record
  | Some existing =>
      if is_expired existing current then
        put (with_records s (<[r_key record := record]> (_records s))) ;;; ret record
      else if negb (String.eqb (r_scope existing) (r_scope record))
              || negb (String.eqb (r_derived_from existing) (r_derived_from record)) then
        raise IdempotencyConflict
      else
        same <- lift (compare_digest (r_request_fingerprint existing) (r_request_fingerprint record)) ;;
        if (same : bool) then ret existing else raise IdempotencyConflict
  end.

Definition reserve (record : IdempotencyRecord) (now : option datetime) (wall : Z)
    : idem IdempotencyRecord :=
  current <- lift (current_time now wall) ;;
  s <- get ;;
  expected_key <- lift (derive_idempotency_key (r_derived_from record) (store_secret s)) ;;
  same <- lift (compare_digest (r_key record) expected_key) ;;
  if negb same then raise IdempotencyConflict else reserve_locked record current.

Definition reserve_for (jti scope : string) (request : pyval) (created_at : datetime) (ttl : Z)
    (token : string) (wall : Z) : idem IdempotencyRecord :=
  s <- get ;;
  record <- lift (make_record jti (store_secret s) scope request created_at ttl None (Some token)) ;;
  reserve record (Some created_at) wall.

Definition get_record (key : string) (now : option datetime) (wall : Z)
    : idem (option IdempotencyRecord) :=
  current <- lift (current_time now wall) ;;
  s <- get ;;
  match _records s !! key with
  | Some record =>
      if is_expired record current then
        put (with_records s (delete key (_records s))) ;;; ret None
      else ret (Some record)
  | None => ret None
  end.

Definition with_response (r : IdempotencyRecord) (response : pydict) : IdempotencyRecord :=
  {| r_key := r_key r; r_scope := r_scope r; r_derived_from := r_derived_from r;
     r_request_fingerprint := r_request_fingerprint r; r_expires_at := r_expires_at r;
     r_response := Some response; r_created_at := r_created_at r; r_claim_token := r_claim_token r |}.

Definition save_response (key : string) (response : pydict) (now : option datetime) (wall : Z)
    : idem IdempotencyRecord :=
  current <- lift (current_time now wall) ;;
  s <- get ;;
  match _records s !! key with
  | None => raise KeyError
  | Some record =>
      if is_expired record current then
        put (with_records s (delete key (_records s))) ;;; raise KeyError
      else
        match r_response record with
        | Some _ => ret record
        | None =>
            let updated := with_response record response in
            put (with_records s (<[key := updated]> (_records s))) ;;; ret updated
        end
  end.

Definition purge_expired (now : datetime) : idem Z :=
  current <- lift (ensure_utc now) ;;
  s <- get ;;
  let kept := filter (fun kv => is_expired kv.2 current = false) (_records s) in
  put (with_records s kept) ;;;
  ret (Z.of_nat (size (_records s)) - Z.of_nat (size kept)).

(** ** The claim *)

Record IdempotencyClaim : Type := { c_record : IdempotencyRecord; owns_claim : bool }.

(** [reserve(candidate)] is called without [now]: expiry is judged against the
    wall clock, retention against the caller's [now]. *)
Definition claim_idempotency (jti secret scope : string) (request : pyval) (now : datetime)
    (token : string) (wall : Z) : idem IdempotencyClaim :=
  candidate <- lift (make_record jti secret scope request now IDEMPOTENCY_TTL None (Some token)) ;;
  reserved <- reserve candidate None wall ;;
  ret {| c_record := reserved;
         owns_claim := bool_decide (r_claim_token reserved = r_claim_token candidate) |}.

(** ** Keys, digests and candidates *)

Lemma truthy_hmac k m : truthy_str (hmac_hex k m) = true.
Proof. pose proof (hmac_hex_length k m). by destruct (hmac_hex k m). Qed.

Lemma derive_ok jti secret : truthy_str jti = true -> truthy_str secret = true ->
  derive_idempotency_key jti secret = Ok (hmac_hex secret jti).
Proof. unfold derive_idempotency_key, _secret_bytes. by intros -> ->. Qed.

Lemma derive_inv jti secret k : derive_idempotency_key jti secret = Ok k ->
  truthy_str jti = true /\ truthy_str secret = true /\ k = hmac_hex secret jti.
Proof.
  unfold derive_idempotency_key, _secret_bytes.
  destruct (truthy_str jti), (truthy_str secret); cbn; try done. by intros [= <-].
Qed.

Lemma compare_digest_hex a b : ascii_only a = true -> ascii_only b = true ->
  compare_digest a b = Ok (String.eqb a b).
Proof. unfold compare_digest. by intros -> ->. Qed.

(** The record a claim proposes. *)
Definition candidate_record (jti secret scope text : string) (now : Z) (token : string)
    : IdempotencyRecord :=
  {| r_key := hmac_hex secret jti; r_scope := scope; r_derived_from := jti;
     r_request_fingerprint := sha256_hex text; r_expires_at := now + IDEMPOTENCY_TTL;
     r_response := None; r_created_at := Some now; r_claim_token := Some token |}.

Lemma make_record_ok jti secret scope request text now token :
  truthy_str jti = true -> truthy_str secret = true -> truthy_str scope = true ->
  canonical_json request = Ok text ->
  make_record jti secret scope request (Aware now) IDEMPOTENCY_TTL None (Some token)
  = Ok (candidate_record jti secret scope text now token).
Proof.
  intros Hj Hs Hc Ht. unfold make_record, request_fingerprint. cbn [ensure_utc rbind].
  change (IDEMPOTENCY_TTL <=? 0) with false. rewrite derive_ok, Ht by done. cbn [rbind].
  unfold mk_IdempotencyRecord. rewrite truthy_hmac, Hj, Hc. cbn [negb orb ensure_utc opt_utc rbind].
  destruct (Z.leb_spec (now + IDEMPOTENCY_TTL) now) as [H|_]; [|done].
  unfold IDEMPOTENCY_TTL, days, hours, minutes, seconds in H. lia.
Qed.

Lemma make_record_shape jti secret scope request now ttl resp token r :
  make_record jti secret scope request now ttl resp token = Ok r ->
  r_key r = hmac_hex secret jti /\ r_derived_from r = jti /\ truthy_str jti = true /\
  truthy_str secret = true /\ ascii_only (r_request_fingerprint r) = true /\ r_claim_token r = token.
Proof.
  unfold make_record, request_fingerprint, mk_IdempotencyRecord. intros H.
  destruct (ensure_utc now); cbn [rbind] in H; [|done]. destruct (ttl <=? 0); [done|].
  destruct (derive_idempotency_key jti secret) eqn:E; cbn [rbind] in H; [|done].
  apply derive_inv in E as (Hj & Hs & ->).
  destruct (canonical_json request); cbn [rbind ensure_utc opt_utc] in H; [|done].
  repeat case_match; try done. injection H as <-. cbn. rewrite sha256_hex_ascii. done.
Qed.

(** ** The store invariant *)

(** Every record is stored under the key derived from its own source, and its
    fingerprint is a digest. *)
Definition store_ok (s : InMemoryIdempotencyStore) : Prop :=
  forall k r, _records s !! k = Some r ->
    r_key r = k /\ k = hmac_hex (store_secret s) (r_derived_from r) /\
    truthy_str (r_derived_from r) = true /\ ascii_only (r_request_fingerprint r) = true.

(** The record that holds [key] at the wall-clock instant. *)
Definition live (s : InMemoryIdempotencyStore) (key : string) (wall : Z) : option IdempotencyRecord :=
  match _records s !! key with
  | Some r => if is_expired r wall then None else Some r
  | None => None
  end.

Definition same_operation (r : IdempotencyRecord) (scope jti fingerprint : string) : bool :=
  String.eqb (r_scope r) scope && String.eqb (r_derived_from r) jti
  && String.eqb (r_request_fingerprint r) fingerprint.

(** [reserve] of a well-formed record, by cases. *)
Lemma idem_reserve_exact s r wall :
  store_ok s -> r_key r = hmac_hex (store_secret s) (r_derived_from r) ->
  truthy_str (r_derived_from r) = true -> truthy_str (store_secret s) = true ->
  ascii_only (r_request_fingerprint r) = true ->
  reserve r None wall s =
  match live s (r_key r) wall with
  | None => (Ok r, with_records s (<[r_key r := r]> (_records s)))
  | Some e => if same_operation e (r_scope r) (r_derived_from r) (r_request_fingerprint r)
              then (Ok e, s) else (Raise IdempotencyConflict, s)
  end.
Proof.
  intros Hok Hk Hd Hs Hf. unfold reserve, current_time, live, same_operation. cbn.
  unfold sbind, lift, get, ret, raise, put. rewrite derive_ok by done. rewrite Hk.
  rewrite compare_digest_hex by apply hmac_hex_ascii. rewrite String.eqb_refl. cbn [negb].
  rewrite <- Hk. unfold reserve_locked, sbind, get, put, ret, raise, lift.
  destruct (_records s !! r_key r) as [e|] eqn:E; [|done]. destruct (is_expired e wall); [done|].
  destruct (Hok _ _ E) as (_ & _ & _ & He). rewrite compare_digest_hex by done.
  destruct (String.eqb (r_scope e) _), (String.eqb (r_derived_from e) _); cbn; try done.
  by destruct (String.eqb _ _).
Qed.

Lemma store_ok_insert s r : store_ok s ->
  r_key r = hmac_hex (store_secret s) (r_derived_from r) -> truthy_str (r_derived_from r) = true ->
  ascii_only (r_request_fingerprint r) = true ->
  store_ok (with_records s (<[r_key r := r]> (_records s))).
Proof.
  intros Hok Hk Hd Hf k x. cbn. intros [[<- <-]|[Hn H]]%lookup_insert_Some; [done|by apply Hok].
Qed.

(** The claim, by cases on the live record of its key. *)
Lemma claim_exact (s : InMemoryIdempotencyStore) (jti scope : string)
    (request : pyval) (text : string) (now : Z) (token : string) (wall : Z) :
  store_ok s -> truthy_str jti = true -> truthy_str (store_secret s) = true ->
  truthy_str scope = true -> canonical_json request = Ok text ->
  let key := hmac_hex (store_secret s) jti in
  let fresh := candidate_record jti (store_secret s) scope text now token in
  claim_idempotency jti (store_secret s) scope request (Aware now) token wall s =
  match live s key wall with
  | None => (Ok {| c_record := fresh; owns_claim := true |},
             with_records s (<[key := fresh]> (_records s)))
  | Some r =>
      if same_operation r scope jti (sha256_hex text) then
        (Ok {| c_record := r; owns_claim := bool_decide (r_claim_token r = Some token) |}, s)
      else (Raise IdempotencyConflict, s)
  end.
Proof.
  intros Hok Hj Hs Hc Ht key fresh. unfold claim_idempotency.
  rewrite (make_record_ok _ _ _ _ text) by done. fold fresh.
  unfold sbind at 1. cbn [lift]. unfold sbind. rewrite idem_reserve_exact; try done.
  2: { apply sha256_hex_ascii. }
  cbn [r_key r_scope r_derived_from r_request_fingerprint fresh candidate_record]. fold key fresh.
  destruct (live s key wall) as [r|]; [|unfold ret; cbn; by rewrite bool_decide_eq_true_2].
  by destruct (same_operation r scope jti (sha256_hex text)).
Qed.

(** A claim on a live key replays the stored operation when it is the same one
    and conflicts otherwise, leaving the store as it was; on a free or expired
    key it stores its own record and owns it. *)
Theorem claim_idempotency_exact (s : InMemoryIdempotencyStore) (jti scope : string)
    (request : pyval) (text : string) (now : Z) (token : string) (wall : Z) :
  store_ok s -> truthy_str jti = true -> truthy_str (store_secret s) = true ->
  truthy_str scope = true -> canonical_json request = Ok text ->
  let key := hmac_hex (store_secret s) jti in
  let fresh := candidate_record jti (store_secret s) scope text now token in
  claim_idempotency jti (store_secret s) scope request (Aware now) token wall s =
  match live s key wall with
  | None => (Ok {| c_record := fresh; owns_claim := true |},
             with_records s (<[key := fresh]> (_records s)))
  | Some r =>
      if same_operation r scope jti (sha256_hex text) then
        (Ok {| c_record := r; owns_claim := bool_decide (r_claim_token r = Some token) |}, s)
      else (Raise IdempotencyConflict, s)
  end.
Proof. exact (claim_exact s jti scope request text now token wall). Qed.

(** ** Sequences of operations *)

(** The operations of concurrent callers, in the order the lock admits them. *)
Inductive idem_op : Type :=
| OpClaim (jti scope : string) (request : pyval) (now : datetime) (token : string) (wall : Z)
| OpGet (key : string) (now : option datetime) (wall : Z)
| OpSave (key : string) (response : pydict) (now : option datetime) (wall : Z)
| OpPurge (now : datetime).

Definition op_step (o : idem_op) (s : InMemoryIdempotencyStore) : InMemoryIdempotencyStore :=
  match o with
  | OpClaim j sc rq now tok wall => exec (claim_idempotency j (store_secret s) sc rq now tok wall) s
  | OpGet k now wall => exec (get_record k now wall) s
  | OpSave k resp now wall => exec (save_response k resp now wall) s
  | OpPurge now => exec (purge_expired now) s
  end.

(** Does the operation tell its caller that it owns [key]? *)
Definition op_owns (key : string) (o : idem_op) (s : InMemoryIdempotencyStore) : bool :=
  match o with
  | OpClaim j sc rq now tok wall =>
      match outcome (claim_idempotency j (store_secret s) sc rq now tok wall) s with
      | Ok c => owns_claim c && String.eqb (r_key (c_record c)) key
      | Raise _ => false
      end
  | _ => false
  end.

Fixpoint owners (key : string) (ops : list idem_op) (s : InMemoryIdempotencyStore) : nat :=
  match ops with
  | [] => 0
  | o :: ops' => (if op_owns key o s then 1 else 0) + owners key ops' (op_step o s)
  end.

Definition run_ops (ops : list idem_op) (s : InMemoryIdempotencyStore) : InMemoryIdempotencyStore :=
  fold_left (fun s o => op_step o s) ops s.

Definition op_tokens (o : idem_op) : list string :=
  match o with OpClaim _ _ _ _ tok _ => [tok] | _ => [] end.

(** The instants at which the operation judges expiry. *)
Definition op_times (o : idem_op) : list Z :=
  let at_ r := match r with Ok t => [t] | Raise _ => [] end in
  match o with
  | OpClaim _ _ _ _ _ wall => [wall]
  | OpGet _ now wall | OpSave _ _ now wall => at_ (current_time now wall)
  | OpPurge now => at_ (ensure_utc now)
  end.

(** A claim either fails without a trace or reserves a well-formed candidate. *)
Lemma claim_step s jti scope rq now tok wall : store_ok s ->
  (exists e, claim_idempotency jti (store_secret s) scope rq now tok wall s = (Raise e, s)) \/
  exists r, r_key r = hmac_hex (store_secret s) (r_derived_from r) /\
    truthy_str (r_derived_from r) = true /\ ascii_only (r_request_fingerprint r) = true /\
    r_claim_token r = Some tok /\
    (exists us, now = Aware us /\ r_expires_at r = us + IDEMPOTENCY_TTL) /\
    claim_idempotency jti (store_secret s) scope rq now tok wall s =
    match live s (r_key r) wall with
    | None => (Ok {| c_record := r; owns_claim := true |},
               with_records s (<[r_key r := r]> (_records s)))
    | Some e =>
        if same_operation e (r_scope r) (r_derived_from r) (r_request_fingerprint r) then
          (Ok {| c_record := e; owns_claim := bool_decide (r_claim_token e = Some tok) |}, s)
        else (Raise IdempotencyConflict, s)
    end.
Proof.
  intros Hok. unfold claim_idempotency.
  destruct (make_record _ _ _ _ _ _ _ _) as [r|e] eqn:E; [right|left; by exists e].
  pose proof E as E'. apply make_record_shape in E' as (Hk & Hd & Hj & Hs & Hf & Ht).
  exists r. rewrite Hd. split_and!; try done.
  - unfold make_record, mk_IdempotencyRecord in E. destruct now as [us|us]; cbn [ensure_utc rbind] in E; [|done].
    exists us. split; [done|]. change (IDEMPOTENCY_TTL <=? 0) with false in E.
    destruct (derive_idempotency_key _ _); cbn [rbind] in E; [|done].
    destruct (request_fingerprint _); cbn [rbind ensure_utc opt_utc] in E; [|done].
    repeat case_match; try done. by injection E as <-.
  - unfold sbind at 1. cbn [lift]. unfold sbind. rewrite idem_reserve_exact by (rewrite ?Hd; done).
    rewrite Hd. destruct (live s (r_key r) wall) as [x|].
    + destruct (same_operation _ _ _ _); [|done]. unfold ret. by rewrite Ht.
    + unfold ret. by rewrite bool_decide_eq_true_2.
Qed.

Lemma store_ok_records s m : store_ok s -> (forall k r, m !! k = Some r -> _records s !! k = Some r) ->
  store_ok (with_records s m).
Proof. intros Hok Hm k r Hr. apply Hok. by apply Hm. Qed.

Lemma step_ok o s : store_ok s -> store_ok (op_step o s).
Proof.
  intros Hok.
  destruct o as [j sc rq now tok wall|k now wall|k resp now wall|now]; cbn; unfold exec.
  - destruct (claim_step s j sc rq now tok wall Hok) as [[e ->]|(r & Hk & Hd & Hf & _ & _ & ->)]; [done|].
    destruct (live s (r_key r) wall); [by case_match|]. by apply store_ok_insert.
  - unfold get_record, sbind, lift, get, put, ret. destruct (current_time now wall); [|done].
    destruct (_records s !! k) as [r|]; [|done]. destruct (is_expired r a); [|done].
    apply store_ok_records; [done|]. intros ? ? [_ ?]%lookup_delete_Some. done.
  - unfold save_response, sbind, lift, get, put, ret, raise. destruct (current_time now wall); [|done].
    destruct (_records s !! k) as [r|] eqn:E; [|done]. destruct (is_expired r a).
    + apply store_ok_records; [done|]. intros ? ? [_ ?]%lookup_delete_Some. done.
    + destruct (r_response r); [done|]. destruct (Hok _ _ E) as (Hk & Hd & Hj & Hf).
      subst k. by apply (store_ok_insert s (with_response r resp)).
  - unfold purge_expired, sbind, lift, get, put, ret. destruct (ensure_utc now); [|done].
    apply store_ok_records; [done|]. intros ? ? [? _]%map_lookup_filter_Some. done.
Qed.

(** Every sequence of operations preserves the invariant of the store. *)
Theorem store_ok_preserved (ops : list idem_op) (s : InMemoryIdempotencyStore) :
  store_ok s -> store_ok (run_ops ops s).
Proof.
  revert s. induction ops as [|o ops IH]; intros s Hok; [done|]. by apply IH, step_ok.
Qed.

(** A record that outlives the operations and whose token none of them uses. *)
Definition held (key : string) (ops : list idem_op) (s : InMemoryIdempotencyStore) : Prop :=
  exists r, _records s !! key = Some r /\
    Forall (fun o => Forall (fun t => t < r_expires_at r) (op_times o)) ops /\
    Forall (fun o => forall t, t ∈ op_tokens o -> r_claim_token r <> Some t) ops.

Lemma held_step key o ops s : store_ok s -> held key (o :: ops) s ->
  op_owns key o s = false /\ held key ops (op_step o s).
Proof.
  intros Hok (r & Hr & Ht & Htok). inversion_clear Ht as [|? ? Ht1 Ht2].
  inversion_clear Htok as [|? ? Hk1 Hk2].
  assert (Hkeep : forall m, m !! key = Some r -> held key ops (with_records s m)) by (intros; by exists r).
  assert (Hlive : forall t, t < r_expires_at r -> is_expired r t = false) by (intros; by apply Z.leb_gt).
  assert (Hsame : held key ops s) by (by exists r).
  destruct o as [j sc rq now tok wall|k now wall|k resp now wall|now]; cbn in *; unfold exec, outcome.
  - destruct (claim_step s j sc rq now tok wall Hok) as [[e ->]|(c & Hc & _ & _ & Hct & _ & ->)]; [done|].
    inversion_clear Ht1 as [|? ? Hw _].
    destruct (live s (r_key c) wall) as [e|] eqn:El.
    + destruct (same_operation _ _ _ _); cbn; [|done]. split; [|done].
      destruct (String.eqb_spec (r_key e) key) as [He|]; [|apply andb_false_r].
      unfold live in El. destruct (_records s !! r_key c) as [x|] eqn:Ex; [|done].
      destruct (is_expired x wall); [done|]. injection El as ->.
      destruct (Hok _ _ Ex) as (Hxk & _). rewrite <- Hxk, He, Hr in Ex. injection Ex as <-.
      rewrite bool_decide_eq_false_2; [done|]. apply Hk1, list_elem_of_here.
    + cbn. assert (r_key c <> key) as Hn.
      { intros Hx. unfold live in El. rewrite Hx, Hr, Hlive in El by done. done. }
      rewrite (proj2 (String.eqb_neq _ _)) by done. split; [done|]. apply Hkeep.
      by rewrite lookup_insert_ne.
  - split; [done|]. unfold get_record, sbind, lift, get, put, ret.
    destruct (current_time now wall) as [t|]; [|done]. inversion_clear Ht1.
    destruct (_records s !! k) as [x|] eqn:E; [|done]. destruct (is_expired x t) eqn:Ex; [|done].
    apply Hkeep. apply lookup_delete_Some. split; [|done]. intros ->.
    rewrite Hr in E. injection E as <-. by rewrite Hlive in Ex.
  - split; [done|]. unfold save_response, sbind, lift, get, put, ret, raise.
    destruct (current_time now wall) as [t|]; [|done]. inversion_clear Ht1.
    destruct (_records s !! k) as [x|] eqn:E; [|done]. destruct (is_expired x t) eqn:Ex.
    + apply Hkeep. apply lookup_delete_Some. split; [|done]. intros ->.
      rewrite Hr in E. injection E as <-. by rewrite Hlive in Ex.
    + destruct (r_response x); [done|]. destruct (String.eqb_spec k key) as [->|Hn].
      * rewrite Hr in E. injection E as <-. exists (with_response r resp).
        split; [apply lookup_insert_eq|]. done.
      * apply Hkeep. by rewrite lookup_insert_ne.
  - split; [done|]. unfold purge_expired, sbind, lift, get, put, ret.
    destruct (ensure_utc now) as [t|]; [|done]. inversion_clear Ht1. apply Hkeep.
    apply map_lookup_filter_Some. split; [done|]. by apply Hlive.
Qed.

Lemma held_no_owner key ops s : store_ok s -> held key ops s -> owners key ops s = 0%nat.
Proof.
  revert s. induction ops as [|o ops IH]; intros s Hok Hh; [done|]. cbn.
  destruct (held_step _ _ _ _ Hok Hh) as [-> Hh']. rewrite IH; [done|by apply step_ok|done].
Qed.

(** The record under [key], if any, was not created by one of the operations. *)
Definition foreign (key : string) (ops : list idem_op) (s : InMemoryIdempotencyStore) : Prop :=
  forall r, _records s !! key = Some r -> Forall (fun o => forall t, t ∈ op_tokens o -> r_claim_token r <> Some t) ops.

(** All instants of the operations fall in one retention period from [t0]. *)
Definition one_period (t0 : Z) (ops : list idem_op) : Prop :=
  Forall (fun o => Forall (fun t => t < t0 + IDEMPOTENCY_TTL) (op_times o) /\
                   match o with OpClaim _ _ _ (Aware us) _ _ => t0 <= us | _ => True end) ops.

(** An operation that does not own the key leaves no new token under it; one
    that does leaves its own record there. *)
Lemma owner_step key o ops s t0 :
  store_ok s -> foreign key (o :: ops) s -> one_period t0 (o :: ops) ->
  NoDup (op_tokens o ++ flat_map op_tokens ops) ->
  (op_owns key o s = false /\ foreign key ops (op_step o s)) \/
  (op_owns key o s = true /\ held key ops (op_step o s)).
Proof.
  intros Hok Hf Hp Hnd. inversion_clear Hp as [|? ? [_ Hnow] Hp'].
  assert (Hrest : foreign key ops s) by (intros r Hr; by apply Hf in Hr as [_ ?]%Forall_cons).
  assert (Hsub : forall m, (forall r, m !! key = Some r -> _records s !! key = Some r) ->
            foreign key ops (with_records s m)) by (intros m Hm r Hr; by apply Hrest, Hm).
  destruct o as [j sc rq now tok wall|k now wall|k resp now wall|now]; cbn in *; unfold exec, outcome.
  - destruct (claim_step s j sc rq now tok wall Hok) as [[e ->]|(c & Hc & _ & _ & Hct & (us & -> & Hex) & ->)];
      [by left|].
    destruct (live s (r_key c) wall) as [e|] eqn:El.
    + left. destruct (same_operation _ _ _ _); cbn; [|done]. split; [|done].
      destruct (String.eqb_spec (r_key e) key) as [He|]; [|apply andb_false_r].
      unfold live in El. destruct (_records s !! r_key c) as [x|] eqn:Ex; [|done].
      destruct (is_expired x wall); [done|]. injection El as ->.
      destruct (Hok _ _ Ex) as (Hxk & _). rewrite <- Hxk, He in Ex.
      apply Hf in Ex as [Ex _]%Forall_cons.
      rewrite bool_decide_eq_false_2; [done|]. apply Ex, list_elem_of_here.
    + cbn. destruct (String.eqb_spec (r_key c) key) as [Hk|Hk]; [right|left]; (split; [done|]).
      * exists c. split; [cbn; rewrite Hk; apply lookup_insert_eq|]. split.
        -- eapply Forall_impl; [exact Hp'|]. intros o [Ho _]. eapply Forall_impl; [exact Ho|].
           cbn. intros t Ht. cbn in Hnow. lia.
        -- rewrite Hct. apply Forall_forall. intros o Ho t Ht [= ->].
           apply NoDup_cons in Hnd as [Hnd _]. apply Hnd.
           apply list_elem_of_In, in_flat_map. exists o. by rewrite <- !list_elem_of_In.
      * apply Hsub. intros r. by rewrite lookup_insert_ne.
  - left. split; [done|]. unfold get_record, sbind, lift, get, put, ret.
    destruct (current_time now wall) as [t|]; [|done].
    destruct (_records s !! k) as [x|]; [|done]. destruct (is_expired x t); [|done].
    apply Hsub. by intros r [_ ?]%lookup_delete_Some.
  - left. split; [done|]. unfold save_response, sbind, lift, get, put, ret, raise.
    destruct (current_time now wall) as [t|]; [|done].
    destruct (_records s !! k) as [x|] eqn:E; [|done]. destruct (is_expired x t).
    + apply Hsub. by intros r [_ ?]%lookup_delete_Some.
    + destruct (r_response x); [done|]. intros r. cbn.
      intros [[<- <-]|[_ ?]]%lookup_insert_Some; [|by apply Hrest].
      cbn. by apply Hrest in E.
  - left. split; [done|]. unfold purge_expired, sbind, lift, get, put, ret.
    destruct (ensure_utc now) as [t|]; [|done]. apply Hsub. by intros r [? _]%map_lookup_filter_Some.
Qed.

(** Whatever the interleaving of claims, reads, saves and purges within one
    retention period, at most one caller is told that it owns a key, provided
    the claim tokens are distinct and new. *)
Theorem at_most_one_owner (key : string) (ops : list idem_op) (s : InMemoryIdempotencyStore) (t0 : Z) :
  store_ok s -> NoDup (flat_map op_tokens ops) -> foreign key ops s -> one_period t0 ops ->
  (owners key ops s <= 1)%nat.
Proof.
  revert s. induction ops as [|o ops IH]; intros s Hok Hnd Hf Hp; [cbn; lia|]. cbn in Hnd.
  cbn [owners]. destruct (owner_step key o ops s t0 Hok Hf Hp Hnd) as [[-> Hf']|[-> Hh]].
  - apply IH; [by apply step_ok|by apply NoDup_app in Hnd as (_ & _ & ?)|done|].
    by inversion_clear Hp.
  - rewrite held_no_owner; [lia|by apply step_ok|done].
Qed.

(** The first response saved is the one every later save and read of the live
    record returns. *)
Theorem first_response_wins (s : InMemoryIdempotencyStore) (key : string) (r : IdempotencyRecord)
    (first second : pydict) (us us' us'' : Z) :
  _records s !! key = Some r -> r_response r = None ->
  us < r_expires_at r -> us' < r_expires_at r -> us'' < r_expires_at r ->
  let s1 := with_records s (<[key := with_response r first]> (_records s)) in
  save_response key first (Some (Aware us)) 0 s = (Ok (with_response r first), s1) /\
  save_response key second (Some (Aware us')) 0 s1 = (Ok (with_response r first), s1) /\
  get_record key (Some (Aware us'')) 0 s1 = (Ok (Some (with_response r first)), s1).
Proof.
  intros Hr Hn H1 H2 H3 s1. unfold save_response, get_record, current_time, sbind, lift, get, put, ret, raise.
  cbn [ensure_utc]. rewrite Hr. unfold is_expired. rewrite (proj2 (Z.leb_gt _ _)) by done. rewrite Hn.
  split; [done|]. cbn. rewrite lookup_insert_eq. cbn.
  by rewrite !(proj2 (Z.leb_gt _ _)) by done.
Qed.

(** ** What the fingerprint identifies *)

Definition json_opt (s : option string) : json := match s with Some x => JStr x | None => JNull end.

Lemma json_opt_inj a b : json_opt a = json_opt b -> a = b.
Proof. destruct a, b; cbn; congruence. Qed.

(** The canonical tree of an intent with numeric timestamps. *)
Lemma intent_tree i t u : i_iat i = VInt t -> i_exp i = VInt u ->
  to_json _json_default (intent_value i) = Ok (JObj
    [("agent", JStr (i_agent i)); ("agent_id", json_opt (i_agent_id i)); ("amount", JStr (i_amount i));
     ("category", json_opt (i_category i)); ("currency", JStr (i_currency i)); ("exp", JInt u);
     ("iat", JInt t); ("jti", JStr (i_jti i)); ("mandate_jti", JStr (i_mandate_jti i));
     ("merchant_id", JStr (i_merchant_id i)); ("nonce", JStr (i_nonce i));
     ("offer_amount", json_opt (i_offer_amount i)); ("offer_id", JStr (i_offer_id i))])%string.
Proof.
  intros Ht Hu. unfold intent_value. rewrite Ht, Hu.
  destruct (i_agent_id i), (i_category i), (i_offer_amount i); reflexivity.
Qed.

(** Two intents that are not the same have different canonical bodies: if
    their fingerprints agree, the two bodies are a collision of SHA-256. *)
Theorem intent_fingerprint_identifies (i j : PurchaseIntent) (ti tj ui uj : Z) (f : string) :
  i_iat i = VInt ti -> i_exp i = VInt ui -> i_iat j = VInt tj -> i_exp j = VInt uj ->
  request_fingerprint (intent_value i) = Ok f -> request_fingerprint (intent_value j) = Ok f ->
  i = j \/
  exists a b, canonical_json (intent_value i) = Ok a /\ canonical_json (intent_value j) = Ok b /\
    a <> b /\ sha256_hex a = sha256_hex b.
Proof.
  intros Hi1 Hi2 Hj1 Hj2. unfold request_fingerprint, canonical_json, dumps.
  rewrite (intent_tree i ti ui), (intent_tree j tj uj) by done. cbn [rbind].
  match goal with |- context [sha256_hex (print ?x)] => set (ji := x) end.
  match goal with |- _ -> Ok (sha256_hex (print ?x)) = _ -> _ => set (jj := x) end.
  intros [= Ha] [= Hb]. destruct (String.eqb_spec (print ji) (print jj)) as [E|E].
  - left. apply print_inj in E.
    + subst ji jj. destruct i, j. cbn in *.
      injection E as -> Hag -> Hca -> -> -> -> -> -> -> Hoa ->.
      apply json_opt_inj in Hag, Hca, Hoa. by subst.
    + subst ji. destruct (i_agent_id i), (i_category i), (i_offer_amount i); reflexivity.
    + subst jj. destruct (i_agent_id j), (i_category j), (i_offer_amount j); reflexivity.
  - right. exists (print ji), (print jj). split_and!; try done. congruence.
Qed.

(** ** Concrete instances *)

Definition empty_store : InMemoryIdempotencyStore := {| store_secret := "k"; _records := ∅ |}.

Lemma empty_store_ok : store_ok empty_store.
Proof. intros k r H. cbn in H. by rewrite lookup_empty in H. Qed.

Definition demo_ops : list idem_op :=
  [OpClaim "intent-1" "verify" (VStr "body") (Aware 0) "t1" 10;
   OpClaim "intent-1" "verify" (VStr "body") (Aware 5) "t2" 20;
   OpClaim "intent-1" "verify" (VStr "other") (Aware 6) "t3" 30;
   OpPurge (Aware 40)].

Lemma claim_idempotency_exact_witness :
  exists c s, claim_idempotency "intent-1" "k" "verify" (VStr "body") (Aware 0) "t1" 10 empty_store = (Ok c, s) /\
    owns_claim c = true.
Proof.
  eexists _, _. split; [|shelve].
  apply (claim_idempotency_exact empty_store "intent-1" "verify" (VStr "body")
    (print (JStr "body")) 0 "t1" 10);
    try reflexivity. apply empty_store_ok.
  Unshelve. reflexivity.
Defined.

Lemma store_ok_preserved_witness : store_ok (run_ops demo_ops empty_store).
Proof. apply (store_ok_preserved demo_ops empty_store), empty_store_ok. Defined.

Lemma at_most_one_owner_witness : (owners (hmac_hex "k" "intent-1") demo_ops empty_store <= 1)%nat.
Proof.
  apply (at_most_one_owner (hmac_hex "k" "intent-1") demo_ops empty_store 0).
  - apply empty_store_ok.
  - apply (bool_decide_eq_true_1 _). reflexivity.
  - intros r H. cbn in H. by rewrite lookup_empty in H.
  - repeat constructor; cbn; vm_compute; congruence.
Defined.

Definition demo_record : IdempotencyRecord := candidate_record "intent-1" "k" "verify" "body" 0 "t1".

Definition demo_store : InMemoryIdempotencyStore :=
  with_records empty_store {["x"%string := demo_record]}.

Lemma first_response_wins_witness :
  exists s1, save_response "x" [("a"%string, VInt 1)] (Some (Aware 1)) 0 demo_store =
      (Ok (with_response demo_record [("a"%string, VInt 1)]), s1) /\
    save_response "x" [] (Some (Aware 2)) 0 s1 =
      (Ok (with_response demo_record [("a"%string, VInt 1)]), s1).
Proof.
  eexists.
  destruct (first_response_wins demo_store "x" demo_record [("a"%string, VInt 1)] [] 1 2 3)
    as (H1 & H2 & _); try reflexivity.
  split; [exact H1|exact H2].
Defined.

Definition demo_intent : PurchaseIntent :=
  {| i_jti := "intent-1"; i_mandate_jti := "mandate-1"; i_agent := "agent-1"; i_merchant_id := "m-1";
     i_offer_id := "o-1"; i_amount := "42.50"; i_currency := "COP"; i_nonce := "n";
     i_iat := VInt 1; i_exp := VInt 2; i_category := Some "food"%string; i_offer_amount := None;
     i_agent_id := Some "agent-1"%string |}.

Lemma intent_fingerprint_identifies_witness :
  exists f, request_fingerprint (intent_value demo_intent) = Ok f /\
    (demo_intent = demo_intent \/
     exists a b, canonical_json (intent_value demo_intent) = Ok a /\
       canonical_json (intent_value demo_intent) = Ok b /\ a <> b /\ sha256_hex a = sha256_hex b).
Proof.
  destruct (request_fingerprint (intent_value demo_intent)) as [f|e] eqn:E; [|discriminate E].
  exists f. split; [reflexivity|].
  apply (intent_fingerprint_identifies demo_intent demo_intent 1 1 2 2 f); try reflexivity; exact E.
Defined.
