(* ===== verification/Stores.v ===== *)
(** The records of src/src/api/decision/ports.py and the plain in-memory stores
    of src/src/api/decision/repository_memory.py: mandates, offers, purchases,
    escalations and the outbox.  A call that stamps a record with the wall clock
    takes the reading as an argument. *)
From S2P Require Import Prelude PyTime Decimal Sha256 Json Dict Models JsonLogic.

(** ** Records *)

Record PurchaseRecord : Type := {
  p_purchase_id : string;
  p_mandate_id : string;
  p_intent_jti : string;
  p_status : string;
  p_reason_code : option string;
  p_reservation_id : option string;
  p_escalation_id : option string;
  p_receipt : option pydict;
  p_created_at : Z;
  p_updated_at : Z;
}.

Record EscalationRecord : Type := {
  er_escalation_id : string;
  er_purchase_id : string;
  er_mandate_id : string;
  er_intent : PurchaseIntent;
  er_offer : option Offer;
  er_status : string;
  er_level : string;
  er_diff : pydict;
  er_created_at : Z;
  er_timeout_at : Z;
  er_decision : option string;
  er_approver : option string;
}.

Record OutboxEvent : Type := {
  ev_event_id : string;
  ev_type : string;
  ev_aggregate_id : string;
  ev_payload : pydict;
  ev_created_at : Z;
}.

(** A mandate as the reader returns it: the claims, and the attributes a row may
    carry besides them ([id], [spent_total], [reserved_total],
    [txn_count_period] and the older names). *)
Record mandate_row : Type := { row_claims : MandateClaims; row_extra : pydict }.

(** ** Mandates and offers *)

Definition InMemoryMandateReader : Type := dict string mandate_row.
Definition put_mandate (m : mandate_row) (jti_arg : option string) (r : InMemoryMandateReader) : InMemoryMandateReader :=
  dset (override (or_str jti_arg None) (jti (row_claims m))) m r.
Definition get_by_jti (jti : string) (r : InMemoryMandateReader) : option mandate_row := dget jti r.

Definition InMemoryOfferCatalog : Type := dict string Offer.
Definition put_offer (o : Offer) (offer_id : option string) (c : InMemoryOfferCatalog) : InMemoryOfferCatalog :=
  dset (override (or_str offer_id None) (o_offer_id o)) o c.
Definition get_offer (offer_id : string) (c : InMemoryOfferCatalog) : option Offer := dget offer_id c.

(** ** Purchases *)

Definition InMemoryPurchaseStore : Type := dict string PurchaseRecord.

Definition create_purchase (purchase : PurchaseRecord) : st InMemoryPurchaseStore PurchaseRecord :=
  records <- get ;;
  match dget (p_purchase_id purchase) records with
  | Some existing => ret existing
  | None => put (dset (p_purchase_id purchase) purchase records) ;;; ret purchase
  end.

(** The keyword changes of [update]: [None] leaves the field. *)
Record purchase_changes : Type := {
  pc_status : option string;
  pc_reason_code : option (option string);
  pc_reservation_id : option (option string);
  pc_escalation_id : option (option string);
}.

Definition apply_changes (p : PurchaseRecord) (c : purchase_changes) (wall : Z) : PurchaseRecord :=
  {| p_purchase_id := p_purchase_id p; p_mandate_id := p_mandate_id p; p_intent_jti := p_intent_jti p;
     p_status := override (pc_status c) (p_status p);
     p_reason_code := override (pc_reason_code c) (p_reason_code p);
     p_reservation_id := override (pc_reservation_id c) (p_reservation_id p);
     p_escalation_id := override (pc_escalation_id c) (p_escalation_id p);
     p_receipt := p_receipt p; p_created_at := p_created_at p; p_updated_at := wall |}.

Definition update_purchase (purchase_id : string) (changes : purchase_changes) (wall : Z)
    : st InMemoryPurchaseStore (option PurchaseRecord) :=
  records <- get ;;
  match dget purchase_id records with
  | None => ret None
  | Some current =>
      let updated := apply_changes current changes wall in
      put (dset purchase_id updated records) ;;; ret (Some updated)
  end.

Definition get_purchase (purchase_id : string) (records : InMemoryPurchaseStore) : option PurchaseRecord :=
  dget purchase_id records.

(** The first purchase of the intent in insertion order. *)
Definition get_by_intent (intent_jti : string) (records : InMemoryPurchaseStore) : option PurchaseRecord :=
  find (fun p => String.eqb (p_intent_jti p) intent_jti) (map snd records).

(** ** Escalations *)

Definition InMemoryEscalationStore : Type := dict string EscalationRecord.

Definition create_escalation_record (e : EscalationRecord) : st InMemoryEscalationStore EscalationRecord :=
  records <- get ;;
  put (dsetdefault (er_escalation_id e) e records) ;;;
  ret (override (dget (er_escalation_id e) records) e).

Definition get_escalation (escalation_id : string) (records : InMemoryEscalationStore) : option EscalationRecord :=
  dget escalation_id records.

(** [replace(current, status=..., decision=...)] *)
Definition with_outcome (e : EscalationRecord) (status decision : string) : EscalationRecord :=
  {| er_escalation_id := er_escalation_id e; er_purchase_id := er_purchase_id e;
     er_mandate_id := er_mandate_id e; er_intent := er_intent e; er_offer := er_offer e;
     er_status := status; er_level := er_level e; er_diff := er_diff e;
     er_created_at := er_created_at e; er_timeout_at := er_timeout_at e;
     er_decision := Some decision; er_approver := er_approver e |}.

Definition update_escalation (escalation_id status decision : string)
    : st InMemoryEscalationStore (option EscalationRecord) :=
  records <- get ;;
  match dget escalation_id records with
  | None => ret None
  | Some current =>
      let updated := with_outcome current status decision in
      put (dset escalation_id updated records) ;;; ret (Some updated)
  end.

(** ** Outbox *)

Record InMemoryOutboxWriter : Type := { events : list OutboxEvent; ob_fail : bool }.

(** An event already written under the same id is not written again. *)
Definition append_event (e : OutboxEvent) : st InMemoryOutboxWriter unit :=
  s <- get ;;
  if ob_fail s then raise RuntimeError
  else if existsb (fun x => String.eqb (ev_event_id x) (ev_event_id e)) (events s) then ret ()
  else put {| events := events s ++ [e]; ob_fail := ob_fail s |}.
