(* ===== verification/EscalationFlow.v ===== *)
(** The escalation lifecycle of src/src/api/decision/escalation_flow.py:
    creation of the timeout envelope, its domain view, its resolution and its
    expiry.  The uuid4 of an unnamed escalation is an argument. *)
From S2P Require Import Prelude PyTime Decimal Sha256 Json Dict Models JsonLogic Policy Stores.

Definition opt_reason (r : option ReasonCode) : option string := option_map ReasonCode_value r.

Definition create_escalation (purchase_id mandate_id : string) (intent : PurchaseIntent)
    (offer : option Offer) (decision : Decision) (now : datetime) (escalation_id : option string)
    (uuid : string) : res EscalationRecord :=
  let? created_at := ensure_utc now in
  let lvl := override (level decision) L3 in
  let? timeout_at := escalation_deadline (Aware created_at) lvl None in
  let ttl := match ttl_seconds decision with
             | Some t => if t =? 0 then total_seconds_int (timeout_at - created_at) else t
             | None => total_seconds_int (timeout_at - created_at)
             end in
  let d := dict_update (override (diff decision) [])
             [("level", VStr (EscalationLevel_value lvl)); ("timeout_at", VStr (isoformat timeout_at));
              ("ttl_seconds", VInt ttl)]%string in
  let d := match reason_code decision with
           | Some r => dict_set "reason_code"%string (VStr (ReasonCode_value r)) d
           | None => d
           end in
  let d := if requires_uv decision then dict_set "requires_uv"%string (VBool true) d else d in
  Ok {| er_escalation_id := override (or_str escalation_id None) uuid; er_purchase_id := purchase_id;
        er_mandate_id := mandate_id; er_intent := intent; er_offer := offer; er_status := "pending";
        er_level := EscalationLevel_value lvl; er_diff := d; er_created_at := created_at;
        er_timeout_at := timeout_at; er_decision := None; er_approver := None |}.

Definition domain_escalation (record : EscalationRecord) : res Escalation :=
  mk_Escalation (er_level record) (Aware (er_created_at record)) (Some (Aware (er_timeout_at record)))
    (Some (er_diff record)).

Definition resolve_envelope (record : EscalationRecord) (now : datetime) (approval : approval_arg)
    (uv_verifier : option uv_port) (assertion : pyval) (uv_verified : option bool) : res Decision :=
  let? current := ensure_utc now in
  let? expired := (if negb (String.eqb (er_status record) "pending") then Ok true
                   else escalation_expired (Aware (er_timeout_at record)) (Aware current)) in
  if (expired : bool) then Ok (reject ESCALATION_TIMEOUT_DENIED)
  else
    let? e := domain_escalation record in
    resolve_escalation e (Aware current) approval uv_verifier assertion (Some (er_diff record)) uv_verified.

Definition mark_expired (record : EscalationRecord) : EscalationRecord :=
  with_outcome record "expired" (ReasonCode_value ESCALATION_TIMEOUT_DENIED).

(** ** A created envelope *)

Definition level_ttl (l : EscalationLevel) : Z := match l with L3 => 120 | L3_PLUS => 300 end.

(** The envelope of a decision of the default gate: pending, with the
    level of the decision and its time limit. *)
Lemma create_escalation_fields pid mid i o d us uuid r :
  create_escalation pid mid i o d (Aware us) None uuid = Ok r ->
  er_escalation_id r = uuid /\ er_purchase_id r = pid /\ er_mandate_id r = mid /\ er_intent r = i /\
  er_status r = "pending"%string /\ er_level r = EscalationLevel_value (override (level d) L3) /\
  er_created_at r = us /\ er_timeout_at r = us + seconds (level_ttl (override (level d) L3)).
Proof.
  unfold create_escalation, escalation_deadline. cbn [ensure_utc rbind].
  intros H. injection H as <-. cbn. split_and!; try done. by destruct (level d) as [[]|].
Qed.

Lemma as_level_value l : _as_level (EscalationLevel_value l) = Ok l.
Proof. by destruct l. Qed.

(** A pending envelope created at [us0] is approved exactly when the word is
    APPROVE, the level's time limit counted from its creation has not passed,
    and, at level L3+, the verifier accepts the digest of the stored difference. *)
Theorem envelope_approval_exact (pid mid uuid : string) (i : PurchaseIntent) (o : option Offer)
    (d : Decision) (us0 us : Z) (r : EscalationRecord) (approval : approval_arg)
    (uv : option uv_port) (assertion : pyval) :
  create_escalation pid mid i o d (Aware us0) None uuid = Ok r ->
  let lvl := override (level d) L3 in
  exists v, resolve_envelope r (Aware us) approval uv assertion None = Ok v /\
    (is_approved v = true \/ v = reject ESCALATION_TIMEOUT_DENIED) /\
    (is_approved v = true <->
       us < us0 + seconds (level_ttl lvl) /\ approval_word approval = "APPROVE"%string /\
       (lvl = L3_PLUS -> exists verify digest, uv = Some verify /\
          canonical_diff_digest (Some (er_diff r)) = Ok digest /\
          verify digest assertion (level_ttl lvl) = Ok true)).
Proof.
  intros Hc lvl. destruct (create_escalation_fields _ _ _ _ _ _ _ _ Hc) as (_ & _ & _ & _ & Hst & Hl & Hcr & Hto).
  fold lvl in Hl, Hto. unfold resolve_envelope, escalation_expired. rewrite Hst, Hto. cbn [ensure_utc rbind String.eqb].
  change (negb _) with false. cbn [rbind].
  destruct (Z.leb_spec (us0 + seconds (level_ttl lvl)) us).
  { eexists. split; [done|]. split; [by right|]. split; [done|]. lia. }
  unfold domain_escalation, mk_Escalation. rewrite Hl, as_level_value, Hcr, Hto. cbn [ensure_utc opt_utc rbind].
  assert (0 < seconds (level_ttl lvl)) by (unfold seconds; destruct lvl; cbn; lia).
  destruct (Z.leb_spec (us0 + seconds (level_ttl lvl)) us0); [lia|]. cbn [rbind].
  destruct (resolve_escalation_exact
    {| e_level := lvl; e_created_at := us0; e_timeout_at := Some (us0 + seconds (level_ttl lvl));
       e_diff := Some (er_diff r) |} us approval uv assertion (Some (er_diff r)) None)
    as (v & Hv & Ho & Hiff).
  exists v. split; [exact Hv|]. split; [done|]. rewrite Hiff. unfold deadline. cbn [e_timeout_at override e_level e_created_at].
  assert (total_seconds_int (us0 + seconds (level_ttl lvl) - us0) = level_ttl lvl) as ->.
  { replace (us0 + seconds (level_ttl lvl) - us0) with (seconds (level_ttl lvl)) by lia. by destruct lvl. }
  split; intros (Ht & Hw & Hv'); (split; [done|]; split; [done|]).
  - intros Hplus. destruct Hv' as [?|[?|[_ ?]]]; [congruence|done|done].
  - destruct lvl; [by left|]. right; right. split; [done|]. by apply Hv'.
Qed.

(** A step-up of level L3+ answered with a verifier that accepts everything. *)
Lemma envelope_approval_exact_witness :
  exists r v, create_escalation "p-1" "mandate-1" (Demo.intent_of 7000) None
      {| decision := ESCALATED; reason_code := Some STEPUP_AMOUNT_THRESHOLD; reservation_id := None; diff := None;
         level := Some L3_PLUS; ttl_seconds := Some 300; requires_uv := true |} (Aware 0) None "e-1" = Ok r /\
    resolve_envelope r (Aware (seconds 299)) (ApprovalStr "approve") (Some (fun _ _ _ => Ok true)) VNone None = Ok v /\
    is_approved v = true.
Proof.
  set (d := {| decision := ESCALATED |}).
  destruct (create_escalation "p-1" "mandate-1" (Demo.intent_of 7000) None d (Aware 0) None "e-1") as [r|e] eqn:E;
    [|discriminate E].
  destruct (envelope_approval_exact "p-1" "mandate-1" "e-1" (Demo.intent_of 7000) None d 0 (seconds 299) r
    (ApprovalStr "approve") (Some (fun _ _ _ => Ok true)) VNone E) as (v & Hv & _ & Hiff).
  exists r, v. split; [reflexivity|]. split; [exact Hv|]. apply Hiff. split; [reflexivity|]. split; [reflexivity|].
  intros _. injection E as <-. eexists _, _. split; [reflexivity|]. split; [|reflexivity]. reflexivity.
Defined.
