(* ===== verification/DecisionService.v ===== *)
(** The verify use case of src/src/api/decision/service.py wired with the
    in-memory stores, as src/src/api/deps.py does: the gate, the side-effect
    branches, the idempotent replay and the resolution of escalations.  The wall
    clock reading and the uuid4 supply are part of the state; the transaction
    manager is an interface. *)
From S2P Require Import Prelude PyTime Decimal Sha256 Json Dict Models JsonLogic Policy Velocity.
From S2P Require Import Reservation Idempotency Stores EscalationFlow.

(** ** Results *)

Record VerificationResult : Type := {
  vr_decision : Decision;
  vr_purchase_id : string;
  vr_status : string;
  vr_escalation_id : option string;
}.

Definition result (d : Decision) (purchase_id status : string) (esc : option string) : VerificationResult :=
  {| vr_decision := d; vr_purchase_id := purchase_id; vr_status := status; vr_escalation_id := esc |}.

Definition opt_level (l : option EscalationLevel) : pyval := opt_str (option_map EscalationLevel_value l).
Definition opt_int (n : option Z) : pyval := match n with Some k => VInt k | None => VNone end.

Definition as_dict (r : VerificationResult) : pydict :=
  let d := vr_decision r in
  [("decision", VStr (DecisionValue_value (decision d)));
   ("reason_code", opt_str (opt_reason (reason_code d)));
   ("reservation_id", opt_str (reservation_id d));
   ("purchase_id", VStr (vr_purchase_id r));
   ("status", VStr (vr_status r));
   ("escalation_id", opt_str (vr_escalation_id r));
   ("diff", VDict (override (diff d) []));
   ("level", opt_level (level d));
   ("ttl_seconds", opt_int (ttl_seconds d));
   ("requires_uv", VBool (requires_uv d))]%string.

(** ** State *)

Record Stores : Type := {
  mandates : InMemoryMandateReader;
  offers : InMemoryOfferCatalog;
  velocity : InMemoryVelocityStore;
  reservation : InMemoryReservationStore;
  purchases : InMemoryPurchaseStore;
  escalations : InMemoryEscalationStore;
  outbox : InMemoryOutboxWriter;
  idempotency : InMemoryIdempotencyStore;
  wall : Z;
  uuids : nat;
}.

Definition svc (A : Type) : Type := st Stores A.

Definition on_velocity {A} (m : vel A) : svc A :=
  zoom velocity (fun v s => {| mandates := mandates s; offers := offers s; velocity := v;
    reservation := reservation s; purchases := purchases s; escalations := escalations s;
    outbox := outbox s; idempotency := idempotency s; wall := wall s; uuids := uuids s |}) m.
Definition on_reservation {A} (m : rsv A) : svc A :=
  zoom reservation (fun v s => {| mandates := mandates s; offers := offers s; velocity := velocity s;
    reservation := v; purchases := purchases s; escalations := escalations s;
    outbox := outbox s; idempotency := idempotency s; wall := wall s; uuids := uuids s |}) m.
Definition on_purchases {A} (m : st InMemoryPurchaseStore A) : svc A :=
  zoom purchases (fun v s => {| mandates := mandates s; offers := offers s; velocity := velocity s;
    reservation := reservation s; purchases := v; escalations := escalations s;
    outbox := outbox s; idempotency := idempotency s; wall := wall s; uuids := uuids s |}) m.
Definition on_escalations {A} (m : st InMemoryEscalationStore A) : svc A :=
  zoom escalations (fun v s => {| mandates := mandates s; offers := offers s; velocity := velocity s;
    reservation := reservation s; purchases := purchases s; escalations := v;
    outbox := outbox s; idempotency := idempotency s; wall := wall s; uuids := uuids s |}) m.
Definition on_outbox {A} (m : st InMemoryOutboxWriter A) : svc A :=
  zoom outbox (fun v s => {| mandates := mandates s; offers := offers s; velocity := velocity s;
    reservation := reservation s; purchases := purchases s; escalations := escalations s;
    outbox := v; idempotency := idempotency s; wall := wall s; uuids := uuids s |}) m.
Definition on_idempotency {A} (m : idem A) : svc A :=
  zoom idempotency (fun v s => {| mandates := mandates s; offers := offers s; velocity := velocity s;
    reservation := reservation s; purchases := purchases s; escalations := escalations s;
    outbox := outbox s; idempotency := v; wall := wall s; uuids := uuids s |}) m.

(** [str(uuid4())] and [uuid4().hex]: the next identifier of the supply. *)
Definition next_uuid (supply : nat -> string) : svc string := fun s =>
  (Ok (supply (uuids s)),
   {| mandates := mandates s; offers := offers s; velocity := velocity s; reservation := reservation s;
      purchases := purchases s; escalations := escalations s; outbox := outbox s;
      idempotency := idempotency s; wall := wall s; uuids := S (uuids s) |}).

(** ** The transaction port *)

(** [with self._transaction() as transaction: block].  A block that returns
    keeps its writes; a block that raises loses all of them or keeps those it
    made, depending on the manager. *)
Class TransactionManager : Type := {
  on_raise : Stores -> Stores -> Stores;
  on_raise_law : (forall before after, on_raise before after = before)
                 \/ (forall before after, on_raise before after = after);
}.

(** [nullcontext] and [NoopTransactionManager]: nothing is undone. *)
Definition null_transaction : TransactionManager.
Proof. refine {| on_raise := fun _ after => after |}. by right. Defined.

(** A database transaction: everything is undone. *)
Definition rollback_transaction : TransactionManager.
Proof. refine {| on_raise := fun before _ => before |}. by left. Defined.

(** The configuration of a service. *)
Record DecisionService : Type := {
  gate : PolicyGate;
  uv_verifier : option uv_port;
  idempotency_secret : string;
  idempotency_scope : string;
  uuid4 : nat -> string;
}.

Section Service.
Context `{TransactionManager} (self : DecisionService).

(** A block with the Python local variables [L] it assigns: they keep their
    values when the block raises, whatever happens to the stores. *)
Definition block (L A : Type) : Type := st (Stores * L) A.
Definition in_block {L A} (m : svc A) : block L A :=
  zoom fst (fun s sl => (s, sl.2)) m.
Definition assign {L} (l : L) : block L unit := modify (fun sl => (sl.1, l)).
Definition local {L} : block L L := gets snd.

(** [with self._transaction(): block], reporting the outcome and the locals. *)
Definition _transaction {L A} (m : block L A) (l0 : L) : svc (res A * L) := fun s =>
  match m (s, l0) with
  | (Ok a, (s', l)) => (Ok (Ok a, l), s')
  | (Raise e, (s', l)) => (Ok (Raise e, l), on_raise s s')
  end.

(** ** Lookups *)

Definition _now (now : option datetime) : svc Z :=
  s <- get ;;
  lift (ensure_utc (override now (Aware (wall s)))).

Definition row_value (m : mandate_row) (name : string) : option pyval := assoc name (row_extra m).

Definition _mandate_id (m : option mandate_row) (fallback : string) : string :=
  match m with
  | Some row => match row_value row "id" with Some v => py_str v | None => jti (row_claims row) end
  | None => fallback
  end.

Definition first_value (m : mandate_row) (a b : string) (default : pyval) : pyval :=
  override (row_value m a) (override (row_value m b) default).

Definition _read_mandate (j : string) : svc (option mandate_row) := gets (fun s => get_by_jti j (mandates s)).
Definition _read_offer (o : string) : svc (option Offer) := gets (fun s => get_offer o (offers s)).
Definition _read_purchase (p : string) : svc (option PurchaseRecord) := gets (fun s => get_purchase p (purchases s)).
Definition _read_purchase_by_intent (j : string) : svc (option PurchaseRecord) :=
  gets (fun s => get_by_intent j (purchases s)).
Definition _read_escalation (e : string) : svc (option EscalationRecord) :=
  gets (fun s => get_escalation e (escalations s)).

(** The spend view of a mandate; a [txn_count_period] that is not an integer is
    refused by [SpendView]. *)
Definition _spend (mandate_id : string) (m : mandate_row) (now : Z) : svc SpendView :=
  n <- lift (match row_value m "txn_count_period" with
             | None => Ok 0 | Some (VInt n) => Ok n | Some _ => Raise ValueError end) ;;
  on_velocity (get_spend_view mandate_id (Aware now)
    (first_value m "spent_total" "spent" (VStr "0.00"))
    (first_value m "reserved_total" "reserved_amount" (VStr "0.00"))
    n (status (row_claims m))).

(** The retries on TypeError drop the keyword, then the offer. *)
Definition _evaluate (m : mandate_row) (intent : PurchaseIntent) (spend : SpendView) (now : Z)
    (offer : option Offer) (approved_stepup : bool) : res Decision :=
  let run := evaluate (gate self) (row_claims m) intent spend (Aware now) in
  match run offer approved_stepup with
  | Raise TypeError =>
      match run offer false with
      | Raise TypeError => run None false
      | r => r
      end
  | r => r
  end.

Definition _purchase_id (intent : PurchaseIntent) (purchase_id : option string) : string :=
  override (or_str purchase_id None) ("purchase-" +:+ i_jti intent)%string.

(** ** Events *)

(** [default=str] with NaN allowed. *)
Definition payload_default : json_default :=
  {| default_dec := default_dec str_default; default_time := default_time str_default;
     default_float := fun r => Ok (JFloat r) |}.

Definition _canonical_payload (value : pydict) : res string := dumps payload_default (VDict value).

Definition _new_event (event_type aggregate_id : string) (payload : pydict) (now : Z) : res OutboxEvent :=
  let? text := _canonical_payload payload in
  let digest := String.substring 0 24 (sha256_hex text) in
  Ok {| ev_event_id := (event_type +:+ ":" +:+ aggregate_id +:+ ":" +:+ digest)%string;
        ev_type := event_type; ev_aggregate_id := aggregate_id; ev_payload := payload;
        ev_created_at := now |}.

Definition _emit (event_type aggregate_id : string) (payload : pydict) (now : Z) : svc unit :=
  event <- lift (_new_event event_type aggregate_id payload now) ;;
  on_outbox (append_event event).

(** ** Purchases and escalations *)

Definition new_purchase (purchase_id mandate_id intent_jti status : string)
    (reason reservation_id escalation_id : option string) : svc PurchaseRecord :=
  gets (fun s =>
    {| p_purchase_id := purchase_id; p_mandate_id := mandate_id; p_intent_jti := intent_jti;
       p_status := status; p_reason_code := reason; p_reservation_id := reservation_id;
       p_escalation_id := escalation_id; p_receipt := None; p_created_at := wall s;
       p_updated_at := wall s |}).

Definition _save_purchase (p : PurchaseRecord) : svc PurchaseRecord := on_purchases (create_purchase p).

Definition _update_purchase (purchase_id : string) (changes : purchase_changes) : svc (option PurchaseRecord) :=
  s <- get ;; on_purchases (update_purchase purchase_id changes (wall s)).

(** [status=..., reason_code=..., reservation_id=None, escalation_id=None] *)
Definition rejected_changes (reason : option string) : purchase_changes :=
  {| pc_status := Some "rejected"%string; pc_reason_code := Some reason;
     pc_reservation_id := Some None; pc_escalation_id := Some None |}.

Definition suspended_reason : option string := Some (ReasonCode_value MANDATE_SUSPENDED).

(** ** Observations and reservations *)

Definition _observe_intent (mandate_id : string) (intent : PurchaseIntent) (now : Z) : svc unit :=
  on_velocity (increment_intent mandate_id (VStr (i_amount intent)) (Aware now)).

Definition _observe_escalation (mandate_id : string) (now : Z) (d : Decision) : svc unit :=
  on_velocity (increment_escalation mandate_id (Aware now)) ;;;
  match assoc "cooldown_until" (override (diff d) []) with
  | None | Some VNone => ret ()
  | Some (VStr s) =>
      until <- lift (match fromisoformat s with Some u => Ok u | None => Raise ValueError end) ;;
      on_velocity (record_cooldown mandate_id (Aware until))
  | Some (VTime t) => on_velocity (record_cooldown mandate_id t)
  | Some _ => raise AttributeError
  end.

Definition _observe_open_authorization (mandate_id : string) (now : Z) : svc unit :=
  on_velocity (increment_open_authorizations mandate_id (Aware now)).
Definition _release_open_authorization (mandate_id : string) (now : Z) : svc unit :=
  on_velocity (decrement_open_authorizations mandate_id (Aware now)).

Definition stable_reservation_id (purchase_id : string) : string := ("reservation:" +:+ purchase_id)%string.

Definition _reserve (m : mandate_row) (mandate_id : string) (intent : PurchaseIntent) (purchase_id : string)
    : svc string :=
  let l := limits (row_claims m) in
  let total := match l with Some x => VDec (total_budget x) | None => VStr "0.00" end in
  let max := match l with Some x => option_map count (max_txn x) | None => None end in
  got <- on_reservation (Reservation.reserve mandate_id (VStr (i_amount intent)) total max
           (Some (stable_reservation_id purchase_id)) (Some purchase_id) "") ;;
  match or_str got None with
  | Some rid => ret rid
  | None => raise ReservationRejected
  end.

Definition _release (mandate_id : string) (intent : PurchaseIntent) (reservation_id : string) : svc bool :=
  on_reservation (release mandate_id (VStr (i_amount intent)) (Some reservation_id)).

(** ** The side-effect branches *)

Definition suspended (purchase_id status : string) (esc : option string) : VerificationResult :=
  result (reject MANDATE_SUSPENDED) purchase_id status esc.

(** [bool(decision.diff) and decision.diff.get(...)] as a truth value *)
Definition diff_flag (d : Decision) (name : string) : bool :=
  match assoc name (override (diff d) []) with Some v => truthy v | None => false end.

Definition rejected_block (intent : PurchaseIntent) (mandate_id purchase_id : string) (d : Decision) (now : Z)
    : block unit unit :=
  in_block (
    _observe_intent mandate_id intent now ;;;
    updated <- _update_purchase purchase_id (rejected_changes (opt_reason (reason_code d))) ;;
    match updated with
    | Some _ => ret ()
    | None =>
        p <- new_purchase purchase_id mandate_id (i_jti intent) "rejected" (opt_reason (reason_code d)) None None ;;
        _save_purchase p ;;; ret ()
    end ;;;
    _emit "purchase.rejected" purchase_id
      [("purchase_id", VStr purchase_id); ("intent_jti", VStr (i_jti intent));
       ("reason_code", opt_str (opt_reason (reason_code d)))]%string now ;;;
    if diff_flag d "auto_suspend" then
      _emit "fraud.alert" mandate_id
        [("mandate_id", VStr mandate_id); ("kind", VStr "escalation_flood")]%string now
    else ret ()).

Definition _rejected (intent : PurchaseIntent) (mandate_id purchase_id : string) (d : Decision) (now : Z)
    : svc VerificationResult :=
  done <- _transaction (rejected_block intent mandate_id purchase_id d now) () ;;
  match done.1 with
  | Ok _ => ret (result d purchase_id "rejected" None)
  | Raise _ =>
      _update_purchase purchase_id (rejected_changes suspended_reason) ;;;
      ret (suspended purchase_id "rejected" None)
  end.

Definition step_up_reason (d : Decision) : bool :=
  requires_uv d || bool_decide (reason_code d = Some STEPUP_AMOUNT_THRESHOLD)
  || bool_decide (reason_code d = Some STEPUP_BUDGET_USAGE).

Definition escalated_block (intent : PurchaseIntent) (mandate_id purchase_id : string) (d : Decision)
    (e : EscalationRecord) (now : Z) : block unit unit :=
  in_block (
    _observe_intent mandate_id intent now ;;;
    _observe_escalation mandate_id now d ;;;
    p <- new_purchase purchase_id mandate_id (i_jti intent) "awaiting_escalation"
           (opt_reason (reason_code d)) None (Some (er_escalation_id e)) ;;
    _save_purchase p ;;;
    on_escalations (create_escalation_record e) ;;;
    _emit "purchase.escalated" purchase_id
      [("purchase_id", VStr purchase_id); ("escalation_id", VStr (er_escalation_id e));
       ("diff", VDict (er_diff e))]%string now ;;;
    (if step_up_reason d then
       _emit "risk.stepup_required" purchase_id
         [("purchase_id", VStr purchase_id); ("level", VStr (er_level e));
          ("reason_code", opt_str (opt_reason (reason_code d)))]%string now
     else ret ()) ;;;
    if diff_flag d "cooldown_until" then
      _emit "agent.paused_cooldown" mandate_id
        [("mandate_id", VStr mandate_id);
         ("until", override (assoc "cooldown_until" (override (diff d) [])) VNone)]%string now
    else ret ()).

Definition _escalated (intent : PurchaseIntent) (offer : option Offer) (mandate_id purchase_id : string)
    (d : Decision) (now : Z) : svc VerificationResult :=
  uuid <- next_uuid (uuid4 self) ;;
  e <- lift (create_escalation purchase_id mandate_id intent offer d (Aware now) None uuid) ;;
  done <- _transaction (escalated_block intent mandate_id purchase_id d e now) () ;;
  match done.1 with
  | Ok _ => ret (result d purchase_id "awaiting_escalation" (Some (er_escalation_id e)))
  | Raise _ =>
      _update_purchase purchase_id (rejected_changes suspended_reason) ;;;
      on_escalations (update_escalation (er_escalation_id e) "expired" (ReasonCode_value MANDATE_SUSPENDED)) ;;;
      ret (suspended purchase_id "rejected" None)
  end.

Definition approved_decision (reservation_id : option string) : Decision :=
  {| decision := APPROVED; reason_code := None; reservation_id := reservation_id; diff := None;
     level := None; ttl_seconds := None; requires_uv := false |}.

(** The local is [reservation_id]. *)
Definition approved_block (m : mandate_row) (intent : PurchaseIntent) (mandate_id purchase_id : string) (now : Z)
    : block (option string) Decision :=
  in_block (_observe_intent mandate_id intent now) ;;;
  rid <- in_block (_reserve m mandate_id intent purchase_id) ;;
  assign (Some rid) ;;;
  in_block (
    p <- new_purchase purchase_id mandate_id (i_jti intent) "pending_capture" None (Some rid) None ;;
    _save_purchase p ;;;
    _observe_open_authorization mandate_id now ;;;
    _emit "purchase.verified" purchase_id
      [("purchase_id", VStr purchase_id); ("reservation_id", VStr rid)]%string now ;;;
    ret (approved_decision (Some rid))).

Definition _approved (m : mandate_row) (intent : PurchaseIntent) (mandate_id purchase_id : string) (now : Z)
    : svc VerificationResult :=
  done <- _transaction (approved_block m intent mandate_id purchase_id now) None ;;
  match done with
  | (Ok d, _) => ret (result d purchase_id "pending_capture" None)
  | (Raise ReservationRejected, _) =>
      _rejected intent mandate_id purchase_id (reject BUDGET_EXCEEDED) now
  | (Raise _, reservation_id) =>
      match reservation_id with
      | Some rid =>
          released <- _release mandate_id intent rid ;;
          if (released : bool) then _release_open_authorization mandate_id now else ret ()
      | None => ret ()
      end ;;;
      _rejected intent mandate_id purchase_id (reject MANDATE_SUSPENDED) now
  end.

(** ** Idempotent replay *)

Definition get_str (d : pydict) (k : string) : option string :=
  match assoc k d with Some (VStr s) => Some s | _ => None end.

(** [str(response.get(k, default))] *)
Definition get_text (d : pydict) (k default : string) : string :=
  match assoc k d with Some v => py_str v | None => default end.

(** Fields of a stored response that are not of the type [as_dict] writes are
    read as absent; a decision or code outside its enumeration is refused. *)
Definition decision_of_response (response : pydict) : res Decision :=
  mk_Decision (override (get_str response "decision") (DecisionValue_value REJECTED))
    (get_str response "reason_code") (get_str response "reservation_id")
    (match assoc "diff" response with Some (VDict d) => Some d | _ => None end)
    (get_str response "level")
    (match assoc "ttl_seconds" response with Some (VInt n) => Some n | _ => None end)
    (match assoc "requires_uv" response with Some v => truthy v | None => false end).

Definition _result_from_idempotency (response : pydict) (fallback_purchase_id : string) : VerificationResult :=
  let d := match decision_of_response response with
           | Ok d => d
           | Raise _ => reject MANDATE_SUSPENDED
           end in
  result d (get_text response "purchase_id" fallback_purchase_id) (get_text response "status" "rejected")
    (get_str response "escalation_id").

Definition existing_reason (p : PurchaseRecord) : option ReasonCode :=
  match or_str (p_reason_code p) None with
  | Some r => match ReasonCode_of r with Ok x => Some x | Raise _ => Some MANDATE_SUSPENDED end
  | None => None
  end.

Definition _result_for_existing_purchase (p : PurchaseRecord) : svc VerificationResult :=
  if String.eqb (p_status p) "pending_capture" then
    ret (result (approved_decision (p_reservation_id p)) (p_purchase_id p) (p_status p) None)
  else if String.eqb (p_status p) "awaiting_escalation" then
    escalation <- (match or_str (p_escalation_id p) None with
                   | Some e => _read_escalation e | None => ret None end) ;;
    let ttl := match escalation with
               | Some e => match assoc "ttl_seconds" (er_diff e) with Some (VInt n) => Some n | _ => None end
               | None => None
               end in
    let uv := match escalation with
              | Some e => match assoc "requires_uv" (er_diff e) with Some v => truthy v | None => false end
              | None => false
              end in
    d <- lift (mk_Decision (DecisionValue_value ESCALATED) (option_map ReasonCode_value (existing_reason p)) None
                 (option_map er_diff escalation) (option_map er_level escalation) ttl uv) ;;
    ret (result d (p_purchase_id p) (p_status p) (p_escalation_id p))
  else
    ret (result (reject (override (existing_reason p) MANDATE_SUSPENDED)) (p_purchase_id p) (p_status p) None).

Definition _claim_idempotency (intent : PurchaseIntent) (now : Z) (request : option pyval) (scope : option string)
    : svc (option IdempotencyRecord * bool) :=
  if negb (truthy_str (i_jti intent)) || String.eqb (i_jti intent) "unknown-intent" then ret (None, true)
  else
    token <- next_uuid (uuid4 self) ;;
    s <- get ;;
    claim <- on_idempotency (claim_idempotency (i_jti intent) (idempotency_secret self)
               (override (or_str scope None) (idempotency_scope self))
               (override request (intent_value intent)) (Aware now) token (wall s)) ;;
    ret (Some (c_record claim), owns_claim claim).

Definition _save_idempotency (record : option IdempotencyRecord) (r : VerificationResult) (now : Z)
    : svc VerificationResult :=
  match record with
  | None => ret r
  | Some rec =>
      match r_response rec with
      | Some _ => ret r
      | None => on_idempotency (save_response (r_key rec) (as_dict r) (Some (Aware now)) 0) ;;; ret r
      end
  end.

Definition finish (record : option IdempotencyRecord) (now : Z) (m : svc VerificationResult)
    : svc VerificationResult :=
  r <- m ;;
  catch (_save_idempotency record r now)
    (fun _ => Some (ret (suspended (vr_purchase_id r) "rejected" (vr_escalation_id r)))).

(** ** [verify] *)

(** The part of [verify] after the idempotency checks. *)
Definition verify_claimed (intent : PurchaseIntent) (current : Z) (mandate : option mandate_row)
    (purchase_id : string) : svc VerificationResult :=
  existing <- _read_purchase_by_intent (i_jti intent) ;;
  match existing with
  | Some p => _result_for_existing_purchase p
  | None =>
      read <- _read_mandate (i_mandate_jti intent) ;;
      let loaded := match mandate with Some m => Some m | None => read end in
      let mandate_id := _mandate_id loaded (i_mandate_jti intent) in
      let deny d := _rejected intent mandate_id purchase_id d current in
      match loaded with
      | None => deny (reject MANDATE_SUSPENDED)
      | Some m =>
          offer <- _read_offer (i_offer_id intent) ;;
          match offer with
          | None => deny (reject CONDITION_FAILED)
          | Some _ =>
              decided <- catch (spend <- _spend mandate_id m current ;;
                                d <- lift (_evaluate m intent spend current offer false) ;; ret (Some d))
                           (fun _ => Some (ret None)) ;;
              match decided with
              | None => deny (reject MANDATE_SUSPENDED)
              | Some d =>
                  match decision d with
                  | REJECTED => deny d
                  | ESCALATED => _escalated intent offer mandate_id purchase_id d current
                  | APPROVED => _approved m intent mandate_id purchase_id current
                  end
              end
          end
      end
  end.

Definition verify (intent : PurchaseIntent) (now : option datetime) (mandate : option mandate_row)
    (purchase_id : option string) (idempotency_request : option pyval) (scope : option string)
    : svc VerificationResult :=
  let pid := _purchase_id intent purchase_id in
  current <- catch (t <- _now now ;; ret (Some t))
               (fun e => if is_value_error e then Some (ret None) else None) ;;
  match current with
  | None => ret (suspended pid "rejected" None)
  | Some current =>
      claim <- catch (c <- _claim_idempotency intent current idempotency_request scope ;; ret (Some c))
                 (fun e => match e with IdempotencyConflict => None | _ => Some (ret None) end) ;;
      match claim with
      | None => ret (suspended pid "rejected" None)
      | Some (record, owns) =>
          match record with
          | Some rec =>
              match r_response rec with
              | Some response => ret (_result_from_idempotency response pid)
              | None =>
                  if negb owns then ret (result (reject RAIL_ERROR) pid "rejected" None)
                  else finish record current (verify_claimed intent current mandate pid)
              end
          | None => finish record current (verify_claimed intent current mandate pid)
          end
      end
  end.


(** ** Expiry and resolution of escalations *)

Definition compensated (record : EscalationRecord) (reason : ReasonCode) : VerificationResult :=
  result (reject reason) (er_purchase_id record) "compensated" (Some (er_escalation_id record)).

(** [status="compensated", reason_code=..., reservation_id=...] *)
Definition compensated_changes (reason : ReasonCode) (reservation_id : option string) : purchase_changes :=
  {| pc_status := Some "compensated"%string; pc_reason_code := Some (Some (ReasonCode_value reason));
     pc_reservation_id := Some reservation_id; pc_escalation_id := None |}.

(** The locals are [release_id] and [released]. *)
Definition expire_block (record : EscalationRecord) (now : Z) (reason : ReasonCode)
    : block (option string * bool) unit :=
  purchase <- in_block (_read_purchase (er_purchase_id record)) ;;
  match purchase with
  | Some p => match or_str (p_reservation_id p) None with
              | Some rid => assign (Some rid, false)
              | None => ret ()
              end
  | None => ret ()
  end ;;;
  l <- local ;;
  match l.1 with
  | Some rid =>
      released <- in_block (_release (er_mandate_id record) (er_intent record) rid) ;;
      assign (Some rid, released) ;;;
      if (released : bool) then in_block (_release_open_authorization (er_mandate_id record) now) else ret ()
  | None => ret ()
  end ;;;
  l <- local ;;
  in_block (
    on_escalations (update_escalation (er_escalation_id record) "expired" (ReasonCode_value reason)) ;;;
    _update_purchase (er_purchase_id record)
      (compensated_changes reason (if (l.2 : bool) then None else l.1)) ;;;
    _emit "escalation.expired" (er_escalation_id record)
      [("escalation_id", VStr (er_escalation_id record));
       ("purchase_id", VStr (er_purchase_id record))]%string now).

Definition _expire_and_compensate (record : EscalationRecord) (now : Z) (reason : ReasonCode)
    (reservation_id : option string) : svc VerificationResult :=
  done <- _transaction (expire_block record now reason) (reservation_id, false) ;;
  match done with
  | (Ok _, _) => ret (compensated record reason)
  | (Raise _, (Some rid, false)) =>
      catch (released <- _release (er_mandate_id record) (er_intent record) rid ;;
             if (released : bool) then _release_open_authorization (er_mandate_id record) now else ret ())
        (fun _ => Some (ret ())) ;;;
      ret (compensated record MANDATE_SUSPENDED)
  | (Raise _, _) => ret (compensated record MANDATE_SUSPENDED)
  end.

Definition resolved_changes (reservation_id : string) : purchase_changes :=
  {| pc_status := Some "pending_capture"%string; pc_reason_code := Some None;
     pc_reservation_id := Some (Some reservation_id); pc_escalation_id := None |}.

(** The local is [reservation_id]. *)
Definition resolve_block (m : mandate_row) (escalation_id : string) (record : EscalationRecord) (now : Z)
    : block (option string) string :=
  rid <- in_block (_reserve m (er_mandate_id record) (er_intent record) (er_purchase_id record)) ;;
  assign (Some rid) ;;;
  in_block (
    on_escalations (update_escalation escalation_id "resolved" "APPROVE") ;;;
    _update_purchase (er_purchase_id record) (resolved_changes rid) ;;;
    _observe_open_authorization (er_mandate_id record) now ;;;
    _emit "escalation.resolved" escalation_id
      [("escalation_id", VStr escalation_id); ("decision", VStr "APPROVE")]%string now ;;;
    _emit "purchase.verified" (er_purchase_id record)
      [("purchase_id", VStr (er_purchase_id record)); ("reservation_id", VStr rid)]%string now ;;;
    ret rid).

(** The part after the envelope has been approved: read again, gate again,
    reserve. *)
Definition resolve_approved (escalation_id : string) (record : EscalationRecord) (current : Z)
    : svc VerificationResult :=
  let fail reason reservation_id := _expire_and_compensate record current reason reservation_id in
  by_id <- _read_mandate (er_mandate_id record) ;;
  by_jti <- _read_mandate (i_mandate_jti (er_intent record)) ;;
  match match by_id with Some m => Some m | None => by_jti end with
  | None => fail MANDATE_SUSPENDED None
  | Some m =>
      offer <- _read_offer (i_offer_id (er_intent record)) ;;
      match offer with
      | None => fail CONDITION_FAILED None
      | Some _ =>
          decided <- catch (spend <- _spend (er_mandate_id record) m current ;;
                            d <- lift (_evaluate m (er_intent record) spend current offer true) ;; ret (Some d))
                       (fun _ => Some (ret None)) ;;
          match decided with
          | None => fail MANDATE_SUSPENDED None
          | Some d =>
              if negb (is_approved d) then fail (override (reason_code d) ESCALATION_TIMEOUT_DENIED) None
              else
                done <- _transaction (resolve_block m escalation_id record current) None ;;
                match done with
                | (Ok rid, _) =>
                    ret (result (approved_decision (Some rid)) (er_purchase_id record) "pending_capture"
                           (Some escalation_id))
                | (Raise _, reservation_id) => fail MANDATE_SUSPENDED reservation_id
                end
          end
      end
  end.

Definition service_resolve_escalation (escalation_id : string) (approval : approval_arg) (now : option datetime)
    (assertion : pyval) (uv_verified : option bool) : svc VerificationResult :=
  current <- _now now ;;
  found <- _read_escalation escalation_id ;;
  match found with
  | None =>
      ret (result (reject ESCALATION_TIMEOUT_DENIED) ("purchase-" +:+ escalation_id)%string "rejected"
             (Some escalation_id))
  | Some record =>
      if negb (String.eqb (er_status record) "pending") then
        existing <- _read_purchase (er_purchase_id record) ;;
        match existing with
        | Some p => _result_for_existing_purchase p
        | None => ret (result (reject ESCALATION_TIMEOUT_DENIED) (er_purchase_id record) "rejected"
                         (Some escalation_id))
        end
      else if er_timeout_at record <=? current then
        _expire_and_compensate record current ESCALATION_TIMEOUT_DENIED None
      else
        envelope <- lift (resolve_envelope record (Aware current) approval (uv_verifier self) assertion None) ;;
        if is_rejected envelope then _expire_and_compensate record current ESCALATION_TIMEOUT_DENIED None
        else resolve_approved escalation_id record current
  end.

End Service.
