(* ===== verification/DecisionSafety.v ===== *)
(** What the decision service does to its stores: which operations leave which
    store alone, that no refused request leaves a reservation behind, that an
    approval stands on a reservation and a record, and that the budget invariant
    of the reservation store survives every call, whatever the transaction
    manager does with a failed block. *)
From S2P Require Import Prelude PyTime Decimal Sha256 Json Dict Models JsonLogic Policy Velocity.
From S2P Require Import Reservation Idempotency Stores EscalationFlow DecisionService.

Create HintDb frame discriminated.

(** ** Frames *)

(** [R] relates states of which it sees only some stores. *)
Definition same {A} (view : Stores -> A) (s s' : Stores) : Prop := view s' = view s.

#[export] Instance same_preorder {A} (view : Stores -> A) : PreOrder (same view).
Proof. split; [done|]. unfold same. intros a b c -> ->. done. Qed.

(** The relation on a block's state: the locals are not looked at. *)
Definition on_stores {L} (R : Stores -> Stores -> Prop) (a b : Stores * L) : Prop := R a.1 b.1.

#[export] Instance on_stores_preorder {L} R `{!PreOrder R} : PreOrder (@on_stores L R).
Proof. split; unfold on_stores; [intros x; reflexivity|intros x y z; apply transitivity]. Qed.

Section Frame.
Context (R : Stores -> Stores -> Prop) `{!PreOrder R}.

Lemma in_block_respects {L A} (m : svc A) : respects R m -> respects (@on_stores L R) (in_block m).
Proof. intros H [s l]. unfold in_block, zoom, on_stores. cbn. specialize (H s). by destruct (m s). Qed.

Lemma assign_respects {L} (l : L) : respects (on_stores R) (assign l).
Proof. intros [s l']. cbn. unfold on_stores. cbn. reflexivity. Qed.

Lemma local_respects {L} : respects (@on_stores L R) local.
Proof. intros [s l']. unfold on_stores. cbn. reflexivity. Qed.

(** A block that raises keeps its writes or none of them. *)
Lemma transaction_respects `{TransactionManager} {L A} (m : block L A) (l : L) :
  respects (on_stores R) m -> respects R (_transaction m l).
Proof.
  intros Hm s. unfold _transaction. specialize (Hm (s, l)). unfold on_stores in Hm. cbn in Hm.
  destruct (m (s, l)) as [[a|e] [s' l']]; cbn in *; [done|].
  destruct on_raise_law as [Hr|Hr]; rewrite Hr; [reflexivity|done].
Qed.
End Frame.

(** Split a composed operation into the calls it makes. *)
Ltac respects_pure := apply respects_pure; [exact _|intros ?; reflexivity].
Ltac respects :=
  repeat (intros; cbv zeta;
    lazymatch goal with
    | |- respects _ (sbind _ _) => apply respects_bind; [exact _| |intros ?]
    | |- respects _ (catch _ _) =>
        apply respects_catch; [exact _| |let H := fresh in intros ? ? H; repeat case_match; try discriminate H; injection H as <-]
    | |- respects _ (in_block _) => apply in_block_respects
    | |- respects _ (assign _) => apply assign_respects; exact _
    | |- respects _ local => apply local_respects; exact _
    | |- respects _ (_transaction _ _) => apply transaction_respects; [exact _|]
    | |- respects _ (match ?x with _ => _ end) => destruct x
    | |- respects _ _ => first [assumption | respects_pure | solve [eauto 3 with frame]]
    end).

(** An operation on one store, seen through another, is invisible. *)
Lemma zoom_same {T A B} (view : Stores -> T) (update : T -> Stores -> Stores) (seen : Stores -> B) (m : st T A) :
  (forall t s, seen (update t s) = seen s) -> respects (same seen) (zoom view update m).
Proof. intros H s. unfold zoom, same. destruct (m (view s)). apply H. Qed.

Ltac other_store := apply zoom_same; reflexivity.

(** The calls on single stores that [R] must respect for the composed
    operations to respect it. *)
Class StoreCalls (R : Stores -> Stores -> Prop) : Prop := {
  calls_preorder :: PreOrder R;
  calls_velocity A (m : vel A) : respects R (on_velocity m);
  calls_purchases A (m : st InMemoryPurchaseStore A) : respects R (on_purchases m);
  calls_outcome eid status d : respects R (on_escalations (update_escalation eid status d));
  calls_outbox A (m : st InMemoryOutboxWriter A) : respects R (on_outbox m);
  calls_uuid supply : respects R (next_uuid supply);
}.
#[export] Hint Resolve calls_velocity calls_purchases calls_outcome calls_outbox calls_uuid : frame.
#[export] Hint Extern 1 (StoreCalls _) => exact _ : frame.

#[export] Instance calls_reservation_frame : StoreCalls (same reservation).
Proof. split; try exact _; intros; [other_store..|done]. Qed.
#[export] Instance calls_idempotency_frame : StoreCalls (same idempotency).
Proof. split; try exact _; intros; [other_store..|done]. Qed.
#[export] Instance calls_mandates_frame : StoreCalls (same mandates).
Proof. split; try exact _; intros; [other_store..|done]. Qed.

(** The branches of the service respect what their calls respect. *)
Section Calls.
Context `{TransactionManager} (self : DecisionService) (R : Stores -> Stores -> Prop) `{!StoreCalls R}.

Lemma rejected_respects i mid pid d now : respects R (_rejected i mid pid d now).
Proof. unfold _rejected, rejected_block, _observe_intent, _update_purchase, new_purchase, _save_purchase, _emit. respects. Qed.

Lemma observe_escalation_respects mid now d : respects R (_observe_escalation mid now d).
Proof. unfold _observe_escalation. respects. Qed.
Hint Resolve observe_escalation_respects : frame.

Lemma existing_respects p : respects R (_result_for_existing_purchase p).
Proof. unfold _result_for_existing_purchase, _read_escalation. respects. Qed.

Lemma spend_respects mid m now : respects R (_spend mid m now).
Proof. unfold _spend. respects. Qed.
Hint Resolve rejected_respects existing_respects spend_respects : frame.

Lemma escalated_block_respects i mid pid d e now :
  respects R (on_escalations (create_escalation_record e)) ->
  respects (on_stores R) (escalated_block i mid pid d e now).
Proof. unfold escalated_block, _observe_intent, new_purchase, _save_purchase, _emit. respects. Qed.

(** The record an escalation stores is about the intent. *)
Lemma create_escalation_intent pid mid i o d now eid uuid e :
  create_escalation pid mid i o d now eid uuid = Ok e -> er_intent e = i.
Proof.
  unfold create_escalation. destruct (ensure_utc now); cbn [rbind]; [|done].
  destruct (escalation_deadline _ _ _); cbn [rbind]; [|done]. by intros [= <-].
Qed.

Lemma escalated_respects i o mid pid d now :
  (forall e, er_intent e = i -> respects R (on_escalations (create_escalation_record e))) ->
  respects R (_escalated self i o mid pid d now).
Proof.
  intros Hcreate. unfold _escalated. apply respects_bind; [exact _|apply calls_uuid|]. intros uuid s.
  unfold sbind at 1, lift. destruct (create_escalation _ _ _ _ _ _ _ _) as [e|] eqn:Ee; [|reflexivity].
  apply create_escalation_intent in Ee. revert s. change (respects R
    (done <- _transaction (escalated_block i mid pid d e now) () ;;
     match done.1 with
     | Ok _ => ret (result d pid "awaiting_escalation" (Some (er_escalation_id e)))
     | Raise _ =>
         _update_purchase pid (rejected_changes suspended_reason) ;;;
         on_escalations (update_escalation (er_escalation_id e) "expired" (ReasonCode_value MANDATE_SUSPENDED)) ;;;
         ret (suspended pid "rejected" None)
     end)).
  pose proof (escalated_block_respects i mid pid d e now (Hcreate e Ee)). unfold _update_purchase. respects.
Qed.

Lemma approved_respects m i mid pid now :
  respects R (_reserve m mid i pid) -> (forall rid, respects R (_release mid i rid)) ->
  respects R (_approved m i mid pid now).
Proof.
  intros Hres Hrel. unfold _approved, approved_block, _observe_intent, new_purchase, _save_purchase, _emit,
    _observe_open_authorization, _release_open_authorization.
  respects.
Qed.

Lemma expire_respects e now r rid :
  (forall rid', respects R (_release (er_mandate_id e) (er_intent e) rid')) ->
  respects R (_expire_and_compensate e now r rid).
Proof.
  intros Hrel. unfold _expire_and_compensate, expire_block, _read_purchase, _update_purchase, _emit,
    _release_open_authorization.
  respects.
Qed.

Lemma resolve_block_respects m eid e now :
  respects R (_reserve m (er_mandate_id e) (er_intent e) (er_purchase_id e)) ->
  respects (on_stores R) (resolve_block m eid e now).
Proof. intros Hres. unfold resolve_block, _update_purchase, _emit, _observe_open_authorization. respects. Qed.

Context (Hesc : forall A (m : st InMemoryEscalationStore A), respects R (on_escalations m)).
Context (Hrsv : forall A (m : rsv A), respects R (on_reservation m)).
Hint Resolve Hesc Hrsv : frame.

Lemma verify_claimed_respects i now m pid : respects R (verify_claimed self i now m pid).
Proof.
  assert (forall row mid, respects R (_approved row i mid pid now)).
  { intros. apply approved_respects; [unfold _reserve|unfold _release]; respects. }
  assert (forall o mid d, respects R (_escalated self i o mid pid d now)).
  { intros. apply escalated_respects. auto. }
  unfold verify_claimed, _read_purchase_by_intent, _read_mandate, _read_offer. respects.
Qed.

Lemma resolve_respects eid ap now a uv : respects R (service_resolve_escalation self eid ap now a uv).
Proof.
  assert (forall e us r rid, respects R (_expire_and_compensate e us r rid)).
  { intros. apply expire_respects. intros. unfold _release. respects. }
  assert (forall m e us, respects (on_stores R) (resolve_block m eid e us)).
  { intros. apply resolve_block_respects. unfold _reserve. respects. }
  unfold service_resolve_escalation, resolve_approved, _now, _read_escalation, _read_purchase, _read_mandate,
    _read_offer.
  respects.
Qed.
End Calls.

(** ** Live reservations *)

Definition live_reservations (s : Stores) : dict string (string * dec) := _reservations (reservation s).

(** No reservation is live in [s'] that was not live in [s]. *)
Definition no_new (s s' : Stores) : Prop :=
  dict_ok (live_reservations s) ->
  dict_ok (live_reservations s') /\
  forall rid v, dget rid (live_reservations s') = Some v -> dget rid (live_reservations s) = Some v.

#[export] Instance no_new_preorder : PreOrder no_new.
Proof.
  split; [intros s; done|]. intros a b c Hab Hbc Ha. destruct (Hab Ha) as [Hb Hs].
  destruct (Hbc Hb) as [Hc Ht]. split; [done|]. auto.
Qed.

Lemma same_no_new s s' : same reservation s s' -> no_new s s'.
Proof. unfold same, no_new, live_reservations. by intros ->. Qed.

Lemma respects_same_no_new {A} (m : svc A) : respects (same reservation) m -> respects no_new m.
Proof. intros H s. apply same_no_new, H. Qed.

(** A state with the reservation [rid] of the intent, and no other new one. *)
Definition booked (s : Stores) (mid : string) (i : PurchaseIntent) (rid : string) (s' : Stores) : Prop :=
  exists c v, _decimal (VStr (i_amount i)) = Ok c /\ rid <> ""%string /\
    dget rid (live_reservations s') = Some v /\ v.1 = mid /\ (v.2 = c \/ deq v.2 c = true) /\
    (live_reservations s' = live_reservations s \/
     live_reservations s' = dset rid (mid, c) (live_reservations s)).

Lemma reserve_raw mid amt tot mx rid0 key uuid s :
  match Reservation.reserve mid amt tot mx rid0 key uuid s with
  | (Ok (Some rid), s') => exists c v, _decimal amt = Ok c /\ dget rid (_reservations s') = Some v /\
      v.1 = mid /\ (v.2 = c \/ deq v.2 c = true) /\
      (_reservations s' = _reservations s \/
       rid = override (or_str rid0 None) uuid /\ _reservations s' = dset rid (mid, c) (_reservations s))
  | (_, s') => _reservations s' = _reservations s
  end.
Proof.
  assert (Hsame : forall v c, same_reservation v mid c = true -> v.1 = mid /\ (v.2 = c \/ deq v.2 c = true)).
  { unfold same_reservation. intros v c [->%String.eqb_eq ?]%andb_prop. auto. }
  unfold Reservation.reserve, reserve_new, sbind, lift, get, ret, set_mandates, set_reservations, set_keys, modify.
  destruct (_decimal amt) as [c|]; [|done]. destruct (_decimal tot) as [b|]; [|done].
  destruct (match key with Some k => _ | None => None end) as [eid|].
  { destruct (dget eid (_reservations s)) as [v|] eqn:E; [|done].
    destruct (same_reservation v mid c) eqn:Es; [|done]. apply Hsame in Es as [? ?].
    exists c, v. split_and!; auto. }
  repeat (case_match; simplify_eq/=; try done).
  all: match goal with |- exists _, _ => idtac end.
  all: try (match goal with H : same_reservation _ _ _ = true |- _ => apply Hsame in H as [? ?] end;
            eexists _, _; split_and!; by eauto).
  all: exists c, (mid, c); split_and!; auto; apply dget_dset.
Qed.

Lemma reserve_cases m mid i pid s :
  match _reserve m mid i pid s with
  | (Ok rid, s') => booked s mid i rid s'
  | (Raise _, s') => live_reservations s' = live_reservations s
  end.
Proof.
  unfold _reserve, booked, live_reservations. cbv zeta. unfold sbind, on_reservation, zoom.
  match goal with |- context [Reservation.reserve ?a ?b ?c ?d ?e ?f ?g ?h] =>
    pose proof (reserve_raw a b c d e f g h) as H; destruct (Reservation.reserve a b c d e f g h) as [[[rid|]|ex] s'] end;
    [|exact H|exact H].
  destruct H as (c & v & Hc & Hv & Hm & Ha & Hs). cbn. destruct rid as [|ch rid]; cbn.
  - destruct Hs as [Hs|[Hs _]]; [exact Hs|]. done.
  - exists c, v. split_and!; try done. destruct Hs as [?|[_ ?]]; auto.
Qed.

(** What follows a booking without touching the reservations keeps it. *)
Lemma booked_same s mid i rid s1 s2 : booked s mid i rid s1 -> same reservation s1 s2 -> booked s mid i rid s2.
Proof. unfold booked, same, live_reservations. by intros H ->. Qed.

Lemma booked_after s0 s mid i rid s' : same reservation s0 s -> booked s mid i rid s' -> booked s0 mid i rid s'.
Proof. unfold booked, same, live_reservations. by intros ->. Qed.

Lemma release_raw mid amt c rid s : _decimal amt = Ok c ->
  _reservations (release mid amt (Some rid) s).2 = ddel rid (_reservations s).
Proof.
  intros Hc. unfold release, give_back, sbind, lift, get, ret, set_mandates, set_reservations, set_keys, modify.
  rewrite Hc. repeat (case_match; simplify_eq/=; try done).
Qed.

(** Releasing a booking leaves nothing new. *)
Lemma release_booked s mid i rid s1 : booked s mid i rid s1 -> no_new s (_release mid i rid s1).2.
Proof.
  intros (c & v & Hc & _ & _ & _ & _ & Hs) Hd. unfold _release, on_reservation, zoom, live_reservations in *.
  pose proof (release_raw mid _ c rid (reservation s1) Hc) as Hr.
  destruct (release mid (VStr (i_amount i)) (Some rid) (reservation s1)) as [o r]. cbn in *. rewrite Hr.
  assert (dict_ok (_reservations (reservation s1))) as H1 by (destruct Hs as [->| ->]; [done|by apply dset_ok]).
  split; [by apply ddel_ok|]. intros rid' v'. destruct (decide (rid = rid')) as [<-|Hn].
  - by rewrite dget_ddel.
  - rewrite dget_ddel_ne by done. destruct Hs as [->| ->]; [done|]. by rewrite dget_dset_ne.
Qed.

(** ** Blocks *)

(** A call inside a block, and the assignment of its result. *)
Lemma in_block_bind {L A B} (m : svc A) (k : A -> block L B) s l :
  sbind (in_block m) k (s, l) =
  match m s with
  | (Ok a, s') => k a (s', l)
  | (Raise e, s') => (Raise e, (s', l))
  end.
Proof. unfold sbind, in_block, zoom. cbn. destruct (m s) as [[a|e] s']; done. Qed.

Lemma assign_bind {L B} (l' : L) (k : unit -> block L B) s l : sbind (assign l') k (s, l) = k () (s, l').
Proof. done. Qed.

Lemma in_block_run {L A} (m : svc A) s (l : L) : in_block m (s, l) = ((m s).1, ((m s).2, l)).
Proof. unfold in_block, zoom. cbn. by destruct (m s). Qed.

(** ** A refused request holds nothing *)

Definition approved_outcome (o : res VerificationResult) : bool :=
  match o with Ok r => is_approved (vr_decision r) | Raise _ => false end.

(** How a request ends, from [s]: as [good] says, or refused with nothing newly
    reserved. *)
Definition settled (s : Stores) (good : VerificationResult -> Stores -> Prop)
    (x : res VerificationResult * Stores) : Prop :=
  match x with
  | (Ok r, s') => good r s' \/ (is_approved (vr_decision r) = false /\ no_new s s')
  | (Raise _, s') => no_new s s'
  end.

Lemma settled_refused s good x : approved_outcome x.1 = false -> no_new s x.2 -> settled s good x.
Proof. destruct x as [[r|e] s']; cbn; auto. Qed.

(** Exceptions an operation cannot raise. *)
Definition never {S A} (e : exn) (m : st S A) : Prop := forall s, (m s).1 <> Raise e.

Lemma never_bind {S A B} e (m : st S A) (f : A -> st S B) :
  never e m -> (forall a, never e (f a)) -> never e (sbind m f).
Proof.
  intros Hm Hf s. unfold sbind. specialize (Hm s). destruct (m s) as [[a|e'] s']; [apply Hf|].
  cbn in *. congruence.
Qed.

Lemma never_zoom {S T A} e (view : S -> T) (update : T -> S -> S) (m : st T A) :
  never e m -> never e (zoom view update m).
Proof. intros H s. unfold zoom. specialize (H (view s)). by destruct (m (view s)). Qed.

Lemma dadd_raises a b e : dadd a b = Raise e -> e = InvalidOperation.
Proof. destruct a as [| |], b as [| |]; cbn; try done. destruct (Bool.eqb _ _); [done|]. by intros [= <-]. Qed.

Lemma add_never m c w b v : never ReservationRejected (_add m c w b v).
Proof.
  intros s. unfold _add, sbind, get, lift, set_buckets, modify.
  destruct (dadd _ v) eqn:E; [done|]. apply dadd_raises in E. subst. done.
Qed.

Lemma emit_texts_never t agg a b x y now :
  never ReservationRejected (_emit t agg [(a, VStr x); (b, VStr y)] now).
Proof.
  intros s. unfold _emit, sbind, lift, _new_event, _canonical_payload, dumps, on_outbox, zoom, append_event,
    sbind, get, put, ret, raise. cbn [to_json rbind].
  destruct (ob_fail (outbox s)); [done|]. by destruct (existsb _ _).
Qed.

Lemma open_never mid now : never ReservationRejected (_observe_open_authorization mid now).
Proof.
  unfold _observe_open_authorization, on_velocity. apply never_zoom. unfold increment_open_authorizations.
  apply never_bind; [done|]. intros _. apply add_never.
Qed.

Definition approved_tail (intent : PurchaseIntent) (mandate_id purchase_id rid : string) (now : Z) : svc Decision :=
  p <- new_purchase purchase_id mandate_id (i_jti intent) "pending_capture" None (Some rid) None ;;
  _save_purchase p ;;;
  _observe_open_authorization mandate_id now ;;;
  _emit "purchase.verified" purchase_id
    [("purchase_id", VStr purchase_id); ("reservation_id", VStr rid)]%string now ;;;
  ret (approved_decision (Some rid)).

Lemma approved_tail_frame R `{!StoreCalls R} i mid pid rid now : respects R (approved_tail i mid pid rid now).
Proof. unfold approved_tail, new_purchase, _save_purchase, _observe_open_authorization, _emit. respects. Qed.

Lemma approved_tail_outcome i mid pid rid now s :
  (approved_tail i mid pid rid now s).1 = Ok (approved_decision (Some rid)) \/
  exists e, (approved_tail i mid pid rid now s).1 = Raise e /\ e <> ReservationRejected.
Proof.
  assert (Hn : never ReservationRejected (approved_tail i mid pid rid now)).
  { apply never_bind; [done|]. intros p. apply never_bind.
    { intros s'. unfold _save_purchase, on_purchases, zoom, create_purchase, sbind, get, put, ret.
      by destruct (dget _ _). }
    intros _. apply never_bind; [apply open_never|]. intros _. by apply never_bind; [apply emit_texts_never|]. }
  specialize (Hn s). destruct (approved_tail i mid pid rid now s) as [[d|e] s'] eqn:E; cbn in *.
  2: { right. exists e. split; [done|]. congruence. }
  left. unfold approved_tail in E. repeat (apply sbind_inv_ok in E as (? & ? & _ & E)). by injection E as <- <-.
Qed.

Lemma approved_block_cases m i mid pid now s :
  match approved_block m i mid pid now (s, None) with
  | (Ok d, (s', l)) => exists rid, d = approved_decision (Some rid) /\ l = Some rid /\ booked s mid i rid s'
  | (Raise _, (s', None)) => no_new s s'
  | (Raise e, (s', Some rid)) => e <> ReservationRejected /\ booked s mid i rid s'
  end.
Proof.
  unfold approved_block. rewrite in_block_bind.
  assert (respects (same reservation) (_observe_intent mid i now)) as Ho by (unfold _observe_intent; respects).
  specialize (Ho s). destruct (_observe_intent mid i now s) as [[[]|e] s0]; cbn in Ho; [|by apply same_no_new].
  rewrite in_block_bind. pose proof (reserve_cases m mid i pid s0) as Hr.
  destruct (_reserve m mid i pid s0) as [[rid|e] s1].
  2: { intros Hd. split; unfold live_reservations in *; rewrite Hr, Ho; done. }
  rewrite assign_bind. fold (approved_tail i mid pid rid now). rewrite in_block_run.
  pose proof (approved_tail_frame (same reservation) i mid pid rid now s1) as Hf.
  assert (Hb : booked s mid i rid (approved_tail i mid pid rid now s1).2).
  { eapply booked_same; [|exact Hf]. by eapply booked_after. }
  destruct (approved_tail_outcome i mid pid rid now s1) as [->|(e & -> & He)]; eauto.
Qed.

(** [_transaction] by cases on the block. *)
Lemma transaction_run `{TransactionManager} {L A} (m : block L A) l s :
  _transaction m l s =
  match m (s, l) with
  | (Ok a, (s', l')) => (Ok (Ok a, l'), s')
  | (Raise e, (s', l')) => (Ok (Raise e, l'), on_raise s s')
  end.
Proof. done. Qed.

Lemma on_raise_related `{TransactionManager} R `{!PreOrder R} s s' : R s s' -> R s (on_raise s s').
Proof. intros HR. destruct on_raise_law as [Hr|Hr]; rewrite Hr; [reflexivity|done]. Qed.

(** [_rejected] never approves. *)
Lemma rejected_outcome `{TransactionManager} i mid pid d now s : is_approved d = false ->
  approved_outcome (_rejected i mid pid d now s).1 = false.
Proof.
  intros Hd. unfold _rejected. unfold sbind at 1.
  rewrite transaction_run. destruct (rejected_block i mid pid d now (s, ())) as [[[]|e] [s1 l1]]; [done|].
  cbn [fst]. unfold sbind. by destruct (_update_purchase _ _ _) as [[|] ?].
Qed.

Lemma rejected_no_new `{TransactionManager} i mid pid d now : respects no_new (_rejected i mid pid d now).
Proof. apply respects_same_no_new, rejected_respects; exact _. Qed.

Lemma release_no_new mid i rid : respects no_new (_release mid i rid).
Proof.
  intros s Hd. unfold _release, on_reservation, zoom, live_reservations in *.
  destruct (_decimal (VStr (i_amount i))) as [c|e] eqn:Hc.
  - pose proof (release_raw mid _ c rid (reservation s) Hc) as Hr.
    destruct (release mid (VStr (i_amount i)) (Some rid) (reservation s)) as [o r]. cbn in *. rewrite Hr.
    split; [by apply ddel_ok|]. intros rid' v'. destruct (decide (rid = rid')) as [<-|Hn].
    + by rewrite dget_ddel.
    + by rewrite dget_ddel_ne.
  - unfold release, sbind, lift. rewrite Hc. done.
Qed.

Definition approved_well (mid : string) (i : PurchaseIntent) (pid : string) (s : Stores) (r : VerificationResult)
    (s' : Stores) : Prop :=
  exists rid, r = result (approved_decision (Some rid)) pid "pending_capture" None /\ booked s mid i rid s'.

(** The approval branch: what an approval holds, and that nothing else is held. *)
Lemma approved_settled `{TransactionManager} m i mid pid now s :
  settled s (approved_well mid i pid s) (_approved m i mid pid now s).
Proof.
  set (good := approved_well mid i pid s).
  assert (Hrej : forall d s1, is_approved d = false -> no_new s s1 -> settled s good (_rejected i mid pid d now s1)).
  { intros d s1 Hd Hs. apply settled_refused; [by apply rejected_outcome|].
    etransitivity; [exact Hs|apply rejected_no_new]. }
  unfold _approved. unfold sbind at 1. rewrite transaction_run.
  pose proof (approved_block_cases m i mid pid now s) as Hc.
  destruct (approved_block m i mid pid now (s, None)) as [[d|e] [s1 [rid|]]].
  - destruct Hc as (rid' & -> & [= <-] & Hb). left. by exists rid.
  - by destruct Hc as (rid' & _ & ? & _).
  - destruct Hc as [He Hb].
    assert (Hrel : no_new s (_release mid i rid (on_raise s s1)).2).
    { destruct on_raise_law as [Hr|Hr]; rewrite Hr; [apply release_no_new|by apply release_booked]. }
    assert (Hgo : settled s good
      (sbind (released <- _release mid i rid ;;
              if (released : bool) then _release_open_authorization mid now else ret ())
         (fun _ => _rejected i mid pid (reject MANDATE_SUSPENDED) now) (on_raise s s1))).
    { unfold sbind. destruct (_release mid i rid (on_raise s s1)) as [[[|]|e'] s2]; cbn [fst snd] in Hrel;
        [|by apply Hrej|done]. unfold _release_open_authorization.
      pose proof (respects_same_no_new _ (calls_velocity _ (decrement_open_authorizations mid (Aware now))) s2) as Hv.
      destruct (on_velocity _ s2) as [[[]|e'] s3]; cbn [snd] in Hv; [apply Hrej; [done|by etransitivity]|unfold settled; by etransitivity]. }
    by destruct e.
  - assert (Hn : no_new s (on_raise s s1)) by by apply on_raise_related; [exact _|].
    destruct e; try (by apply Hrej); unfold sbind; cbn [ret]; by apply Hrej.
Qed.

(** ** Expiry and resolution *)

#[export] Instance calls_no_new : StoreCalls no_new.
Proof.
  split; try exact _; intros; apply respects_same_no_new; (apply calls_velocity || apply calls_purchases
    || apply calls_outcome || apply calls_outbox || apply calls_uuid); exact _.
Qed.
#[export] Hint Resolve release_no_new : frame.

Section Expiry.
Context `{TransactionManager}.

Definition expire_tail (record : EscalationRecord) (now : Z) (reason : ReasonCode) (l : option string * bool)
    : svc unit :=
  on_escalations (update_escalation (er_escalation_id record) "expired" (ReasonCode_value reason)) ;;;
  _update_purchase (er_purchase_id record)
    (compensated_changes reason (if (l.2 : bool) then None else l.1)) ;;;
  _emit "escalation.expired" (er_escalation_id record)
    [("escalation_id", VStr (er_escalation_id record));
     ("purchase_id", VStr (er_purchase_id record))]%string now.

Lemma expire_tail_no_new e now r l : respects no_new (expire_tail e now r l).
Proof. unfold expire_tail, _update_purchase, _emit. respects. Qed.

Lemma expire_no_new e now r rid : respects no_new (_expire_and_compensate e now r rid).
Proof.
  unfold _expire_and_compensate, expire_block, _read_purchase, _update_purchase, _emit,
    _release_open_authorization.
  respects.
Qed.

Lemma expire_outcome e now r rid s :
  exists r', (_expire_and_compensate e now r rid s).1 = Ok (compensated e r').
Proof.
  unfold _expire_and_compensate. unfold sbind at 1. rewrite transaction_run.
  destruct (expire_block e now r (s, (rid, false))) as [[[]|ex] [s1 [[rid'|] [|]]]]; cbn; try (by eauto).
  unfold sbind at 1. unfold catch.
  destruct (sbind (_release _ _ _) _ _) as [[[]|ex'] s2]; cbn; eauto.
Qed.

(** What the purchase of the escalation says of its reservation. *)
Definition names_only (pid rid : string) (s : Stores) : Prop :=
  match dget pid (purchases s) with Some p => p_reservation_id p = Some rid | None => True end.

(** The part of the block after the reservation to give back is known. *)
Definition release_block (e : EscalationRecord) (now : Z) (reason : ReasonCode) (rid : string)
    : block (option string * bool) unit :=
  released <- in_block (_release (er_mandate_id e) (er_intent e) rid) ;;
  assign (Some rid, released) ;;;
  (if (released : bool) then in_block (_release_open_authorization (er_mandate_id e) now) else ret ()) ;;;
  l <- local ;;
  in_block (expire_tail e now reason l).

Lemma expire_block_named e now reason rid s : rid <> ""%string -> names_only (er_purchase_id e) rid s ->
  expire_block e now reason (s, (Some rid, false)) = release_block e now reason rid (s, (Some rid, false)).
Proof.
  intros Hrid Hn. unfold expire_block, release_block. rewrite in_block_bind.
  unfold _read_purchase, gets, get_purchase, names_only in *. cbv beta iota.
  destruct (dget (er_purchase_id e) (purchases s)) as [p|].
  - rewrite Hn. destruct rid as [|ch rid]; [done|]. cbn [or_str truthy_str].
    unfold sbind, assign, modify, local, gets, ret. cbn [fst snd].
    destruct (in_block _ _) as [[[|]|ex] [s1 l1]]; done.
  - unfold sbind, assign, modify, local, gets, ret. cbn [fst snd].
    destruct (in_block _ _) as [[[|]|ex] [s1 l1]]; done.
Qed.

Lemma release_block_no_new e now reason rid l s s1 :
  booked s (er_mandate_id e) (er_intent e) rid s1 ->
  no_new s (release_block e now reason rid (s1, l)).2.1.
Proof.
  intros Hb. unfold release_block. rewrite in_block_bind.
  pose proof (release_booked _ _ _ _ _ Hb) as Hr.
  destruct (_release (er_mandate_id e) (er_intent e) rid s1) as [[rel|ex] s2]; cbn [snd] in Hr; [|done].
  rewrite assign_bind. etransitivity; [exact Hr|].
  assert (Hrest : respects (on_stores no_new)
    ((if rel then in_block (_release_open_authorization (er_mandate_id e) now) else ret ()) ;;;
     l <- local ;; in_block (expire_tail e now reason l) : block (option string * bool) unit)).
  { unfold _release_open_authorization. pose proof expire_tail_no_new. respects. }
  apply (Hrest (s2, (Some rid, rel))).
Qed.

(** A booking whose transaction kept its writes is given back. *)
Lemma expire_booked e now reason rid s s1 :
  (forall before after, on_raise before after = after) ->
  booked s (er_mandate_id e) (er_intent e) rid s1 -> names_only (er_purchase_id e) rid s1 ->
  no_new s (_expire_and_compensate e now reason (Some rid) s1).2.
Proof.
  intros Hnull Hb Hn. unfold _expire_and_compensate. unfold sbind at 1. rewrite transaction_run.
  assert (rid <> ""%string) as Hrid by (by destruct Hb as (? & ? & _ & ? & _)).
  rewrite expire_block_named by done.
  pose proof (release_block_no_new e now reason rid (Some rid, false) s s1 Hb) as Hr.
  destruct (release_block e now reason rid (s1, (Some rid, false))) as [[[]|ex] [s2 [lr lb]]]; cbn [snd fst] in Hr;
    [done|]. rewrite Hnull. destruct lr as [rid'|]; [|done]. destruct lb; [done|].
  unfold sbind at 1.
  assert (Hc : respects no_new (catch (released <- _release (er_mandate_id e) (er_intent e) rid' ;;
             if (released : bool) then _release_open_authorization (er_mandate_id e) now else ret ())
        (fun _ => Some (ret ())))) by (unfold _release_open_authorization; respects).
  specialize (Hc s2). destruct (catch _ _ s2) as [[[]|ex'] s3]; cbn in *; by etransitivity.
Qed.
End Expiry.

(** The gate approves the intent of the mandate on what the stores say. *)
Definition gated (self : DecisionService) (s : Stores) (m : mandate_row) (mid : string) (i : PurchaseIntent)
    (now : Z) (stepup : bool) : Prop :=
  exists o sp d, get_offer (i_offer_id i) (offers s) = Some o /\ (_spend mid m now s).1 = Ok sp /\
    _evaluate self m i sp now (Some o) stepup = Ok d /\ is_approved d = true.

Section Resolve.
Context `{TransactionManager} (self : DecisionService).

Definition resolve_tail (escalation_id : string) (record : EscalationRecord) (now : Z) (rid : string) : svc string :=
  on_escalations (update_escalation escalation_id "resolved" "APPROVE") ;;;
  _update_purchase (er_purchase_id record) (resolved_changes rid) ;;;
  _observe_open_authorization (er_mandate_id record) now ;;;
  _emit "escalation.resolved" escalation_id
    [("escalation_id", VStr escalation_id); ("decision", VStr "APPROVE")]%string now ;;;
  _emit "purchase.verified" (er_purchase_id record)
    [("purchase_id", VStr (er_purchase_id record)); ("reservation_id", VStr rid)]%string now ;;;
  ret rid.

Lemma resolve_tail_frame R `{!StoreCalls R} eid e now rid : respects R (resolve_tail eid e now rid).
Proof. unfold resolve_tail, _update_purchase, _observe_open_authorization, _emit. respects. Qed.

Lemma update_purchase_names pid rid s : names_only pid rid (_update_purchase pid (resolved_changes rid) s).2.
Proof.
  unfold _update_purchase, names_only, update_purchase, on_purchases, zoom, sbind, get, put, ret.
  destruct (dget pid (purchases s)) as [p|] eqn:E; cbn; [by rewrite dget_dset|by rewrite E].
Qed.

Lemma resolve_tail_names eid e now rid s : names_only (er_purchase_id e) rid (resolve_tail eid e now rid s).2.
Proof.
  unfold resolve_tail. unfold sbind at 1.
  assert (exists s1, on_escalations (update_escalation eid "resolved" "APPROVE") s =
    ((update_escalation eid "resolved" "APPROVE" (escalations s)).1, s1) /\
    exists x, (update_escalation eid "resolved" "APPROVE" (escalations s)).1 = Ok x) as (s1 & -> & x & ->).
  { unfold on_escalations, zoom, update_escalation, sbind, get, put, ret.
    destruct (dget eid (escalations s)); cbn; eauto. }
  unfold sbind at 1. pose proof (update_purchase_names (er_purchase_id e) rid s1) as Hn.
  assert (exists y, (_update_purchase (er_purchase_id e) (resolved_changes rid) s1).1 = Ok y) as [y Hy].
  { unfold _update_purchase, update_purchase, on_purchases, zoom, sbind, get, put, ret.
    destruct (dget _ (purchases s1)); cbn; eauto. }
  destruct (_update_purchase _ _ s1) as [o s2]; cbn in Hy, Hn. subst o.
  assert (Hf : respects (same purchases)
    (_observe_open_authorization (er_mandate_id e) now ;;;
     _emit "escalation.resolved" eid [("escalation_id", VStr eid); ("decision", VStr "APPROVE")]%string now ;;;
     _emit "purchase.verified" (er_purchase_id e)
       [("purchase_id", VStr (er_purchase_id e)); ("reservation_id", VStr rid)]%string now ;;;
     ret rid)).
  { unfold _observe_open_authorization, _emit. respects; other_store. }
  specialize (Hf s2). unfold names_only in *. unfold same in Hf. by rewrite Hf.
Qed.

Lemma resolve_block_cases m eid e now s :
  match resolve_block m eid e now (s, None) with
  | (Ok rid, (s', l)) => l = Some rid /\ booked s (er_mandate_id e) (er_intent e) rid s'
  | (Raise _, (s', None)) => no_new s s'
  | (Raise _, (s', Some rid)) =>
      booked s (er_mandate_id e) (er_intent e) rid s' /\ names_only (er_purchase_id e) rid s'
  end.
Proof.
  unfold resolve_block. rewrite in_block_bind.
  pose proof (reserve_cases m (er_mandate_id e) (er_intent e) (er_purchase_id e) s) as Hr.
  destruct (_reserve m _ _ _ s) as [[rid|ex] s1].
  2: { intros Hd. split; unfold live_reservations in *; rewrite Hr; done. }
  rewrite assign_bind. fold (resolve_tail eid e now rid). rewrite in_block_run.
  pose proof (resolve_tail_frame (same reservation) eid e now rid s1) as Hf.
  pose proof (resolve_tail_names eid e now rid s1) as Hn.
  assert (Hb : booked s (er_mandate_id e) (er_intent e) rid (resolve_tail eid e now rid s1).2)
    by by eapply booked_same.
  destruct (resolve_tail eid e now rid s1) as [[rid'|ex] s2] eqn:E; cbn [fst snd] in *; [|done].
  unfold resolve_tail in E. repeat (apply sbind_inv_ok in E as (? & ? & _ & E)). by injection E as <- <-.
Qed.

(** The branch after an approved envelope. *)
Lemma expire_settled e now reason rid s s1 good : no_new s (_expire_and_compensate e now reason rid s1).2 ->
  settled s good (_expire_and_compensate e now reason rid s1).
Proof.
  intros Hn. apply settled_refused; [|done]. by destruct (expire_outcome e now reason rid s1) as [r' ->].
Qed.

Definition resolved_well (eid : string) (e : EscalationRecord) (now : Z) (s : Stores) (r : VerificationResult)
    (s' : Stores) : Prop :=
  exists rid m, r = result (approved_decision (Some rid)) (er_purchase_id e) "pending_capture" (Some eid) /\
    booked s (er_mandate_id e) (er_intent e) rid s' /\
    (get_by_jti (er_mandate_id e) (mandates s) = Some m \/
     get_by_jti (i_mandate_jti (er_intent e)) (mandates s) = Some m) /\
    gated self s m (er_mandate_id e) (er_intent e) now true.

(** The evaluation inside [try]. *)
Lemma decided_run m mid i now o stepup s :
  let run := catch (spend <- _spend mid m now ;; d <- lift (_evaluate self m i spend now o stepup) ;; ret (Some d))
               (fun _ => Some (ret None)) in
  exists od s1, run s = (Ok od, s1) /\ same reservation s s1 /\
    match od with
    | Some d => exists sp, (_spend mid m now s).1 = Ok sp /\ _evaluate self m i sp now o stepup = Ok d
    | None => True
    end.
Proof.
  cbv zeta. assert (Hf : respects (same reservation) (_spend mid m now)) by (apply spend_respects; exact _).
  specialize (Hf s). unfold catch, sbind, lift, ret. destruct (_spend mid m now s) as [[sp|e] s1]; cbn in Hf.
  - destruct (_evaluate self m i sp now o stepup) as [d|e] eqn:E; [exists (Some d), s1|by exists None, s1].
    split; [done|]. split; [done|]. by exists sp.
  - by exists None, s1.
Qed.

Lemma resolve_approved_settled eid e now s :
  settled s (resolved_well eid e now s) (resolve_approved self eid e now s).
Proof.
  unfold resolve_approved, _read_mandate, _read_offer. unfold sbind at 1, gets at 1. unfold sbind at 1, gets at 1.
  set (read := match get_by_jti _ _ with Some m => Some m | None => _ end).
  assert (Hread : forall m, read = Some m -> get_by_jti (er_mandate_id e) (mandates s) = Some m \/
     get_by_jti (i_mandate_jti (er_intent e)) (mandates s) = Some m).
  { unfold read. intros m. destruct (get_by_jti (er_mandate_id e) (mandates s)); auto. }
  destruct read as [m|]; [|by apply expire_settled, expire_no_new].
  unfold sbind at 1, gets. destruct (get_offer _ _) as [o|] eqn:Eo; [|by apply expire_settled, expire_no_new].
  destruct (decided_run m (er_mandate_id e) (er_intent e) now (Some o) true s) as (od & s1 & Hrun & Hf & Hd).
  unfold sbind at 1. rewrite Hrun. apply same_no_new in Hf as Hn1.
  destruct od as [d|]; [|apply expire_settled; etransitivity; [exact Hn1|apply expire_no_new]].
  destruct Hd as (sp & Hsp & Hev). destruct (is_approved d) eqn:Ed; cbn [negb];
    [|apply expire_settled; etransitivity; [exact Hn1|apply expire_no_new]].
  unfold sbind at 1. rewrite transaction_run. pose proof (resolve_block_cases m eid e now s1) as Hb.
  destruct (resolve_block m eid e now (s1, None)) as [[rid|ex] [s2 [rid'|]]].
  - destruct Hb as [_ Hb]. left. exists rid, m. split; [done|]. split; [by eapply booked_after|].
    split; [by apply Hread|]. exists o, sp, d. done.
  - by destruct Hb.
  - destruct Hb as [Hb Hnm]. apply expire_settled. destruct on_raise_law as [Hr|Hr]; rewrite Hr.
    + etransitivity; [exact Hn1|apply expire_no_new].
    + apply expire_booked; [done| |done]. by eapply booked_after.
  - apply expire_settled. etransitivity; [exact Hn1|]. etransitivity; [|apply expire_no_new].
    apply on_raise_related; [exact _|done].
Qed.

(** A call that does not touch the reservations settles. *)
Lemma frame_settled {m : svc VerificationResult} s good :
  respects (same reservation) m -> approved_outcome (m s).1 = false -> settled s good (m s).
Proof. intros Hf Ho. apply settled_refused; [done|]. apply same_no_new, Hf. Qed.

Definition resolution (eid : string) (ap : approval_arg) (a : pyval) (e : EscalationRecord) (us : Z)
    (s : Stores) (r : VerificationResult) (s' : Stores) : Prop :=
  us < er_timeout_at e /\
  (exists v, resolve_envelope e (Aware us) ap (uv_verifier self) a None = Ok v /\ is_approved v = true) /\
  resolved_well eid e us s r s'.

Lemma envelope_two_ways e us ap uv a uvv v :
  resolve_envelope e (Aware us) ap uv a uvv = Ok v -> is_rejected v = false -> is_approved v = true.
Proof.
  unfold resolve_envelope. cbn [ensure_utc rbind]. intros Hv Hr.
  destruct (if negb _ then _ else _) as [[|]|]; cbn [rbind] in Hv; [|..|done].
  { injection Hv as <-. done. }
  destruct (domain_escalation e) as [de|]; cbn [rbind] in Hv; [|done].
  destruct (resolve_escalation_exact de us ap uv a (Some (er_diff e)) uvv) as (v' & Hv' & [?|Hrej] & _);
    rewrite Hv in Hv'; injection Hv' as <-; [done|]. by subst.
Qed.

Lemma now_run now s : _now now s = (ensure_utc (override now (Aware (wall s))), s).
Proof. done. Qed.

(** [resolve_escalation] after its two reads. *)
Definition resolve_found (eid : string) (ap : approval_arg) (a : pyval) (us : Z) (found : option EscalationRecord)
    : svc VerificationResult :=
  match found with
  | None =>
      ret (result (reject ESCALATION_TIMEOUT_DENIED) ("purchase-" +:+ eid)%string "rejected" (Some eid))
  | Some record =>
      if negb (String.eqb (er_status record) "pending") then
        existing <- _read_purchase (er_purchase_id record) ;;
        match existing with
        | Some p => _result_for_existing_purchase p
        | None => ret (result (reject ESCALATION_TIMEOUT_DENIED) (er_purchase_id record) "rejected"
                         (Some eid))
        end
      else if er_timeout_at record <=? us then
        _expire_and_compensate record us ESCALATION_TIMEOUT_DENIED None
      else
        envelope <- lift (resolve_envelope record (Aware us) ap (uv_verifier self) a None) ;;
        if is_rejected envelope then _expire_and_compensate record us ESCALATION_TIMEOUT_DENIED None
        else resolve_approved self eid record us
  end.

Lemma resolve_run eid ap now a uvv s :
  service_resolve_escalation self eid ap now a uvv s =
  match ensure_utc (override now (Aware (wall s))) with
  | Ok us => resolve_found eid ap a us (get_escalation eid (escalations s)) s
  | Raise e => (Raise e, s)
  end.
Proof.
  unfold service_resolve_escalation. unfold sbind at 1. rewrite now_run.
  by destruct (ensure_utc (override now (Aware (wall s)))).
Qed.

Lemma resolve_pending_settled eid ap a e us s : er_status e = "pending"%string ->
  settled s (resolution eid ap a e us s) (resolve_found eid ap a us (Some e) s).
Proof.
  intros Hp. unfold resolve_found. rewrite Hp. change (negb _) with false. cbv iota.
  destruct (Z.leb_spec (er_timeout_at e) us) as [|Hlt]; [by apply expire_settled, expire_no_new|].
  unfold sbind at 1, lift. destruct (resolve_envelope e (Aware us) ap (uv_verifier self) a None) as [v|ex] eqn:Ev;
    [|unfold settled; reflexivity].
  destruct (is_rejected v) eqn:Er; [by apply expire_settled, expire_no_new|].
  pose proof (resolve_approved_settled eid e us s) as Hs. unfold settled in *.
  destruct (resolve_approved self eid e us s) as [[r|ex] s']; [|done].
  destruct Hs as [Hs|Hs]; [left|by right]. split; [done|]. split; [|done]. exists v.
  split; [done|]. by eapply envelope_two_ways.
Qed.

Lemma existing_frame p : respects (same reservation) (_result_for_existing_purchase p).
Proof. apply existing_respects; exact _. Qed.

Lemma resolve_no_new eid ap now a uvv s :
  approved_outcome (service_resolve_escalation self eid ap now a uvv s).1 = false ->
  no_new s (service_resolve_escalation self eid ap now a uvv s).2.
Proof.
  rewrite resolve_run. destruct (ensure_utc _) as [us|ex]; [|cbn; reflexivity].
  destruct (get_escalation eid (escalations s)) as [e|]; [|cbn; reflexivity].
  destruct (String.eqb (er_status e) "pending") eqn:Ep.
  - apply String.eqb_eq in Ep. pose proof (resolve_pending_settled eid ap a e us s Ep) as Hs.
    unfold settled in Hs. destruct (resolve_found eid ap a us (Some e) s) as [[r|ex] s']; [|done].
    intros Ho. destruct Hs as [(_ & _ & (rid & m & -> & _))|[_ Hs]]; done.
  - intros _. unfold resolve_found. rewrite Ep. cbn [negb]. unfold sbind, _read_purchase, gets.
    destruct (get_purchase _ _) as [p|]; [|cbn; reflexivity]. apply same_no_new, existing_frame.
Qed.
End Resolve.

(** ** Verification *)

Section Verify.
Context `{TransactionManager} (self : DecisionService).

(** The new identifier is not the token of a stored claim. *)
Definition token_fresh (s : Stores) : Prop :=
  forall k r, _records (idempotency s) !! k = Some r -> r_claim_token r <> Some (uuid4 self (uuids s)).

Lemma claim_frame {B} (seen : Stores -> B) i now req scope :
  (forall supply, respects (same seen) (next_uuid supply)) ->
  (forall A (m : idem A), respects (same seen) (on_idempotency m)) ->
  respects (same seen) (_claim_idempotency self i now req scope).
Proof. intros Hu Hi. unfold _claim_idempotency. respects; auto. Qed.

(** [reserve] of the idempotency store: the record asked for, freshly stored, or
    one that was stored. *)
Lemma idem_reserve_cases r wall s r' s' :
  Idempotency.reserve r None wall s = (Ok r', s') ->
  (r' = r /\ _records s' !! r_key r = Some r) \/ (_records s !! r_key r = Some r' /\ s' = s).
Proof.
  unfold Idempotency.reserve, reserve_locked, current_time, sbind, get, lift, put, ret, raise. cbn [snd fst].
  destruct (derive_idempotency_key _ _) as [k|]; [|done]. destruct (compare_digest _ k) as [[|]|]; cbn [negb]; try done.
  destruct (_records s !! r_key r) as [e|] eqn:E.
  - destruct (is_expired e wall).
    + intros [= <- <-]. left. split; [done|]. cbn. by rewrite lookup_insert_eq.
    + destruct (_ || _); [done|]. destruct (compare_digest _ _) as [[|]|]; try done. intros [= <- <-]. by right.
  - intros [= <- <-]. left. split; [done|]. cbn. by rewrite lookup_insert_eq.
Qed.

Lemma make_record_fields j sec sc req now ttl resp tok r :
  make_record j sec sc req (Aware now) ttl resp tok = Ok r ->
  r_response r = resp /\ r_expires_at r = now + ttl /\ r_claim_token r = tok.
Proof.
  unfold make_record, mk_IdempotencyRecord. cbn [ensure_utc rbind opt_utc]. intros Hm.
  destruct (ttl <=? 0); [done|]. destruct (derive_idempotency_key j sec); cbn [rbind] in Hm; [|done].
  destruct (request_fingerprint req); cbn [rbind] in Hm; [|done].
  repeat case_match; try done. injection Hm as <-. done.
Qed.

(** A claim that is owned is on a record of its own, still without response. *)
Lemma claim_owned i now req scope s rec s1 : token_fresh s ->
  _claim_idempotency self i now req scope s = (Ok (Some rec, true), s1) ->
  _records (idempotency s1) !! r_key rec = Some rec /\ r_response rec = None /\
  r_expires_at rec = now + IDEMPOTENCY_TTL.
Proof.
  intros Hfresh. unfold _claim_idempotency. destruct (_ || _); [done|].
  unfold sbind at 1, next_uuid. set (s0 := {| mandates := _ |}). unfold sbind at 1, get. unfold sbind at 1.
  unfold on_idempotency, zoom, claim_idempotency. unfold sbind at 1, lift.
  set (tok := uuid4 self (uuids s)).
  destruct (make_record _ _ _ _ _ _ _ _) as [cand|] eqn:Em; [|done].
  apply make_record_fields in Em as (Hresp & Hexp & Htok). unfold sbind at 1.
  destruct (Idempotency.reserve cand None (wall s0) (idempotency s0)) as [[r|] st'] eqn:Er; [|done].
  cbn [ret c_record owns_claim]. intros [= <- Hown <-]. cbn [idempotency].
  apply bool_decide_eq_true in Hown. rewrite Htok in Hown.
  apply idem_reserve_cases in Er as [[-> Hr]|[Hr ->]]; [done|].
  exfalso. by apply (Hfresh _ _ Hr).
Qed.

(** Saving the response of an owned claim succeeds. *)
Lemma save_owned rec r now s :
  _records (idempotency s) !! r_key rec = Some rec -> r_response rec = None ->
  r_expires_at rec = now + IDEMPOTENCY_TTL ->
  exists s', _save_idempotency (Some rec) r now s = (Ok r, s') /\ same reservation s s' /\
    _records (idempotency s') !! r_key rec = Some (with_response rec (as_dict r)) /\
    store_secret (idempotency s') = store_secret (idempotency s) /\ purchases s' = purchases s.
Proof.
  intros Hr Hn Hx. unfold _save_idempotency. rewrite Hn.
  unfold sbind, on_idempotency, zoom, save_response, sbind, lift, get. cbn [current_time ensure_utc]. rewrite Hr.
  unfold is_expired. rewrite Hx.
  destruct (Z.leb_spec (now + IDEMPOTENCY_TTL) now) as [Hle|_].
  { unfold IDEMPOTENCY_TTL, days, hours, minutes, seconds in Hle. lia. }
  rewrite Hn. unfold put, ret. cbn. eexists. split; [done|]. split; [done|]. cbn. by rewrite lookup_insert_eq.
Qed.

(** What an approval of [verify] stands on: a purchase already pending capture,
    or the gate and a booking. *)
Definition verified_well (i : PurchaseIntent) (now : Z) (mandate : option mandate_row) (pid : string)
    (s : Stores) (r : VerificationResult) (s' : Stores) : Prop :=
  (exists p, get_by_intent (i_jti i) (purchases s) = Some p /\ p_status p = "pending_capture"%string /\
     r = result (approved_decision (p_reservation_id p)) (p_purchase_id p) "pending_capture" None /\
     same reservation s s') \/
  (get_by_intent (i_jti i) (purchases s) = None /\
   exists m, match mandate with Some m' => m' = m | None => get_by_jti (i_mandate_jti i) (mandates s) = Some m end /\
     gated self s m (_mandate_id (Some m) (i_mandate_jti i)) i now false /\
     approved_well (_mandate_id (Some m) (i_mandate_jti i)) i pid s r s').

Lemma existing_settled i now m pid s p : get_by_intent (i_jti i) (purchases s) = Some p ->
  settled s (verified_well i now m pid s) (_result_for_existing_purchase p s).
Proof.
  intros Hp. pose proof (existing_frame p s) as Hf. unfold same in Hf.
  destruct (String.eqb (p_status p) "pending_capture") eqn:Est.
  - unfold _result_for_existing_purchase in *. rewrite Est in *. apply String.eqb_eq in Est. left. left.
    exists p. split; [done|]. split; [done|]. by rewrite Est.
  - apply settled_refused; [|by apply same_no_new]. unfold _result_for_existing_purchase. rewrite Est.
    destruct (String.eqb (p_status p) "awaiting_escalation"); [|done].
    match goal with |- context [sbind ?m _ s] => unfold sbind at 1; destruct (m s) as [[e|ex] s1] end; [|done].
    unfold sbind, lift, mk_Decision.
    change (DecisionValue_of (DecisionValue_value ESCALATED)) with (Ok (A := DecisionValue) ESCALATED).
    cbn [rbind]. destruct (match option_map _ _ with Some _ => _ | None => _ end); cbn [rbind]; [|done].
    destruct (match option_map er_level e with Some _ => _ | None => _ end); cbn [rbind]; [|done].
    by destruct (match _ with Some t => t <? 0 | None => false end).
Qed.

Lemma rejected_settled i mid pid d now s s1 good : is_approved d = false -> no_new s s1 ->
  settled s good (_rejected i mid pid d now s1).
Proof.
  intros Hd Hn. apply settled_refused; [by apply rejected_outcome|].
  etransitivity; [exact Hn|apply rejected_no_new].
Qed.

Lemma escalated_outcome i o mid pid d now s : is_approved d = false ->
  approved_outcome (_escalated self i o mid pid d now s).1 = false.
Proof.
  intros Hd. unfold _escalated. unfold sbind at 1, next_uuid. unfold sbind at 1, lift.
  destruct (create_escalation _ _ _ _ _ _ _ _) as [e|]; [|done]. unfold sbind at 1. rewrite transaction_run.
  destruct (escalated_block _ _ _ _ _ _ _) as [[[]|ex] [s1 l1]]; [done|]. cbn [fst].
  unfold sbind. destruct (_update_purchase _ _ _) as [[x|] s2]; [|done]. by destruct (on_escalations _ s2) as [[y|] s3].
Qed.

Lemma verify_claimed_settled i now m pid s :
  settled s (verified_well i now m pid s) (verify_claimed self i now m pid s).
Proof.
  unfold verify_claimed. unfold sbind at 1, _read_purchase_by_intent, gets.
  destruct (get_by_intent (i_jti i) (purchases s)) as [p|] eqn:Ep; [by apply existing_settled|].
  unfold sbind at 1, _read_mandate, gets. set (loaded := match m with Some m0 => Some m0 | None => _ end).
  assert (Hl : forall x, loaded = Some x ->
    match m with Some m' => m' = x | None => get_by_jti (i_mandate_jti i) (mandates s) = Some x end).
  { unfold loaded. intros x. destruct m; [by intros [= ->]|done]. }
  destruct loaded as [row|]; [|by apply rejected_settled].
  set (mid := _mandate_id (Some row) (i_mandate_jti i)).
  unfold sbind at 1, _read_offer, gets. destruct (get_offer (i_offer_id i) (offers s)) as [o|] eqn:Eo;
    [|by apply rejected_settled].
  destruct (decided_run self row mid i now (Some o) false s) as (od & s1 & Hrun & Hf & Hd).
  unfold sbind at 1. rewrite Hrun. apply same_no_new in Hf as Hn.
  destruct od as [d|]; [|by apply rejected_settled]. destruct Hd as (sp & Hsp & Hev).
  destruct (decision d) eqn:Ed.
  - pose proof (approved_settled row i mid pid now s1) as Hs. unfold settled in *.
    destruct (_approved row i mid pid now s1) as [[r|ex] s']; [|by etransitivity].
    destruct Hs as [(rid & -> & Hb)|[? ?]]; [left|right; split; [done|by etransitivity]].
    right. split; [done|]. exists row. split; [by apply Hl|]. split.
    + exists o, sp, d. split_and!; try done. unfold is_approved. by rewrite Ed.
    + exists rid. split; [done|]. by eapply booked_after.
  - apply rejected_settled; [|done]. unfold is_approved. by rewrite Ed.
  - apply settled_refused.
    + apply escalated_outcome. unfold is_approved. by rewrite Ed.
    + etransitivity; [exact Hn|]. apply same_no_new, escalated_respects; [exact _|]. intros. other_store.
Qed.

(** Once claimed, the request settles as [verify_claimed] does and its response
    is stored. *)
Lemma finish_settled i now m pid rec s :
  _records (idempotency s) !! r_key rec = Some rec -> r_response rec = None ->
  r_expires_at rec = now + IDEMPOTENCY_TTL ->
  settled s (verified_well i now m pid s) (finish (Some rec) now (verify_claimed self i now m pid) s).
Proof.
  intros Hr Hn Hx. unfold finish. unfold sbind at 1.
  pose proof (verify_claimed_settled i now m pid s) as Hs.
  assert (Hf : respects (same idempotency) (verify_claimed self i now m pid)).
  { apply verify_claimed_respects; [exact _|..]; intros; other_store. }
  specialize (Hf s). destruct (verify_claimed self i now m pid s) as [[r|ex] s1]; [|done]. cbn in Hf.
  destruct (save_owned rec r now s1) as (s2 & Hsave & Hrs & _); [by rewrite Hf|done..|].
  unfold catch. rewrite Hsave. unfold settled in *. destruct Hs as [[Hp|(Hp & row & Hm & Hg & Hb)]|[? ?]].
  - left. left. destruct Hp as (p & ? & ? & ? & ?). exists p. split_and!; try done. by etransitivity.
  - left. right. split; [done|]. exists row. split; [done|]. split; [done|].
    destruct Hb as (rid & ? & Hb). exists rid. split; [done|]. by eapply booked_same.
  - right. split; [done|]. etransitivity; [done|]. by apply same_no_new.
Qed.

Lemma finish_unclaimed i now m pid s :
  settled s (verified_well i now m pid s) (finish None now (verify_claimed self i now m pid) s).
Proof.
  unfold finish, sbind. pose proof (verify_claimed_settled i now m pid s) as Hs.
  by destruct (verify_claimed self i now m pid s) as [[r|ex] s1].
Qed.

(** A stored response is returned as it is read back. *)
Definition replayed (pid : string) (s : Stores) (r : VerificationResult) (s' : Stores) : Prop :=
  exists k rec response, _records (idempotency s) !! k = Some rec /\ r_response rec = Some response /\
    r = _result_from_idempotency response pid /\ same reservation s s'.

Lemma claim_stored i now req scope s rec own response s1 :
  _claim_idempotency self i now req scope s = (Ok (Some rec, own), s1) -> r_response rec = Some response ->
  exists k, _records (idempotency s) !! k = Some rec.
Proof.
  unfold _claim_idempotency. destruct (_ || _); [done|].
  unfold sbind at 1, next_uuid. set (s0 := {| mandates := _ |}). unfold sbind at 1, get. unfold sbind at 1.
  unfold on_idempotency, zoom, claim_idempotency. unfold sbind at 1, lift.
  destruct (make_record _ _ _ _ _ _ _ _) as [cand|] eqn:Em; [|done].
  apply make_record_fields in Em as (Hresp & _ & _). unfold sbind at 1.
  destruct (Idempotency.reserve cand None (wall s0) (idempotency s0)) as [[r|] st'] eqn:Er; [|done].
  cbn [ret c_record owns_claim]. intros [= <- _ _] Hr.
  apply idem_reserve_cases in Er as [[-> _]|[Hk _]]; [congruence|]. by eexists.
Qed.

(** What a claim leaves as it was. *)
Definition same_but_idempotency (s s1 : Stores) : Prop :=
  same mandates s s1 /\ same offers s s1 /\ same velocity s s1 /\ same reservation s s1 /\ same purchases s s1.

Lemma claim_same i now req scope s :
  same_but_idempotency s (_claim_idempotency self i now req scope s).2.
Proof. unfold same_but_idempotency. split_and!; apply claim_frame; try (intros; other_store); done. Qed.

Lemma spend_reads_velocity mid m now s s1 : same velocity s s1 -> (_spend mid m now s1).1 = (_spend mid m now s).1.
Proof.
  unfold same. intros Hv. unfold _spend. unfold sbind, lift.
  destruct (match row_value m "txn_count_period" with None => _ | _ => _ end); [|done].
  unfold on_velocity, zoom. rewrite Hv. by destruct (get_spend_view _ _ _ _ _ _ _).
Qed.

Lemma verified_well_after i now m pid s s1 r s' : same_but_idempotency s s1 ->
  verified_well i now m pid s1 r s' -> verified_well i now m pid s r s'.
Proof.
  intros (Hm & Ho & Hv & Hr & Hp). unfold verified_well, gated, approved_well. unfold same in *. rewrite Hm, Ho, Hp.
  intros [(p & ? & ? & ? & Hs)|(Hn & row & Hrow & (o & sp & d & ? & Hsp & ? & ?) & (rid & ? & Hb))].
  - left. exists p. split_and!; try done. by rewrite Hs.
  - right. split; [done|]. exists row. split; [done|]. split.
    + exists o, sp, d. split_and!; try done. by rewrite <- (spend_reads_velocity _ _ _ s s1).
    + exists rid. split; [done|]. by eapply booked_after.
Qed.

Lemma settled_after s s1 (good good1 : VerificationResult -> Stores -> Prop) x :
  no_new s s1 -> (forall r s', good1 r s' -> good r s') -> settled s1 good1 x -> settled s good x.
Proof.
  intros Hn Hg. unfold settled. destruct x as [[r|e] s']; [|by etransitivity].
  intros [?|[? ?]]; [left; auto|right; split; [done|]; by etransitivity].
Qed.

Lemma verify_settled i us now mandate pid req scope s (p := _purchase_id i pid) :
  token_fresh s -> ensure_utc (override now (Aware (wall s))) = Ok us ->
  settled s (fun r s' => replayed p s r s' \/ verified_well i us mandate p s r s')
    (verify self i now mandate pid req scope s).
Proof.
  intros Hfresh Hu. unfold verify. fold p. unfold sbind at 1, catch at 1. unfold sbind at 1. rewrite now_run, Hu.
  unfold ret at 1. cbv beta iota. unfold sbind at 1, catch at 1. unfold sbind at 1.
  pose proof (claim_same i us req scope s) as Hsame.
  pose proof (claim_owned i us req scope s) as Hown. pose proof (claim_stored i us req scope s) as Hst.
  assert (Hn : no_new s (_claim_idempotency self i us req scope s).2) by (apply same_no_new, Hsame).
  destruct (_claim_idempotency self i us req scope s) as [[[orec own]|e] s1]; cbn [fst snd] in *.
  2: { destruct e; by apply settled_refused. }
  unfold ret at 1. cbv beta iota. destruct orec as [rec|].
  2: { eapply settled_after; [done| |apply finish_unclaimed]. intros r s' Hv. right. by eapply verified_well_after. }
  destruct (r_response rec) as [response|] eqn:Er.
  { destruct (Hst rec own response s1 eq_refl Er) as [k Hk]. left. left. exists k, rec, response.
    split_and!; try done. apply Hsame. }
  destruct own; [|by apply settled_refused]. cbn [negb].
  destruct (Hown rec s1 Hfresh eq_refl) as (Hr & _ & Hx).
  eapply settled_after; [done| |by apply finish_settled]. intros r s' Hv. right. by eapply verified_well_after.
Qed.
End Verify.

(** ** The properties *)

(** A verification that does not approve, whatever its reason and whatever the
    transaction manager does with a failed block, leaves no reservation that was
    not live before. *)
Theorem refused_verification_holds_nothing (T : TransactionManager) (self : DecisionService) (i : PurchaseIntent)
    (now : option datetime) (mandate : option mandate_row) (pid : option string) (req : option pyval)
    (scope : option string) (s : Stores) :
  token_fresh self s -> dict_ok (live_reservations s) ->
  approved_outcome (verify self i now mandate pid req scope s).1 = false ->
  forall rid v, dget rid (live_reservations (verify self i now mandate pid req scope s).2) = Some v ->
    dget rid (live_reservations s) = Some v.
Proof.
  intros Hf Hd Ho. cut (no_new s (verify self i now mandate pid req scope s).2); [intros Hn; by apply Hn|].
  destruct (ensure_utc (override now (Aware (wall s)))) as [us|ex] eqn:Eu.
  - pose proof (verify_settled self i us now mandate pid req scope s Hf Eu) as Hs. unfold settled in Hs.
    destruct (verify self i now mandate pid req scope s) as [[r|ex] s']; [|done]. cbn in Ho |- *.
    destruct Hs as [[Hr|[Hp|Hv]]|[_ ?]]; [..|done].
    + destruct Hr as (? & ? & ? & _ & _ & _ & ?). by apply same_no_new.
    + destruct Hp as (? & _ & _ & _ & ?). by apply same_no_new.
    + destruct Hv as (_ & ? & _ & _ & ? & -> & _). done.
  - unfold verify, catch, sbind. rewrite now_run, Eu. by destruct ex.
Qed.

(** C9: An approval of [verify] is the replay of a stored response, the report of a
    purchase of the intent already pending capture, or stands on an approval of
    the gate and on a live reservation of the amount for the mandate, the only
    one it can have added. *)
Theorem verify_approval_sound (T : TransactionManager) (self : DecisionService) (i : PurchaseIntent)
    (us : Z) (mandate : option mandate_row) (pid : option string) (req : option pyval)
    (scope : option string) (s s' : Stores) (r : VerificationResult) :
  token_fresh self s ->
  verify self i (Some (Aware us)) mandate pid req scope s = (Ok r, s') -> is_approved (vr_decision r) = true ->
  replayed (_purchase_id i pid) s r s' \/ verified_well self i us mandate (_purchase_id i pid) s r s'.
Proof.
  intros Hf Hv Ha. pose proof (verify_settled self i us (Some (Aware us)) mandate pid req scope s Hf eq_refl) as Hs.
  rewrite Hv in Hs. destruct Hs as [Hs|[Hn _]]; [exact Hs|congruence].
Qed.

(** C29: Resolving a pending escalation approves only before its time limit, on an
    approved envelope, after the gate has approved the purchase again, and with
    a live reservation of the amount. *)
Theorem resolution_approval_sound (T : TransactionManager) (self : DecisionService) (eid : string)
    (ap : approval_arg) (us : Z) (a : pyval) (uvv : option bool) (e : EscalationRecord) (s s' : Stores)
    (r : VerificationResult) :
  get_escalation eid (escalations s) = Some e -> er_status e = "pending"%string ->
  service_resolve_escalation self eid ap (Some (Aware us)) a uvv s = (Ok r, s') ->
  is_approved (vr_decision r) = true ->
  resolution self eid ap a e us s r s'.
Proof.
  intros He Hp Hr Ha. rewrite resolve_run in Hr. cbn [override ensure_utc] in Hr. rewrite He in Hr.
  pose proof (resolve_pending_settled self eid ap a e us s Hp) as Hs. rewrite Hr in Hs.
  destruct Hs as [Hs|[Hn _]]; [exact Hs|congruence].
Qed.

(** A resolution that does not approve leaves no reservation that was not live
    before: the one its failed block made is given back. *)
Theorem refused_resolution_holds_nothing (T : TransactionManager) (self : DecisionService) (eid : string)
    (ap : approval_arg) (now : option datetime) (a : pyval) (uvv : option bool) (s : Stores) :
  dict_ok (live_reservations s) ->
  approved_outcome (service_resolve_escalation self eid ap now a uvv s).1 = false ->
  forall rid v, dget rid (live_reservations (service_resolve_escalation self eid ap now a uvv s).2) = Some v ->
    dget rid (live_reservations s) = Some v.
Proof. intros Hd Ho. by apply (resolve_no_new self eid ap now a uvv s Ho). Qed.

(** ** A concrete service *)

(** The mandate and offer of [Policy.Demo], empty stores otherwise, and an intent
    of 42.50 without idempotency. *)
Module ServiceDemo.
Definition row : mandate_row := {| row_claims := Demo.mandate; row_extra := [] |}.
Definition service : DecisionService :=
  {| gate := default_gate; uv_verifier := None; idempotency_secret := "k"; idempotency_scope := "verify";
     uuid4 := fun n => String.String (ascii_of_nat n) "" |}.
Definition intent (amount : Z) : PurchaseIntent :=
  {| i_jti := "unknown-intent"; i_mandate_jti := "mandate-1"; i_agent := "agent-1"; i_merchant_id := "m-1";
     i_offer_id := "o-1"; i_amount := cents_text amount; i_currency := "COP"; i_nonce := "n";
     i_iat := VNone; i_exp := VNone; i_category := Some "food"%string; i_offer_amount := None;
     i_agent_id := Some "agent-1"%string |}.
Definition stores (es : InMemoryEscalationStore) (fail : bool) : Stores :=
  {| mandates := [("mandate-1"%string, row)]; offers := [("o-1"%string, Demo.offer_of 4250)];
     velocity := empty_velocity;
     reservation := {| _mandates := []; _reservations := []; _reservation_keys := [] |};
     purchases := []; escalations := es; outbox := {| events := []; ob_fail := fail |};
     idempotency := empty_store; wall := seconds 5; uuids := 0 |}.
(** A burst escalation of the intent, with its two minutes from second 4 on. *)
Definition escalation : EscalationRecord :=
  {| er_escalation_id := "e-1"; er_purchase_id := "p-1"; er_mandate_id := "mandate-1"; er_intent := intent 4250;
     er_offer := None; er_status := "pending"; er_level := "L3"; er_diff := [];
     er_created_at := seconds 4; er_timeout_at := seconds 124; er_decision := None; er_approver := None |}.
Definition waiting : InMemoryEscalationStore := [("e-1"%string, escalation)].
End ServiceDemo.

Lemma refused_verification_holds_nothing_witness :
  live_reservations (verify (H := null_transaction) ServiceDemo.service (ServiceDemo.intent 4250) None None None None None
                       (ServiceDemo.stores [] true)).2 = [].
Proof.
  set (m := verify _ _ _ _ _ _ _ _).
  assert (Hnone : forall rid v, dget rid (live_reservations m.2) = Some v -> False).
  { intros rid v Hv.
    assert (Hx : dget rid (live_reservations (ServiceDemo.stores [] true)) = Some v); [|discriminate Hx].
    apply (refused_verification_holds_nothing null_transaction ServiceDemo.service (ServiceDemo.intent 4250)
      None None None None None (ServiceDemo.stores [] true)).
    - intros k r Hk. cbn in Hk. by rewrite lookup_empty in Hk.
    - apply NoDup_nil_2.
    - reflexivity.
    - exact Hv. }
  destruct (live_reservations m.2) as [|[k v] l]; [reflexivity|]. exfalso. apply (Hnone k v). cbn.
  by rewrite decide_True.
Defined.

Lemma verify_approval_sound_witness :
  exists r s', verify (H := null_transaction) ServiceDemo.service (ServiceDemo.intent 4250) (Some (Aware (seconds 5)))
                 None None None None (ServiceDemo.stores [] false) = (Ok r, s') /\
    verified_well ServiceDemo.service (ServiceDemo.intent 4250) (seconds 5) None "purchase-unknown-intent"
      (ServiceDemo.stores [] false) r s'.
Proof.
  destruct (verify (H := null_transaction) ServiceDemo.service (ServiceDemo.intent 4250) (Some (Aware (seconds 5)))
              None None None None (ServiceDemo.stores [] false)) as [o s'] eqn:E.
  assert (Ho : o = Ok (result (approved_decision (Some "reservation:purchase-unknown-intent"%string))
                         "purchase-unknown-intent" "pending_capture" None)).
  { change o with (o, s').1. rewrite <- E. reflexivity. }
  subst o. eexists _, s'. split; [reflexivity|].
  destruct (verify_approval_sound null_transaction ServiceDemo.service (ServiceDemo.intent 4250) (seconds 5)
    None None None None (ServiceDemo.stores [] false) s' _
    ltac:(intros k r Hk; cbn in Hk; by rewrite lookup_empty in Hk) E eq_refl) as [Hr|Hv]; [|exact Hv].
  destruct Hr as (k & rec & resp & Hk & _). cbn in Hk. by rewrite lookup_empty in Hk.
Defined.

Lemma resolution_approval_sound_witness :
  exists r s', resolution ServiceDemo.service "e-1" (ApprovalStr "APPROVE") VNone ServiceDemo.escalation (seconds 5)
    (ServiceDemo.stores ServiceDemo.waiting false) r s'.
Proof.
  destruct (service_resolve_escalation (H := rollback_transaction) ServiceDemo.service "e-1" (ApprovalStr "APPROVE")
              (Some (Aware (seconds 5))) VNone None (ServiceDemo.stores ServiceDemo.waiting false)) as [o s'] eqn:E.
  assert (Ho : o = Ok (result (approved_decision (Some "reservation:p-1"%string)) "p-1" "pending_capture"
                         (Some "e-1"%string))).
  { change o with (o, s').1. rewrite <- E. reflexivity. }
  subst o. eexists _, s'.
  exact (resolution_approval_sound rollback_transaction ServiceDemo.service "e-1" (ApprovalStr "APPROVE") (seconds 5)
    VNone None ServiceDemo.escalation (ServiceDemo.stores ServiceDemo.waiting false) s' _ eq_refl eq_refl E eq_refl).
Defined.

Lemma refused_resolution_holds_nothing_witness :
  dget "reservation:p-1"%string (live_reservations
    (service_resolve_escalation (H := null_transaction) ServiceDemo.service "e-1" (ApprovalStr "APPROVE")
      (Some (Aware (seconds 5))) VNone None (ServiceDemo.stores ServiceDemo.waiting true)).2) = None.
Proof.
  destruct (dget _ _) as [v|] eqn:E; [|reflexivity]. exfalso.
  assert (Hx : dget "reservation:p-1"%string (live_reservations (ServiceDemo.stores ServiceDemo.waiting true)) = Some v);
    [|discriminate Hx].
  refine (refused_resolution_holds_nothing null_transaction ServiceDemo.service "e-1" (ApprovalStr "APPROVE")
    (Some (Aware (seconds 5))) VNone None (ServiceDemo.stores ServiceDemo.waiting true) _ _ _ _ E).
  - apply NoDup_nil_2.
  - reflexivity.
Defined.
