(* ===== verification/DecisionBudget.v ===== *)
(** The budget of a mandate under the decision service: every sequence of
    verifications and resolutions, over the in-memory stores and any transaction
    manager, keeps what is spent and what is held within the budget. *)
From S2P Require Import Prelude PyTime Decimal Sha256 Json Dict Models JsonLogic Policy Velocity.
From S2P Require Import Reservation Idempotency Stores EscalationFlow DecisionService.
From S2P Require Import DecisionSafety.

(** ** The invariant *)

(** The amounts the constructors of an intent and of the limits produce. *)
Definition intent_ok (i : PurchaseIntent) : Prop := exists c, i_amount i = cents_text c /\ small c.
Definition row_ok (m : mandate_row) : Prop :=
  match limits (row_claims m) with
  | Some l => exists b, total_budget l = cents b /\ small b
  | None => True
  end.

Record service_ok (s : Stores) : Prop := {
  sok_reservations : rsv_ok (reservation s);
  sok_rows : forall j m, get_by_jti j (mandates s) = Some m -> row_ok m;
  sok_intents : forall eid e, get_escalation eid (escalations s) = Some e -> intent_ok (er_intent e);
}.

Ltac unchanged := intros ?; first [reflexivity | unfold sbind; reflexivity].

Definition keeps_ok (s s' : Stores) : Prop := service_ok s -> service_ok s'.

#[export] Instance keeps_ok_preorder : PreOrder keeps_ok.
Proof. split; [by intros s Hs|]. intros a b c Hab Hbc Ha. auto. Qed.

(** A call that leaves the three stores alone keeps the invariant. *)
Lemma keeps_ok_same s s' :
  same reservation s s' -> same mandates s s' -> same escalations s s' -> keeps_ok s s'.
Proof. unfold same. intros Hr Hm He []. split; [by rewrite Hr|by rewrite Hm|by rewrite He]. Qed.

Lemma keeps_ok_frame {A} (m : svc A) : respects (same reservation) m -> respects (same mandates) m ->
  respects (same escalations) m -> respects keeps_ok m.
Proof. intros Hr Hm He s. by apply keeps_ok_same. Qed.

Lemma escalations_dset_ok (s s' : Stores) eid e : same reservation s s' -> same mandates s s' ->
  (intent_ok (er_intent e)) -> escalations s' = dset eid e (escalations s) -> keeps_ok s s'.
Proof.
  unfold same. intros Hr Hm Hi He [Ho Hrows Hints]. split; [by rewrite Hr|by rewrite Hm|].
  intros eid' e'. rewrite He. unfold get_escalation in *. destruct (decide (eid = eid')) as [<-|Hn].
  - rewrite dget_dset. by intros [= <-].
  - rewrite dget_dset_ne by done. apply Hints.
Qed.

Lemma outcome_keeps_ok eid status d : respects keeps_ok (on_escalations (update_escalation eid status d)).
Proof.
  intros s. unfold on_escalations, zoom, update_escalation, sbind, get, put, ret.
  destruct (dget eid (escalations s)) as [e|] eqn:E; cbn; [|by apply keeps_ok_same].
  intros Hok. eapply (escalations_dset_ok s _ eid (with_outcome e status d)); try done.
  by apply (sok_intents s Hok eid e).
Qed.

Lemma create_keeps_ok e : intent_ok (er_intent e) -> respects keeps_ok (on_escalations (create_escalation_record e)).
Proof.
  intros Hi s. unfold on_escalations, zoom, create_escalation_record, sbind, get, put, ret, dsetdefault. cbn.
  destruct (dget (er_escalation_id e) (escalations s)) as [x|]; [by apply keeps_ok_same|].
  by eapply escalations_dset_ok.
Qed.

#[export] Instance calls_keeps_ok : StoreCalls keeps_ok.
Proof.
  split; try exact _; intros; try apply outcome_keeps_ok; apply keeps_ok_frame; try other_store; intros s; reflexivity.
Qed.

(** ** Reserving and releasing *)

Lemma on_reservation_keeps_ok {A} (m : rsv A) :
  (forall r, rsv_ok r -> rsv_ok (m r).2) -> respects keeps_ok (on_reservation m).
Proof.
  intros Hm s [Ho Hrows Hints]. unfold on_reservation, zoom. specialize (Hm _ Ho).
  destruct (m (reservation s)) as [o r]. split; done.
Qed.

Lemma row_total m : row_ok m -> exists b, small b /\
  _decimal (match limits (row_claims m) with Some x => VDec (total_budget x) | None => VStr "0.00" end) = Ok (cents b).
Proof.
  unfold row_ok. destruct (limits (row_claims m)) as [l|].
  - intros (b & -> & Hb). exists b. split; [done|]. by apply decimal_cents.
  - intros _. exists 0. split; [unfold small; lia|]. reflexivity.
Qed.

Lemma reserve_keeps_ok m mid i pid : intent_ok i -> row_ok m -> respects keeps_ok (_reserve m mid i pid).
Proof.
  intros (c & Hc & Hs) Hrow. unfold _reserve. cbv zeta. apply respects_bind; [exact _| |].
  - apply on_reservation_keeps_ok. intros r Hr. rewrite Hc.
    destruct (row_total m Hrow) as (b & Hb & Hdec).
    assert (Heq : forall mx rid key uuid,
      Reservation.reserve mid (VStr (cents_text c))
        (match limits (row_claims m) with Some x => VDec (total_budget x) | None => VStr "0.00" end) mx rid key uuid r =
      Reservation.reserve mid (VStr (cents_text c)) (VDec (cents b)) mx rid key uuid r).
    { intros. unfold Reservation.reserve. by rewrite Hdec, decimal_cents. }
    rewrite Heq. by apply (rsv_step_ok (RReserve mid c b _ _ _ _)).
  - intros got. destruct (or_str got None); unchanged.
Qed.

Lemma release_keeps_ok mid i rid : intent_ok i -> respects keeps_ok (_release mid i rid).
Proof.
  intros (c & Hc & Hs). apply on_reservation_keeps_ok. intros r Hr. rewrite Hc.
  by apply (rsv_step_ok (RRelease mid c rid)).
Qed.

(** ** The two entry points *)

Section Entry.
Context `{TransactionManager} (self : DecisionService).

Lemma approved_keeps_ok m i mid pid now : intent_ok i -> row_ok m -> respects keeps_ok (_approved m i mid pid now).
Proof. intros. apply approved_respects; [exact _|by apply reserve_keeps_ok|intros; by apply release_keeps_ok]. Qed.

Lemma escalated_keeps_ok i o mid pid d now : intent_ok i -> respects keeps_ok (_escalated self i o mid pid d now).
Proof. intros Hi. apply escalated_respects; [exact _|]. intros e He. apply create_keeps_ok. by rewrite He. Qed.

Lemma expire_keeps_ok e now r rid : intent_ok (er_intent e) -> respects keeps_ok (_expire_and_compensate e now r rid).
Proof. intros. apply expire_respects; [exact _|]. intros. by apply release_keeps_ok. Qed.

(** The mandate handed to [verify] carries well-formed limits, as those read do. *)
Lemma verify_claimed_keeps_ok i now m pid : intent_ok i -> (forall row, m = Some row -> row_ok row) ->
  respects keeps_ok (verify_claimed self i now m pid).
Proof.
  intros Hi Hm s Hok. revert Hok. unfold verify_claimed. unfold sbind at 1, _read_purchase_by_intent, gets.
  destruct (get_by_intent _ _) as [p|]; [apply existing_respects; exact _|].
  unfold sbind at 1, _read_mandate, gets. set (loaded := match m with Some m0 => Some m0 | None => _ end).
  intros Hok. assert (Hl : forall x, loaded = Some x -> row_ok x).
  { unfold loaded. intros x. destruct m as [m0|]; [intros [= <-]; by apply Hm|]. by apply (sok_rows s Hok). }
  revert Hok. destruct loaded as [row|]; [|apply rejected_respects; exact _].
  unfold sbind at 1, _read_offer, gets. destruct (get_offer _ _) as [o|]; [|apply rejected_respects; exact _].
  match goal with |- context [sbind (catch ?a ?b) ?k s] => change (keeps_ok s (sbind (catch a b) k s).2) end.
  apply respects_bind; [exact _| |].
  { apply respects_catch; [exact _| |intros _ k [= <-]; unchanged].
    apply respects_bind; [exact _|by apply spend_respects; exact _|]. intros sp.
    apply respects_bind; [exact _|unchanged|]. intros d; unchanged. }
  intros [d|]; [|apply rejected_respects; exact _].
  destruct (decision d); [|apply rejected_respects; exact _|by apply escalated_keeps_ok].
  apply approved_keeps_ok; [done|by apply Hl].
Qed.

Lemma save_keeps_ok orec r now : respects keeps_ok (_save_idempotency orec r now).
Proof.
  unfold _save_idempotency. destruct orec as [rec|]; [|unchanged]. destruct (r_response rec); [unchanged|].
  apply respects_bind; [exact _| |intros _; unchanged]. apply keeps_ok_frame; other_store.
Qed.

Lemma finish_keeps_ok orec now m : respects keeps_ok m -> respects keeps_ok (finish orec now m).
Proof.
  intros Hm. unfold finish. apply respects_bind; [exact _|done|]. intros r.
  apply respects_catch; [exact _|apply save_keeps_ok|]. intros _ k [= <-]. unchanged.
Qed.

Lemma claim_keeps_ok i now req scope : respects keeps_ok (_claim_idempotency self i now req scope).
Proof. apply keeps_ok_frame; apply claim_frame; intros; (other_store || unchanged). Qed.

Lemma verify_keeps_ok i now m pid req scope : intent_ok i -> (forall row, m = Some row -> row_ok row) ->
  respects keeps_ok (verify self i now m pid req scope).
Proof.
  intros Hi Hm. unfold verify. cbv zeta. apply respects_bind; [exact _| |].
  { apply respects_catch; [exact _|by intros s; unfold sbind; rewrite now_run; destruct (ensure_utc _)|].
    intros e k. destruct (is_value_error e); [|done]. intros [= <-]. unchanged. }
  intros [us|]; [|unchanged]. apply respects_bind; [exact _| |].
  { apply respects_catch; [exact _| |intros e k; destruct e; intros Hk; try done; injection Hk as <-; unchanged].
    apply respects_bind; [exact _|apply claim_keeps_ok|intros c; unchanged]. }
  pose proof (fun orec => finish_keeps_ok orec us _ (verify_claimed_keeps_ok i us m (_purchase_id i pid) Hi Hm)) as Hfin.
  intros [[[rec|] owns]|]; [|apply Hfin|unchanged]. destruct (r_response rec); [unchanged|].
  destruct owns; [apply Hfin|unchanged].
Qed.

Lemma resolve_approved_keeps_ok eid e us : intent_ok (er_intent e) ->
  respects keeps_ok (resolve_approved self eid e us).
Proof.
  intros Hi s Hok. revert Hok. unfold resolve_approved, _read_mandate. unfold sbind at 1, gets at 1.
  unfold sbind at 1, gets at 1. set (read := match get_by_jti _ _ with Some m => Some m | None => _ end).
  intros Hok. assert (Hl : forall x, read = Some x -> row_ok x).
  { unfold read. intros x. destruct (get_by_jti (er_mandate_id e) (mandates s)) eqn:E.
    - intros [= <-]. by apply (sok_rows s Hok _ _ E).
    - apply (sok_rows s Hok). }
  revert Hok. destruct read as [row|]; [|by apply expire_keeps_ok].
  unfold sbind at 1, _read_offer, gets. destruct (get_offer _ _) as [o|]; [|by apply expire_keeps_ok].
  match goal with |- context [sbind (catch ?a ?b) ?k s] => change (keeps_ok s (sbind (catch a b) k s).2) end.
  apply respects_bind; [exact _| |].
  { apply respects_catch; [exact _| |intros _ k [= <-]; unchanged].
    apply respects_bind; [exact _|by apply spend_respects; exact _|]. intros sp.
    apply respects_bind; [exact _|unchanged|]. intros d; unchanged. }
  intros [d|]; [|by apply expire_keeps_ok]. destruct (is_approved d); [|by apply expire_keeps_ok]. cbn [negb].
  apply respects_bind; [exact _| |].
  { apply transaction_respects; [exact _|]. apply resolve_block_respects; [exact _|].
    apply reserve_keeps_ok; [done|by apply Hl]. }
  intros [[rid|ex] l]; [unchanged|by apply expire_keeps_ok].
Qed.

Lemma resolve_keeps_ok eid ap now a uvv : respects keeps_ok (service_resolve_escalation self eid ap now a uvv).
Proof.
  intros s Hok. rewrite resolve_run. destruct (ensure_utc _) as [us|ex]; [|done].
  destruct (get_escalation eid (escalations s)) as [e|] eqn:E; [|done].
  pose proof (sok_intents s Hok eid e E) as Hi. revert Hok. unfold resolve_found.
  destruct (String.eqb (er_status e) "pending"); cbn [negb].
  - destruct (er_timeout_at e <=? us); [by apply expire_keeps_ok|]. unfold sbind, lift.
    destruct (resolve_envelope _ _ _ _ _ _) as [v|ex]; [|done].
    destruct (is_rejected v); [by apply expire_keeps_ok|by apply resolve_approved_keeps_ok].
  - unfold sbind, _read_purchase, gets. destruct (get_purchase _ _); [apply existing_respects; exact _|done].
Qed.
End Entry.

(** ** Sequences of requests *)

(** What can happen to the stores: a request, the passing of time, a mandate put
    in the reader. *)
Inductive request : Type :=
| RVerify (i : PurchaseIntent) (now : option datetime) (mandate : option mandate_row) (pid : option string)
    (req : option pyval) (scope : option string)
| RResolve (eid : string) (ap : approval_arg) (now : option datetime) (a : pyval) (uvv : option bool)
| RClock (us : Z)
| RMandate (m : mandate_row).

Definition request_ok (r : request) : Prop :=
  match r with
  | RVerify i _ m _ _ _ => intent_ok i /\ forall row, m = Some row -> row_ok row
  | RMandate m => row_ok m
  | _ => True
  end.

Definition with_mandates (m : InMemoryMandateReader) (w : Z) (s : Stores) : Stores :=
  {| mandates := m; offers := offers s; velocity := velocity s; reservation := reservation s;
     purchases := purchases s; escalations := escalations s; outbox := outbox s;
     idempotency := idempotency s; wall := w; uuids := uuids s |}.

Definition request_step `{TransactionManager} (self : DecisionService) (s : Stores) (r : request) : Stores :=
  match r with
  | RVerify i now m pid req scope => exec (verify self i now m pid req scope) s
  | RResolve eid ap now a uvv => exec (service_resolve_escalation self eid ap now a uvv) s
  | RClock us => with_mandates (mandates s) us s
  | RMandate m => with_mandates (put_mandate m None (mandates s)) (wall s) s
  end.

Definition request_run `{TransactionManager} (self : DecisionService) (rs : list request) (s : Stores) : Stores :=
  fold_left (request_step self) rs s.

Lemma request_step_ok `{TransactionManager} self r s : request_ok r -> service_ok s ->
  service_ok (request_step self s r).
Proof.
  intros Hr Hok. destruct r as [i now m pid req scope|eid ap now a uvv|us|m]; cbn [request_step].
  - destruct Hr as [Hi Hm]. by apply verify_keeps_ok.
  - by apply resolve_keeps_ok.
  - destruct Hok as [? ? ?]. by split.
  - destruct Hok as [? Hrows ?]. split; [done| |done]. cbn. unfold get_by_jti, put_mandate. intros j x.
    destruct (decide (override (or_str None None) (jti (row_claims m)) = j)) as [<-|Hn].
    + rewrite dget_dset. by intros [= <-].
    + rewrite dget_dset_ne by done. apply Hrows.
Qed.

(** C22: Over any sequence of verifications, resolutions, mandates put and clock
    readings, with any transaction manager, what each mandate has spent and what
    its live reservations hold stay within its budget. *)
Theorem service_budget_safe (T : TransactionManager) (self : DecisionService) (rs : list request) (s : Stores) :
  service_ok s -> Forall request_ok rs ->
  let s' := request_run self rs s in
  service_ok s' /\
  forall mid m, dget mid (_mandates (reservation s')) = Some m ->
    exists b sp r, holds m b sp r /\ sp + Reservation.held mid (reservation s') <= sp + r <= b.
Proof.
  intros Hok Hrs s'. assert (service_ok s') as Hs'.
  { unfold s', request_run. clear s'. revert s Hok. induction Hrs as [|r rs Hr _ IH]; intros s Hok; [done|].
    by apply IH, request_step_ok. }
  split; [done|]. intros mid m Em.
  destruct (rsv_mandates _ (sok_reservations _ Hs') mid m Em) as (b & sp & r & Hm & Hb & Hh).
  exists b, sp, r. split; [done|]. lia.
Qed.

Definition demo_requests : list request :=
  [RVerify (ServiceDemo.intent 4250) None None None None None; RClock (seconds 6);
   RVerify (ServiceDemo.intent 4250) None (Some ServiceDemo.row) (Some "p-2"%string) None None;
   RResolve "e-1" (ApprovalStr "DENY") None VNone None].

Lemma service_budget_safe_witness :
  service_ok (request_run (H := null_transaction) ServiceDemo.service demo_requests
                (ServiceDemo.stores ServiceDemo.waiting false)).
Proof.
  assert (Hi : intent_ok (ServiceDemo.intent 4250)) by (exists 4250; split; [reflexivity|unfold small; lia]).
  assert (Hrow : row_ok ServiceDemo.row) by (exists 50000; split; [reflexivity|unfold small; lia]).
  apply (service_budget_safe null_transaction ServiceDemo.service demo_requests
           (ServiceDemo.stores ServiceDemo.waiting false)).
  - split; cbn.
    + split; cbn; try done. split; apply NoDup_nil_2.
    + intros j m. unfold get_by_jti. cbn. destruct (decide _); [|done]. by intros [= <-].
    + intros eid e. unfold get_escalation. cbn. destruct (decide _); [|done]. by intros [= <-].
  - assert (forall row, Some ServiceDemo.row = Some row -> row_ok row) as Hsome by by intros row [= <-].
    repeat constructor; auto; intros row Hrow'; discriminate Hrow'.
Defined.
