(* ===== verification/DecisionReplay.v ===== *)
(** Repetition under the decision service: a response stored for an intent is
    read back as it was and returned unchanged to every repetition, a request
    whose service and store disagree on the secret is always refused, and an
    escalation is resolved at most once. *)
From S2P Require Import Prelude PyTime Decimal Sha256 Json Dict Models JsonLogic Policy Velocity.
From S2P Require Import Reservation Idempotency Stores EscalationFlow DecisionService.
From S2P Require Import DecisionSafety.

(** ** Responses read back *)

Lemma DecisionValue_roundtrip d : DecisionValue_of (DecisionValue_value d) = Ok d.
Proof. by destruct d. Qed.
Lemma ReasonCode_roundtrip r : ReasonCode_of (ReasonCode_value r) = Ok r.
Proof. by destruct r. Qed.

Definition ttl_ok (d : Decision) : Prop := match ttl_seconds d with Some t => 0 <= t | None => True end.

(** [mk_Decision] of the texts of a decision. *)
Lemma mk_Decision_values d : ttl_ok d ->
  mk_Decision (DecisionValue_value (decision d)) (option_map ReasonCode_value (reason_code d)) (reservation_id d)
    (diff d) (option_map EscalationLevel_value (level d)) (ttl_seconds d) (requires_uv d) = Ok d.
Proof.
  unfold ttl_ok, mk_Decision. rewrite DecisionValue_roundtrip. cbn [rbind].
  destruct d as [v rc ri df lv ttl uv]; cbn. intros Ht.
  destruct rc as [rc|]; cbn; [rewrite ReasonCode_roundtrip; cbn|];
    (destruct lv as [lv|]; cbn; [rewrite as_level_value; cbn|]);
    (destruct ttl as [t|]; [destruct (Z.ltb_spec t 0); [lia|done]|done]).
Qed.

(** [dict(decision.diff or {})]: an absent difference is stored as an empty one. *)
Definition stored_decision (d : Decision) : Decision :=
  {| decision := decision d; reason_code := reason_code d; reservation_id := reservation_id d;
     diff := Some (override (diff d) []); level := level d; ttl_seconds := ttl_seconds d;
     requires_uv := requires_uv d |}.
Definition stored_result (r : VerificationResult) : VerificationResult :=
  result (stored_decision (vr_decision r)) (vr_purchase_id r) (vr_status r) (vr_escalation_id r).

Lemma get_opt_str (o : option string) : match opt_str o with VStr s => Some s | _ => None end = o.
Proof. by destruct o. Qed.

Lemma response_roundtrip r pid : ttl_ok (vr_decision r) ->
  _result_from_idempotency (as_dict r) pid = stored_result r.
Proof.
  intros Ht. unfold _result_from_idempotency, decision_of_response, get_str, get_text, stored_result.
  unfold as_dict. cbn [assoc String.eqb Ascii.eqb Bool.eqb py_str truthy override].
  unfold opt_level, opt_reason. rewrite !get_opt_str.
  assert (match opt_int (ttl_seconds (vr_decision r)) with VInt n => Some n | _ => None end =
          ttl_seconds (vr_decision r)) as ->. { by destruct (ttl_seconds (vr_decision r)). }
  change (mk_Decision _ _ _ _ _ _ _) with
    (mk_Decision (DecisionValue_value (decision (stored_decision (vr_decision r))))
       (option_map ReasonCode_value (reason_code (stored_decision (vr_decision r))))
       (reservation_id (stored_decision (vr_decision r))) (diff (stored_decision (vr_decision r)))
       (option_map EscalationLevel_value (level (stored_decision (vr_decision r))))
       (ttl_seconds (stored_decision (vr_decision r))) (requires_uv (stored_decision (vr_decision r)))).
  by rewrite mk_Decision_values.
Qed.

(** ** Repetitions *)

(** A request the service can claim: a named intent, one secret on both sides, a
    named scope, a body with a canonical text. *)
Record claimable (self : DecisionService) (i : PurchaseIntent) (req : option pyval) (scope : option string)
    (text : string) (s : Stores) : Prop := {
  cl_jti : truthy_str (i_jti i) = true;
  cl_known : i_jti i <> "unknown-intent"%string;
  cl_secret : idempotency_secret self = store_secret (idempotency s);
  cl_truthy : truthy_str (store_secret (idempotency s)) = true;
  cl_scope : truthy_str (override (or_str scope None) (idempotency_scope self)) = true;
  cl_text : canonical_json (override req (intent_value i)) = Ok text;
  cl_store : store_ok (idempotency s);
}.

Definition claim_key (self : DecisionService) (i : PurchaseIntent) : string :=
  hmac_hex (idempotency_secret self) (i_jti i).

Definition next_id (s : Stores) : Stores :=
  {| mandates := mandates s; offers := offers s; velocity := velocity s; reservation := reservation s;
     purchases := purchases s; escalations := escalations s; outbox := outbox s;
     idempotency := idempotency s; wall := wall s; uuids := S (uuids s) |}.

Definition with_idempotency (s : Stores) (d : InMemoryIdempotencyStore) : Stores :=
  {| mandates := mandates s; offers := offers s; velocity := velocity s; reservation := reservation s;
     purchases := purchases s; escalations := escalations s; outbox := outbox s;
     idempotency := d; wall := wall s; uuids := uuids s |}.

Section Replay.
Context `{TransactionManager} (self : DecisionService) (i : PurchaseIntent) (req : option pyval)
  (scope : option string) (text : string).

Let key : string := claim_key self i.
Let scope_name : string := override (or_str scope None) (idempotency_scope self).

Definition fresh_record (us : Z) (s : Stores) : IdempotencyRecord :=
  candidate_record (i_jti i) (idempotency_secret self) scope_name text us (uuid4 self (uuids s)).

Lemma claim_run us s : claimable self i req scope text s ->
  _claim_idempotency self i us req scope s =
  match live (idempotency s) key (wall s) with
  | None => (Ok (Some (fresh_record us s), true),
             with_idempotency (next_id s)
               (with_records (idempotency s) (<[key := fresh_record us s]> (_records (idempotency s)))))
  | Some r =>
      if same_operation r scope_name (i_jti i) (sha256_hex text) then
        (Ok (Some r, bool_decide (r_claim_token r = Some (uuid4 self (uuids s)))), next_id s)
      else (Raise IdempotencyConflict, next_id s)
  end.
Proof.
  intros []. unfold _claim_idempotency. rewrite cl_jti0. cbn [negb orb].
  destruct (String.eqb_spec (i_jti i) "unknown-intent") as [?|_]; [done|].
  unfold sbind at 1, next_uuid. fold (next_id s). unfold sbind at 1, get. unfold sbind at 1, on_idempotency, zoom.
  unfold key, claim_key, fresh_record. fold scope_name. rewrite cl_secret0.
  change (idempotency (next_id s)) with (idempotency s). change (wall (next_id s)) with (wall s).
  rewrite (claim_exact _ _ _ _ text) by done.
  destruct (live _ _ _) as [r|]; [|done]. by destruct (same_operation _ _ _ _).
Qed.

(** [verify] after the claim. *)
Lemma verify_run us m pid s :
  verify self i (Some (Aware us)) m pid req scope s =
  match _claim_idempotency self i us req scope s with
  | (Raise IdempotencyConflict, s1) => (Raise IdempotencyConflict, s1)
  | (Raise _, s1) => (Ok (suspended (_purchase_id i pid) "rejected" None), s1)
  | (Ok (record, owns), s1) =>
      match record with
      | Some rec =>
          match r_response rec with
          | Some response => (Ok (_result_from_idempotency response (_purchase_id i pid)), s1)
          | None =>
              if negb owns then (Ok (result (reject RAIL_ERROR) (_purchase_id i pid) "rejected" None), s1)
              else finish record us (verify_claimed self i us m (_purchase_id i pid)) s1
          end
      | None => finish record us (verify_claimed self i us m (_purchase_id i pid)) s1
      end
  end.
Proof.
  unfold verify. cbv zeta. unfold sbind at 1, catch at 1. unfold sbind at 1. rewrite now_run. cbn [override ensure_utc].
  unfold ret at 1. cbv beta iota. unfold sbind at 1, catch at 1. unfold sbind at 1.
  destruct (_claim_idempotency self i us req scope s) as [[[orec own]|e] s1]; [|by destruct e].
  unfold ret at 1. cbv beta iota. destruct orec as [rec|]; [|done].
  destruct (r_response rec); [done|]. by destruct own.
Qed.

(** The first verification stores its result under the key of the intent. *)
Lemma verify_first us m pid s r s1 : claimable self i req scope text s ->
  live (idempotency s) key (wall s) = None ->
  verify self i (Some (Aware us)) m pid req scope s = (Ok r, s1) ->
  _records (idempotency s1) !! key = Some (with_response (fresh_record us s) (as_dict r)) /\
  store_secret (idempotency s1) = store_secret (idempotency s).
Proof.
  intros Hc Hl. rewrite verify_run, claim_run, Hl by done.
  set (s0 := with_idempotency _ _). change (r_response (fresh_record us s)) with (@None pydict). cbn [negb].
  unfold finish. unfold sbind at 1.
  assert (Hf : respects (same idempotency) (verify_claimed self i us m (_purchase_id i pid))).
  { apply verify_claimed_respects; [exact _|..]; intros; other_store. }
  specialize (Hf s0). destruct (verify_claimed self i us m (_purchase_id i pid) s0) as [[r'|ex] s']; [|done].
  cbn in Hf. unfold same in Hf.
  assert (Hk : r_key (fresh_record us s) = key) by done.
  destruct (save_owned (fresh_record us s) r' us s') as (s2 & Hsave & _ & Hrec & Hsec & _); try done.
  { rewrite Hf, Hk. unfold s0. cbn. by rewrite lookup_insert_eq. }
  unfold catch. rewrite Hsave. intros [= <- <-]. split; [by rewrite <- Hk|]. rewrite Hsec, Hf. done.
Qed.

(** A repetition while the record lives returns what was stored. *)
Lemma verify_again us us0 s0 r m pid s : claimable self i req scope text s ->
  _records (idempotency s) !! key = Some (with_response (fresh_record us0 s0) (as_dict r)) ->
  wall s < us0 + IDEMPOTENCY_TTL -> ttl_ok (vr_decision r) ->
  verify self i (Some (Aware us)) m pid req scope s = (Ok (stored_result r), next_id s).
Proof.
  intros Hc Hr Hw Ht. rewrite verify_run, claim_run by done. unfold live. rewrite Hr.
  unfold is_expired, with_response at 1. cbn [r_expires_at fresh_record candidate_record].
  destruct (Z.leb_spec (us0 + IDEMPOTENCY_TTL) (wall s)); [lia|].
  unfold same_operation. cbn [r_scope r_derived_from r_request_fingerprint with_response fresh_record candidate_record].
  rewrite !String.eqb_refl. cbn [andb r_response with_response]. by rewrite response_roundtrip.
Qed.
End Replay.

(** C30: The first verification of an intent fixes its answer: as long as the stored
    record lives, every repetition of the request, at any time, with any mandate
    or purchase identifier and in any later state that still has the record,
    returns that answer and changes no store. *)
Theorem verify_replay_stable (T : TransactionManager) (self : DecisionService) (i : PurchaseIntent)
    (req : option pyval) (scope : option string) (text : string) (us us' : Z) (m m' : option mandate_row)
    (pid pid' : option string) (s s1 s2 : Stores) (r : VerificationResult) :
  claimable self i req scope text s -> live (idempotency s) (claim_key self i) (wall s) = None ->
  verify self i (Some (Aware us)) m pid req scope s = (Ok r, s1) -> ttl_ok (vr_decision r) ->
  claimable self i req scope text s2 ->
  _records (idempotency s2) !! claim_key self i = _records (idempotency s1) !! claim_key self i ->
  wall s2 < us + IDEMPOTENCY_TTL ->
  verify self i (Some (Aware us')) m' pid' req scope s2 = (Ok (stored_result r), next_id s2).
Proof.
  intros Hc Hl Hv Ht Hc2 Hsame Hw.
  destruct (verify_first self i req scope text us m pid s r s1 Hc Hl Hv) as [Hrec _].
  eapply verify_again; try done. rewrite Hsame. exact Hrec.
Qed.

(** A service whose secret is not the store's never verifies anything: every
    named intent is answered with a conflict, and no store changes. *)
Theorem secret_mismatch_conflicts (T : TransactionManager) (self : DecisionService) (i : PurchaseIntent)
    (req : option pyval) (scope : option string) (text : string) (us : Z) (m : option mandate_row)
    (pid : option string) (s : Stores) :
  truthy_str (i_jti i) = true -> i_jti i <> "unknown-intent"%string ->
  truthy_str (idempotency_secret self) = true -> truthy_str (store_secret (idempotency s)) = true ->
  truthy_str (override (or_str scope None) (idempotency_scope self)) = true ->
  canonical_json (override req (intent_value i)) = Ok text ->
  hmac_hex (idempotency_secret self) (i_jti i) <> hmac_hex (store_secret (idempotency s)) (i_jti i) ->
  verify self i (Some (Aware us)) m pid req scope s = (Raise IdempotencyConflict, next_id s).
Proof.
  intros Hj Hk Hs Hss Hsc Ht Hne. rewrite verify_run. unfold _claim_idempotency. rewrite Hj. cbn [negb orb].
  destruct (String.eqb_spec (i_jti i) "unknown-intent") as [?|_]; [done|].
  unfold sbind at 1, next_uuid. fold (next_id s). unfold sbind at 1, get. unfold sbind at 1, on_idempotency, zoom.
  unfold claim_idempotency. unfold sbind at 1, lift. rewrite (make_record_ok _ _ _ _ text) by done.
  unfold sbind at 1, Idempotency.reserve. unfold sbind at 1, lift. cbn [current_time]. unfold sbind at 1, get.
  unfold sbind at 1, lift. cbn [r_derived_from candidate_record]. change (idempotency (next_id s)) with (idempotency s).
  rewrite derive_ok by done. unfold sbind at 1, lift. rewrite compare_digest_hex by apply hmac_hex_ascii.
  cbn [r_key candidate_record]. destruct (String.eqb_spec (hmac_hex (idempotency_secret self) (i_jti i))
    (hmac_hex (store_secret (idempotency s)) (i_jti i))); [done|]. reflexivity.
Qed.

(** ** An escalation is resolved once *)

Section Once.
Context `{TransactionManager} (self : DecisionService).

(** The records a resolution that went through leaves. *)
Lemma resolve_tail_records eid e now rid s x s' p :
  resolve_tail eid e now rid s = (Ok x, s') ->
  dget eid (escalations s) = Some e -> dget (er_purchase_id e) (purchases s) = Some p ->
  dget eid (escalations s') = Some (with_outcome e "resolved" "APPROVE") /\
  exists w, dget (er_purchase_id e) (purchases s') = Some (apply_changes p (resolved_changes rid) w).
Proof.
  intros Hrun He Hp. unfold resolve_tail in Hrun.
  apply sbind_inv_ok in Hrun as (o & s1 & H1 & Hrun). apply sbind_inv_ok in Hrun as (o2 & s2 & H2 & Hrun).
  assert (escalations s1 = dset eid (with_outcome e "resolved" "APPROVE") (escalations s) /\
          purchases s1 = purchases s) as [He1 Hp1].
  { unfold on_escalations, zoom, update_escalation, sbind, get, put, ret in H1. rewrite He in H1.
    by injection H1 as _ <-. }
  assert (escalations s2 = escalations s1 /\
          purchases s2 = dset (er_purchase_id e) (apply_changes p (resolved_changes rid) (wall s1)) (purchases s1))
    as [He2 Hp2].
  { unfold _update_purchase, on_purchases, zoom, update_purchase, sbind, get, put, ret in H2.
    rewrite Hp1, Hp in H2. injection H2 as _ <-. by rewrite Hp1. }
  assert (Hrest : escalations s' = escalations s2 /\ purchases s' = purchases s2).
  { match type of Hrun with ?m s2 = _ =>
      assert (respects (same escalations) m /\ respects (same purchases) m) as [Ha Hb] end.
    { unfold _observe_open_authorization, _emit. split; respects; other_store. }
    specialize (Ha s2). specialize (Hb s2). rewrite Hrun in Ha, Hb. done. }
  destruct Hrest as [-> ->]. rewrite He2, He1, dget_dset. split; [done|].
  exists (wall s1). by rewrite Hp2, dget_dset.
Qed.

Lemma resolve_block_records m eid e now s rid s' l p :
  resolve_block m eid e now (s, None) = (Ok rid, (s', l)) ->
  dget eid (escalations s) = Some e -> dget (er_purchase_id e) (purchases s) = Some p ->
  dget eid (escalations s') = Some (with_outcome e "resolved" "APPROVE") /\
  exists w, dget (er_purchase_id e) (purchases s') = Some (apply_changes p (resolved_changes rid) w).
Proof.
  intros Hrun He Hp. unfold resolve_block in Hrun. rewrite in_block_bind in Hrun.
  assert (Hf : forall B (seen : Stores -> B), (forall A (n : rsv A), respects (same seen) (on_reservation n)) ->
    respects (same seen) (_reserve m (er_mandate_id e) (er_intent e) (er_purchase_id e))).
  { intros B seen Hseen. unfold _reserve. cbv zeta. apply respects_bind; [exact _|apply Hseen|].
    intros g. by destruct (or_str g None). }
  pose proof (Hf _ escalations ltac:(intros; other_store) s) as H1.
  pose proof (Hf _ purchases ltac:(intros; other_store) s) as H2.
  destruct (_reserve m _ _ _ s) as [[rid0|ex] s1]; [|done]. cbn in H1, H2.
  rewrite assign_bind in Hrun. fold (resolve_tail eid e now rid0) in Hrun. rewrite in_block_run in Hrun.
  destruct (resolve_tail eid e now rid0 s1) as [o s2] eqn:Et. cbn in Hrun. injection Hrun as -> -> _.
  assert (rid = rid0) as ->.
  { clear -Et. unfold resolve_tail in Et. repeat (apply sbind_inv_ok in Et as (? & ? & _ & Et)). by injection Et. }
  unfold same in H1, H2. eapply resolve_tail_records; [exact Et|by rewrite H1|by rewrite H2].
Qed.

(** An approved resolution leaves the purchase pending capture and the
    escalation resolved. *)
Lemma resolve_approved_records eid e us s r s' p :
  resolve_approved self eid e us s = (Ok r, s') -> is_approved (vr_decision r) = true ->
  dget eid (escalations s) = Some e -> dget (er_purchase_id e) (purchases s) = Some p ->
  exists rid w, r = result (approved_decision (Some rid)) (er_purchase_id e) "pending_capture" (Some eid) /\
    dget eid (escalations s') = Some (with_outcome e "resolved" "APPROVE") /\
    dget (er_purchase_id e) (purchases s') = Some (apply_changes p (resolved_changes rid) w).
Proof.
  intros Hrun Ha He Hp.
  assert (Hexp : forall reason rid s1, _expire_and_compensate e us reason rid s1 = (Ok r, s') -> False).
  { intros reason rid s1 Hx. destruct (expire_outcome e us reason rid s1) as [r' Hr']. rewrite Hx in Hr'.
    injection Hr' as ->. done. }
  unfold resolve_approved, _read_mandate in Hrun. unfold sbind at 1, gets at 1 in Hrun.
  unfold sbind at 1, gets at 1 in Hrun.
  destruct (match get_by_jti _ _ with Some m => Some m | None => _ end) as [m|]; [|by apply Hexp in Hrun].
  unfold sbind at 1, _read_offer, gets in Hrun. destruct (get_offer _ _) as [o|]; [|by apply Hexp in Hrun].
  assert (Hspend : forall B (seen : Stores -> B), (forall A (n : vel A), respects (same seen) (on_velocity n)) ->
    respects (same seen) (_spend (er_mandate_id e) m us)).
  { intros B seen Hseen. unfold _spend. apply respects_bind; [exact _|by intros ?|auto]. }
  pose proof (Hspend _ escalations ltac:(intros; other_store) s) as H1.
  pose proof (Hspend _ purchases ltac:(intros; other_store) s) as H2.
  unfold sbind at 1, catch at 1, sbind at 1 in Hrun.
  destruct (_spend (er_mandate_id e) m us s) as [[sp|ex] s1]; [|by apply Hexp in Hrun]. cbn in H1, H2.
  unfold sbind at 1, lift in Hrun. destruct (_evaluate self m (er_intent e) sp us (Some o) true) as [d|ex];
    [|by apply Hexp in Hrun]. cbn [ret] in Hrun.
  destruct (is_approved d); cbn [negb] in Hrun; [|by apply Hexp in Hrun].
  unfold sbind at 1 in Hrun. rewrite transaction_run in Hrun.
  destruct (resolve_block m eid e us (s1, None)) as [[rid|ex] [s2 l]] eqn:Eb; [|by apply Hexp in Hrun].
  injection Hrun as <- <-. unfold same in H1, H2.
  destruct (resolve_block_records m eid e us s1 rid s2 l p Eb) as (Hr1 & w & Hr2); [by rewrite H1|by rewrite H2|].
  by exists rid, w.
Qed.
End Once.

(** What a resolved escalation reports: the purchase as its record has it. *)
Definition reported_again (r : VerificationResult) : VerificationResult :=
  result (vr_decision r) (vr_purchase_id r) "pending_capture" None.

(** Once a pending escalation has been approved, resolving it again, with any
    answer, assertion and time, reports the same purchase and reservation and
    changes no store: an escalation reserves at most once. *)
Theorem resolution_happens_once (T : TransactionManager) (self : DecisionService) (eid : string)
    (e : EscalationRecord) (p : PurchaseRecord) (ap ap' : approval_arg) (us us' : Z) (a a' : pyval)
    (uvv uvv' : option bool) (s s1 : Stores) (r : VerificationResult) :
  get_escalation eid (escalations s) = Some e -> er_status e = "pending"%string ->
  get_purchase (er_purchase_id e) (purchases s) = Some p -> p_purchase_id p = er_purchase_id e ->
  service_resolve_escalation self eid ap (Some (Aware us)) a uvv s = (Ok r, s1) ->
  is_approved (vr_decision r) = true ->
  service_resolve_escalation self eid ap' (Some (Aware us')) a' uvv' s1 =
    (Ok (reported_again r), s1).
Proof.
  intros He Hp Hpur Hid Hrun Ha. rewrite resolve_run in Hrun. cbn [override ensure_utc] in Hrun.
  rewrite He in Hrun. unfold resolve_found in Hrun. rewrite Hp in Hrun. change (negb _) with false in Hrun.
  cbv iota in Hrun.
  assert (Hexp : forall reason, _expire_and_compensate e us reason None s = (Ok r, s1) -> False).
  { intros reason Hx. destruct (expire_outcome e us reason None s) as [r' Hr']. rewrite Hx in Hr'.
    injection Hr' as ->. done. }
  destruct (er_timeout_at e <=? us); [by apply Hexp in Hrun|]. unfold sbind at 1, lift in Hrun.
  destruct (resolve_envelope e (Aware us) ap (uv_verifier self) a None) as [v|ex]; [|done].
  destruct (is_rejected v); [by apply Hexp in Hrun|].
  destruct (resolve_approved_records self eid e us s r s1 p Hrun Ha He Hpur) as (rid & w & -> & Hesc & Hpc).
  rewrite resolve_run. cbn [override ensure_utc]. unfold get_escalation. rewrite Hesc.
  unfold resolve_found. cbn [er_status with_outcome]. change (negb (String.eqb "resolved" "pending")) with true.
  cbv iota. unfold sbind at 1, _read_purchase, gets. cbn [er_purchase_id with_outcome]. unfold get_purchase.
  rewrite Hpc. unfold _result_for_existing_purchase. cbn. by rewrite Hid.
Qed.
