(* ===== verification/DecisionExact.v ===== *)
(** The answer of the decision service, exactly: over stores that do not fail, a
    first verification answers what the gate decides, and an approval of the gate
    is turned into a reservation or into an exhausted budget by the reservation
    store alone. *)
From S2P Require Import Prelude PyTime Decimal Sha256 Json Dict Models JsonLogic Policy Velocity.
From S2P Require Import Reservation Idempotency Stores EscalationFlow DecisionService.
From S2P Require Import DecisionSafety DecisionBudget DecisionReplay.

(** ** Operations that return *)

(** From states of [P], [m] returns a value and stays in [P]. *)
Definition runs {S A} (P : S -> Prop) (m : st S A) : Prop :=
  forall s, P s -> P (m s).2 /\ exists a, (m s).1 = Ok a.

Lemma runs_bind {S A B} P (m : st S A) (f : A -> st S B) :
  runs P m -> (forall a, runs P (f a)) -> runs P (sbind m f).
Proof.
  intros Hm Hf s Hs. destruct (Hm s Hs) as [Hp [a Ha]]. unfold sbind. destruct (m s) as [o s']. cbn in Ha, Hp.
  subst o. by apply Hf.
Qed.

Lemma runs_pure {S A} P (m : st S A) (f : S -> A) : (forall s, m s = (Ok (f s), s)) -> runs P m.
Proof. intros H s Hs. rewrite H. cbn. eauto. Qed.

(** The outbox accepts events. *)
Definition outbox_up (s : Stores) : Prop := ob_fail (outbox s) = false.
Definition outbox_up_block {L} (sl : Stores * L) : Prop := outbox_up sl.1.

Lemma runs_in_block {L A} (m : svc A) : runs outbox_up m -> runs (@outbox_up_block L) (in_block m).
Proof.
  intros Hm [s l] Hs. rewrite in_block_run. cbn. destruct (Hm s Hs) as [? ?]. done.
Qed.

Lemma runs_other {T A} (view : Stores -> T) (update : T -> Stores -> Stores) (m : st T A) :
  (forall t s, outbox (update t s) = outbox s) -> (forall t, exists a, (m t).1 = Ok a) ->
  runs outbox_up (zoom view update m).
Proof.
  intros Hu Hm s Hs. unfold zoom. specialize (Hm (view s)). destruct (m (view s)) as [o t]. cbn in *.
  unfold outbox_up. by rewrite Hu.
Qed.

(** *** Each call *)

Lemma dadd_finite x n c e : exists y, dadd x (DFin n c e) = Ok y.
Proof. destruct x; cbn; eauto. Qed.

Lemma add_returns m c w b n k e s : exists a, (_add m c w b (DFin n k e) s).1 = Ok a.
Proof.
  unfold _add, sbind, get, lift, set_buckets, modify.
  destruct (dadd_finite (override (dget (m, c, w, b) (_buckets s)) dec_zero) n k e) as [y ->]. cbn. eauto.
Qed.

Lemma outcome_bind {S A B} (m : st S A) (f : A -> st S B) s :
  (exists a, (m s).1 = Ok a) -> (forall a s', exists b, (f a s').1 = Ok b) -> exists b, (sbind m f s).1 = Ok b.
Proof. intros [a Ha] Hf. unfold sbind. destruct (m s) as [o s']. cbn in Ha. subst. apply Hf. Qed.

Lemma observe_intent_runs mid i us : intent_ok i -> runs outbox_up (_observe_intent mid i us).
Proof.
  intros (c & Hc & Hs). apply runs_other; [done|]. intros t. unfold increment_intent, _minute, _utc.
  apply outcome_bind; [eexists; reflexivity|]. intros b t1. apply outcome_bind; [apply add_returns|].
  intros [] t2. rewrite Hc, decimal_cents_text by done. unfold sbind, lift. apply add_returns.
Qed.

Lemma open_runs mid us : runs outbox_up (_observe_open_authorization mid us).
Proof.
  apply runs_other; [done|]. intros t. unfold increment_open_authorizations.
  apply outcome_bind; [eexists; reflexivity|]. intros _ t1. apply add_returns.
Qed.

(** The cooldown of a decision, if any, is a time. *)
Definition cooldown_readable (d : Decision) : Prop :=
  match assoc "cooldown_until" (override (diff d) []) with
  | None | Some VNone => True
  | Some (VStr s) => exists us, fromisoformat s = Some us
  | Some (VTime t) => exists us, t = Aware us
  | Some _ => False
  end.

Lemma cooldown_returns mid us t : exists a, (record_cooldown mid (Aware us) t).1 = Ok a.
Proof.
  unfold record_cooldown, sbind, lift, get, set_cooldowns, modify, ret. cbn.
  destruct (_ <? us); cbn; eauto.
Qed.

Lemma observe_escalation_runs mid us d : cooldown_readable d -> runs outbox_up (_observe_escalation mid us d).
Proof.
  intros Hd. unfold _observe_escalation. apply runs_bind.
  { apply runs_other; [done|]. intros t. unfold increment_escalation, _minute, _utc.
    apply outcome_bind; [eexists; reflexivity|]. intros b t1. apply add_returns. }
  intros _. unfold cooldown_readable in Hd.
  destruct (assoc _ _) as [v|]; [|by apply (runs_pure _ _ (fun _ => ()))].
  destruct v; try done; try (by apply (runs_pure _ _ (fun _ => ()))).
  - destruct Hd as [u Hu]. rewrite Hu. apply runs_bind; [by apply (runs_pure _ _ (fun _ => u))|]. intros x.
    apply runs_other; [done|]. intros t0. apply cooldown_returns.
  - destruct Hd as [u ->]. apply runs_other; [done|]. intros t0. apply cooldown_returns.
Qed.

Lemma update_purchase_runs pid ch : runs outbox_up (_update_purchase pid ch).
Proof.
  unfold _update_purchase. apply runs_bind; [by apply (runs_pure _ _ (fun s => s))|]. intros s.
  apply runs_other; [done|]. intros t. unfold update_purchase, sbind, get, put, ret. destruct (dget pid t); cbn; eauto.
Qed.

Lemma save_purchase_runs p : runs outbox_up (_save_purchase p).
Proof.
  apply runs_other; [done|]. intros t. unfold create_purchase, sbind, get, put, ret. destruct (dget _ t); cbn; eauto.
Qed.

Lemma new_purchase_runs a b c d e f g : runs outbox_up (new_purchase a b c d e f g).
Proof. intros s Hs. cbn. eauto. Qed.

Lemma create_record_runs e : runs outbox_up (on_escalations (create_escalation_record e)).
Proof. apply runs_other; [done|]. intros t. cbn. eauto. Qed.

Lemma ret_runs {S A} (P : S -> Prop) (a : A) : runs P (ret a).
Proof. by apply (runs_pure _ _ (fun _ => a)). Qed.

(** Every payload has a canonical text: [default=str], NaN allowed. *)
Lemma payload_json v : exists j, to_json payload_default v = Ok j.
Proof.
  induction v as [v Hl Hd|l IH|kvs IH] using pyval_nested_ind.
  - destruct v; cbn; try (by eexists); [by destruct (Hl l)|by destruct (Hd kvs)].
  - assert (exists js, (fix go l := match l with
        | [] => Ok [] | x :: l' => let? y := to_json payload_default x in let? ys := go l' in Ok (y :: ys)
        end) l = Ok js) as [js Hjs].
    { induction IH as [|x l [j Hj] _ [js Hjs]]; [by eexists|]. rewrite Hj. cbn. rewrite Hjs. by eexists. }
    cbn. rewrite Hjs. by eexists.
  - assert (exists js, (fix go l := match l with
        | [] => Ok [] | (k, x) :: l' => let? y := to_json payload_default x in let? ys := go l' in Ok ((k, y) :: ys)
        end) kvs = Ok js) as [js Hjs].
    { induction IH as [|[k x] l [j Hj] _ [js Hjs]]; [by eexists|]. cbn in Hj. rewrite Hj. cbn. rewrite Hjs. by eexists. }
    cbn. rewrite Hjs. by eexists.
Qed.

Lemma emit_runs t agg payload us : runs outbox_up (_emit t agg payload us).
Proof.
  intros s Hs. unfold outbox_up in *. unfold _emit, sbind, lift, _new_event, _canonical_payload, dumps.
  destruct (payload_json (VDict payload)) as [j ->]. cbn [rbind].
  unfold on_outbox, zoom, append_event, sbind, get, put, ret. rewrite Hs.
  destruct (existsb _ _); cbn; eauto.
Qed.

Ltac runs :=
  repeat (intros; cbv zeta;
    lazymatch goal with
    | |- runs _ (sbind _ _) => apply runs_bind; [|intros ?]
    | |- runs _ (in_block _) => apply runs_in_block
    | |- runs _ (match ?x with _ => _ end) => destruct x
    | |- runs _ _ => first [apply ret_runs | apply emit_runs | apply new_purchase_runs | apply save_purchase_runs
        | apply update_purchase_runs | apply create_record_runs | apply open_runs
        | apply observe_intent_runs; assumption | apply observe_escalation_runs; assumption]
    end).

Lemma rejected_block_runs i mid pid d us : intent_ok i -> runs outbox_up_block (rejected_block i mid pid d us).
Proof. intros Hi. unfold rejected_block. runs. Qed.

Lemma escalated_block_runs i mid pid d e us : intent_ok i -> cooldown_readable d ->
  runs outbox_up_block (escalated_block i mid pid d e us).
Proof. intros Hi Hd. unfold escalated_block. runs. Qed.

Lemma approved_tail_runs i mid pid rid us : runs outbox_up (approved_tail i mid pid rid us).
Proof. unfold approved_tail. runs. Qed.

(** ** The branches *)

Section Branches.
Context `{TransactionManager} (self : DecisionService).

Lemma rejected_exact i mid pid d us s : intent_ok i -> outbox_up s ->
  (_rejected i mid pid d us s).1 = Ok (result d pid "rejected" None).
Proof.
  intros Hi Hs. unfold _rejected. unfold sbind at 1. rewrite transaction_run.
  destruct (rejected_block_runs i mid pid d us Hi (s, ()) Hs) as [_ [[] Hr]].
  destruct (rejected_block i mid pid d us (s, ())) as [o [s1 l1]]. cbn in Hr. by subst.
Qed.

Lemma create_escalation_returns pid mid i o d us uuid :
  exists e, create_escalation pid mid i o d (Aware us) None uuid = Ok e /\ er_escalation_id e = uuid.
Proof. eexists. split; reflexivity. Qed.

Lemma escalated_exact i o mid pid d us s : intent_ok i -> cooldown_readable d -> outbox_up s ->
  (_escalated self i o mid pid d us s).1 =
  Ok (result d pid "awaiting_escalation" (Some (uuid4 self (uuids s)))).
Proof.
  intros Hi Hd Hs. unfold _escalated. unfold sbind at 1, next_uuid. fold (next_id s). unfold sbind at 1, lift.
  destruct (create_escalation_returns pid mid i o d us (uuid4 self (uuids s))) as (e & -> & He).
  unfold sbind at 1. rewrite transaction_run.
  destruct (escalated_block_runs i mid pid d e us Hi Hd (next_id s, ()) Hs) as [_ [[] Hr]].
  destruct (escalated_block i mid pid d e us (next_id s, ())) as [o' [s1 l1]]. cbn in Hr. subst. cbn. by rewrite He.
Qed.
End Branches.

(** ** The whole of a first verification *)

(** The budget of the row, and whether the reservation store would take [c]. *)
Definition row_budget (m : mandate_row) : dec :=
  match limits (row_claims m) with Some l => total_budget l | None => cents 0 end.
Definition row_count (m : mandate_row) : option Z :=
  match limits (row_claims m) with Some l => option_map count (max_txn l) | None => None end.
Definition budget_left (s : Stores) (m : mandate_row) (mid : string) (c : Z) : bool :=
  let st := override (dget mid (_mandates (reservation s))) (new_state (row_budget m)) in
  admits st (coef_of (ms_total_budget st)) (coef_of (ms_spent_total st)) (coef_of (ms_reserved_total st)) c
    (row_count m).

(** The answer to a decision [d] of the gate. *)
Definition answer (d : Decision) (left : bool) (pid uuid : string) : VerificationResult :=
  match decision d with
  | REJECTED => result d pid "rejected" None
  | ESCALATED => result d pid "awaiting_escalation" (Some uuid)
  | APPROVED =>
      if left then result (approved_decision (Some (stable_reservation_id pid))) pid "pending_capture" None
      else result (reject BUDGET_EXCEEDED) pid "rejected" None
  end.

(** What an approval leaves in the stores. *)
Definition committed (s s' : Stores) (m : mandate_row) (mid : string) (i : PurchaseIntent) (c : Z) (pid : string)
    : Prop :=
  let st := override (dget mid (_mandates (reservation s))) (new_state (row_budget m)) in
  reservation s' =
    granted (reservation s) mid st (coef_of (ms_reserved_total st)) c (stable_reservation_id pid) (Some pid) /\
  dget pid (purchases s') = Some
    {| p_purchase_id := pid; p_mandate_id := mid; p_intent_jti := i_jti i; p_status := "pending_capture";
       p_reason_code := None; p_reservation_id := Some (stable_reservation_id pid); p_escalation_id := None;
       p_receipt := None; p_created_at := wall s; p_updated_at := wall s |}.

Lemma granted_with_mandate s mid m0 m r c rid key :
  granted (with_mandate s mid m0) mid m r c rid key = granted s mid m r c rid key.
Proof.
  unfold granted, with_mandate, dsetdefault. cbn. destruct (dget mid (_mandates s)); [done|]. by rewrite dset_dset.
Qed.

(** The reservation store in terms of [budget_left]. *)
Lemma reserve_left m mid i pid c s :
  i_amount i = cents_text c -> small c -> row_ok m -> rsv_ok (reservation s) ->
  dget pid (_reservation_keys (reservation s)) = None ->
  dget (stable_reservation_id pid) (live_reservations s) = None ->
  let st := override (dget mid (_mandates (reservation s))) (new_state (row_budget m)) in
  if budget_left s m mid c then
    exists s', _reserve m mid i pid s = (Ok (stable_reservation_id pid), s') /\
      reservation s' =
        granted (reservation s) mid st (coef_of (ms_reserved_total st)) c (stable_reservation_id pid) (Some pid)
  else exists s', _reserve m mid i pid s = (Raise ReservationRejected, s').
Proof.
  intros Hi Hc Hrow Hok Hkey Hrid st. destruct (row_total m Hrow) as (b & Hb & Hdec).
  assert (Hrb : row_budget m = cents b).
  { unfold row_budget, row_ok in *. destruct (limits (row_claims m)) as [l|].
    - destruct Hrow as (b' & Hl & Hb'). rewrite Hl in *. rewrite decimal_cents in Hdec by done. congruence.
    - change (_decimal (VStr "0.00")) with (Ok (cents 0)) in Hdec. congruence. }
  unfold budget_left. fold st.
  destruct (default_mandate (reservation s) mid b Hok Hb) as (bm & sp & r & Hm & _). rewrite <- Hrb in Hm. fold st in Hm.
  pose proof Hm as (Eb & Es & Er & _). rewrite Eb, Es, Er. cbn [coef_of cents].
  change (coef_of (cents bm)) with bm. change (coef_of (cents sp)) with sp. change (coef_of (cents r)) with r.
  assert (Heq : Reservation.reserve mid (VStr (i_amount i))
      (match limits (row_claims m) with Some x => VDec (total_budget x) | None => VStr "0.00" end) (row_count m)
      (Some (stable_reservation_id pid)) (Some pid) "" (reservation s) =
    Reservation.reserve mid (VStr (cents_text c)) (VDec (cents b)) (row_count m)
      (Some (stable_reservation_id pid)) (Some pid) "" (reservation s)).
  { rewrite Hi. unfold Reservation.reserve. by rewrite Hdec, decimal_cents. }
  unfold st in Hm. rewrite Hrb in Hm.
  pose proof (Reservation.reserve_exact (reservation s) mid c b (row_count m) (Some (stable_reservation_id pid)) (Some pid) ""
    bm sp r Hm Hc Hb (rsv_reservation_shape _ Hok)) as Hex.
  rewrite <- Hrb in Hex. fold st in Hex. cbv zeta in Hex. rewrite Hkey in Hex.
  change (override (or_str (Some (stable_reservation_id pid)) None) "") with (stable_reservation_id pid) in Hex.
  unfold live_reservations in Hrid. rewrite Hrid, Hrb in Hex. rewrite <- Heq in Hex.
  unfold _reserve. cbv zeta. fold (row_count m). unfold sbind, on_reservation, zoom. rewrite Hex.
  rewrite granted_with_mandate. destruct (admits st bm sp r c (row_count m)); eexists; [split|]; reflexivity.
Qed.

Lemma approved_tail_purchase i mid pid rid us s : dget pid (purchases s) = None ->
  outbox_up s -> dget pid (purchases (approved_tail i mid pid rid us s).2) = Some
    {| p_purchase_id := pid; p_mandate_id := mid; p_intent_jti := i_jti i; p_status := "pending_capture";
       p_reason_code := None; p_reservation_id := Some rid; p_escalation_id := None;
       p_receipt := None; p_created_at := wall s; p_updated_at := wall s |}.
Proof.
  intros Hp Hs. unfold approved_tail. unfold sbind at 1, new_purchase, gets. unfold sbind at 1.
  set (p := {| p_purchase_id := pid |}). unfold _save_purchase at 1, on_purchases, zoom, create_purchase.
  unfold sbind at 1, get. change (p_purchase_id p) with pid. rewrite Hp. unfold sbind at 1, put, ret at 1.
  match goal with |- context [sbind ?a ?b ?s1] =>
    set (s2 := s1); assert (Hf : respects (same purchases) (sbind a b)) end.
  { unfold _observe_open_authorization, _emit. respects; other_store. }
  specialize (Hf s2). unfold same in Hf. rewrite Hf. unfold s2. cbn. by rewrite dget_dset.
Qed.

(** What an observation of the intent leaves alone. *)
Lemma observe_intent_frame {B} (seen : Stores -> B) mid i us :
  (forall A (n : vel A), respects (same seen) (on_velocity n)) -> respects (same seen) (_observe_intent mid i us).
Proof. intros Hseen. apply Hseen. Qed.

Lemma reserve_frame {B} (seen : Stores -> B) m mid i pid :
  (forall A (n : rsv A), respects (same seen) (on_reservation n)) -> respects (same seen) (_reserve m mid i pid).
Proof.
  intros Hseen. unfold _reserve. cbv zeta. apply respects_bind; [exact _|apply Hseen|]. intros g.
  by destruct (or_str g None).
Qed.

(** The approval branch over stores that do not fail. *)
Lemma approved_exact `{TransactionManager} m i mid pid us c s :
  i_amount i = cents_text c -> small c -> row_ok m -> rsv_ok (reservation s) -> outbox_up s ->
  dget pid (_reservation_keys (reservation s)) = None ->
  dget (stable_reservation_id pid) (live_reservations s) = None -> dget pid (purchases s) = None ->
  forall x, _approved m i mid pid us s = x ->
  if budget_left s m mid c then
    x.1 = Ok (result (approved_decision (Some (stable_reservation_id pid))) pid "pending_capture" None) /\
    committed s x.2 m mid i c pid
  else x.1 = Ok (result (reject BUDGET_EXCEEDED) pid "rejected" None).
Proof.
  intros Hi Hc Hrow Hok Hs Hkey Hrid Hp x Hx.
  assert (Hio : intent_ok i) by by exists c.
  assert (Hobs : forall B (seen : Stores -> B), (forall A (n : vel A), respects (same seen) (on_velocity n)) ->
    seen (_observe_intent mid i us s).2 = seen s).
  { intros B seen Hseen. exact (observe_intent_frame seen mid i us Hseen s). }
  pose proof (Hobs _ reservation ltac:(intros; other_store)) as Hr.
  pose proof (Hobs _ purchases ltac:(intros; other_store)) as Hpu.
  pose proof (Hobs _ wall ltac:(intros; other_store)) as Hw.
  destruct (observe_intent_runs mid i us Hio s Hs) as [Hs0 [[] Ho]].
  unfold _approved in Hx. unfold sbind at 1 in Hx. rewrite transaction_run in Hx. unfold approved_block in Hx.
  rewrite in_block_bind in Hx.
  destruct (_observe_intent mid i us s) as [o s0]. cbn in Ho, Hr, Hpu, Hw, Hs0. subst o. rewrite in_block_bind in Hx.
  pose proof (reserve_left m mid i pid c s0 Hi Hc Hrow) as Hres. cbv zeta in Hres. unfold live_reservations in *.
  unfold budget_left in *. rewrite Hr in Hres. specialize (Hres Hok Hkey Hrid).
  set (st := override (dget mid (_mandates (reservation s))) (new_state (row_budget m))) in *.
  destruct (admits st _ _ _ c (row_count m)).
  - destruct Hres as (s1 & Hrun & Hrs).
    assert (Hf : forall B (seen : Stores -> B), (forall A (n : rsv A), respects (same seen) (on_reservation n)) ->
      seen s1 = seen s0).
    { intros B seen Hseen. pose proof (reserve_frame seen m mid i pid Hseen s0) as Hf. by rewrite Hrun in Hf. }
    pose proof (Hf _ purchases ltac:(intros; other_store)) as Hp1. pose proof (Hf _ wall ltac:(intros; other_store)) as Hw1.
    assert (outbox_up s1) as Hs1 by (unfold outbox_up; rewrite (Hf _ outbox ltac:(intros; other_store)); exact Hs0).
    rewrite Hrun, assign_bind in Hx. fold (approved_tail i mid pid (stable_reservation_id pid) us) in Hx.
    rewrite in_block_run in Hx.
    pose proof (approved_tail_frame (same reservation) i mid pid (stable_reservation_id pid) us s1) as Hfr.
    pose proof (approved_tail_purchase i mid pid (stable_reservation_id pid) us s1) as Htp.
    destruct (approved_tail_runs i mid pid (stable_reservation_id pid) us s1 Hs1) as [_ [d Hd]].
    destruct (approved_tail_outcome i mid pid (stable_reservation_id pid) us s1) as [Hd'|(e & Hd' & _)];
      [|by rewrite Hd in Hd'].
    destruct (approved_tail i mid pid (stable_reservation_id pid) us s1) as [o2 s2]. cbn in Hd', Hfr, Htp. subst o2.
    cbn in Hx. unfold ret in Hx. subst x. cbn [fst snd]. split; [reflexivity|]. unfold committed. fold st.
    unfold same in Hfr. cbn in Hfr. split; [by rewrite Hfr|].
    rewrite Htp, Hw1, Hw; [done| |done]. by rewrite Hp1, Hpu.
  - destruct Hres as (s1 & Hrun).
    pose proof (reserve_frame outbox m mid i pid ltac:(intros; other_store) s0) as Hob.
    rewrite Hrun in Hob, Hx. unfold same in Hob. cbn in Hob, Hx. subst x. apply rejected_exact; [done|]. unfold outbox_up in *.
    destruct on_raise_law as [Hl|Hl]; rewrite Hl; [done|by rewrite Hob].
Qed.

(** A first verification over stores that do not fail. *)
Record first_request (self : DecisionService) (i : PurchaseIntent) (req : option pyval) (scope : option string)
    (text pid : string) (m : mandate_row) (c us : Z) (sp : SpendView) (d : Decision) (s : Stores) : Prop := {
  fr_claim : claimable self i req scope text s;
  fr_new : live (idempotency s) (claim_key self i) (wall s) = None;
  fr_unseen : get_by_intent (i_jti i) (purchases s) = None;
  fr_amount : i_amount i = cents_text c /\ small c;
  fr_mandate : get_by_jti (i_mandate_jti i) (mandates s) = Some m /\ row_ok m;
  fr_gate : exists o, get_offer (i_offer_id i) (offers s) = Some o /\
    (_spend (_mandate_id (Some m) (i_mandate_jti i)) m us s).1 = Ok sp /\
    _evaluate self m i sp us (Some o) false = Ok d;
  fr_cooldown : decision d = ESCALATED -> cooldown_readable d;
  fr_outbox : outbox_up s;
  fr_reservations : rsv_ok (reservation s);
  fr_key : dget pid (_reservation_keys (reservation s)) = None;
  fr_rid : dget (stable_reservation_id pid) (live_reservations s) = None;
  fr_pid : dget pid (purchases s) = None;
}.

Lemma verify_claimed_exact `{TransactionManager} self i req scope text pid m c us sp d s s1
    (mid := _mandate_id (Some m) (i_mandate_jti i)) :
  first_request self i req scope text pid m c us sp d s ->
  same_but_idempotency s s1 -> outbox s1 = outbox s -> wall s1 = wall s ->
  forall x, verify_claimed self i us None pid s1 = x ->
  x.1 = Ok (answer d (budget_left s m mid c) pid (uuid4 self (uuids s1))) /\
  (decision d = APPROVED -> budget_left s m mid c = true -> committed s x.2 m mid i c pid).
Proof.
  intros Hfirst Hsame Eout Ew x Hx. revert Hfirst Hsame. intros [_ _ Hun [Hi Hc] [Hm Hrow] (o & Ho & Hsp & Hev) Hcd Hs Hok Hkey Hrid Hp] (Em & Eo & Ev & Er & Ep).
  unfold same in *. assert (intent_ok i) as Hio by by exists c.
  unfold verify_claimed in Hx. unfold sbind at 1, _read_purchase_by_intent, gets in Hx. rewrite Ep, Hun in Hx.
  unfold sbind at 1, _read_mandate, gets in Hx. rewrite Em, Hm in Hx. fold mid in Hx.
  unfold sbind at 1, _read_offer, gets in Hx. rewrite Eo, Ho in Hx.
  fold mid in Hsp. rewrite <- (spend_reads_velocity mid m us s s1 Ev) in Hsp.
  assert (Hfr : forall B (seen : Stores -> B), (forall A (n : vel A), respects (same seen) (on_velocity n)) ->
    seen (_spend mid m us s1).2 = seen s1).
  { intros B seen Hseen. assert (respects (same seen) (_spend mid m us)) as Hf.
    { unfold _spend. apply respects_bind; [exact _|by intros ?|auto]. } exact (Hf s1). }
  pose proof (Hfr _ reservation ltac:(intros; other_store)) as Fr.
  pose proof (Hfr _ purchases ltac:(intros; other_store)) as Fp.
  pose proof (Hfr _ outbox ltac:(intros; other_store)) as Fo. pose proof (Hfr _ uuids ltac:(intros; other_store)) as Fu.
  pose proof (Hfr _ wall ltac:(intros; other_store)) as Fw.
  unfold sbind at 1, catch at 1, sbind at 1 in Hx.
  destruct (_spend mid m us s1) as [osp s2]. cbn in Hsp, Fr, Fp, Fo, Fu, Fw. subst osp.
  unfold sbind at 1, lift in Hx. rewrite Hev in Hx. cbn [ret] in Hx.
  assert (outbox_up s2) as Hs2 by (unfold outbox_up; by rewrite Fo, Eout).
  unfold answer. destruct (decision d) eqn:Ed.
  - pose proof (approved_exact m i mid pid us c s2 Hi Hc Hrow) as Ha. unfold budget_left, live_reservations, committed in *.
    rewrite Fr, Fp, Fw, Er, Ep, Ew in Ha. specialize (Ha Hok Hs2 Hkey Hrid Hp x Hx).
    destruct (admits _ _ _ _ c (row_count m)); [|done]. by destruct Ha.
  - subst x. split; [|done]. by apply rejected_exact.
  - subst x. split; [|done]. rewrite <- Fu. apply escalated_exact; auto.
Qed.

(** Claim, branch and saving put together. *)
Lemma first_answer (T : TransactionManager) (self : DecisionService) (i : PurchaseIntent)
    (req : option pyval) (scope : option string) (text : string) (pid : option string) (m : mandate_row)
    (c us : Z) (sp : SpendView) (d : Decision) (s : Stores)
    (p := _purchase_id i pid) (mid := _mandate_id (Some m) (i_mandate_jti i)) :
  first_request self i req scope text p m c us sp d s ->
  (verify self i (Some (Aware us)) None pid req scope s).1 =
    Ok (answer d (budget_left s m mid c) p (uuid4 self (S (uuids s)))) /\
  (decision d = APPROVED -> budget_left s m mid c = true ->
     committed s (verify self i (Some (Aware us)) None pid req scope s).2 m mid i c p).
Proof.
  intros Hfirst. destruct (verify self i (Some (Aware us)) None pid req scope s) as [o s'] eqn:Hrun.
  pose proof Hfirst as [Hcl Hnew _ _ _ _ _ _ _ _ _ _].
  rewrite verify_run, (claim_run self i req scope text us s Hcl), Hnew in Hrun.
  set (s1 := with_idempotency _ _) in Hrun. change (r_response (fresh_record self i scope text us s)) with (@None pydict) in Hrun.
  cbn [negb] in Hrun. fold p in Hrun. unfold finish in Hrun. unfold sbind at 1 in Hrun.
  assert (Hf : respects (same idempotency) (verify_claimed self i us None p)).
  { apply verify_claimed_respects; [exact _|..]; intros; other_store. }
  specialize (Hf s1).
  destruct (verify_claimed_exact self i req scope text p m c us sp d s s1 Hfirst) with
    (x := verify_claimed self i us None p s1) as [Ho Hc]; [by split_and!|done..|].
  destruct (verify_claimed self i us None p s1) as [o1 s2]. cbn in Ho, Hc, Hf. subst o1. unfold same in Hf.
  unfold catch in Hrun.
  match type of Hrun with context [_save_idempotency (Some ?rec) ?r us s2] =>
    destruct (save_owned rec r us s2) as (s3 & Hsave & Hr & _ & _ & Hp); try done end.
  { rewrite Hf. cbn. by rewrite lookup_insert_eq. }
  rewrite Hsave in Hrun. injection Hrun as <- <-. split; [done|].
  intros Ha Hb. destruct (Hc Ha Hb) as [H1 H2]. unfold same in Hr. unfold committed.
  cbn [snd ret]. split; [by rewrite Hr|by rewrite Hp].
Qed.

(** C1: A first verification answers the decision of the gate: its rejections and
    escalations as they are, its approvals as a reservation when the reservation
    store has budget and transactions left and as an exhausted budget otherwise;
    and what it approves is reserved and recorded. *)
Theorem first_verification_exact (T : TransactionManager) (self : DecisionService) (i : PurchaseIntent)
    (req : option pyval) (scope : option string) (text : string) (pid : option string) (m : mandate_row)
    (c us : Z) (sp : SpendView) (d : Decision) (s : Stores)
    (p := _purchase_id i pid) (mid := _mandate_id (Some m) (i_mandate_jti i)) :
  first_request self i req scope text p m c us sp d s ->
  (verify self i (Some (Aware us)) None pid req scope s).1 =
    Ok (answer d (budget_left s m mid c) p (uuid4 self (S (uuids s)))) /\
  (decision d = APPROVED -> budget_left s m mid c = true ->
     committed s (verify self i (Some (Aware us)) None pid req scope s).2 m mid i c p).
Proof. exact (first_answer T self i req scope text pid m c us sp d s). Qed.

(** ** A first verification of the demonstration purchase *)

Definition demo_named : PurchaseIntent := Demo.intent_of 4250.
Definition demo_stores : Stores := ServiceDemo.stores [] false.
Definition demo_text : string :=
  match canonical_json (intent_value demo_named) with Ok t => t | Raise _ => "" end.
Definition demo_spend : SpendView :=
  match (_spend "mandate-1" ServiceDemo.row (seconds 5) demo_stores).1 with
  | Ok sp => sp | Raise _ => Demo.spend_of 0 end.

Lemma demo_claimable s : idempotency s = empty_store -> claimable ServiceDemo.service demo_named None None demo_text s.
Proof. intros Hs. split; rewrite ?Hs; done. Qed.

Lemma first_verification_exact_witness :
  (verify (H := null_transaction) ServiceDemo.service demo_named (Some (Aware (seconds 5))) None None None None
     demo_stores).1 =
  Ok (result (approved_decision (Some "reservation:purchase-intent-1"%string)) "purchase-intent-1"
        "pending_capture" None).
Proof.
  destruct (first_verification_exact null_transaction ServiceDemo.service demo_named None None demo_text None
    ServiceDemo.row 4250 (seconds 5) demo_spend approve demo_stores) as [Hv _]; [|exact Hv].
  split; try reflexivity; try (by apply demo_claimable); try done.
  - split; [reflexivity|]. exists 50000. split; [reflexivity|unfold small; lia].
  - exists (Demo.offer_of 4250). split_and!; reflexivity.
  - split; cbn; try done. split; apply NoDup_nil_2.
Defined.

Lemma demo_first : first_request ServiceDemo.service demo_named None None demo_text "purchase-intent-1"
  ServiceDemo.row 4250 (seconds 5) demo_spend approve demo_stores.
Proof.
  split; try reflexivity; try (by apply demo_claimable); try done.
  - split; [reflexivity|]. exists 50000. split; [reflexivity|unfold small; lia].
  - exists (Demo.offer_of 4250). split_and!; reflexivity.
  - split; cbn; try done. split; apply NoDup_nil_2.
Qed.

Definition demo_answer : VerificationResult :=
  result (approved_decision (Some "reservation:purchase-intent-1"%string)) "purchase-intent-1" "pending_capture" None.
Definition demo_stored : IdempotencyRecord :=
  with_response (fresh_record ServiceDemo.service demo_named None demo_text (seconds 5) demo_stores)
    (as_dict demo_answer).
(** The stores a day later, with the stored response. *)
Definition demo_later : Stores :=
  with_mandates [] (days 1)
    (with_idempotency demo_stores (with_records empty_store (<[r_key demo_stored := demo_stored]> ∅))).

Lemma verify_replay_stable_witness :
  verify (H := null_transaction) ServiceDemo.service demo_named (Some (Aware (days 1))) None None None None demo_later =
  (Ok (stored_result demo_answer), next_id demo_later).
Proof.
  destruct (first_answer null_transaction ServiceDemo.service demo_named None None demo_text None ServiceDemo.row 4250
    (seconds 5) demo_spend approve demo_stores demo_first) as [Ho _].
  destruct (verify (H := null_transaction) ServiceDemo.service demo_named (Some (Aware (seconds 5))) None None None None
    demo_stores) as [o s1] eqn:E.
  cbn [fst] in Ho. subst o. pose proof demo_first as [Hc Hl _ _ _ _ _ _ _ _ _ _].
  destruct (verify_first (H := null_transaction) ServiceDemo.service demo_named None None demo_text (seconds 5) None None
    demo_stores _ s1 Hc Hl E) as [Hrec _].
  apply (verify_replay_stable null_transaction ServiceDemo.service demo_named None None demo_text (seconds 5) (days 1)
    None None None None demo_stores s1 demo_later demo_answer Hc Hl E I).
  - split; [reflexivity|discriminate|reflexivity|reflexivity|reflexivity|reflexivity|].
    change (idempotency demo_later) with (with_records empty_store (<[r_key demo_stored := demo_stored]> ∅)).
    apply (store_ok_insert empty_store demo_stored); [apply empty_store_ok|reflexivity|reflexivity|].
    apply sha256_hex_ascii.
  - rewrite Hrec. change (_records (idempotency demo_later)) with
      (<[r_key demo_stored := demo_stored]> (∅ : gmap string IdempotencyRecord)).
    change (claim_key ServiceDemo.service demo_named) with (r_key demo_stored). rewrite lookup_insert_eq. reflexivity.
  - reflexivity.
Defined.

(** The service that src/src/api/deps.py builds: the store is given one secret,
    the service keeps its default. *)
Definition default_service : DecisionService :=
  {| gate := default_gate; uv_verifier := None; idempotency_secret := "local-development-only";
     idempotency_scope := "verify"; uuid4 := uuid4 ServiceDemo.service |}.
Definition default_stores : Stores :=
  with_idempotency demo_stores {| store_secret := "api-secret"; _records := ∅ |}.

Lemma secret_mismatch_conflicts_witness :
  verify (H := null_transaction) default_service demo_named (Some (Aware (seconds 5))) None None None None default_stores
  = (Raise IdempotencyConflict, next_id default_stores).
Proof.
  apply (secret_mismatch_conflicts null_transaction default_service demo_named None None demo_text (seconds 5) None None
    default_stores); [reflexivity|discriminate|reflexivity|reflexivity|reflexivity|reflexivity|].
  intros H. assert (Hb : String.eqb (hmac_hex "local-development-only" "intent-1") (hmac_hex "api-secret" "intent-1") = true)
    by (apply String.eqb_eq; exact H).
  vm_compute in Hb. discriminate Hb.
Defined.

Definition demo_purchase : PurchaseRecord :=
  {| p_purchase_id := "p-1"; p_mandate_id := "mandate-1"; p_intent_jti := "unknown-intent";
     p_status := "awaiting_escalation"; p_reason_code := None; p_reservation_id := None;
     p_escalation_id := Some "e-1"%string; p_receipt := None; p_created_at := 0; p_updated_at := 0 |}.
Definition demo_waiting : Stores :=
  exec (_save_purchase demo_purchase) (ServiceDemo.stores ServiceDemo.waiting false).

Lemma resolution_happens_once_witness :
  exists s1, service_resolve_escalation (H := null_transaction) ServiceDemo.service "e-1" (ApprovalStr "DENY")
      (Some (Aware (seconds 7))) VNone None s1 =
    (Ok (result (approved_decision (Some "reservation:p-1"%string)) "p-1" "pending_capture" None), s1).
Proof.
  destruct (service_resolve_escalation (H := null_transaction) ServiceDemo.service "e-1" (ApprovalStr "APPROVE")
              (Some (Aware (seconds 5))) VNone None demo_waiting) as [o s1] eqn:E.
  assert (Ho : o = Ok (result (approved_decision (Some "reservation:p-1"%string)) "p-1" "pending_capture"
                         (Some "e-1"%string))).
  { change o with (o, s1).1. rewrite <- E. reflexivity. }
  subst o. exists s1.
  exact (resolution_happens_once null_transaction ServiceDemo.service "e-1" ServiceDemo.escalation demo_purchase
    (ApprovalStr "APPROVE") (ApprovalStr "DENY") (seconds 5) (seconds 7) VNone VNone None None demo_waiting s1 _
    eq_refl eq_refl eq_refl eq_refl E eq_refl).
Defined.
