(* ===== verification/StateMachine.v ===== *)
(** The mandate state machine of src/src/api/services/state_machine.py and the
    guarded UPDATE of src/src/api/repository.py that runs it: the table of
    allowed transitions, its SQL guard, the refusals, and the life of a mandate
    under any interleaving of transitions. *)
From S2P Require Import Prelude Models.

(** ** The tables *)

Definition ALLOWED_TRANSITIONS (to : MandateStatus) : list MandateStatus :=
  match to with
  | ACTIVE => [DRAFT; SUSPENDED]
  | SUSPENDED => [ACTIVE]
  | REVOKED => [ACTIVE; SUSPENDED]
  | EXPIRED => [ACTIVE; SUSPENDED]
  | EXHAUSTED => [ACTIVE]
  | DRAFT => []
  end.

Definition TERMINAL_REASONS (s : MandateStatus) : option ReasonCode :=
  match s with
  | REVOKED => Some MANDATE_REVOKED
  | EXPIRED => Some MANDATE_EXPIRED
  | EXHAUSTED => Some MANDATE_EXHAUSTED
  | SUSPENDED => Some MANDATE_SUSPENDED
  | _ => None
  end.

(** [TRANSITION_EVENTS[to]]: no entry for a draft. *)
Definition TRANSITION_EVENTS (to : MandateStatus) : res string :=
  match to with
  | ACTIVE => Ok "mandate.activated"%string
  | SUSPENDED => Ok "mandate.suspended"%string
  | REVOKED => Ok "mandate.revoked"%string
  | EXPIRED => Ok "mandate.expired"%string
  | EXHAUSTED => Ok "mandate.exhausted"%string
  | DRAFT => Raise KeyError
  end.

Definition is_allowed (frm to : MandateStatus) : bool := bool_decide (frm ∈ ALLOWED_TRANSITIONS to).

Fixpoint insert_text (x : string) (l : list string) : list string :=
  match l with
  | [] => [x]
  | y :: l' => if String.leb x y then x :: y :: l' else y :: insert_text x l'
  end.
(** [sorted(texts)] *)
Definition sorted_texts (l : list string) : list string := fold_right insert_text [] l.

Definition sources_for (to : MandateStatus) : list string :=
  sorted_texts (map MandateStatus_value (ALLOWED_TRANSITIONS to)).

Definition refusal_reason (current to : MandateStatus) : ReasonCode :=
  override (TERMINAL_REASONS current) MANDATE_SUSPENDED.

Record InvalidTransition : Type := { it_frm : MandateStatus; it_to : MandateStatus; it_reason : ReasonCode }.

Definition check (frm to : MandateStatus) : unit + InvalidTransition :=
  if is_allowed frm to then inl ()
  else inr {| it_frm := frm; it_to := to; it_reason := refusal_reason frm to |}.

Record TransitionResult : Type := {
  tr_ok : bool;
  tr_frm : option MandateStatus;
  tr_to : MandateStatus;
  tr_reason_code : option ReasonCode;
  tr_event : option string;
}.

(** ** The guarded UPDATE *)

(** The columns of a mandate row the transition reads and writes. *)
Record mandate_columns : Type := { mc_status : string; mc_version : Z }.
Abbreviation mandate_table := (gmap string mandate_columns).

(** [UPDATE mandate SET status = to, version = version + 1 WHERE jti = id AND
    status IN (allowed) RETURNING jti]: the row returned, if one was updated. *)
Definition guarded_update (id : string) (allowed : list string) (to : MandateStatus) : st mandate_table (option string) :=
  t <- get ;;
  match t !! id with
  | Some row =>
      if existsb (String.eqb (mc_status row)) allowed then
        put (<[id := {| mc_status := MandateStatus_value to; mc_version := mc_version row + 1 |}]> t) ;;;
        ret (Some id)
      else ret None
  | None => ret None
  end.

Definition _current_status (id : string) : st mandate_table (option MandateStatus) :=
  t <- get ;;
  match t !! id with
  | Some row =>
      if truthy_str (mc_status row) then s <- lift (MandateStatus_of (mc_status row)) ;; ret (Some s) else ret None
  | None => ret None
  end.

Definition refused (to : MandateStatus) (current : option MandateStatus) : TransitionResult :=
  {| tr_ok := false; tr_frm := current; tr_to := to;
     tr_reason_code := match current with Some c => Some (refusal_reason c to) | None => None end;
     tr_event := None |}.

(** [others] is what other sessions do between the UPDATE and the SELECT that
    explains a refusal. *)
Definition transition (others : mandate_table -> mandate_table) (id : string) (to : MandateStatus)
    : st mandate_table TransitionResult :=
  match sources_for to with
  | [] => current <- _current_status id ;; ret (refused to current)
  | allowed =>
      moved <- guarded_update id allowed to ;;
      match moved with
      | None =>
          modify others ;;;
          current <- _current_status id ;;
          ret (refused to current)
      | Some _ =>
          event <- lift (TRANSITION_EVENTS to) ;;
          ret {| tr_ok := true; tr_frm := None; tr_to := to; tr_reason_code := None; tr_event := Some event |}
      end
  end.

(** ** The guard and the table agree *)

Lemma value_inj a b : MandateStatus_value a = MandateStatus_value b -> a = b.
Proof. by destruct a, b. Qed.

(** The SQL guard admits exactly the sources the table allows. *)
Lemma guard_agrees frm to :
  existsb (String.eqb (MandateStatus_value frm)) (sources_for to) = is_allowed frm to.
Proof. by destruct frm, to. Qed.

Definition status_of (id : string) (t : mandate_table) : option string := mc_status <$> t !! id.
Definition well_stored (t : mandate_table) : Prop :=
  forall id row, t !! id = Some row -> exists s, mc_status row = MandateStatus_value s.

Inductive step : MandateStatus -> MandateStatus -> Prop :=
| step_allowed frm to : is_allowed frm to = true -> step frm to.

Definition terminal (s : MandateStatus) : bool :=
  match s with REVOKED | EXPIRED | EXHAUSTED => true | _ => false end.

Lemma step_not_terminal frm to : step frm to -> terminal frm = false.
Proof. intros [f t H]. by destruct f, t. Qed.

Lemma step_not_draft frm to : step frm to -> to <> DRAFT.
Proof. intros [f t H]. by destruct f, t. Qed.

Lemma terminal_stuck s s' : terminal s = true -> rtc step s s' -> s' = s.
Proof.
  intros Ht H. inversion H as [|x y z Hs]; [done|]. subst. apply step_not_terminal in Hs. congruence.
Qed.

(** ** Interleavings *)

(** The statements of all sessions, in the order the database runs them. *)
Inductive statement : Type :=
| SInsert (id : string)
| SUpdate (id : string) (to : MandateStatus).

Definition run_statement (t : mandate_table) (x : statement) : mandate_table :=
  match x with
  | SInsert id =>
      match t !! id with
      | Some _ => t
      | None => <[id := {| mc_status := MandateStatus_value DRAFT; mc_version := 1 |}]> t
      end
  | SUpdate id to => exec (guarded_update id (sources_for to) to) t
  end.

Definition run_statements (xs : list statement) (t : mandate_table) : mandate_table := fold_left run_statement xs t.

(** One statement moves a mandate by one allowed step, counted by its version, or
    leaves it as it was. *)
Lemma statement_moves t x id row s : t !! id = Some row -> mc_status row = MandateStatus_value s ->
  exists row' s', run_statement t x !! id = Some row' /\ mc_status row' = MandateStatus_value s' /\
    ((s' = s /\ mc_version row' = mc_version row) \/ (step s s' /\ mc_version row' = mc_version row + 1)).
Proof.
  intros Hrow Hs. assert (Hsame : exists row' s', t !! id = Some row' /\ mc_status row' = MandateStatus_value s' /\
    ((s' = s /\ mc_version row' = mc_version row) \/ (step s s' /\ mc_version row' = mc_version row + 1))).
  { exists row, s. auto. }
  destruct x as [id'|id' to]; cbn [run_statement].
  - destruct (t !! id') eqn:E; [done|]. destruct (decide (id' = id)) as [->|]; [congruence|].
    by rewrite lookup_insert_ne.
  - unfold exec, guarded_update, sbind, get, put, ret. destruct (t !! id') as [row0|] eqn:E; [|done].
    destruct (existsb _ _) eqn:Eg; [|done]. cbn. destruct (decide (id' = id)) as [->|]; [|by rewrite lookup_insert_ne].
    rewrite lookup_insert_eq. rewrite Hrow in E. injection E as <-. eexists _, to. split; [done|]. split; [done|].
    right. split; [|done]. constructor. rewrite <- guard_agrees, <- Hs. done.
Qed.

(** Under every interleaving of insertions and guarded updates, a mandate only
    moves along the allowed transitions, its version counts the moves, it never
    becomes a draft again, and from revoked, expired or exhausted it does not
    move at all. *)
Theorem mandate_lifecycle (xs : list statement) (t : mandate_table) (id : string) (row : mandate_columns)
    (s : MandateStatus) :
  t !! id = Some row -> mc_status row = MandateStatus_value s ->
  exists row' s' n, run_statements xs t !! id = Some row' /\ mc_status row' = MandateStatus_value s' /\
    nsteps step n s s' /\ mc_version row' = mc_version row + Z.of_nat n /\
    (s <> DRAFT -> s' <> DRAFT) /\ (terminal s = true -> row' = row).
Proof.
  revert t row s. induction xs as [|x xs IH]; intros t row s Hrow Hs.
  { exists row, s, 0%nat. split_and!; try done; [constructor|lia]. }
  destruct (statement_moves t x id row s Hrow Hs) as (row1 & s1 & Hrow1 & Hs1 & Hm).
  destruct (IH (run_statement t x) row1 s1 Hrow1 Hs1) as (row' & s' & n & Hrow' & Hs' & Hn & Hv & Hd & Ht).
  exists row', s'. destruct Hm as [[-> Hv1]|[Hstep Hv1]].
  - exists n. split_and!; try done; [congruence|]. intros Hterm. rewrite (Ht Hterm).
    destruct row, row1. cbn in *. congruence.
  - exists (S n). split_and!; try done; [by econstructor|lia| |].
    + intros _. apply Hd. by eapply step_not_draft.
    + intros Hterm. apply step_not_terminal in Hstep. congruence.
Qed.

(** A transition succeeds exactly when its UPDATE finds the mandate in an allowed
    source state, whatever the other sessions do; it then moves that mandate
    alone, and a refused one writes nothing. *)
Theorem transition_exact (others : mandate_table -> mandate_table) (id : string) (to : MandateStatus)
    (t : mandate_table) (row : mandate_columns) (s : MandateStatus) :
  t !! id = Some row -> mc_status row = MandateStatus_value s -> well_stored (others t) ->
  exists r, (transition others id to t).1 = Ok r /\ tr_ok r = is_allowed s to /\
    (transition others id to t).2 =
      (if is_allowed s to then <[id := {| mc_status := MandateStatus_value to; mc_version := mc_version row + 1 |}]> t
       else match sources_for to with [] => t | _ => others t end) /\
    (tr_ok r = true -> Ok (tr_event r) = (let? e := TRANSITION_EVENTS to in Ok (Some e))) /\
    (tr_ok r = false -> tr_reason_code r = option_map (fun c => refusal_reason c to) (tr_frm r)).
Proof.
  intros Hrow Hs Hothers.
  assert (Hcur : forall t', well_stored t' -> exists c, _current_status id t' = (Ok c, t')).
  { intros t' Hw. unfold _current_status, sbind, get, lift, ret. destruct (t' !! id) as [row'|] eqn:E; [|eauto].
    destruct (Hw id row' E) as [c ->]. exists (Some c). by destruct c. }
  assert (Hw : to = DRAFT -> exists c, _current_status id t = (Ok c, t)).
  { intros _. unfold _current_status, sbind, get, lift, ret. rewrite Hrow, Hs. exists (Some s). by destruct s. }
  assert (Hupd : guarded_update id (sources_for to) to t =
    if is_allowed s to then
      (Ok (Some id), <[id := {| mc_status := MandateStatus_value to; mc_version := mc_version row + 1 |}]> t)
    else (Ok None, t)).
  { unfold guarded_update, sbind, get, put, ret. rewrite Hrow, Hs, guard_agrees. by destruct (is_allowed s to). }
  destruct (transition others id to t) as [o t'] eqn:Hrun. unfold transition in Hrun.
  destruct (sources_for to) as [|x l] eqn:El.
  - assert (to = DRAFT) as -> by by destruct to. destruct (Hw eq_refl) as [c Hc]. unfold sbind in Hrun.
    rewrite Hc in Hrun. injection Hrun as <- <-.
    eexists. split; [done|]. assert (is_allowed s DRAFT = false) as -> by by destruct s.
    split_and!; done.
  - unfold sbind at 1 in Hrun. rewrite Hupd in Hrun. destruct (is_allowed s to) eqn:Ea.
    + unfold sbind, ret, lift in Hrun. destruct to; try done; injection Hrun as <- <-; eexists; (split; [done|]); done.
    + destruct (Hcur (others t) Hothers) as [c Hc]. unfold sbind, ret, modify in Hrun. rewrite Hc in Hrun.
      injection Hrun as <- <-. eexists. split; [done|]. split_and!; done.
Qed.

(** Two sessions: the buyer revokes while a rule reactivates the mandate. *)
Definition demo_table : mandate_table := {["m"%string := {| mc_status := "suspended"; mc_version := 3 |}]}.

Lemma mandate_lifecycle_witness :
  run_statements [SUpdate "m" REVOKED; SUpdate "m" ACTIVE; SInsert "n"] demo_table !! "m"%string =
  Some {| mc_status := "revoked"; mc_version := 4 |}.
Proof.
  destruct (mandate_lifecycle [SUpdate "m" ACTIVE; SInsert "n"] (run_statement demo_table (SUpdate "m" REVOKED)) "m"
    {| mc_status := "revoked"; mc_version := 4 |} REVOKED eq_refl eq_refl) as (row' & s' & n & Hr & _ & _ & _ & _ & Ht).
  rewrite (Ht eq_refl) in Hr. exact Hr.
Defined.

Lemma transition_exact_witness :
  exists r, (transition (fun t => t) "m" EXHAUSTED demo_table).1 = Ok r /\ tr_ok r = false.
Proof.
  destruct (transition_exact (fun t => t) "m" EXHAUSTED demo_table {| mc_status := "suspended"; mc_version := 3 |}
    SUSPENDED eq_refl eq_refl) as (r & Hr & Hok & _).
  - intros id row H. unfold demo_table in H. apply lookup_singleton_Some in H as [_ <-]. by exists SUSPENDED.
  - exists r. split; [exact Hr|exact Hok].
Defined.
