(* ===== verification/Ledger.v ===== *)
(** The audit ledger of src/src/api/audit: canonical hashing, the hash chain and
    its validation, the in-memory repository and witness, and the service that
    appends, signs roots and verifies.  The signer is an interface; timestamps of
    the clock are part of the state. *)
From S2P Require Import Prelude PyTime Decimal Sha256 Json Dict Models.

(** ** Hashing (hashing.py) *)

Fixpoint str_repeat (c : ascii) (n : nat) : string :=
  match n with O => EmptyString | S n' => String.String c (str_repeat c n') end.

Definition GENESIS_PREV_HASH : string := str_repeat "0" 64.

(** [len(s)]: the code points of a UTF-8 text. *)
Fixpoint py_len (s : string) : Z :=
  match s with
  | EmptyString => 0
  | String.String c s' => (if (N.land (N_of_ascii c) 192 =? 128)%N then 0 else 1) + py_len s'
  end.

(** [not h or len(h) != 64] *)
Definition bad_hash (h : string) : bool := negb (truthy_str h) || negb (py_len h =? 64).

Definition normalize_utc (value : datetime) : res string :=
  let? us := ensure_utc value in Ok (isoformat_z us).

Definition _json_default : json_default :=
  {| default_dec := fun d => Ok (JStr (dec_fmt_f d));
     default_time := fun t => let? s := normalize_utc t in Ok (JStr s);
     default_float := fun _ => Raise TypeError |}.

Fixpoint has_float (value : pyval) : bool :=
  match value with
  | VFloat _ => true
  | VList l => (fix go l := match l with [] => false | x :: l' => has_float x || go l' end) l
  | VDict kvs => (fix go l := match l with [] => false | (_, x) :: l' => has_float x || go l' end) kvs
  | _ => false
  end.
Definition _check_no_floats (value : pyval) : res unit :=
  if has_float value then Raise TypeError else Ok ().

Definition canonical_json (value : pyval) : res string :=
  let? _ := _check_no_floats value in dumps _json_default value.

Definition event_envelope (mandate_id type : string) (payload : pydict) (prev_hash created_at : string) : pyval :=
  VDict [("created_at", VStr created_at); ("mandate_id", VStr mandate_id); ("payload", VDict payload);
         ("prev_hash", VStr prev_hash); ("type", VStr type)]%string.

Definition compute_event_hash (mandate_id type : string) (payload : pydict) (prev_hash : string)
    (created_at : datetime) : res string :=
  if negb (truthy_str mandate_id) || negb (truthy_str type) || bad_hash prev_hash then Raise ValueError
  else
    let? iso := normalize_utc created_at in
    let? text := canonical_json (event_envelope mandate_id type payload prev_hash iso) in
    Ok (sha256_hex text).

Definition root_envelope (seq_start seq_end : Z) (last_hash : string) (cardinality : Z) : pyval :=
  VDict [("cardinality", VInt cardinality); ("last_hash", VStr last_hash); ("seq_end", VInt seq_end);
         ("seq_start", VInt seq_start)]%string.

Definition compute_root_hash (seq_start seq_end : Z) (last_hash : string) (cardinality : Z) : res string :=
  if (seq_start <? 1) || (seq_end <? seq_start) then Raise ValueError
  else if negb (cardinality =? seq_end - seq_start + 1) then Raise ValueError
  else if bad_hash last_hash then Raise ValueError
  else
    let? text := canonical_json (root_envelope seq_start seq_end last_hash cardinality) in
    Ok (sha256_hex text).

(** ** Data (models.py) *)

Record AuditEvent : Type := {
  ae_mandate_id : string;
  ae_type : string;
  ae_payload : pydict;
  ae_prev_hash : string;
  ae_hash : string;
  ae_created_at : Z;
  ae_seq : option Z;
  ae_root_sig : option string;
}.

Definition mk_AuditEvent (mandate_id type : string) (payload : pydict) (prev_hash hash : string)
    (created_at : datetime) (seq : option Z) (root_sig : option string) : res AuditEvent :=
  if negb (truthy_str mandate_id) || negb (truthy_str type) || bad_hash prev_hash || bad_hash hash
  then Raise ValueError
  else
    let? us := ensure_utc created_at in
    if (match seq with Some n => n <? 1 | None => false end) then Raise ValueError
    else Ok {| ae_mandate_id := mandate_id; ae_type := type; ae_payload := payload; ae_prev_hash := prev_hash;
               ae_hash := hash; ae_created_at := us; ae_seq := seq; ae_root_sig := root_sig |}.

Record ChainResult : Type := {
  cr_ok : bool;
  first_bad_seq : option Z;
  cr_reason : option string;
  verified_count : Z;
  cr_last_hash : option string;
}.

Definition chain_ok (n : Z) (last_hash : option string) : ChainResult :=
  {| cr_ok := true; first_bad_seq := None; cr_reason := None; verified_count := n; cr_last_hash := last_hash |}.
Definition chain_bad (seq : option Z) (reason : string) (n : Z) : ChainResult :=
  {| cr_ok := false; first_bad_seq := seq; cr_reason := Some reason; verified_count := n; cr_last_hash := None |}.

Record RootCheckpoint : Type := {
  cp_seq_start : Z;
  cp_seq_end : Z;
  cp_root_hash : string;
  cp_root_sig : string;
  cp_cardinality : Z;
  cp_created_at : Z;
}.

Definition mk_RootCheckpoint (seq_start seq_end : Z) (root_hash root_sig : string) (cardinality : Z)
    (created_at : datetime) : res RootCheckpoint :=
  if (seq_start <? 1) || (seq_end <? seq_start) then Raise ValueError
  else if negb (cardinality =? seq_end - seq_start + 1) then Raise ValueError
  else if bad_hash root_hash then Raise ValueError
  else if negb (truthy_str root_sig) then Raise ValueError
  else
    let? us := ensure_utc created_at in
    Ok {| cp_seq_start := seq_start; cp_seq_end := seq_end; cp_root_hash := root_hash; cp_root_sig := root_sig;
          cp_cardinality := cardinality; cp_created_at := us |}.

(** ** Chain validation (chain.py) *)

Definition event_hash (e : AuditEvent) : res string :=
  compute_event_hash (ae_mandate_id e) (ae_type e) (ae_payload e) (ae_prev_hash e) (Aware (ae_created_at e)).

(** The reason of a failure, if any. *)
Definition validate_event (event : AuditEvent) (expected_prev_hash : string) : res (option string) :=
  if negb (String.eqb (ae_prev_hash event) expected_prev_hash) then
    Ok (Some ("prev_hash mismatch: expected " +:+ expected_prev_hash +:+ ", got " +:+ ae_prev_hash event)%string)
  else
    let? expected_hash := event_hash event in
    if negb (String.eqb (ae_hash event) expected_hash) then
      Ok (Some ("hash mismatch: recomputed " +:+ expected_hash +:+ ", recorded " +:+ ae_hash event)%string)
    else Ok None.

(** [check_seq_continuity and i > 0] between two events that carry a sequence *)
Definition seq_gap (check : bool) (prev : option AuditEvent) (event : AuditEvent) : option (Z * Z) :=
  match check, prev with
  | true, Some p =>
      match ae_seq p, ae_seq event with
      | Some a, Some b => if b =? a + 1 then None else Some (a + 1, b)
      | _, _ => None
      end
  | _, _ => None
  end.

Definition expected_prev (start : option string) (prev : option AuditEvent) (event : AuditEvent) : string :=
  match prev with
  | Some p => ae_hash p
  | None =>
      match start with
      | Some h => h
      | None => if bool_decide (ae_seq event = Some 1) then GENESIS_PREV_HASH else ae_prev_hash event
      end
  end.

(** The loop from index [i], [prev] being the event before. *)
Fixpoint validate_from (start : option string) (check : bool) (i : Z) (prev : option AuditEvent)
    (events : list AuditEvent) : res (option ChainResult) :=
  match events with
  | [] => Ok None
  | event :: rest =>
      match seq_gap check prev event with
      | Some (want, got) =>
          Ok (Some (chain_bad (Some got)
            ("sequence gap detected at index " +:+ int_str i +:+ ": expected seq " +:+ int_str want
             +:+ ", got " +:+ int_str got)%string i))
      | None =>
          let? bad := validate_event event (expected_prev start prev event) in
          match bad with
          | Some reason => Ok (Some (chain_bad (Some (override (ae_seq event) (i + 1))) reason i))
          | None => validate_from start check (i + 1) (Some event) rest
          end
      end
  end.

Definition last_hash (events : list AuditEvent) : option string := option_map ae_hash (last events).

Definition validate_chain (events : list AuditEvent) (expected_start_prev_hash : option string)
    (check_seq_continuity : bool) : res ChainResult :=
  match events with
  | [] => Ok (chain_ok 0 None)
  | _ =>
      let? bad := validate_from expected_start_prev_hash check_seq_continuity 0 None events in
      Ok (override bad (chain_ok (Z.of_nat (length events)) (last_hash events)))
  end.

(** ** Repository (repository_memory.py) *)

Definition InMemoryLedgerRepository : Type := list AuditEvent.

(** [wall] is what the repository clock reads when no timestamp is given. *)
Definition repo_append (mandate_id type : string) (payload : pydict) (created_at : option datetime) (wall : Z)
    : st InMemoryLedgerRepository AuditEvent :=
  events <- get ;;
  let seq := Z.of_nat (length events) + 1 in
  let prev_hash := override (last_hash events) GENESIS_PREV_HASH in
  let ts := override created_at (Aware wall) in
  event_hash <- lift (compute_event_hash mandate_id type payload prev_hash ts) ;;
  event <- lift (mk_AuditEvent mandate_id type payload prev_hash event_hash ts (Some seq) None) ;;
  put (events ++ [event]) ;;;
  ret event.

Definition in_seq_range (seq_start seq_end : Z) (e : AuditEvent) : bool :=
  match ae_seq e with Some n => (seq_start <=? n) && (n <=? seq_end) | None => false end.

Definition get_range (seq_start seq_end : Z) (events : InMemoryLedgerRepository) : list AuditEvent :=
  List.filter (in_seq_range seq_start seq_end) events.

Definition get_by_mandate (mandate_id : string) (events : InMemoryLedgerRepository) : list AuditEvent :=
  List.filter (fun e => String.eqb (ae_mandate_id e) mandate_id) events.

Definition get_tail (events : InMemoryLedgerRepository) : option AuditEvent := last events.

Definition with_sig (sig : string) (e : AuditEvent) : AuditEvent :=
  {| ae_mandate_id := ae_mandate_id e; ae_type := ae_type e; ae_payload := ae_payload e;
     ae_prev_hash := ae_prev_hash e; ae_hash := ae_hash e; ae_created_at := ae_created_at e;
     ae_seq := ae_seq e; ae_root_sig := Some sig |}.

Definition unannotated (seq_start seq_end : Z) (e : AuditEvent) : bool :=
  in_seq_range seq_start seq_end e && match ae_root_sig e with None => true | Some _ => false end.

(** The rebuilt events are checked again by their constructor; those the
    repository made pass. *)
Definition annotate_root (seq_start seq_end : Z) (root_sig : string) : st InMemoryLedgerRepository Z :=
  events <- get ;;
  new_events <- lift (res_map (fun e =>
      if unannotated seq_start seq_end e then
        mk_AuditEvent (ae_mandate_id e) (ae_type e) (ae_payload e) (ae_prev_hash e) (ae_hash e)
          (Aware (ae_created_at e)) (ae_seq e) (Some root_sig)
      else Ok e) events) ;;
  put new_events ;;;
  ret (Z.of_nat (length (List.filter (unannotated seq_start seq_end) events))).

(** ** Witness (witness_memory.py) *)

Definition InMemoryWitness : Type := dict (Z * Z) RootCheckpoint.

Definition witness_put (checkpoint : RootCheckpoint) : st InMemoryWitness unit :=
  w <- get ;;
  let key := (cp_seq_start checkpoint, cp_seq_end checkpoint) in
  match dget key w with
  | Some _ => raise ValueError
  | None => put (dset key checkpoint w)
  end.

Definition witness_get (seq_start seq_end : Z) (w : InMemoryWitness) : option RootCheckpoint :=
  dget (seq_start, seq_end) w.

(** ** The signer port (ports.py) *)

(** Signatures over byte strings: a signature verifies for the data it was made
    for, and signatures of different data differ. *)
Class RootSigner : Type := {
  sign : string -> string;
  signer_verify : string -> string -> bool;
  verify_sign : forall data, signer_verify data (sign data) = true;
  sign_inj : forall a b, sign a = sign b -> a = b;
  sign_nonempty : forall a, truthy_str (sign a) = true;
}.

(** [bytes.hex()] and [bytes.fromhex(text)], which skips white space between
    pairs. *)
Definition bytes_hex (b : string) : string := hex (bytes_of_string b).

Definition is_hex_space (c : ascii) : bool :=
  let n := N_of_ascii c in (n =? 32)%N || ((9 <=? n) && (n <=? 13))%N.

Fixpoint fromhex (s : string) : option string :=
  match s with
  | EmptyString => Some EmptyString
  | String.String c s' =>
      if is_hex_space c then fromhex s'
      else
        match s' with
        | EmptyString => None
        | String.String d s'' =>
            match hex_value c, hex_value d with
            | Some h, Some l => option_map (String.String (ascii_of_N (16 * h + l))) (fromhex s'')
            | _, _ => None
            end
        end
  end.

(** ** The service (service.py) *)

Record LedgerState : Type := { repo : InMemoryLedgerRepository; witness : InMemoryWitness; clock : Z }.

Definition led (A : Type) : Type := st LedgerState A.
Definition on_repo {A} (m : st InMemoryLedgerRepository A) : led A :=
  zoom repo (fun r s => {| repo := r; witness := witness s; clock := clock s |}) m.
Definition on_witness {A} (m : st InMemoryWitness A) : led A :=
  zoom witness (fun w s => {| repo := repo s; witness := w; clock := clock s |}) m.

Definition ledger_append (type mandate_id : string) (payload : pydict) (created_at : option datetime) : led AuditEvent :=
  s <- get ;; on_repo (repo_append mandate_id type payload created_at (clock s)).

(** [x.seq or default] *)
Definition seq_or (n : option Z) (default : Z) : Z :=
  match n with Some k => if k =? 0 then default else k | None => default end.

Definition annotated_seqs (events : list AuditEvent) : list Z :=
  omap (fun e => match ae_seq e, ae_root_sig e with Some n, Some _ => Some n | _, _ => None end) events.

Definition default_start (first : AuditEvent) (events : list AuditEvent) : Z :=
  match annotated_seqs events with
  | [] => seq_or (ae_seq first) 1
  | n :: ns => fold_left Z.max ns n + 1
  end.

Section Signer.
Context `{RootSigner}.

Definition sign_root (seq_start seq_end : option Z) : led RootCheckpoint :=
  s <- get ;;
  match repo s, last (repo s) with
  | first :: _, Some final =>
      let start := override seq_start (default_start first (repo s)) in
      let stop := override seq_end (seq_or (ae_seq final) (Z.of_nat (length (repo s)))) in
      if stop <? start then raise ValueError
      else
        match get_range start stop (repo s), last (get_range start stop (repo s)) with
        | e0 :: _, Some en =>
            let events_in_range := get_range start stop (repo s) in
            range_valid <- lift (validate_chain events_in_range (Some (ae_prev_hash e0)) true) ;;
            if negb (cr_ok range_valid) then raise RuntimeError
            else
              let cardinality := Z.of_nat (length events_in_range) in
              root_hash <- lift (compute_root_hash start stop (ae_hash en) cardinality) ;;
              let root_sig := bytes_hex (sign root_hash) in
              checkpoint <- lift (mk_RootCheckpoint start stop root_hash root_sig cardinality (Aware (clock s))) ;;
              on_repo (annotate_root start stop root_sig) ;;;
              on_witness (witness_put checkpoint) ;;;
              ret checkpoint
        | _, _ => raise ValueError
        end
  | _, _ => raise ValueError
  end.

(** *** Verification *)

(** The ranges of contiguous events with one root signature: what the loop has
    closed, and the signature, start and last sequence of the open one. *)
Record grouping : Type := {
  closed : list (Z * Z * string);
  cur_sig : option string;
  range_start : option Z;
  last_seq : option Z;
}.

Definition close_range (g : grouping) : list (Z * Z * string) :=
  match cur_sig g, range_start g, last_seq g with
  | Some sig, Some a, Some b => closed g ++ [(a, b, sig)]
  | _, _, _ => closed g
  end.

Definition group_event (g : grouping) (e : AuditEvent) : grouping :=
  match ae_seq e with
  | None => g
  | Some n =>
      if bool_decide (ae_root_sig e = cur_sig g) then
        {| closed := closed g; cur_sig := cur_sig g; range_start := range_start g; last_seq := Some n |}
      else
        {| closed := close_range g; cur_sig := ae_root_sig e; range_start := Some n; last_seq := Some n |}
  end.

Definition checkpoint_ranges (events : list AuditEvent) : list (Z * Z * string) :=
  close_range (fold_left group_event events {| closed := []; cur_sig := None; range_start := None; last_seq := None |}).

Definition range_text (a b : Z) : string := (int_str a +:+ "-" +:+ int_str b)%string.

(** One checkpoint: the failure it reports, if any. *)
Definition check_range (events : list AuditEvent) (w : InMemoryWitness) (r : Z * Z * string)
    : res (option ChainResult) :=
  let '(a, b, root_sig) := r in
  let range_events := get_range a b events in
  let n := Z.of_nat (length events) in
  match last range_events with
  | None => Raise IndexError
  | Some final =>
      let? root := compute_root_hash a b (ae_hash final) (Z.of_nat (length range_events)) in
      let sig_valid := match fromhex root_sig with Some bytes => signer_verify root bytes | None => false end in
      if negb sig_valid then
        Ok (Some (chain_bad (Some a) ("invalid root signature for sequence range " +:+ range_text a b)%string n))
      else
        match witness_get a b w with
        | None =>
            Ok (Some (chain_bad (Some a) ("missing external witness for sequence range " +:+ range_text a b)%string n))
        | Some cp =>
            if negb (String.eqb (cp_root_hash cp) root) || negb (String.eqb (cp_root_sig cp) root_sig)
               || negb (cp_cardinality cp =? Z.of_nat (length range_events))
            then Ok (Some (chain_bad (Some a)
                   ("external witness divergence for sequence range " +:+ range_text a b +:+ ": witness hash "
                    +:+ cp_root_hash cp +:+ ", local hash " +:+ root)%string n))
            else Ok None
        end
  end.

Fixpoint check_ranges (events : list AuditEvent) (w : InMemoryWitness) (rs : list (Z * Z * string))
    : res (option ChainResult) :=
  match rs with
  | [] => Ok None
  | r :: rs' =>
      let? bad := check_range events w r in
      match bad with Some x => Ok (Some x) | None => check_ranges events w rs' end
  end.

(** The projection of one mandate. *)
Fixpoint check_projection (mandate_id : string) (events : list AuditEvent) : res (option ChainResult) :=
  match events with
  | [] => Ok None
  | e :: rest =>
      let? expected_hash := event_hash e in
      if negb (String.eqb (ae_hash e) expected_hash) then
        let seq_text := match ae_seq e with Some n => int_str n | None => "None" end in
        Ok (Some (chain_bad (ae_seq e)
          ("Hash mismatch at seq " +:+ seq_text +:+ " in mandate " +:+ mandate_id)%string 0))
      else check_projection mandate_id rest
  end.

Definition whole (events : list AuditEvent) : ChainResult := chain_ok (Z.of_nat (length events)) (last_hash events).

Definition verify_chain (mandate_id : option string) (seq_range : option (Z * Z)) : led ChainResult :=
  s <- get ;;
  match mandate_id with
  | Some mid =>
      let events := get_by_mandate mid (repo s) in
      match events with
      | [] => ret (chain_ok 0 None)
      | _ => bad <- lift (check_projection mid events) ;; ret (override bad (whole events))
      end
  | None =>
      let events := match seq_range with Some r => get_range r.1 r.2 (repo s) | None => repo s end in
      match events with
      | [] => ret (chain_ok 0 None)
      | _ =>
          chain_res <- lift (validate_chain events None true) ;;
          if negb (cr_ok chain_res) then ret chain_res
          else
            bad <- lift (check_ranges events (witness s) (checkpoint_ranges events)) ;;
            ret (override bad (whole events))
      end
  end.
End Signer.
