(* ===== verification/Canonical.v ===== *)
(** The canonical JSON forms of the code base: src/src/api/canonical.py, the one
    evidence is hashed with, and src/src/agent/crypto/canonical.py, the one the
    agent signs with; where they agree with each other, with
    api/domain/idempotency.py and with api/audit/hashing.py; and how the agent's
    form decodes. *)
From S2P Require Import Prelude PyTime Decimal Sha256 Json JsonParse Models Idempotency Ledger.

(** ** src/src/api/canonical.py *)

Module Evidence.

Definition normalize_utc (value : datetime) : res string :=
  match value with Aware us => Ok (isoformat_z us) | Naive _ => Raise ValueError end.

Definition _default : json_default :=
  {| default_dec := fun d => Ok (JStr (dec_fmt_f d));
     default_time := fun t => let? s := normalize_utc t in Ok (JStr s);
     default_float := dumps_float |}.

(** The walk stops at the first float; keys of a [VDict] are texts. *)
Fixpoint _check (value : pyval) : res unit :=
  match value with
  | VFloat _ => Raise TypeError
  | VList l => (fix go l := match l with [] => Ok () | x :: l' => let? _ := _check x in go l' end) l
  | VDict kvs => (fix go l := match l with [] => Ok () | (_, x) :: l' => let? _ := _check x in go l' end) kvs
  | _ => Ok ()
  end.

Definition canonical_json (value : pyval) : res string := let? _ := _check value in dumps _default value.
Definition sha256_hex (value : pyval) : res string := let? t := canonical_json value in Ok (Sha256.sha256_hex t).

End Evidence.

(** ** src/src/agent/crypto/canonical.py *)

Module Agent.

(** The rebuilt value. *)
Fixpoint _check (value : pyval) : res pyval :=
  match value with
  | VFloat _ | VDec _ | VTime _ => Raise NonCanonical
  | VBool _ | VNone | VStr _ | VInt _ => Ok value
  | VDict kvs =>
      let? l := (fix go l := match l with
                             | [] => Ok []
                             | (k, x) :: l' => let? y := _check x in let? ys := go l' in Ok ((k, y) :: ys)
                             end) kvs in
      Ok (VDict l)
  | VList l =>
      let? l := (fix go l := match l with
                             | [] => Ok []
                             | x :: l' => let? y := _check x in let? ys := go l' in Ok (y :: ys)
                             end) l in
      Ok (VList l)
  end.

(** [json.dumps] without a [default]; after [_check] it meets no object of its own. *)
Definition no_default : json_default :=
  {| default_dec := fun _ => Raise TypeError; default_time := fun _ => Raise TypeError; default_float := fun r => Ok (JFloat r) |}.

Definition canonical_json (obj : pyval) : res string := let? v := _check obj in dumps no_default v.

End Agent.

(** ** Agreement *)

(** No float, [Decimal] or datetime: what the agent accepts to sign. *)
Fixpoint plain (v : pyval) : bool :=
  match v with
  | VFloat _ | VDec _ | VTime _ => false
  | VList l => (fix go l := match l with [] => true | x :: l' => plain x && go l' end) l
  | VDict kvs => (fix go l := match l with [] => true | (_, x) :: l' => plain x && go l' end) kvs
  | _ => true
  end.

Lemma evidence_check v : Evidence._check v = if has_float v then Raise TypeError else Ok ().
Proof.
  induction v as [v Hl Hd|l IH|kvs IH] using pyval_nested_ind.
  - destruct v; try done; [by destruct (Hl l)|by destruct (Hd kvs)].
  - cbn. induction IH as [|x l Hx _ IHl]; [done|]. rewrite Hx. destruct (has_float x); [done|]. exact IHl.
  - cbn. induction IH as [|[k x] l Hx _ IHl]; [done|]. cbn [snd] in Hx. rewrite Hx. destruct (has_float x); [done|]. exact IHl.
Qed.

Lemma agent_check v : Agent._check v = if plain v then Ok v else Raise NonCanonical.
Proof.
  induction v as [v Hl Hd|l IH|kvs IH] using pyval_nested_ind.
  - destruct v; try done; [by destruct (Hl l)|by destruct (Hd kvs)].
  - cbn. match goal with |- (let? _ := ?g l in _) = (if ?p l then _ else _) =>
      assert (H : g l = if p l then Ok l else Raise NonCanonical); [|rewrite H; by destruct (p l)] end.
    induction IH as [|x l Hx _ IHl]; [done|]. cbn. rewrite Hx. destruct (plain x); [|done]. cbn [rbind andb].
    rewrite IHl. match goal with |- context [if ?p l then _ else _] => by destruct (p l) end.
  - cbn. match goal with |- (let? _ := ?g kvs in _) = (if ?p kvs then _ else _) =>
      assert (H : g kvs = if p kvs then Ok kvs else Raise NonCanonical); [|rewrite H; by destruct (p kvs)] end.
    induction IH as [|[k x] l Hx _ IHl]; [done|]. cbn in *. rewrite Hx. destruct (plain x); [|done]. cbn [rbind andb].
    rewrite IHl. match goal with |- context [if ?p l then _ else _] => by destruct (p l) end.
Qed.

(** Serialization depends on the defaults only through the objects met. *)
Lemma to_json_agree (p : pyval -> bool) (d d' : json_default) v :
  (forall l, p (VList l) = true -> forallb p l = true) ->
  (forall kvs, p (VDict kvs) = true -> forallb (fun kv => p kv.2) kvs = true) ->
  (forall x, p (VDec x) = true -> default_dec d x = default_dec d' x) ->
  (forall x, p (VTime x) = true -> default_time d x = default_time d' x) ->
  (forall x, p (VFloat x) = true -> default_float d x = default_float d' x) ->
  p v = true -> to_json d v = to_json d' v.
Proof.
  intros Hlist Hdict Hdec Htime Hfloat. induction v as [v Hl Hd|l IH|kvs IH] using pyval_nested_ind; intros Hp.
  - destruct v; cbn; auto; [by destruct (Hl l)|by destruct (Hd kvs)].
  - apply Hlist in Hp. cbn. f_equal. induction IH as [|x l Hx _ IHl]; [done|]. apply andb_prop in Hp as [Hp Hps].
    rewrite Hx by done. destruct (to_json d' x); [|done]. cbn [rbind]. by rewrite IHl.
  - apply Hdict in Hp. cbn. f_equal. induction IH as [|[k x] l Hx _ IHl]; [done|]. apply andb_prop in Hp as [Hp Hps].
    cbn [snd] in *. rewrite Hx by done. destruct (to_json d' x); [|done]. cbn [rbind]. by rewrite IHl.
Qed.

Lemma plain_list l : plain (VList l) = true -> forallb plain l = true.
Proof. done. Qed.
Lemma plain_dict kvs : plain (VDict kvs) = true -> forallb (fun kv => plain kv.2) kvs = true.
Proof. intros H. induction kvs as [|[k x] l IH]; [done|]. cbn in *. apply andb_prop in H as [-> H]. by apply IH. Qed.

Lemma no_float_list l : negb (has_float (VList l)) = true -> forallb (fun v => negb (has_float v)) l = true.
Proof. intros H. induction l as [|x l IH]; [done|]. cbn in *. destruct (has_float x); [done|]. by apply IH. Qed.
Lemma no_float_dict kvs : negb (has_float (VDict kvs)) = true -> forallb (fun kv => negb (has_float kv.2)) kvs = true.
Proof. intros H. induction kvs as [|[k x] l IH]; [done|]. cbn in *. destruct (has_float x); [done|]. by apply IH. Qed.

Lemma plain_no_float v : plain v = true -> has_float v = false.
Proof.
  induction v as [v Hl Hd|l IH|kvs IH] using pyval_nested_ind; intros Hp.
  - destruct v; try done; [by destruct (Hl l)|by destruct (Hd kvs)].
  - apply plain_list in Hp. cbn. induction IH as [|x l Hx _ IHl]; [done|]. apply andb_prop in Hp as [Hp Hps].
    rewrite Hx by done. exact (IHl Hps).
  - apply plain_dict in Hp. cbn. induction IH as [|[k x] l Hx _ IHl]; [done|]. apply andb_prop in Hp as [Hp Hps].
    cbn [snd] in *. rewrite Hx by done. exact (IHl Hps).
Qed.

(** Without naive datetimes, whose refusals differ in class. *)
Fixpoint aware (v : pyval) : bool :=
  match v with
  | VTime (Naive _) => false
  | VList l => (fix go l := match l with [] => true | x :: l' => aware x && go l' end) l
  | VDict kvs => (fix go l := match l with [] => true | (_, x) :: l' => aware x && go l' end) kvs
  | _ => true
  end.

(** C36: The canonical forms of the code base agree: evidence and audit ledger on
    every value; the request fingerprint of the idempotency layer with them on
    values without floats and naive datetimes; and the agent signs exactly the
    values without floats, [Decimal]s and datetimes, with the text evidence
    would hash. *)
Theorem canonical_forms_agree (v : pyval) :
  Evidence.canonical_json v = Ledger.canonical_json v /\
  (has_float v = false -> aware v = true -> Idempotency.canonical_json v = Evidence.canonical_json v) /\
  Agent.canonical_json v = (if plain v then Evidence.canonical_json v else Raise NonCanonical).
Proof.
  unfold Evidence.canonical_json, Ledger.canonical_json, _check_no_floats, Idempotency.canonical_json, Agent.canonical_json, dumps.
  rewrite evidence_check, agent_check. split_and!.
  - destruct (has_float v) eqn:E; [done|]. cbn [rbind]. f_equal.
    apply (to_json_agree (fun v => negb (has_float v))); [apply no_float_list|apply no_float_dict|done| |done|by rewrite E].
    intros [us|us] _; reflexivity.
  - intros E Ha. rewrite E. cbn [rbind]. f_equal.
    apply (to_json_agree aware); [done| |done| | |done].
    + intros kvs H. induction kvs as [|[k x] l IH]; [done|]. cbn in *. apply andb_prop in H as [-> H]. by apply IH.
    + by intros [us|us].
    + done.
  - destruct (plain v) eqn:E; [|done]. rewrite (plain_no_float v E). cbn [rbind]. f_equal.
    apply (to_json_agree plain); [apply plain_list|apply plain_dict|done|done|done|done].
Qed.

(** ** Decoding *)

(** The same value with the keys of every mapping sorted. *)
Fixpoint sort_value (v : pyval) : pyval :=
  match v with
  | VList l => VList (map sort_value l)
  | VDict kvs => VDict (sort_keys (map (fun kv => (kv.1, sort_value kv.2)) kvs))
  | _ => v
  end.

(** Keys distinct in every mapping, as in a Python dict, and integers within the
    4300 digits [int] reads. *)
Fixpoint decodable (v : pyval) : Prop :=
  match v with
  | VInt n => (length (digits (Z.abs n)) <= max_int_digits)%nat
  | VList l => (fix go l := match l with [] => True | x :: l' => decodable x /\ go l' end) l
  | VDict kvs => NoDup kvs.*1 /\ (fix go l := match l with [] => True | (_, x) :: l' => decodable x /\ go l' end) kvs
  | _ => True
  end.

Lemma insert_key_map {A B} (f : A -> B) k v l :
  map (fun kv => (kv.1, f kv.2)) (insert_key k v l) = insert_key k (f v) (map (fun kv => (kv.1, f kv.2)) l).
Proof. induction l as [|[k' v'] l IH]; [done|]. cbn. destruct (String.leb k k'); [done|]. cbn. by rewrite IH. Qed.

Lemma sort_keys_map {A B} (f : A -> B) l :
  map (fun kv => (kv.1, f kv.2)) (sort_keys l) = sort_keys (map (fun kv => (kv.1, f kv.2)) l).
Proof.
  induction l as [|[k v] l IH]; [done|]. change (sort_keys ((k, v) :: l)) with (insert_key k v (sort_keys l)).
  by rewrite insert_key_map, IH.
Qed.

Lemma insert_key_perm {A} k (v : A) l : insert_key k v l ≡ₚ (k, v) :: l.
Proof.
  induction l as [|[k' v'] l IH]; [done|]. cbn. destruct (String.leb k k'); [done|]. rewrite IH. apply Permutation_swap.
Qed.

Lemma sort_keys_perm {A} (l : list (string * A)) : sort_keys l ≡ₚ l.
Proof. induction l as [|[k v] l IH]; [done|]. cbn. by rewrite insert_key_perm, IH. Qed.

Lemma readable_members_Forall l : readable_members l <-> Forall (fun kv => readable kv.2) l.
Proof.
  induction l as [|[k x] l IH]; cbn; [by split; [constructor|]|]. rewrite Forall_cons, <- IH. done.
Qed.

(** The tree of a plain value stands for the value, sorted, and decodes when the
    value is decodable. *)
Lemma plain_tree d v : plain v = true ->
  exists j, to_json d v = Ok j /\ exact j = true /\ of_json j = sort_value v /\ (decodable v -> readable j).
Proof.
  induction v as [v Hl Hd|l IH|kvs IH] using pyval_nested_ind; intros Hp.
  - destruct v; try done; try (by eexists); [by destruct (Hl l)|by destruct (Hd kvs)].
  - apply plain_list in Hp. cbn.
    match goal with |- exists j, (let? _ := ?g l in _) = _ /\ _ => assert (exists js, g l = Ok js /\ forallb exact js = true /\
      map of_json js = map sort_value l /\ (decodable (VList l) -> readables js)) as (js & -> & Hx & Heq & Hrs) end.
    { induction IH as [|x l Hx _ IHl]; [by exists []|]. cbn [forallb] in Hp. apply andb_prop in Hp as [Hpx Hps].
      destruct (Hx Hpx) as (j & -> & ? & Hj & Hrj). destruct (IHl Hps) as (js & Hjs & Hxs & Heq & Hrs).
      cbn [rbind]. rewrite Hjs. cbn [rbind]. exists (j :: js). split; [done|]. cbn [forallb map]. rewrite Hj, Heq.
      split; [by apply andb_true_intro|]. split; [done|]. intros [? ?]. split; [by apply Hrj|by apply Hrs]. }
    exists (JList js). split; [done|]. split; [done|]. split; [cbn; by rewrite Heq|exact Hrs].
  - apply plain_dict in Hp. cbn.
    match goal with |- exists j, (let? _ := ?g kvs in _) = _ /\ _ => assert (exists js, g kvs = Ok js /\ forallb (fun kv => exact kv.2) js = true /\
      js.*1 = kvs.*1 /\ map (fun kv => (kv.1, of_json kv.2)) js = map (fun kv => (kv.1, sort_value kv.2)) kvs /\
      (Forall (fun kv => decodable kv.2) kvs -> readable_members js)) as (js & -> & Hx & Hk & Heq & Hrs) end.
    { induction IH as [|[k x] l Hx _ IHl]; [by exists []|]. cbn [forallb] in Hp. apply andb_prop in Hp as [Hpx Hps].
      destruct (Hx Hpx) as (j & Hj0 & ? & Hj & Hrj). destruct (IHl Hps) as (js & Hjs & Hxs & Hk & Heq & Hrs).
      cbn [snd] in *. rewrite Hj0. cbn [rbind]. rewrite Hjs. cbn [rbind]. exists ((k, j) :: js). split; [done|].
      cbn [forallb map fmap list_fmap fst snd]. rewrite Hj, Heq, Hk. split; [by apply andb_true_intro|]. split; [done|].
      split; [done|]. intros [? ?]%Forall_cons. split; [by apply Hrj|by apply Hrs]. }
    exists (JObj (sort_keys js)). split; [done|]. split; [by apply sort_keys_exact|].
    split; [cbn [of_json sort_value]; by rewrite sort_keys_map, Heq|].
    intros [Hnd Hr]. cbn. split; [by rewrite sort_keys_perm, Hk|]. apply readable_members_Forall. rewrite sort_keys_perm.
    apply readable_members_Forall, Hrs. clear -Hr. induction kvs as [|[k x] l IH]; [constructor|]. destruct Hr as [? ?]. constructor; auto.
Qed.

(** The texts the agent hashes and signs decode to their value, keys sorted. *)
Lemma canonical_loads (fr : string -> string) v t : Agent.canonical_json v = Ok t -> decodable v -> loads fr t = Ok (sort_value v).
Proof.
  intros Hc Hd. unfold Agent.canonical_json, dumps in Hc. rewrite agent_check in Hc. destruct (plain v) eqn:Hp; [|done].
  cbn [rbind] in Hc. destruct (plain_tree Agent.no_default v Hp) as (j & Hj & Hx & <- & Hr). rewrite Hj in Hc.
  injection Hc as <-. exact (scan_loads fr j Hx (Hr Hd)).
Qed.

(** What the agent signs is read back exactly, keys sorted, by any verifier that
    decodes it; and two values with one canonical text are the same up to the
    order of keys. *)
Theorem agent_canonical_roundtrip (fr : string -> string) (v : pyval) (t : string) :
  Agent.canonical_json v = Ok t -> decodable v ->
  loads fr t = Ok (sort_value v) /\
  (forall w, Agent.canonical_json w = Ok t -> decodable w -> sort_value w = sort_value v).
Proof.
  intros Hc Hd. split; [by apply canonical_loads|]. intros w Hw Hdw.
  pose proof (canonical_loads fr w t Hw Hdw) as H1. rewrite (canonical_loads fr v t Hc Hd) in H1. congruence.
Qed.

Definition demo_payload : pyval := VDict [("b", VBool true); ("a", VList [VInt 1; VNone])]%string.
Definition demo_text : string := match Agent.canonical_json demo_payload with Ok t => t | Raise _ => EmptyString end.

Lemma agent_canonical_roundtrip_witness :
  loads (fun r => r) demo_text = Ok (VDict [("a", VList [VInt 1; VNone]); ("b", VBool true)])%string.
Proof.
  apply (agent_canonical_roundtrip (fun r => r) demo_payload demo_text); [reflexivity|].
  repeat split; try exact I; [|vm_compute; lia]. apply (bool_decide_unpack _). reflexivity.
Defined.
