(* ===== verification/Jose.v ===== *)
(** Signed tokens: src/src/trustlib/jose.py over the JWS and JCS libraries it
    calls, the capture token that src/src/api/decision/capture_token.py mints and
    src/src/rappi_bridge/token.py verifies.  The libraries are an interface; what
    a token says and when it is accepted is proved against it. *)
From S2P Require Import Prelude PyTime Decimal Json JsonParse Base64 Models JsonLogic Idempotency Ledger Canonical.

(** ** [json.dumps(header)]: ASCII only, with spaces *)

Definition u16 (n : N) (tail : string) : string :=
  String.String backslash (String.String "u" (String.String (hex_chr (n / 4096)) (String.String (hex_chr (n / 256 mod 16))
    (String.String (hex_chr (n / 16 mod 16)) (String.String (hex_chr (n mod 16)) tail))))).

Definition u_escape (n : N) (tail : string) : string :=
  (if n <? 65536 then u16 n tail
   else u16 (55296 + (n - 65536) / 1024) (u16 (56320 + (n - 65536) mod 1024) tail))%N.

(** The quoted text: every character outside printable ASCII becomes its escape. *)
Fixpoint ascii_escape_to (s tail : string) : string :=
  match s with
  | EmptyString => String.String quote tail
  | String.String a s1 =>
      let n := N_of_ascii a in
      if (n =? 127)%N then u16 n (ascii_escape_to s1 tail)
      else if (n <? 128)%N then (escape_chr a +:+ ascii_escape_to s1 tail)%string
      else if (n <? 224)%N then
        match s1 with
        | String.String b s2 => u_escape ((n - 192) * 64 + (N_of_ascii b - 128)) (ascii_escape_to s2 tail)
        | EmptyString => u_escape n (ascii_escape_to s1 tail)
        end
      else if (n <? 240)%N then
        match s1 with
        | String.String b (String.String c s3) =>
            u_escape ((n - 224) * 4096 + (N_of_ascii b - 128) * 64 + (N_of_ascii c - 128)) (ascii_escape_to s3 tail)
        | _ => u_escape n (ascii_escape_to s1 tail)
        end
      else
        match s1 with
        | String.String b (String.String c (String.String d s4)) =>
            u_escape ((n - 240) * 262144 + (N_of_ascii b - 128) * 4096 + (N_of_ascii c - 128) * 64 + (N_of_ascii d - 128))
              (ascii_escape_to s4 tail)
        | _ => u_escape n (ascii_escape_to s1 tail)
        end
  end.

Definition quoted (s tail : string) : string := String.String quote (ascii_escape_to s tail).

(** A mapping of texts. *)
Fixpoint spaced_members (kvs : list (string * string)) : string :=
  match kvs with
  | [] => "}"
  | (k, v) :: kvs' =>
      quoted k (": " +:+ quoted v (match kvs' with [] => "}" | _ => ", " +:+ spaced_members kvs' end))%string
  end.

Definition dumps_header (kvs : list (string * string)) : string := String.String "{" (spaced_members kvs).

(** ** The libraries *)

(** jwcrypto's keys and compact JWS, and rfc8785: the compact form is
    header, payload and signature, each base64url; what a key signed opens with
    its public half; a canonical text decodes to the mapping it was made from. *)
Class JwsLibrary : Type := {
  Key : Type;
  public : Key -> Key;
  kty : Key -> string;
  jws_sign : Key -> string -> string -> string -> res string;
  jws_open : Key -> string -> res string;
  jcs_dumps : pyval -> res string;
  json_float_repr : string -> string;
  public_kty : forall k, kty (public k) = kty k;
  jws_signs : forall k alg protected payload, alg = "EdDSA"%string \/ alg = "ES256"%string ->
    exists sig, jws_sign k alg protected payload
                = Ok (b64u_encode protected +:+ "." +:+ b64u_encode payload +:+ "." +:+ sig)%string;
  jws_opens : forall k alg protected payload token,
    jws_sign k alg protected payload = Ok token -> jws_open (public k) token = Ok payload;
  jcs_decodes : forall kvs, plain (VDict kvs) = true -> NoDup kvs.*1 ->
    forallb (fun kv => match kv.2 with VList _ | VDict _ => false | VInt n => Z.abs n <? 2 ^ 53 | _ => true end) kvs = true ->
    exists text kvs', jcs_dumps (VDict kvs) = Ok text /\ loads json_float_repr text = Ok (VDict kvs') /\
      forall k, assoc k kvs' = assoc k kvs;
}.

Section Jose.
Context `{JwsLibrary}.

(** ** trustlib/jose.py *)

Definition alg_for (key : Key) : res string :=
  if String.eqb (kty key) "OKP" then Ok "EdDSA"%string
  else if String.eqb (kty key) "EC" then Ok "ES256"%string
  else Raise ValueError.

(** An empty [kid] or [typ] is left out of the header. *)
Definition header_of (alg : string) (kid typ : option string) : list (string * string) :=
  [("alg"%string, alg)]
  ++ match or_str kid None with Some k => [("kid"%string, k)] | None => [] end
  ++ match or_str typ None with Some t => [("typ"%string, t)] | None => [] end.

Definition sign_compact (payload : pyval) (key : Key) (kid typ : option string) : res string :=
  let? alg := alg_for key in
  let? text := jcs_dumps payload in
  jws_sign key alg (dumps_header (header_of alg kid typ)) text.

Definition verify_compact (token : string) (key : Key) : res pyval :=
  let? payload := jws_open key token in loads json_float_repr payload.

(** [token.split(".", 1)[0]] *)
Fixpoint before_dot (s : string) : string :=
  match s with
  | EmptyString => EmptyString
  | String.String c s' => if Ascii.eqb c "." then EmptyString else String.String c (before_dot s')
  end.

Definition peek_header (token : string) : res pyval :=
  let? text := b64u_decode (before_dot token) in loads json_float_repr text.

(** ** decision/capture_token.py *)

Definition TOKEN_TYP : string := "capture-token+jwt".
Definition DEFAULT_TTL_S : Z := 120.

(** [int(now.timestamp())] *)
Definition unix_seconds (us : Z) : Z := Z.quot us 1000000.

Definition mint_capture_token (purchase_id : string) (reservation_id : option string) (amount cart_hash : string)
    (key : Key) (kid : option string) (ttl_seconds : Z) (now : Z) (dry_run : bool) : res string :=
  let moment := unix_seconds now in
  sign_compact
    (VDict [("purchase_id", VStr purchase_id); ("reservation_id", opt_str reservation_id); ("amount", VStr amount);
            ("cart_hash", VStr cart_hash); ("dry_run", VBool dry_run); ("iat", VInt moment);
            ("exp", VInt (moment + ttl_seconds))]%string)
    key kid (Some TOKEN_TYP).

(** ** rappi_bridge/token.py *)

Definition ApprovalInvalid : exn := BridgeError "BRIDGE_APPROVAL_INVALID".
Definition ApprovalExpired : exn := BridgeError "BRIDGE_APPROVAL_EXPIRED".
Definition _CLOCK_SKEW_S : Z := 5.

(** [value.get(key)] *)
Definition py_get (value : pyval) (key : string) : res pyval :=
  match value with VDict kvs => Ok (override (assoc key kvs) VNone) | _ => Raise AttributeError end.

(** [keys.get(kid) if kid else None]: unhashable ids raise. *)
Definition key_of (keys : list (string * Key)) (kid : pyval) : res (option Key) :=
  if negb (truthy kid) then Ok None
  else match kid with
       | VStr k => Ok (assoc k keys)
       | VList _ | VDict _ => Raise TypeError
       | _ => Ok None
       end.

(** [float(value)] of an [int] or a [float], taken exactly; integers beyond the
    range of floats raise. *)
Definition float_of (value : pyval) : option (res dec) :=
  let of_int n := if Z.abs n <? 2 ^ 1024 - 2 ^ 970 then Ok (decimal_of_int n) else Raise OverflowError in
  match value with
  | VInt n => Some (of_int n)
  | VBool b => Some (of_int (if b then 1 else 0))
  | VFloat r => Some (decimal_of_string r)
  | _ => None
  end.

(** [us] microseconds, as seconds. *)
Definition seconds_of (us : Z) : dec := DFin (us <? 0) (Z.abs us) (-6).
Definition gt (a b : dec) : bool := match dcompare a b with Some Gt => true | _ => false end.

(** [keys] are the kernel keys by id, [moment] the time in microseconds. *)
Definition verify_capture_token (token : string) (keys : list (string * Key))
    (expected_purchase_id expected_cart_hash expected_amount : string) (expected_dry_run : bool) (moment : Z)
    : res pyval :=
  match (let? header := peek_header token in
         let? kid := py_get header "kid" in
         let? typ := py_get header "typ" in Ok (kid, typ)) with
  | Raise _ => Raise ApprovalInvalid
  | Ok (kid, typ) =>
      if negb (py_eq typ (VStr TOKEN_TYP)) then Raise ApprovalInvalid
      else
        let? key := key_of keys kid in
        match key with
        | None => Raise ApprovalInvalid
        | Some key =>
            match verify_compact token key with
            | Raise _ => Raise ApprovalInvalid
            | Ok claims =>
                let? exp := py_get claims "exp" in
                let? iat := py_get claims "iat" in
                let? expired := match float_of exp with
                                | None => Ok true
                                | Some e => let? e := e in Ok (gt (seconds_of (moment - seconds _CLOCK_SKEW_S)) e)
                                end in
                if (expired : bool) then Raise ApprovalExpired
                else
                  let? future := match float_of iat with
                                 | None => Ok true
                                 | Some i => let? i := i in Ok (gt i (seconds_of (moment + seconds _CLOCK_SKEW_S)))
                                 end in
                  if (future : bool) then Raise ApprovalInvalid
                  else
                    let? purchase_id := py_get claims "purchase_id" in
                    if negb (py_eq purchase_id (VStr expected_purchase_id)) then Raise ApprovalInvalid
                    else
                      let? cart_hash := py_get claims "cart_hash" in
                      if negb (py_eq cart_hash (VStr expected_cart_hash)) then Raise ApprovalInvalid
                      else
                        let? amount := py_get claims "amount" in
                        let? claimed := decimal_of_string (py_str amount) in
                        let? expected := decimal_of_string expected_amount in
                        if negb (deq claimed expected) then Raise ApprovalInvalid
                        else
                          let? dry_run := py_get claims "dry_run" in
                          if negb (Bool.eqb (truthy dry_run) expected_dry_run) then Raise ApprovalInvalid
                          else Ok claims
            end
        end
  end.

End Jose.

(** ** Headers read back *)

Lemma scan_ascii_chr a (r : string) : (N_of_ascii a <? 128)%N = true ->
  scan_string (if (N_of_ascii a =? 127)%N then u16 (N_of_ascii a) r else (escape_chr a +:+ r)%string)
  = ('(t, rest) ← scan_string r; Some (String.String a t, rest)).
Proof.
  intros Ha. destruct (N.eqb_spec (N_of_ascii a) 127) as [E|_]; [|apply scan_escaped].
  assert (a = ascii_of_N 127) as -> by (rewrite <- E; symmetry; apply ascii_N_embedding).
  exact (scan_string_u "0" "0" "7" "f" 127 r eq_refl eq_refl).
Qed.

Lemma scan_ascii_escape s r : ascii_only s = true -> scan_string (ascii_escape_to s r) = Some (s, r).
Proof.
  unfold ascii_only. induction s as [|a s IH]; [reflexivity|]. cbn [str_forallb ascii_escape_to]. intros [Ha Hs]%andb_prop.
  pose proof (scan_ascii_chr a (ascii_escape_to s r) Ha) as Hc. rewrite (IH Hs) in Hc. rewrite Ha.
  destruct (N_of_ascii a =? 127)%N; exact Hc.
Qed.

Definition ascii_members (kvs : list (string * string)) : bool :=
  forallb (fun kv => ascii_only kv.1 && ascii_only kv.2) kvs.

Lemma scan_spaced fr kvs acc fuel : kvs <> [] -> NoDup (acc.*1 ++ kvs.*1) -> ascii_members kvs = true ->
  (2 * length kvs <= fuel)%nat ->
  scan_members fr fuel acc (spaced_members kvs) = Ok (VDict (acc ++ map (fun kv => (kv.1, VStr kv.2)) kvs), EmptyString).
Proof.
  revert acc fuel. induction kvs as [|[k v] kvs IH]; intros acc fuel Hne Hnd Ha Hf; [done|].
  apply andb_prop in Ha as [[Hk Hv]%andb_prop Hrest]. cbn [fst snd] in *.
  assert (Hfresh : k ∉ acc.*1).
  { apply NoDup_app in Hnd as (_ & Hnd & _). intros Hin. by apply (Hnd k Hin), list_elem_of_here. }
  destruct fuel as [|[|f]]; [cbn in Hf; lia..|].
  assert (Hscan : forall tail, scan_members fr (S (S f)) acc (quoted k (": " +:+ quoted v tail)%string) =
    match skip tail with
    | String.String e r3 =>
        if Ascii.eqb e "}" then Ok (VDict (dict_set k (VStr v) acc), r3)
        else if Ascii.eqb e "," then scan_members fr (S f) (dict_set k (VStr v) acc) (skip r3)
        else decode_error
    | EmptyString => decode_error
    end).
  { intros tail. unfold quoted at 1. cbn [scan_members]. change (Ascii.eqb quote quote) with true. cbv iota.
    rewrite (scan_ascii_escape k _ Hk). change ((": " +:+ quoted v tail)%string) with (String.String ":" (String.String " " (quoted v tail))).
    cbn [skip]. change (is_json_space ":") with false. cbv iota. change (Ascii.eqb ":" ":") with true. cbv iota.
    cbn [skip]. change (is_json_space " ") with true. cbv iota. change (skip (quoted v tail)) with (quoted v tail).
    unfold quoted. cbn [scan]. change (Ascii.eqb quote quote) with true. cbv iota. by rewrite (scan_ascii_escape v _ Hv). }
  cbn [spaced_members]. rewrite Hscan, dict_set_fresh by done. destruct kvs as [|kv kvs]; [done|].
  change ((", " +:+ spaced_members (kv :: kvs))%string) with (String.String "," (String.String " " (spaced_members (kv :: kvs)))).
  cbn [skip]. change (is_json_space ",") with false. cbv iota. change (Ascii.eqb "," "}") with false.
  change (Ascii.eqb "," ",") with true. cbv iota. cbn [skip]. change (is_json_space " ") with true. cbv iota.
  assert (skip (spaced_members (kv :: kvs)) = spaced_members (kv :: kvs)) as -> by by destruct kv.
  rewrite IH; [by rewrite <- app_assoc|done| |done|cbn in *; lia].
  rewrite fmap_app. cbn [fmap list_fmap fst] in *. by rewrite <- app_assoc.
Qed.

Lemma ascii_escape_longer s t : ascii_only s = true -> (String.length t < String.length (ascii_escape_to s t))%nat.
Proof.
  unfold ascii_only. induction s as [|a s IH]; cbn [ascii_escape_to str_forallb]; [cbn; lia|].
  intros [Ha Hs]%andb_prop. rewrite Ha. specialize (IH Hs). destruct (N_of_ascii a =? 127)%N; [cbn; lia|].
  rewrite slen_app. lia.
Qed.

Lemma spaced_longer kvs : ascii_members kvs = true -> (2 * length kvs <= String.length (spaced_members kvs))%nat.
Proof.
  induction kvs as [|[k v] kvs IH]; [cbn; lia|]. intros [[Hk Hv]%andb_prop Hr]%andb_prop. specialize (IH Hr). cbn [fst snd] in *.
  cbn [spaced_members length]. unfold quoted. cbn [String.length].
  match goal with |- context [ascii_escape_to k ?t] => pose proof (ascii_escape_longer k t Hk) as H1 end.
  rewrite slen_app in H1. cbn [String.length] in H1.
  match type of H1 with context [ascii_escape_to v ?t] => pose proof (ascii_escape_longer v t Hv) as H2 end.
  destruct kvs; [cbn [length String.length] in *; lia|]. rewrite slen_app in H2. cbn [String.length] in H2. lia.
Qed.

Lemma header_decodes fr kvs : kvs <> [] -> NoDup kvs.*1 -> ascii_members kvs = true ->
  loads fr (dumps_header kvs) = Ok (VDict (map (fun kv => (kv.1, VStr kv.2)) kvs)).
Proof.
  intros Hne Hnd Ha. unfold loads, dumps_header, loads_fuel. cbn [skip]. change (is_json_space "{") with false. cbv iota.
  pose proof (spaced_longer kvs Ha) as Hl. cbn [String.length].
  replace (2 * S (String.length (spaced_members kvs)) + 2)%nat with (S (2 * String.length (spaced_members kvs) + 3)) by lia.
  cbn [scan]. change (Ascii.eqb "{" quote) with false. change (Ascii.eqb "{" "[") with false.
  change (Ascii.eqb "{" "{") with true. cbv iota.
  assert (skip (spaced_members kvs) = spaced_members kvs /\ exists r, spaced_members kvs = String.String quote r) as [-> [r Hr]]
    by (destruct kvs as [|[k v] kvs]; [done|]; split; [done|by eexists]).
  rewrite Hr at 1. change (Ascii.eqb quote "}") with false. cbv iota. rewrite scan_spaced; [done|done|done|done|lia].
Qed.

(** ** A minted token, at the bridge *)

Section Tokens.
Context `{JwsLibrary}.

Lemma b64_chr_no_dot n : (n < 64)%N -> Ascii.eqb (b64_chr n) "." = false.
Proof.
  intros Hn. destruct (Ascii.eqb_spec (b64_chr n) ".") as [E|]; [|done].
  pose proof (b64_val_chr n Hn) as Hv. by rewrite E in Hv.
Qed.

Lemma before_dot_encode s r : before_dot (b64u_encode s +:+ String.String "." r)%string = b64u_encode s.
Proof.
  assert (Hcons : forall c t, (String.String c t +:+ String.String "." r)%string = String.String c (t +:+ String.String "." r)%string) by done.
  induction s as [|a|a b|a b c s IH] using by_three; cbn [b64u_encode]; [done| | |]; rewrite !Hcons; cbn [before_dot];
    rewrite !b64_chr_no_dot by N_arith; [done|done|]. by rewrite IH.
Qed.

Lemma alg_cases k alg : alg_for k = Ok alg -> alg = "EdDSA"%string \/ alg = "ES256"%string.
Proof. unfold alg_for. destruct (String.eqb _ _); [intros [= <-]; by left|]. destruct (String.eqb _ _); [intros [= <-]; by right|done]. Qed.

Lemma Ok_inj {A} (a b : A) : Ok a = Ok b -> a = b.
Proof. by intros [= ->]. Qed.

(** What a compact token of ours says: its header, and its payload under the
    public half of the key. *)
Lemma compact_reads payload k kid typ token : sign_compact payload k (Some kid) (Some typ) = Ok token ->
  truthy_str kid = true -> truthy_str typ = true -> ascii_only kid = true -> ascii_only typ = true ->
  (exists alg, peek_header token = Ok (VDict [("alg", VStr alg); ("kid", VStr kid); ("typ", VStr typ)])%string) /\
  exists text, jcs_dumps payload = Ok text /\ verify_compact token (public k) = loads json_float_repr text.
Proof.
  unfold sign_compact. destruct (alg_for k) as [alg|] eqn:Ealg; cbn [rbind]; [|done].
  destruct (jcs_dumps payload) as [text|]; cbn [rbind]; [|done]. intros Hs Hk Ht Hak Hat.
  assert (header_of alg (Some kid) (Some typ) = [("alg", alg); ("kid", kid); ("typ", typ)]%string) as Hh.
  { unfold header_of, or_str. by rewrite Hk, Ht. }
  destruct (jws_signs k alg (dumps_header (header_of alg (Some kid) (Some typ))) text (alg_cases k alg Ealg)) as [sig Hsig].
  split.
  - exists alg. set (p := dumps_header (header_of alg (Some kid) (Some typ))) in *.
    assert (token = b64u_encode p +:+ String.String "." (b64u_encode text +:+ "." +:+ sig))%string as ->.
    { rewrite Hsig in Hs. symmetry. exact (Ok_inj _ _ Hs). }
    unfold peek_header. rewrite before_dot_encode, b64u_roundtrip. cbn [rbind]. unfold p. rewrite Hh. rewrite header_decodes; [done|done| |].
    + cbn. apply (bool_decide_unpack _). reflexivity.
    + unfold ascii_members. cbn [forallb fst snd]. rewrite Hak, Hat. by destruct (alg_cases k alg Ealg) as [-> | ->].
  - exists text. split; [done|]. unfold verify_compact. by rewrite (jws_opens _ _ _ _ _ Hs).
Qed.

Lemma gt_seconds a b : gt (seconds_of a) (decimal_of_int b) = (b * 1000000 <? a).
Proof.
  unfold gt, seconds_of, decimal_of_int, dcompare. replace (Z.min (-6) 0) with (-6) by lia.
  change (10 ^ (-6 - -6)) with 1. change (10 ^ (0 - -6)) with 1000000.
  assert (forall z, signed (z <? 0) (Z.abs z) = z) as Hs by (intros z; unfold signed; destruct (Z.ltb_spec z 0); lia).
  rewrite !Hs, Z.mul_1_r. destruct (Z.compare_spec a (b * 1000000)), (Z.ltb_spec (b * 1000000) a); try done; lia.
Qed.

Lemma gt_int_seconds a b : gt (decimal_of_int b) (seconds_of a) = (a <? b * 1000000).
Proof.
  unfold gt, seconds_of, decimal_of_int, dcompare. replace (Z.min 0 (-6)) with (-6) by lia.
  change (10 ^ (-6 - -6)) with 1. change (10 ^ (0 - -6)) with 1000000.
  assert (forall z, signed (z <? 0) (Z.abs z) = z) as Hs by (intros z; unfold signed; destruct (Z.ltb_spec z 0); lia).
  rewrite !Hs, Z.mul_1_r. destruct (Z.compare_spec (b * 1000000) a), (Z.ltb_spec a (b * 1000000)); try done; lia.
Qed.

Lemma float_of_int n : Z.abs n < 2 ^ 53 -> float_of (VInt n) = Some (Ok (decimal_of_int n)).
Proof.
  intros Hn. cbn [float_of]. assert (2 ^ 53 < 2 ^ 1024 - 2 ^ 970) as Hb by reflexivity.
  destruct (Z.ltb_spec (Z.abs n) (2 ^ 1024 - 2 ^ 970)); [done|lia].
Qed.

Lemma decimal_error s e : decimal_of_string s = Raise e -> e = InvalidOperation.
Proof. unfold decimal_of_string. destruct (read_sign _) as [neg r]. destruct (parse_number neg r); [done|]. destruct (parse_special neg r); [done|]. by intros [= <-]. Qed.

(** When a minted token is still good. *)
Definition token_open (minted_at ttl_seconds moment : Z) : Prop :=
  moment - seconds 5 <= (unix_seconds minted_at + ttl_seconds) * 1000000 /\
  unix_seconds minted_at * 1000000 <= moment + seconds 5.

(** C35: A capture token the kernel minted is accepted, under the keys that hold its
    id, exactly for the purchase, the cart and the dry-run flag it was minted for,
    an equal amount, and within its time to live, five seconds of skew on either
    side.  What is handed over then is what was minted: these seven fields and no
    others, each with the value it was minted with.  Otherwise it raises, and says
    that the approval expired exactly when it is past its time to live. *)
Theorem capture_token_exact (k : Key) (kid : string) (keys : list (string * Key)) (pid hash amount : string)
    (rid : option string) (ttl minted_at moment : Z) (dry : bool) (token : string) (pid' hash' amount' : string) (dry' : bool) :
  mint_capture_token pid rid amount hash k (Some kid) ttl minted_at dry = Ok token ->
  truthy_str kid = true -> ascii_only kid = true -> assoc kid keys = Some (public k) ->
  Z.abs (unix_seconds minted_at) < 2 ^ 53 -> Z.abs (unix_seconds minted_at + ttl) < 2 ^ 53 ->
  let good_for := token_open minted_at ttl moment /\ pid' = pid /\ hash' = hash /\ dry' = dry /\
    exists a b, decimal_of_string amount = Ok a /\ decimal_of_string amount' = Ok b /\ deq a b = true in
  match verify_capture_token token keys pid' hash' amount' dry' moment with
  | Ok claims => good_for /\ exists kvs, claims = VDict kvs /\ forall field, assoc field kvs =
      assoc field [("purchase_id", VStr pid); ("reservation_id", opt_str rid); ("amount", VStr amount); ("cart_hash", VStr hash);
                   ("dry_run", VBool dry); ("iat", VInt (unix_seconds minted_at)); ("exp", VInt (unix_seconds minted_at + ttl))]%string
  | Raise e => ~ good_for /\ (e = ApprovalExpired <-> (unix_seconds minted_at + ttl + 5) * 1000000 < moment)
  end.
Proof.
  intros Hmint Hk Hak Hkeys Hiat Hexp good_for. unfold mint_capture_token in Hmint.
  destruct (compact_reads _ k kid TOKEN_TYP token Hmint Hk eq_refl Hak eq_refl) as [[alg Hhead] (text & Htext & Hpay)].
  edestruct jcs_decodes as (text' & kvs' & Htext' & Hloads & Hassoc); [| | |rewrite Htext in Htext'; injection Htext' as <-].
  { by destruct rid. }
  { cbn. apply (bool_decide_unpack _). reflexivity. }
  { cbn [forallb snd opt_str]. apply Z.ltb_lt in Hiat, Hexp. rewrite Hiat, Hexp. by destruct rid. }
  unfold verify_capture_token. rewrite Hhead. cbn [rbind py_get override assoc String.eqb Ascii.eqb Bool.eqb].
  change (py_eq (VStr TOKEN_TYP) (VStr TOKEN_TYP)) with true. cbn [negb]. unfold key_of. cbn [truthy]. rewrite Hk. cbn [negb]. rewrite Hkeys.
  cbn [rbind]. rewrite Hpay, Hloads. cbn [py_get rbind]. rewrite !Hassoc. cbn [assoc override String.eqb Ascii.eqb Bool.eqb].
  rewrite !float_of_int by done. cbn [rbind]. rewrite gt_seconds, gt_int_seconds. unfold good_for, token_open, _CLOCK_SKEW_S, seconds in *.
  destruct (Z.ltb_spec ((unix_seconds minted_at + ttl) * 1000000) (moment - 5 * 1000000)) as [Hx|Hx]; [split; [intros ([Ho _] & _); lia|split; [lia|done]]|].
  assert (forall e : exn, e <> ApprovalExpired -> e = ApprovalExpired <-> (unix_seconds minted_at + ttl + 5) * 1000000 < moment) as Hother by (intros e He; split; [done|lia]).
  destruct (Z.ltb_spec (moment + 5 * 1000000) (unix_seconds minted_at * 1000000)) as [Hy|Hy]; [split; [intros ([_ Ho] & _); lia|by apply Hother]|].
  cbn [py_eq]. destruct (String.eqb_spec pid pid') as [->|]; cbn [negb]; [|split; [naive_solver|by apply Hother]].
  destruct (String.eqb_spec hash hash') as [->|]; cbn [negb]; [|split; [naive_solver|by apply Hother]].
  cbn [py_str]. destruct (decimal_of_string amount) as [a|ea] eqn:Ea; cbn [rbind].
  2: { split; [naive_solver|]. apply Hother. by apply decimal_error in Ea as ->. }
  destruct (decimal_of_string amount') as [b|eb] eqn:Eb; cbn [rbind].
  2: { split; [naive_solver|]. apply Hother. by apply decimal_error in Eb as ->. }
  destruct (deq a b) eqn:Ed; cbn [negb]; [|split; [intros (_ & _ & _ & _ & ? & ? & [= <-] & [= <-] & ?); congruence|by apply Hother]].
  cbn [truthy]. destruct (Bool.eqb dry dry') eqn:Edry; cbn [negb].
  - apply Bool.eqb_prop in Edry as ->. split; [split; [lia|]; split_and!; try done; by exists a, b|]. by exists kvs'.
  - split; [|by apply Hother]. intros (_ & _ & _ & -> & _). by rewrite Bool.eqb_reflx in Edry.
Qed.
End Tokens.

(** ** A concrete library *)

(** A library that marks what it signs with the name of the key, and serializes
    with the agent's canonical form; the shop's key is on P-256, others are Ed25519. *)
Definition mark_sign (k alg protected payload : string) : res string :=
  Ok (b64u_encode protected +:+ "." +:+ b64u_encode payload +:+ "." +:+ b64u_encode (k +:+ alg))%string.

Fixpoint after_dot (s : string) : string :=
  match s with
  | EmptyString => EmptyString
  | String.String c s' => if Ascii.eqb c "." then s' else after_dot s'
  end.

Definition mark_open (k token : string) : res string := b64u_decode (before_dot (after_dot token)).

Lemma after_dot_encode s r : after_dot (b64u_encode s +:+ String.String "." r)%string = r.
Proof.
  assert (Hcons : forall c t, (String.String c t +:+ String.String "." r)%string = String.String c (t +:+ String.String "." r)%string) by done.
  induction s as [|a|a b|a b c s IH] using by_three; cbn [b64u_encode]; [done| | |]; rewrite !Hcons; cbn [after_dot];
    rewrite !b64_chr_no_dot by N_arith; [done|done|]. by rewrite IH.
Qed.

Lemma assoc_elem {A} k (v : A) l : NoDup l.*1 -> assoc k l = Some v <-> (k, v) ∈ l.
Proof.
  induction l as [|[k' v'] l IH]; cbn [assoc fmap list_fmap fst]; intros Hnd.
  - split; [done|]. by intros ?%not_elem_of_nil.
  - apply NoDup_cons in Hnd as [Hk Hnd]. rewrite elem_of_cons. destruct (String.eqb_spec k k') as [->|Hne].
    + split; [intros [= ->]; by left|]. intros [[= ->]|Hin]; [done|]. exfalso. apply Hk.
      apply list_elem_of_fmap. by exists (k', v).
    + rewrite (IH Hnd). split; [by right|]. intros [[= -> ->]|]; done.
Qed.

Lemma assoc_perm {A} k (l l' : list (string * A)) : NoDup l.*1 -> l ≡ₚ l' -> assoc k l = assoc k l'.
Proof.
  intros Hnd Hp. assert (Hnd' : NoDup l'.*1) by (by rewrite <- Hp). apply option_eq. intros v.
  rewrite !assoc_elem by done. by rewrite Hp.
Qed.

Definition flat (v : pyval) : bool :=
  match v with VList _ | VDict _ => false | VInt n => Z.abs n <? 2 ^ 53 | _ => true end.

Lemma flat_decodable v : flat v = true -> decodable v /\ sort_value v = v.
Proof.
  destruct v as [|b|n|s|d|r|t|l|kvs]; try done. cbn [flat decodable sort_value]. intros Hn%Z.ltb_lt. split; [|done].
  assert (2 ^ 53 < 10 ^ 17) as Hp by reflexivity. unfold max_int_digits.
  destruct (decide (n = 0)) as [->|Hne]; [change (length (digits (Z.abs 0))) with 1%nat; lia|].
  pose proof (ndigits_le (Z.abs n) 17 ltac:(lia) ltac:(lia) ltac:(lia)) as Hd. unfold ndigits in Hd. lia.
Qed.

Lemma flat_decodes fr kvs : plain (VDict kvs) = true -> NoDup kvs.*1 -> forallb (fun kv => flat kv.2) kvs = true ->
  exists text kvs', Agent.canonical_json (VDict kvs) = Ok text /\ loads fr text = Ok (VDict kvs') /\
    forall k, assoc k kvs' = assoc k kvs.
Proof.
  intros Hp Hnd Hf.
  assert (decodable (VDict kvs) /\ map (fun kv => (kv.1, sort_value kv.2)) kvs = kvs) as [Hd Hs].
  { cbn [decodable]. clear Hp. induction kvs as [|[k v] kvs IH]; [by split; [split; [constructor|]|]|].
    cbn [forallb snd] in Hf. apply andb_prop in Hf as [Hv Hf]. apply flat_decodable in Hv as [Hv Hsv].
    assert (Hnd' := Hnd). apply NoDup_cons in Hnd' as [_ Hnd']. destruct (IH Hnd' Hf) as [[_ Hd] Hs].
    split; [done|]. cbn. by rewrite Hsv, Hs. }
  destruct (plain_tree Agent.no_default (VDict kvs) Hp) as (j & Hj & Hx & Heq & Hr). specialize (Hr Hd).
  exists (print j), (sort_keys kvs). unfold Agent.canonical_json, dumps. rewrite agent_check, Hp. cbn [rbind]. rewrite Hj.
  split; [done|]. split; [rewrite scan_loads by done; rewrite Heq; cbn [sort_value]; by rewrite Hs|].
  intros k. apply assoc_perm; [by rewrite sort_keys_perm|apply sort_keys_perm].
Qed.

#[export] Instance mark_library : JwsLibrary.
Proof.
  refine {| Key := string; public := fun k => k; kty := fun k => if String.eqb k "shop" then "EC"%string else "OKP"%string; jws_sign := mark_sign; jws_open := mark_open;
            jcs_dumps := Agent.canonical_json; json_float_repr := fun r => r |}.
  - done.
  - intros k alg p b _. by eexists.
  - intros k alg p b token Hs. unfold mark_sign in Hs.
    assert (token = b64u_encode p +:+ String.String "." (b64u_encode b +:+ String.String "." (b64u_encode (k +:+ alg))))%string as ->.
    { symmetry. exact (Ok_inj _ _ Hs). }
    unfold mark_open. by rewrite after_dot_encode, before_dot_encode, b64u_roundtrip.
  - intros kvs Hp Hnd Hf. by apply flat_decodes.
Defined.

Definition demo_token (amount : string) : string :=
  match mint_capture_token "p-1" (Some "r-1") amount "hash" ("issuer" : Key) (Some "v1") 120 0 false with Ok t => t | Raise _ => "" end%string.

(** Minted for 18300.00: good for 18300 at 100 s, naming the reservation, and not for
    another cart. *)
Lemma capture_token_exact_witness :
  (exists kvs, verify_capture_token (demo_token "18300.00") [("v1", "issuer" : Key)] "p-1" "hash" "18300" false (seconds 100) = Ok (VDict kvs) /\
    assoc "reservation_id" kvs = Some (VStr "r-1") /\ assoc "amount" kvs = Some (VStr "18300.00") /\ assoc "approved" kvs = None)%string /\
  is_ok (verify_capture_token (demo_token "18300.00") [("v1", "issuer" : Key)] "p-1" "other" "18300" false (seconds 100)) = false.
Proof.
  pose proof (fun hash' amount' => capture_token_exact ("issuer"%string : Key) "v1" [("v1"%string, "issuer"%string : Key)] "p-1" "hash"
    "18300.00" (Some "r-1"%string) 120 0 (seconds 100) false (demo_token "18300.00") "p-1" hash' amount' false
    eq_refl eq_refl eq_refl eq_refl eq_refl eq_refl) as H.
  split.
  - specialize (H "hash"%string "18300"%string). destruct (verify_capture_token _ _ _ _ _ _ _) as [claims|e].
    + destruct H as [_ (kvs & -> & Hf)]. exists kvs. rewrite !Hf. repeat split; reflexivity.
    + destruct H as [Hno _]. exfalso. apply Hno. split; [vm_compute; split; congruence|]. repeat split; try reflexivity.
      exists (DFin false 1830000 (-2)), (DFin false 18300 0). repeat split; reflexivity.
  - specialize (H "other"%string "18300"%string). destruct (verify_capture_token _ _ _ _ _ _ _) as [claims|e]; [|reflexivity].
    destruct H as [(_ & _ & Hh & _) _]. discriminate.
Defined.
