(* ===== verification/Prog.v ===== *)
(** Programs as trees of atomic statements, for the code that several requests
    run at the same time: the Rappi bridge (rappi_bridge/service.py, whose
    endpoints run in threads over one SQLite file) and the agent kernel
    (agent/kernel.py, whose SQL statements commit one by one).  A program is
    run whole ([run_prog]), stopped after some statements (a crash), or
    interleaved with others by a schedule ([interleave]).  Interleavings are
    reasoned about with rely-guarantee triples ([triple], [pool_interleave]). *)
From S2P Require Import Prelude.

Inductive prog (S A : Type) : Type :=
| Finish (r : res A)
| Do {X : Type} (op : st S X) (k : res X -> prog S A).
Arguments Finish {S A} _.
Arguments Do {S A X} _ _.

Section Prog.
Context {S : Type}.

(** One statement, its exception being the program's. *)
Definition atomic {A} (op : st S A) : prog S A := Do op Finish.
Definition pret {A} (a : A) : prog S A := Finish (Ok a).
Definition praise {A} (e : exn) : prog S A := Finish (Raise e).
Definition plift {A} (r : res A) : prog S A := Finish r.

Fixpoint pbind {A B} (m : prog S A) (f : A -> prog S B) : prog S B :=
  match m with
  | Finish (Ok a) => f a
  | Finish (Raise e) => Finish (Raise e)
  | Do op k => Do op (fun r => pbind (k r) f)
  end.

(** [try: m except <classes h handles>: h e] *)
Fixpoint pcatch {A} (m : prog S A) (h : exn -> option (prog S A)) : prog S A :=
  match m with
  | Finish (Ok a) => Finish (Ok a)
  | Finish (Raise e) => match h e with Some p => p | None => Finish (Raise e) end
  | Do op k => Do op (fun r => pcatch (k r) h)
  end.

(** The whole program without interference. *)
Fixpoint run_prog {A} (p : prog S A) : st S A := fun s =>
  match p with
  | Finish r => (r, s)
  | Do op k => let '(r, s') := op s in run_prog (k r) s'
  end.

Lemma run_pbind {A B} (m : prog S A) (f : A -> prog S B) s :
  run_prog (pbind m f) s = sbind (run_prog m) (fun a => run_prog (f a)) s.
Proof.
  revert s. induction m as [r|X op k IH]; intros s; cbn.
  - by destruct r.
  - unfold sbind. cbn. destruct (op s) as [r s']. apply IH.
Qed.

Lemma run_pcatch {A} (m : prog S A) h s :
  run_prog (pcatch m h) s = catch (run_prog m) (fun e => run_prog <$> h e) s.
Proof.
  revert s. induction m as [r|X op k IH]; intros s; cbn.
  - destruct r as [a|e]; [done|]. cbn. unfold catch. cbn. by destruct (h e).
  - unfold catch. cbn. destruct (op s) as [r s']. apply IH.
Qed.

(** ** Interleaving *)

(** A pool of programs in progress; a scheduled program makes one statement. *)
Definition step_at {A} (i : nat) (c : list (prog S A) * S) : list (prog S A) * S :=
  let '(pool, s) := c in
  match pool !! i with
  | Some (Do op k) => let '(r, s') := op s in (<[i := k r]> pool, s')
  | _ => c
  end.
#[global] Arguments step_at : simpl never.

Definition interleave {A} (schedule : list nat) (pool : list (prog S A)) (s : S) : list (prog S A) * S :=
  fold_left (fun c i => step_at i c) schedule (pool, s).

(** The statement a program makes next. *)
Definition step_prog {A} (p : prog S A) (s : S) : prog S A * S :=
  match p with
  | Finish _ => (p, s)
  | Do op k => let '(r, s') := op s in (k r, s')
  end.

Lemma step_at_prog {A} i (pool : list (prog S A)) s :
  step_at i (pool, s) =
  match pool !! i with Some p => (<[i := (step_prog p s).1]> pool, (step_prog p s).2) | None => (pool, s) end.
Proof.
  unfold step_at. destruct (pool !! i) as [[r|X op k]|] eqn:E; [|cbn; by destruct (op s)|done].
  cbn. by rewrite list_insert_id.
Qed.

Lemma interleave_invariant {A} (I : list (prog S A) -> S -> Prop) schedule pool s :
  (forall i p pool s, pool !! i = Some p -> I pool s -> I (<[i := (step_prog p s).1]> pool) (step_prog p s).2) ->
  I pool s -> I (interleave schedule pool s).1 (interleave schedule pool s).2.
Proof.
  intros Hstep. unfold interleave. revert pool s. induction schedule as [|i l IH]; intros pool s HI; cbn; [done|].
  rewrite step_at_prog. destruct (pool !! i) as [p|] eqn:E; [|by apply IH]. by apply IH, Hstep.
Qed.
End Prog.

(** A program over one component of a larger state. *)
Fixpoint pzoom {S T A} (view : S -> T) (update : T -> S -> S) (p : prog T A) : prog S A :=
  match p with
  | Finish r => Finish r
  | Do op k => Do (zoom view update op) (fun r => pzoom view update (k r))
  end.

Lemma run_pzoom {S T A} (view : S -> T) (update : T -> S -> S) (p : prog T A) s :
  (forall t s, view (update t s) = t) -> (forall t t' s, update t' (update t s) = update t' s) -> (forall s, update (view s) s = s) ->
  run_prog (pzoom view update p) s = ((run_prog p (view s)).1, update (run_prog p (view s)).2 s).
Proof.
  intros Hvu Huu Hu. revert s. induction p as [r|X op k IH]; intros s; cbn; [by rewrite Hu|].
  unfold zoom. destruct (op (view s)) as [r t] eqn:E. rewrite IH, Hvu, Huu. done.
Qed.

Notation "x <~ m ; k" := (pbind m (fun x => k))
  (at level 100, m at next level, right associativity) : aval_scope.

(** ** What every statement of a program does *)

(** Each statement, from any state, relates the states before and after. *)
Fixpoint does {S A} (G : S -> S -> Prop) (p : prog S A) : Prop :=
  match p with
  | Finish _ => True
  | Do op k => (forall s, G s (op s).2) /\ forall r, does G (k r)
  end.

Section Does.
Context {S : Type} (G : S -> S -> Prop).

Lemma does_bind {A B} (m : prog S A) (f : A -> prog S B) : does G m -> (forall a, does G (f a)) -> does G (pbind m f).
Proof using Type.
  intros Hm Hf. induction m as [[a|e]|X op k IH]; cbn; [apply Hf|done|]. destruct Hm as [Hop Hk]. split; [done|]. intros r. by apply IH.
Qed.

Lemma does_plift {A B} (r : res A) (f : A -> prog S B) : (forall a, r = Ok a -> does G (f a)) -> does G (pbind (plift r) f).
Proof using Type. intros Hf. destruct r as [a|e]; [by apply Hf|done]. Qed.

Lemma does_catch {A} (m : prog S A) h : does G m -> (forall e, match h e with Some p => does G p | None => True end) -> does G (pcatch m h).
Proof using Type.
  intros Hm Hh. induction m as [[a|e]|X op k IH]; cbn; [done| |].
  - specialize (Hh e). by destruct (h e).
  - destruct Hm as [Hop Hk]. split; [done|]. intros r. by apply IH.
Qed.

Lemma does_atomic {A} (op : st S A) : (forall s, G s (op s).2) -> does G (atomic op).
Proof using Type. intros H. by split. Qed.

Lemma does_pzoom {T A} (view : S -> T) update (p : prog T A) (H : T -> T -> Prop) :
  does H p -> (forall s t, H (view s) t -> G s (update t s)) -> does G (pzoom view update p).
Proof using Type.
  intros Hp Hu. induction p as [r|X op k IH]; cbn; [done|]. destruct Hp as [Hop Hk]. split; [|intros r; by apply IH].
  intros s. unfold zoom. pose proof (Hop (view s)) as Hs. destruct (op (view s)) as [r t]. by apply Hu.
Qed.

Lemma does_weaken {A} (H : S -> S -> Prop) (p : prog S A) : does H p -> (forall s s', H s s' -> G s s') -> does G p.
Proof using Type. intros Hp HG. induction p as [r|X op k IH]; cbn in *; [done|]. destruct Hp. split; [auto|]. intros r. by apply IH. Qed.

Lemma does_run {A} (p : prog S A) s : PreOrder G -> does G p -> G s (run_prog p s).2.
Proof using Type.
  intros HG. revert s. induction p as [r|X op k IH]; intros s; cbn; [reflexivity|]. intros [Hop Hk]. specialize (Hop s).
  destruct (op s) as [r s']. etransitivity; [exact Hop|]. by apply IH.
Qed.
End Does.

(** ** How a program run alone ends *)

Definition ends {S A} (p : prog S A) (s : S) (Q : res A -> S -> Prop) : Prop := Q (run_prog p s).1 (run_prog p s).2.

(** Every value the program can return, whatever its statements answer. *)
Fixpoint yields {S A} (P : A -> Prop) (p : prog S A) : Prop :=
  match p with
  | Finish (Ok a) => P a
  | Finish (Raise _) => True
  | Do op k => forall r, yields P (k r)
  end.

Section Ends.
Context {S : Type}.

Lemma ends_bind {A B} (m : prog S A) (f : A -> prog S B) s Q :
  ends m s (fun r s' => match r with Ok a => ends (f a) s' Q | Raise e => Q (Raise e) s' end) -> ends (pbind m f) s Q.
Proof. unfold ends. rewrite run_pbind. unfold sbind. by destruct (run_prog m s) as [[a|e] s']. Qed.

Lemma ends_catch {A} (m : prog S A) h s Q :
  ends m s (fun r s' => match r with
                        | Ok a => Q (Ok a) s'
                        | Raise e => match h e with Some p => ends p s' Q | None => Q (Raise e) s' end
                        end) -> ends (pcatch m h) s Q.
Proof.
  unfold ends. rewrite run_pcatch. unfold catch. destruct (run_prog m s) as [[a|e] s']; cbn; [done|]. by destruct (h e).
Qed.

Lemma ends_atomic {A B} (op : st S A) (f : A -> prog S B) s Q :
  match op s with (Ok a, s') => ends (f a) s' Q | (Raise e, s') => Q (Raise e) s' end -> ends (pbind (atomic op) f) s Q.
Proof. unfold ends. cbn. by destruct (op s) as [[a|e] s']. Qed.

Lemma ends_plift {A B} (r : res A) (f : A -> prog S B) s Q :
  (forall a, r = Ok a -> ends (f a) s Q) -> (forall e, Q (Raise e) s) -> ends (pbind (plift r) f) s Q.
Proof. intros Hf He. destruct r as [a|e]; [by apply Hf|apply He]. Qed.

Lemma ends_weaken {A} (p : prog S A) s (Q Q' : res A -> S -> Prop) : ends p s Q -> (forall r s', Q r s' -> Q' r s') -> ends p s Q'.
Proof. unfold ends. auto. Qed.

Lemma ends_does {A} (G : S -> S -> Prop) `{!PreOrder G} (p : prog S A) s Q : does G p -> (forall r s', G s s' -> Q r s') -> ends p s Q.
Proof. intros Hp HQ. apply HQ. by apply does_run. Qed.

Lemma ends_both {A} (p : prog S A) s (Q Q' : res A -> S -> Prop) : ends p s Q -> ends p s Q' -> ends p s (fun r s' => Q r s' /\ Q' r s').
Proof. by split. Qed.

Lemma ends_yields {A} (P : A -> Prop) (p : prog S A) s : yields P p -> ends p s (fun r _ => match r with Ok a => P a | Raise _ => True end).
Proof. unfold ends. revert s. induction p as [[a|e]|X op k IH]; intros s; cbn; [done|done|]. intros Hp. destruct (op s) as [r s']. by apply IH. Qed.

Lemma yields_bind {A B} (P : B -> Prop) (m : prog S A) (f : A -> prog S B) : (forall a, yields P (f a)) -> yields P (pbind m f).
Proof. intros Hf. induction m as [[a|e]|X op k IH]; cbn; [apply Hf|done|]. intros r. apply IH. Qed.

Lemma yields_then {A B} (Q : A -> Prop) (P : B -> Prop) (m : prog S A) (f : A -> prog S B) :
  yields Q m -> (forall a, Q a -> yields P (f a)) -> yields P (pbind m f).
Proof. intros Hm Hf. induction m as [[a|e]|X op k IH]; cbn in *; [by apply Hf|done|]. intros r. by apply IH. Qed.

Lemma yields_weaken {A} (P P' : A -> Prop) (p : prog S A) : (forall a, P a -> P' a) -> yields P p -> yields P' p.
Proof. intros HP. induction p as [[a|e]|X op k IH]; cbn; auto. Qed.

Lemma yields_catch {A} (P : A -> Prop) (m : prog S A) h : yields P m -> (forall e, match h e with Some p => yields P p | None => True end) -> yields P (pcatch m h).
Proof.
  intros Hm Hh. induction m as [[a|e]|X op k IH]; cbn in *; [done| |intros r; by apply IH]. specialize (Hh e). by destruct (h e).
Qed.

Lemma yields_plift {A B} (P : B -> Prop) (r : res A) (f : A -> prog S B) : (forall a, r = Ok a -> yields P (f a)) -> yields P (pbind (plift r) f).
Proof. intros Hf. destruct r as [a|e]; [by apply Hf|done]. Qed.
End Ends.

(** ** Rely and guarantee

    A program relies on what the others may do to the state between its
    statements ([R]) and guarantees what each of its own statements does
    ([G]); then its outcome and the state it leaves satisfy [Q]. *)
Definition stable {S} (R : S -> S -> Prop) (P : S -> Prop) : Prop := forall s s', R s s' -> P s -> P s'.

Section RelyGuarantee.
Context {S : Type} (R G : S -> S -> Prop) `{HR : !PreOrder R}.

Fixpoint rg {A} (p : prog S A) (s : S) (Q : res A -> S -> Prop) : Prop :=
  match p with
  | Finish r => forall s', R s s' -> Q r s'
  | Do op next => forall s1, R s s1 -> G s1 (op s1).2 /\ rg (next (op s1).1) (op s1).2 Q
  end.

Definition triple {A} (P : S -> Prop) (p : prog S A) (Q : res A -> S -> Prop) : Prop := forall s, P s -> rg p s Q.

Lemma rg_weaken {A} (p : prog S A) s (Q Q' : res A -> S -> Prop) :
  rg p s Q -> (forall r s', Q r s' -> Q' r s') -> rg p s Q'.
Proof using Type.
  revert s. induction p as [r|X op next IH]; intros s H HQ; cbn in *; [auto|].
  intros s1 Hs1. destruct (H s1 Hs1) as [H1 H2]. auto.
Qed.

Lemma rg_rely {A} (p : prog S A) s s' Q : R s s' -> rg p s Q -> rg p s' Q.
Proof using HR. intros Hs. destruct p as [r|X op next]; cbn; intros H s1 Hs1; apply H; by etransitivity. Qed.

Lemma rg_bind {A B} (m : prog S A) (f : A -> prog S B) s Q :
  rg m s (fun r s' => match r with Ok a => rg (f a) s' Q | Raise e => Q (Raise e) s' end) -> rg (pbind m f) s Q.
Proof using HR.
  revert s. induction m as [r|X op next IH]; intros s H; cbn in *.
  - destruct r as [a|e]; [apply H; reflexivity|exact H].
  - intros s1 Hs1. destruct (H s1 Hs1) as [H1 H2]. auto.
Qed.

Lemma rg_catch {A} (m : prog S A) h s Q :
  rg m s (fun r s' => match r with
                      | Ok a => Q (Ok a) s'
                      | Raise e => match h e with Some p => rg p s' Q | None => Q (Raise e) s' end
                      end) ->
  rg (pcatch m h) s Q.
Proof using HR.
  revert s. induction m as [r|X op next IH]; intros s H; cbn in *.
  - destruct r as [a|e]; [exact H|]. pose proof (H s ltac:(reflexivity)) as Hh. destruct (h e); [exact Hh|exact H].
  - intros s1 Hs1. destruct (H s1 Hs1) as [H1 H2]. auto.
Qed.

Lemma triple_bind {A B} (P : S -> Prop) (m : prog S A) (f : A -> prog S B) (M : res A -> S -> Prop) Q :
  triple P m M -> (forall a, triple (M (Ok a)) (f a) Q) -> (forall e s, M (Raise e) s -> Q (Raise e) s) ->
  triple P (pbind m f) Q.
Proof using HR.
  intros Hm Hf He s Hs. apply rg_bind. apply (rg_weaken m s M); [by apply Hm|]. intros [a|e] s'; [apply Hf|apply He].
Qed.

Lemma triple_catch {A} (P : S -> Prop) (m : prog S A) h (M Q : res A -> S -> Prop) :
  triple P m M -> (forall a s, M (Ok a) s -> Q (Ok a) s) ->
  (forall e, match h e with Some p => triple (M (Raise e)) p Q | None => forall s, M (Raise e) s -> Q (Raise e) s end) ->
  triple P (pcatch m h) Q.
Proof using HR.
  intros Hm Ha Hh s Hs. apply rg_catch. apply (rg_weaken m s M); [by apply Hm|]. intros [a|e] s'; [apply Ha|].
  intros He. specialize (Hh e). destruct (h e); by apply Hh.
Qed.

Lemma triple_conseq {A} (P P' : S -> Prop) (p : prog S A) (Q Q' : res A -> S -> Prop) :
  triple P p Q -> (forall s, P' s -> P s) -> (forall r s, Q r s -> Q' r s) -> triple P' p Q'.
Proof using Type. intros H HP HQ s Hs. eapply rg_weaken; eauto. Qed.

Lemma triple_finish {A} (P : S -> Prop) (r : res A) (Q : res A -> S -> Prop) :
  stable R P -> (forall s, P s -> Q r s) -> triple P (Finish r) Q.
Proof using Type. intros HP HQ s Hs s' Hr. apply HQ. by eapply HP. Qed.

Lemma triple_atomic {A} (P : S -> Prop) (op : st S A) (Q : res A -> S -> Prop) :
  stable R P -> (forall s, P s -> G s (op s).2 /\ forall s', R (op s).2 s' -> Q (op s).1 s') ->
  triple P (atomic op) Q.
Proof using Type. intros HP H s Hs s1 Hs1. apply H. by eapply HP. Qed.

(** An invariant of both relations holds where the program ends. *)
Lemma rg_invariant {A} (Inv : S -> Prop) (p : prog S A) s (Q : res A -> S -> Prop) :
  (forall s s', R s s' -> Inv s -> Inv s') -> (forall s s', G s s' -> Inv s -> Inv s') -> rg p s Q -> Inv s -> rg p s (fun r s' => Q r s' /\ Inv s').
Proof using Type.
  intros HR' HG. revert s. induction p as [r|X op next IH]; intros s; cbn.
  - intros H Hs s' Hs'. split; [by apply H|by eapply HR'].
  - intros H Hs s1 Hs1. destruct (H s1 Hs1) as [H1 H2]. split; [done|]. apply IH; [done|]. eapply HG; [exact H1|by eapply HR'].
Qed.

(** Alone, a program satisfies its postcondition. *)
Lemma rg_run {A} (p : prog S A) s Q : rg p s Q -> Q (run_prog p s).1 (run_prog p s).2.
Proof using HR.
  revert s. induction p as [r|X op next IH]; intros s H; cbn in *; [apply H; reflexivity|].
  destruct (H s ltac:(reflexivity)) as [_ H2]. destruct (op s) as [r s']. by apply IH.
Qed.

(** Among programs whose statements all keep to one relation. *)
Lemma does_rg {A} (p : prog S A) s (P : S -> Prop) (Q : res A -> S -> Prop) :
  (forall s s', R s s' -> G s s') -> (forall s s', G s s' -> P s -> P s') -> (forall r s, P s -> Q r s) ->
  does G p -> P s -> rg p s Q.
Proof using Type.
  intros HRG HP HQ. revert s. induction p as [r|X op next IH]; intros s; cbn.
  - intros _ Hs s' Hs'. apply HQ. by eapply HP; [apply HRG|].
  - intros [Hop Hn] Hs s1 Hs1. split; [apply Hop|]. apply IH; [apply Hn|]. eapply HP; [apply Hop|]. by eapply HP; [apply HRG|].
Qed.
End RelyGuarantee.

(** A program over one component, among programs over the whole state. *)
Lemma rg_pzoom {S T A} (view : S -> T) (update : T -> S -> S) (R G : S -> S -> Prop) (RT GT : T -> T -> Prop) (p : prog T A) s Q :
  (forall t s, view (update t s) = t) -> (forall s s', R s s' -> RT (view s) (view s')) -> (forall s t, GT (view s) t -> G s (update t s)) ->
  rg RT GT p (view s) Q -> rg R G (pzoom view update p) s (fun r s' => Q r (view s')).
Proof.
  intros Hvu HR HG. revert s. induction p as [r|X op next IH]; intros s; cbn; [auto|]. intros H s1 Hs1. destruct (H (view s1) (HR _ _ Hs1)) as [H1 H2].
  unfold zoom. destruct (op (view s1)) as [r t]. cbn in *. split; [by apply HG|]. apply IH. by rewrite Hvu.
Qed.

(** A pool in which the guarantee of each program implies the rely of every
    other keeps an invariant all guarantees preserve, under every schedule, and
    each finished program satisfies its postcondition. *)
Section Pool.
Context {S A : Type} (R G : nat -> S -> S -> Prop) `{HR : !forall i, PreOrder (R i)}.
Variables (Q : nat -> res A -> S -> Prop) (Inv : S -> Prop) (n : nat).
Hypothesis compatible : forall i j s s', (i < n)%nat -> (j < n)%nat -> i <> j -> G i s s' -> R j s s'.
Hypothesis preserved : forall i s s', (i < n)%nat -> Inv s -> G i s s' -> Inv s'.

Definition pool_ok (pool : list (prog S A)) (s : S) : Prop :=
  length pool = n /\ Inv s /\ forall i p, pool !! i = Some p -> rg (R i) (G i) p s (Q i).

Lemma pool_step i pool s : pool_ok pool s -> pool_ok (step_at i (pool, s)).1 (step_at i (pool, s)).2.
Proof using Type*.
  intros (Hlen & HI & Hp). unfold step_at. destruct (pool !! i) as [[r|X op next]|] eqn:E; [by split| |by split].
  assert (i < n)%nat as Hi by (rewrite <- Hlen; by eapply lookup_lt_Some).
  destruct (Hp i _ E s ltac:(reflexivity)) as [Hg Hown]. destruct (op s) as [r s'] eqn:Eop. cbn in *.
  split; [by rewrite length_insert|]. split; [by eapply preserved|]. intros j p Hj. destruct (decide (i = j)) as [<-|Hij].
  - rewrite list_lookup_insert_eq in Hj by (by eapply lookup_lt_Some). simplify_eq. exact Hown.
  - rewrite list_lookup_insert_ne in Hj by done. apply (rg_rely (R j) (G j) p s); [|by apply Hp].
    apply (compatible i); [done| |done|done]. rewrite <- Hlen. by eapply lookup_lt_Some.
Qed.

Lemma pool_interleave schedule pool s : pool_ok pool s ->
  pool_ok (interleave schedule pool s).1 (interleave schedule pool s).2.
Proof using Type*.
  unfold interleave. revert pool s. induction schedule as [|i l IH]; intros pool s Hp; cbn; [done|].
  apply (pool_step i) in Hp. destruct (step_at i (pool, s)) as [pool' s']. by apply IH.
Qed.

Lemma pool_finished schedule pool s i r : pool_ok pool s ->
  (interleave schedule pool s).1 !! i = Some (Finish r) -> Q i r (interleave schedule pool s).2.
Proof using Type*.
  intros (_ & _ & Hp)%(pool_interleave schedule) Hi. apply (Hp i _ Hi). reflexivity.
Qed.
End Pool.
