(* ===== verification/RappiClient.v ===== *)
(** The HTTP client of the Rappi bridge (rappi_bridge/rappi.py, errors.py): how
    an answer becomes a value or a typed failure, the calls of the order flow,
    and the reading of payment methods. *)
From S2P Require Import Prelude PyTime Decimal Json JsonLogic JsonParse Jose Prog.

(** ** errors.py: the classes by their reason *)

Definition Disabled : exn := BridgeError "BRIDGE_DISABLED".
Definition CapExceeded : exn := BridgeError "BRIDGE_CAP_EXCEEDED".
Definition CartNotClean : exn := BridgeError "BRIDGE_CART_NOT_CLEAN".
Definition PriceDrift : exn := BridgeError "BRIDGE_PRICE_DRIFT".
Definition AddressMismatch : exn := BridgeError "BRIDGE_ADDRESS_MISMATCH".
Definition SessionExpired : exn := BridgeError "BRIDGE_SESSION_EXPIRED".
Definition MinAmountRejected : exn := BridgeError "MERCHANT_MIN_AMOUNT".
Definition UncertainState : exn := BridgeError "BRIDGE_UNCERTAIN".
Definition CashPaymentRefused : exn := BridgeError "BRIDGE_CASH_NOT_ALLOWED".
Definition PaymentUnresolved : exn := BridgeError "BRIDGE_PAYMENT_UNRESOLVED".
Definition ExecutionConflict : exn := BridgeError "BRIDGE_EXECUTION_CONFLICT".
Definition RappiError : exn := BridgeError "BRIDGE_RAPPI_ERROR".

(** ** Values read out of answers *)

(** [value or other] *)
Definition py_or (value other : pyval) : pyval := if truthy value then value else other.

(** [value.get(key, default)] *)
Definition py_get_or (value : pyval) (key : string) (default : pyval) : res pyval :=
  match value with VDict kvs => Ok (override (assoc key kvs) default) | _ => Raise AttributeError end.

(** [next((x for x in l if p(x)), None)]: [p] may raise. *)
Fixpoint first_such (p : pyval -> res bool) (l : list pyval) : res (option pyval) :=
  match l with
  | [] => Ok None
  | x :: l' => let? found := p x in if (found : bool) then Ok (Some x) else first_such p l'
  end.

(** [[x for x in l if p(x)]] *)
Fixpoint all_such (p : pyval -> res bool) (l : list pyval) : res (list pyval) :=
  match l with
  | [] => Ok []
  | x :: l' => let? kept := p x in let? rest := all_such p l' in Ok (if (kept : bool) then x :: rest else rest)
  end.

(** [s[:n]], counting code points. *)
Fixpoint take_chars (n : nat) (s : string) : string :=
  match s with
  | EmptyString => EmptyString
  | String.String c s' =>
      if ((128 <=? N_of_ascii c) && (N_of_ascii c <? 192))%N then String.String c (take_chars n s')
      else match n with O => EmptyString | S n' => String.String c (take_chars n' s') end
  end.

(** [s.lower()] on ASCII letters and on the capitals of Latin-1 (two bytes, the
    first 195): no other capital has a lower case within the words looked for. *)
Fixpoint lower_from (latin : bool) (s : string) : string :=
  match s with
  | EmptyString => EmptyString
  | String.String c s' =>
      let n := N_of_ascii c in
      let capital := if latin then ((128 <=? n) && (n <=? 158) && negb (n =? 151))%N
                     else ((65 <=? n) && (n <=? 90))%N in
      String.String (if capital then ascii_of_N (n + 32) else c) (lower_from (n =? 195)%N s')
  end.
Definition lower (s : string) : string := lower_from false s.

(** ** RappiClient *)

Record response : Type := { status_code : Z; text : string }.

(** What is outside the process: Rappi's servers ([None] is a transport error),
    the provider of kernel keys given to the service, and the clock, each
    moving the world on. *)
Class Network `{JwsLibrary} : Type := {
  World : Type;
  http_request : string -> string -> pyval -> pyval -> World -> option response * World;
  kernel_keys : World -> res (list (string * Key)) * World;
  utcnow : World -> Z * World;
}.

Section Client.
Context `{Network}.

(** [RappiClient._request]: the answer, or the failure it stands for. *)
Definition read_response (path : string) (answer : option response) : res pyval :=
  match answer with
  | None => Raise RappiError
  | Some r =>
      if (status_code r =? 401) || (status_code r =? 403) then Raise SessionExpired
      else if 400 <=? status_code r then
        let lowered := lower (take_chars 500 (text r)) in
        if str_contains "min_amount" lowered || str_contains "mínimo" lowered || str_contains "minimo" lowered
        then Raise MinAmountRejected
        else if (status_code r =? 404) && (str_contains "stores" lowered || str_contains "search" path)
        then Ok (VDict [("stores"%string, VList [])])
        else Raise RappiError
      else if String.eqb (text r) EmptyString then Ok (VDict [])
      else loads json_float_repr (text r)
  end.

Definition _request (method path : string) (params body : pyval) : st World pyval := fun w =>
  let '(answer, w') := http_request method path params body w in (read_response path answer, w').

Definition AUTH_PATH : string := "/ms/application-user/auth".
Definition ADDRESSES_PATH : string := "/api/ms/users-address/addresses".
Definition CARTS_PATH : string := "/api/ms/shopping-cart/v1/all/get".
Definition CART_PUT_PATH (store_type : string) : string := "/api/ms/shopping-cart/v2/" +:+ store_type +:+ "/store".
Definition RECALC_PATH (store_type : string) : string := "/api/ms/shopping-cart/v1/" +:+ store_type +:+ "/recalculate".
Definition CHECKOUT_DETAIL_PATH (store_type : string) : string := "/api/ms/shopping-cart/v1/" +:+ store_type +:+ "/checkout/detail".
Definition PLACE_ORDER_PATH (store_type : string) : string := "/api/ms/shopping-cart-proxy/" +:+ store_type +:+ "/checkout".
Definition PAYMENT_RESOLVER_PATH : string := "/api/ms/payment-method/resolver/v6".
Definition PAYMENT_PUT_PATH (store_type : string) : string := "/api/ms/shopping-cart/v1/" +:+ store_type +:+ "/payment-method".
Definition ORDERS_PATH : string := "/api/user-order-home/orders".
Definition empty_dict : pyval := VDict [].

(** The first active address of an answer, [VNone] when there is none. *)
Definition active_of (data : pyval) : res pyval :=
  let? listed := py_get_or data "addresses" (VList []) in
  let? listed := py_iter listed in
  let? found := first_such (fun address => let? active := py_get address "active" in Ok (truthy active)) listed in
  Ok (override found VNone).

(** The calls of the client, over the operation that sends one request. *)
Section Calls.
Context {S : Type} (send : string -> string -> pyval -> pyval -> prog S pyval).

Definition whoami : prog S pyval := send "GET" AUTH_PATH VNone VNone.
Definition addresses : prog S pyval := send "GET" ADDRESSES_PATH VNone VNone.

Definition active_address : prog S pyval := data <~ addresses; plift (active_of data).

Definition get_carts : prog S pyval :=
  data <~ send "POST" CARTS_PATH VNone empty_dict;
  plift (match data with VList _ => Ok data | _ => py_get_or data "carts" (VList []) end).

(** Both branches of the loop return the preferred type; a cart that is no
    mapping raises before. *)
Definition resolve_store_type (preferred : string) : prog S string :=
  carts <~ get_carts;
  plift (let? carts := py_iter carts in
         let? _ := first_such (fun cart => let? t := py_get cart "store_type" in Ok (py_eq t (VStr preferred))) carts in
         Ok preferred).

Definition recalculate (store_type : string) : prog S pyval := send "POST" (RECALC_PATH store_type) VNone empty_dict.
Definition checkout_detail (store_type : string) : prog S pyval := send "GET" (CHECKOUT_DETAIL_PATH store_type) VNone VNone.
Definition orders : prog S pyval := send "GET" ORDERS_PATH VNone VNone.
Definition add_to_cart (store_type : string) (stores_payload : pyval) : prog S pyval :=
  send "PUT" (CART_PUT_PATH store_type) VNone stores_payload.
Definition client_place_order (store_type return_key : string) : prog S pyval :=
  send "POST" (PLACE_ORDER_PATH store_type) VNone (VDict [("return_key"%string, VStr return_key)]).
Definition get_payment_methods (store_type : string) : prog S pyval :=
  send "GET" PAYMENT_RESOLVER_PATH
    (VDict [("origin", VStr "CHECKOUT"); ("store_type", VStr store_type); ("only-added-pm", VStr "true")]%string) VNone.
Definition set_payment_method (store_type : string) (payload : pyval) : prog S pyval :=
  send "PUT" (PAYMENT_PUT_PATH store_type) VNone payload.
End Calls.
End Client.

(** ** Payment methods *)

(** [dict(value)]: entries whose key is not a text are dropped, no lookup of
    the code finds them. *)
Fixpoint dict_of_pairs (acc : pydict) (items : list pyval) : res pydict :=
  match items with
  | [] => Ok acc
  | item :: items' =>
      let? pair := py_iter item in
      match pair with
      | [VStr k; v] => dict_of_pairs (dict_set k v acc) items'
      | [VList _; _] | [VDict _; _] => Raise TypeError
      | [_; _] => dict_of_pairs acc items'
      | _ => Raise ValueError
      end
  end.

Definition py_dict (value : pyval) : res pydict :=
  match value with
  | VDict kvs => Ok kvs
  | _ => let? items := py_iter value in dict_of_pairs [] items
  end.

(** [v not in (None, "", [])] *)
Definition kept (v : pyval) : bool :=
  match v with VNone | VList [] => false | VStr s => truthy_str s | _ => true end.
Definition keep (entries : pydict) : pydict := List.filter (fun kv => kept kv.2) entries.

Definition charge_keys : list string :=
  ["account_payment_id"; "card_class"; "card_type"; "first_six_digits"; "last_four_digits"; "payment_method_token";
   "store_ids"; "store_type"; "threeds_reference_id"]%string.
Definition charge_keys_late : list string :=
  ["tags"; "online_payment"; "payment_method"; "payment_method_description"; "payment_method_icon";
   "user_default_refund_payment_method"]%string.

Definition charge_get (charge : pydict) (k : string) : pyval := override (assoc k charge) VNone.
Definition same_key (charge : pydict) (k : string) : string * pyval := (k, charge_get charge k).

Definition charge_data_payload (charge : pydict) : pydict :=
  keep (map (same_key charge) charge_keys
        ++ [("selected_installments", override (assoc "selected_installments" charge) (VStr "1"));
            ("user_id", charge_get charge "account_payment_id"); ("language", charge_get charge "language")]%string
        ++ map (same_key charge) charge_keys_late
        ++ [("origin_platform", VStr "web")]%string).

Definition build_payment_payload (method : pyval) : res pyval :=
  let? metadata := py_get method "metadata" in
  let? charge_data := py_get (py_or metadata empty_dict) "charge_data" in
  let? charge := py_dict (py_or charge_data empty_dict) in
  let? id := py_get method "id" in
  let card_reference := charge_get charge "account_payment_id" in
  let card := if truthy card_reference then [("card", VDict [("card_reference", card_reference)])]%string else [] in
  Ok (VDict (keep (card ++
    [("payment_method_type", id);
     ("rappi_credit", VDict [("use_rappi_credit", VBool false)]);
     ("rappi_pay", VDict [("use_rappi_pay", VBool false); ("rappi_pay_method_active", VBool false)]);
     ("charge_data", VDict (charge_data_payload charge))]%string))).

Definition charge_of (method : pyval) : res pyval :=
  let? metadata := py_get method "metadata" in
  let? charge := py_get (py_or metadata empty_dict) "charge_data" in
  Ok (py_or charge empty_dict).

Definition method_is_cash (method : pyval) : res bool :=
  let? charge := charge_of method in
  let? id := py_get method "id" in
  if py_eq id (VStr "cash") then Ok true
  else let? pm := py_get charge "payment_method" in Ok (py_eq pm (VStr "cash")).

(** The tags are matched in lower case; see [lower]. *)
Definition method_needs_3ds (method : pyval) : res bool :=
  let? own := py_get method "tags" in
  let? listed := py_get method "payment_method_tags" in
  let? listed := py_iter (py_or listed (VList [])) in
  let? metadata := py_get method "metadata" in
  let? charge := py_get_or (py_or metadata empty_dict) "charge_data" empty_dict in
  let? charged := py_get charge "tags" in
  let tags := lower (join " " (map py_str (List.filter truthy (own :: listed ++ [charged])))) in
  Ok (str_contains "require_3ds" tags || str_contains "3ds_by_fraud" tags).
