(* ===== verification/Bridge.v ===== *)
(** The Rappi bridge (rappi_bridge/state.py, guard.py, config.py, service.py,
    app.py): the checkpoint machine kept in SQLite, the guards, the cart
    binding, and the order flow as a program of atomic statements, one per SQL
    transaction, HTTP exchange and access to shared memory, so that requests
    running in threads interleave between them and a crash stops one anywhere. *)
From S2P Require Import Prelude PyTime Decimal Sha256 Json JsonLogic JsonParse Models Idempotency Canonical Jose Prog RappiClient.

(** ** state.py *)

Inductive order_state : Type :=
| RECEIVED | SESSION_OK | CART_OK | APPROVAL_VERIFIED | ARMED | DRY_RUN_CONFIRMED | CLICKED | CONFIRMED | FAILED | UNCERTAIN.
#[export] Instance order_state_eq_dec : EqDecision order_state.
Proof. solve_decision. Defined.

Definition order_state_text (s : order_state) : string :=
  match s with
  | RECEIVED => "received" | SESSION_OK => "session_ok" | CART_OK => "cart_ok" | APPROVAL_VERIFIED => "approval_verified"
  | ARMED => "armed" | DRY_RUN_CONFIRMED => "dry_run_confirmed" | CLICKED => "clicked" | CONFIRMED => "confirmed"
  | FAILED => "failed" | UNCERTAIN => "uncertain"
  end.

Definition TERMINAL_OK : list order_state := [DRY_RUN_CONFIRMED; CONFIRMED].

(** A row of bridge_orders.  The receipt column holds the JSON text of a
    mapping of texts, booleans and nulls, which [json.loads] reads back as it
    was: the row keeps the mapping. *)
Record order_row : Type := {
  or_purchase_id : string;
  or_cart_hash : string;
  or_amount : string;
  or_state : order_state;
  or_order_id : option string;
  or_receipt : option pyval;
  or_updated_at : string;
}.

(** One exchange with Rappi: for which order, the request, how it was read. *)
Record exchange : Type := {
  ex_order : string;
  ex_method : string;
  ex_path : string;
  ex_body : pyval;
  ex_result : res pyval;
}.

(** ** config.py *)

Record BridgeConfig : Type := {
  max_order_cop : string;
  dry_run : bool;
  enabled : bool;
  payment_method_id : option string;
  allow_cash : bool;
  quote_ttl_s : Z;
}.

Definition cap (c : BridgeConfig) : res dec := let? d := decimal_of_string (max_order_cop c) in quantize_cent ROUND_HALF_EVEN d.

(** ** guard.py *)

Definition parse_money (value : string) : res dec := let? d := decimal_of_string value in quantize_cent ROUND_HALF_EVEN d.

Definition check_cap (total cap : dec) : res unit :=
  let? within := dle total cap in if (within : bool) then Ok () else Raise CapExceeded.

Definition check_drift (approved_amount checkout_total : dec) : res unit :=
  if deq approved_amount checkout_total then Ok () else Raise PriceDrift.

Definition check_address (delivery_address_id expected_address_id : option string) : res unit :=
  match expected_address_id with
  | None => Ok ()
  | Some _ => if decide (delivery_address_id = expected_address_id) then Ok () else Raise AddressMismatch
  end.

Definition store_clean (store : pyval) : res bool :=
  let? products := py_get store "products" in Ok (negb (truthy products)).

Definition cart_clean (cart : pyval) : res bool :=
  let? stores := py_get_or cart "stores" (VList []) in
  let? stores := py_iter (py_or stores (VList [])) in
  let? dirty := first_such (fun store => let? clean := store_clean store in Ok (negb clean)) stores in
  Ok (bool_decide (dirty = None)).

Definition check_cart_clean (carts : list pyval) : res unit :=
  let? dirty := first_such (fun cart => let? clean := cart_clean cart in Ok (negb clean)) carts in
  match dirty with None => Ok () | Some _ => Raise CartNotClean end.

(** ** The cart binding *)

(** [number.normalize()] in the default context. *)
Definition dnormalize (d : dec) : dec :=
  match d with
  | DFin neg c e =>
      match dfix neg c e with
      | DFin neg c e => if c =? 0 then DFin neg 0 0 else let '(c', e') := strip_zeros (Z.to_nat (ndigits c)) c e 999999 in DFin neg c' e'
      | d => d
      end
  | _ => d
  end.

Definition canonical_number (number : dec) : res pyval :=
  if negb (is_finite number) then Raise RappiError
  else if deq number dzero then Ok (VStr "0") else Ok (VStr (dec_fmt_f (dnormalize number))).

Fixpoint _canonical_cart_value (value : pyval) : res pyval :=
  match value with
  | VNone | VStr _ | VBool _ => Ok value
  | VInt n => canonical_number (decimal_of_int n)
  | VFloat r => let? number := decimal_of_string r in canonical_number number
  | VDec d => canonical_number d
  | VDict kvs =>
      let? kvs' := (fix go kvs := match kvs with
                       | [] => Ok []
                       | (k, v) :: kvs' => let? v' := _canonical_cart_value v in let? rest := go kvs' in Ok ((k, v') :: rest)
                       end) kvs in
      Ok (VDict kvs')
  | VList l =>
      let? l' := (fix go l := match l with
                       | [] => Ok []
                       | x :: l' => let? y := _canonical_cart_value x in let? ys := go l' in Ok (y :: ys)
                       end) l in
      Ok (VList l')
  | VTime _ => Raise RappiError
  end.

Definition cart_binding (store_type : string) (store : pyval) : res pyval :=
  let? store_id := py_get store "id" in
  let? products := py_get_or store "products" (VList []) in
  let? products := _canonical_cart_value products in
  let? total := py_get_or store "total" (VStr "0") in
  let? total := parse_money (py_str total) in
  Ok (VDict [("store_type", VStr store_type); ("store_id", store_id); ("products", products); ("total", VStr (dec_str total))]%string).

(** The digest is taken of the JSON literal of the canonical text: [sha256_hex]
    serializes its argument again. *)
Definition compute_cart_hash (store_type : string) (store : pyval) : res string :=
  let? binding := cart_binding store_type store in
  let? text := Evidence.canonical_json binding in
  Evidence.sha256_hex (VStr text).

(** ** service.py *)

Record PlaceOrderRequest : Type := {
  idem_key : string;
  purchase_id : string;
  amount : string;
  cart_hash : string;
  capture_token : string;
  expected_address_id : option string;
  store_type : string;
}.

Section Service.
Context `{Network}.

(** The table, the payment label of the service object, the world outside,
    and the record of exchanges with Rappi. *)
Record bridge : Type := {
  rows : gmap string order_row;
  payment_label : string;
  world : World;
  exchanges : list exchange;
}.

Definition set_rows (r : gmap string order_row) (b : bridge) : bridge :=
  {| rows := r; payment_label := payment_label b; world := world b; exchanges := exchanges b |}.
Definition set_world (w : World) (b : bridge) : bridge :=
  {| rows := rows b; payment_label := payment_label b; world := w; exchanges := exchanges b |}.
Definition set_label (l : string) (b : bridge) : bridge :=
  {| rows := rows b; payment_label := l; world := world b; exchanges := exchanges b |}.
Definition add_exchange (e : exchange) (b : bridge) : bridge :=
  {| rows := rows b; payment_label := payment_label b; world := world b; exchanges := exchanges b ++ [e] |}.

Definition outside {A} (op : st World A) : st bridge A := zoom world set_world op.

(** [datetime.now(UTC)] and [BridgeState._now()] *)
Definition clock : st World Z := fun w => let '(t, w') := utcnow w in (Ok t, w').
Definition _now : st bridge string := t <- outside clock ;; ret (isoformat t).

(** [BridgeState.claim], [get] and [transition], each under the lock. *)
Definition claim (key purchase cart money : string) : st bridge (option order_row) :=
  now <- _now ;;
  b <- get ;;
  match rows b !! key with
  | Some row => ret (Some row)
  | None =>
      modify (set_rows (<[key := {| or_purchase_id := purchase; or_cart_hash := cart; or_amount := money; or_state := RECEIVED;
                                    or_order_id := None; or_receipt := None; or_updated_at := now |}]> (rows b))) ;;;
      ret None
  end.

Definition get_order (key : string) : st bridge (option order_row) := gets (fun b => rows b !! key).

(** [COALESCE(?, column)] *)
Definition coalesce {A} (o column : option A) : option A := match o with Some _ => o | None => column end.

Definition moved (row : order_row) (target : order_state) (order_id : option string) (receipt : option pyval) (now : string) : order_row :=
  {| or_purchase_id := or_purchase_id row; or_cart_hash := or_cart_hash row; or_amount := or_amount row; or_state := target;
     or_order_id := coalesce order_id (or_order_id row); or_receipt := coalesce receipt (or_receipt row); or_updated_at := now |}.

Definition expected (expect : option order_state) (row : order_row) : bool :=
  match expect with Some e => bool_decide (or_state row = e) | None => true end.

Definition transition (key : string) (target : order_state) (order_id : option string) (receipt : option pyval)
    (expect : option order_state) : st bridge unit :=
  now <- _now ;;
  b <- get ;;
  match rows b !! key with
  | Some row =>
      if expected expect row then modify (set_rows (<[key := moved row target order_id receipt now]> (rows b)))
      else raise RuntimeError
  | None => raise RuntimeError
  end.

(** One exchange with Rappi on behalf of an order. *)
Definition exchange_with (key method path : string) (params body : pyval) : st bridge pyval := fun b =>
  let '(r, w) := _request method path params body (world b) in
  (r, add_exchange {| ex_order := key; ex_method := method; ex_path := path; ex_body := body; ex_result := r |} (set_world w b)).
Definition rappi (key method path : string) (params body : pyval) : prog bridge pyval :=
  atomic (exchange_with key method path params body).

Variable config : BridgeConfig.

(** *** Read side *)

Definition preflight : prog bridge pyval :=
  user <~ whoami (rappi "") ;
  address <~ active_address (rappi "") ;
  plift (let? name := py_get_or user "name" (VStr "unknown") in
         let? id := (if truthy address then let? i := py_get address "id" in Ok (VStr (py_str i)) else Ok VNone) in
         let? tag := py_get (py_or address empty_dict) "tag" in
         let? label := (if truthy tag then Ok tag else py_get_or (py_or address empty_dict) "address" (VStr "")) in
         Ok (VDict [("ok", VBool true); ("account_label", VStr (take_chars 32 (py_str name)));
                    ("address_active", VDict [("id", id); ("label", label)])]%string)).

Definition mark_method (method : pyval) : res pyval :=
  let? chosen := match payment_method_id config with
                 | Some wanted => let? id := py_get method "id" in Ok (py_eq id (VStr wanted))
                 | None => let? d := py_get method "default" in Ok (truthy d)
                 end in
  let? cash := method_is_cash method in
  let? three_ds := method_needs_3ds method in
  match method with
  | VDict kvs => Ok (VDict (dict_set "three_ds" (VBool three_ds) (dict_set "cash" (VBool cash) (dict_set "selected" (VBool chosen) kvs))))
  | _ => Raise TypeError
  end.

Definition payment_methods : prog bridge (list pyval) :=
  if negb (enabled config) then praise Disabled
  else
    methods <~ get_payment_methods (rappi "") "restaurant" ;
    plift (let? methods := py_iter methods in res_map mark_method methods).

(** *** The quote *)

Record Quote : Type := {
  q_quote_id : string; q_store_type : string; q_store_name : pyval; q_currency : string; q_total : string; q_cart_hash : string;
  q_items : list pyval; q_delivery_address_id : option string; q_return_key : pyval; q_quoted_at : string; q_expires_at : string;
}.

Definition quote_item (product : pyval) : res pyval :=
  let? product_id := py_get product "product_id" in
  let? sku := (if truthy product_id then Ok product_id else py_get product "id") in
  let? title := py_get_or product "name" (VStr "") in
  let? units := py_get_or product "units" (VInt 1) in
  let? qty := py_int units in
  let? total := py_get_or product "total" (VStr "0") in
  let? total := parse_money (py_str total) in
  let? unit := ddiv total (decimal_of_int (Z.max qty 1)) in
  let? unit := quantize_cent ROUND_HALF_EVEN unit in
  Ok (VDict [("sku", VStr (py_str sku)); ("title", VStr (py_str title)); ("qty", VInt qty); ("unit_amount", VStr (dec_str unit))]%string).

(** The id of an address, [None] when there is none. *)
Definition address_id (address : pyval) : res (option string) :=
  if truthy address then let? id := py_get address "id" in Ok (Some (py_str id)) else Ok None.

(** [value[0]] *)
Definition first_item (value : pyval) : res pyval :=
  match value with
  | VList (x :: _) => Ok x
  | VStr s => match chars_of s with c :: _ => Ok c | [] => Raise IndexError end
  | VList [] => Raise IndexError
  | VDict _ => Raise KeyError
  | _ => Raise TypeError
  end.

(** [uuid] is the fresh part of the quote's id. *)
Definition quote (uuid kind : string) (require_clean_cart : bool) : prog bridge Quote :=
  if negb (enabled config) then praise Disabled
  else
    _ <~ whoami (rappi "") ;
    carts <~ get_carts (rappi "") ;
    _ <~ plift (if require_clean_cart then let? carts := py_iter carts in check_cart_clean carts else Ok ()) ;
    resolved <~ resolve_store_type (rappi "") kind ;
    cart <~ recalculate (rappi "") resolved ;
    store <~ plift (let? stores := py_get cart "stores" in if truthy stores then first_item stores else Raise RappiError) ;
    items <~ plift (let? products := py_get_or store "products" (VList []) in
                    let? products := py_iter products in res_map quote_item products) ;
    total <~ plift (let? total := py_get_or store "total" (VStr "0") in parse_money (py_str total)) ;
    detail <~ checkout_detail (rappi "") resolved ;
    hash <~ plift (compute_cart_hash resolved store) ;
    address <~ active_address (rappi "") ;
    now <~ atomic (outside clock) ;
    plift (let? store_name := py_get store "name" in
           let? address := address_id address in
           let? return_key := py_get (py_or detail empty_dict) "return_key" in
           Ok {| q_quote_id := ("rappi-quote-" +:+ uuid)%string; q_store_type := resolved; q_store_name := store_name;
                 q_currency := "COP"; q_total := dec_str total; q_cart_hash := hash; q_items := items;
                 q_delivery_address_id := address; q_return_key := return_key; q_quoted_at := isoformat now;
                 q_expires_at := isoformat (now + seconds (quote_ttl_s config)) |}).

(** *** The guarded click *)

Definition _receipt (state purchase cart total : string) (order_id : option string) (dry : bool) (label : string) : pyval :=
  VDict [("state", VStr state); ("dry_run", VBool dry); ("order_id", opt_str order_id); ("total_captured", VStr total);
         ("cart_hash", VStr cart); ("purchase_id", VStr purchase); ("payment_method", VStr label)]%string.

(** The methods not marked unavailable, and the one to charge. *)
Definition usable_methods (methods : pyval) : res (list pyval) :=
  let? methods := py_iter methods in
  all_such (fun m => let? available := py_get m "available" in
                     Ok (match available with VBool false => false | _ => true end)) methods.

Definition choose_method (usable : list pyval) : res pyval :=
  match or_str (payment_method_id config) None with
  | Some wanted =>
      let? found := first_such (fun m => let? id := py_get m "id" in Ok (py_eq id (VStr wanted))) usable in
      match found with Some m => Ok m | None => Raise PaymentUnresolved end
  | None =>
      match usable with
      | [] => Raise PaymentUnresolved
      | first :: _ =>
          let? found := first_such (fun m => let? d := py_get m "default" in Ok (truthy d)) usable in
          Ok (override found first)
      end
  end.

Definition resolve_method (methods : pyval) : res pyval :=
  let? usable := usable_methods methods in
  let? method := choose_method usable in
  let? cash := method_is_cash method in
  if cash && negb (allow_cash config) then Raise CashPaymentRefused else Ok method.

Definition label_of (method : pyval) : res string :=
  let? description := py_get method "main_description" in
  if truthy description then Ok (py_str description) else let? id := py_get method "id" in Ok (py_str id).

(** [parse_money(str(store.get("total", "0")))] *)
Definition store_total (store : pyval) : res dec := let? total := py_get_or store "total" (VStr "0") in parse_money (py_str total).

(** The store whose contents the approval is bound to. *)
Definition quoted_store (cart : pyval) : res pyval :=
  let? stores := py_get cart "stores" in if truthy stores then first_item stores else Raise PriceDrift.

(** The store of the current cart, [fallback] when it lists none. *)
Definition current_store (cart fallback : pyval) : res pyval :=
  let? stores := py_get cart "stores" in if truthy stores then first_item stores else Ok fallback.

(** The order id in Rappi's answer. *)
Definition order_id_of (result : pyval) : res (option string) :=
  let order_obj := match result with VList (x :: _) => x | VDict _ => result | _ => empty_dict end in
  let? order_id := py_get (py_or order_obj empty_dict) "order_id" in
  let? id := (if truthy order_id then Ok order_id else py_get (py_or order_obj empty_dict) "id") in
  Ok (if truthy id then or_str (Some (py_str id)) None else None).

Definition move (request : PlaceOrderRequest) (target : order_state) (expect : option order_state) : prog bridge unit :=
  atomic (transition (idem_key request) target None None expect).

Definition _finish (request : PlaceOrderRequest) (total : dec) (state : order_state) (order_id : option string) : prog bridge pyval :=
  label <~ atomic (gets payment_label) ;
  let receipt := _receipt (order_state_text state) (purchase_id request) (cart_hash request) (dec_str total) order_id
                   (dry_run config) label in
  _ <~ atomic (transition (idem_key request) state order_id (Some receipt) None) ;
  pret receipt.

(** 2. The cart now must hash to the approved hash. *)
Definition bind_cart (request : PlaceOrderRequest) : prog bridge (string * pyval) :=
  resolved <~ resolve_store_type (rappi (idem_key request)) (store_type request) ;
  cart <~ recalculate (rappi (idem_key request)) resolved ;
  store <~ plift (quoted_store cart) ;
  _ <~ plift (store_total store) ;
  current_hash <~ plift (compute_cart_hash resolved store) ;
  _ <~ plift (guard_res (String.eqb current_hash (cart_hash request)) PriceDrift) ;
  _ <~ move request CART_OK None ;
  pret (resolved, store).

(** 3. The capture token. *)
Definition verify_token (request : PlaceOrderRequest) (approved : dec) : prog bridge pyval :=
  keys <~ atomic (outside kernel_keys) ;
  moment <~ atomic (outside clock) ;
  claims <~ plift (verify_capture_token (capture_token request) keys (purchase_id request) (cart_hash request)
                     (dec_str approved) (dry_run config) moment) ;
  _ <~ move request APPROVAL_VERIFIED None ;
  pret claims.

(** 4. The instrument. *)
Definition set_instrument (request : PlaceOrderRequest) (resolved : string) : prog bridge unit :=
  methods <~ get_payment_methods (rappi (idem_key request)) resolved ;
  method <~ plift (resolve_method methods) ;
  label <~ plift (label_of method) ;
  _ <~ atomic (modify (set_label label)) ;
  payload <~ plift (build_payment_payload method) ;
  _ <~ set_payment_method (rappi (idem_key request)) resolved payload ;
  pret tt.

(** 5. The guards: the total they admitted and the checkout detail. *)
Definition arm (request : PlaceOrderRequest) (approved : dec) (resolved : string) (store : pyval) : prog bridge (dec * pyval) :=
  _ <~ recalculate (rappi (idem_key request)) resolved ;
  cart <~ recalculate (rappi (idem_key request)) resolved ;
  checkout_total <~ plift (let? store := current_store cart store in store_total store) ;
  _ <~ plift (let? cap := cap config in check_cap checkout_total cap) ;
  detail <~ checkout_detail (rappi (idem_key request)) resolved ;
  _ <~ plift (check_drift approved checkout_total) ;
  address <~ active_address (rappi (idem_key request)) ;
  _ <~ plift (let? id := address_id address in check_address id (expected_address_id request)) ;
  _ <~ move request ARMED None ;
  pret (checkout_total, detail).

(** The click itself and what its failures record. *)
Definition click (request : PlaceOrderRequest) (resolved : string) (detail : pyval) : prog bridge pyval :=
  pcatch (return_key <~ plift (py_get (py_or detail empty_dict) "return_key") ;
          client_place_order (rappi (idem_key request)) resolved (if truthy return_key then py_str return_key else EmptyString))
    (fun e => Some (if decide (e = MinAmountRejected)
                    then (_ <~ move request FAILED (Some CLICKED) ; praise MinAmountRejected)
                    else (_ <~ move request UNCERTAIN (Some CLICKED) ; praise UncertainState))).

Definition pay (request : PlaceOrderRequest) (resolved : string) (total : dec) (detail : pyval) : prog bridge pyval :=
  _ <~ pcatch (move request CLICKED (Some ARMED))
         (fun e => if decide (e = RuntimeError) then Some (praise ExecutionConflict) else None) ;
  result <~ click request resolved detail ;
  order_id <~ plift (order_id_of result) ;
  _finish request total CONFIRMED order_id.

(** What an existing row answers without running the steps. *)
Definition replay (row : order_row) : option (res pyval) :=
  match or_receipt row with
  | Some receipt => if bool_decide (or_state row ∈ TERMINAL_OK) && truthy receipt then Some (Ok receipt)
                    else if bool_decide (or_state row ∈ [CLICKED; UNCERTAIN]) then Some (Raise UncertainState) else None
  | None => if bool_decide (or_state row ∈ [CLICKED; UNCERTAIN]) then Some (Raise UncertainState) else None
  end.

Definition order_steps (request : PlaceOrderRequest) (approved : dec) : prog bridge pyval :=
  _ <~ whoami (rappi (idem_key request)) ;
  _ <~ move request SESSION_OK None ;
  bound <~ bind_cart request ;
  let '(resolved, store) := bound in
  claims <~ verify_token request approved ;
  _ <~ set_instrument request resolved ;
  armed <~ arm request approved resolved store ;
  let '(total, detail) := armed in
  live <~ plift (if dry_run config then let? claimed := py_get claims "dry_run" in Ok (negb (truthy claimed)) else Ok false) ;
  if (live : bool) then praise Disabled
  else if dry_run config then _finish request total DRY_RUN_CONFIRMED None
  else pay request resolved total detail.

Definition place_order (request : PlaceOrderRequest) : prog bridge pyval :=
  if negb (enabled config) then praise Disabled
  else
    approved <~ plift (parse_money (amount request)) ;
    existing <~ atomic (claim (idem_key request) (purchase_id request) (cart_hash request) (dec_str approved)) ;
    match (existing ≫= replay) with
    | Some answer => plift answer
    | None => order_steps request approved
    end.
End Service.
