(* ===== verification/BridgeFacts.v ===== *)
(** The single paying click of the Rappi bridge: requests with different
    idempotency keys interleave in any way, each stopped anywhere, requests
    that repeat a key come later, and no key is charged twice; an answered
    order answers its receipt again. *)
From S2P Require Import Prelude PyTime Decimal Sha256 Json JsonLogic JsonParse Models Idempotency Canonical Jose Prog RappiClient Bridge.

Section Facts.
Context `{Network}.

Definition of_order (k : string) (b : bridge) : list exchange :=
  List.filter (fun e => String.eqb (ex_order e) k) (exchanges b).

(** The request that charges the account, and the refusal that charges nothing. *)
Definition is_click (e : exchange) : bool :=
  String.eqb (ex_method e) "POST" && String.prefix "/api/ms/shopping-cart-proxy/" (ex_path e).
Definition refused_for_minimum (e : exchange) : bool :=
  match ex_result e with Raise x => bool_decide (x = MinAmountRejected) | Ok _ => false end.
Definition paying (k : string) (b : bridge) : list exchange :=
  List.filter (fun e => is_click e && negb (refused_for_minimum e)) (of_order k b).

(** What one key owns: its row and its exchanges. *)
Definition same (k : string) (b b' : bridge) : Prop := rows b !! k = rows b' !! k /\ of_order k b = of_order k b'.

#[export] Instance same_preorder k : PreOrder (same k).
Proof.
  split; [by split|]. intros a b c [H1 H2] [H3 H4]. split; congruence.
Qed.

(** A row that forbids another click. *)
Definition closed_row (row : order_row) : Prop :=
  or_state row = CLICKED \/ or_state row = UNCERTAIN \/
  (or_state row = CONFIRMED /\ exists r, or_receipt row = Some r /\ truthy r = true).

Definition unpaid (k : string) (b : bridge) : Prop := paying k b = [].
Definition once (k : string) (b : bridge) : Prop := (length (paying k b) <= 1)%nat.
Definition order_ok (k : string) (b : bridge) : Prop :=
  once k b /\ (unpaid k b \/ exists row, rows b !! k = Some row /\ closed_row row).

(** The row of a finished order answers with its receipt. *)
Definition settled (k : string) (receipt : pyval) (b : bridge) : Prop :=
  exists row, rows b !! k = Some row /\ or_state row ∈ TERMINAL_OK /\ or_receipt row = Some receipt /\ truthy receipt = true.

(** What a statement of an order with key [k] may do. *)
Definition own_step (k : string) (b b' : bridge) : Prop := (forall k', k' <> k -> same k' b b') /\ order_ok k b'.

Lemma unpaid_ok k b : unpaid k b -> order_ok k b.
Proof. intros Hu. split; [|by left]. unfold once. rewrite Hu. cbn. lia. Qed.

Section Stable.
Variable k : string.

Lemma stable_unpaid : stable (same k) (unpaid k).
Proof. intros b b' [_ He]. unfold unpaid, paying. by rewrite He. Qed.
Lemma stable_once : stable (same k) (once k).
Proof. intros b b' [_ He]. unfold once, paying. by rewrite He. Qed.
Lemma stable_row (P : order_row -> Prop) : stable (same k) (fun b => exists row, rows b !! k = Some row /\ P row).
Proof. intros b b' [Hr _]. by rewrite Hr. Qed.
Lemma stable_ok : stable (same k) (order_ok k).
Proof.
  intros b b' Hs [H1 H2]. split; [by eapply stable_once|].
  destruct H2 as [H2|H2]; [left; by eapply stable_unpaid|right; by eapply (stable_row closed_row)].
Qed.
Lemma stable_settled r : stable (same k) (settled k r).
Proof. unfold settled. apply (stable_row (fun row => or_state row ∈ TERMINAL_OK /\ or_receipt row = Some r /\ truthy r = true)). Qed.
End Stable.

(** ** Effects of the statements *)

Lemma exchange_effect k method path params body b (r := (exchange_with k method path params body b).1)
    (b' := (exchange_with k method path params body b).2) :
  rows b' = rows b /\ (forall k', k' <> k -> of_order k' b' = of_order k' b) /\
  of_order k b' = of_order k b ++ [{| ex_order := k; ex_method := method; ex_path := path; ex_body := body; ex_result := r |}].
Proof.
  subst r b'. unfold exchange_with, of_order. destruct (_request method path params body (world b)) as [r w]. cbn.
  rewrite !List.filter_app. cbn. rewrite String.eqb_refl. split; [done|]. split; [|done].
  intros k' Hk. rewrite List.filter_app. cbn. destruct (String.eqb_spec k k'); [by subst|]. apply app_nil_r.
Qed.

Lemma exchange_paying k method path params body b (r := (exchange_with k method path params body b).1) :
  paying k (exchange_with k method path params body b).2 = paying k b ++
    (if String.eqb method "POST" && String.prefix "/api/ms/shopping-cart-proxy/" path
        && negb (match r with Raise x => bool_decide (x = MinAmountRejected) | Ok _ => false end)
     then [{| ex_order := k; ex_method := method; ex_path := path; ex_body := body; ex_result := r |}] else []).
Proof.
  unfold paying. destruct (exchange_effect k method path params body b) as (_ & _ & He). rewrite He.
  by rewrite List.filter_app.
Qed.

Lemma now_effect b : exists t w, _now b = (Ok t, set_world w b).
Proof. unfold _now, sbind, outside, zoom, clock. destruct (utcnow (world b)) as [t w]. by eexists _, w. Qed.

Lemma transition_effect k target oid receipt expect b (r := (transition k target oid receipt expect b).1)
    (b' := (transition k target oid receipt expect b).2) :
  exchanges b' = exchanges b /\ (forall k', k' <> k -> rows b' !! k' = rows b !! k') /\
  match r with
  | Ok _ => exists row now, rows b !! k = Some row /\ expected expect row = true /\
                            rows b' !! k = Some (moved row target oid receipt now)
  | Raise e => e = RuntimeError /\ rows b' !! k = rows b !! k
  end.
Proof.
  subst r b'. unfold transition, sbind. destruct (now_effect b) as (t & w & ->). unfold get. cbn.
  destruct (rows b !! k) as [row|] eqn:E; cbn; [|done].
  destruct (expected expect row) eqn:Ex; cbn; [|done].
  split; [done|]. split; [intros k' Hk; by rewrite lookup_insert_ne|].
  eexists row, _. by rewrite lookup_insert_eq.
Qed.

Lemma same_of k b b' : rows b' !! k = rows b !! k -> of_order k b' = of_order k b -> same k b b'.
Proof. by split. Qed.

Lemma paying_exchanges k b b' : exchanges b' = exchanges b -> paying k b' = paying k b.
Proof. unfold paying, of_order. by intros ->. Qed.

(** ** One order *)

Section Order.
Variables (config : BridgeConfig) (k : string).
Abbreviation T := (triple (same k) (own_step k)).

(** An operation on neither the table nor the exchanges. *)
Lemma quiet {A} (op : st bridge A) (P : bridge -> Prop) :
  (forall b, rows (op b).2 = rows b /\ exchanges (op b).2 = exchanges b) -> stable (same k) P ->
  (forall b, P b -> order_ok k b) -> T P (atomic op) (fun _ => P).
Proof.
  intros Hop HP Hok. apply triple_atomic; [done|]. intros b Hb. destruct (Hop b) as [Hr He].
  assert (forall k', same k' b (op b).2) as Hsame.
  { intros k'. apply same_of; [by rewrite Hr|]. unfold of_order. by rewrite He. }
  split; [split; [auto|by apply (stable_ok k b); [apply Hsame|apply Hok]]|].
  intros b' Hb'. apply (HP (op b).2); [done|]. by apply (HP b).
Qed.

Lemma quiet_outside {A} (op : st World A) b : rows (outside op b).2 = rows b /\ exchanges (outside op b).2 = exchanges b.
Proof. unfold outside, zoom. by destruct (op (world b)). Qed.

Lemma lift_keeps {A} (r : res A) (P : bridge -> Prop) : stable (same k) P -> T P (plift r) (fun _ => P).
Proof. intros HP. by apply triple_finish. Qed.

(** A statement whose exchange charges nothing. *)
Lemma free_exchange method path params body :
  String.eqb method "POST" && String.prefix "/api/ms/shopping-cart-proxy/" path = false ->
  T (unpaid k) (rappi k method path params body) (fun _ => unpaid k).
Proof.
  intros Hfree. apply triple_atomic; [apply stable_unpaid|]. intros b Hb.
  destruct (exchange_effect k method path params body b) as (Hr & Ho & _).
  assert (unpaid k (exchange_with k method path params body b).2) as Hu.
  { unfold unpaid. rewrite exchange_paying, Hfree, Hb. done. }
  split; [split; [|by apply unpaid_ok]|intros b' Hb'; by eapply stable_unpaid].
  intros k' Hk. apply same_of; [by rewrite Hr|by apply Ho].
Qed.

(** A transition of an order that is not paid. *)
Lemma transition_unpaid target oid receipt expect :
  T (unpaid k) (atomic (transition k target oid receipt expect))
    (fun r b => unpaid k b /\ match r with
       | Ok _ => exists row, rows b !! k = Some row /\ or_state row = target /\
                             (forall x, receipt = Some x -> or_receipt row = Some x)
       | Raise e => e = RuntimeError end).
Proof.
  apply triple_atomic; [apply stable_unpaid|]. intros b Hb.
  destruct (transition_effect k target oid receipt expect b) as (He & Hr & Hk).
  assert (unpaid k (transition k target oid receipt expect b).2) as Hu by (unfold unpaid; by rewrite (paying_exchanges k b)).
  split; [split; [|by apply unpaid_ok]|].
  { intros k' Hk'. apply same_of; [by apply Hr|]. unfold of_order. by rewrite He. }
  intros b' Hb'. split; [by eapply stable_unpaid|]. destruct (transition k target oid receipt expect b).1 as [[]|e]; [|naive_solver].
  destruct Hk as (row & now & _ & _ & Hrow).
  eapply (stable_row k (fun row => or_state row = target /\ _) _ _ Hb'). eexists. split; [exact Hrow|].
  split; [done|]. by intros x ->.
Qed.

Lemma move_keeps target expect : T (unpaid k) (atomic (transition k target None None expect)) (fun _ => unpaid k).
Proof. eapply triple_conseq; [apply transition_unpaid|done|]. by intros r b [? _]. Qed.

Lemma keep_bind {A B} (m : prog bridge A) (f : A -> prog bridge B) :
  T (unpaid k) m (fun _ => unpaid k) -> (forall a, T (unpaid k) (f a) (fun _ => unpaid k)) ->
  T (unpaid k) (pbind m f) (fun _ => unpaid k).
Proof. intros Hm Hf. by eapply triple_bind; [apply _|exact Hm|exact Hf|]. Qed.

Lemma keep_lift {A} (r : res A) : T (unpaid k) (plift r) (fun _ => unpaid k).
Proof. apply lift_keeps, stable_unpaid. Qed.

Lemma keep_outside {A} (op : st World A) : T (unpaid k) (atomic (outside op)) (fun _ => unpaid k).
Proof. apply quiet; [intros b; apply quiet_outside|apply stable_unpaid|intros b; apply unpaid_ok]. Qed.

Lemma keep_local {A} (op : st bridge A) : (forall b, rows (op b).2 = rows b /\ exchanges (op b).2 = exchanges b) ->
  T (unpaid k) (atomic op) (fun _ => unpaid k).
Proof. intros Hop. apply quiet; [done|apply stable_unpaid|intros b; apply unpaid_ok]. Qed.
End Order.

(** Programs that are sequences of statements which charge nothing. *)
Ltac keeps :=
  repeat first
    [ apply keep_bind; [|intros ?]
    | apply keep_lift
    | apply move_keeps
    | apply keep_outside
    | apply free_exchange; reflexivity
    | apply keep_local; by intros ?
    | match goal with |- triple _ _ _ (let '(_, _) := ?p in _) _ => destruct p end
    | progress unfold pret, praise ].

(** What an order leaves: its key is in order, and an answer is recorded. *)
Definition placed (k : string) (r : res pyval) (b : bridge) : Prop :=
  order_ok k b /\ match r with Ok receipt => settled k receipt b | Raise _ => True end.

Section Steps.
Variables (config : BridgeConfig) (request : PlaceOrderRequest).
Let k := idem_key request.
Abbreviation T := (triple (same k) (own_step k)).
Abbreviation keeps_unpaid p := (T (unpaid k) p (fun _ => unpaid k)).

Lemma whoami_keeps : keeps_unpaid (whoami (rappi k)).
Proof. unfold whoami. keeps. Qed.
Lemma active_address_keeps : keeps_unpaid (active_address (rappi k)).
Proof. unfold active_address, addresses. keeps. Qed.
Lemma bind_cart_keeps : keeps_unpaid (bind_cart request).
Proof. unfold bind_cart, resolve_store_type, get_carts, recalculate, move. fold k. keeps. Qed.
Lemma verify_token_keeps approved : keeps_unpaid (verify_token config request approved).
Proof. unfold verify_token, move. fold k. keeps. Qed.
Lemma set_instrument_keeps resolved : keeps_unpaid (set_instrument config request resolved).
Proof. unfold set_instrument, get_payment_methods, set_payment_method. fold k. keeps. Qed.
Lemma arm_keeps approved resolved store : keeps_unpaid (arm config request approved resolved store).
Proof. unfold arm, recalculate, checkout_detail, active_address, addresses, move. fold k. keeps. Qed.

Lemma placed_raise e b : unpaid k b -> placed k (Raise e) b.
Proof. intros Hu. split; [by apply unpaid_ok|done]. Qed.

Definition clicked (row : order_row) : Prop := or_state row = CLICKED.
Definition at_click (paid : bridge -> Prop) (b : bridge) : Prop := paid b /\ exists row, rows b !! k = Some row /\ clicked row.

Lemma stable_at_click paid : stable (same k) paid -> stable (same k) (at_click paid).
Proof. intros Hp b b' Hs [H1 H2]. split; [by apply (Hp b)|by apply (stable_row k clicked b)]. Qed.

Lemma at_click_ok b : at_click (once k) b -> order_ok k b.
Proof. intros [H1 (row & Hr & Hc)]. split; [done|]. right. exists row. split; [done|]. by left. Qed.

Lemma at_click_once b : at_click (unpaid k) b -> at_click (once k) b.
Proof. intros [H1 H2]. split; [by apply unpaid_ok|done]. Qed.

(** A transition of an order after its click. *)
Lemma transition_closed target oid receipt expect :
  (forall row now, closed_row (moved row target oid receipt now)) ->
  T (at_click (once k)) (atomic (transition k target oid receipt expect))
    (fun r b => order_ok k b /\ match r with
       | Ok _ => exists row, rows b !! k = Some row /\ or_state row = target /\ (forall x, receipt = Some x -> or_receipt row = Some x)
       | Raise e => e = RuntimeError end).
Proof.
  intros Hclosed. apply triple_atomic; [apply stable_at_click, stable_once|]. intros b Hb.
  destruct (transition_effect k target oid receipt expect b) as (He & Hr & Hk).
  assert (order_ok k (transition k target oid receipt expect b).2) as Hok.
  { destruct Hb as [Hb1 (row0 & Hrow0 & Hc0)]. split; [unfold once; by rewrite (paying_exchanges k b)|]. right.
    destruct (transition k target oid receipt expect b).1 as [[]|e].
    - destruct Hk as (row & now & _ & _ & Hrow). eauto.
    - destruct Hk as [_ ->]. exists row0. split; [done|]. by left. }
  split; [split; [|done]|].
  { intros k' Hk'. apply same_of; [by apply Hr|]. unfold of_order. by rewrite He. }
  intros b' Hb'. split; [by eapply stable_ok|].
  destruct (transition k target oid receipt expect b).1 as [[]|e]; [|naive_solver].
  destruct Hk as (row & now & _ & _ & Hrow).
  eapply (stable_row k (fun row => or_state row = target /\ _) _ _ Hb'). eexists. split; [exact Hrow|].
  split; [done|]. by intros x ->.
Qed.

(** Recording the outcome of an order. *)
Lemma finish_unpaid total state oid : state ∈ TERMINAL_OK -> T (unpaid k) (_finish config request total state oid) (placed k).
Proof.
  intros Hs. unfold _finish. fold k. apply (triple_bind _ _ _ _ _ (fun _ => unpaid k)); [keeps| |intros; by apply placed_raise].
  intros label. cbn zeta. eapply triple_bind; [apply _|apply transition_unpaid| |intros e b [Hu _]; by apply placed_raise].
  intros []. apply triple_finish.
  - intros b b' Hb [H1 H2]. split; [by eapply stable_unpaid|].
    by eapply (stable_row k (fun row => or_state row = state /\ _) _ _ Hb).
  - intros b [Hu (row & Hrow & Hst & Hre)]. split; [by apply unpaid_ok|]. exists row. rewrite Hst. auto.
Qed.

Lemma finish_clicked total oid : T (at_click (once k)) (_finish config request total CONFIRMED oid) (placed k).
Proof.
  unfold _finish. fold k. apply (triple_bind _ _ _ _ _ (fun _ => at_click (once k))).
  - apply quiet; [done|apply stable_at_click, stable_once|apply at_click_ok].
  - intros label. cbn zeta. eapply triple_bind; [apply _|apply transition_closed| |intros e b [Hu _]; by split].
    + intros row now. right. right. split; [done|]. by eexists.
    + intros []. apply triple_finish.
      * intros b b' Hb [H1 H2]. split; [by eapply stable_ok|].
        by eapply (stable_row k (fun row => or_state row = CONFIRMED /\ _) _ _ Hb).
      * intros b [Hu (row & Hrow & Hst & Hre)]. split; [done|]. exists row. rewrite Hst.
        repeat split; [done|set_solver|by apply Hre].
  - intros e b Hb. split; [by apply at_click_ok|done].
Qed.

Lemma click_request resolved return_key :
  T (at_click (unpaid k)) (client_place_order (rappi k) resolved return_key)
    (fun r => match r with Raise e => if decide (e = MinAmountRejected) then at_click (unpaid k) else at_click (once k)
              | Ok _ => at_click (once k) end).
Proof.
  apply triple_atomic; [apply stable_at_click, stable_unpaid|]. intros b [Hu Hrow].
  set (op := exchange_with _ _ _ _ _).
  destruct (exchange_effect k "POST" (PLACE_ORDER_PATH resolved) VNone (VDict [("return_key"%string, VStr return_key)]) b)
    as (Hr & Ho & _).
  pose proof (exchange_paying k "POST" (PLACE_ORDER_PATH resolved) VNone (VDict [("return_key"%string, VStr return_key)]) b) as Hp.
  fold op in Hr, Ho, Hp. rewrite Hu in Hp. cbn [app] in Hp.
  assert (at_click (once k) (op b).2) as Honce.
  { split; [unfold once; rewrite Hp; destruct (_ && _); cbn; lia|by rewrite Hr]. }
  split; [split; [intros k' Hk; apply same_of; [by rewrite Hr|by apply Ho]|by apply at_click_ok]|].
  intros b' Hb'. assert (at_click (once k) b') as Hb2 by (eapply stable_at_click; [apply stable_once|exact Hb'|done]).
  destruct ((op b).1) as [a|e]; [done|]. destruct (decide (e = MinAmountRejected)) as [->|]; [|done].
  eapply stable_at_click; [apply stable_unpaid|exact Hb'|]. split; [|by rewrite Hr].
  unfold unpaid. rewrite Hp. by rewrite bool_decide_true, andb_false_r.
Qed.

(** The click: its answer was recorded as the only charge, or its failure
    left the order closed, or free for another try when nothing was charged. *)
Lemma click_keeps resolved detail :
  T (at_click (unpaid k)) (click request resolved detail)
    (fun r b => match r with Ok _ => at_click (once k) b | Raise _ => order_ok k b end).
Proof.
  unfold click, move. fold k.
  apply (triple_catch _ _ _ _ _ (fun r => match r with Raise e => if decide (e = MinAmountRejected) then at_click (unpaid k) else at_click (once k)
              | Ok _ => at_click (once k) end)); [|done|].
  - apply (triple_bind _ _ _ _ _ (fun _ => at_click (unpaid k))).
    + apply lift_keeps, stable_at_click, stable_unpaid.
    + intros a. apply click_request.
    + intros e b Hb. case_decide; [done|by apply at_click_once].
  - intros e. destruct (decide (e = MinAmountRejected)) as [->|]; cbn iota.
    + apply (triple_bind _ _ _ _ _ (fun _ => unpaid k)); [|intros []; apply triple_finish; [apply stable_unpaid|apply unpaid_ok]|intros; by apply unpaid_ok].
      eapply triple_conseq; [apply move_keeps|by intros b [? _]|done].
    + eapply triple_bind; [apply _|apply (transition_closed UNCERTAIN None None (Some CLICKED))| |by intros e' b [? _]].
      * intros row now. right. by left.
      * intros []. apply triple_finish; [|by intros b [? _]]. intros b b' Hb [H1 H2].
        split; [by eapply stable_ok|]. by eapply (stable_row k (fun row => or_state row = UNCERTAIN /\ _) _ _ Hb).
Qed.

Lemma pay_places resolved total detail : T (unpaid k) (pay config request resolved total detail) (placed k).
Proof.
  unfold pay, move. fold k.
  apply (triple_bind _ _ _ _ _ (fun r b => match r with Ok _ => at_click (unpaid k) b | Raise _ => unpaid k b end));
    [|intros []|intros; by apply placed_raise].
  - apply (triple_catch _ _ _ _ _ (fun r b => match r with Ok _ => at_click (unpaid k) b | Raise _ => unpaid k b end)); [|done|].
    + eapply triple_conseq; [apply (transition_unpaid k CLICKED None None (Some ARMED))|done|].
      intros [[]|e] b [Hu Hr]; [|done]. split; [done|]. destruct Hr as (row & Hrow & Hst & _). by exists row.
    + intros e. destruct (decide (e = RuntimeError)); [|done]. apply triple_finish; [apply stable_unpaid|done].
  - apply (triple_bind _ _ _ _ _ (fun r b => match r with Ok _ => at_click (once k) b | Raise _ => order_ok k b end));
      [apply click_keeps| |intros e b Hb; by split].
    intros result. apply (triple_bind _ _ _ _ _ (fun _ => at_click (once k))).
    + apply lift_keeps, stable_at_click, stable_once.
    + intros oid. apply finish_clicked.
    + intros e b Hb. split; [by apply at_click_ok|done].
Qed.

Lemma order_steps_place approved : T (unpaid k) (order_steps config request approved) (placed k).
Proof.
  unfold order_steps, move. fold k.
  assert (forall A B (m : prog bridge A) (f : A -> prog bridge B) Q, T (unpaid k) m (fun _ => unpaid k) ->
    (forall a, T (unpaid k) (f a) Q) -> (forall e b, unpaid k b -> Q (Raise e) b) -> T (unpaid k) (pbind m f) Q) as seq.
  { intros A B m f Q Hm Hf He. eapply triple_bind; [apply _|exact Hm|exact Hf|exact He]. }
  apply seq; [apply whoami_keeps|intros _|intros; by apply placed_raise].
  apply seq; [apply move_keeps|intros _|intros; by apply placed_raise].
  apply seq; [apply bind_cart_keeps|intros [resolved store]|intros; by apply placed_raise].
  apply seq; [apply verify_token_keeps|intros claims|intros; by apply placed_raise].
  apply seq; [apply set_instrument_keeps|intros _|intros; by apply placed_raise].
  apply seq; [apply arm_keeps|intros [total detail]|intros; by apply placed_raise].
  apply seq; [apply keep_lift|intros live|intros; by apply placed_raise].
  destruct live; [apply triple_finish; [apply stable_unpaid|intros; by apply placed_raise]|].
  destruct (dry_run config); [apply finish_unpaid; set_solver|apply pay_places].
Qed.

(** What the claim of the key tells: the row that is in the table, and an order
    whose row does not answer is not paid. *)
Lemma claim_effect purchase cart money b (r := (claim k purchase cart money b).1) (b' := (claim k purchase cart money b).2) :
  exchanges b' = exchanges b /\ (forall k', k' <> k -> rows b' !! k' = rows b !! k') /\
  match rows b !! k with
  | Some row => r = Ok (Some row) /\ rows b' = rows b
  | None => r = Ok None
  end.
Proof.
  subst r b'. unfold claim, sbind. destruct (now_effect b) as (t & w & ->). unfold get. cbn.
  destruct (rows b !! k) as [row|] eqn:E; cbn; [done|]. repeat split. intros k' Hk. by rewrite lookup_insert_ne.
Qed.

Lemma open_unpaid row b : order_ok k b -> rows b !! k = Some row -> replay row = None -> unpaid k b.
Proof.
  intros [_ [Hu|(row' & Hr' & Hc)]] Hr Hrep; [done|]. rewrite Hr in Hr'. injection Hr' as <-. exfalso. revert Hrep. unfold replay.
  destruct Hc as [Hc|[Hc|[Hc (r & Hre & Ht)]]]; rewrite Hc; [by destruct (or_receipt row)|by destruct (or_receipt row)|].
  by rewrite Hre, Ht.
Qed.

Lemma place_order_places : T (order_ok k) (place_order config request) (placed k).
Proof.
  unfold place_order. fold k. destruct (negb (enabled config)).
  { apply triple_finish; [apply stable_ok|by split]. }
  apply (triple_bind _ _ _ _ _ (fun _ => order_ok k)); [apply lift_keeps, stable_ok|intros approved|by split].
  apply (triple_bind _ _ _ _ _ (fun r b => order_ok k b /\ match r with
           | Ok (Some row) => rows b !! k = Some row | Ok None => unpaid k b | Raise _ => True end)).
  - apply triple_atomic; [apply stable_ok|]. intros b Hb.
    destruct (claim_effect (purchase_id request) (cart_hash request) (dec_str approved) b) as (He & Hr & Hk).
    set (op := claim _ _ _ _) in *.
    assert (of_order k (op b).2 = of_order k b) as Ho by (unfold of_order; by rewrite He).
    assert (order_ok k (op b).2 /\ match (op b).1 with Ok (Some row) => rows (op b).2 !! k = Some row | Ok None => unpaid k (op b).2 | Raise _ => True end) as [H1 H2].
    { destruct (rows b !! k) as [row|] eqn:E.
      - destruct Hk as [-> Hrows]. rewrite Hrows. split; [|done]. eapply stable_ok; [|exact Hb]. by apply same_of; [rewrite Hrows|].
      - rewrite Hk. assert (unpaid k (op b).2) as Hu; [|split; [by apply unpaid_ok|done]].
        unfold unpaid. rewrite (paying_exchanges k b) by done. by destruct Hb as [_ [Hu|(row & Hrow & _)]]; [|congruence]. }
    split; [split; [|done]|].
    + intros k' Hk'. apply same_of; [by apply Hr|]. unfold of_order. by rewrite He.
    + intros b' Hb'. split; [by eapply stable_ok|]. destruct Hb' as [Hb1 Hb2]. destruct (op b).1 as [[row|]|e]; [congruence| |done].
      by eapply stable_unpaid; [split; [exact Hb1|exact Hb2]|].
  - intros [row|]; cbn [mbind option_bind].
    + destruct (replay row) as [answer|] eqn:E.
      * apply triple_finish.
        -- intros b b' Hb [H1 H2]. split; [by eapply stable_ok|]. destruct Hb as [Hb _]. by rewrite <- Hb.
        -- intros b [Hok Hrow]. split; [done|]. destruct answer as [receipt|e]; [|done]. exists row. split; [done|].
           revert E. unfold replay. destruct (or_receipt row) as [rc|]; [|by case_bool_decide].
           destruct (bool_decide (or_state row ∈ TERMINAL_OK)) eqn:Ed; cbn [andb]; [|by destruct (bool_decide (_ ∈ [CLICKED; UNCERTAIN]))].
           destruct (truthy rc) eqn:Et; [|by destruct (bool_decide (_ ∈ [CLICKED; UNCERTAIN]))]. intros [= ->]. apply bool_decide_eq_true in Ed. auto.
      * eapply triple_conseq; [apply order_steps_place| |done]. intros b [Hok Hrow]. by eapply open_unpaid.
    + eapply triple_conseq; [apply order_steps_place| |done]. by intros b [_ Hu].
  - intros e b [Hok _]. by split.
Qed.
End Steps.

(** ** Pools of orders *)

Definition orders_pool (config : BridgeConfig) (requests : list PlaceOrderRequest) : list (prog bridge pyval) :=
  map (place_order config) requests.

(** Requests arrive in rounds: those of a round run together, in threads that a
    schedule interleaves and leaves anywhere; the next round starts then. *)
Definition run_round (config : BridgeConfig) (b : bridge) (round : list PlaceOrderRequest * list nat) : bridge :=
  (interleave round.2 (orders_pool config round.1) b).2.

Definition request_key (requests : list PlaceOrderRequest) (i : nat) : string :=
  match requests !! i with Some r => idem_key r | None => EmptyString end.

Lemma orders_pool_ok config requests b : NoDup (map idem_key requests) -> (forall k, order_ok k b) ->
  pool_ok (fun i => same (request_key requests i)) (fun i => own_step (request_key requests i))
    (fun i => placed (request_key requests i)) (fun b => forall k, order_ok k b) (length requests)
    (orders_pool config requests) b.
Proof.
  intros Hnd Hb. split; [apply length_map|]. split; [done|]. intros i p Hp. unfold orders_pool in Hp.
  apply list_lookup_fmap_Some in Hp as (r & -> & Hr).
  assert (request_key requests i = idem_key r) as -> by (unfold request_key; by rewrite Hr).
  apply place_order_places. apply Hb.
Qed.

Section Pool.
Variables (requests : list PlaceOrderRequest) (distinct : NoDup (map idem_key requests)).

Lemma distinct_compatible i j (s s' : bridge) : (i < length requests)%nat -> (j < length requests)%nat -> i <> j ->
  own_step (request_key requests i) s s' -> same (request_key requests j) s s'.
Proof using distinct.
  intros Hi Hj Hij [Hoth _]. apply Hoth. unfold request_key.
  apply lookup_lt_is_Some_2 in Hi as [a Ha]. apply lookup_lt_is_Some_2 in Hj as [c Hc]. rewrite Ha, Hc.
  intros He. apply Hij. eapply (NoDup_lookup (map idem_key requests)); [exact distinct| |].
  - apply list_lookup_fmap_Some. eauto.
  - apply list_lookup_fmap_Some. eauto.
Qed.

Lemma own_preserves i (s s' : bridge) : (i < length requests)%nat -> (forall k, order_ok k s) ->
  own_step (request_key requests i) s s' -> forall k, order_ok k s'.
Proof using Type.
  intros _ Hs [Hoth Hown] k. destruct (decide (k = request_key requests i)) as [->|Hk]; [done|].
  eapply stable_ok; [by apply Hoth|done].
Qed.
End Pool.

Lemma round_ok config b round : NoDup (map idem_key round.1) -> (forall k, order_ok k b) ->
  forall k, order_ok k (run_round config b round).
Proof.
  intros Hnd Hb.
  by destruct (pool_interleave _ _ _ _ _ (distinct_compatible _ Hnd) (own_preserves _) round.2 _ b (orders_pool_ok config _ b Hnd Hb))
    as (_ & Hok & _).
Qed.

Lemma rounds_ok config rounds b : Forall (fun round => NoDup (map idem_key round.1)) rounds -> (forall k, order_ok k b) ->
  forall k, order_ok k (fold_left (run_round config) rounds b).
Proof. intros Hnd. revert b. induction Hnd as [|round rounds Hr _ IH]; intros b Hb; cbn; [done|]. by apply IH, round_ok. Qed.

Definition empty_bridge (w : World) : bridge := {| rows := ∅; payment_label := EmptyString; world := w; exchanges := [] |}.

(** C7: When the requests that run at the same time carry different idempotency
    keys, however many rounds there are, whatever Rappi answers, however the
    threads are scheduled and wherever they stop, at most one paying click is
    ever sent for a key: one the store did not refuse for its minimum. *)
Theorem one_paying_click config rounds w k :
  Forall (fun round => NoDup (map idem_key round.1)) rounds ->
  (length (paying k (fold_left (run_round config) rounds (empty_bridge w))) <= 1)%nat.
Proof. intros Hnd. apply (rounds_ok config rounds (empty_bridge w) Hnd). intros k'. by apply unpaid_ok. Qed.

(** An answered order answers again: once a request returned a receipt, among
    others with other keys, every later request with its key, whatever else it
    asks, returns the same receipt without any exchange with Rappi. *)
Theorem receipt_replays config rounds w round i r receipt again a :
  Forall (fun round => NoDup (map idem_key round.1)) rounds -> NoDup (map idem_key round.1) ->
  round.1 !! i = Some r ->
  let before := fold_left (run_round config) rounds (empty_bridge w) in
  (interleave round.2 (orders_pool config round.1) before).1 !! i = Some (Finish (Ok receipt)) ->
  idem_key again = idem_key r -> enabled config = true -> parse_money (amount again) = Ok a ->
  let after := run_round config before round in
  (run_prog (place_order config again) after).1 = Ok receipt /\
  exchanges (run_prog (place_order config again) after).2 = exchanges after /\
  rows (run_prog (place_order config again) after).2 = rows after.
Proof.
  intros Hnds Hnd Hr before Hdone Hkey Hen Ha after.
  assert (settled (idem_key r) receipt after) as (row & Hrow & Hst & Hre & Ht).
  { pose proof (pool_finished _ _ _ _ _ (distinct_compatible _ Hnd) (own_preserves _) round.2 _ before i (Ok receipt)
      (orders_pool_ok config _ before Hnd ltac:(apply rounds_ok; [done|intros k'; by apply unpaid_ok])) Hdone) as [_ Hs].
    cbn in Hs. unfold request_key in Hs. by rewrite Hr in Hs. }
  unfold place_order. rewrite Hen, Ha. cbn [negb plift pbind run_prog].
  destruct (claim_effect again (purchase_id again) (cart_hash again) (dec_str a) after) as (He & _ & Hc).
  rewrite Hkey, Hrow in Hc. rewrite Hkey in He. destruct Hc as [Hc1 Hc2]. rewrite Hkey. cbn [atomic pbind run_prog].
  destruct (claim (idem_key r) _ _ _ after) as [res b'] eqn:E. cbn in Hc1, Hc2, He. subst res. cbn [pbind mbind option_bind].
  assert (replay row = Some (Ok receipt)) as ->; [|done].
  unfold replay. rewrite Hre, Ht. by rewrite bool_decide_true.
Qed.
End Facts.
