(* ===== verification/BridgeClicks.v ===== *)
(** What stands behind every paying click of the Rappi bridge, whatever runs at
    the same time, requests with one key included: the answers of Rappi and the
    capture token the order was checked against before it was sent. *)
From S2P Require Import Prelude PyTime Decimal Json JsonLogic Jose Prog RappiClient Bridge BridgeFacts.

Section Clicks.
Context `{Network}.
Variables (config : BridgeConfig).

(** Rappi answered [answer] to a request of an order. *)
Definition seen (l : list exchange) (k path : string) (body answer : pyval) : Prop :=
  exists e, e ∈ l /\ ex_order e = k /\ ex_path e = path /\ ex_body e = body /\ ex_result e = Ok answer.

Section Request.
Variable request : PlaceOrderRequest.
Let k := idem_key request.

(** The cart that was read hashes to the approved hash. *)
Definition cart_checked (store : pyval) (l : list exchange) : Prop :=
  exists cart, seen l k (RECALC_PATH (store_type request)) empty_dict cart /\ quoted_store cart = Ok store /\
    compute_cart_hash (store_type request) store = Ok (cart_hash request).

(** The capture token is valid at some moment for this purchase, cart and amount. *)
Definition token_checked (approved : dec) : Prop :=
  exists keys moment claims, verify_capture_token (capture_token request) keys (purchase_id request) (cart_hash request)
    (dec_str approved) (dry_run config) moment = Ok claims.

(** The instrument chosen among the methods listed was bound to the cart. *)
Definition instrument_set (l : list exchange) : Prop :=
  exists methods method payload answer,
    seen l k PAYMENT_RESOLVER_PATH VNone methods /\ resolve_method config methods = Ok method /\
    build_payment_payload method = Ok payload /\ seen l k (PAYMENT_PUT_PATH (store_type request)) payload answer.

(** The total of the cart read after that is the approved amount, within the cap. *)
Definition total_checked (approved : dec) (store : pyval) (l : list exchange) : Prop :=
  exists cart total limit, seen l k (RECALC_PATH (store_type request)) empty_dict cart /\
    (let? s := current_store cart store in store_total s) = Ok total /\
    cap config = Ok limit /\ dle total limit = Ok true /\ deq approved total = true.

(** The active address is the one the mandate names, when it names one. *)
Definition address_checked (l : list exchange) : Prop :=
  exists data address id, seen l k ADDRESSES_PATH VNone data /\ active_of data = Ok address /\
    address_id address = Ok id /\ check_address id (expected_address_id request) = Ok ().

Definition authorised (l : list exchange) : Prop :=
  enabled config = true /\ dry_run config = false /\
  exists approved store, parse_money (amount request) = Ok approved /\ token_checked approved /\
    cart_checked store l /\ instrument_set l /\ total_checked approved store l /\ address_checked l.
End Request.

(** Every click sent was authorised by what preceded it. *)
Definition clicks_ok (requests : list PlaceOrderRequest) (l : list exchange) : Prop :=
  forall l1 e l2, l = l1 ++ e :: l2 -> is_click e = true ->
    exists request, request ∈ requests /\ ex_order e = idem_key request /\
      ex_path e = PLACE_ORDER_PATH (store_type request) /\ authorised request l1.

(** ** Knowledge that grows with the exchanges *)

Definition grows (F : list exchange -> Prop) : Prop := forall l l', F l -> F (l ++ l').

Lemma seen_grows k path body answer : grows (fun l => seen l k path body answer).
Proof. intros l l' (e & He & Hx). exists e. split; [set_solver|done]. Qed.
Lemma and_grows F G : grows F -> grows G -> grows (fun l => F l /\ G l).
Proof. intros HF HG l l' [H1 H2]. split; [by apply HF|by apply HG]. Qed.
Lemma pure_grows (P : Prop) : grows (fun _ => P).
Proof. by intros l l'. Qed.
Lemma ex_grows {A} (F : A -> list exchange -> Prop) : (forall a, grows (F a)) -> grows (fun l => exists a, F a l).
Proof. intros HF l l' [a Ha]. exists a. by apply HF. Qed.

Ltac grow :=
  lazymatch goal with
  | |- grows (fun l => _ /\ _) => apply and_grows; grow
  | |- grows (fun l => seen _ _ _ _ _) => apply seen_grows
  | |- grows _ => first [assumption | apply pure_grows]
  end.

Section Workers.
Variable requests : list PlaceOrderRequest.

(** What any statement of any order does to the exchanges. *)
Definition extends (b b' : bridge) : Prop :=
  (exists l, exchanges b' = exchanges b ++ l) /\ (clicks_ok requests (exchanges b) -> clicks_ok requests (exchanges b')).

#[export] Instance extends_preorder : PreOrder extends.
Proof.
  split; [intros b; split; [by exists []; rewrite app_nil_r|exact id]|].
  intros a b c [[l1 H1] H2] [[l2 H3] H4]. split; [|auto]. exists (l1 ++ l2). by rewrite H3, H1, (assoc_L (++)).
Qed.

Definition knows (F : list exchange -> Prop) (b : bridge) : Prop := clicks_ok requests (exchanges b) /\ F (exchanges b).
Abbreviation T := (triple extends extends).

Lemma knows_stable F : grows F -> stable extends (knows F).
Proof. intros HF b b' [[l Hl] Hok] [H1 H2]. split; [auto|]. rewrite Hl. by apply HF. Qed.

Lemma clicks_snoc l e : clicks_ok requests l ->
  (is_click e = true -> exists request, request ∈ requests /\ ex_order e = idem_key request /\
      ex_path e = PLACE_ORDER_PATH (store_type request) /\ authorised request l) -> clicks_ok requests (l ++ [e]).
Proof.
  intros Hl He l1 e' l2 Heq Hc. destruct (decide (l2 = [])) as [->|Hne].
  - apply app_inj_tail in Heq as [-> ->]. by apply He.
  - destruct (exists_last Hne) as (l3 & x & ->). rewrite app_comm_cons, (assoc_L (++)) in Heq.
    apply app_inj_tail in Heq as [-> _]. by apply (Hl l1 e' l3).
Qed.

(** A statement that exchanges nothing. *)
Lemma unobserved {A} (op : st bridge A) F : grows F -> (forall b, exchanges (op b).2 = exchanges b) ->
  T (knows F) (atomic op) (fun _ => knows F).
Proof.
  intros HF Hop. apply triple_atomic; [by apply knows_stable|]. intros b Hb.
  split; [unfold extends; rewrite Hop; split; [by exists []; rewrite app_nil_r|exact id]|].
  intros b' Hb'. eapply (knows_stable F HF (op b).2); [done|]. unfold knows. by rewrite Hop.
Qed.

Lemma move_unobserved k target oid receipt expect b : exchanges (transition k target oid receipt expect b).2 = exchanges b.
Proof. apply transition_effect. Qed.

(** A request that is no click teaches its answer. *)
Lemma asked k method path params body F : grows F ->
  String.eqb method "POST" && String.prefix "/api/ms/shopping-cart-proxy/" path = false ->
  T (knows F) (rappi k method path params body)
    (fun r => match r with Ok v => knows (fun l => F l /\ seen l k path body v) | Raise _ => knows F end).
Proof.
  intros HF Hfree. apply triple_atomic; [by apply knows_stable|]. intros b [Hok HFb].
  destruct (exchange_with k method path params body b) as [r b'] eqn:E. cbn.
  unfold exchange_with in E. destruct (_request method path params body (world b)) as [r0 w]. injection E as -> <-.
  split; [split; [cbn; eauto|intros Ho; cbn; apply clicks_snoc; [done|]; unfold is_click; cbn; by rewrite Hfree]|].
  intros b' Hb'. set (e := {| ex_order := k |}) in *.
  assert (knows F b') as Hk.
  { eapply knows_stable; [done|exact Hb'|]. split; [|by apply HF]. apply clicks_snoc; [done|]. unfold is_click. cbn. by rewrite Hfree. }
  destruct r as [v|x]; [|done]. split; [apply Hk|]. split; [apply Hk|]. destruct Hb' as [[l ->] _]. apply seen_grows.
  exists e. cbn. split; [set_solver|done].
Qed.

Lemma done_knows {A} F (a : A) (Q : res A -> bridge -> Prop) : grows F -> (forall b, knows F b -> Q (Ok a) b) ->
  T (knows F) (Finish (Ok a)) Q.
Proof. intros HF HQ. apply triple_finish; [by apply knows_stable|done]. Qed.

Definition sound {A} (r : res A) (b : bridge) : Prop := clicks_ok requests (exchanges b).

Lemma failed_sound {A} F (e : exn) : grows F -> T (knows F) (Finish (Raise e)) (@sound A).
Proof. intros HF. apply triple_finish; [by apply knows_stable|]. by intros b [? _]. Qed.

(** A program in a sequence: what it teaches is known after it. *)
Lemma then_knows {A B} (m : prog bridge A) (f : A -> prog bridge B) F (G : A -> list exchange -> Prop) :
  T (knows F) m (fun r => match r with Ok a => knows (G a) | Raise _ => knows F end) ->
  (forall a, T (knows (G a)) (f a) sound) -> T (knows F) (pbind m f) sound.
Proof. intros Hm Hf. eapply triple_bind; [apply _|exact Hm|exact Hf|]. by intros e b [? _]. Qed.

Lemma then_local {A B} (op : st bridge A) (f : A -> prog bridge B) F : grows F ->
  (forall b, exchanges (op b).2 = exchanges b) -> (forall a, T (knows F) (f a) sound) ->
  T (knows F) (pbind (atomic op) f) sound.
Proof.
  intros HF Hop Hf. apply (then_knows _ _ F (fun _ => F)); [|done].
  eapply triple_conseq; [by apply (unobserved op F)|done|]. by intros [a|e] b.
Qed.

Lemma then_asked {B} k method path params body (f : pyval -> prog bridge B) F : grows F ->
  String.eqb method "POST" && String.prefix "/api/ms/shopping-cart-proxy/" path = false ->
  (forall v, T (knows (fun l => F l /\ seen l k path body v)) (f v) sound) ->
  T (knows F) (pbind (rappi k method path params body) f) sound.
Proof. intros HF Hfree Hf. apply (then_knows _ _ F (fun v l => F l /\ seen l k path body v)); [by apply asked|done]. Qed.

(** A computation: its result is known from then on. *)
Lemma then_lift {A B} (r : res A) (f : A -> prog bridge B) F : grows F ->
  (forall a, r = Ok a -> T (knows F) (f a) sound) -> T (knows F) (pbind (plift r) f) sound.
Proof. intros HF Hf. destruct r as [a|e]; cbn; [by apply Hf|by apply failed_sound]. Qed.

Lemma pbind_assoc {A B C} (m : prog bridge A) (f : A -> prog bridge B) (g : B -> prog bridge C) b (Q : res C -> bridge -> Prop) :
  rg extends extends (pbind m (fun a => pbind (f a) g)) b Q -> rg extends extends (pbind (pbind m f) g) b Q.
Proof.
  revert b. induction m as [[a|e]|X op next IH]; intros b; cbn; [done|done|]. intros Hm s Hs. destruct (Hm s Hs). auto.
Qed.

Lemma then_assoc {A B C} (m : prog bridge A) (f : A -> prog bridge B) (g : B -> prog bridge C) P Q :
  T P (pbind m (fun a => pbind (f a) g)) Q -> T P (pbind (pbind m f) g) Q.
Proof. intros Hm b Hb. by apply pbind_assoc, Hm. Qed.

Lemma outside_unobserved {A} (op : st World A) b : exchanges (outside op b).2 = exchanges b.
Proof. apply quiet_outside. Qed.

Lemma claim_unobserved k purchase cart money b : exchanges (claim k purchase cart money b).2 = exchanges b.
Proof. unfold claim, sbind. destruct (now_effect b) as (t & w & ->). unfold get. cbn. by destruct (rows b !! k). Qed.

(** ** The order flow *)

Ltac walk_step :=
  lazymatch goal with
  | |- triple _ _ _ (pbind (pbind _ _) _) _ => apply then_assoc
  | |- triple _ _ _ (pbind (rappi _ _ _ _ _) _) _ => apply then_asked; [grow|reflexivity|intros ? ]
  | |- triple _ _ _ (pbind (plift _) _) _ => apply then_lift; [grow|intros ? ? ]
  | |- triple _ _ _ (pbind (atomic (transition _ _ _ _ _)) _) _ =>
      apply then_local; [grow|intros ?; apply move_unobserved|intros ? ]
  | |- triple _ _ _ (pbind (atomic (outside _)) _) _ => apply then_local; [grow|intros ?; apply outside_unobserved|intros ? ]
  | |- triple _ _ _ (pbind (atomic _) _) _ => apply then_local; [grow|intros ?; reflexivity|intros ? ]
  | |- triple _ _ _ (pbind (pret ?a) ?f) ?Q => change (pbind (pret a) f) with (f a); cbv beta iota
  end.

Section Flow.
Variables (request : PlaceOrderRequest).
Hypothesis listed : request ∈ requests.
Let k := idem_key request.

Lemma resolved_same kind resolved carts :
  (let? carts := py_iter carts in
   let? _ := first_such (fun cart => let? t := py_get cart "store_type" in Ok (py_eq t (VStr kind))) carts in Ok kind) = Ok resolved ->
  resolved = kind.
Proof using Type. destruct (py_iter carts); cbn; [|done]. destruct (first_such _ _); cbn; [|done]. by intros [= ->]. Qed.

(** The click of an authorised order. *)
Lemma click_sound F detail : grows F -> (forall l, F l -> authorised request l) ->
  T (knows F) (click request (store_type request) detail) (fun _ => knows F).
Proof using listed.
  intros HF Hauth. unfold click, move. apply (triple_catch _ _ _ _ _ (fun _ => knows F)); [|done|].
  - apply (triple_bind _ _ _ _ _ (fun _ => knows F)); [by apply triple_finish; [apply knows_stable|]| |done].
    intros rk. apply triple_atomic; [by apply knows_stable|]. intros b [Hok HFb]. unfold exchange_with.
    destruct (_request _ _ _ _ _) as [r w]. cbn.
    assert (clicks_ok requests (exchanges b ++ [{| ex_order := idem_key request; ex_method := "POST";
      ex_path := PLACE_ORDER_PATH (store_type request);
      ex_body := VDict [("return_key"%string, VStr (if truthy rk then py_str rk else EmptyString))]; ex_result := r |}])) as Hclicks.
    { apply clicks_snoc; [done|]. intros _. exists request. do 3 (split; [done|]). by apply Hauth. }
    split; [split; [cbn; eauto|by intros _]|]. intros b' Hb'.
    eapply knows_stable; [done|exact Hb'|]. split; [exact Hclicks|by apply HF].
  - intros e. case_decide;
      (apply (triple_bind _ _ _ _ _ (fun _ => knows F));
       [apply unobserved; [done|intros b; apply move_unobserved]|intros _; by apply triple_finish; [apply knows_stable|]|done]).
Qed.

Lemma finish_sound F total state oid : grows F -> T (knows F) (_finish config request total state oid) sound.
Proof using Type. intros HF. unfold _finish. cbv zeta. do 2 walk_step. apply done_knows; [grow|]. by intros b [? _]. Qed.

Lemma pay_sound F total detail : grows F -> (forall l, F l -> authorised request l) ->
  T (knows F) (pay config request (store_type request) total detail) sound.
Proof using listed.
  intros HF Hauth. unfold pay, move. apply (then_knows _ _ F (fun _ => F)).
  - apply (triple_catch _ _ _ _ _ (fun _ => knows F)); [apply unobserved; [done|intros b; apply move_unobserved]|done|].
    intros e. destruct (decide (e = RuntimeError)); [|done]. by apply triple_finish; [apply knows_stable|].
  - intros _. apply (then_knows _ _ F (fun _ => F)).
    + eapply triple_conseq; [by apply click_sound|done|]. by intros [a|e] b.
    + intros result. apply then_lift; [done|]. intros oid _. by apply finish_sound.
Qed.

(** The whole flow: each stage leaves what the click needs. *)
Lemma place_order_sound : T (knows (fun _ => True)) (place_order config request) sound.
Proof using listed.
  unfold place_order. destruct (enabled config) eqn:Hen; cbn [negb]; [|apply failed_sound; grow].
  apply then_lift; [grow|]. intros approved Happ.
  apply then_local; [grow|intros b; apply claim_unobserved|]. intros existing.
  destruct (existing ≫= replay) as [answer|].
  { apply triple_finish; [apply knows_stable; grow|]. by intros b [? _]. }
  unfold order_steps, whoami, bind_cart, verify_token, set_instrument, arm, resolve_store_type, get_carts, recalculate,
    get_payment_methods, set_payment_method, checkout_detail, active_address, addresses, move.
  repeat walk_step.
  match goal with E : (let? _ := _ in _) = Ok ?x |- context [RECALC_PATH ?x] => apply resolved_same in E; subst x end.
  match goal with |- triple _ _ _ (if ?live then _ else _) _ => destruct live end; [apply failed_sound; grow|].
  destruct (dry_run config) eqn:Hdry; [apply finish_sound; grow|].
  apply pay_sound; [grow|]. intros l Hl. repeat match type of Hl with _ /\ _ => destruct Hl as [Hl ?] end.
  match goal with E : guard_res _ _ = Ok _, Eh : compute_cart_hash _ _ = Ok ?h |- _ =>
    assert (h = cart_hash request) as -> by (destruct (String.eqb_spec h (cart_hash request)); [done|discriminate E]) end.
  match goal with E : (let? _ := cap config in _) = Ok _ |- _ => rename E into Hcap end.
  match goal with E : check_drift _ _ = Ok _ |- _ => rename E into Hdrift end.
  match goal with E : (let? _ := address_id _ in _) = Ok _ |- _ => rename E into Haddr end.
  unfold check_drift in Hdrift. destruct (deq approved _) eqn:Hdeq; [|done].
  destruct (cap config) as [limit|] eqn:Elim; [|done]. cbn in Hcap. unfold check_cap in Hcap.
  destruct (dle _ limit) as [[]|] eqn:Hle; [|done|done]. destruct (address_id _) as [id|] eqn:Hid; [|done]. cbn in Haddr.
  split; [done|]. split; [done|]. eexists approved, _. split; [done|].
  split; [unfold token_checked; rewrite Hdry; eauto|]. split; [eexists; eauto|]. split; [do 4 eexists; eauto|].
  split; [eexists _, _, limit; eauto|]. do 3 eexists. split; [eassumption|]. split; [eassumption|]. split; [eassumption|].
  match goal with u : unit |- _ => by destruct u end.
Qed.
End Flow.
End Workers.

(** C8: Whatever runs together, same keys included, and however it is scheduled,
    every click was sent for a request whose capture token verified for its
    purchase, cart and amount, after answers of Rappi that bind the cart to the
    approved hash, set an allowed instrument, total the approved amount within
    the cap, and deliver to the address the mandate names; never by a bridge
    that is disabled or in dry run. *)
Theorem clicks_authorised requests schedule w :
  clicks_ok requests (exchanges (interleave schedule (orders_pool config requests) (empty_bridge w)).2).
Proof.
  assert (clicks_ok requests []) as Hnone by (intros [|? ?]; done).
  pose proof (pool_interleave (A := pyval) (fun _ => extends requests) (fun _ => extends requests) (fun _ => sound requests)
    (fun b => clicks_ok requests (exchanges b)) (length requests)) as Hpool.
  specialize (Hpool ltac:(by intros) ltac:(by intros i s s' _ Hs [_ Ht]; apply Ht) schedule (orders_pool config requests) (empty_bridge w)).
  apply Hpool. split; [apply length_map|]. split; [done|]. intros i p Hp.
  apply list_lookup_fmap_Some in Hp as (request & -> & Hr).
  apply (place_order_sound requests request); [by eapply list_elem_of_lookup_2|done].
Qed.
End Clicks.
