(* ===== verification/CartHash.v ===== *)
(** What the cart hash of the Rappi bridge binds (rappi_bridge/service.py,
    compute_cart_hash): canonical cart values are plain, and equal hashes mean
    equal carts. *)
From S2P Require Import Prelude PyTime Decimal Sha256 Json JsonLogic JsonParse Ledger Canonical Jose RappiClient Bridge.

(** What [json.loads] makes: no [Decimal] and no datetime. *)
Fixpoint json_value (v : pyval) : bool :=
  match v with
  | VDec _ | VTime _ => false
  | VList l => forallb json_value l
  | VDict kvs => forallb (fun kv => json_value kv.2) kvs
  | _ => true
  end.

Lemma canonical_number_plain d v : canonical_number d = Ok v -> plain v = true /\ decodable v.
Proof.
  unfold canonical_number. destruct (negb (is_finite d)); [done|]. destruct (deq d dzero); by intros [= <-].
Qed.

(** Canonical cart values carry no number, and the keys of the mappings they
    were made from. *)
Lemma canonical_cart_plain v w : _canonical_cart_value v = Ok w -> decodable v -> plain w = true /\ decodable w.
Proof.
  revert w. induction v as [v Hl Hd|l IH|kvs IH] using pyval_nested_ind; intros w.
  - destruct v as [|b|n|s|d|r|t|l|kvs]; cbn [_canonical_cart_value]; intros Hc Hdec; try (by injection Hc as <-); try done.
    + by eapply canonical_number_plain.
    + by eapply canonical_number_plain.
    + destruct (decimal_of_string r); cbn [rbind] in Hc; [|done]. by eapply canonical_number_plain.
    + by destruct (Hl l).
    + by destruct (Hd kvs).
  - cbn. match goal with |- (let? _ := ?g l in _) = _ -> _ => assert (forall ws, g l = Ok ws -> decodable (VList l) ->
      plain (VList ws) = true /\ decodable (VList ws)) as Hgo; [|destruct (g l) as [ws|]; cbn; [|done]; intros [= <-]; by apply Hgo] end.
    induction IH as [|x l Hx _ IHl]; intros ws; [by intros [= <-]|].
    destruct (_canonical_cart_value x) as [y|]; cbn [rbind]; [|done].
    match goal with |- (let? _ := ?g l in _) = _ -> _ => destruct (g l) as [ys|]; cbn [rbind]; [|done] end.
    intros [= <-] [Hdx Hdl]. destruct (Hx y eq_refl Hdx) as [H1 H2]. destruct (IHl ys eq_refl Hdl) as [H3 H4].
    cbn in *. by rewrite H1.
  - cbn. match goal with |- (let? _ := ?g kvs in _) = _ -> _ => assert (forall ws, g kvs = Ok ws ->
      (fix go l := match l with [] => True | (_, x) :: l' => decodable x /\ go l' end) kvs -> plain (VDict ws) = true /\
      (fix go l := match l with [] => True | (_, x) :: l' => decodable x /\ go l' end) ws /\ ws.*1 = kvs.*1) as Hgo;
      [|destruct (g kvs) as [ws|]; cbn; [|done]; intros [= <-] [Hnd Hd]; destruct (Hgo ws eq_refl Hd) as (? & ? & Hk); split; [done|]; split; [by rewrite Hk|done]] end.
    induction IH as [|[k x] l Hx _ IHl]; intros ws; [by intros [= <-]|]. cbn [snd] in Hx.
    destruct (_canonical_cart_value x) as [y|]; cbn [rbind]; [|done].
    match goal with |- (let? _ := ?g l in _) = _ -> _ => destruct (g l) as [ys|]; cbn [rbind]; [|done] end.
    intros [= <-] [Hdx Hdl]. destruct (Hx y eq_refl Hdx) as [H1 H2]. destruct (IHl ys eq_refl Hdl) as (H3 & H4 & H5).
    cbn in *. rewrite H1, H5. done.
Qed.

(** A text that a value of no float, [Decimal] or datetime serializes to reads
    back as the value. *)
Lemma evidence_reads v t : plain v = true -> decodable v -> Evidence.canonical_json v = Ok t ->
  loads (fun r => r) t = Ok (sort_value v).
Proof.
  intros Hp Hd. unfold Evidence.canonical_json, dumps. rewrite evidence_check, plain_no_float by done. cbn [rbind].
  destruct (plain_tree Evidence._default v Hp) as (j & -> & Hx & <- & Hr). cbn [rbind]. intros Ht. apply Ok_inj in Ht as <-.
  by apply scan_loads, Hr.
Qed.

Lemma get_decodable v k d w : decodable v -> decodable d -> py_get_or v k d = Ok w -> decodable w.
Proof.
  destruct v as [| | | | | | | |kvs]; try done. cbn. intros [_ Hd] Hdd [= <-].
  induction kvs as [|[k' x] kvs IH]; cbn; [done|]. destruct Hd as [Hx Hd]. destruct (String.eqb k k'); [done|]. by apply IH.
Qed.

Lemma has_float_plain v : json_value v = true -> has_float v = false -> plain v = true.
Proof.
  induction v as [v Hl Hd|l IH|kvs IH] using pyval_nested_ind; intros Hj Hf.
  - destruct v; try done; [by destruct (Hl l)|by destruct (Hd kvs)].
  - cbn in *. induction IH as [|x l Hx _ IHl]; [done|]. cbn in *. apply andb_prop in Hj as [Hjx Hj].
    destruct (has_float x); [done|]. rewrite Hx by done. by apply IHl.
  - cbn in *. induction IH as [|[k x] l Hx _ IHl]; [done|]. cbn in *. apply andb_prop in Hj as [Hjx Hj].
    destruct (has_float x); [done|]. rewrite Hx by done. by apply IHl.
Qed.

(** A binding that is serialized is a plain value. *)
Lemma binding_plain t s b text : decodable s -> (forall id, py_get s "id" = Ok id -> json_value id = true) ->
  cart_binding t s = Ok b -> Evidence.canonical_json b = Ok text ->
  plain b = true /\ decodable b /\ assoc "store_type"%string (match sort_value b with VDict kvs => kvs | _ => [] end) = Some (VStr t).
Proof.
  intros Hds Hid Hb Ht. unfold cart_binding in Hb.
  destruct (py_get s "id") as [id|] eqn:Ei; cbn [rbind] in Hb; [|done].
  destruct (py_get_or s "products" (VList [])) as [products|] eqn:Ep; cbn [rbind] in Hb; [|done].
  destruct (_canonical_cart_value products) as [canonical|] eqn:Ec; cbn [rbind] in Hb; [|done].
  destruct (py_get_or s "total" (VStr "0")) as [total|]; cbn [rbind] in Hb; [|done].
  destruct (parse_money (py_str total)) as [money|]; cbn [rbind] in Hb; [|done]. apply Ok_inj in Hb as <-.
  destruct (canonical_cart_plain _ _ Ec) as [Hpc Hdc]; [by eapply get_decodable; [..|exact Ep]|].
  assert (has_float id = false) as Hf.
  { unfold Evidence.canonical_json in Ht. rewrite evidence_check in Ht. revert Ht. cbn [has_float].
    by destruct (has_float id). }
  assert (decodable id) as Hdi by (exact (get_decodable s "id" VNone id Hds I Ei)).
  split; [cbn [plain]; rewrite (has_float_plain id) by auto; by rewrite Hpc|]. split; [|reflexivity].
  split; [|by repeat split]. apply (bool_decide_unpack _). vm_compute. exact I.
Qed.

(** The text whose digest is the cart hash: the literal of the canonical text. *)
Definition hashed_text (binding : pyval) : res string :=
  let? text := Evidence.canonical_json binding in Evidence.canonical_json (VStr text).

Lemma cart_hash_text t s h : compute_cart_hash t s = Ok h -> exists b text literal,
  cart_binding t s = Ok b /\ Evidence.canonical_json b = Ok text /\ hashed_text b = Ok literal /\
  Evidence.canonical_json (VStr text) = Ok literal /\ h = Sha256.sha256_hex literal.
Proof.
  unfold compute_cart_hash, hashed_text. destruct (cart_binding t s) as [b|]; cbn [rbind]; [|done].
  destruct (Evidence.canonical_json b) as [text|] eqn:Ht; cbn [rbind]; [|done]. unfold Evidence.sha256_hex.
  destruct (Evidence.canonical_json (VStr text)) as [lit|] eqn:El; cbn [rbind]; [|done]. intros Hh.
  apply Ok_inj in Hh. exists b, text, lit. rewrite Ht. cbn [rbind]. rewrite El. done.
Qed.

Lemma literal_inj a b l : Evidence.canonical_json (VStr a) = Ok l -> Evidence.canonical_json (VStr b) = Ok l -> a = b.
Proof.
  intros Ha Hb. pose proof (evidence_reads (VStr a) l eq_refl I Ha) as H1. rewrite (evidence_reads (VStr b) l eq_refl I Hb) in H1.
  cbn in H1. congruence.
Qed.

(** Two approvals of one cart hash approve one cart: the same store type, the
    same store, the same products up to the spelling of their numbers, and the
    same total; or the two hashed texts are different texts with one SHA-256
    digest. *)
Theorem cart_hash_binds t1 t2 s1 s2 h :
  decodable s1 -> decodable s2 ->
  (forall id, py_get s1 "id" = Ok id -> json_value id = true) -> (forall id, py_get s2 "id" = Ok id -> json_value id = true) ->
  compute_cart_hash t1 s1 = Ok h -> compute_cart_hash t2 s2 = Ok h ->
  exists b1 b2, cart_binding t1 s1 = Ok b1 /\ cart_binding t2 s2 = Ok b2 /\
    (sort_value b1 = sort_value b2 /\ t1 = t2 \/
     exists l1 l2, hashed_text b1 = Ok l1 /\ hashed_text b2 = Ok l2 /\ l1 <> l2 /\ Sha256.sha256_hex l1 = Sha256.sha256_hex l2).
Proof.
  intros Hd1 Hd2 Hi1 Hi2 H1 H2.
  destruct (cart_hash_text t1 s1 h H1) as (b1 & x1 & l1 & Hb1 & Hx1 & Hl1 & Hv1 & He1).
  destruct (cart_hash_text t2 s2 h H2) as (b2 & x2 & l2 & Hb2 & Hx2 & Hl2 & Hv2 & He2).
  exists b1, b2. split; [done|]. split; [done|]. destruct (decide (l1 = l2)) as [->|Hne]; [left|right; exists l1, l2; by rewrite <- He1].
  pose proof (literal_inj x1 x2 l2 Hv1 Hv2) as ->.
  destruct (binding_plain t1 s1 b1 x2 Hd1 Hi1 Hb1 Hx1) as (Hp1 & Hdb1 & Ht1).
  destruct (binding_plain t2 s2 b2 x2 Hd2 Hi2 Hb2 Hx2) as (Hp2 & Hdb2 & Ht2).
  pose proof (evidence_reads b1 x2 Hp1 Hdb1 Hx1) as Hr. rewrite (evidence_reads b2 x2 Hp2 Hdb2 Hx2) in Hr.
  apply Ok_inj in Hr. split; [done|]. rewrite Hr, Ht1 in Ht2. congruence.
Qed.

Definition demo_store (price : pyval) : pyval :=
  VDict [("id", VInt 900); ("name", VStr "La Tienda"); ("total", price);
         ("products", VList [VDict [("product_id", VInt 7); ("units", VInt 1); ("total", price)]])]%string.

(** Rappi's 18300 and its 18300.0 are one cart. *)
Lemma cart_hash_binds_witness : exists h b1 b2,
  compute_cart_hash "restaurant" (demo_store (VInt 18300)) = Ok h /\ compute_cart_hash "restaurant" (demo_store (VFloat "18300.0")) = Ok h /\
  cart_binding "restaurant" (demo_store (VInt 18300)) = Ok b1 /\ cart_binding "restaurant" (demo_store (VFloat "18300.0")) = Ok b2 /\
  sort_value b1 = sort_value b2.
Proof.
  assert (forall p, (p = VInt 18300 \/ p = VFloat "18300.0") -> decodable (demo_store p)) as Hd.
  { intros p Hp. repeat split; try (apply (bool_decide_unpack _); vm_compute; exact I); destruct Hp as [->| ->]; try exact I;
      apply Nat.leb_le; vm_compute; reflexivity. }
  eexists.
  destruct (cart_hash_binds "restaurant" "restaurant" (demo_store (VInt 18300)) (demo_store (VFloat "18300.0"))
    (match compute_cart_hash "restaurant" (demo_store (VInt 18300)) with Ok h => h | Raise _ => EmptyString end))
    as (b1 & b2 & H1 & H2 & H3).
  - apply Hd. by left.
  - apply Hd. by right.
  - by intros id [= <-].
  - by intros id [= <-].
  - vm_compute. reflexivity.
  - vm_compute. reflexivity.
  - exists b1, b2. split; [vm_compute; reflexivity|]. split; [vm_compute; reflexivity|]. split; [done|]. split; [done|].
    destruct H3 as [[H3 _]|(l1 & l2 & E1 & E2 & Hne & _)]; [done|]. exfalso. apply Hne.
    assert (b1 = b2) as -> by (vm_compute in H1, H2; congruence). congruence.
Defined.
