(* ===== verification/BridgeDemo.v ===== *)
(** A concrete world for the Rappi bridge: an order that is paid and replayed,
    and two requests that carry one idempotency key, run together, both paid. *)
From S2P Require Import Prelude PyTime Decimal Json JsonLogic JsonParse Canonical Jose Prog RappiClient Bridge BridgeFacts CartHash.

Definition demo_cart : json :=
  JObj [("stores", JList [JObj [("id", JInt 900); ("name", JStr "La Tienda"); ("total", JInt 18300);
    ("products", JList [JObj [("product_id", JInt 7); ("units", JInt 1); ("total", JInt 18300)]])]])]%string.

(** A Rappi that answers each path in one way. *)
Definition demo_answer (path : string) : json :=
  if String.eqb path CARTS_PATH then JList []
  else if String.eqb path (RECALC_PATH "restaurant") then demo_cart
  else if String.eqb path PAYMENT_RESOLVER_PATH then JList [JObj [("id", JStr "cc|1"); ("main_description", JStr "Visa")]%string]
  else if String.eqb path ADDRESSES_PATH then
    JObj [("addresses", JList [JObj [("active", JBool true); ("id", JInt 7)]%string])]%string
  else if String.eqb path (PLACE_ORDER_PATH "restaurant") then JObj [("order_id", JStr "A1")]%string
  else JObj [].

#[export] Instance demo_network : Network.
Proof.
  refine {| World := unit; http_request := fun _ path _ _ w => (Some {| status_code := 200; text := print (demo_answer path) |}, w);
            kernel_keys := fun w => (Ok [("v1"%string, "issuer"%string : Key)], w); utcnow := fun w => (seconds 100, w) |}.
Defined.

Definition demo_config : BridgeConfig :=
  {| max_order_cop := "80000.00"; dry_run := false; enabled := true; payment_method_id := None; allow_cash := false; quote_ttl_s := 300 |}.

Definition demo_hash : string :=
  Eval vm_compute in match compute_cart_hash "restaurant" (demo_store (VInt 18300)) with Ok h => h | Raise _ => EmptyString end.

Definition demo_capture : string :=
  Eval vm_compute in
  match mint_capture_token "p-1" (Some "r-1"%string) "18300.00" demo_hash ("issuer"%string : Key) (Some "v1"%string) 120 0 false with
  | Ok t => t | Raise _ => EmptyString end.

Definition demo_request (key : string) : PlaceOrderRequest :=
  {| idem_key := key; purchase_id := "p-1"; amount := "18300.00"; cart_hash := demo_hash; capture_token := demo_capture;
     expected_address_id := Some "7"%string; store_type := "restaurant" |}.

Definition demo_start : bridge := empty_bridge (tt : World).

(** The order goes through, in 24 statements. *)
Example demo_order_paid : length (paying "k" (run_prog (place_order demo_config (demo_request "k")) demo_start).2) = 1%nat.
Proof. vm_compute. reflexivity. Qed.

(** A worker claims the key, another completes the order, and the first goes on. *)
Definition overtaken : list nat := 1%nat :: repeat 0%nat 30 ++ repeat 1%nat 30.

(** What the programs of a pool have answered. *)
Definition answers {S A} (pool : list (prog S A)) : list (option (res A)) :=
  map (fun p => match p with Finish r => Some r | Do _ _ => None end) pool.

Lemma answers_finished {S A} (pool : list (prog S A)) i r : answers pool !! i = Some (Some r) -> pool !! i = Some (Finish r).
Proof.
  unfold answers. intros (p & Hp & Hi)%list_lookup_fmap_Some. rewrite Hi. destruct p; [by simplify_eq|done].
Qed.

Definition demo_receipt : pyval :=
  _receipt "confirmed" "p-1" demo_hash "18300.00" (Some "A1"%string) false "Visa".

(** Two requests with one idempotency key, running at the same time in a world
    where nothing fails, are both answered with a receipt, and the account is
    charged twice: the transitions before the click do not look at the state
    they leave, so the second request walks a confirmed order back to armed. *)
Theorem same_key_charged_twice :
  let c := interleave overtaken (orders_pool demo_config [demo_request "k"; demo_request "k"]) demo_start in
  answers c.1 = [Some (Ok demo_receipt); Some (Ok demo_receipt)] /\ length (paying "k" c.2) = 2%nat.
Proof. split; vm_compute; reflexivity. Qed.

Definition demo_rounds : list (list PlaceOrderRequest * list nat) :=
  [([demo_request "k"; demo_request "j"], repeat 0%nat 9 ++ repeat 1%nat 30); ([demo_request "k"], repeat 0%nat 30); ([demo_request "k"], [])].

(** A first attempt that stopped in the middle, a second one that pays. *)
Lemma one_paying_click_witness :
  let b := fold_left (run_round demo_config) demo_rounds demo_start in
  (length (paying "k" b) <= 1)%nat /\ length (paying "k" b) = 1%nat /\ length (paying "j" b) = 1%nat.
Proof.
  split; [|split; vm_compute; reflexivity].
  apply (one_paying_click (H0 := demo_network) demo_config demo_rounds tt "k").
  repeat (constructor; [apply (bool_decide_unpack _); vm_compute; exact I|]). constructor.
Defined.

Lemma receipt_replays_witness : exists receipt,
  (run_prog (place_order demo_config (demo_request "k")) (run_round demo_config demo_start ([demo_request "k"], repeat 0%nat 30))).1 = Ok receipt.
Proof.
  exists demo_receipt.
  apply (receipt_replays (H0 := demo_network) demo_config [] tt ([demo_request "k"], repeat 0%nat 30) 0 (demo_request "k") _ (demo_request "k") (cents 1830000)).
  - constructor.
  - apply (bool_decide_unpack _). vm_compute. exact I.
  - reflexivity.
  - apply answers_finished. vm_compute. reflexivity.
  - reflexivity.
  - reflexivity.
  - reflexivity.
Defined.
