(* ===== verification/AgentRules.v ===== *)
(** The judgement of the agent kernel: two-decimal money
    (agent/crypto/money.py), the rules a mandate may carry
    (agent/jsonlogic.py), and the gate (agent/kernel.py, gate), a function of
    the signed claims, the intent, the offer, the counters and the time. *)
From S2P Require Import Prelude PyTime Decimal Json JsonLogic Jose RappiClient.

(** ** money.py *)

Definition dec (value : pyval) : res Decimal.dec := let? d := decimal_of_string (py_str value) in quantize_cent ROUND_HALF_UP d.
Definition fmt (value : pyval) : res string := let? d := dec value in Ok (dec_str d).

(** ** jsonlogic.py *)

Definition _num (value : pyval) : res Decimal.dec :=
  match decimal_of_string (py_str value) with Raise InvalidOperation | Raise TypeError => Raise RuleError | r => r end.

Fixpoint resolve_parts (current : pyval) (parts : list string) (default : pyval) : pyval :=
  match parts with
  | [] => current
  | part :: parts' =>
      match current with
      | VDict kvs => match assoc part kvs with Some v => resolve_parts v parts' default | None => default end
      | _ => default
      end
  end.

Definition _var (path context default : pyval) : pyval :=
  if py_eq path (VStr EmptyString) then context else resolve_parts context (split_dots (py_str path)) default.

Definition order_of (op : string) : order_op :=
  if String.eqb op "<" then OpLt else if String.eqb op "<=" then OpLe else if String.eqb op ">" then OpGt else OpGe.

Definition compare_decimals (o : order_op) (left right : Decimal.dec) : res bool :=
  match dcompare left right with Some c => Ok (order_holds o c) | None => Raise InvalidOperation end.

Definition _cmp (op : string) (left right : pyval) : res bool :=
  let? l := _num left in let? r := _num right in compare_decimals (order_of op) l r.

(** The operators, over the arguments as written and their outcomes; an outcome
    counts where the code evaluates the argument. *)
Definition apply_rule (context : pyval) (op : string) (args : list pyval) (outcomes : list (res pyval)) : res pyval :=
  if String.eqb op "var" then
    let? resolved := res_seq outcomes in
    match resolved with
    | [] => Raise IndexError
    | [path] => Ok (_var path context VNone)
    | path :: default :: _ => Ok (_var path context default)
    end
  else if String.eqb op "missing" then Ok (VList (List.filter (fun a => match _var a context VNone with VNone => true | _ => false end) args))
  else if is_one_of op ["<"; "<="; ">"; ">="] then
    let? values := res_seq outcomes in
    match values with
    | [lo; x; hi] => let? low := _cmp op lo x in if (low : bool) then let? high := _cmp op x hi in Ok (VBool high) else Ok (VBool false)
    | [a; b] => let? holds := _cmp op a b in Ok (VBool holds)
    | _ => Raise RuleError
    end
  else if is_one_of op ["=="; "==="; "!="; "!=="] then
    match outcomes with
    | a :: b :: _ =>
        let? a := a in let? b := b in
        let same := if is_one_of op ["=="; "!="] then String.eqb (py_str a) (py_str b) else py_eq a b in
        Ok (VBool (if is_one_of op ["=="; "==="] then same else negb same))
    | a :: _ => let? _ := a in Raise ValueError
    | [] => Raise ValueError
    end
  else if String.eqb op "and" then short_circuit false (VBool true) outcomes
  else if String.eqb op "or" then short_circuit true (VBool false) outcomes
  else if String.eqb op "!" then
    match outcomes with [] => Raise IndexError | a :: _ => let? a := a in Ok (VBool (negb (truthy a))) end
  else if String.eqb op "in" then
    match outcomes with
    | needle :: haystack :: _ =>
        let? needle := needle in let? haystack := haystack in
        let? found := py_in needle (py_or haystack (VList [])) in Ok (VBool found)
    | needle :: _ => let? _ := needle in Raise ValueError
    | [] => Raise ValueError
    end
  else if String.eqb op "if" then if_chain outcomes
  else Raise RuleError.

Fixpoint evaluate (context rule : pyval) : res pyval :=
  match rule with
  | VDict [(op, VList args)] => apply_rule context op args (map (evaluate context) args)
  | VDict [(op, raw)] => apply_rule context op [raw] [evaluate context raw]
  | VDict _ => Raise RuleError
  | _ => Ok rule
  end.

Definition words : list (string * string) :=
  [("<", "below"); ("<=", "at most"); (">", "above"); (">=", "at least"); ("==", "is"); ("!=", "is not"); ("in", "one of")]%string.

(** The rendering of one operator from that of its arguments. *)
Definition describe_op (op : string) (args : list pyval) (rendered : list (res string)) : res string :=
  if String.eqb op "var" then match args with [] => Raise IndexError | a :: _ => Ok (py_str a) end
  else
    match assoc op words, rendered with
    | Some w, [a; b] => let? a := a in let? b := b in Ok (a +:+ " " +:+ w +:+ " " +:+ b)%string
    | _, _ =>
        let? texts := res_seq rendered in
        if is_one_of op ["and"; "or"] then Ok (join (" " +:+ op +:+ " ") texts)
        else Ok (op +:+ "(" +:+ join ", " texts +:+ ")")%string
    end.

Fixpoint describe (rule : pyval) : res string :=
  match rule with
  | VDict [] => Raise StopIteration
  | VDict ((op, VList args) :: _) => describe_op op args (map describe args)
  | VDict ((op, raw) :: _) => describe_op op [raw] [describe raw]
  | _ => Ok (py_str rule)
  end.

(** ** kernel.py: the gate *)

Inductive decision_value : Type := AgentApproved | AgentEscalated | AgentRejected.

Record AgentDecision : Type := {
  d_decision : decision_value;
  d_reason_code : option string;
  d_detail : string;
  d_diff : pydict;
}.

Definition rejected (code detail : string) : AgentDecision :=
  {| d_decision := AgentRejected; d_reason_code := Some code; d_detail := detail; d_diff := [] |}.

(** [value[key]] *)
Definition py_item (value : pyval) (key : string) : res pyval :=
  match value with
  | VDict kvs => match assoc key kvs with Some v => Ok v | None => Raise KeyError end
  | _ => Raise TypeError
  end.

(** The counters of a mandate's row. *)
Record spend_row : Type := { sp_spent_total : string; sp_reserved_amount : string; sp_txn_count : Z }.

(** [scope.get(key) and value not in scope[key]]: outside a list that is there. *)
Definition outside_scope (scope : pyval) (key : string) (value : res pyval) : res (option (pyval * pyval)) :=
  let? allowed := py_get scope key in
  if truthy allowed then
    let? value := value in
    let? within := py_in value allowed in
    Ok (if (within : bool) then None else Some (value, allowed))
  else Ok None.

Definition not_in_text (value allowed : pyval) : string := (py_str value +:+ " is not in " +:+ py_str allowed)%string.

(** [gate]: the checks after the scope, in the order of the code. *)
Definition gate_conditions (claims offer : pyval) (now : Z) : res AgentDecision :=
  let? price := py_item offer "price" in
  let? price := fmt price in
  let? fields := match offer with VDict kvs => Ok kvs | _ => Raise TypeError end in
  let context := VDict [("offer", VDict (dict_set "price" (VStr price) fields)); ("now", VInt now)]%string in
  let? conditions := py_get claims "conditions" in
  match evaluate context (py_or conditions (VBool true)) with
  | Raise RuleError => Ok (rejected "CONDITION_FAILED" "unevaluable condition")
  | Raise e => Raise e
  | Ok passes =>
      if truthy passes then Ok {| d_decision := AgentApproved; d_reason_code := None; d_detail := EmptyString; d_diff := [] |}
      else
        let? conditions := py_item claims "conditions" in
        let? condition := describe conditions in
        let? title := py_item offer "title" in
        Ok {| d_decision := AgentEscalated; d_reason_code := Some "CONDITION_FAILED"%string;
              d_detail := "fails the buyer's condition: " +:+ condition;
              d_diff := [("condition", VStr condition); ("offer_price", VStr price); ("offer", title)]%string |}
  end.

Definition gate_amount (claims limits offer : pyval) (amount : Decimal.dec) (spend : spend_row) (now : Z) : res AgentDecision :=
  let? spent := dec (VStr (sp_spent_total spend)) in
  let? reserved := dec (VStr (sp_reserved_amount spend)) in
  let? committed := dadd spent reserved in
  let? total := py_item limits "total_budget" in
  let? total := dec total in
  let? remaining := dsub total committed in
  let? over_budget := dlt remaining amount in
  if (over_budget : bool) then
    let? amount_text := fmt (VDec amount) in
    let? remaining_text := fmt (VDec remaining) in
    Ok {| d_decision := AgentRejected; d_reason_code := Some "BUDGET_EXCEEDED"%string;
          d_detail := amount_text +:+ " exceeds remaining budget " +:+ remaining_text;
          d_diff := [("amount", VStr amount_text); ("remaining_budget", VStr remaining_text)]%string |}
  else
    let? limit := py_item limits "max_per_txn" in
    let? limit_dec := dec limit in
    let? over := dlt limit_dec amount in
    if (over : bool) then
      let? amount_text := fmt (VDec amount) in
      let? over_by := dsub amount limit_dec in
      let? over_text := fmt (VDec over_by) in
      let? title := py_item offer "title" in
      Ok {| d_decision := AgentEscalated; d_reason_code := Some "AMOUNT_EXCEEDS_PER_TXN"%string;
            d_detail := amount_text +:+ " is over the " +:+ py_str limit +:+ " per-purchase limit";
            d_diff := [("amount", VStr amount_text); ("limit", limit); ("over_by", VStr over_text); ("offer", title)]%string |}
    else gate_conditions claims offer now.

Definition gate (claims intent offer : pyval) (spend : spend_row) (now : Z) : res AgentDecision :=
  let? amount := py_item intent "amount" in
  let? amount := dec amount in
  let? limits := py_item claims "limits" in
  let? scope := py_get_or claims "scope" (VDict []) in
  let? category := outside_scope scope "categories" (py_item offer "category") in
  match category with
  | Some (value, allowed) => Ok (rejected "CATEGORY_FORBIDDEN" (not_in_text value allowed))
  | None =>
      let? merchant := outside_scope scope "merchants" (py_item offer "merchant_id") in
      match merchant with
      | Some (value, allowed) => Ok (rejected "MERCHANT_NOT_ALLOWED" (not_in_text value allowed))
      | None =>
          let? currency := py_item intent "currency" in
          let? own := py_get_or claims "currency" (VStr "USD") in
          if negb (py_eq currency own) then
            let? shown := py_get claims "currency" in
            Ok (rejected "CONDITION_FAILED" ("currency " +:+ py_str currency +:+ " != " +:+ py_str shown)%string)
          else
            let? max_txn := py_get limits "max_txn" in
            let max_txn := py_or max_txn empty_dict in
            let? count := py_get max_txn "count" in
            let? exhausted := match count with VNone => Ok false | _ => let? n := py_int count in Ok (n <=? sp_txn_count spend) end in
            if (exhausted : bool) then
              Ok (rejected "LIMIT_EXHAUSTED" (int_str (sp_txn_count spend) +:+ " of " +:+ py_str count +:+ " purchases used")%string)
            else gate_amount claims limits offer amount spend now
      end
  end.
