(* ===== verification/AgentGate.v ===== *)
(** What the gate of the agent kernel decides (agent/kernel.py, gate): its
    decision table on the claims that agent/mandate.py issues, amounts being
    two-decimal texts. *)
From S2P Require Import Prelude PyTime Decimal Json JsonLogic Jose RappiClient AgentRules.

(** ** Two-decimal money *)

Lemma dec_cents c : 0 <= c < max_coef -> dec (VStr (cents_text c)) = Ok (cents c).
Proof.
  intros [H1 H2]. unfold dec. cbn [py_str]. rewrite decimal_of_cents_text by done. cbn [rbind]. by rewrite quantize_cents.
Qed.

Lemma dec_str_of_cents c : 0 <= c -> dec_str (cents c) = cents_text c.
Proof. intros Hc. unfold cents. rewrite dec_str_cents by done. reflexivity. Qed.

Lemma fmt_of_cents_text c : 0 <= c < max_coef -> fmt (VStr (cents_text c)) = Ok (cents_text c).
Proof. intros Hc. unfold fmt. rewrite dec_cents by done. cbn [rbind]. by rewrite dec_str_of_cents by lia. Qed.

Lemma fmt_dec_cents c : 0 <= c < max_coef -> fmt (VDec (cents c)) = Ok (cents_text c).
Proof.
  intros Hc. unfold fmt, dec. cbn [py_str]. rewrite dec_str_of_cents by lia. rewrite decimal_of_cents_text by lia.
  cbn [rbind]. rewrite quantize_cents by lia. cbn [rbind]. by rewrite <- dec_str_of_cents by lia.
Qed.

(** ** The decision table *)

Definition decided (d : AgentDecision) : decision_value * option string := (d_decision d, d_reason_code d).

(** No list, or a list that names the value. *)
Definition admits (allowed : list string) (value : string) : bool :=
  bool_decide (allowed = []) || existsb (String.eqb value) allowed.

Definition texts (l : list string) : pyval := VList (map VStr l).

Lemma py_in_texts v l : py_in (VStr v) (texts l) = Ok (existsb (String.eqb v) l).
Proof. cbn. f_equal. induction l as [|x l IH]; [done|]. cbn. by rewrite IH. Qed.

Lemma outside_texts scope key l v : py_get scope key = Ok (texts l) ->
  outside_scope scope key (Ok (VStr v)) = Ok (if admits l v then None else Some (VStr v, texts l)).
Proof.
  intros Hs. unfold outside_scope. rewrite Hs. cbn [rbind]. destruct l as [|x l]; [done|].
  change (truthy (texts (x :: l))) with true. cbn [rbind]. rewrite py_in_texts. cbn [rbind]. unfold admits.
  rewrite bool_decide_false by done. by destruct (existsb _ _).
Qed.

Lemma item_of_get v k x : py_get v k = Ok x -> py_item v k = Ok x \/ exists e, py_item v k = Raise e.
Proof. destruct v as [| | | | | | | |kvs]; try done. cbn. destruct (assoc k kvs); cbn; [by left|right; eauto]. Qed.

Section Gate.
Variables (claims limits scope max_txn conditions : pyval) (categories merchants : list string) (currency : string)
  (count : option Z) (total per_txn : Z).
Hypotheses (Hlimits : py_item claims "limits" = Ok limits) (Hscope : py_get_or claims "scope" (VDict []) = Ok scope)
  (Hcats : py_get scope "categories" = Ok (texts categories)) (Hmerch : py_get scope "merchants" = Ok (texts merchants))
  (Hcur : py_get_or claims "currency" (VStr "USD") = Ok (VStr currency)) (Hcur' : py_get claims "currency" = Ok (VStr currency))
  (Hmax : py_get limits "max_txn" = Ok max_txn)
  (Hcount : py_get (py_or max_txn empty_dict) "count" = Ok (match count with Some n => VInt n | None => VNone end))
  (Htotal : py_item limits "total_budget" = Ok (VStr (cents_text total)))
  (Hper : py_item limits "max_per_txn" = Ok (VStr (cents_text per_txn)))
  (Hcond : py_get claims "conditions" = Ok conditions).
Variables (intent : pyval) (amount : Z) (intent_currency : string).
Hypotheses (Hamount : py_item intent "amount" = Ok (VStr (cents_text amount)))
  (Hic : py_item intent "currency" = Ok (VStr intent_currency)).
Variables (fields : pydict) (category merchant : string) (title : pyval) (price : Z).
Let offer := VDict fields.
Hypotheses (Hocat : py_item offer "category" = Ok (VStr category)) (Homer : py_item offer "merchant_id" = Ok (VStr merchant))
  (Htitle : py_item offer "title" = Ok title) (Hprice : py_item offer "price" = Ok (VStr (cents_text price))).
Variables (spent reserved txn_count : Z).
Let spend : spend_row := {| sp_spent_total := cents_text spent; sp_reserved_amount := cents_text reserved; sp_txn_count := txn_count |}.
Hypotheses (Ra : 0 <= amount < max_coef) (Rt : 0 <= total < max_coef) (Rp : 0 <= per_txn < max_coef) (Rpr : 0 <= price < max_coef)
  (Rs : 0 <= spent) (Rr : 0 <= reserved) (Rsr : spent + reserved <= total).

(** The buyer's conditions on this offer, its price as a two-decimal text. *)
Definition conditions_hold (conditions : pyval) (fields : pydict) (price now : Z) : res pyval :=
  evaluate (VDict [("offer", VDict (dict_set "price" (VStr (cents_text price)) fields)); ("now", VInt now)]%string)
    (py_or conditions (VBool true)).

Lemma gate_amount_decides now :
  (let? d := gate_amount claims limits offer (cents amount) spend now in Ok (decided d)) =
  if total - (spent + reserved) <? amount then Ok (AgentRejected, Some "BUDGET_EXCEEDED"%string)
  else if per_txn <? amount then Ok (AgentEscalated, Some "AMOUNT_EXCEEDS_PER_TXN"%string)
  else let? d := gate_conditions claims offer now in Ok (decided d).
Proof using Htotal Hper Htitle Ra Rt Rp Rs Rr Rsr.
  unfold gate_amount, spend. cbn [sp_spent_total sp_reserved_amount].
  rewrite !dec_cents by lia. cbn [rbind]. rewrite dadd_cents by lia. cbn [rbind]. rewrite Htotal. cbn [rbind].
  rewrite dec_cents by lia. cbn [rbind]. rewrite dsub_cents by lia. cbn [rbind]. rewrite dlt_cents. cbn [rbind].
  destruct (Z.ltb_spec (total - (spent + reserved)) amount).
  - rewrite !fmt_dec_cents by lia. reflexivity.
  - rewrite Hper. cbn [rbind]. rewrite dec_cents by lia. cbn [rbind]. rewrite dlt_cents. cbn [rbind].
    destruct (Z.ltb_spec per_txn amount); [|done]. rewrite fmt_dec_cents by lia. cbn [rbind]. rewrite dsub_cents by lia. cbn [rbind].
    rewrite fmt_dec_cents by lia. cbn [rbind]. rewrite Htitle. reflexivity.
Qed.

(** The amount, then the buyer's conditions. *)
Lemma gate_amount_table now :
  (let? d := gate_amount claims limits offer (cents amount) spend now in Ok (decided d)) =
  if total - (spent + reserved) <? amount then Ok (AgentRejected, Some "BUDGET_EXCEEDED"%string)
  else if per_txn <? amount then Ok (AgentEscalated, Some "AMOUNT_EXCEEDS_PER_TXN"%string)
  else match conditions_hold conditions fields price now with
       | Ok passes => if truthy passes then Ok (AgentApproved, None)
                      else let? _ := py_item claims "conditions" in
                           let? _ := describe conditions in Ok (AgentEscalated, Some "CONDITION_FAILED"%string)
       | Raise RuleError => Ok (AgentRejected, Some "CONDITION_FAILED"%string)
       | Raise e => Raise e
       end.
Proof using Htotal Hper Htitle Hprice Hcond Ra Rt Rp Rpr Rs Rr Rsr.
  rewrite gate_amount_decides. destruct (_ <? amount); [done|]. destruct (per_txn <? amount); [done|].
  unfold gate_conditions. rewrite Hprice. cbn [rbind]. rewrite fmt_of_cents_text by lia. cbn [rbind].
  change (match offer with VDict kvs => Ok kvs | _ => Raise TypeError end) with (@Ok pydict fields). cbn [rbind]. rewrite Hcond. cbn [rbind].
  unfold conditions_hold. destruct (evaluate _ _) as [passes|e]; [|by destruct e]. destruct (truthy passes); [done|].
  destruct (item_of_get claims "conditions" conditions Hcond) as [Hi|[e Hi]].
  - rewrite Hi. cbn [rbind]. destruct (describe conditions); cbn [rbind]; [|done]. by rewrite Htitle.
  - by rewrite Hi.
Qed.

(** C24: The whole table, in the order of the checks. *)
Theorem gate_exact now :
  (let? d := gate claims intent offer spend now in Ok (decided d)) =
  if negb (admits categories category) then Ok (AgentRejected, Some "CATEGORY_FORBIDDEN"%string)
  else if negb (admits merchants merchant) then Ok (AgentRejected, Some "MERCHANT_NOT_ALLOWED"%string)
  else if negb (String.eqb intent_currency currency) then Ok (AgentRejected, Some "CONDITION_FAILED"%string)
  else if match count with Some n => n <=? txn_count | None => false end then Ok (AgentRejected, Some "LIMIT_EXHAUSTED"%string)
  else if total - (spent + reserved) <? amount then Ok (AgentRejected, Some "BUDGET_EXCEEDED"%string)
  else if per_txn <? amount then Ok (AgentEscalated, Some "AMOUNT_EXCEEDS_PER_TXN"%string)
  else match conditions_hold conditions fields price now with
       | Ok passes => if truthy passes then Ok (AgentApproved, None)
                      else let? _ := py_item claims "conditions" in
                           let? _ := describe conditions in Ok (AgentEscalated, Some "CONDITION_FAILED"%string)
       | Raise RuleError => Ok (AgentRejected, Some "CONDITION_FAILED"%string)
       | Raise e => Raise e
       end.
Proof using All.
  unfold gate. rewrite Hamount. cbn [rbind]. rewrite dec_cents by lia. cbn [rbind]. rewrite Hlimits, Hscope. cbn [rbind].
  rewrite Hocat, Homer. rewrite (outside_texts _ _ _ _ Hcats). cbn [rbind]. destruct (admits categories category); cbn [negb]; [|done].
  rewrite (outside_texts _ _ _ _ Hmerch). cbn [rbind]. destruct (admits merchants merchant); cbn [negb]; [|done].
  rewrite Hic, Hcur. cbn [rbind]. change (py_eq (VStr intent_currency) (VStr currency)) with (String.eqb intent_currency currency).
  destruct (String.eqb intent_currency currency); cbn [negb]; [|by rewrite Hcur'].
  rewrite Hmax. cbn [rbind]. rewrite Hcount. cbn [rbind].
  destruct count as [n|]; cbn [py_int rbind]; [change (sp_txn_count spend) with txn_count; destruct (n <=? txn_count); [done|]|];
    apply gate_amount_table.
Qed.
End Gate.
