(* ===== verification/AgentBudget.v ===== *)
(** The budget of the agent kernel (agent/kernel.py: chain, reserve_chain,
    _unreserve, release, settle) over the mandates table
    (aval/contracts/fixtures/schema.sql).  The connection commits every
    statement by itself (agent/db.py, Conn): each SELECT and each UPDATE is one
    statement of a program, and other sessions run between them. *)
From S2P Require Import Prelude PyTime Decimal Json JsonLogic JsonParse Models Jose RappiClient Prog AgentRules.

(** The columns the agent lane reads or writes. *)
Record mandate_row : Type := {
  mr_user_id : string;
  mr_agent_id : string;
  mr_token : option string;
  mr_created_at : string;
  mr_status : string;
  mr_claims : string;
  mr_reserved_amount : string;
  mr_spent_total : string;
  mr_txn_count : Z;
  mr_parent_jti : option string;
  mr_updated_at : string;
}.

(** The table, and the clock in microseconds, which other programs move. *)
Record db : Type := { mandates : gmap string mandate_row; clock_us : Z }.

Definition set_mandates (m : gmap string mandate_row) (d : db) : db := {| mandates := m; clock_us := clock_us d |}.

Section Budget.
(** [repr] of the floats a JSON text may hold. *)
Variable float_repr : string -> string.

Definition _parse_json (val : string) : res pyval := loads float_repr val.

(** [datetime.now(UTC).replace(microsecond=0).isoformat()] *)
Definition now_iso (d : db) : string := isoformat (seconds (clock_us d / 1000000)).

(** [SELECT ... WHERE jti=?] and [UPDATE ... WHERE jti=? AND ...], the row count. *)
Definition select_mandate (jti : string) : st db (option mandate_row) := gets (fun d => mandates d !! jti).
Definition update_mandate (jti : string) (guard : mandate_row -> bool) (f : string -> mandate_row -> mandate_row) : st db Z := fun d =>
  match mandates d !! jti with
  | Some row => if guard row then (Ok 1, set_mandates (<[jti := f (now_iso d) row]> (mandates d)) d) else (Ok 0, d)
  | None => (Ok 0, d)
  end.

Definition with_reserved (reserved : string) (row : mandate_row) : mandate_row :=
  {| mr_user_id := mr_user_id row; mr_agent_id := mr_agent_id row; mr_token := mr_token row; mr_created_at := mr_created_at row;
     mr_status := mr_status row; mr_claims := mr_claims row; mr_reserved_amount := reserved; mr_spent_total := mr_spent_total row;
     mr_txn_count := mr_txn_count row; mr_parent_jti := mr_parent_jti row; mr_updated_at := mr_updated_at row |}.
Definition stamped (now : string) (row : mandate_row) : mandate_row :=
  {| mr_user_id := mr_user_id row; mr_agent_id := mr_agent_id row; mr_token := mr_token row; mr_created_at := mr_created_at row;
     mr_status := mr_status row; mr_claims := mr_claims row; mr_reserved_amount := mr_reserved_amount row; mr_spent_total := mr_spent_total row;
     mr_txn_count := mr_txn_count row; mr_parent_jti := mr_parent_jti row; mr_updated_at := now |}.

(** [chain]: one SELECT per mandate of the ancestry.  [fuel] bounds the [while]
    loop; see [chain_terminates]. *)
Fixpoint chain_from (fuel : nat) (current : option string) (seen : list string) : prog db (list string) :=
  match fuel with
  | O => praise RuntimeError
  | S fuel =>
      match or_str current None with
      | None => pret seen
      | Some jti =>
          if bool_decide (jti ∈ seen) then pret seen
          else row <~ atomic (select_mandate jti) ; chain_from fuel (row ≫= mr_parent_jti) (seen ++ [jti])
      end
  end.
Definition chain (fuel : nat) (mandate_jti : string) : prog db (list string) := chain_from fuel (Some mandate_jti) [].

(** [dec(claims["limits"]["total_budget"])] *)
Definition total_budget (claims : pyval) : res Decimal.dec :=
  let? limits := py_item claims "limits" in
  let? total := py_item limits "total_budget" in
  dec total.

(** [max(Decimal("0"), dec(reserved) - dec(amount))] as text *)
Definition freed_text (reserved amount : string) : res string :=
  let? r := dec (VStr reserved) in
  let? a := dec (VStr amount) in
  let? rest := dsub r a in
  let? positive := dlt dzero rest in
  fmt (VDec (if (positive : bool) then rest else dzero)).

(** [for jti in jtis]: read the row and, when there is one, write what it
    becomes, whatever it has become meanwhile. *)
Fixpoint rewrite_each (change : mandate_row -> res (string -> mandate_row -> mandate_row)) (jtis : list string) : prog db unit :=
  match jtis with
  | [] => pret tt
  | jti :: rest =>
      row <~ atomic (select_mandate jti) ;
      _ <~ match row with
           | Some row => f <~ plift (change row) ; atomic (update_mandate jti (fun _ => true) f)
           | None => pret 0
           end ;
      rewrite_each change rest
  end.

Definition unreserved_row (amount : string) (row : mandate_row) : res (string -> mandate_row -> mandate_row) :=
  let? freed := freed_text (mr_reserved_amount row) amount in Ok (fun _ => with_reserved freed).

Definition _unreserve (jtis : list string) (amount : string) : prog db unit := rewrite_each (unreserved_row amount) jtis.

Definition release (fuel : nat) (mandate_jti amount : string) : prog db unit :=
  jtis <~ chain fuel mandate_jti ; _unreserve jtis amount.

(** What the reservation of one mandate would commit, and the new reserved text. *)
Definition exceeds (row : mandate_row) (amount : string) : res bool :=
  let? claims := _parse_json (mr_claims row) in
  let? spent := dec (VStr (mr_spent_total row)) in
  let? reserved := dec (VStr (mr_reserved_amount row)) in
  let? held := dadd spent reserved in
  let? a := dec (VStr amount) in
  let? committed := dadd held a in
  let? total := total_budget claims in
  dlt total committed.
Definition added_text (row : mandate_row) (amount : string) : res string :=
  let? reserved := dec (VStr (mr_reserved_amount row)) in
  let? a := dec (VStr amount) in
  let? sum := dadd reserved a in
  fmt (VDec sum).

(** The compare-and-swap: the row is as it was read. *)
Definition unchanged_row (read row : mandate_row) : bool :=
  String.eqb (mr_status row) "active" && String.eqb (mr_reserved_amount row) (mr_reserved_amount read)
  && String.eqb (mr_spent_total row) (mr_spent_total read) && (mr_txn_count row =? mr_txn_count read).

Fixpoint reserve_each (jtis done : list string) (amount : string) : prog db bool :=
  match jtis with
  | [] => pret true
  | jti :: rest =>
      let undone := _ <~ _unreserve done amount ; pret false in
      row <~ atomic (select_mandate jti) ;
      match row with
      | None => undone
      | Some row =>
          if negb (String.eqb (mr_status row) "active") then undone
          else
            over <~ plift (exceeds row amount) ;
            if (over : bool) then undone
            else
              reserved <~ plift (added_text row amount) ;
              updated <~ atomic (update_mandate jti (unchanged_row row) (fun now r => stamped now (with_reserved reserved r))) ;
              if updated =? 0 then undone else reserve_each rest (done ++ [jti]) amount
      end
  end.

Definition reserve_chain (fuel : nat) (mandate_jti amount : string) : prog db bool :=
  jtis <~ chain fuel mandate_jti ; reserve_each jtis [] amount.

(** The row after one settlement. *)
Definition settled_row (amount : string) (row : mandate_row) : res (string -> mandate_row -> mandate_row) :=
  let? freed := freed_text (mr_reserved_amount row) amount in
  let? spent := dec (VStr (mr_spent_total row)) in
  let? a := dec (VStr amount) in
  let? spent := dadd spent a in
  let? claims := _parse_json (mr_claims row) in
  let? total := total_budget claims in
  let? exhausted := dle total spent in
  let? spent_text := fmt (VDec spent) in
  Ok (fun now r => {| mr_user_id := mr_user_id r; mr_agent_id := mr_agent_id r; mr_token := mr_token r; mr_created_at := mr_created_at r;
                      mr_status := if (exhausted : bool) then "exhausted" else mr_status row; mr_claims := mr_claims r;
                      mr_reserved_amount := freed; mr_spent_total := spent_text; mr_txn_count := mr_txn_count row + 1;
                      mr_parent_jti := mr_parent_jti r; mr_updated_at := now |}).

Definition settle (fuel : nat) (mandate_jti amount : string) : prog db unit :=
  jtis <~ chain fuel mandate_jti ; rewrite_each (settled_row amount) jtis.
End Budget.
