(* ===== verification/AgentBudgetFacts.v ===== *)
(** The budget of the agent kernel, row by row: what the arithmetic of a
    reservation, a release and a settlement does to amounts in cents, and the
    walk up the ancestry of a mandate. *)
From S2P Require Import Prelude PyTime Decimal Json JsonLogic JsonParse Models Jose RappiClient Prog AgentRules AgentGate AgentBudget.

Section Facts.
Variable float_repr : string -> string.

(** ** Rows *)

Lemma dlt_dzero neg c : dlt dzero (DFin neg c (-2)) = Ok (0 <? signed neg c).
Proof.
  unfold dlt, dcompare, dzero. change (Z.min 0 (-2)) with (-2). change (signed false 0 * 10 ^ (0 - -2)) with 0.
  change (10 ^ (-2 - -2)) with 1. rewrite Z.mul_1_r. unfold Z.ltb. by destruct (0 ?= signed neg c).
Qed.

(** Amounts below 10^24 units: no sum reaches the precision of [Decimal]. *)
Definition small (c : Z) : Prop := 0 <= c < 10 ^ 26.

Record money (row : mandate_row) (reserved spent total : Z) : Prop := {
  m_reserved : mr_reserved_amount row = cents_text reserved;
  m_spent : mr_spent_total row = cents_text spent;
  m_total : (let? claims := _parse_json float_repr (mr_claims row) in total_budget claims) = Ok (cents total);
  m_small : small reserved /\ small spent /\ small total;
}.

Lemma small_coef c : small c -> 0 <= c < max_coef.
Proof. unfold small. rewrite max_coef_value. lia. Qed.

Lemma small_sum3 a b c : small a -> small b -> small c -> 0 <= a + b + c < max_coef.
Proof. unfold small. rewrite max_coef_value. lia. Qed.

Section Row.
Variables (row : mandate_row) (reserved spent total a : Z).
Hypotheses (Hm : money row reserved spent total) (Ha : small a).

Lemma exceeds_exact : exceeds float_repr row (cents_text a) = Ok (total <? spent + reserved + a).
Proof using Hm Ha.
  destruct Hm as [Hr Hs Ht (H1 & H2 & H3)]. unfold exceeds. rewrite Hr, Hs.
  pose proof (small_sum3 spent reserved a H2 H1 Ha) as Hb.
  destruct (_parse_json float_repr (mr_claims row)) as [claims|]; cbn [rbind] in *; [|done].
  rewrite !dec_cents by (by apply small_coef). cbn [rbind]. unfold small in *. rewrite dadd_cents by lia. cbn [rbind].
  rewrite dadd_cents by lia. cbn [rbind]. rewrite Ht. cbn [rbind]. apply dlt_cents.
Qed.

Lemma added_exact : added_text row (cents_text a) = Ok (cents_text (reserved + a)).
Proof using Hm Ha.
  destruct Hm as [Hr Hs Ht (H1 & H2 & H3)]. unfold added_text. rewrite Hr.
  pose proof (small_sum3 0 reserved a ltac:(unfold small; lia) H1 Ha) as Hb.
  rewrite !dec_cents by (by apply small_coef). cbn [rbind]. unfold small in *. rewrite dadd_cents by lia. cbn [rbind].
  apply fmt_dec_cents. lia.
Qed.

Lemma freed_exact : freed_text (mr_reserved_amount row) (cents_text a) = Ok (cents_text (Z.max 0 (reserved - a))).
Proof using Hm Ha.
  destruct Hm as [Hr Hs Ht (H1 & H2 & H3)]. unfold freed_text. rewrite Hr.
  rewrite !dec_cents by (by apply small_coef). cbn [rbind]. pose proof (small_coef _ H1). pose proof (small_coef _ Ha).
  assert (fmt (VDec dzero) = Ok (cents_text 0)) as Hzero by reflexivity.
  destruct (Z.le_gt_cases a reserved) as [Hle|Hgt].
  - rewrite dsub_cents by lia. cbn [rbind]. unfold cents at 1 2. rewrite dlt_dzero. cbn [signed]. fold (cents (reserved - a)).
    cbn [rbind]. destruct (Z.ltb_spec 0 (reserved - a)).
    + rewrite fmt_dec_cents by lia. by rewrite Z.max_r by lia.
    + by rewrite Z.max_l by lia.
  - assert (dsub (cents reserved) (cents a) = Ok (DFin true (a - reserved) (-2))) as ->.
    { unfold dsub, dneg, cents, dadd, add_in, dfixed. cbn -[max_coef]. rewrite !Z.mul_1_r. change (reserved + - a) with (reserved - a).
      destruct (Z.eqb_spec (reserved - a) 0); [lia|]. destruct (Z.ltb_spec (reserved - a) 0); [|lia].
      unfold dfix. rewrite Z.abs_neq by lia. replace (- (reserved - a)) with (a - reserved) by lia.
      destruct (Z.ltb_spec (a - reserved) max_coef); [done|lia]. }
    cbn [rbind]. rewrite dlt_dzero. cbn [signed]. destruct (Z.ltb_spec 0 (- (a - reserved))); [lia|].
    cbn [rbind]. by rewrite Z.max_l by lia.
Qed.

Lemma settled_exact : exists status,
  settled_row float_repr (cents_text a) row = Ok (fun now r =>
    {| mr_user_id := mr_user_id r; mr_agent_id := mr_agent_id r; mr_token := mr_token r; mr_created_at := mr_created_at r;
       mr_status := status; mr_claims := mr_claims r; mr_reserved_amount := cents_text (Z.max 0 (reserved - a));
       mr_spent_total := cents_text (spent + a); mr_txn_count := mr_txn_count row + 1; mr_parent_jti := mr_parent_jti r;
       mr_updated_at := now |}) /\ status = (if total <=? spent + a then "exhausted"%string else mr_status row).
Proof using Hm Ha.
  unfold settled_row. rewrite freed_exact. cbn [rbind]. destruct Hm as [Hr Hs Ht (H1 & H2 & H3)]. rewrite Hs.
  pose proof (small_sum3 0 spent a ltac:(unfold small; lia) H2 Ha) as Hb.
  rewrite !dec_cents by (by apply small_coef). cbn [rbind]. unfold small in *. rewrite dadd_cents by lia. cbn [rbind].
  destruct (_parse_json float_repr (mr_claims row)) as [claims|]; cbn [rbind] in *; [|done]. rewrite Ht. cbn [rbind].
  rewrite dle_cents. cbn [rbind]. rewrite fmt_dec_cents by lia. cbn [rbind]. by eexists.
Qed.
End Row.
End Facts.

(** ** The ancestry *)

Definition parent_in (m : gmap string mandate_row) (jti : string) : option string := m !! jti ≫= mr_parent_jti.

(** What [chain] computes, on the table alone. *)
Fixpoint lineage_from (m : gmap string mandate_row) (fuel : nat) (current : option string) (seen : list string) : res (list string) :=
  match fuel with
  | O => Raise RuntimeError
  | S fuel =>
      match or_str current None with
      | None => Ok seen
      | Some jti => if bool_decide (jti ∈ seen) then Ok seen else lineage_from m fuel (parent_in m jti) (seen ++ [jti])
      end
  end.

Lemma run_chain_from fuel current seen d :
  run_prog (chain_from fuel current seen) d = (lineage_from (mandates d) fuel current seen, d).
Proof.
  revert current seen. induction fuel as [|fuel IH]; intros current seen; cbn [chain_from lineage_from]; [done|].
  destruct (or_str current None) as [jti|]; [|done]. destruct (bool_decide (jti ∈ seen)); [done|]. apply IH.
Qed.

Lemma lineage_ext m m' fuel current seen : (forall j, parent_in m j = parent_in m' j) ->
  lineage_from m fuel current seen = lineage_from m' fuel current seen.
Proof.
  intros Hp. revert current seen. induction fuel as [|fuel IH]; intros current seen; cbn; [done|].
  destruct (or_str current None) as [jti|]; [|done]. by rewrite Hp, IH.
Qed.

(** A path along parents, without repetition. *)
Definition path_ok (m : gmap string mandate_row) (l : list string) : Prop :=
  NoDup l /\ forall i x y, l !! i = Some x -> l !! S i = Some y -> parent_in m x = Some y.
(** Nothing more to visit. *)
Definition complete (m : gmap string mandate_row) (l : list string) : Prop :=
  forall x, last l = Some x -> match or_str (parent_in m x) None with Some y => y ∈ l | None => True end.

Lemma path_snoc m l x : path_ok m l -> x ∉ l -> (forall y, last l = Some y -> parent_in m y = Some x) -> path_ok m (l ++ [x]).
Proof.
  intros [Hnd Hp] Hx Hl. split.
  - apply NoDup_app. split; [done|]. split; [by intros y Hy ->%list_elem_of_singleton|apply NoDup_singleton].
  - intros i a b Ha Hb. assert (S i < length (l ++ [x]))%nat as Hlt by (by eapply lookup_lt_Some). rewrite length_app in Hlt. cbn in Hlt.
    destruct (decide (S i = length l)) as [E|E].
    + rewrite lookup_app_r in Hb by lia. rewrite E, Nat.sub_diag in Hb. injection Hb as <-. apply Hl.
      rewrite lookup_app_l in Ha by lia. rewrite last_lookup. by replace (Nat.pred (length l)) with i by lia.
    + rewrite lookup_app_l in Ha, Hb by lia. by eapply Hp.
Qed.

Lemma lineage_spec m fuel current seen :
  path_ok m seen -> (forall x, last seen = Some x -> parent_in m x = current) ->
  (size (dom m ∖ list_to_set seen) + 2 <= fuel)%nat ->
  exists l, lineage_from m fuel current seen = Ok l /\ path_ok m l /\ complete m l /\ seen `prefix_of` l /\
            (seen = [] -> match or_str current None with Some x => head l = Some x | None => l = [] end).
Proof.
  revert current seen. induction fuel as [|fuel IH]; intros current seen Hpath Hlast Hfuel; [lia|]. cbn [lineage_from].
  destruct (or_str current None) as [jti|] eqn:Ecur.
  2:{ exists seen. split; [done|]. split; [done|]. split; [|done]. intros x Hx. by rewrite (Hlast x Hx), Ecur. }
  assert (current = Some jti) as -> by (destruct current as [c|]; cbn in Ecur; [destruct (truthy_str c); congruence|done]).
  destruct (bool_decide (jti ∈ seen)) eqn:Ein.
  - apply bool_decide_eq_true in Ein. exists seen. split; [done|]. split; [done|]. split; [|split; [done|by intros ->; set_solver]].
    intros x Hx. by rewrite (Hlast x Hx), Ecur.
  - apply bool_decide_eq_false in Ein.
    assert (path_ok m (seen ++ [jti])) as Hpath' by (by apply path_snoc).
    destruct (decide (jti ∈ dom m)) as [Hd|Hd].
    + destruct (IH (parent_in m jti) (seen ++ [jti])) as (l & Hl & Hp & Hc & Hpre & _); [done| | |].
      * intros x. rewrite last_snoc. by intros [= <-].
      * assert (size (dom m ∖ list_to_set (seen ++ [jti])) < size (dom m ∖ list_to_set seen))%nat; [|lia].
        apply subset_size. rewrite list_to_set_app_L. set_solver.
      * exists l. rewrite Hl. split; [done|]. split; [done|]. split; [done|]. split; [etransitivity; [|exact Hpre]; by apply prefix_app_r|].
        intros ->. destruct Hpre as [t ->]. done.
    + destruct fuel as [|fuel]; [lia|]. cbn [lineage_from]. assert (parent_in m jti = None) as Hpar.
      { unfold parent_in. by apply not_elem_of_dom in Hd as ->. }
      rewrite Hpar. cbn. exists (seen ++ [jti]). split; [done|]. split; [done|]. split; [|split; [by apply prefix_app_r|by intros ->]].
      intros x. rewrite last_snoc. intros [= <-]. by rewrite Hpar.
Qed.

(** [chain] ends: with fuel for two iterations more than there are mandates it
    returns, changes nothing, and lists the mandate and its ancestors in order,
    each once, up to one without a parent or the start of a cycle. *)
Theorem chain_terminates fuel jti d : (size (mandates d) + 2 <= fuel)%nat ->
  exists l, run_prog (chain fuel jti) d = (Ok l, d) /\ path_ok (mandates d) l /\ complete (mandates d) l /\
            (jti <> EmptyString -> head l = Some jti).
Proof.
  intros Hf. destruct (lineage_spec (mandates d) fuel (Some jti) []) as (l & Hl & Hp & Hc & _ & Hh).
  - split; [constructor|]. by intros i x y [=].
  - done.
  - rewrite list_to_set_nil, difference_empty_L. by rewrite size_dom.
  - exists l. unfold chain. rewrite run_chain_from, Hl. split; [done|]. split; [done|]. split; [done|].
    intros Hj. specialize (Hh eq_refl). by destruct jti.
Qed.
