(* ===== verification/AgentSpending.v ===== *)
(** Spending under a mandate, one call after another: a reservation is all or
    nothing over the ancestry, and in every history of reservations,
    settlements and releases the recorded and reserved amounts are exactly
    those of the history and stay within every budget. *)
From S2P Require Import Prelude PyTime Decimal Json JsonLogic JsonParse Models Jose RappiClient Prog AgentRules AgentGate AgentBudget AgentBudgetFacts.

Lemma forallb_agree {A} (p q : A -> bool) l : (forall x, x ∈ l -> p x = q x) -> forallb p l = forallb q l.
Proof. induction l as [|x l IH]; cbn; intros H; [done|]. rewrite H by left. rewrite IH; [done|]. intros y Hy. apply H. by right. Qed.

(** ** The loop, run alone *)

Lemma run_rewrite_each change h l d : NoDup l ->
  (forall j row, j ∈ l -> mandates d !! j = Some row -> change row = Ok (h row)) ->
  exists d', run_prog (rewrite_each change l) d = (Ok tt, d') /\ clock_us d' = clock_us d /\
    forall j, mandates d' !! j = if bool_decide (j ∈ l) then (fun row => h row (now_iso d) row) <$> mandates d !! j else mandates d !! j.
Proof.
  intros Hnd Hc. revert d Hc. induction Hnd as [|jti l Hj _ IH]; intros d Hc; [by exists d|].
  cbn [rewrite_each]. unfold atomic, select_mandate, gets. cbn [pbind run_prog].
  destruct (mandates d !! jti) as [row|] eqn:E.
  - rewrite (Hc jti row) by (done || left). cbn [plift pbind run_prog]. unfold update_mandate. rewrite E. cbn [pbind run_prog].
    destruct (IH (set_mandates (<[jti := h row (now_iso d) row]> (mandates d)) d)) as (d' & Hrun & Hclock & Hm).
    { intros j r Hin. cbn. rewrite lookup_insert_ne by (by intros ->). intros Hr. apply (Hc j); [by right|done]. }
    exists d'. rewrite Hrun. split; [done|]. split; [done|]. intros j. rewrite Hm. cbn [mandates set_mandates].
    destruct (decide (j = jti)) as [->|Hne].
    + rewrite !bool_decide_false by done. rewrite bool_decide_true by (by left). by rewrite lookup_insert_eq, E.
    + rewrite lookup_insert_ne by done. rewrite (bool_decide_ext (j ∈ l) (j ∈ jti :: l)); [done|].
      rewrite elem_of_cons. naive_solver.
  - cbn [pret pbind run_prog]. destruct (IH d) as (d' & Hrun & Hclock & Hm); [intros j r Hin; apply Hc; by right|].
    exists d'. rewrite Hrun. split; [done|]. split; [done|]. intros j. rewrite Hm.
    destruct (decide (j = jti)) as [->|Hne].
    + rewrite bool_decide_false by done. rewrite bool_decide_true by (by left). by rewrite E.
    + rewrite (bool_decide_ext (j ∈ l) (j ∈ jti :: l)); [done|]. rewrite elem_of_cons. naive_solver.
Qed.

Section Spending.
Variable float_repr : string -> string.
Abbreviation money := (money float_repr).

(** ** Amounts of a row *)

Definition cents_of (r : res Decimal.dec) : Z := match r with Ok (DFin _ c _) => c | _ => 0 end.
Definition held (row : mandate_row) : Z := cents_of (dec (VStr (mr_reserved_amount row))).
Definition spent_of (row : mandate_row) : Z := cents_of (dec (VStr (mr_spent_total row))).
Definition total_of (row : mandate_row) : Z :=
  cents_of (let? claims := _parse_json float_repr (mr_claims row) in total_budget claims).
Definition row_ok (row : mandate_row) : Prop := money row (held row) (spent_of row) (total_of row).

Lemma money_amounts row r s t : money row r s t -> held row = r /\ spent_of row = s /\ total_of row = t.
Proof.
  intros [Hr Hs Ht (H1 & H2 & H3)]. unfold held, spent_of, total_of. rewrite Hr, Hs, Ht, !dec_cents by (by apply small_coef). done.
Qed.

Lemma money_row_ok row r s t : money row r s t -> row_ok row.
Proof. intros Hm. unfold row_ok. by destruct (money_amounts row r s t Hm) as (-> & -> & ->). Qed.

(** A row up to the time it was last written. *)
Definition erase (row : mandate_row) : mandate_row := stamped EmptyString row.

Definition admits_row (a : Z) (row : mandate_row) : bool :=
  String.eqb (mr_status row) "active" && (spent_of row + held row + a <=? total_of row).
Definition admits_at (a : Z) (m : gmap string mandate_row) (jti : string) : bool :=
  match m !! jti with Some row => admits_row a row | None => false end.

(** The row with [a] more, or less, reserved. *)
Definition moved_by (a : Z) (row : mandate_row) : mandate_row := with_reserved (cents_text (held row + a)) row.

Definition table_ok (m : gmap string mandate_row) : Prop := forall j row, m !! j = Some row -> row_ok row.

Lemma moved_money a row : row_ok row -> small (held row + a) -> money (moved_by a row) (held row + a) (spent_of row) (total_of row).
Proof. intros [Hr Hs Ht (H1 & H2 & H3)] Ha. by split. Qed.

(** Giving [a] back on mandates that hold it. *)
Lemma run_unreserve l a d : NoDup l -> small a -> table_ok (mandates d) ->
  (forall j row, j ∈ l -> mandates d !! j = Some row -> a <= held row) ->
  exists d', run_prog (_unreserve l (cents_text a)) d = (Ok tt, d') /\ clock_us d' = clock_us d /\
    forall j, mandates d' !! j = if bool_decide (j ∈ l) then moved_by (- a) <$> mandates d !! j else mandates d !! j.
Proof.
  intros Hnd Ha Hok Hheld. unfold _unreserve.
  destruct (run_rewrite_each (unreserved_row (cents_text a)) (fun row _ => with_reserved (cents_text (Z.max 0 (held row - a)))) l d Hnd)
    as (d' & Hrun & Hclock & Hm).
  { intros j row _ Hrow. unfold unreserved_row. by rewrite (freed_exact float_repr row _ _ _ a (Hok j row Hrow) Ha). }
  exists d'. split; [done|]. split; [done|]. intros j. rewrite Hm. destruct (bool_decide (j ∈ l)) eqn:E; [|done].
  apply bool_decide_eq_true in E. destruct (mandates d !! j) as [row|] eqn:Er; [|done]. cbn.
  unfold moved_by. rewrite Z.max_r by (specialize (Hheld j row E Er); lia). done.
Qed.

Lemma moved_back a row now : row_ok row -> small (held row + a) ->
  erase (moved_by (- a) (stamped now (moved_by a row))) = erase row.
Proof.
  intros Hok Ha. unfold moved_by at 1.
  assert (held (stamped now (moved_by a row)) = held row + a) as ->.
  { eapply (money_amounts (stamped now (moved_by a row))). by destruct (moved_money a row Hok Ha). }
  replace (held row + a + - a) with (held row) by lia. destruct Hok as [Hr _ _ _]. unfold erase, stamped, with_reserved, moved_by. cbn.
  by rewrite <- Hr.
Qed.

(** Two tables that differ only in when their rows were last written, [f]
    applied to the rows of [l] in the first. *)
Definition matches (f : mandate_row -> mandate_row) (l : list string) (m m' : gmap string mandate_row) : Prop :=
  forall j, erase <$> m' !! j = erase <$> (if bool_decide (j ∈ l) then f <$> m !! j else m !! j).

Lemma matches_same m m' f : (forall j, m' !! j = m !! j) -> matches f [] m m'.
Proof. intros Hm j. rewrite bool_decide_false by set_solver. by rewrite Hm. Qed.

Section Reserve.
Variable a : Z.
Hypothesis Ha : small a.

Lemma admitted_small row : row_ok row -> admits_row a row = true -> small (held row + a).
Proof using Ha.
  intros [_ _ _ (H1 & H2 & H3)] Had. unfold admits_row in Had. apply andb_prop in Had as [_ Hle%Z.leb_le]. unfold small in *. lia.
Qed.

Lemma table_ok_insert m j row : table_ok m -> row_ok row -> table_ok (<[j := row]> m).
Proof. intros Hm Hr k r. destruct (decide (k = j)) as [->|Hne]; [rewrite lookup_insert_eq; by intros [= <-]|rewrite lookup_insert_ne by done; apply Hm]. Qed.

(** The loop of [reserve_chain] over [l] when [done_l] has been reserved. *)
Lemma run_reserve_each l done_l d : NoDup (done_l ++ l) -> table_ok (mandates d) ->
  (forall j row, j ∈ done_l -> mandates d !! j = Some row -> a <= held row) ->
  forall b, b = forallb (admits_at a (mandates d)) l ->
  exists d', run_prog (reserve_each float_repr l done_l (cents_text a)) d = (Ok b, d') /\ clock_us d' = clock_us d /\
    if b then matches (moved_by a) l (mandates d) (mandates d') else matches (moved_by (- a)) done_l (mandates d) (mandates d').
Proof using Ha.
  revert done_l d. induction l as [|jti l IH]; intros done_l d Hnd Hok Hheld b Hb.
  { subst b. exists d. split; [done|]. split; [done|]. by apply matches_same. }
  assert (Hgive : exists d', run_prog (_ <~ _unreserve done_l (cents_text a) ; pret false) d = (Ok false, d') /\
    clock_us d' = clock_us d /\ matches (moved_by (- a)) done_l (mandates d) (mandates d')).
  { destruct (run_unreserve done_l a d) as (d' & Hrun & Hclock & Hm); [by apply NoDup_app in Hnd as (? & _)|done|done|done|].
    exists d'. rewrite run_pbind. unfold sbind. rewrite Hrun. split; [done|]. split; [done|]. intros j. by rewrite Hm. }
  assert (jti ∉ done_l /\ jti ∉ l) as [Hjd Hjl] by (apply NoDup_app in Hnd as (_ & Hdis & Hnd); split; [intros Hin; apply (Hdis jti Hin); by left|by apply NoDup_cons in Hnd as [? _]]).
  cbn [reserve_each]. cbn [forallb] in Hb. unfold atomic at 1, select_mandate, gets. cbn [pbind run_prog]. unfold admits_at at 1 in Hb.
  destruct (mandates d !! jti) as [row|] eqn:Erow; [|subst b; exact Hgive]. pose proof (Hok jti row Erow) as Hrow.
  unfold admits_row in Hb. destruct (String.eqb (mr_status row) "active") eqn:Eact; cbn [negb andb] in *; [|subst b; exact Hgive].
  rewrite (exceeds_exact float_repr row _ _ _ a Hrow Ha). cbn [plift pbind].
  destruct (Z.ltb_spec (total_of row) (spent_of row + held row + a)) as [Hlt|Hge].
  { rewrite (proj2 (Z.leb_gt _ _)) in Hb by lia. subst b. exact Hgive. }
  rewrite (proj2 (Z.leb_le _ _)) in Hb by lia. cbn [andb] in Hb. rewrite (added_exact float_repr row _ _ _ a Hrow Ha). cbn [plift pbind run_prog andb].
  assert (small (held row + a)) as Hsm by (destruct Hrow as [_ _ _ (? & ? & ?)]; unfold small in *; lia).
  unfold update_mandate, atomic. cbn [pbind run_prog]. rewrite Erow. assert (unchanged_row row row = true) as -> by (unfold unchanged_row; by rewrite Eact, !String.eqb_refl, Z.eqb_refl).
  change (1 =? 0) with false. cbn iota.
  set (d1 := set_mandates (<[jti := _]> (mandates d)) d).
  assert (row_ok (stamped (now_iso d) (moved_by a row))) as Hok1 by (destruct (moved_money a row Hrow Hsm); by eapply (money_row_ok _ (held row + a) (spent_of row) (total_of row))).
  destruct (IH (done_l ++ [jti]) d1) with (b := b) as (d' & Hrun & Hclock & Hm).
  - by rewrite <- (assoc_L (++)).
  - by apply table_ok_insert.
  - intros j r Hj. cbn. destruct (decide (j = jti)) as [->|Hne].
    + rewrite lookup_insert_eq. intros [= <-]. change (held _) with (held (stamped (now_iso d) (moved_by a row))).
      destruct (money_amounts (stamped (now_iso d) (moved_by a row)) (held row + a) (spent_of row) (total_of row)) as (-> & _);
        [by destruct (moved_money a row Hrow Hsm)|]. destruct Hrow as [_ _ _ ([? ?] & _)]. lia.
    + rewrite lookup_insert_ne by done. apply Hheld. set_solver.
  - rewrite Hb. apply forallb_agree. intros j Hj. unfold admits_at. cbn. by rewrite lookup_insert_ne by (intros ->; done).
  - exists d'. split; [exact Hrun|]. split; [done|]. clear Hb.
    destruct b; intros j; rewrite Hm; cbn [mandates d1 set_mandates];
      (destruct (decide (j = jti)) as [->|Hne]; [rewrite lookup_insert_eq|rewrite lookup_insert_ne by done]).
    + rewrite bool_decide_false by done. rewrite bool_decide_true by (by left). by rewrite Erow.
    + rewrite (bool_decide_ext (j ∈ l) (j ∈ jti :: l)); [done|]. rewrite elem_of_cons. naive_solver.
    + rewrite bool_decide_true by set_solver. rewrite bool_decide_false by done. rewrite Erow. cbn. f_equal. by apply moved_back.
    + rewrite (bool_decide_ext (j ∈ done_l ++ [jti]) (j ∈ done_l)); [done|]. rewrite elem_of_app, list_elem_of_singleton. naive_solver.
Qed.
End Reserve.

Lemma chain_run fuel jti d : (size (mandates d) + 2 <= fuel)%nat -> exists l,
  run_prog (chain fuel jti) d = (Ok l, d) /\ lineage_from (mandates d) fuel (Some jti) [] = Ok l /\ NoDup l.
Proof.
  intros Hf. destruct (lineage_spec (mandates d) fuel (Some jti) []) as (l & Hl & [Hnd _] & _).
  - split; [constructor|]. by intros i x y [=].
  - done.
  - rewrite list_to_set_nil, difference_empty_L. by rewrite size_dom.
  - exists l. unfold chain. by rewrite run_chain_from, Hl.
Qed.

(** [reserve_chain] alone reserves on a mandate and all its ancestors, exactly
    when each is active and has room for the amount beside what is spent and
    reserved; otherwise no row changes but for the time it was written. *)
Theorem reserve_chain_exact fuel jti a d : small a -> table_ok (mandates d) -> (size (mandates d) + 2 <= fuel)%nat ->
  exists l b d', run_prog (chain fuel jti) d = (Ok l, d) /\
    run_prog (reserve_chain float_repr fuel jti (cents_text a)) d = (Ok b, d') /\
    b = forallb (admits_at a (mandates d)) l /\
    matches (moved_by a) (if b then l else []) (mandates d) (mandates d').
Proof.
  intros Ha Hok Hf. destruct (chain_run fuel jti d Hf) as (l & Hl & _ & Hnd).
  destruct (run_reserve_each a Ha l [] d Hnd Hok) with (b := forallb (admits_at a (mandates d)) l) as (d' & Hrun & _ & Hm);
    [by intros j row ?%not_elem_of_nil|done|].
  exists l, (forallb (admits_at a (mandates d)) l), d'. split; [done|]. split; [|split; [done|]].
  - unfold reserve_chain. rewrite run_pbind. unfold sbind. by rewrite Hl.
  - by destruct (forallb _ l).
Qed.
End Spending.

(** ** Histories *)

(** A purchase reserves; a reservation is later settled, when the rail captured
    the amount, or released, when it did not. *)
Inductive budget_op : Type :=
| Reserve (jti : string) (a : Z)
| Settle (i : nat)
| Release (i : nat).

(** The table, the reservations not yet settled or released, those settled. *)
Record history : Type := { h_db : db; h_open : list (string * Z); h_settled : list (string * Z) }.

Section History.
Variables (float_repr : string -> string) (fuel : nat).

Definition do_op (h : history) (o : budget_op) : history :=
  match o with
  | Reserve jti a =>
      match run_prog (reserve_chain float_repr fuel jti (cents_text a)) (h_db h) with
      | (Ok true, d) => {| h_db := d; h_open := h_open h ++ [(jti, a)]; h_settled := h_settled h |}
      | (_, d) => {| h_db := d; h_open := h_open h; h_settled := h_settled h |}
      end
  | Settle i =>
      match h_open h !! i with
      | Some (jti, a) => {| h_db := (run_prog (settle float_repr fuel jti (cents_text a)) (h_db h)).2;
                            h_open := delete i (h_open h); h_settled := h_settled h ++ [(jti, a)] |}
      | None => h
      end
  | Release i =>
      match h_open h !! i with
      | Some (jti, a) => {| h_db := (run_prog (release fuel jti (cents_text a)) (h_db h)).2;
                            h_open := delete i (h_open h); h_settled := h_settled h |}
      | None => h
      end
  end.

Variable m0 : gmap string mandate_row.

Definition family (jti : string) : list string :=
  match lineage_from m0 fuel (Some jti) [] with Ok l => l | Raise _ => [] end.

(** What a list of purchases amounts to for a mandate: its own and those of the
    mandates derived from it. *)
Definition weight (l : list (string * Z)) (j : string) : Z :=
  foldr (fun p acc => (if bool_decide (j ∈ family p.1) then p.2 else 0) + acc) 0 l.

Lemma weight_snoc l p j : weight (l ++ [p]) j = weight l j + (if bool_decide (j ∈ family p.1) then p.2 else 0).
Proof. unfold weight. induction l as [|q l IH]; cbn; [lia|]. rewrite IH. lia. Qed.

Lemma weight_delete l i p j : l !! i = Some p ->
  weight l j = weight (delete i l) j + (if bool_decide (j ∈ family p.1) then p.2 else 0).
Proof.
  unfold weight. revert i. induction l as [|q l IH]; intros [|i] H; [done|done|injection H as ->; cbn; lia|].
  change (delete (S i) (q :: l)) with (q :: delete i l). cbn [foldr]. rewrite (IH i H). lia.
Qed.

Definition smalls (l : list (string * Z)) : Prop := Forall (fun p => small p.2) l.

Lemma weight_nonneg l j : smalls l -> 0 <= weight l j.
Proof.
  unfold weight. induction 1 as [|p l [Hp _] _ IH]; cbn [foldr]; [lia|]. destruct (bool_decide _); lia.
Qed.

(** The state of a history is determined by its purchases. *)
Record accounted (h : history) : Prop := {
  acc_rows : forall j, match m0 !! j, mandates (h_db h) !! j with
    | Some row0, Some row =>
        money float_repr row (held row0 + weight (h_open h) j) (spent_of row0 + weight (h_settled h) j) (total_of float_repr row0) /\
        spent_of row0 + weight (h_settled h) j + (held row0 + weight (h_open h) j) <= total_of float_repr row0 /\
        mr_parent_jti row = mr_parent_jti row0
    | None, None => True
    | _, _ => False
    end;
  acc_open : smalls (h_open h);
}.

Hypotheses (enough : (size m0 + 2 <= fuel)%nat)
  (start : forall j row, m0 !! j = Some row -> row_ok float_repr row /\ spent_of row + held row <= total_of float_repr row).

Lemma money_erase row row' r c t : erase row' = erase row -> money float_repr row r c t ->
  money float_repr row' r c t /\ mr_parent_jti row' = mr_parent_jti row.
Proof.
  intros He [Hr Hs Ht Hsm]. unfold erase, stamped in He. injection He as _ _ _ _ E1 E2 E3 E4 E5 E6. split; [|done].
  split; [congruence|congruence| |done]. by rewrite E2.
Qed.

Section Step.
Variable h : history.
Hypothesis Hh : accounted h.

Lemma acc_table : table_ok float_repr (mandates (h_db h)).
Proof.
  intros j row Hrow. pose proof (acc_rows h Hh j) as Hj. rewrite Hrow in Hj. destruct (m0 !! j); [|done].
  destruct Hj as [Hm _]. by eapply money_row_ok.
Qed.

Lemma acc_chain jti : run_prog (chain fuel jti) (h_db h) = (Ok (family jti), h_db h) /\ NoDup (family jti).
Proof.
  assert (dom (mandates (h_db h)) = dom m0) as Hdom.
  { apply set_eq. intros j. rewrite !elem_of_dom. pose proof (acc_rows h Hh j) as Hj.
    destruct (m0 !! j), (mandates (h_db h) !! j); done. }
  assert (forall j, parent_in (mandates (h_db h)) j = parent_in m0 j) as Hpar.
  { intros j. unfold parent_in. pose proof (acc_rows h Hh j) as Hj.
    destruct (m0 !! j), (mandates (h_db h) !! j); try done. by destruct Hj as (_ & _ & Hp). }
  destruct (chain_run fuel jti (h_db h)) as (l & Hrun & Hl & Hnd); [by rewrite <- size_dom, Hdom, size_dom|].
  unfold family. rewrite (lineage_ext _ m0) in Hl by done. by rewrite Hl.
Qed.

(** An open reservation is held by every mandate of its family. *)
Lemma open_held i jti a j row : h_open h !! i = Some (jti, a) -> j ∈ family jti -> mandates (h_db h) !! j = Some row ->
  small a /\ a <= held row.
Proof.
  intros Hi Hj Hrow. assert (small a) as Ha by (exact (proj1 (Forall_lookup _ _) (acc_open h Hh) i _ Hi)). split; [done|].
  pose proof (acc_rows h Hh j) as Hacc. rewrite Hrow in Hacc. destruct (m0 !! j) as [row0|] eqn:E0; [|done].
  destruct Hacc as (Hm & _ & _). destruct (money_amounts _ _ _ _ _ Hm) as (-> & _).
  rewrite (weight_delete _ i (jti, a) j Hi). cbn [fst snd]. rewrite bool_decide_true by done.
  pose proof (weight_nonneg (delete i (h_open h)) j) as Hw.
  assert (smalls (delete i (h_open h))) as Hs by (apply Forall_delete, Hh).
  destruct Hm as [_ _ _ ([Hr _] & _)]. specialize (Hw Hs).
  destruct (start j row0 E0) as [[_ _ _ ([? _] & _)] _]. lia.
Qed.

(** Rows after an operation on the family of [jti] that moves [a] out of or
    into the reserved amounts, and [c] into the recorded ones. *)
Lemma reaccount d' open' settled' jti a c :
  (forall j, match mandates (h_db h) !! j, mandates d' !! j with
     | Some row, Some row' => if bool_decide (j ∈ family jti)
         then mr_reserved_amount row' = cents_text (held row + a) /\ mr_spent_total row' = cents_text (spent_of row + c) /\
              mr_claims row' = mr_claims row /\ mr_parent_jti row' = mr_parent_jti row /\
              0 <= held row + a /\ 0 <= spent_of row + c /\ spent_of row + c + (held row + a) <= total_of float_repr row
         else erase row' = erase row
     | None, None => True
     | _, _ => False
     end) ->
  (forall j, weight open' j = weight (h_open h) j + (if bool_decide (j ∈ family jti) then a else 0)) ->
  (forall j, weight settled' j = weight (h_settled h) j + (if bool_decide (j ∈ family jti) then c else 0)) ->
  smalls open' -> accounted {| h_db := d'; h_open := open'; h_settled := settled' |}.
Proof.
  intros Hrows Hopen Hset Hsm. split; [|done]. intros j. cbn [h_db h_open h_settled].
  pose proof (acc_rows h Hh j) as Hacc. specialize (Hrows j). rewrite Hopen, Hset.
  destruct (m0 !! j) as [row0|], (mandates (h_db h) !! j) as [row|], (mandates d' !! j) as [row'|]; try done.
  destruct Hacc as (Hm & Hle & Hp). destruct (money_amounts _ _ _ _ _ Hm) as (Eh & Es & Et). rewrite Eh, Es, Et in Hrows.
  destruct (bool_decide (j ∈ family jti)).
  - destruct Hrows as (H1 & H2 & H3 & H4 & H5 & H6 & H7). rewrite !Z.add_assoc. destruct Hm as [Hr Hs Ht (S1 & S2 & S3)].
    split; [|split; [lia|congruence]]. split; [done|done|by rewrite H3|]. unfold small in *. lia.
  - rewrite !Z.add_0_r. destruct (money_erase row row' _ _ _ Hrows Hm) as [Hm' Hp']. split; [done|]. split; [done|congruence].
Qed.

(** A table read through [matches]. *)
Lemma matches_at f l m m' j : matches f l m m' -> match m !! j, m' !! j with
  | Some row, Some row' => erase row' = erase (if bool_decide (j ∈ l) then f row else row) | None, None => True | _, _ => False end.
Proof.
  intros Hm. specialize (Hm j). destruct (m !! j) as [row|], (m' !! j) as [row'|]; destruct (bool_decide (j ∈ l)); cbn in Hm; congruence || done.
Qed.

Lemma reserve_accounted jti a : small a -> accounted (do_op h (Reserve jti a)).
Proof.
  intros Ha. cbn [do_op]. destruct (acc_chain jti) as [Hc Hnd]. unfold reserve_chain. rewrite run_pbind. unfold sbind. rewrite Hc.
  destruct (run_reserve_each float_repr a Ha (family jti) [] (h_db h) Hnd acc_table) with
    (b := forallb (admits_at float_repr a (mandates (h_db h))) (family jti)) as (d' & -> & _ & Hm);
    [by intros j row ?%not_elem_of_nil|done|].
  destruct (forallb _ _) eqn:Eb.
  - apply (reaccount d' _ _ jti a 0).
    + intros j. pose proof (matches_at _ _ _ _ j Hm) as Hj. destruct (mandates (h_db h) !! j) as [row|] eqn:Er; [|done].
      destruct (mandates d' !! j) as [row'|]; [|done]. destruct (bool_decide (j ∈ family jti)) eqn:Ej; [|done].
      apply bool_decide_eq_true in Ej. rewrite forallb_forall in Eb. specialize (Eb j (proj1 (list_elem_of_In _ _) Ej)).
      unfold admits_at in Eb. rewrite Er in Eb. apply andb_prop in Eb as [_ Hle%Z.leb_le].
      destruct (acc_table j row Er) as [Hr Hs _ ([? _] & [? _] & _)]. destruct Ha as [? _].
      unfold erase, stamped in Hj. injection Hj as _ _ _ _ E1 E2 E3 E4 E5 E6. rewrite Z.add_0_r.
      split; [exact E3|]. split; [by rewrite E4|]. split; [exact E2|]. split; [exact E6|]. lia.
    + intros j. apply weight_snoc.
    + intros j. case_bool_decide; lia.
    + apply Forall_app. split; [apply Hh|]. by constructor; [|constructor].
  - apply (reaccount d' _ _ jti 0 0).
    + intros j. pose proof (matches_at _ _ _ _ j Hm) as Hj. rewrite bool_decide_false in Hj by set_solver.
      destruct (mandates (h_db h) !! j) as [row|] eqn:Er; [|done]. destruct (mandates d' !! j) as [row'|]; [|done].
      destruct (bool_decide (j ∈ family jti)); [|done]. rewrite !Z.add_0_r.
      pose proof (acc_rows h Hh j) as Hacc. rewrite Er in Hacc. destruct (m0 !! j) as [row0|]; [|done]. destruct Hacc as (Hmo & Hle & _).
      destruct (money_amounts _ _ _ _ _ Hmo) as (E7 & E8 & E9). destruct (acc_table j row Er) as [Hr Hs _ ([? _] & [? _] & _)].
      unfold erase, stamped in Hj. injection Hj as _ _ _ _ E1 E2 E3 E4 E5 E6.
      split; [congruence|]. split; [congruence|]. split; [exact E2|]. split; [exact E6|]. lia.
    + intros j. case_bool_decide; lia.
    + intros j. case_bool_decide; lia.
    + apply Hh.
Qed.

(** What [rewrite_each] leaves on the family of an open reservation. *)
Lemma close_accounted i jti a change hrow c settled' :
  h_open h !! i = Some (jti, a) ->
  (forall j row, mandates (h_db h) !! j = Some row -> small a -> change row = Ok (hrow row)) ->
  (forall j row now, mandates (h_db h) !! j = Some row -> a <= held row ->
     let row' := hrow row now row in
     mr_reserved_amount row' = cents_text (held row - a) /\ mr_spent_total row' = cents_text (spent_of row + c) /\
     mr_claims row' = mr_claims row /\ mr_parent_jti row' = mr_parent_jti row) ->
  0 <= c <= a -> (forall j, weight settled' j = weight (h_settled h) j + (if bool_decide (j ∈ family jti) then c else 0)) ->
  accounted {| h_db := (run_prog (jtis <~ chain fuel jti ; rewrite_each change jtis) (h_db h)).2;
               h_open := delete i (h_open h); h_settled := settled' |}.
Proof.
  intros Hi Hchange Hrow Hc Hset. destruct (acc_chain jti) as [Hrun Hnd]. rewrite run_pbind. unfold sbind. rewrite Hrun.
  pose proof (proj1 (Forall_lookup _ _) (acc_open h Hh) i _ Hi) as Ha. cbn [snd] in Ha.
  destruct (run_rewrite_each change hrow (family jti) (h_db h) Hnd) as (d' & -> & _ & Hm); [by intros j row _ Hr; eapply Hchange|].
  apply (reaccount _ _ _ jti (- a) c); [| |done|by apply Forall_delete, Hh].
  - intros j. cbn [snd]. rewrite Hm. destruct (mandates (h_db h) !! j) as [row|] eqn:Er; [|by destruct (bool_decide _)].
    destruct (bool_decide (j ∈ family jti)) eqn:Ej; [|done]. cbn. apply bool_decide_eq_true in Ej.
    destruct (open_held i jti a j row Hi Ej Er) as [_ Hle].
    destruct (Hrow j row (now_iso (h_db h)) Er Hle) as (H1 & H2 & H3 & H4).
    pose proof (acc_rows h Hh j) as Hacc. rewrite Er in Hacc. destruct (m0 !! j) as [row0|]; [|done].
    destruct Hacc as (Hmo & Hbound & _). destruct (money_amounts _ _ _ _ _ Hmo) as (E7 & E8 & E9).
    destruct (acc_table j row Er) as [_ _ _ ([? _] & [? _] & _)]. change (held row + - a) with (held row - a).
    do 4 (split; [done|]). lia.
  - intros j. rewrite (weight_delete (h_open h) i (jti, a) j Hi). cbn [fst snd]. case_bool_decide; lia.
Qed.
End Step.

Lemma do_op_accounted h o : accounted h -> match o with Reserve _ a => small a | _ => True end -> accounted (do_op h o).
Proof.
  intros Hh Ho. destruct o as [jti a|i|i]; [by apply reserve_accounted| |]; cbn [do_op];
    destruct (h_open h !! i) as [[jti a]|] eqn:Ei; try done; pose proof (proj1 (Forall_lookup _ _) (acc_open h Hh) i _ Ei) as Ha; cbn [snd] in Ha.
  - eapply (close_accounted h Hh i jti a (settled_row float_repr (cents_text a)) (fun row now r =>
      {| mr_user_id := mr_user_id r; mr_agent_id := mr_agent_id r; mr_token := mr_token r; mr_created_at := mr_created_at r;
         mr_status := if total_of float_repr row <=? spent_of row + a then "exhausted"%string else mr_status row; mr_claims := mr_claims r;
         mr_reserved_amount := cents_text (Z.max 0 (held row - a)); mr_spent_total := cents_text (spent_of row + a);
         mr_txn_count := mr_txn_count row + 1; mr_parent_jti := mr_parent_jti r; mr_updated_at := now |}) a); [done| | | |].
    + intros j row Hr _. destruct (settled_exact float_repr row _ _ _ a (acc_table h Hh j row Hr) Ha) as (status & -> & ->). done.
    + intros j row now Hr Hle. cbn. by rewrite Z.max_r by lia.
    + destruct Ha. lia.
    + intros j. apply weight_snoc.
  - eapply (close_accounted h Hh i jti a (unreserved_row (cents_text a)) (fun row _ => with_reserved (cents_text (Z.max 0 (held row - a)))) 0); [done| | | |].
    + intros j row Hr _. unfold unreserved_row. by rewrite (freed_exact float_repr row _ _ _ a (acc_table h Hh j row Hr) Ha).
    + intros j row now Hr Hle. cbn. rewrite Z.max_r by lia. rewrite Z.add_0_r. destruct (acc_table h Hh j row Hr) as [_ Hs _ _]. done.
    + destruct Ha. lia.
    + intros j. case_bool_decide; lia.
Qed.

(** In every history of purchases under a family of mandates, each operation
    run to its end, what a mandate has recorded as spent and holds reserved is
    exactly the sum of the settled and of the open purchases of the mandate and
    its descendants, and the two together never exceed its signed budget. *)
Theorem spending_within_budget ops clock j row0 row :
  Forall (fun o => match o with Reserve _ a => small a | _ => True end) ops ->
  m0 !! j = Some row0 ->
  let h := fold_left do_op ops {| h_db := {| mandates := m0; clock_us := clock |}; h_open := []; h_settled := [] |} in
  mandates (h_db h) !! j = Some row ->
  held row = held row0 + weight (h_open h) j /\ spent_of row = spent_of row0 + weight (h_settled h) j /\
  spent_of row + held row <= total_of float_repr row0.
Proof.
  intros Hops H0 h Hrow. assert (accounted h) as Hh.
  { subst h. assert (accounted {| h_db := {| mandates := m0; clock_us := clock |}; h_open := []; h_settled := [] |}) as Hinit.
    { split; [|constructor]. intros i. cbn. destruct (m0 !! i) as [r|] eqn:Ei; [|done]. destruct (start i r Ei) as [Hok Hle].
      rewrite !Z.add_0_r. done. }
    revert Hinit. generalize {| h_db := {| mandates := m0; clock_us := clock |}; h_open := []; h_settled := [] |} as h.
    clear Hrow. induction Hops as [|o ops Ho _ IH]; intros h Hh; cbn; [done|]. by apply IH, do_op_accounted. }
  pose proof (acc_rows h Hh j) as Hacc. rewrite H0, Hrow in Hacc. destruct Hacc as (Hm & Hle & _).
  destruct (money_amounts _ _ _ _ _ Hm) as (-> & -> & _). done.
Qed.
End History.
