(* ===== verification/AgentRace.v ===== *)
(** The budget of the agent kernel under concurrency: reservations that race
    keep every budget, their compare-and-swap is enough; a compensation that
    races with a reservation undoes it, and the mandate is overspent. *)
From S2P Require Import Prelude PyTime Decimal Json JsonParse Models JsonLogic Jose Prog RappiClient AgentRules AgentGate AgentBudget AgentBudgetFacts AgentSpending.

Section Race.
Variable float_repr : string -> string.
Abbreviation row_ok := (row_ok float_repr).
Abbreviation total_of := (total_of float_repr).

(** Every row within its budget. *)
Definition within (row : mandate_row) : Prop := row_ok row /\ spent_of row + held row <= total_of row.
Definition all_within (d : db) : Prop := forall j row, mandates d !! j = Some row -> within row.

(** What reservations do to a table: no row comes or goes, nothing is recorded
    as spent, and budgets are kept. *)
Definition reserves (d d' : db) : Prop :=
  (forall j, (fun row => (mr_claims row, mr_spent_total row)) <$> mandates d' !! j
           = (fun row => (mr_claims row, mr_spent_total row)) <$> mandates d !! j) /\
  (all_within d -> all_within d').

#[export] Instance reserves_preorder : PreOrder reserves.
Proof.
  split; [by split|]. intros a b c [H1 H2] [H3 H4]. split; [|auto]. intros j. by rewrite H3.
Qed.

(** A row that was read at some moment: what it says of the spent amount and of
    the budget still holds. *)
Definition read_row (jti : string) (row : mandate_row) (d : db) : Prop :=
  all_within d /\ within row /\
  exists now, mandates d !! jti = Some now /\ mr_claims now = mr_claims row /\ mr_spent_total now = mr_spent_total row.

Abbreviation T := (triple reserves reserves).

Lemma within_stable : stable reserves all_within.
Proof. intros d d' [_ H]. exact H. Qed.

Lemma read_stable jti row : stable reserves (read_row jti row).
Proof.
  intros d d' [Hs Hw] (H1 & H2 & now & Hn & Hc & Hsp). split; [auto|]. split; [done|]. specialize (Hs jti). rewrite Hn in Hs.
  destruct (mandates d' !! jti) as [now'|]; [|done]. cbn in Hs. exists now'. injection Hs as E1 E2. split; [done|]. split; congruence.
Qed.

Lemma select_knows jti : T all_within (atomic (select_mandate jti))
  (fun r d => match r with Ok (Some row) => read_row jti row d | Ok None => all_within d | Raise _ => False end).
Proof.
  apply triple_atomic; [apply within_stable|]. intros d Hd. split; [reflexivity|]. intros d' Hr. cbn in *.
  destruct (mandates d !! jti) as [row|] eqn:E; [|by eapply within_stable].
  apply (read_stable jti row d); [done|]. split; [done|]. split; [by eapply Hd|]. by exists row.
Qed.

Lemma chain_keeps fuel current seen : T all_within (chain_from fuel current seen) (fun _ => all_within).
Proof.
  revert current seen. induction fuel as [|fuel IH]; intros current seen; cbn [chain_from]; [by apply triple_finish; [apply within_stable|]|].
  destruct (or_str current None) as [jti|]; [|by apply triple_finish; [apply within_stable|]].
  destruct (bool_decide _); [by apply triple_finish; [apply within_stable|]|].
  eapply triple_bind; [apply _|apply (select_knows jti)| |done]. intros row.
  eapply triple_conseq; [apply IH| |done]. intros d. destruct row; [by intros [? _]|done].
Qed.

(** A write of the reserved amount of a row that was read: within the budget as
    the row told it. *)
Lemma write_reserved jti row guard f r :
  small r -> spent_of row + r <= total_of row ->
  (forall now x, guard x = true -> mr_claims (f now x) = mr_claims x /\ mr_spent_total (f now x) = mr_spent_total x /\
                 mr_reserved_amount (f now x) = cents_text r) ->
  T (read_row jti row) (atomic (update_mandate jti guard f)) (fun _ => all_within).
Proof.
  intros Hsm Hle Hf. apply triple_atomic; [apply read_stable|]. intros d (Hall & Hw & now & Hn & Hc & Hs).
  unfold update_mandate. rewrite Hn. destruct (guard now) eqn:Eg; [|split; [reflexivity|intros d' Hr; by eapply within_stable]].
  cbn [snd]. destruct (Hf (now_iso d) now Eg) as (F1 & F2 & F3). set (row' := f _ _) in *.
  assert (within row') as Hw'.
  { destruct (Hall jti now Hn) as [[_ Sn Tn (_ & S2 & S3)] _]. assert (money float_repr row' r (spent_of now) (total_of now)) as Hm.
    { split; [done|by rewrite F2|by rewrite F1|done]. }
    split; [by eapply money_row_ok|]. destruct (money_amounts _ _ _ _ _ Hm) as (-> & -> & ->).
    assert (spent_of now = spent_of row) as -> by (unfold spent_of; by rewrite Hs).
    assert (total_of now = total_of row) as -> by (unfold AgentSpending.total_of; by rewrite Hc). done. }
  assert (all_within (set_mandates (<[jti := row']> (mandates d)) d)) as Hall'.
  { intros j x. cbn. destruct (decide (j = jti)) as [->|Hne]; [rewrite lookup_insert_eq; by intros [= <-]|].
    rewrite lookup_insert_ne by done. apply Hall. }
  split; [split; [|done]|intros d' Hr; by eapply within_stable].
  intros j. cbn. destruct (decide (j = jti)) as [->|Hne]; [rewrite lookup_insert_eq, Hn; cbn; by rewrite F1, F2|by rewrite lookup_insert_ne].
Qed.

Section Amount.
Variable a : Z.
Hypothesis Ha : small a.

Lemma unreserve_keeps jtis : T all_within (_unreserve jtis (cents_text a)) (fun _ => all_within).
Proof.
  induction jtis as [|jti jtis IH]; cbn [rewrite_each _unreserve]; [by apply triple_finish; [apply within_stable|]|].
  eapply triple_bind; [apply _|apply (select_knows jti)| |done]. intros row. cbn beta iota.
  apply (triple_bind _ _ _ _ _ (fun _ => all_within)); [|intros _; apply IH|done].
  destruct row as [row|]; [|by apply triple_finish; [apply within_stable|]]. intros d Hd. pose proof Hd as (_ & [Hok Hle] & _).
  pose proof Hok as [_ _ _ (H1 & H2 & H3)]. revert d Hd.
  unfold unreserved_row. rewrite (freed_exact float_repr row _ _ _ a Hok Ha). cbn [rbind plift pbind].
  apply (write_reserved jti row _ _ (Z.max 0 (held row - a))); [unfold small in *; lia|unfold small in *; lia|done].
Qed.

Lemma reserve_each_keeps jtis taken : T all_within (reserve_each float_repr jtis taken (cents_text a)) (fun _ => all_within).
Proof.
  revert taken. induction jtis as [|jti jtis IH]; intros taken; cbn [reserve_each]; [by apply triple_finish; [apply within_stable|]|].
  assert (T all_within (_ <~ _unreserve taken (cents_text a) ; pret false) (fun _ => all_within)) as Hgive.
  { apply (triple_bind _ _ _ _ _ (fun _ => all_within)); [apply unreserve_keeps|intros _; by apply triple_finish; [apply within_stable|]|done]. }
  eapply triple_bind; [apply _|apply (select_knows jti)| |done]. intros [row|]; cbn beta iota zeta; [|exact Hgive].
  intros d Hd. pose proof Hd as (_ & [Hok Hle] & _). pose proof Hok as [_ _ _ (H1 & H2 & H3)]. revert d Hd.
  change (T (read_row jti row) (if negb (String.eqb (mr_status row) "active") then (_ <~ _unreserve taken (cents_text a) ; pret false) else
    (over <~ plift (exceeds float_repr row (cents_text a)) ;
     if (over : bool) then (_ <~ _unreserve taken (cents_text a) ; pret false)
     else reserved <~ plift (added_text row (cents_text a)) ;
          updated <~ atomic (update_mandate jti (unchanged_row row) (fun now r => stamped now (with_reserved reserved r))) ;
          if updated =? 0 then (_ <~ _unreserve taken (cents_text a) ; pret false) else reserve_each float_repr jtis (taken ++ [jti]) (cents_text a)))
    (fun _ => all_within)).
  assert (T (read_row jti row) (_ <~ _unreserve taken (cents_text a) ; pret false) (fun _ => all_within)) as Hgive'.
  { eapply triple_conseq; [exact Hgive|by intros d [? _]|done]. }
  destruct (negb _); [exact Hgive'|]. rewrite (exceeds_exact float_repr row _ _ _ a Hok Ha). cbn [plift pbind].
  destruct (Z.ltb_spec (total_of row) (spent_of row + held row + a)); [exact Hgive'|].
  rewrite (added_exact float_repr row _ _ _ a Hok Ha). cbn [plift pbind].
  apply (triple_bind _ _ _ _ _ (fun _ => all_within)); [|intros n; by destruct (n =? 0)|done].
  apply (write_reserved jti row _ _ (held row + a)); [unfold small in *; lia|lia|done].
Qed.
End Amount.

Lemma reserve_chain_keeps fuel jti a : small a -> T all_within (reserve_chain float_repr fuel jti (cents_text a)) (fun _ => all_within).
Proof.
  intros Ha. apply (triple_bind _ _ _ _ _ (fun _ => all_within)); [apply chain_keeps|intros l; by apply reserve_each_keeps|done].
Qed.

(** Reservations that run at the same time, interleaved statement by statement
    in any way and left anywhere, keep the spent and reserved amounts of every
    mandate within its signed budget, ancestors included. *)
Theorem racing_reservations_within_budget fuel (calls : list (string * Z)) schedule d :
  Forall (fun c => small c.2) calls -> all_within d ->
  all_within (interleave schedule (map (fun c => reserve_chain float_repr fuel c.1 (cents_text c.2)) calls) d).2.
Proof.
  intros Hcalls Hd.
  pose proof (pool_interleave (A := bool) (fun _ => reserves) (fun _ => reserves) (fun _ _ => all_within) all_within (length calls)) as Hpool.
  specialize (Hpool ltac:(by intros) ltac:(by intros i s s' _ Hs [_ Ht]; apply Ht) schedule
    (map (fun c => reserve_chain float_repr fuel c.1 (cents_text c.2)) calls) d).
  apply Hpool. split; [apply length_map|]. split; [done|]. intros i p (c & -> & Hc)%list_lookup_fmap_Some.
  apply reserve_chain_keeps; [|done]. exact (proj1 (Forall_lookup _ _) Hcalls i c Hc).
Qed.
End Race.

(** ** A compensation in the way *)

Definition demo_claims (total : string) : string :=
  print (JObj [("limits", JObj [("total_budget", JStr total)])]%string).

Definition demo_mandate (total reserved : string) (parent : option string) : mandate_row :=
  {| mr_user_id := "u1"; mr_agent_id := "ag1"; mr_token := None; mr_created_at := "";
     mr_status := "active"; mr_claims := demo_claims total; mr_reserved_amount := reserved; mr_spent_total := "0.00";
     mr_txn_count := 0; mr_parent_jti := parent; mr_updated_at := "" |}.

(** A purchase: what the saga does with the budget when the rail captures. *)
Definition buy (fuel : nat) (jti amount : string) : prog db bool :=
  reserved <~ reserve_chain (fun r => r) fuel jti amount ;
  if (reserved : bool) then (_ <~ settle (fun r => r) fuel jti amount ; pret true) else pret false.
Definition compensate (fuel : nat) (jti amount : string) : prog db bool := _ <~ release fuel jti amount ; pret true.

(** A mandate of 100.00, 10.00 of it reserved by a purchase the rail refused. *)
Definition demo_table : db := {| mandates := {[ "m"%string := demo_mandate "100.00" "10.00" None ]}; clock_us := 0 |}.

(** The compensation reads 10.00; a purchase of 60.00 reserves; the compensation
    writes 0.00; a purchase of 100.00 reserves; both settle. *)
Definition in_the_way : list nat := [0; 0; 1; 1; 1; 0; 2; 2; 2; 1; 1; 1; 2; 2; 2]%nat.

Definition spent_text (d : db) (jti : string) : option string := mr_spent_total <$> mandates d !! jti.

(** Two purchases are both captured and recorded, 160.00 on a signed budget of
    100.00: giving a reservation back writes what it read, whatever was
    reserved since. *)
Theorem compensation_loses_reservation :
  let '(_, d) := interleave in_the_way [compensate 3 "m" "10.00"; buy 3 "m" "60.00"; buy 3 "m" "100.00"] demo_table in
  spent_text d "m" = Some "160.00"%string.
Proof. vm_compute. reflexivity. Qed.

(** The compare-and-swap of the agent kernel counts: of reservations that race
    for mandates without a parent, exactly those answered True are in the
    reserved amount. *)

(** A named mandate without a parent: its ancestry is itself. *)
Definition root (m : gmap string mandate_row) (jti : string) : Prop := jti <> EmptyString /\ or_str (parent_in m jti) None = None.

(** What the answers of a pool have granted on a mandate. *)
Definition grant (j : string) (c : string * Z) (p : prog db bool) : Z :=
  if decide (c.1 = j) then match p with Finish (Ok true) => c.2 | _ => 0 end else 0.
Definition granted (j : string) (calls : list (string * Z)) (pool : list (prog db bool)) : Z :=
  foldr Z.add 0 (zip_with (grant j) calls pool).

Lemma granted_insert j calls pool i c p p' : calls !! i = Some c -> pool !! i = Some p ->
  granted j calls (<[i := p']> pool) = granted j calls pool - grant j c p + grant j c p'.
Proof.
  revert pool i. induction calls as [|c0 calls IH]; intros [|q pool] [|i] Hc Hp; try done.
  - injection Hc as ->. injection Hp as ->. unfold granted. cbn. lia.
  - specialize (IH pool i Hc Hp). change (<[S i := p']> (q :: pool)) with (q :: <[i := p']> pool). unfold granted in *. cbn [zip_with foldr] in *. lia.
Qed.

Section Cas.
Variables (float_repr : string -> string) (fuel : nat) (calls : list (string * Z)) (d0 : db).
Abbreviation total_of := (total_of float_repr).
Abbreviation reservation c := (reserve_chain float_repr fuel c.1 (cents_text c.2)).
Hypotheses (enough : (2 <= fuel)%nat) (amounts : Forall (fun c => small c.2 /\ root (mandates d0) c.1) calls)
  (start : all_within float_repr d0).

(** Where a call stands: before its statements, after the walk up the ancestry,
    after it read the row, and answered. *)
Inductive stage (c : string * Z) : prog db bool -> Prop :=
| Starting : stage c (reservation c)
| Reading : stage c (reserve_each float_repr [c.1] [] (cents_text c.2))
| Writing row row0 h : mandates d0 !! c.1 = Some row0 -> money float_repr row h (spent_of row0) (total_of row0) ->
    spent_of row0 + h + c.2 <= total_of row0 ->
    stage c (updated <~ atomic (update_mandate c.1 (unchanged_row row) (fun now r => stamped now (with_reserved (cents_text (h + c.2)) r))) ;
             if updated =? 0 then (_ <~ _unreserve [] (cents_text c.2) ; pret false)
             else reserve_each float_repr [] [c.1] (cents_text c.2))
| Answered b : stage c (Finish (Ok b)).

(** The table against the answers: [g j] is granted on the mandate [j]. *)
Definition counted (g : string -> Z) (d : db) : Prop :=
  forall j, match mandates d0 !! j with
  | None => mandates d !! j = None
  | Some row0 => exists row, mandates d !! j = Some row /\ mr_claims row = mr_claims row0 /\ mr_parent_jti row = mr_parent_jti row0 /\
      money float_repr row (held row0 + g j) (spent_of row0) (total_of row0) /\ spent_of row0 + (held row0 + g j) <= total_of row0
  end.

Lemma counted_ext g g' d : (forall j, g j = g' j) -> counted g d -> counted g' d.
Proof using Type. intros Hg Hd j. specialize (Hd j). destruct (mandates d0 !! j); [|done]. by rewrite <- Hg. Qed.

(** One statement of a call. *)
Lemma step_starting c d : root (mandates d) c.1 -> step_prog (reservation c) d = (reserve_each float_repr [c.1] [] (cents_text c.2), d).
Proof using enough.
  destruct c as [[|ch jti] a]; intros [Hne Hroot]; [done|]. destruct fuel as [|[|fuel']]; [lia|lia|]. cbn [fst] in Hroot.
  transitivity (jtis <~ chain_from (S fuel') (parent_in (mandates d) (String ch jti)) [String ch jti] ;
                reserve_each float_repr jtis [] (cents_text a), d); [reflexivity|].
  cbn [chain_from]. by rewrite Hroot.
Qed.

Lemma grant_starting c j : c.1 <> EmptyString -> grant j c (reservation c) = 0.
Proof using enough.
  destruct c as [[|ch jti] a]; intros Hne; [done|]. destruct fuel as [|[|fuel']]; [lia|lia|]. unfold grant. by case_decide.
Qed.

Lemma step_select {B} jti (k : option mandate_row -> prog db B) d :
  step_prog (row <~ atomic (select_mandate jti) ; k row) d = (k (mandates d !! jti), d).
Proof using Type. reflexivity. Qed.

Lemma step_reading c d row h s t : small c.2 -> mandates d !! c.1 = Some row -> money float_repr row h s t ->
  step_prog (reserve_each float_repr [c.1] [] (cents_text c.2)) d = (Finish (Ok false), d) \/
  s + h + c.2 <= t /\ step_prog (reserve_each float_repr [c.1] [] (cents_text c.2)) d =
    ((updated <~ atomic (update_mandate c.1 (unchanged_row row) (fun now r => stamped now (with_reserved (cents_text (h + c.2)) r))) ;
      if updated =? 0 then (_ <~ _unreserve [] (cents_text c.2) ; pret false)
      else reserve_each float_repr [] [c.1] (cents_text c.2)), d).
Proof using Type.
  intros Ha Hrow Hm. clear enough. cbn [reserve_each]. rewrite step_select, Hrow.
  destruct (negb (String.eqb (mr_status row) "active")); [by left|]. rewrite (exceeds_exact float_repr row _ _ _ _ Hm Ha). cbn [plift pbind].
  destruct (Z.ltb_spec t (s + h + c.2)); [by left|]. rewrite (added_exact float_repr row _ _ _ _ Hm Ha). cbn [plift pbind]. right. split; [lia|reflexivity].
Qed.

Lemma step_writing c row h d now : mandates d !! c.1 = Some now -> 
  step_prog (updated <~ atomic (update_mandate c.1 (unchanged_row row) (fun now r => stamped now (with_reserved (cents_text h) r))) ;
             if updated =? 0 then (_ <~ _unreserve [] (cents_text c.2) ; pret false)
             else reserve_each float_repr [] [c.1] (cents_text c.2)) d =
  if unchanged_row row now
  then (Finish (Ok true), set_mandates (<[c.1 := stamped (now_iso d) (with_reserved (cents_text h) now)]> (mandates d)) d)
  else (Finish (Ok false), d).
Proof using Type. intros Hn. unfold atomic. cbn [pbind step_prog]. unfold update_mandate. rewrite Hn. destruct (unchanged_row row now); reflexivity. Qed.

Lemma stage_step c p g d : small c.2 -> root (mandates d0) c.1 -> (forall j, 0 <= g j) -> stage c p -> counted g d ->
  stage c (step_prog p d).1 /\
  counted (fun j => g j - grant j c p + grant j c (step_prog p d).1) (step_prog p d).2.
Proof using enough.
  intros Ha Hroot Hg0 Hst Hd.
  assert (forall q, (forall j, grant j c p = 0 -> grant j c q = 0) -> (forall j, grant j c p = 0) ->
    counted (fun j => g j - grant j c p + grant j c q) d) as Hsame.
  { intros q Hq Hp. apply (counted_ext g); [|done]. intros j. rewrite Hp, (Hq j (Hp j)). lia. }
  destruct Hst as [| |row row0 h H0 Hm Hle|b].
  - assert (parent_in (mandates d) c.1 = parent_in (mandates d0) c.1) as Hpar.
    { specialize (Hd c.1). unfold parent_in. destruct (mandates d0 !! c.1); [|by rewrite Hd]. destruct Hd as (r & -> & _ & Hp & _). exact Hp. }
    rewrite step_starting by (unfold root; by rewrite Hpar). split; [constructor|]. apply Hsame; intros j; [intros _; unfold grant; by case_decide|by apply grant_starting, Hroot].
  - destruct (mandates d !! c.1) as [row|] eqn:Hrow.
    + pose proof (Hd c.1) as Hc. destruct (mandates d0 !! c.1) as [row0|] eqn:H0; [|by rewrite Hc in Hrow].
      destruct Hc as (r & Hr & _ & _ & Hm & _). rewrite Hrow in Hr. injection Hr as <-.
      destruct (step_reading c d row _ _ _ Ha Hrow Hm) as [->|[Hle ->]]; cbn [fst snd].
      * split; [constructor|]. apply Hsame; intros j; unfold grant; by case_decide.
      * split; [by econstructor|]. apply Hsame; intros j; unfold grant; by case_decide.
    + cbn [reserve_each]. rewrite step_select, Hrow. split; [constructor|]. apply Hsame; intros j; unfold grant; by case_decide.
  - pose proof (Hd c.1) as Hc. rewrite H0 in Hc. destruct Hc as (now & Hn & Hcl & Hpa & Hmn & Hwn).
    rewrite (step_writing c row (h + c.2) d now Hn).
    destruct (unchanged_row row now) eqn:Eu; cbn [fst snd]; [|split; [constructor|]; apply Hsame; intros j; unfold grant; by case_decide].
    split; [constructor|].
    assert (h = held row0 + g c.1) as ->.
    { unfold unchanged_row in Eu. apply andb_prop in Eu as [[[_ Er%String.eqb_eq]%andb_prop _]%andb_prop _].
      destruct (money_amounts _ _ _ _ _ Hm) as (<- & _ & _). destruct (money_amounts _ _ _ _ _ Hmn) as (<- & _ & _). unfold held. by rewrite Er. }
    intros j. cbn [mandates set_mandates]. destruct (decide (c.1 = j)) as [<-|Hne].
    + rewrite H0. eexists. rewrite lookup_insert_eq. split; [done|]. unfold grant at 1 2 3 4. rewrite !decide_True by done. cbn.
      split; [done|]. split; [done|].
      match goal with |- money _ _ ?x _ _ /\ _ => replace x with (held row0 + g c.1 + c.2) by lia end.
      destruct Hmn as [_ Hs Ht (_ & Hs2 & Hs3)], Hm as [_ _ _ (Hs1 & _ & _)]. split; [split; [done..|]|lia].
      split; [unfold small in *; lia|done].
    + rewrite lookup_insert_ne by done. specialize (Hd j). assert (forall q, grant j c q = 0) as Hz by (intros q; unfold grant; by rewrite decide_False by done).
      rewrite !Hz. replace (g j - 0 + 0) with (g j) by lia. exact Hd.
  - split; [constructor|]. apply (counted_ext g); [|done]. intros j. cbn [step_prog fst]. lia.
Qed.

Definition pool_counted (pool : list (prog db bool)) (d : db) : Prop :=
  Forall2 stage calls pool /\ counted (fun j => granted j calls pool) d.

Lemma grant_nonneg j c p : small c.2 -> 0 <= grant j c p.
Proof using Type. clear enough. intros [Ha _]. unfold grant. case_decide; [|lia]. destruct p as [[[]|]|]; lia. Qed.

Lemma granted_nonneg j pool : 0 <= granted j calls pool.
Proof using amounts.
  clear enough start. unfold granted. revert pool. induction amounts as [|c l [Ha _] Hl IH]; intros [|p pool]; cbn; [lia..|].
  pose proof (grant_nonneg j c p Ha). specialize (IH Hl pool). lia.
Qed.

Lemma counted_step i p pool d : pool !! i = Some p -> pool_counted pool d ->
  pool_counted (<[i := (step_prog p d).1]> pool) (step_prog p d).2.
Proof using enough amounts.
  intros Hp [Hst Hd]. destruct (Forall2_lookup_r _ _ _ _ _ Hst Hp) as (c & Hc & Hcs).
  destruct (proj1 (Forall_lookup _ _) amounts i c Hc) as [Ha Hroot].
  destruct (stage_step c p _ d Ha Hroot (fun j => granted_nonneg j pool) Hcs Hd) as [Hst' Hd'].
  split; [by rewrite <- (list_insert_id calls i c Hc); apply Forall2_insert|].
  eapply counted_ext; [|exact Hd']. intros j. symmetry. by apply granted_insert.
Qed.


Lemma pool_start : pool_counted (map (fun c => reservation c) calls) d0.
Proof using amounts start enough.
  assert (forall j, granted j calls (map (fun c => reservation c) calls) = 0) as Hz.
  { intros j. unfold granted. clear start. induction amounts as [|c l [_ [Hne _]] Hl IH]; cbn; [done|]. by rewrite (IH Hl), grant_starting. }
  split; [clear start Hz amounts; induction calls; cbn; constructor; [constructor|auto]|].
  intros j. destruct (mandates d0 !! j) as [row|] eqn:E; [|done]. exists row. rewrite Hz, Z.add_0_r. destruct (start j row E) as [Hok Hle].
  split; [done|]. split; [done|]. split; [done|]. split; [exact Hok|done].
Qed.
End Cas.

(** C10: Compare-and-swap loses nothing: of reservations that run at the same time
    for mandates without a parent, interleaved statement by statement in any way
    and stopped anywhere, none raises, and what a mandate holds reserved is what
    it held plus the amounts of exactly the calls answered True, within its
    signed budget. *)
Theorem racing_reservations_counted float_repr fuel (calls : list (string * Z)) schedule d :
  (2 <= fuel)%nat -> Forall (fun c => small c.2 /\ root (mandates d) c.1) calls -> all_within float_repr d ->
  let run := interleave schedule (map (fun c => reserve_chain float_repr fuel c.1 (cents_text c.2)) calls) d in
  (forall i e, run.1 !! i <> Some (Finish (Raise e))) /\
  forall j row, mandates d !! j = Some row ->
    exists row', mandates run.2 !! j = Some row' /\ spent_of row' = spent_of row /\
      held row' = held row + granted j calls run.1 /\ spent_of row' + held row' <= total_of float_repr row.
Proof.
  intros Hf Hc Hd run.
  assert (pool_counted float_repr fuel calls d run.1 run.2) as [Hst Hcount].
  { apply (interleave_invariant (pool_counted float_repr fuel calls d)); [intros i p pool s Hp; by apply counted_step|by apply pool_start]. }
  split.
  - intros i e Hi. destruct (Forall2_lookup_r _ _ _ _ _ Hst Hi) as (c & Hci & Hs).
    destruct (proj1 (Forall_lookup _ _) Hc i c Hci) as [_ [Hne _]]. destruct c as [[|ch jti] a]; [done|]. destruct fuel as [|[|fuel']]; [lia|lia|].
    inversion Hs.
  - intros j row Hj. specialize (Hcount j). rewrite Hj in Hcount. destruct Hcount as (row' & Hr & _ & _ & Hm & Hle).
    exists row'. destruct (money_amounts _ _ _ _ _ Hm) as (-> & -> & _). split; [done|]. split; [done|]. split; [done|lia].
Qed.
