(* ===== verification/AgentDemo.v ===== *)
(** Concrete runs of the agent kernel: a mandate with a derived one, its gate,
    its reservations and a history. *)
From S2P Require Import Prelude PyTime Decimal Json JsonParse Models JsonLogic Jose Prog RappiClient AgentRules AgentGate AgentBudget AgentBudgetFacts AgentSpending AgentRace.

Definition demo_family : gmap string mandate_row :=
  {[ "m"%string := demo_mandate "100.00" "10.00" None; "c"%string := demo_mandate "40.00" "0.00" (Some "m"%string) ]}.
Definition demo_db : db := {| mandates := demo_family; clock_us := 0 |}.
Definition no_floats (r : string) : string := r.

Lemma demo_money total reserved t r parent : small r -> small t ->
  mr_reserved_amount (demo_mandate total reserved parent) = cents_text r ->
  (let? claims := _parse_json no_floats (demo_claims total) in total_budget claims) = Ok (cents t) ->
  money no_floats (demo_mandate total reserved parent) r 0 t.
Proof. intros Hr Ht H1 H2. split; [done|reflexivity|done|]. split; [done|]. split; [unfold small; lia|done]. Qed.

Lemma demo_rows j row : demo_family !! j = Some row ->
  money no_floats row (if decide (j = "m"%string) then 1000 else 0) 0 (if decide (j = "m"%string) then 10000 else 4000).
Proof.
  intros Hj. unfold demo_family in Hj. apply lookup_insert_Some in Hj as [[<- <-]|[Hne [<- <-]%lookup_singleton_Some]].
  - rewrite !decide_True by done. apply demo_money; [unfold small; lia|unfold small; lia|reflexivity|vm_compute; reflexivity].
  - rewrite !decide_False by done. apply demo_money; [unfold small; lia|unfold small; lia|reflexivity|vm_compute; reflexivity].
Qed.

Lemma demo_start j row : demo_family !! j = Some row -> row_ok no_floats row /\ spent_of row + held row <= total_of no_floats row.
Proof.
  intros Hj%demo_rows. split; [by eapply money_row_ok|]. destruct (money_amounts _ _ _ _ _ Hj) as (-> & -> & ->). case_decide; lia.
Qed.

Lemma demo_size : (size (mandates demo_db) + 2 <= 4)%nat.
Proof. vm_compute. lia. Qed.

(** The ancestry of the derived mandate. *)
Lemma chain_terminates_witness : run_prog (chain 4 "c") demo_db = (Ok ["c"; "m"]%string, demo_db).
Proof.
  destruct (chain_terminates 4 "c" demo_db demo_size) as (l & Hl & _). rewrite Hl. f_equal.
  assert ((run_prog (chain 4 "c") demo_db).1 = Ok ["c"; "m"]%string) as H by (vm_compute; reflexivity). by rewrite Hl in H.
Defined.

(** 40.00 fits the derived mandate and its parent; 40.01 does not, and takes
    nothing from the parent. *)
Lemma reserve_chain_exact_witness :
  (run_prog (reserve_chain no_floats 4 "c" "40.00") demo_db).1 = Ok true /\
  (run_prog (reserve_chain no_floats 4 "c" "40.01") demo_db).1 = Ok false.
Proof.
  assert (table_ok no_floats (mandates demo_db)) as Hok by (intros j row Hj; by apply (demo_start j)).
  destruct (reserve_chain_exact no_floats 4 "c" 4000 demo_db ltac:(unfold small; lia) Hok demo_size) as (l & b & d & Hl & Hr & Hb & _).
  destruct (reserve_chain_exact no_floats 4 "c" 4001 demo_db ltac:(unfold small; lia) Hok demo_size) as (l' & b' & d' & Hl' & Hr' & Hb' & _).
  assert (l = ["c"; "m"]%string) as ->.
  { assert ((run_prog (chain 4 "c") demo_db).1 = Ok ["c"; "m"]%string) as H by (vm_compute; reflexivity). rewrite Hl in H. by injection H. }
  assert (l' = ["c"; "m"]%string) as ->.
  { assert ((run_prog (chain 4 "c") demo_db).1 = Ok ["c"; "m"]%string) as H by (vm_compute; reflexivity). rewrite Hl' in H. by injection H. }
  change "40.00"%string with (cents_text 4000). change "40.01"%string with (cents_text 4001). rewrite Hr, Hr', Hb, Hb'.
  split; vm_compute; reflexivity.
Defined.

Definition demo_ops : list budget_op := [Reserve "c" 3000; Reserve "m" 7000; Reserve "c" 1000; Reserve "m" 6000; Settle 0; Release 0; Reserve "m" 6000].

(** The mandate of 100.00 after the history: 30.00 spent by the derived one,
    10.00 reserved at the start, and the last 60.00. *)
Lemma spending_within_budget_witness :
  let h := fold_left (do_op no_floats 4) demo_ops {| h_db := demo_db; h_open := []; h_settled := [] |} in
  exists row, mandates (h_db h) !! "m"%string = Some row /\ spent_of row + held row <= 10000 /\ mr_spent_total row = "30.00"%string.
Proof.
  intros h. assert (exists row, mandates (h_db h) !! "m"%string = Some row /\ mr_spent_total row = "30.00"%string) as (row & Hrow & Hs).
  { eexists. split; vm_compute; reflexivity. }
  exists row. split; [exact Hrow|]. split; [|exact Hs].
  destruct (spending_within_budget no_floats 4 demo_family demo_size demo_start demo_ops 0 "m" (demo_mandate "100.00" "10.00" None) row)
    as (_ & _ & H); [|reflexivity|exact Hrow|].
  - repeat constructor; unfold small; lia.
  - assert (total_of no_floats (demo_mandate "100.00" "10.00" None) = 10000) as Ht by (vm_compute; reflexivity). by rewrite Ht in H.
Defined.

(** Two racing reservations of 50.00 on the 90.00 that are left. *)
Lemma racing_reservations_within_budget_witness :
  all_within no_floats (interleave [0; 1; 0; 1; 0; 1]%nat
    [reserve_chain no_floats 4 "m" "50.00"; reserve_chain no_floats 4 "m" "50.00"] demo_db).2.
Proof.
  change "50.00"%string with (cents_text 5000).
  apply (racing_reservations_within_budget no_floats 4 [("m"%string, 5000); ("m"%string, 5000)]).
  - repeat constructor; unfold small; cbn; lia.
  - intros j row Hj. by apply (demo_start j).
Defined.

(** The one that writes first is granted; the other is refused by the
    compare-and-swap. *)
Lemma racing_reservations_counted_witness :
  let run := interleave [0; 1; 0; 1; 0; 1]%nat [reserve_chain no_floats 4 "m" "50.00"; reserve_chain no_floats 4 "m" "50.00"] demo_db in
  exists row, mandates run.2 !! "m"%string = Some row /\ held row = 1000 + granted "m" [("m"%string, 5000); ("m"%string, 5000)] run.1.
Proof.
  intros run. subst run. change "50.00"%string with (cents_text 5000).
  destruct (racing_reservations_counted no_floats 4 [("m"%string, 5000); ("m"%string, 5000)] [0; 1; 0; 1; 0; 1]%nat demo_db) as [_ H].
  - lia.
  - repeat constructor; [unfold small; cbn; lia|done|unfold small; cbn; lia|done].
  - intros j row Hj. by apply (demo_start j).
  - destruct (H "m"%string (demo_mandate "100.00" "10.00" None) eq_refl) as (row & Hr & _ & Hh & _).
    exists row. split; [exact Hr|]. rewrite Hh. f_equal.
Defined.

(** ** The gate *)

Definition demo_limits : pyval :=
  VDict [("max_per_txn", VStr "25.00"); ("total_budget", VStr "100.00"); ("max_txn", VDict [("count", VInt 3)])]%string.
(** [{"<": [{"var": "offer.price"}, "20.00"]}] *)
Definition below_twenty : pyval := VDict [("<", VList [VDict [("var", VStr "offer.price")]; VStr "20.00"])]%string.
Definition demo_scope : pyval := VDict [("categories", texts ["food"]); ("merchants", texts [])]%string.
Definition demo_gate_claims (conditions : pyval) : pyval :=
  VDict [("currency", VStr "USD"); ("scope", demo_scope); ("conditions", conditions); ("limits", demo_limits)]%string.
Definition demo_offer (price : string) : pydict :=
  [("category", VStr "food"); ("merchant_id", VStr "rappi"); ("title", VStr "Lunch"); ("price", VStr price)]%string.
Definition demo_intent (amount : string) : pyval := VDict [("amount", VStr amount); ("currency", VStr "USD")]%string.

Definition decision_at (conditions : pyval) (price : Z) : res (decision_value * option string) :=
  let? d := gate (demo_gate_claims conditions) (demo_intent (cents_text price)) (VDict (demo_offer (cents_text price)))
    {| sp_spent_total := cents_text 6000; sp_reserved_amount := cents_text 1000; sp_txn_count := 1 |} 0 in
  Ok (decided d).

(** 19.99 passes, 20.00 is asked about by the buyer's condition, 25.01 by the
    limit per purchase, and 30.01 is over what is left of the budget. *)
Lemma gate_exact_witness :
  decision_at below_twenty 1999 = Ok (AgentApproved, None) /\
  decision_at below_twenty 2000 = Ok (AgentEscalated, Some "CONDITION_FAILED"%string) /\
  decision_at below_twenty 2501 = Ok (AgentEscalated, Some "AMOUNT_EXCEEDS_PER_TXN"%string) /\
  decision_at below_twenty 3001 = Ok (AgentRejected, Some "BUDGET_EXCEEDED"%string).
Proof.
  pose proof (fun price (Hp : 0 <= price < max_coef) => (gate_exact (demo_gate_claims below_twenty) demo_limits demo_scope (VDict [("count", VInt 3)]%string) below_twenty
      ["food"%string] [] "USD" (Some 3) 10000 2500 eq_refl eq_refl eq_refl eq_refl eq_refl eq_refl eq_refl eq_refl eq_refl eq_refl eq_refl
      (demo_intent (cents_text price)) price "USD" eq_refl eq_refl (demo_offer (cents_text price)) "food" "rappi" (VStr "Lunch") price
      eq_refl eq_refl eq_refl eq_refl 6000 1000 1 Hp ltac:(rewrite max_coef_value; lia) ltac:(rewrite max_coef_value; lia) Hp
      ltac:(lia) ltac:(lia) ltac:(lia) 0)) as H.
  refine (conj _ (conj _ (conj _ _))); (etransitivity; [apply H; rewrite max_coef_value; lia|vm_compute; reflexivity]).
Defined.

(** A signed condition without operands is not a refusal: the gate raises. *)
Example empty_negation_escapes : decision_at (VDict [("!", VList [])]%string) 1999 = Raise IndexError.
Proof. vm_compute. reflexivity. Qed.
