(* ===== verification/AgentAudit.v ===== *)
(** The evidence chain of the agent (agent/audit.py): one hash chain per
    mandate, appended to in one transaction, replayed by the verifier, and one
    root over the heads of all chains.  An append is one step, its row lock and
    transaction make it so; the verifier makes one statement per SELECT.  The
    regular expressions of agent/scrub.py are a parameter, as are the collation
    of the database, which orders chain keys, and the floats of JSON texts. *)
From stdpp Require Import sorting.
From S2P Require Import Prelude PyTime Json JsonLogic JsonParse Canonical Jose Models Prog Sha256.

(** ["0" * 64] *)
Definition GENESIS : string := "0000000000000000000000000000000000000000000000000000000000000000".
Definition SYSTEM_CHAIN : string := "system".

Definition chain_key_for (mandate_jti agent_id : option string) : string :=
  match or_str mandate_jti None with
  | Some jti => jti
  | None => match or_str agent_id None with Some a => ("agent:" +:+ a)%string | None => SYSTEM_CHAIN end
  end.

Definition _digest (prev_hash : string) (row : pyval) : res string :=
  let? text := Agent.canonical_json row in Ok (Sha256.sha256_hex (prev_hash +:+ text)%string).

(** ** The tables *)

Record chain_row : Type := { cr_head_hash : string; cr_length : Z; cr_updated_at : string }.

Record event_row : Type := {
  er_seq : Z;
  er_chain_key : string;
  er_chain_seq : Z;
  er_event_id : string;
  er_type : string;
  er_actor : option string;
  er_agent_id : option string;
  er_run_id : option string;
  er_mandate_jti : option string;
  er_payload : string;
  er_prev_hash : string;
  er_hash : string;
  er_created_at : string;
}.

Record outbox_row : Type := { ob_event_id : string; ob_type : string; ob_aggregate_id : string; ob_payload : string; ob_created_at : string }.

Record checkpoint_row : Type := {
  cp_root_hash : string; cp_chain_heads : string; cp_chains_covered : Z; cp_events_covered : Z; cp_created_at : string;
}.

Record trail : Type := {
  tr_chains : gmap string chain_row;
  tr_events : list event_row;
  tr_outbox : list outbox_row;
  tr_checkpoints : list checkpoint_row;
}.
Definition empty_trail : trail := {| tr_chains := ∅; tr_events := []; tr_outbox := []; tr_checkpoints := [] |}.

(** ** Appending *)

(** What identifies and describes an event. *)
Record event_args : Type := {
  ea_type : string;
  ea_payload : pyval;
  ea_actor : option string;
  ea_agent_id : option string;
  ea_run_id : option string;
  ea_mandate_jti : option string;
  ea_relay : bool;
  ea_scrub : bool;
  ea_chain_key : option string;
}.

(** The hashed mapping. *)
Definition event_body (event_id type : string) (actor agent_id run_id mandate_jti : option string) (payload : pyval)
    (created_at chain_key : string) : pyval :=
  VDict [("event_id", VStr event_id); ("type", VStr type); ("actor", opt_str actor); ("agent_id", opt_str agent_id);
         ("run_id", opt_str run_id); ("mandate_jti", opt_str mandate_jti); ("payload", payload); ("created_at", VStr created_at);
         ("chain_key", VStr chain_key)]%string.

(** What [append] reports of the event. *)
Record event_ref : Type := { ref_event_id : string; ref_hash : string; ref_prev_hash : string; ref_chain_key : string; ref_chain_seq : Z }.

Definition unique_event (chain_key event_id : string) (chain_seq : Z) (rows : list event_row) : bool :=
  forallb (fun r => negb (String.eqb (er_event_id r) event_id) &&
                    negb (String.eqb (er_chain_key r) chain_key && (er_chain_seq r =? chain_seq))) rows.

Definition first_truthy (l : list (option string)) (default : string) : string :=
  override (foldr (fun o rest => match or_str o None with Some s => Some s | None => rest end) None l) default.

Section Trail.
Variables (scrub_text float_repr : string -> string) (collate : gset string -> list string).

(** scrub.py *)
Fixpoint scrub_payload (value : pyval) : pyval :=
  match value with
  | VStr s => VStr (scrub_text s)
  | VDict kvs => VDict (map (fun kv => (kv.1, scrub_payload kv.2)) kvs)
  | VList l => VList (map scrub_payload l)
  | _ => value
  end.

Definition clean_payload (a : event_args) : pyval := if ea_scrub a then scrub_payload (ea_payload a) else ea_payload a.
Definition event_key (a : event_args) : string :=
  match or_str (ea_chain_key a) None with Some k => k | None => chain_key_for (ea_mandate_jti a) (ea_agent_id a) end.

(** The transaction: on an exception nothing of it stays.  [seq] is what the
    database draws for the row. *)
Definition append_transaction (created_at event_id : string) (seq : Z) (a : event_args) : st trail event_ref := rollback_on_raise (
  let key := event_key a in
  let clean := clean_payload a in
  t <- get ;;
  let head := override (tr_chains t !! key) {| cr_head_hash := GENESIS; cr_length := 0; cr_updated_at := created_at |} in
  let chain_seq := cr_length head + 1 in
  digest <- lift (_digest (cr_head_hash head)
                    (event_body event_id (ea_type a) (ea_actor a) (ea_agent_id a) (ea_run_id a) (ea_mandate_jti a) clean created_at key)) ;;
  text <- lift (Agent.canonical_json clean) ;;
  if negb (unique_event key event_id chain_seq (tr_events t)) then raise UniqueViolation
  else
    put {| tr_chains := <[key := {| cr_head_hash := digest; cr_length := chain_seq; cr_updated_at := created_at |}]> (tr_chains t);
           tr_events := tr_events t ++ [{| er_seq := seq; er_chain_key := key; er_chain_seq := chain_seq;
             er_event_id := event_id; er_type := ea_type a; er_actor := ea_actor a; er_agent_id := ea_agent_id a; er_run_id := ea_run_id a;
             er_mandate_jti := ea_mandate_jti a; er_payload := text; er_prev_hash := cr_head_hash head; er_hash := digest;
             er_created_at := created_at |}];
           tr_outbox := if ea_relay a then tr_outbox t ++ [{| ob_event_id := event_id; ob_type := ea_type a;
             ob_aggregate_id := first_truthy [ea_mandate_jti a; ea_run_id a; ea_agent_id a] "-"; ob_payload := text;
             ob_created_at := created_at |}] else tr_outbox t;
           tr_checkpoints := tr_checkpoints t |} ;;;
    ret {| ref_event_id := event_id; ref_hash := digest; ref_prev_hash := cr_head_hash head; ref_chain_key := key; ref_chain_seq := chain_seq |}).

(** ** Replaying *)

Definition earlier (r r' : event_row) : Prop := er_chain_seq r <= er_chain_seq r'.
#[export] Instance earlier_dec : RelDecision earlier.
Proof. intros r r'. apply Z_le_dec. Defined.

Definition in_chain (key : string) (r : event_row) : bool := String.eqb (er_chain_key r) key.
(** [SELECT * ... WHERE chain_key=? ORDER BY chain_seq] *)
Definition chain_rows (key : string) (t : trail) : list event_row :=
  merge_sort earlier (List.filter (in_chain key) (tr_events t)).

Definition rebuilt (r : event_row) : res pyval :=
  let? payload := loads float_repr (er_payload r) in
  Ok (event_body (er_event_id r) (er_type r) (er_actor r) (er_agent_id r) (er_run_id r) (er_mandate_jti r) payload
        (er_created_at r) (er_chain_key r)).

Inductive fault : Type := PrevHashMismatch (seq chain_seq : Z) | HashMismatch (seq chain_seq : Z) | HeadMismatch.

Record chain_result : Type := { res_chain_key : string; res_checked : Z; res_fault : option fault; res_head : string }.
Definition res_valid (r : chain_result) : bool := bool_decide (res_fault r = None).

(** The loop over the rows: where it stops, and the hash it carries. *)
Fixpoint replay_rows (key : string) (prev_hash : string) (checked : Z) (rows : list event_row) : res chain_result :=
  match rows with
  | [] => Ok {| res_chain_key := key; res_checked := checked; res_fault := None; res_head := prev_hash |}
  | r :: rest =>
      let? body := rebuilt r in
      if negb (String.eqb (er_prev_hash r) prev_hash) then
        Ok {| res_chain_key := key; res_checked := checked; res_fault := Some (PrevHashMismatch (er_seq r) (er_chain_seq r)); res_head := prev_hash |}
      else
        let? expected := _digest prev_hash body in
        if negb (String.eqb expected (er_hash r)) then
          Ok {| res_chain_key := key; res_checked := checked; res_fault := Some (HashMismatch (er_seq r) (er_chain_seq r)); res_head := prev_hash |}
        else replay_rows key (er_hash r) (checked + 1) rest
  end.

Definition against_head (stored : option chain_row) (r : chain_result) : chain_result :=
  match res_fault r, stored with
  | None, Some c => if String.eqb (cr_head_hash c) (res_head r) then r
                    else {| res_chain_key := res_chain_key r; res_checked := res_checked r; res_fault := Some HeadMismatch; res_head := res_head r |}
  | _, _ => r
  end.

(** Two statements. *)
Definition verify_chain (key : string) : prog trail chain_result :=
  rows <~ atomic (gets (chain_rows key)) ;
  r <~ plift (replay_rows key GENESIS 0 rows) ;
  match res_fault r with
  | Some _ => pret r
  | None => stored <~ atomic (gets (fun t => tr_chains t !! key)) ; pret (against_head stored r)
  end.

Fixpoint verify_each (keys : list string) : prog trail (list chain_result) :=
  match keys with
  | [] => pret []
  | key :: rest => r <~ verify_chain key ; rs <~ verify_each rest ; pret (r :: rs)
  end.

(** ** The root *)

Definition chain_heads (t : trail) : list (string * string) :=
  map (fun key => (key, match tr_chains t !! key with Some c => cr_head_hash c | None => EmptyString end)) (collate (dom (tr_chains t))).

Definition root_of (heads : list (string * string)) : res string :=
  let? text := Agent.canonical_json (VList (map (fun kh => VDict [("chain_key", VStr kh.1); ("head", VStr kh.2)]%string) heads)) in
  Ok (Sha256.sha256_hex text).

Definition compute_root : prog trail string :=
  heads <~ atomic (gets chain_heads) ; plift (root_of heads).

Record replay_result : Type := { all_chains : Z; all_checked : Z; all_root : string; all_broken : list chain_result }.
Definition all_valid (r : replay_result) : bool := bool_decide (all_broken r = []).

Definition verify_all : prog trail replay_result :=
  keys <~ atomic (gets (fun t => collate (dom (tr_chains t)))) ;
  results <~ verify_each keys ;
  root <~ compute_root ;
  pret {| all_chains := Z.of_nat (length results); all_checked := foldr (fun r acc => res_checked r + acc) 0 results;
          all_root := root; all_broken := List.filter (fun r => negb (res_valid r)) results |}.

(** The checkpoint: the signature of the root is left out of the row. *)
Definition checkpoint (at_ : string) : prog trail string :=
  rows <~ atomic (gets (fun t => (chain_heads t, foldr Z.add 0 (map (fun key => match tr_chains t !! key with Some c => cr_length c | None => 0 end)
                                                                  (collate (dom (tr_chains t))))))) ;
  let '(heads, events) := rows in
  root <~ compute_root ;
  text <~ plift (Agent.canonical_json (VDict (map (fun kh => (kh.1, VStr kh.2)) heads))) ;
  _ <~ atomic (modify (fun t => {| tr_chains := tr_chains t; tr_events := tr_events t; tr_outbox := tr_outbox t;
         tr_checkpoints := tr_checkpoints t ++ [{| cp_root_hash := root; cp_chain_heads := text;
           cp_chains_covered := Z.of_nat (length heads); cp_events_covered := events; cp_created_at := at_ |}] |})) ;
  pret root.

Inductive checkpoint_verdict : Type :=
| NoCheckpoint
| NoLongerReplays (signed current : string) (broken : chain_result)
| RootChanged (signed current : string)
| Witnessed (root : string).

Definition verify_checkpoint : prog trail checkpoint_verdict :=
  row <~ atomic (gets (fun t => last (tr_checkpoints t))) ;
  match row with
  | None => pret NoCheckpoint
  | Some row =>
      replay <~ verify_all ;
      current <~ compute_root ;
      pret (match all_broken replay with
            | broken :: _ => NoLongerReplays (cp_root_hash row) current broken
            | [] => if String.eqb (cp_root_hash row) current then Witnessed current else RootChanged (cp_root_hash row) current
            end)
  end.
End Trail.
