(* ===== verification/AgentAuditFacts.v ===== *)
(** The evidence chains of the agent: every history of appends replays, and a
    root that two databases share binds every event of every chain. *)
From stdpp Require Import sorting.
From S2P Require Import Prelude PyTime Json JsonLogic JsonParse Canonical Jose Models Prog Sha256 AgentAudit.

(** ** Canonical texts *)

Lemma agent_text v t : Agent.canonical_json v = Ok t ->
  exists j, to_json Agent.no_default v = Ok j /\ exact j = true /\ of_json j = sort_value v /\ t = print j /\ plain v = true.
Proof.
  unfold Agent.canonical_json, dumps. rewrite agent_check. destruct (plain v) eqn:Hp; [|done]. cbn [rbind].
  destruct (plain_tree Agent.no_default v Hp) as (j & Hj & Hx & Hs & _). rewrite Hj. cbn [rbind]. intros [= <-]. by exists j.
Qed.

Lemma text_of_plain v : plain v = true -> exists t, Agent.canonical_json v = Ok t.
Proof.
  intros Hp. unfold Agent.canonical_json, dumps. rewrite agent_check, Hp. cbn [rbind].
  destruct (plain_tree Agent.no_default v Hp) as (j & -> & _). by eexists.
Qed.

(** Sorting keys twice is sorting them once. *)
Definition key_le {A} (x y : string * A) : Prop := String.leb x.1 y.1 = true.

Lemma leb_trans a b c : String.leb a b = true -> String.leb b c = true -> String.leb a c = true.
Proof. intros H1 H2. apply Is_true_true. transitivity b; by apply Is_true_true. Qed.

Lemma insert_key_sorted {A} k (v : A) l : StronglySorted key_le l -> StronglySorted key_le (insert_key k v l).
Proof.
  induction 1 as [|[k' x] l Hl IH Hx]; cbn; [by repeat constructor|].
  destruct (String.leb k k') eqn:E; constructor.
  - by constructor.
  - constructor; [exact E|]. eapply Forall_impl; [exact Hx|]. intros [k2 y] Hy. by eapply leb_trans.
  - done.
  - rewrite insert_key_perm. constructor; [|exact Hx]. cbn. unfold key_le. cbn. destruct (String.leb_total k k') as [H|H]; [by rewrite H in E|exact H].
Qed.

Lemma sort_keys_sorted {A} (l : list (string * A)) : StronglySorted key_le (sort_keys l).
Proof. induction l as [|[k v] l IH]; [constructor|]. by apply insert_key_sorted. Qed.

Lemma sort_keys_fixed {A} (l : list (string * A)) : StronglySorted key_le l -> sort_keys l = l.
Proof.
  induction 1 as [|[k v] l Hl IH Hx]; [done|]. change (sort_keys ((k, v) :: l)) with (insert_key k v (sort_keys l)). rewrite IH.
  destruct Hx as [|[k' x] l Hx _]; [done|]. cbn. unfold key_le in Hx. cbn in Hx. by rewrite Hx.
Qed.

Lemma plain_members kvs : Forall (fun kv => plain kv.2 = true) kvs <-> plain (VDict kvs) = true.
Proof.
  induction kvs as [|[k x] l IH]; cbn; [done|]. rewrite Forall_cons. cbn. rewrite IH. cbn. by rewrite andb_true_iff.
Qed.

(** The tree of a plain value. *)
Definition tree (d : json_default) (v : pyval) : json := match to_json d v with Ok j => j | Raise _ => JNull end.

Lemma tree_ok d v : plain v = true -> to_json d v = Ok (tree d v).
Proof. intros Hp. unfold tree. by destruct (plain_tree d v Hp) as (j & -> & _). Qed.

Lemma dict_tree d kvs : Forall (fun kv => to_json d kv.2 = Ok (tree d kv.2)) kvs ->
  to_json d (VDict kvs) = Ok (JObj (sort_keys (map (fun kv => (kv.1, tree d kv.2)) kvs))).
Proof.
  intros H. cbn. match goal with |- (let? _ := ?g kvs in _) = _ => assert (g kvs = Ok (map (fun kv => (kv.1, tree d kv.2)) kvs)) as ->; [|done] end.
  induction H as [|[k x] l Hx _ IH]; [done|]. cbn in *. rewrite Hx. cbn [rbind]. by rewrite IH.
Qed.

(** Values with one sorted form have one tree. *)
Lemma sorted_tree d v : plain v = true -> to_json d (sort_value v) = to_json d v.
Proof.
  induction v as [v Hl Hd|l IH|kvs IH] using pyval_nested_ind; intros Hp.
  - destruct v; try done; [by destruct (Hl l)|by destruct (Hd kvs)].
  - apply plain_list in Hp. cbn. f_equal. induction IH as [|x l Hx _ IHl]; [done|]. apply andb_prop in Hp as [Hpx Hps].
    cbn. rewrite (Hx Hpx). destruct (to_json d x); [|done]. cbn [rbind]. by rewrite (IHl Hps).
  - apply plain_dict in Hp. rewrite forallb_forall in Hp.
    assert (Forall (fun kv => plain kv.2 = true /\ to_json d (sort_value kv.2) = to_json d kv.2) kvs) as Hall.
    { apply Forall_forall. intros kv Hin. rewrite Forall_forall in IH. split; [|apply IH; [done|]]; by apply Hp, list_elem_of_In. }
    cbn [sort_value]. rewrite (dict_tree d kvs).
    2: { eapply Forall_impl; [exact Hall|]. intros kv [H _]. by apply tree_ok. }
    rewrite dict_tree.
    2: { rewrite sort_keys_perm. apply Forall_fmap. eapply Forall_impl; [exact Hall|]. intros [k x] [H1 H2]. cbn in *.
         unfold tree. rewrite H2. by destruct (plain_tree d x H1) as (j & -> & _). }
    rewrite sort_keys_map, map_map. do 2 f_equal. rewrite sort_keys_fixed by apply sort_keys_sorted. f_equal.
    apply map_ext_in. intros [k x] Hin%list_elem_of_In. rewrite Forall_forall in Hall. destruct (Hall _ Hin) as [_ H]. cbn in *.
    unfold tree. by rewrite H.
Qed.

Lemma sorted_plain v : plain v = true -> plain (sort_value v) = true.
Proof.
  induction v as [v Hl Hd|l IH|kvs IH] using pyval_nested_ind; intros Hp.
  - destruct v; try done; [by destruct (Hl l)|by destruct (Hd kvs)].
  - apply plain_list in Hp. cbn. induction IH as [|x l Hx _ IHl]; [done|]. cbn in *. apply andb_prop in Hp as [Hpx Hps].
    rewrite (Hx Hpx). exact (IHl Hps).
  - apply plain_dict in Hp. rewrite forallb_forall in Hp. rewrite Forall_forall in IH. cbn [sort_value].
    apply plain_members. apply Forall_forall. intros kv Hin. rewrite sort_keys_perm in Hin. apply list_elem_of_fmap in Hin as ([k x] & -> & Hin).
    cbn. apply (IH _ Hin). apply Hp. by apply list_elem_of_In.
Qed.

Lemma sorted_text v : plain v = true -> Agent.canonical_json (sort_value v) = Agent.canonical_json v.
Proof.
  intros Hp. unfold Agent.canonical_json, dumps. rewrite !agent_check, Hp, (sorted_plain v Hp). cbn [rbind]. by rewrite sorted_tree.
Qed.

(** ** The hashed text of an event *)

Lemma body_plain id ty ac ag ru ma p at_ key : plain (event_body id ty ac ag ru ma p at_ key) = plain p.
Proof. unfold event_body. destruct ac, ag, ru, ma; cbn; by rewrite andb_true_r. Qed.

Lemma body_sorted id ty ac ag ru ma p at_ key : plain p = true ->
  Agent.canonical_json (event_body id ty ac ag ru ma (sort_value p) at_ key) = Agent.canonical_json (event_body id ty ac ag ru ma p at_ key).
Proof.
  intros Hp. unfold Agent.canonical_json, dumps. rewrite !agent_check, !body_plain, (sorted_plain p Hp), Hp. cbn [rbind].
  unfold event_body. destruct ac, ag, ru, ma; cbn; by rewrite sorted_tree.
Qed.

Lemma body_tree id ty ac ag ru ma p at_ key : plain p = true ->
  to_json Agent.no_default (event_body id ty ac ag ru ma p at_ key) =
  Ok (JObj [("actor", tree Agent.no_default (opt_str ac)); ("agent_id", tree Agent.no_default (opt_str ag));
            ("chain_key", JStr key); ("created_at", JStr at_); ("event_id", JStr id);
            ("mandate_jti", tree Agent.no_default (opt_str ma)); ("payload", tree Agent.no_default p);
            ("run_id", tree Agent.no_default (opt_str ru)); ("type", JStr ty)])%string.
Proof. intros Hp. unfold event_body. destruct ac, ag, ru, ma; cbn; by rewrite (tree_ok _ p Hp). Qed.

Lemma opt_tree_inj a b : tree Agent.no_default (opt_str a) = tree Agent.no_default (opt_str b) -> a = b.
Proof. by destruct a, b; intros [=]; subst. Qed.

Lemma tree_value d v : plain v = true -> of_json (tree d v) = sort_value v.
Proof. intros Hp. destruct (plain_tree d v Hp) as (j & Hj & _ & <- & _). unfold tree. by rewrite Hj. Qed.

(** One text, one event. *)
Lemma body_binds id ty ac ag ru ma p at_ key id' ty' ac' ag' ru' ma' p' at' key' t :
  Agent.canonical_json (event_body id ty ac ag ru ma p at_ key) = Ok t ->
  Agent.canonical_json (event_body id' ty' ac' ag' ru' ma' p' at' key') = Ok t ->
  id = id' /\ ty = ty' /\ ac = ac' /\ ag = ag' /\ ru = ru' /\ ma = ma' /\ at_ = at' /\ key = key' /\ sort_value p = sort_value p'.
Proof.
  intros (j & Hj & Xj & _ & -> & Hp)%agent_text (j' & Hj' & Xj' & _ & Ht & Hp')%agent_text.
  rewrite body_plain in Hp, Hp'. rewrite body_tree in Hj, Hj' by done. injection Hj as <-. injection Hj' as <-.
  apply print_inj in Ht; [|done|done]. injection Ht as E1 E2 E3 E4 E5 E6 E7 E8 E9. subst.
  apply opt_tree_inj in E1, E2, E6, E8. subst. rewrite <- (tree_value Agent.no_default p), <- (tree_value Agent.no_default p') by done.
  by rewrite E7.
Qed.

(** ** Chains *)

Section Facts.
Variable float_repr : string -> string.

(** A row that carries the hash of its content. *)
Definition sealed (r : event_row) : Prop := exists b, rebuilt float_repr r = Ok b /\ _digest (er_prev_hash r) b = Ok (er_hash r).

(** Each row names the hash before it. *)
Fixpoint linked_rows (prev : string) (rows : list event_row) : Prop :=
  match rows with
  | [] => True
  | r :: rest => er_prev_hash r = prev /\ sealed r /\ linked_rows (er_hash r) rest
  end.
Definition final_hash (prev : string) (rows : list event_row) : string := override (er_hash <$> last rows) prev.

Lemma final_hash_cons prev r rows : final_hash prev (r :: rows) = final_hash (er_hash r) rows.
Proof. unfold final_hash. rewrite last_cons. by destruct (last rows). Qed.

Lemma final_hash_snoc prev r rows : final_hash prev (rows ++ [r]) = er_hash r.
Proof. unfold final_hash. by rewrite last_snoc. Qed.

Lemma linked_rows_app prev rows rows' :
  linked_rows prev (rows ++ rows') <-> linked_rows prev rows /\ linked_rows (final_hash prev rows) rows'.
Proof.
  revert prev. induction rows as [|r rows IH]; intros prev; cbn [linked_rows app]; [unfold final_hash; cbn; tauto|].
  rewrite IH, final_hash_cons. tauto.
Qed.

(** Replaying finds no fault exactly in linked rows. *)
Lemma replay_linked key prev n rows : linked_rows prev rows ->
  replay_rows float_repr key prev n rows =
  Ok {| res_chain_key := key; res_checked := n + Z.of_nat (length rows); res_fault := None; res_head := final_hash prev rows |}.
Proof.
  revert prev n. induction rows as [|r rows IH]; intros prev n; cbn [linked_rows replay_rows].
  - intros _. by rewrite Z.add_0_r.
  - intros (<- & (b & Hb & Hd) & Hl). rewrite Hb. cbn [rbind]. rewrite String.eqb_refl. cbn [negb]. rewrite Hd. cbn [rbind].
    rewrite String.eqb_refl. cbn [negb]. rewrite (IH _ _ Hl), final_hash_cons. do 2 f_equal. cbn [length]. lia.
Qed.

Lemma replay_faultless key prev n rows r : replay_rows float_repr key prev n rows = Ok r -> res_fault r = None ->
  linked_rows prev rows /\ res_head r = final_hash prev rows.
Proof.
  revert prev n. induction rows as [|e rows IH]; intros prev n; cbn [linked_rows replay_rows].
  - by intros [= <-].
  - destruct (rebuilt float_repr e) as [b|] eqn:Hb; cbn [rbind]; [|done].
    destruct (String.eqb_spec (er_prev_hash e) prev) as [<-|]; cbn [negb]; [|by intros [= <-]].
    destruct (_digest (er_prev_hash e) b) as [h|] eqn:Hd; cbn [rbind]; [|done].
    destruct (String.eqb_spec h (er_hash e)) as [->|]; cbn [negb]; [|by intros [= <-]].
    intros Hr Hf. destruct (IH _ _ Hr Hf) as [Hl Hh]. rewrite final_hash_cons. split; [|done]. split; [done|]. split; [by exists b|done].
Qed.

(** ** Appending *)

Fixpoint numbered_rows (n : Z) (rows : list event_row) : Prop :=
  match rows with [] => True | r :: rest => er_chain_seq r = n + 1 /\ numbered_rows (n + 1) rest end.

Lemma numbered_rows_app n rows r :
  numbered_rows n (rows ++ [r]) <-> numbered_rows n rows /\ er_chain_seq r = n + Z.of_nat (length rows) + 1.
Proof.
  revert n. induction rows as [|x rows IH]; intros n; cbn [numbered_rows app length]; [cbn; rewrite Z.add_0_r; tauto|].
  rewrite IH. rewrite Nat2Z.inj_succ, <- Z.add_1_r. replace (n + 1 + Z.of_nat (length rows) + 1) with (n + (Z.of_nat (length rows) + 1) + 1) by lia. tauto.
Qed.

Lemma numbered_bounds n rows r : numbered_rows n rows -> r ∈ rows -> n < er_chain_seq r <= n + Z.of_nat (length rows).
Proof.
  revert n. induction rows as [|x rows IH]; intros n; [by intros _ ?%not_elem_of_nil|]. intros [Hx Hn] [->|Hr]%elem_of_cons.
  - cbn [length]. lia.
  - specialize (IH (n + 1) Hn Hr). cbn [length]. lia.
Qed.

Lemma numbered_sorted n rows : numbered_rows n rows -> StronglySorted earlier rows.
Proof.
  revert n. induction rows as [|x rows IH]; intros n; [constructor|]. intros [Hx Hn]. constructor; [by eapply IH|].
  apply Forall_forall. intros r Hr. pose proof (numbered_bounds _ _ _ Hn Hr). unfold earlier. lia.
Qed.

Lemma numbered_distinct n rows r r' : numbered_rows n rows -> r ∈ rows -> r' ∈ rows -> er_chain_seq r = er_chain_seq r' -> r = r'.
Proof.
  revert n. induction rows as [|x rows IH]; intros n; [by intros _ ?%not_elem_of_nil|].
  intros [Hx Hn] Hr%elem_of_cons Hr'%elem_of_cons Heq. destruct Hr as [->|Hr], Hr' as [->|Hr'].
  - done.
  - pose proof (numbered_bounds _ _ _ Hn Hr'). lia.
  - pose proof (numbered_bounds _ _ _ Hn Hr). lia.
  - by apply (IH (n + 1)).
Qed.

Definition rows_of (key : string) (t : trail) : list event_row := List.filter (in_chain key) (tr_events t).

#[local] Instance earlier_total : Total earlier.
Proof. intros r r'. unfold earlier. lia. Qed.
#[local] Instance earlier_trans : Transitive earlier.
Proof. intros a b c. unfold earlier. lia. Qed.

Lemma chain_rows_sorted key t : numbered_rows 0 (rows_of key t) -> chain_rows key t = rows_of key t.
Proof.
  intros Hn. unfold chain_rows. fold (rows_of key t). apply (StronglySorted_unique_strong earlier).
  - intros r r' Hr Hr' H1 H2. rewrite merge_sort_Permutation in Hr. eapply numbered_distinct; [exact Hn|done|done|]. unfold earlier in *. lia.
  - apply StronglySorted_merge_sort; apply _.
  - by eapply numbered_sorted.
  - apply merge_sort_Permutation.
Qed.

(** What appending keeps: every chain is linked and numbered, its head is where
    its rows end. *)
Definition chain_ok (t : trail) (key : string) : Prop :=
  linked_rows GENESIS (rows_of key t) /\ numbered_rows 0 (rows_of key t) /\
  match tr_chains t !! key with
  | None => rows_of key t = []
  | Some c => cr_head_hash c = final_hash GENESIS (rows_of key t) /\ cr_length c = Z.of_nat (length (rows_of key t))
  end.
Definition trail_ok (t : trail) : Prop := forall key, chain_ok t key.

Lemma empty_trail_ok : trail_ok empty_trail.
Proof. intros key. split; [done|]. split; [done|]. cbn. by rewrite lookup_empty. Qed.

Section Appends.
Variable scrub_text : string -> string.

Lemma decodable_scrub v : decodable v -> decodable (scrub_payload scrub_text v).
Proof.
  induction v as [v Hl Hd|l IH|kvs IH] using pyval_nested_ind; intros Hv.
  - destruct v; try done; [by destruct (Hl l)|by destruct (Hd kvs)].
  - cbn in *. induction IH as [|x l Hx _ IHl]; [done|]. destruct Hv as [? ?]. split; [by apply Hx|by apply IHl].
  - cbn in *. destruct Hv as [Hnd Hv]. split; [by rewrite map_map; cbn|]. clear Hnd.
    induction IH as [|[k x] l Hx _ IHl]; [done|]. destruct Hv as [? ?]. cbn in *. split; [by apply Hx|by apply IHl].
Qed.

Lemma clean_decodable a : decodable (ea_payload a) -> decodable (clean_payload scrub_text a).
Proof. intros Ha. unfold clean_payload. destruct (ea_scrub a); [by apply decodable_scrub|done]. Qed.

(** An append adds one sealed row at the end of its chain, or nothing. *)
Lemma append_cases created_at id seq a t r t' : append_transaction scrub_text created_at id seq a t = (r, t') ->
  ((exists e, r = Raise e) /\ t' = t) \/
  (exists ref row text b, let head := override (tr_chains t !! event_key a) {| cr_head_hash := GENESIS; cr_length := 0; cr_updated_at := created_at |} in r = Ok ref /\ ref_hash ref = er_hash row /\
     Agent.canonical_json (clean_payload scrub_text a) = Ok text /\
     er_payload row = text /\ b = event_body id (ea_type a) (ea_actor a) (ea_agent_id a) (ea_run_id a) (ea_mandate_jti a)
       (clean_payload scrub_text a) created_at (event_key a) /\
     (forall p, loads float_repr text = Ok p -> rebuilt float_repr row = Ok (event_body id (ea_type a) (ea_actor a) (ea_agent_id a)
       (ea_run_id a) (ea_mandate_jti a) p created_at (event_key a))) /\
     _digest (cr_head_hash head) b = Ok (er_hash row) /\ er_prev_hash row = cr_head_hash head /\
     er_chain_key row = event_key a /\ er_chain_seq row = cr_length head + 1 /\
     tr_events t' = tr_events t ++ [row] /\
     tr_chains t' = <[event_key a := {| cr_head_hash := er_hash row; cr_length := cr_length head + 1; cr_updated_at := created_at |}]> (tr_chains t)).
Proof.
  unfold append_transaction, rollback_on_raise. unfold sbind at 1, get at 1. cbn.
  destruct (_digest _ _) as [h|e] eqn:Hd; cbn; [|intros [= <- <-]; left; eauto].
  destruct (Agent.canonical_json _) as [text|e] eqn:Ht; cbn; [|intros [= <- <-]; left; eauto].
  destruct (unique_event _ _ _ _); cbn; [|intros [= <- <-]; left; eauto].
  intros [= <- <-]. right. do 4 eexists. cbn. split_and!; try reflexivity; try done.
  intros p Hp. unfold rebuilt. cbn. rewrite Hp. reflexivity.
Qed.

Lemma appended_sealed created_at id seq a t ref t' : decodable (ea_payload a) ->
  append_transaction scrub_text created_at id seq a t = (Ok ref, t') -> exists row, last (tr_events t') = Some row /\ sealed row.
Proof.
  intros Hd [[(e & [=]) _]|(? & row & text & b & _ & _ & Ht & _ & -> & Hb & Hh & Hp & _ & _ & -> & _)]%append_cases.
  exists row. rewrite last_snoc. split; [done|]. pose proof (clean_decodable _ Hd) as Hc.
  pose proof (canonical_loads float_repr _ _ Ht Hc) as Hl. apply agent_text in Ht as (_ & _ & _ & _ & _ & Hplain).
  eexists. split; [by apply Hb|]. rewrite Hp, <- Hh. unfold _digest. by rewrite body_sorted.
Qed.

Lemma rows_of_app key t t' row : tr_events t' = tr_events t ++ [row] ->
  rows_of key t' = rows_of key t ++ (if String.eqb (er_chain_key row) key then [row] else []).
Proof. intros H. unfold rows_of. rewrite H, List.filter_app. cbn. unfold in_chain at 2. by destruct (String.eqb _ _). Qed.

Lemma append_ok created_at id seq a t : decodable (ea_payload a) -> trail_ok t ->
  trail_ok (append_transaction scrub_text created_at id seq a t).2.
Proof.
  intros Hd Hok. destruct (append_transaction _ _ _ _ _ _) as [[ref|e] t'] eqn:Hrun; cbn.
  2: { apply append_cases in Hrun as [[_ ->]|(? & ? & ? & ? & [=] & _)]; done. }
  intros key. specialize (Hok key).
  destruct (appended_sealed _ _ _ _ _ _ _ Hd Hrun) as (row & Hlast & Hs).
  apply append_cases in Hrun as [[(e & [=]) _]|(? & row' & text & b & _ & _ & _ & _ & _ & _ & _ & Hp & Hk & Hn & Hev & Hch)].
  rewrite Hev, last_snoc in Hlast. injection Hlast as ->.
  unfold chain_ok. rewrite (rows_of_app key _ _ _ Hev), Hch, Hk. destruct Hok as (Hl & Hnum & Hhead).
  destruct (String.eqb_spec (event_key a) key) as [<-|Hne]; [|by rewrite app_nil_r, lookup_insert_ne].
  rewrite lookup_insert_eq, linked_rows_app, numbered_rows_app. unfold final_hash at 2. rewrite last_snoc, length_app. cbn.
  rewrite Hp, Hn. destruct (tr_chains t !! event_key a) as [c|]; cbn.
  - destruct Hhead as [-> ->]. split_and!; try done; lia.
  - rewrite Hhead in *. cbn. split_and!; done.
Qed.
End Appends.

(** ** Verifying *)

Definition sound_result (t : trail) (key : string) : chain_result :=
  {| res_chain_key := key; res_checked := Z.of_nat (length (rows_of key t)); res_fault := None; res_head := final_hash GENESIS (rows_of key t) |}.

Lemma verify_chain_sound key t : chain_ok t key -> run_prog (verify_chain float_repr key) t = (Ok (sound_result t key), t).
Proof.
  intros (Hl & Hn & Hc). unfold verify_chain. cbn. rewrite (chain_rows_sorted _ _ Hn), (replay_linked _ _ _ _ Hl). cbn.
  unfold sound_result, against_head. cbn. destruct (tr_chains t !! key) as [c|]; [|done].
  destruct Hc as [-> _]. by rewrite String.eqb_refl.
Qed.

Lemma verify_each_sound keys t : trail_ok t -> run_prog (verify_each float_repr keys) t = (Ok (map (sound_result t) keys), t).
Proof.
  intros Hok. induction keys as [|key keys IH]; [done|]. cbn [verify_each]. rewrite run_pbind.
  erewrite sbind_ok by (apply verify_chain_sound, Hok). rewrite run_pbind. by erewrite sbind_ok by apply IH.
Qed.

(** Every event is in one of the chains. *)
Lemma counted key rows keys : NoDup keys ->
  foldr (fun k acc => Z.of_nat (length (List.filter (in_chain k) (key :: rows))) + acc) 0 keys =
  foldr (fun k acc => Z.of_nat (length (List.filter (in_chain k) rows)) + acc) 0 keys + (if decide (er_chain_key key ∈ keys) then 1 else 0).
Proof.
  induction 1 as [|k keys Hk Hnd IH]; cbn [foldr]; [by rewrite decide_False by apply not_elem_of_nil|].
  rewrite IH. cbn [List.filter]. unfold in_chain at 1. destruct (String.eqb_spec (er_chain_key key) k) as [<-|Hne].
  - rewrite decide_False by done. rewrite decide_True by set_solver. cbn [length]. lia.
  - destruct (decide (er_chain_key key ∈ keys)); [rewrite decide_True by set_solver|rewrite decide_False by set_solver]; lia.
Qed.

Lemma counted_all rows keys : NoDup keys -> (forall r, r ∈ rows -> er_chain_key r ∈ keys) ->
  foldr (fun k acc => Z.of_nat (length (List.filter (in_chain k) rows)) + acc) 0 keys = Z.of_nat (length rows).
Proof.
  intros Hnd. induction rows as [|r rows IH]; intros Hin.
  - clear Hin Hnd. induction keys as [|k keys IH]; [done|]. cbn [foldr]. by rewrite IH.
  - rewrite counted by done. rewrite IH by set_solver. rewrite decide_True by set_solver. cbn [length]. lia.
Qed.

Lemma root_of_ok heads : exists root, root_of heads = Ok root.
Proof.
  unfold root_of. destruct (text_of_plain (VList (map (fun kh => VDict [("chain_key", VStr kh.1); ("head", VStr kh.2)]%string) heads))) as [text ->]; [|by eexists].
  induction heads as [|[k h] l IH]; [done|exact IH].
Qed.

(** ** Binding *)

(** The text a row's hash is the hash of. *)
Definition hashed (r : event_row) : string :=
  match rebuilt float_repr r with
  | Ok b => match Agent.canonical_json b with Ok text => (er_prev_hash r +:+ text)%string | Raise _ => EmptyString end
  | Raise _ => EmptyString
  end.
Definition collision (x y : string) : Prop := x <> y /\ Sha256.sha256_hex x = Sha256.sha256_hex y.

(** Two rows that state one event: payloads up to the order of keys, [seq] and
    [chain_seq], which no hash covers, left out. *)
Definition same_event (r r' : event_row) : Prop :=
  er_event_id r = er_event_id r' /\ er_type r = er_type r' /\ er_actor r = er_actor r' /\ er_agent_id r = er_agent_id r' /\
  er_run_id r = er_run_id r' /\ er_mandate_jti r = er_mandate_jti r' /\ er_created_at r = er_created_at r' /\
  er_chain_key r = er_chain_key r' /\ er_prev_hash r = er_prev_hash r' /\ er_hash r = er_hash r' /\
  exists p p', loads float_repr (er_payload r) = Ok p /\ loads float_repr (er_payload r') = Ok p' /\ sort_value p = sort_value p'.

Lemma sealed_inv r : sealed r -> exists p text, loads float_repr (er_payload r) = Ok p /\
  Agent.canonical_json (event_body (er_event_id r) (er_type r) (er_actor r) (er_agent_id r) (er_run_id r) (er_mandate_jti r) p
    (er_created_at r) (er_chain_key r)) = Ok text /\
  hashed r = (er_prev_hash r +:+ text)%string /\ er_hash r = Sha256.sha256_hex (hashed r).
Proof.
  intros (b & Hb & Hd). unfold hashed. rewrite Hb. unfold rebuilt in Hb. destruct (loads _ _) as [p|]; [|done]. injection Hb as <-.
  unfold _digest in Hd. destruct (Agent.canonical_json _) as [text|] eqn:Ht; [|done]. injection Hd as Hd. by exists p, text.
Qed.

Lemma string_app_inj (a b c d : string) : String.length a = String.length b -> (a +:+ c)%string = (b +:+ d)%string -> a = b /\ c = d.
Proof.
  revert b. induction a as [|x a IH]; intros [|y b] Hlen Heq; try done.
  change ((String x a +:+ c)%string) with (String x (a +:+ c)%string) in Heq.
  change ((String y b +:+ d)%string) with (String y (b +:+ d)%string) in Heq. injection Heq as -> Heq. injection Hlen as Hlen.
  by destruct (IH b Hlen Heq) as [-> ->].
Qed.

Lemma same_text r r' : sealed r -> sealed r' -> String.length (er_prev_hash r) = String.length (er_prev_hash r') ->
  hashed r = hashed r' -> same_event r r'.
Proof.
  intros (p & text & Hp & Ht & Hh & Hr)%sealed_inv (p' & text' & Hp' & Ht' & Hh' & Hr')%sealed_inv Hlen Heq.
  pose proof Heq as Heq'. rewrite Hh, Hh' in Heq'. apply string_app_inj in Heq' as [Hprev ->]; [|done].
  destruct (body_binds _ _ _ _ _ _ _ _ _ _ _ _ _ _ _ _ _ _ _ Ht Ht') as (?&?&?&?&?&?&?&?&?).
  unfold same_event. split_and!; try done; [by rewrite Hr, Hr', Heq|]. by exists p, p'.
Qed.

Lemma linked_hash_length prev rows : String.length prev = 64%nat -> linked_rows prev rows -> String.length (final_hash prev rows) = 64%nat.
Proof.
  revert prev. induction rows as [|r rows IH]; intros prev Hlen; [done|]. intros (_ & Hs & Hl). rewrite final_hash_cons. apply IH; [|done].
  apply sealed_inv in Hs as (_ & _ & _ & _ & _ & ->). apply Sha256.sha256_hex_length.
Qed.

(** Two linked chains with one last hash state the same events, unless two of
    their texts collide or one hashes to the first hash of every chain. *)
Lemma linked_bind rows rows' : linked_rows GENESIS rows -> linked_rows GENESIS rows' -> final_hash GENESIS rows = final_hash GENESIS rows' ->
  Forall2 same_event rows rows' \/ (exists r r', r ∈ rows /\ r' ∈ rows' /\ collision (hashed r) (hashed r')) \/
  (exists r, r ∈ rows ++ rows' /\ Sha256.sha256_hex (hashed r) = GENESIS).
Proof.
  assert (Hfirst : forall r, sealed r -> er_hash r = GENESIS -> Sha256.sha256_hex (hashed r) = GENESIS).
  { intros r (_ & _ & _ & _ & _ & ->)%sealed_inv. done. }
  revert rows'. induction rows as [|r rows IH] using rev_ind; intros rows'; destruct rows' as [|r' rows' _] using rev_ind;
    rewrite ?linked_rows_app, ?final_hash_snoc; cbn [linked_rows].
  - by left.
  - intros _ (_ & _ & Hs & _) Heq. right. right. exists r'. split; [set_solver|]. by apply Hfirst.
  - intros (_ & _ & Hs & _) _ Heq. right. right. exists r. split; [set_solver|]. by apply Hfirst.
  - intros (Hl & Hp & Hs & _) (Hl' & Hp' & Hs' & _) Heq.
    destruct (decide (hashed r = hashed r')) as [Ht|Hne].
    2: { right. left. exists r, r'. split_and!; [set_solver|set_solver|]. split; [done|].
         apply sealed_inv in Hs as (_ & _ & _ & _ & _ & <-). by apply sealed_inv in Hs' as (_ & _ & _ & _ & _ & <-). }
    assert (same_event r r') as Hsame.
    { apply same_text; [done..| |done]. rewrite Hp, Hp'. by rewrite !linked_hash_length. }
    destruct (IH rows' Hl Hl') as [H|[(x & x' & ? & ? & ?)|(x & ? & ?)]].
    + rewrite <- Hp, <- Hp'. by destruct Hsame as (_ & _ & _ & _ & _ & _ & _ & _ & H & _).
    + left. by apply Forall2_app; [|constructor].
    + right. left. exists x, x'. split_and!; [set_solver|set_solver|done].
    + right. right. exists x. split; [set_solver|done].
Qed.

Section Database.
Variable collate : gset string -> list string.
Hypothesis collates : forall s, collate s ≡ₚ elements s.

Lemma verify_all_sound t : trail_ok t ->
  exists root, run_prog (verify_all float_repr collate) t =
    (Ok {| all_chains := Z.of_nat (size (tr_chains t)); all_checked := Z.of_nat (length (tr_events t)); all_root := root; all_broken := [] |}, t).
Proof.
  intros Hok. destruct (root_of_ok (chain_heads collate t)) as [root Hroot]. exists root.
  unfold verify_all. cbn. rewrite run_pbind. erewrite sbind_ok by (apply verify_each_sound, Hok). cbn. rewrite Hroot. cbn.
  pose proof (collates (dom (tr_chains t))) as Hp.
  assert (length (collate (dom (tr_chains t))) = size (tr_chains t)) as Hsize by by rewrite Hp, <- size_dom.
  assert (List.filter (fun r => negb (res_valid r)) (map (sound_result t) (collate (dom (tr_chains t)))) = []) as ->.
  { clear. induction (collate (dom (tr_chains t))) as [|k l IH]; [done|]. cbn [map List.filter]. unfold res_valid at 1.
    by rewrite bool_decide_eq_true_2. }
  rewrite length_map, Hsize. do 3 f_equal. rewrite <- (counted_all (tr_events t) (collate (dom (tr_chains t)))).
  - clear. by induction (collate (dom (tr_chains t))) as [|k l IH]; [|cbn; rewrite IH].
  - rewrite Hp. apply NoDup_elements.
  - intros r Hr. rewrite Hp. apply elem_of_elements, elem_of_dom. destruct (Hok (er_chain_key r)) as (_ & _ & Hc).
    destruct (tr_chains t !! er_chain_key r) as [c|]; [by eexists|]. exfalso.
    assert (r ∈ rows_of (er_chain_key r) t) as Hin.
    { apply list_elem_of_In, filter_In. split; [by apply list_elem_of_In|]. apply String.eqb_refl. }
    rewrite Hc in Hin. by apply not_elem_of_nil in Hin.
Qed.

Lemma verify_chain_inv key t r t' : run_prog (verify_chain float_repr key) t = (Ok r, t') ->
  t' = t /\ (res_fault r = None -> linked_rows GENESIS (chain_rows key t) /\
              forall c, tr_chains t !! key = Some c -> cr_head_hash c = final_hash GENESIS (chain_rows key t)).
Proof.
  unfold verify_chain. cbn. destruct (replay_rows _ _ _ _ _) as [x|] eqn:Hx; cbn; [|done].
  destruct (res_fault x) eqn:Hf; cbn; [intros [= <- <-]; split; [done|by rewrite Hf]|].
  destruct (replay_faultless _ _ _ _ _ Hx Hf) as [Hl Hh]. unfold against_head. rewrite Hf.
  destruct (tr_chains t !! key) as [c|]; [|intros [= <- <-]; done].
  destruct (String.eqb_spec (cr_head_hash c) (res_head x)) as [E|]; intros [= <- <-]; split; try done.
  intros _. split; [done|]. intros c' [= <-]. congruence.
Qed.

Lemma verify_each_inv keys t rs t' : run_prog (verify_each float_repr keys) t = (Ok rs, t') -> t' = t /\
  (List.filter (fun r => negb (res_valid r)) rs = [] -> forall key, key ∈ keys -> linked_rows GENESIS (chain_rows key t) /\
     forall c, tr_chains t !! key = Some c -> cr_head_hash c = final_hash GENESIS (chain_rows key t)).
Proof.
  revert rs t'. induction keys as [|key keys IH]; intros rs t'; cbn [verify_each].
  - intros [= <- <-]. split; [done|]. by intros _ key ?%not_elem_of_nil.
  - rewrite run_pbind. intros (r & t1 & [-> Hr]%verify_chain_inv & H)%sbind_inv_ok. rewrite run_pbind in H.
    apply sbind_inv_ok in H as (rs' & t2 & [-> Hrs]%IH & [= <- <-]). split; [done|]. cbn. unfold res_valid at 1.
    destruct (decide (res_fault r = None)) as [Hf|Hf]; [|by rewrite bool_decide_eq_false_2].
    rewrite bool_decide_eq_true_2 by done. intros Hall k [->|Hk]%elem_of_cons; [by apply Hr|by apply Hrs].
Qed.

Lemma verify_all_inv t r t' : run_prog (verify_all float_repr collate) t = (Ok r, t') -> all_valid r = true ->
  root_of (chain_heads collate t) = Ok (all_root r) /\
  forall key c, tr_chains t !! key = Some c -> linked_rows GENESIS (chain_rows key t) /\ cr_head_hash c = final_hash GENESIS (chain_rows key t).
Proof.
  unfold verify_all. cbn. rewrite run_pbind. intros (rs & t1 & [-> Hrs]%verify_each_inv & H)%sbind_inv_ok Hv.
  cbn in H. destruct (root_of _) as [root|] eqn:Hroot; [|done]. injection H as <- <-. cbn. split; [done|].
  unfold all_valid in Hv. apply bool_decide_eq_true in Hv. intros key c Hc. destruct (Hrs Hv key) as [Hl Hh]; [|by split; [|apply Hh]].
  rewrite collates. apply elem_of_elements, elem_of_dom. by eexists.
Qed.

Lemma verify_all_state t r t' : run_prog (verify_all float_repr collate) t = (Ok r, t') -> t' = t.
Proof.
  unfold verify_all. cbn. rewrite run_pbind. intros (rs & t1 & [-> _]%verify_each_inv & H)%sbind_inv_ok.
  cbn in H. destruct (root_of _) as [root|]; [|done]. by injection H.
Qed.

Definition heads_value (heads : list (string * string)) : pyval :=
  VList (map (fun kh => VDict [("chain_key", VStr kh.1); ("head", VStr kh.2)]%string) heads).

Lemma heads_sorted heads : sort_value (heads_value heads) = heads_value heads.
Proof. unfold heads_value. cbn. f_equal. induction heads as [|[k h] l IH]; [done|]. cbn in *. by rewrite IH. Qed.

Lemma heads_value_inj heads heads' : heads_value heads = heads_value heads' -> heads = heads'.
Proof.
  intros [= H]. revert heads' H. induction heads as [|[k h] l IH]; intros [|[k' h'] l'] H; try done.
  cbn in H. injection H as -> -> H. f_equal. by apply IH.
Qed.

(** One root, one list of heads. *)
Lemma root_binds heads heads' root : root_of heads = Ok root -> root_of heads' = Ok root ->
  heads = heads' \/ (exists x y, Agent.canonical_json (heads_value heads) = Ok x /\ Agent.canonical_json (heads_value heads') = Ok y /\ collision x y).
Proof.
  unfold root_of. fold (heads_value heads) (heads_value heads').
  destruct (Agent.canonical_json (heads_value heads)) as [x|] eqn:Hx; [|done]. destruct (Agent.canonical_json (heads_value heads')) as [y|] eqn:Hy; [|done].
  intros [= Hrx] [= Hry]. destruct (decide (x = y)) as [->|Hne]; [left|right; exists x, y; split_and!; [done..|]; split; [done|congruence]].
  apply agent_text in Hx as (j & _ & Xj & Hj & -> & _). apply agent_text in Hy as (j' & _ & Xj' & Hj' & Heq & _).
  apply print_inj in Heq as ->; [|done|done]. apply heads_value_inj. rewrite <- (heads_sorted heads), <- (heads_sorted heads'). congruence.
Qed.

(** Every event row the database holds was appended or comes from elsewhere; a
    row of a chain the [chains] table names is one the verifier replays. *)
Lemma chain_rows_in key t r : r ∈ chain_rows key t -> r ∈ tr_events t.
Proof.
  unfold chain_rows. rewrite merge_sort_Permutation, list_elem_of_In. intros [H _]%filter_In. by apply list_elem_of_In.
Qed.

Lemma heads_dom t t' : chain_heads collate t = chain_heads collate t' ->
  dom (tr_chains t) = dom (tr_chains t') /\
  forall key c, tr_chains t !! key = Some c -> exists c', tr_chains t' !! key = Some c' /\ cr_head_hash c = cr_head_hash c'.
Proof.
  intros H. assert (Hk : forall t, (chain_heads collate t).*1 = collate (dom (tr_chains t))).
  { intros u. unfold chain_heads. rewrite <- list_fmap_compose. apply list_fmap_id. }
  assert (dom (tr_chains t) = dom (tr_chains t')) as Hd.
  { apply set_eq. intros key. rewrite <- !elem_of_elements, <- !collates, <- !Hk. by rewrite H. }
  split; [done|]. intros key c Hc. assert (key ∈ dom (tr_chains t')) as [c' Hc']%elem_of_dom by (rewrite <- Hd; apply elem_of_dom; by eexists).
  exists c'. split; [done|]. assert (key ∈ collate (dom (tr_chains t))) as Hin.
  { rewrite collates. apply elem_of_elements, elem_of_dom. by eexists. }
  unfold chain_heads in H. rewrite <- Hd in H. apply list_elem_of_In in Hin.
  pose proof (proj1 map_ext_in_iff H key Hin) as He. cbn in He. rewrite Hc, Hc' in He. by injection He.
Qed.
End Database.
End Facts.
