(* ===== verification/AgentChains.v ===== *)
(** What the evidence chains of the agent promise: a history of appends
    verifies, a signed root binds every event of every chain, and when the
    verifier is wrong about a chain. *)
From stdpp Require Import sorting.
From S2P Require Import Prelude PyTime Decimal Json JsonLogic JsonParse Canonical Jose Models Prog Sha256 AgentAudit AgentAuditFacts.

Section Chains.
Variables (scrub_text float_repr : string -> string) (collate : gset string -> list string).

(** One call of [append]: the instant and the identifier it draws, the number
    the database gives the row, its arguments. *)
Definition append_call : Type := string * string * Z * event_args.
Definition append_step (t : trail) (c : append_call) : trail :=
  let '(created_at, event_id, seq, a) := c in (append_transaction scrub_text created_at event_id seq a t).2.
Definition appended (calls : list append_call) : trail := fold_left append_step calls empty_trail.

Lemma appended_ok calls : Forall (fun c => decodable (ea_payload c.2)) calls -> trail_ok float_repr (appended calls).
Proof.
  intros H. unfold appended. pose proof (empty_trail_ok float_repr) as Hok. revert Hok. generalize empty_trail.
  induction H as [|[[[at_ id] seq] a] calls Ha _ IH]; intros t Hok; [done|]. apply IH. by apply append_ok.
Qed.

(** C27: Whatever was appended, in whatever chains, with whatever failures among the
    calls, the verifier finds every chain intact: it replays every event of
    the database and reports no broken chain. *)
Theorem every_history_verifies (calls : list append_call) :
  (forall s, collate s ≡ₚ elements s) -> Forall (fun c => decodable (ea_payload c.2)) calls ->
  exists root, run_prog (verify_all float_repr collate) (appended calls) =
    (Ok {| all_chains := Z.of_nat (size (tr_chains (appended calls))); all_checked := Z.of_nat (length (tr_events (appended calls)));
           all_root := root; all_broken := [] |}, appended calls).
Proof. intros Hc Hd. apply verify_all_sound; [exact Hc|]. by apply appended_ok. Qed.

(** Two databases whose hashed texts collide: the events, one of them with the
    first hash of every chain, or the texts of the two roots. *)
Definition texts_collide (t t' : trail) : Prop :=
  (exists r r', r ∈ tr_events t /\ r' ∈ tr_events t' /\ collision (hashed float_repr r) (hashed float_repr r')) \/
  (exists r, r ∈ tr_events t ++ tr_events t' /\ Sha256.sha256_hex (hashed float_repr r) = GENESIS) \/
  (exists x y, Agent.canonical_json (heads_value (chain_heads collate t)) = Ok x /\
               Agent.canonical_json (heads_value (chain_heads collate t')) = Ok y /\ collision x y).

Lemma all_or {A} (P : A -> Prop) (Q : Prop) (l : list A) : (forall x, x ∈ l -> P x \/ Q) -> (forall x, x ∈ l -> P x) \/ Q.
Proof.
  induction l as [|x l IH]; intros H; [left; by intros x ?%not_elem_of_nil|].
  destruct (H x) as [Hx|]; [set_solver| |by right]. destruct IH as [Hall|]; [set_solver| |by right]. left. set_solver.
Qed.

Lemma checkpoint_root t at_ root : (run_prog (checkpoint collate at_) t).1 = Ok root -> root_of (chain_heads collate t) = Ok root.
Proof.
  unfold checkpoint. cbn. destruct (root_of (chain_heads collate t)) as [x|]; cbn; [|done].
  destruct (Agent.canonical_json _); cbn; [by intros [= ->]|done].
Qed.

Lemma witnessed_inv : (forall s, collate s ≡ₚ elements s) -> forall t now, (run_prog (verify_checkpoint float_repr collate) t).1 = Ok (Witnessed now) ->
  cp_root_hash <$> last (tr_checkpoints t) = Some now /\ root_of (chain_heads collate t) = Ok now /\
  forall key c, tr_chains t !! key = Some c -> linked_rows float_repr GENESIS (chain_rows key t) /\ cr_head_hash c = final_hash GENESIS (chain_rows key t).
Proof.
  intros Hcol t now. unfold verify_checkpoint. cbn -[verify_all]. destruct (last (tr_checkpoints t)) as [row|]; [|done]. cbn -[verify_all]. rewrite run_pbind. unfold sbind.
  destruct (run_prog (verify_all float_repr collate) t) as [[r|] t1] eqn:Hall; [|done].
  assert (t1 = t) as -> by by eapply verify_all_state. cbn. destruct (root_of (chain_heads collate t)) as [current|] eqn:Hroot; [|done]. cbn.
  destruct (all_broken r) eqn:Hb; [|done]. destruct (String.eqb_spec (cp_root_hash row) current) as [<-|]; [|done].
  intros [= <-]. split; [done|]. split; [done|]. eapply verify_all_inv; [exact Hcol|exact Hall|]. unfold all_valid. by apply bool_decide_eq_true_2.
Qed.

Lemma chains_bind t t' root : (forall s, collate s ≡ₚ elements s) -> root_of (chain_heads collate t) = Ok root -> root_of (chain_heads collate t') = Ok root ->
  (forall key c, tr_chains t !! key = Some c -> linked_rows float_repr GENESIS (chain_rows key t) /\ cr_head_hash c = final_hash GENESIS (chain_rows key t)) ->
  (forall key c, tr_chains t' !! key = Some c -> linked_rows float_repr GENESIS (chain_rows key t') /\ cr_head_hash c = final_hash GENESIS (chain_rows key t')) ->
  (dom (tr_chains t) = dom (tr_chains t') /\
   forall key, key ∈ dom (tr_chains t) -> Forall2 (same_event float_repr) (chain_rows key t) (chain_rows key t')) \/ texts_collide t t'.
Proof.
  intros Hcol Hr Hr' Hl Hl'. destruct (root_binds _ _ _ Hr Hr') as [Hh|Hc]; [|right; right; by right].
  destruct (heads_dom collate Hcol _ _ Hh) as [Hd Hheads].
  destruct (all_or (fun key => Forall2 (same_event float_repr) (chain_rows key t) (chain_rows key t')) (texts_collide t t')
    (elements (dom (tr_chains t)))) as [Hall|]; [|left; split; [done|]|by right].
  2: { intros key Hk. by apply Hall, elem_of_elements. }
  intros key [c Hc]%elem_of_elements%elem_of_dom. destruct (Hheads _ _ Hc) as (c' & Hc' & Heq).
  destruct (Hl _ _ Hc) as [Hlk Hh1], (Hl' _ _ Hc') as [Hlk' Hh2].
  destruct (linked_bind _ _ _ Hlk Hlk') as [H|[(r & r' & ? & ? & ?)|(r & Hin & ?)]]; [congruence|by left| |]; right.
  - left. exists r, r'. split_and!; [by eapply chain_rows_in|by eapply chain_rows_in|done].
  - right. left. exists r. split; [|done]. apply elem_of_app in Hin. apply elem_of_app. by destruct Hin; [left|right]; eapply chain_rows_in.
Qed.

(** C6: A checkpoint of an intact database binds its whole history: if the
    verifier accepts the signed root against the database as it is later,
    rewritten by whoever holds it, that database has the same chains with the
    same events in the same order, or two different texts of the two
    databases have one SHA-256 hash (or one hashes to the fixed first hash). *)
Theorem witnessed_checkpoint_binds (t t' : trail) at_ root now :
  (forall s, collate s ≡ₚ elements s) -> trail_ok float_repr t ->
  (run_prog (checkpoint collate at_) t).1 = Ok root ->
  cp_root_hash <$> last (tr_checkpoints t') = Some root ->
  (run_prog (verify_checkpoint float_repr collate) t').1 = Ok (Witnessed now) ->
  now = root /\
  ((dom (tr_chains t) = dom (tr_chains t') /\
    forall key, key ∈ dom (tr_chains t) -> Forall2 (same_event float_repr) (chain_rows key t) (chain_rows key t')) \/ texts_collide t t').
Proof.
  intros Hcol Hok Hcp Hrow Hver.
  assert (root_of (chain_heads collate t) = Ok root) as Hroot by by apply (checkpoint_root _ at_).
  destruct (witnessed_inv Hcol _ _ Hver) as (Hnow & Hroot' & Hl'). rewrite Hrow in Hnow. injection Hnow as ->. split; [done|].
  apply (chains_bind t t' now); [done..| |done]. intros key c Hc. destruct (Hok key) as (Hl & Hn & Hh). rewrite Hc in Hh.
  rewrite (chain_rows_sorted _ _ Hn). by destruct Hh.
Qed.

(** An append between the two SELECTs of [verify_chain] makes it accuse an intact
    chain: the rows it replayed end before the head it then reads. *)
Theorem append_between_reads_alarms (t t' : trail) created_at event_id seq a ref :
  trail_ok float_repr t -> decodable (ea_payload a) ->
  append_transaction scrub_text created_at event_id seq a t = (Ok ref, t') ->
  let key := event_key a in
  let verifier := step_prog (verify_chain float_repr key) t in
  verifier.2 = t /\
  (exists r, (run_prog (verify_chain float_repr key) t').1 = Ok r /\ res_fault r = None) /\
  ((exists r, (run_prog verifier.1 t').1 = Ok r /\ res_fault r = Some HeadMismatch) \/
   ref_hash ref = final_hash GENESIS (chain_rows key t)).
Proof.
  intros Hok Hd Happ key verifier. assert (trail_ok float_repr t') as Hok'.
  { pose proof (append_ok float_repr scrub_text created_at event_id seq a t Hd Hok) as H. by rewrite Happ in H. }
  split; [done|]. split; [by rewrite (verify_chain_sound _ _ _ (Hok' key)); eexists|].
  destruct (append_cases float_repr _ _ _ _ _ _ _ _ Happ) as [[(? & [=]) _]|(ref' & row & text & b & [= <-] & Href & _ & _ & _ & _ & _ & _ & _ & _ & _ & Hch)].
  destruct (Hok key) as (Hl & Hn & _). unfold verifier. cbn. rewrite (chain_rows_sorted _ _ Hn), (replay_linked _ _ _ _ _ Hl). cbn.
  rewrite Hch, lookup_insert_eq. unfold against_head. cbn. rewrite <- Href.
  destruct (String.eqb_spec (ref_hash ref) (final_hash GENESIS (rows_of key t))) as [Heq|]; [by right|left; by eexists].
Qed.
End Chains.

(** ** A database of two chains *)

Definition demo_call (n : Z) (event_id jti : string) : append_call :=
  (("2026-03-01T10:00:00Z")%string, event_id, n,
   {| ea_type := "purchase"; ea_payload := VDict [("total", VInt (100 * n)); ("merchant", VStr "m1")]%string; ea_actor := Some "agent"%string;
      ea_agent_id := Some "ag1"%string; ea_run_id := None; ea_mandate_jti := Some jti; ea_relay := true; ea_scrub := true; ea_chain_key := None |}).
Definition demo_calls : list append_call := [demo_call 1 "evt1" "jti1"; demo_call 2 "evt2" "jti2"; demo_call 3 "evt3" "jti1"; demo_call 3 "evt3" "jti1"].
Definition demo_trail : trail := appended id demo_calls.
Definition demo_checkpoint : res string * trail := run_prog (checkpoint elements "2026-03-01T11:00:00Z") demo_trail.
Definition demo_root : string := match demo_checkpoint.1 with Ok root => root | Raise _ => EmptyString end.

Lemma demo_payload_decodable n event_id jti : (length (digits (Z.abs (100 * n))) <= max_int_digits)%nat ->
  decodable (ea_payload (demo_call n event_id jti).2).
Proof. intros H. cbn. split; [repeat constructor; set_solver|]. split; [exact H|done]. Qed.

Lemma demo_decodable : Forall (fun c : append_call => decodable (ea_payload c.2)) demo_calls.
Proof.
  unfold demo_calls. repeat (apply Forall_cons_2; [apply demo_payload_decodable, Nat.leb_le; by vm_compute|]). apply Forall_nil_2.
Qed.

Lemma every_history_verifies_witness :
  length (tr_events demo_trail) = 3%nat /\ exists root, run_prog (verify_all id elements) demo_trail =
    (Ok {| all_chains := Z.of_nat (size (tr_chains demo_trail)); all_checked := Z.of_nat (length (tr_events demo_trail));
           all_root := root; all_broken := [] |}, demo_trail).
Proof. split; [by vm_compute|]. exact (every_history_verifies id id elements demo_calls (fun s => reflexivity _) demo_decodable). Defined.


Lemma demo_ok : trail_ok id demo_trail.
Proof. exact (appended_ok id id demo_calls demo_decodable). Qed.

Lemma witnessed_checkpoint_binds_witness :
  demo_root = demo_root /\
  ((dom (tr_chains demo_trail) = dom (tr_chains demo_checkpoint.2) /\
    forall key, key ∈ dom (tr_chains demo_trail) -> Forall2 (same_event id) (chain_rows key demo_trail) (chain_rows key demo_checkpoint.2)) \/
   texts_collide id elements demo_trail demo_checkpoint.2).
Proof.
  apply (witnessed_checkpoint_binds id elements demo_trail demo_checkpoint.2 "2026-03-01T11:00:00Z" demo_root demo_root).
  - intros s. reflexivity.
  - exact demo_ok.
  - by vm_compute.
  - by vm_compute.
  - by vm_compute.
Defined.

Definition demo_next : res event_ref * trail :=
  let '(created_at, event_id, seq, a) := demo_call 4 "evt4" "jti1" in append_transaction id created_at event_id seq a demo_trail.
Definition demo_ref : event_ref :=
  match demo_next.1 with
  | Ok ref => ref
  | Raise _ => {| ref_event_id := EmptyString; ref_hash := EmptyString; ref_prev_hash := EmptyString; ref_chain_key := EmptyString; ref_chain_seq := 0 |}
  end.

Lemma append_between_reads_alarms_witness :
  let verifier := step_prog (verify_chain id "jti1") demo_trail in
  verifier.2 = demo_trail /\
  (exists r, (run_prog (verify_chain id "jti1") demo_next.2).1 = Ok r /\ res_fault r = None) /\
  ((exists r, (run_prog verifier.1 demo_next.2).1 = Ok r /\ res_fault r = Some HeadMismatch) \/
   ref_hash demo_ref = final_hash GENESIS (chain_rows "jti1" demo_trail)).
Proof.
  apply (append_between_reads_alarms id id demo_trail demo_next.2 "2026-03-01T10:00:00Z" "evt4" 4 (demo_call 4 "evt4" "jti1").2 demo_ref).
  - exact demo_ok.
  - apply demo_payload_decodable, Nat.leb_le. by vm_compute.
  - by vm_compute.
Defined.
