(* ===== verification/AgentWorld.v ===== *)
(** The database of the agent lane (agent/db.py over
    aval/contracts/fixtures/schema.sql) as the kernel, the mandates, the
    escalations, the merchant and the rail use it, one step per statement; the
    identifiers and instants of agent/ids.py; [json.dumps] with its defaults; and
    the guardrail counters of agent/limits.py. *)
From S2P Require Import Prelude PyTime Decimal Json JsonLogic JsonParse Models Canonical Jose RappiClient Prog AgentRules AgentBudget AgentAudit.

(** ** [json.dumps(value)]: ASCII, with spaces, keys in order *)

Definition float_text (r : string) : string :=
  if String.eqb r "nan" then "NaN" else if String.eqb r "inf" then "Infinity" else if String.eqb r "-inf" then "-Infinity" else r.

Fixpoint json_dumps (v : pyval) : res string :=
  match v with
  | VNone => Ok "null"%string
  | VBool b => Ok (if b then "true" else "false")%string
  | VInt n => Ok (int_str n)
  | VStr s => Ok (quoted s EmptyString)
  | VFloat r => Ok (float_text r)
  | VDec _ | VTime _ => Raise TypeError
  | VList l => let? parts := res_seq (map json_dumps l) in Ok ("[" +:+ join ", " parts +:+ "]")%string
  | VDict kvs =>
      let? parts := res_seq (map (fun kv => let? x := json_dumps kv.2 in Ok (quoted kv.1 (": " +:+ x)%string)) kvs) in
      Ok ("{" +:+ join ", " parts +:+ "}")%string
  end.

(** ** Rows *)

Record intent_row : Type := {
  pi_jti : string;
  pi_mandate_jti : string;
  pi_agent_id : string;
  pi_nonce : option string;
  pi_intent : option string;
  pi_signature : option string;
  pi_status : string;
  pi_created_at : string;
}.

Record purchase_row : Type := {
  pu_mandate_jti : string;
  pu_intent_jti : string;
  pu_status : string;
  pu_reason_code : option string;
  pu_amount : string;
  pu_reservation_id : option string;
  pu_receipt : option string;
  pu_created_at : string;
  pu_updated_at : string;
}.

Record escalation_row : Type := {
  es_purchase_id : string;
  es_mandate_jti : string;
  es_run_id : option string;
  es_approver_id : option string;
  es_status : string;
  es_diff : string;
  es_timeout_at : string;
  es_decision : option string;
  es_approver : option string;
  es_channel : option string;
  es_receipt_sig : option string;
  es_created_at : string;
}.

Record instrument_row : Type := { in_mandate_jti : string; in_rail : string; in_status : string; in_created_at : string }.

Record offer_row : Type := {
  of_merchant_id : string;
  of_category : string;
  of_title : string;
  of_amount : string;
  of_currency : string;
  of_origin : option string;
  of_destination : option string;
  of_depart_date : option string;
  of_description : option string;
  of_active : bool;
}.

Record idempotency_row : Type := { ik_scope : string; ik_response : string }.

(** The database, its clock, and the identifiers drawn so far. *)
Record world : Type := {
  w_db : db;
  w_trail : trail;
  w_intents : list intent_row;
  w_purchases : gmap string purchase_row;
  w_escalations : gmap string escalation_row;
  w_instruments : gmap string instrument_row;
  w_offers : gmap string offer_row;
  w_idempotency : gmap string idempotency_row;
  w_approvers : gmap string (option string);
  w_counters : gmap (string * string) Z;
  w_drawn : nat;
}.

Definition set_db (d : db) (w : world) : world :=
  {| w_db := d; w_trail := w_trail w; w_intents := w_intents w; w_purchases := w_purchases w; w_escalations := w_escalations w;
     w_instruments := w_instruments w; w_offers := w_offers w; w_idempotency := w_idempotency w; w_approvers := w_approvers w;
     w_counters := w_counters w; w_drawn := w_drawn w |}.
Definition set_trail (t : trail) (w : world) : world :=
  {| w_db := w_db w; w_trail := t; w_intents := w_intents w; w_purchases := w_purchases w; w_escalations := w_escalations w;
     w_instruments := w_instruments w; w_offers := w_offers w; w_idempotency := w_idempotency w; w_approvers := w_approvers w;
     w_counters := w_counters w; w_drawn := w_drawn w |}.
Definition set_intents (l : list intent_row) (w : world) : world :=
  {| w_db := w_db w; w_trail := w_trail w; w_intents := l; w_purchases := w_purchases w; w_escalations := w_escalations w;
     w_instruments := w_instruments w; w_offers := w_offers w; w_idempotency := w_idempotency w; w_approvers := w_approvers w;
     w_counters := w_counters w; w_drawn := w_drawn w |}.
Definition set_purchases (m : gmap string purchase_row) (w : world) : world :=
  {| w_db := w_db w; w_trail := w_trail w; w_intents := w_intents w; w_purchases := m; w_escalations := w_escalations w;
     w_instruments := w_instruments w; w_offers := w_offers w; w_idempotency := w_idempotency w; w_approvers := w_approvers w;
     w_counters := w_counters w; w_drawn := w_drawn w |}.
Definition set_escalations (m : gmap string escalation_row) (w : world) : world :=
  {| w_db := w_db w; w_trail := w_trail w; w_intents := w_intents w; w_purchases := w_purchases w; w_escalations := m;
     w_instruments := w_instruments w; w_offers := w_offers w; w_idempotency := w_idempotency w; w_approvers := w_approvers w;
     w_counters := w_counters w; w_drawn := w_drawn w |}.
Definition set_instruments (m : gmap string instrument_row) (w : world) : world :=
  {| w_db := w_db w; w_trail := w_trail w; w_intents := w_intents w; w_purchases := w_purchases w; w_escalations := w_escalations w;
     w_instruments := m; w_offers := w_offers w; w_idempotency := w_idempotency w; w_approvers := w_approvers w;
     w_counters := w_counters w; w_drawn := w_drawn w |}.
Definition set_offers (m : gmap string offer_row) (w : world) : world :=
  {| w_db := w_db w; w_trail := w_trail w; w_intents := w_intents w; w_purchases := w_purchases w; w_escalations := w_escalations w;
     w_instruments := w_instruments w; w_offers := m; w_idempotency := w_idempotency w; w_approvers := w_approvers w;
     w_counters := w_counters w; w_drawn := w_drawn w |}.
Definition set_idempotency (m : gmap string idempotency_row) (w : world) : world :=
  {| w_db := w_db w; w_trail := w_trail w; w_intents := w_intents w; w_purchases := w_purchases w; w_escalations := w_escalations w;
     w_instruments := w_instruments w; w_offers := w_offers w; w_idempotency := m; w_approvers := w_approvers w;
     w_counters := w_counters w; w_drawn := w_drawn w |}.
Definition set_counters (m : gmap (string * string) Z) (w : world) : world :=
  {| w_db := w_db w; w_trail := w_trail w; w_intents := w_intents w; w_purchases := w_purchases w; w_escalations := w_escalations w;
     w_instruments := w_instruments w; w_offers := w_offers w; w_idempotency := w_idempotency w; w_approvers := w_approvers w;
     w_counters := m; w_drawn := w_drawn w |}.
Definition set_drawn (n : nat) (w : world) : world :=
  {| w_db := w_db w; w_trail := w_trail w; w_intents := w_intents w; w_purchases := w_purchases w; w_escalations := w_escalations w;
     w_instruments := w_instruments w; w_offers := w_offers w; w_idempotency := w_idempotency w; w_approvers := w_approvers w;
     w_counters := w_counters w; w_drawn := n |}.

(** A program over the mandates table. *)
Definition on_db {A} (p : prog db A) : prog world A := pzoom w_db set_db p.

Lemma run_on_db {A} (p : prog db A) w : run_prog (on_db p) w = ((run_prog p (w_db w)).1, set_db (run_prog p (w_db w)).2 w).
Proof. unfold on_db. rewrite run_pzoom; [done| | |]; [done|done|by intros []]. Qed.

(** ** Values as SQL parameters *)

(** A text column compared with or set to a value; the driver sends nothing
    else as a text. *)
Definition sql_param (v : pyval) : res (option string) :=
  match v with VStr s => Ok (Some s) | VNone => Ok None | _ => Raise TypeError end.
Definition sql_text (v : pyval) : res string := match v with VStr s => Ok s | _ => Raise TypeError end.

Section World.
(** The texts of [uuid4] and [token_hex] by the number of the draw, the scrubber's
    regular expressions. *)
Variables (uuid : nat -> string) (scrub_text : string -> string).

(** ** ids.py *)

Definition now_ts (w : world) : Z := clock_us (w_db w) / 1000000.
Definition stamp (w : world) : string := now_iso (w_db w).

Definition draw : st world string := fun w => (Ok (uuid (w_drawn w)), set_drawn (S (w_drawn w)) w).
Definition new_id (prefix : string) : st world string := hex <- draw ;; ret (prefix +:+ "_" +:+ hex)%string.

(** ** Events *)

Definition event (type : string) (payload : pydict) (actor agent_id run_id mandate_jti : option string) : event_args :=
  {| ea_type := type; ea_payload := VDict payload; ea_actor := actor; ea_agent_id := agent_id; ea_run_id := run_id;
     ea_mandate_jti := mandate_jti; ea_relay := true; ea_scrub := true; ea_chain_key := None |}.

(** [audit.append]: the row lock of its chain and its transaction make it one
    step. *)
Definition append_event (a : event_args) : st world event_ref :=
  id <- new_id "evt" ;;
  w <- get ;;
  zoom w_trail set_trail (append_transaction scrub_text (stamp w) id (Z.of_nat (w_drawn w)) a).

(** ** Guardrails: limits.py *)

Definition max_escalations_per_hour : Z := 12.

(** [strftime("%Y-%m-%dT%H")] *)
Definition hour_window (w : world) : string := String.substring 0 13 (isoformat (clock_us (w_db w))).

(** The counters count by one: their doubles are integers. *)
Definition bump (key window : string) (cap amount : Z) : st world unit := fun w =>
  let value := override (w_counters w !! (key, window)) 0 + amount in
  if cap <? value then (Raise (LimitExceeded "QUOTA_EXHAUSTED"), w)
  else (Ok tt, set_counters (<[(key, window) := value]> (w_counters w)) w).

Definition guard_escalation (approver_id : option string) : st world unit := fun w =>
  bump ("escalations:" +:+ override (or_str approver_id None) "unassigned")%string (hour_window w) max_escalations_per_hour 1 w.

(** ** Statements on the other tables *)

Definition insert_new {V} (view : world -> gmap string V) (update : gmap string V -> world -> world) (key : string) (row : world -> V) : st world unit :=
  fun w => match view w !! key with
           | Some _ => (Raise UniqueViolation, w)
           | None => (Ok tt, update (<[key := row w]> (view w)) w)
           end.
Definition update_at {V} (view : world -> gmap string V) (update : gmap string V -> world -> world) (key : string) (guard : V -> bool) (f : world -> V -> V) : st world Z :=
  fun w => match view w !! key with
           | Some row => if guard row then (Ok 1, update (<[key := f w row]> (view w)) w) else (Ok 0, w)
           | None => (Ok 0, w)
           end.

Definition insert_intent (row : intent_row) : st world unit := fun w =>
  if existsb (fun r => String.eqb (pi_jti r) (pi_jti row) ||
                       match pi_nonce r, pi_nonce row with Some a, Some b => String.eqb a b | _, _ => false end) (w_intents w)
  then (Raise UniqueViolation, w) else (Ok tt, set_intents (w_intents w ++ [row]) w).

(** [SELECT 1 FROM purchase_intents WHERE jti=? OR nonce=?] *)
Definition intent_seen (jti nonce : option string) (w : world) : bool :=
  existsb (fun r => bool_decide (jti = Some (pi_jti r)) || (bool_decide (nonce = pi_nonce r) && negb (bool_decide (nonce = None)))) (w_intents w).

Definition with_status (status : string) (reason : option string) (now : string) (row : purchase_row) : purchase_row :=
  {| pu_mandate_jti := pu_mandate_jti row; pu_intent_jti := pu_intent_jti row; pu_status := status; pu_reason_code := reason;
     pu_amount := pu_amount row; pu_reservation_id := pu_reservation_id row; pu_receipt := pu_receipt row;
     pu_created_at := pu_created_at row; pu_updated_at := now |}.

(** [UPDATE purchases SET status=?, reason_code=?, updated_at=? WHERE id=?] *)
Definition set_purchase (id status : string) (reason : option string) : st world Z :=
  update_at w_purchases set_purchases id (fun _ => true) (fun w => with_status status reason (stamp w)).

Definition mark_intent (jti status : string) : st world unit :=
  modify (fun w => set_intents (map (fun r => if String.eqb (pi_jti r) jti
    then {| pi_jti := pi_jti r; pi_mandate_jti := pi_mandate_jti r; pi_agent_id := pi_agent_id r; pi_nonce := pi_nonce r;
            pi_intent := pi_intent r; pi_signature := pi_signature r; pi_status := status; pi_created_at := pi_created_at r |}
    else r) (w_intents w)) w).
End World.
