(* ===== verification/AgentJws.v ===== *)
(** The signatures of the agent lane (agent/crypto/jws.py, keys.py): compact and
    detached EdDSA over the canonical form, and public keys as JWKs.  Ed25519 and
    the key files are an interface; what is signed verifies, decodes to what was
    signed, and a signature covers one header and one payload. *)
From S2P Require Import Prelude PyTime Json JsonLogic JsonParse Base64 Models Canonical Jose RappiClient AgentRules.

(** The cryptography package, and keys by the name of their file.  A signature and
    raw bytes are texts of bytes. *)
Class Ed25519 : Type := {
  PrivateKey : Type;
  PublicKey : Type;
  public_key : PrivateKey -> PublicKey;
  ed_sign : PrivateKey -> string -> string;
  ed_verify : PublicKey -> string -> string -> bool;
  public_bytes_raw : PublicKey -> string;
  from_public_bytes : string -> res PublicKey;
  load_or_create : string -> PrivateKey;
  sign_verifies : forall k m, ed_verify (public_key k) (ed_sign k m) m = true;
  raw_back : forall p, from_public_bytes (public_bytes_raw p) = Ok p;
}.

(** ** Splitting what was joined *)

Fixpoint dotless (s : string) : bool :=
  match s with EmptyString => true | String.String c s' => negb (Ascii.eqb c ".") && dotless s' end.

Lemma dotless_encode s : dotless (b64u_encode s) = true.
Proof.
  induction s as [|a|a b|a b c s IH] using by_three; cbn [b64u_encode dotless]; [done| | |];
    rewrite !b64_chr_no_dot by N_arith; [done|done|exact IH].
Qed.

Lemma split_dotless s : dotless s = true -> split_dots s = [s].
Proof. induction s as [|c s IH]; [done|]. cbn. destruct (Ascii.eqb c "."); [done|]. intros Hs. by rewrite IH. Qed.

Lemma split_dot s r : dotless s = true -> split_dots (s +:+ "." +:+ r)%string = s :: split_dots r.
Proof.
  change ("." +:+ r)%string with (String.String "." r). induction s as [|c s IH]; [done|].
  change ((String.String c s +:+ String.String "." r)%string) with (String.String c (s +:+ String.String "." r)%string). cbn [split_dots dotless]. destruct (Ascii.eqb c "."); [done|]. intros Hs. by rewrite IH.
Qed.

Module Jws.
Section Jws.
Context `{Ed25519}.
Variable float_repr : string -> string.

(** ** keys.py *)

Definition public_jwk (pub : PublicKey) (kid : option string) : pyval :=
  VDict ([("kty", VStr "OKP"); ("crv", VStr "Ed25519"); ("x", VStr (b64u_encode (public_bytes_raw pub)))]%string
         ++ match or_str kid None with Some k => [("kid"%string, VStr k)] | None => [] end).

(** Decoding a value that should be a text. *)
Definition decode_text (v : pyval) : res string := match v with VStr s => b64u_decode s | _ => Raise TypeError end.

Definition jwk_to_public (jwk : pyval) : res PublicKey :=
  let? kty := py_get jwk "kty" in
  let? crv := py_get jwk "crv" in
  if negb (py_eq kty (VStr "OKP")) || negb (py_eq crv (VStr "Ed25519")) then Raise ValueError
  else let? x := py_item jwk "x" in let? raw := decode_text x in from_public_bytes raw.

(** ** jws.py *)

Definition _header (kid : option string) (typ : string) : res string :=
  let? text := Agent.canonical_json (VDict ([("alg", VStr "EdDSA"); ("typ", VStr typ)]%string
      ++ match or_str kid None with Some k => [("kid"%string, VStr k)] | None => [] end)) in
  Ok (b64u_encode text).

(** What is signed. *)
Definition signing_input (protected body : string) : string := (protected +:+ "." +:+ body)%string.
(** [.encode("ascii")] *)
Definition encode_ascii (s : string) : res string := if ascii_only s then Ok s else Raise ValueError.

Definition sign_compact (payload : pyval) (key : PrivateKey) (kid : option string) (typ : string) : res string :=
  let? protected := _header kid typ in
  let? text := Agent.canonical_json payload in
  let body := b64u_encode text in
  let? input := encode_ascii (signing_input protected body) in
  Ok (protected +:+ "." +:+ body +:+ "." +:+ b64u_encode (ed_sign key input))%string.

(** [key.verify(b64u_decode(signature), f"{protected}.{body}".encode("ascii"))]:
    a text that is not base64 or not ASCII raises something else than
    [InvalidSignature], which nothing catches. *)
Definition check_signature (key : PublicKey) (protected body signature : string) : res unit :=
  let? sig := b64u_decode signature in
  let? input := encode_ascii (signing_input protected body) in
  guard_res (ed_verify key sig input) BadSignature.

Definition verify_compact (token : string) (key : PublicKey) : res pyval :=
  match split_dots token with
  | [protected; body; signature] =>
      let? _ := check_signature key protected body signature in
      let? text := b64u_decode body in loads float_repr text
  | _ => Raise BadSignature
  end.

Definition sign_detached (payload : pyval) (key : PrivateKey) (kid : option string) (typ : string) : res string :=
  let? protected := _header kid typ in
  let? text := Agent.canonical_json payload in
  let? input := encode_ascii (signing_input protected (b64u_encode text)) in
  Ok (protected +:+ ".." +:+ b64u_encode (ed_sign key input))%string.

Definition verify_detached (detached : string) (payload : pyval) (key : PublicKey) : res unit :=
  match split_dots detached with
  | [protected; empty; signature] =>
      if truthy_str empty then Raise BadSignature
      else
        let? text := Agent.canonical_json payload in
        check_signature key protected (b64u_encode text) signature
  | _ => Raise BadSignature
  end.

Lemma header_text kid typ protected : _header kid typ = Ok protected -> exists text, protected = b64u_encode text.
Proof using Type. unfold _header. destruct (Agent.canonical_json _) as [text|]; [|done]. intros [= <-]. by exists text. Qed.

Lemma input_ascii a b : encode_ascii (signing_input (b64u_encode a) (b64u_encode b)) = Ok (signing_input (b64u_encode a) (b64u_encode b)).
Proof using Type.
  unfold encode_ascii, signing_input. assert (Happ : forall s t, ascii_only (s +:+ t)%string = ascii_only s && ascii_only t).
  { intros s t. induction s as [|c s IH]; [done|]. change ((String.String c s +:+ t)%string) with (String.String c (s +:+ t)%string).
    unfold ascii_only in *. cbn [str_forallb]. rewrite IH. by rewrite andb_assoc. }
  change ("." +:+ b64u_encode b)%string with (String.String "." (b64u_encode b)).
  rewrite Happ, b64u_ascii. change (ascii_only (String.String "." (b64u_encode b))) with (ascii_only (b64u_encode b)). by rewrite b64u_ascii.
Qed.

Lemma signature_checks key protected body : encode_ascii (signing_input protected body) = Ok (signing_input protected body) ->
  check_signature (public_key key) protected body (b64u_encode (ed_sign key (signing_input protected body))) = Ok tt.
Proof using Type. intros Hi. unfold check_signature. rewrite b64u_roundtrip. cbn [rbind]. rewrite Hi. cbn [rbind]. by rewrite sign_verifies. Qed.

(** What is signed compactly opens as the value that was signed. *)
Lemma compact_opens payload key kid typ token : sign_compact payload key kid typ = Ok token -> decodable payload ->
  verify_compact token (public_key key) = Ok (sort_value payload).
Proof using Type.
  unfold sign_compact. destruct (_header kid typ) as [protected|] eqn:Hh; [|done]. destruct (header_text _ _ _ Hh) as [htext ->].
  cbn [rbind]. destruct (Agent.canonical_json payload) as [text|] eqn:Ht; [|done]. cbn [rbind]. rewrite input_ascii. cbn [rbind].
  intros [= <-] Hd. unfold verify_compact. rewrite !split_dot by apply dotless_encode.
  rewrite split_dotless by apply dotless_encode. rewrite signature_checks by apply input_ascii. cbn [rbind].
  rewrite b64u_roundtrip. cbn [rbind]. by apply canonical_loads.
Qed.

(** A detached signature verifies beside what was signed. *)
Lemma detached_opens payload key kid typ sig : sign_detached payload key kid typ = Ok sig ->
  verify_detached sig payload (public_key key) = Ok tt.
Proof using Type.
  unfold sign_detached. destruct (_header kid typ) as [protected|] eqn:Hh; [|done]. destruct (header_text _ _ _ Hh) as [htext ->].
  cbn [rbind]. destruct (Agent.canonical_json payload) as [text|] eqn:Ht; [|done]. cbn [rbind]. rewrite input_ascii. cbn [rbind].
  intros [= <-]. unfold verify_detached. change (".." +:+ ?x)%string with ("." +:+ (EmptyString +:+ "." +:+ x))%string.
  rewrite split_dot by apply dotless_encode. rewrite split_dot by done.
  rewrite split_dotless by apply dotless_encode. cbn [truthy_str]. rewrite Ht. cbn [rbind]. by apply signature_checks, input_ascii.
Qed.

Lemma jwk_back pub kid : jwk_to_public (public_jwk pub kid) = Ok pub.
Proof using Type.
  unfold jwk_to_public, public_jwk. cbn. rewrite b64u_roundtrip. cbn [rbind]. apply raw_back.
Qed.

End Jws.
End Jws.
