(* ===== verification/AgentMandate.v ===== *)
(** Mandates of the agent lane (agent/mandate.py): issuing, offline
    verification, revocation; and the payment rail (agent/mocks/rail.py):
    vaulted instruments, captures that repeat under one request id. *)
From S2P Require Import Prelude PyTime Decimal Json JsonLogic JsonParse Models Canonical Jose RappiClient Prog AgentRules AgentBudget AgentAudit AgentJws AgentWorld.

Section Mandate.
Context `{Ed25519}.
Variables (uuid : nat -> string) (scrub_text float_repr : string -> string).
Abbreviation append_event := (append_event uuid scrub_text).
Abbreviation new_id := (new_id uuid).

Definition ISSUER : string := "https://api.trytrust.lat".
Definition ISSUER_KEY_NAME : string := "issuer".
Definition KID : string := "v1".

Definition issuer_key : PrivateKey := load_or_create ISSUER_KEY_NAME.
Definition jwks : pyval := VDict [("keys"%string, VList [Jws.public_jwk (public_key issuer_key) (Some KID)])].

(** What [issue] is asked for. *)
Record issue_args : Type := {
  ia_user_id : string;
  ia_agent_id : string;
  ia_agent_jwk : pyval;
  ia_payment_method_ref : string;
  ia_scope : pyval;
  ia_conditions : pyval;
  ia_limits : pyval;
  ia_validity : pyval;
  ia_currency : string;
  ia_parent_jti : option string;
  ia_signed_with : string;
}.

Definition default_max_txn : pyval := VDict [("count", VInt 3); ("period", VStr "month")]%string.

(** The claims signed. *)
Definition issued_claims (a : issue_args) (jti : string) (issued : Z) : res pyval :=
  let? exp := py_get_or (ia_validity a) "exp" (VInt (issued + 30 * 24 * 3600)) in
  let? exp := py_int exp in
  let? per_txn := py_item (ia_limits a) "max_per_txn" in
  let? per_txn := fmt per_txn in
  let? total := py_item (ia_limits a) "total_budget" in
  let? total := fmt total in
  let? max_txn := py_get_or (ia_limits a) "max_txn" default_max_txn in
  Ok (VDict ([("iss", VStr ISSUER); ("iat", VInt issued); ("nbf", VInt issued); ("exp", VInt exp); ("jti", VStr jti);
              ("type", VStr "purchase_mandate_v1"); ("sub", VStr (ia_user_id a)); ("agent", VStr (ia_agent_id a));
              ("cnf", VDict [("jwk"%string, ia_agent_jwk a)]); ("payment_method_ref", VStr (ia_payment_method_ref a));
              ("currency", VStr (ia_currency a)); ("scope", ia_scope a); ("conditions", ia_conditions a);
              ("limits", VDict [("max_per_txn", VStr per_txn); ("total_budget", VStr total); ("max_txn", max_txn)]%string);
              ("validity", ia_validity a); ("signed_with", VStr (ia_signed_with a))]%string
             ++ match or_str (ia_parent_jti a) None with Some p => [("parent_jti"%string, VStr p)] | None => [] end)).

(** [INSERT INTO mandates]: the columns not named have their defaults. *)
Definition insert_mandate (jti : string) (row : string -> mandate_row) : st db unit := fun d =>
  match mandates d !! jti with
  | Some _ => (Raise UniqueViolation, d)
  | None => (Ok tt, set_mandates (<[jti := row (now_iso d)]> (mandates d)) d)
  end.

Definition issued_row (a : issue_args) (claims token now : string) : mandate_row :=
  {| mr_user_id := ia_user_id a; mr_agent_id := ia_agent_id a; mr_token := Some token; mr_created_at := now;
     mr_status := "active"; mr_claims := claims; mr_reserved_amount := "0.00"; mr_spent_total := "0.00"; mr_txn_count := 0;
     mr_parent_jti := ia_parent_jti a; mr_updated_at := now |}.

(** [INSERT INTO payment_instruments ... ON CONFLICT (token_ref) DO NOTHING] *)
Definition keep_instrument (token_ref mandate_jti : string) : st world unit :=
  modify (fun w => match w_instruments w !! token_ref with
                   | Some _ => w
                   | None => set_instruments (<[token_ref := {| in_mandate_jti := mandate_jti; in_rail := "paypal_sandbox_mock";
                               in_status := "active"; in_created_at := stamp w |}]> (w_instruments w)) w
                   end).

Record issued : Type := { is_jti : string; is_token : string; is_claims : pyval }.

Definition issue (a : issue_args) : prog world issued :=
  jti <~ atomic (new_id "mdt") ;
  issued <~ atomic (gets now_ts) ;
  claims <~ plift (issued_claims a jti issued) ;
  token <~ plift (Jws.sign_compact claims issuer_key (Some KID) "mandate+jwt") ;
  text <~ plift (json_dumps claims) ;
  _ <~ on_db (atomic (insert_mandate jti (issued_row a text token))) ;
  _ <~ atomic (keep_instrument (ia_payment_method_ref a) jti) ;
  limits <~ plift (py_item claims "limits") ;
  _ <~ atomic (append_event (event "mandate.created"
         [("jti", VStr jti); ("sub", VStr (ia_user_id a)); ("agent", VStr (ia_agent_id a)); ("limits", limits); ("scope", ia_scope a);
          ("conditions", ia_conditions a); ("signed_with", VStr (ia_signed_with a)); ("parent_jti", opt_str (ia_parent_jti a))]%string
         (Some (ia_user_id a)) (Some (ia_agent_id a)) None (Some jti))) ;
  pret {| is_jti := jti; is_token := token; is_claims := claims |}.

(** What a merchant checks without asking: the key is read back from the
    published set. *)
Definition verify_token (token : string) : res pyval :=
  let? keys := py_item jwks "keys" in
  match keys with
  | VList (first :: _) => let? key := Jws.jwk_to_public first in Jws.verify_compact float_repr token key
  | _ => Raise IndexError
  end.

Definition agent_key_from_mandate (claims : pyval) : res PublicKey :=
  let? cnf := py_item claims "cnf" in let? jwk := py_item cnf "jwk" in Jws.jwk_to_public jwk.

(** ** The rail *)

Definition vault_instrument (mandate_jti : string) : prog world string :=
  token_ref <~ atomic (new_id "ppt") ;
  _ <~ atomic (insert_new w_instruments set_instruments token_ref (fun w => {| in_mandate_jti := mandate_jti;
         in_rail := "paypal_sandbox_mock"; in_status := "active"; in_created_at := stamp w |})) ;
  pret token_ref.

Definition with_instrument_status (status : string) (row : instrument_row) : instrument_row :=
  {| in_mandate_jti := in_mandate_jti row; in_rail := in_rail row; in_status := status; in_created_at := in_created_at row |}.

(** Whether a row was updated. *)
Definition delete_token (token_ref : string) : prog world bool :=
  count <~ atomic (update_at w_instruments set_instruments token_ref (fun row => String.eqb (in_status row) "active")
                     (fun _ => with_instrument_status "deleted")) ;
  pret (0 <? count).

Definition prior_capture (request_id : string) (w : world) : option string :=
  match w_idempotency w !! request_id with
  | Some row => if String.eqb (ik_scope row) "rail.capture" then Some (ik_response row) else None
  | None => None
  end.

Definition capture (token_ref : string) (amount : pyval) (currency : pyval) (request_id : string) : prog world pyval :=
  prior <~ atomic (gets (prior_capture request_id)) ;
  match prior with
  | Some response =>
      value <~ plift (loads float_repr response) ;
      match value with
      | VDict kvs => pret (VDict (dict_set "idempotent_replay" (VBool true) kvs))
      | _ => praise TypeError
      end
  | None =>
      row <~ atomic (gets (fun w => w_instruments w !! token_ref)) ;
      match row with
      | None => praise (RailError "RAIL_ERROR")
      | Some row =>
          if negb (String.eqb (in_status row) "active") then praise (RailError "RAIL_TOKEN_DELETED")
          else
            text <~ plift (fmt amount) ;
            if String.eqb text "0.00" then praise (RailError "RAIL_ERROR")
            else
              capture_id <~ atomic (new_id "cap") ;
              now <~ atomic (gets stamp) ;
              let result := VDict [("capture_id", VStr capture_id); ("status", VStr "COMPLETED"); ("amount", VStr text);
                                   ("currency", currency); ("token_ref", VStr token_ref); ("captured_at", VStr now)]%string in
              response <~ plift (json_dumps result) ;
              _ <~ atomic (insert_new w_idempotency set_idempotency request_id (fun _ => {| ik_scope := "rail.capture"; ik_response := response |})) ;
              pret result
      end
  end.

(** ** Revocation *)

Definition with_mandate_status (status : string) (row : mandate_row) : mandate_row :=
  {| mr_user_id := mr_user_id row; mr_agent_id := mr_agent_id row; mr_token := mr_token row; mr_created_at := mr_created_at row;
     mr_status := status; mr_claims := mr_claims row; mr_reserved_amount := mr_reserved_amount row; mr_spent_total := mr_spent_total row;
     mr_txn_count := mr_txn_count row; mr_parent_jti := mr_parent_jti row; mr_updated_at := mr_updated_at row |}.

(** [claims_obj.get("payment_method_ref") if isinstance(claims_obj, dict) else None] *)
Definition payment_ref (claims : option pyval) : pyval :=
  match claims with Some (VDict kvs) => override (assoc "payment_method_ref" kvs) VNone | _ => VNone end.

(** Whether the token was deleted at the rail. *)
Definition revoke (jti actor reason : string) : prog world bool :=
  _ <~ on_db (atomic (update_mandate jti (fun _ => true) (fun now row => stamped now (with_mandate_status "revoked" row)))) ;
  row <~ on_db (atomic (select_mandate jti)) ;
  claims <~ match row with Some row => v <~ plift (loads float_repr (mr_claims row)) ; pret (Some v) | None => pret None end ;
  let token_ref := payment_ref claims in
  rail <~ (if truthy token_ref then
             ref <~ plift (sql_text token_ref) ; deleted <~ delete_token ref ;
             pret (deleted, [("token_ref", token_ref); ("deleted", VBool deleted)]%string)
           else pret (false, [("deleted"%string, VBool false)])) ;
  let '(deleted, shown) := rail in
  _ <~ atomic (append_event (event "mandate.revoked" [("jti", VStr jti); ("by", VStr actor); ("reason", VStr reason); ("rail", VDict shown)]%string
         (Some actor) None None (Some jti))) ;
  pret deleted.

Definition get_mandate (jti : string) : prog world mandate_row :=
  row <~ on_db (atomic (select_mandate jti)) ;
  match row with Some row => pret row | None => praise KeyError end.
End Mandate.
