(* ===== verification/AgentMerchant.v ===== *)
(** The merchants of the agent lane: the port the kernel calls
    (agent/ports/base.py), and the merchant in process behind it
    (agent/ports/local.py, agent/mocks/merchant.py), which checks the mandate, the
    intent and its own price before it asks the kernel and charges the rail. *)
From S2P Require Import Prelude PyTime Decimal Json JsonLogic JsonParse Models Canonical Jose RappiClient Prog AgentRules AgentBudget AgentAudit AgentJws AgentWorld AgentMandate.

(** ** ports/base.py *)

(** The urls of a value: [seen] keeps the first of each. *)
Fixpoint keep_urls (candidates : list pyval) (urls : list string) : list string :=
  match candidates with
  | [] => urls
  | VStr url :: rest => keep_urls rest (if truthy_str url && negb (existsb (String.eqb url) urls) then urls ++ [url] else urls)
  | _ :: rest => keep_urls rest urls
  end.

(** [for url in candidates or []] *)
Definition iterate (v : pyval) : res (list pyval) :=
  if negb (truthy v) then Ok []
  else match v with
       | VList l => Ok l
       | VDict kvs => Ok (map (fun kv => VStr kv.1) kvs)
       | VStr s => Ok [VStr s]
       | _ => Raise TypeError
       end.

Definition offer_images (raw : pyval) : res (list string) :=
  let? candidates := py_get raw "images" in
  let? listed := iterate candidates in
  let? image := py_get raw "image" in
  let? image_url := py_get raw "image_url" in
  Ok (keep_urls [image; image_url] (keep_urls listed [])).

Definition normalise_offer (raw : pyval) (merchant_id : string) : res pyval :=
  let? offer_id := py_item raw "offer_id" in
  let? category := py_get_or raw "category" (VStr "other") in
  let? title := py_get_or raw "title" (VStr EmptyString) in
  let? price := py_item raw "price" in
  let? price := fmt price in
  let? currency := py_get_or raw "currency" (VStr "USD") in
  let? origin := py_get raw "origin" in
  let? destination := py_get raw "destination" in
  let? depart_date := py_get raw "depart_date" in
  let? description := py_get raw "description" in
  let? images := offer_images raw in
  let? native := py_get_or raw "native" (VDict []) in
  Ok (VDict [("offer_id", VStr (py_str offer_id)); ("merchant_id", VStr merchant_id); ("category", category); ("title", title);
             ("price", VStr price); ("currency", currency); ("origin", origin); ("destination", destination);
             ("depart_date", depart_date); ("description", py_or description (VStr EmptyString));
             ("images", VList (map VStr images)); ("native", native)]%string).

(** What the kernel hands to a settlement. *)
Record settlement : Type := {
  st_offer : pyval;
  st_mandate_claims : pyval;
  st_mandate_token : string;
  st_intent : pyval;
  st_signature : string;
  st_verify_fn : prog world pyval;
  st_capture : option (string -> string -> prog world string);
}.

(** [MerchantPort]: [port_get] reads, [port_settle] is called by the kernel
    only. *)
Record merchant_port : Type := {
  port_id : string;
  port_get : string -> prog world (option pyval);
  port_settle : settlement -> prog world pyval;
  port_kernel_capture : bool;
}.

(** [merchant_for] over the registry, which configuration filled: the first
    merchant for [None]. *)
Definition registered (registry : list (string * merchant_port)) (key : pyval) : res merchant_port :=
  match key with
  | VNone => match registry with [] => Raise StopIteration | (_, port) :: _ => Ok port end
  | VStr k => match assoc k registry with Some port => Ok port | None => Raise KeyError end
  | VList _ | VDict _ => Raise TypeError
  | _ => Raise KeyError
  end.
Definition merchant_for (registry : list (string * merchant_port)) (offer_or_id : pyval) : res merchant_port :=
  match offer_or_id with
  | VDict _ => let? key := py_item offer_or_id "merchant_id" in registered registry key
  | _ => registered registry offer_or_id
  end.

(** ** mocks/merchant.py *)

Definition MERCHANT_ID : string := "vuelaya".

Definition _row_to_offer (id : string) (row : offer_row) : pyval :=
  VDict [("offer_id", VStr id); ("merchant_id", VStr (of_merchant_id row)); ("category", VStr (of_category row)); ("title", VStr (of_title row));
         ("price", VStr (of_amount row)); ("currency", VStr (of_currency row)); ("origin", opt_str (of_origin row));
         ("destination", opt_str (of_destination row)); ("depart_date", opt_str (of_depart_date row));
         ("description", opt_str (of_description row))]%string.

(** [SELECT * FROM offers WHERE id=? AND active IS TRUE] *)
Definition get_offer (offer_id : string) : prog world (option pyval) :=
  row <~ atomic (gets (fun w => w_offers w !! offer_id)) ;
  pret (match row with Some row => if of_active row then Some (_row_to_offer offer_id row) else None | None => None end).

Definition priced (amount : string) (row : offer_row) : offer_row :=
  {| of_merchant_id := of_merchant_id row; of_category := of_category row; of_title := of_title row; of_amount := amount;
     of_currency := of_currency row; of_origin := of_origin row; of_destination := of_destination row;
     of_depart_date := of_depart_date row; of_description := of_description row; of_active := of_active row |}.

Section Merchant.
Context `{Ed25519}.
Variables (uuid : nat -> string) (scrub_text float_repr : string -> string) (str_exn : exn -> string).
Abbreviation append_event := (append_event uuid scrub_text).
Abbreviation new_id := (new_id uuid).

Definition set_price (offer_id amount : string) : prog world string :=
  text <~ plift (fmt (VStr amount)) ;
  _ <~ atomic (update_at w_offers set_offers offer_id (fun _ => true) (fun _ => priced text)) ;
  _ <~ atomic (append_event (event "offer.price_changed" [("offer_id", VStr offer_id); ("price", VStr text)]%string (Some "merchant"%string) None None None)) ;
  pret text.

Definition refusal (reason_code : pyval) (detail : string) : pyval :=
  VDict [("accepted", VBool false); ("reason_code", reason_code); ("detail", VStr detail)]%string.

(** [try: m except BadSignature] *)
Definition bad_signature {A} (m : res A) : res (option A) :=
  match m with Ok a => Ok (Some a) | Raise BadSignature => Ok None | Raise e => Raise e end.

(** [checkout_charge]: the mandate, the intent, the price, then the kernel's
    state, then the charge.  [str_exn] is [str] of an exception. *)
Definition checkout_charge (mandate_token : string) (intent : pyval) (intent_sig : string) (verify_fn : prog world pyval) : prog world pyval :=
  claims <~ plift (bad_signature (verify_token float_repr mandate_token)) ;
  match claims with
  | None => pret (refusal (VStr "INVALID_SIGNATURE") (str_exn BadSignature))
  | Some claims =>
      signed <~ plift (bad_signature (let? key := agent_key_from_mandate claims in Jws.verify_detached intent_sig intent key)) ;
      match signed with
      | None => pret (refusal (VStr "INVALID_PROOF_OF_POSSESSION") (str_exn BadSignature))
      | Some _ =>
          offer_id <~ plift (let? id := py_item intent "offer_id" in sql_text id) ;
          offer <~ get_offer offer_id ;
          match offer with
          | None => pret (refusal (VStr "RAIL_ERROR") "offer withdrawn")
          | Some offer =>
              amount <~ plift (py_item intent "amount") ;
              asked <~ plift (fmt amount) ;
              price <~ plift (py_item offer "price") ;
              own <~ plift (fmt price) ;
              if negb (String.eqb asked own) then
                pret (refusal (VStr "AMOUNT_MISMATCH") ("intent " +:+ py_str amount +:+ " != catalog " +:+ py_str price))
              else
                decision <~ verify_fn ;
                verdict <~ plift (py_item decision "decision") ;
                if negb (py_eq verdict (VStr "APPROVED")) then
                  reason <~ plift (py_get decision "reason_code") ;
                  pret (VDict [("accepted", VBool false); ("reason_code", reason); ("detail", VStr "verify did not approve"); ("verify", decision)]%string)
                else
                  ref <~ plift (let? r := py_item claims "payment_method_ref" in sql_text r) ;
                  currency <~ plift (py_item intent "currency") ;
                  intent_jti <~ plift (let? j := py_item intent "jti" in sql_text j) ;
                  charge <~ capture uuid float_repr ref amount currency intent_jti ;
                  jti <~ plift (let? j := py_item claims "jti" in sql_text j) ;
                  shown_id <~ plift (py_item offer "offer_id") ;
                  _ <~ atomic (append_event (event "merchant.verified"
                         [("merchant_id", VStr MERCHANT_ID); ("mandate_jti", VStr jti); ("intent_jti", VStr intent_jti); ("offer_id", shown_id);
                          ("checked", VList [VStr "mandate_signature"; VStr "intent_signature"; VStr "price_match"; VStr "kernel_verify"])]%string
                         (Some MERCHANT_ID) None None (Some jti))) ;
                  receipt_id <~ atomic (new_id "rcp") ;
                  title <~ plift (py_item offer "title") ;
                  charged <~ plift (py_item charge "amount") ;
                  charged_currency <~ plift (py_item charge "currency") ;
                  capture_id <~ plift (py_item charge "capture_id") ;
                  now <~ atomic (gets stamp) ;
                  reservation <~ plift (py_get decision "reservation_id") ;
                  pret (VDict [("accepted", VBool true);
                    ("receipt", VDict [("receipt_id", VStr receipt_id); ("merchant_id", VStr MERCHANT_ID); ("offer_id", shown_id); ("title", title);
                       ("amount", charged); ("currency", charged_currency); ("mandate_jti", VStr jti); ("capture_id", capture_id); ("at", VStr now)]%string);
                    ("reservation_id", reservation)]%string)
          end
      end
  end.

(** ** ports/local.py *)

Definition _to_offer (merchant_id : string) (o : pyval) : res pyval :=
  match o with
  | VDict kvs => normalise_offer (VDict (dict_set "native" (VDict []) kvs)) merchant_id
  | _ => Raise TypeError
  end.

Definition local_get (merchant_id : string) (offer_id : string) : prog world (option pyval) :=
  found <~ get_offer offer_id ;
  match found with
  | Some o => o <~ plift (_to_offer merchant_id o) ; pret (Some o)
  | None => pret None
  end.

(** A refusal of the rail becomes an answer. *)
Definition local_settle (s : settlement) : prog world pyval :=
  pcatch (checkout_charge (st_mandate_token s) (st_intent s) (st_signature s) (st_verify_fn s))
    (fun e => match e with RailError code => Some (pret (refusal (VStr code) (str_exn e))) | _ => None end).

Definition LocalMerchant : merchant_port :=
  {| port_id := MERCHANT_ID; port_get := local_get MERCHANT_ID; port_settle := local_settle; port_kernel_capture := false |}.
End Merchant.
