(* ===== verification/AgentKernel.v ===== *)
(** The enforcement path of the agent lane (agent/kernel.py: verify, the purchase
    saga; agent/escalation.py: open_escalation), over the database, the merchant
    ports and the rail.  One statement is one step; other sessions run between
    the steps. *)
From S2P Require Import Prelude PyTime Decimal Json JsonLogic JsonParse Models Canonical Jose RappiClient Prog AgentRules AgentBudget AgentAudit AgentJws AgentWorld AgentMandate AgentMerchant.

Definition INTENT_TTL_S : Z := 120.
Definition ESCALATION_TIMEOUT_S : Z := 120.

(** What [verify] answers. *)
Record verdict : Type := {
  v_decision : decision_value;
  v_reason_code : option string;
  v_detail : string;
  v_diff : pydict;
  v_reservation_id : option string;
  v_mandate_jti : option string;
}.

Definition decision_text (d : decision_value) : string :=
  match d with AgentApproved => "APPROVED" | AgentEscalated => "ESCALATED" | AgentRejected => "REJECTED" end.

Definition as_dict (d : AgentDecision) : pydict :=
  [("decision", VStr (decision_text (d_decision d))); ("reason_code", opt_str (d_reason_code d)); ("detail", VStr (d_detail d));
   ("diff", VDict (d_diff d))]%string.

Definition gated (d : AgentDecision) (mandate_jti : string) : verdict :=
  {| v_decision := d_decision d; v_reason_code := d_reason_code d; v_detail := d_detail d; v_diff := d_diff d;
     v_reservation_id := None; v_mandate_jti := Some mandate_jti |}.

(** What [submit_purchase] answers. *)
Inductive outcome : Type :=
| NotRequested (reason_code detail : string)
| Rejected (purchase_id : string) (reason_code : option string) (detail : pyval)
| Escalated (purchase_id escalation_id : string) (reason_code : option string) (detail : string) (diff : pydict) (intent : pyval) (signature : string)
| Captured (purchase_id : string) (receipt : pyval).

Section Kernel.
Context `{Ed25519} `{JwsLibrary}.
Variables (uuid : nat -> string) (scrub_text float_repr : string -> string) (str_exn : exn -> string) (fuel : nat).
Variable registry : list (string * merchant_port).
(** The issuer key of the capture tokens and its id (api/services/keys.py), and
    the dry-run switch of the environment. *)
Variables (token_key : Key) (token_kid : string) (capture_dry_run : bool).
Abbreviation append_event := (append_event uuid scrub_text).
Abbreviation new_id := (new_id uuid).

Definition _refuse (mandate_jti : option string) (code detail : string) : prog world verdict :=
  _ <~ atomic (append_event (event "purchase.refused" [("reason_code", VStr code); ("detail", VStr detail)]%string None None None mandate_jti)) ;
  pret {| v_decision := AgentRejected; v_reason_code := Some code; v_detail := detail; v_diff := [];
          v_reservation_id := None; v_mandate_jti := None |}.

(** A check that refuses, or goes on. *)
Definition refuse {A} (mandate_jti : option string) (code detail : string) : prog world (verdict + A) :=
  v <~ _refuse mandate_jti code detail ; pret (inl v).
Definition checked {A} (m : prog world (verdict + A)) (k : A -> prog world verdict) : prog world verdict :=
  x <~ m ; match x with inl v => pret v | inr a => k a end.

(** ** verify, check 1: the agent, then freshness and replay *)

Definition check_agent (mandate_token : string) (intent : pyval) (intent_sig : string) : prog world (verdict + (pyval * string * Z)) :=
  claims <~ plift (bad_signature (verify_token float_repr mandate_token)) ;
  match claims with
  | None => refuse None "INVALID_SIGNATURE" (str_exn BadSignature)
  | Some claims =>
      signed <~ plift (bad_signature (let? key := agent_key_from_mandate claims in Jws.verify_detached intent_sig intent key)) ;
      jti <~ plift (let? j := py_item claims "jti" in sql_text j) ;
      match signed with
      | None => refuse (Some jti) "INVALID_PROOF_OF_POSSESSION" (str_exn BadSignature)
      | Some _ =>
          named <~ plift (py_get intent "mandate_jti") ;
          if negb (py_eq named (VStr jti)) then refuse (Some jti) "INVALID_PROOF_OF_POSSESSION" "intent does not name this mandate"
          else
            now <~ atomic (gets now_ts) ;
            exp <~ plift (let? e := py_item intent "exp" in py_int e) ;
            iat <~ plift (let? i := py_item intent "iat" in py_int i) ;
            if INTENT_TTL_S <? exp - iat then refuse (Some jti) "INVALID_SIGNATURE" "intent lifetime over 120s"
            else if exp <? now then refuse (Some jti) "INVALID_SIGNATURE" "intent expired"
            else
              ijti <~ plift (let? j := py_item intent "jti" in sql_param j) ;
              inonce <~ plift (let? n := py_item intent "nonce" in sql_param n) ;
              seen <~ atomic (gets (intent_seen ijti inonce)) ;
              if (seen : bool) then refuse (Some jti) "DUPLICATE_JTI" "intent id or nonce reused"
              else pret (inr (claims, jti, now))
      end
  end.

(** ** Check 2: the mandate and its ancestors are alive *)

(** The first ancestor that is not active, and its status. *)
Fixpoint dead_ancestor (ancestors : list string) : prog world (option (string * string)) :=
  match ancestors with
  | [] => pret None
  | ancestor :: rest =>
      row <~ on_db (atomic (select_mandate ancestor)) ;
      match row with
      | Some row => if String.eqb (mr_status row) "active" then dead_ancestor rest else pret (Some (ancestor, mr_status row))
      | None => dead_ancestor rest
      end
  end.

Definition check_mandate (claims : pyval) (jti : string) (now : Z) : prog world (verdict + mandate_row) :=
  row <~ on_db (atomic (select_mandate jti)) ;
  match row with
  | None => refuse (Some jti) "MANDATE_REVOKED" "unknown mandate"
  | Some row =>
      if String.eqb (mr_status row) "revoked" then refuse (Some jti) "MANDATE_REVOKED" "revoked by the holder"
      else
        lineage <~ on_db (chain fuel jti) ;
        dead <~ dead_ancestor (tail lineage) ;
        match dead with
        | Some (ancestor, status) => refuse (Some jti) "MANDATE_REVOKED" ("parent mandate " +:+ ancestor +:+ " is " +:+ status)
        | None =>
            if String.eqb (mr_status row) "suspended" then refuse (Some jti) "MANDATE_SUSPENDED" "suspended"
            else if String.eqb (mr_status row) "exhausted" then refuse (Some jti) "MANDATE_EXHAUSTED" "no budget left"
            else
              nbf <~ plift (let? n := py_item claims "nbf" in py_int n) ;
              if now <? nbf then refuse (Some jti) "MANDATE_NOT_YET_VALID" "not valid yet"
              else
                exp <~ plift (let? e := py_item claims "exp" in py_int e) ;
                if exp <? now then
                  _ <~ on_db (atomic (update_mandate jti (fun _ => true) (fun _ => with_mandate_status "expired"))) ;
                  refuse (Some jti) "MANDATE_EXPIRED" "past its validity window"
                else pret (inr row)
        end
  end.

(** ** Check 3: the live offer, the gate *)

Definition live_offer (intent : pyval) (jti : string) : prog world (verdict + option pyval) :=
  pcatch
    (port <~ plift (let? m := py_item intent "merchant_id" in merchant_for registry m) ;
     offer_id <~ plift (let? i := py_item intent "offer_id" in sql_text i) ;
     offer <~ port_get port offer_id ; pret (inr offer))
    (fun e => match e with
              | KeyError => Some (merchant_id <~ plift (py_item intent "merchant_id") ;
                                  refuse (Some jti) "MERCHANT_NOT_ALLOWED" ("no merchant registered as " +:+ py_repr merchant_id))
              | _ => None
              end).

Definition spend_of (row : mandate_row) : spend_row :=
  {| sp_spent_total := mr_spent_total row; sp_reserved_amount := mr_reserved_amount row; sp_txn_count := mr_txn_count row |}.

Definition check_purchase (claims intent : pyval) (jti : string) (row : mandate_row) (now : Z) : prog world (verdict + AgentDecision) :=
  found <~ live_offer intent jti ;
  match found with
  | inl v => pret (inl v)
  | inr None => refuse (Some jti) "RAIL_ERROR" "offer withdrawn"
  | inr (Some offer) =>
      amount <~ plift (py_item intent "amount") ;
      asked <~ plift (fmt amount) ;
      price <~ plift (py_item offer "price") ;
      own <~ plift (fmt price) ;
      if negb (String.eqb asked own) then
        refuse (Some jti) "AMOUNT_MISMATCH" ("intent " +:+ py_str amount +:+ " != catalog " +:+ py_str price)
      else d <~ plift (gate claims intent offer (spend_of row) now) ; pret (inr d)
  end.

(** The reservation over the ancestry, and the intent it is for. *)
Definition reserve_intent (claims intent : pyval) (intent_sig jti : string) : prog world verdict :=
  amount <~ plift (py_item intent "amount") ;
  reserved <~ on_db (reserve_chain float_repr fuel jti (py_str amount)) ;
  if negb reserved then
    _refuse (Some jti) "BUDGET_EXCEEDED" "mandate state changed during the check, or an ancestor mandate cannot cover it"
  else
    reservation_id <~ atomic (new_id "rsv") ;
    ijti <~ plift (let? j := py_item intent "jti" in sql_text j) ;
    agent <~ plift (let? a := py_item claims "agent" in sql_text a) ;
    inonce <~ plift (let? n := py_item intent "nonce" in sql_param n) ;
    text <~ plift (json_dumps intent) ;
    _ <~ atomic (fun w => insert_intent {| pi_jti := ijti; pi_mandate_jti := jti; pi_agent_id := agent; pi_nonce := inonce;
           pi_intent := Some text; pi_signature := Some intent_sig; pi_status := "reserved"; pi_created_at := stamp w |} w) ;
    offer_id <~ plift (py_item intent "offer_id") ;
    _ <~ atomic (append_event (event "purchase.verified"
           [("intent_jti", VStr ijti); ("reservation_id", VStr reservation_id); ("amount", amount); ("offer_id", offer_id)]%string
           None (Some agent) None (Some jti))) ;
    pret {| v_decision := AgentApproved; v_reason_code := None; v_detail := EmptyString; v_diff := [];
            v_reservation_id := Some reservation_id; v_mandate_jti := Some jti |}.

Definition is_approval (d : AgentDecision) : bool := match d_decision d with AgentApproved => true | _ => false end.

Definition verify (mandate_token : string) (intent : pyval) (intent_sig : string) (reserve : bool) : prog world verdict :=
  checked (check_agent mandate_token intent intent_sig) (fun '(claims, jti, now) =>
  checked (check_mandate claims jti now) (fun row =>
  checked (check_purchase claims intent jti row now) (fun d =>
    if negb (is_approval d) || negb reserve then
      intent_jti <~ plift (py_item intent "jti") ;
      agent <~ plift (let? a := py_item claims "agent" in sql_text a) ;
      _ <~ atomic (append_event (event "purchase.gated" (dict_update [("intent_jti"%string, intent_jti)] (as_dict d)) None (Some agent) None (Some jti))) ;
      pret (gated d jti)
    else reserve_intent claims intent intent_sig jti))).

(** ** Escalations *)

Definition open_escalation (purchase_id mandate_jti : string) (run_id : option string) (diff : pydict) (reason_code : option string) : prog world string :=
  row <~ on_db (atomic (select_mandate mandate_jti)) ;
  let agent_id := mr_agent_id <$> row in
  approver <~ match or_str agent_id None with
              | Some agent => arow <~ atomic (gets (fun w => w_approvers w !! agent)) ; pret (override arow None)
              | None => pret None
              end ;
  _ <~ atomic (guard_escalation approver) ;
  esc_id <~ atomic (new_id "esc") ;
  timeout_at <~ atomic (gets (fun w => isoformat (seconds (clock_us (w_db w) / 1000000 + ESCALATION_TIMEOUT_S)))) ;
  text <~ plift (json_dumps (VDict (dict_set "reason_code" (opt_str reason_code) diff))) ;
  _ <~ atomic (insert_new w_escalations set_escalations esc_id (fun w =>
         {| es_purchase_id := purchase_id; es_mandate_jti := mandate_jti; es_run_id := run_id; es_approver_id := approver;
            es_status := "pending"; es_diff := text; es_timeout_at := timeout_at; es_decision := None; es_approver := None;
            es_channel := None; es_receipt_sig := None; es_created_at := stamp w |})) ;
  _ <~ atomic (append_event (event "purchase.escalated"
         [("purchase_id", VStr purchase_id); ("escalation_id", VStr esc_id); ("reason_code", opt_str reason_code); ("diff", VDict diff);
          ("approver_id", opt_str approver); ("timeout_at", VStr timeout_at)]%string None agent_id run_id (Some mandate_jti))) ;
  pret esc_id.

(** ** The charge *)

(** Giving the reservation back. *)
Definition _compensate (purchase_id : string) (claims intent code detail : pyval) (run_id : option string) : prog world outcome :=
  jti <~ plift (let? j := py_item claims "jti" in sql_text j) ;
  amount <~ plift (py_item intent "amount") ;
  _ <~ on_db (release fuel jti (py_str amount)) ;
  reason <~ plift (sql_param code) ;
  _ <~ atomic (set_purchase purchase_id "compensated" reason) ;
  agent <~ plift (let? a := py_item claims "agent" in sql_text a) ;
  _ <~ atomic (append_event (event "purchase.compensated" [("purchase_id", VStr purchase_id); ("reason_code", code); ("detail", detail)]%string
         None (Some agent) run_id (Some jti))) ;
  pret (Rejected purchase_id reason detail).

(** [live_state]: the mandate's status when the merchant asks. *)
Definition live_state (claims : pyval) (reservation_id : option string) : prog world pyval :=
  jti <~ plift (let? j := py_item claims "jti" in sql_text j) ;
  row <~ on_db (atomic (select_mandate jti)) ;
  pret (match row with
        | Some row => if String.eqb (mr_status row) "active"
                      then VDict [("decision", VStr "APPROVED"); ("reservation_id", opt_str reservation_id)]%string
                      else VDict [("decision", VStr "REJECTED"); ("reason_code", VStr "MANDATE_REVOKED")]%string
        | None => VDict [("decision", VStr "REJECTED"); ("reason_code", VStr "MANDATE_REVOKED")]%string
        end).

(** The capture token, for the merchants that settle through the bridge. *)
Definition mint_for (intent : pyval) (reservation_id : option string) (amount cart_hash : string) : prog world string :=
  intent_jti <~ plift (py_item intent "jti") ;
  now <~ atomic (gets (fun w => clock_us (w_db w))) ;
  plift (mint_capture_token (py_str intent_jti) reservation_id amount cart_hash token_key (Some token_kid) 120 now capture_dry_run).

(** The exceptions of the merchant's settlement become its refusal. *)
Definition settle_or_refuse (port : merchant_port) (s : settlement) : prog world (exn + pyval) :=
  pcatch (r <~ port_settle port s ; pret (inr r)) (fun e => Some (pret (inl e))).

Definition captured_row (receipt now : string) (row : purchase_row) : purchase_row :=
  {| pu_mandate_jti := pu_mandate_jti row; pu_intent_jti := pu_intent_jti row; pu_status := "captured"; pu_reason_code := pu_reason_code row;
     pu_amount := pu_amount row; pu_reservation_id := pu_reservation_id row; pu_receipt := Some receipt;
     pu_created_at := pu_created_at row; pu_updated_at := now |}.
Definition charging_row (reservation_id : option string) (now : string) (row : purchase_row) : purchase_row :=
  {| pu_mandate_jti := pu_mandate_jti row; pu_intent_jti := pu_intent_jti row; pu_status := "charging"; pu_reason_code := pu_reason_code row;
     pu_amount := pu_amount row; pu_reservation_id := reservation_id; pu_receipt := pu_receipt row;
     pu_created_at := pu_created_at row; pu_updated_at := now |}.

(** What follows an accepted settlement. *)
Definition _finish_capture (purchase_id : string) (claims intent result : pyval) (run_id : option string) : prog world outcome :=
  jti <~ plift (let? j := py_item claims "jti" in sql_text j) ;
  amount <~ plift (py_item intent "amount") ;
  _ <~ on_db (settle float_repr fuel jti (py_str amount)) ;
  receipt <~ plift (py_item result "receipt") ;
  text <~ plift (json_dumps receipt) ;
  _ <~ atomic (update_at w_purchases set_purchases purchase_id (fun _ => true) (fun w => captured_row text (stamp w))) ;
  ijti <~ plift (let? j := py_item intent "jti" in sql_text j) ;
  _ <~ atomic (mark_intent ijti "captured") ;
  agent <~ plift (let? a := py_item claims "agent" in sql_text a) ;
  _ <~ atomic (append_event (event "purchase.captured" [("purchase_id", VStr purchase_id); ("receipt", receipt)]%string None (Some agent) run_id (Some jti))) ;
  pret (Captured purchase_id receipt).

Definition _charge (purchase_id token : string) (claims intent : pyval) (signature : string) (decision : verdict) (run_id : option string) : prog world outcome :=
  _ <~ atomic (update_at w_purchases set_purchases purchase_id (fun _ => true) (fun w => charging_row (v_reservation_id decision) (stamp w))) ;
  port <~ plift (let? m := py_item intent "merchant_id" in merchant_for registry m) ;
  offer_id <~ plift (py_item intent "offer_id") ;
  key <~ plift (sql_text offer_id) ;
  found <~ port_get port key ;
  let fallback := VDict [("offer_id", offer_id); ("title", offer_id)]%string in
  let offer := match found with Some o => py_or o fallback | None => fallback end in
  result <~ settle_or_refuse port {| st_offer := offer; st_mandate_claims := claims; st_mandate_token := token; st_intent := intent;
      st_signature := signature; st_verify_fn := live_state claims (v_reservation_id decision);
      st_capture := if port_kernel_capture port then Some (mint_for intent (v_reservation_id decision)) else None |} ;
  match result with
  | inl (RailError code) => _compensate purchase_id claims intent (VStr code) (VStr (str_exn (RailError code))) run_id
  | inl e => _compensate purchase_id claims intent (VStr "RAIL_ERROR") (VStr (take_chars 200 (str_exn e))) run_id
  | inr result =>
      accepted <~ plift (py_get result "accepted") ;
      if negb (truthy accepted) then
        reason <~ plift (py_get result "reason_code") ;
        detail <~ plift (py_get_or result "detail" (VStr EmptyString)) ;
        _compensate purchase_id claims intent (py_or reason (VStr "RAIL_ERROR")) detail run_id
      else _finish_capture purchase_id claims intent result run_id
  end.

(** ** The saga *)

(** The amount is copied from the offer. *)
Definition build_intent (mandate_jti : string) (agent_id offer : pyval) : prog world pyval :=
  issued <~ atomic (gets now_ts) ;
  merchant_id <~ plift (py_item offer "merchant_id") ;
  offer_id <~ plift (py_item offer "offer_id") ;
  price <~ plift (py_item offer "price") ;
  amount <~ plift (fmt price) ;
  currency <~ plift (py_item offer "currency") ;
  nonce <~ atomic (draw uuid) ;
  jti <~ atomic (new_id "int") ;
  pret (VDict [("typ", VStr "purchase_intent_v1"); ("mandate_jti", VStr mandate_jti); ("agent", agent_id); ("merchant_id", merchant_id);
               ("offer_id", offer_id); ("amount", VStr amount); ("currency", currency); ("nonce", VStr nonce); ("jti", VStr jti);
               ("iat", VInt issued); ("exp", VInt (issued + INTENT_TTL_S))]%string).

Definition agent_private_key (agent_id : string) : PrivateKey := load_or_create ("agent_" +:+ agent_id)%string.

(** What a purchase is asked for. *)
Record purchase_args : Type := { pa_offer_id : string; pa_mandate_jti : string; pa_merchant_id : option string; pa_run_id : option string }.

Definition pending_row (mandate_jti intent_jti amount now : string) : purchase_row :=
  {| pu_mandate_jti := mandate_jti; pu_intent_jti := intent_jti; pu_status := "pending"; pu_reason_code := None; pu_amount := amount;
     pu_reservation_id := None; pu_receipt := None; pu_created_at := now; pu_updated_at := now |}.

(** The offer, or why there is none. *)
Definition find_offer (a : purchase_args) : prog world (outcome + (merchant_port * pyval)) :=
  match merchant_for registry (opt_str (pa_merchant_id a)) with
  | Raise KeyError | Raise StopIteration =>
      pret (inl (NotRequested "MERCHANT_NOT_ALLOWED" ("no merchant registered as " +:+ py_repr (opt_str (pa_merchant_id a)))))
  | Raise e => praise e
  | Ok port =>
      offer <~ port_get port (pa_offer_id a) ;
      pret (match offer with
            | None => inl (NotRequested "RAIL_ERROR" ("no such offer " +:+ pa_offer_id a +:+ " at " +:+ port_id port))
            | Some offer => inr (port, offer)
            end)
  end.

(** What follows each verdict. *)
Definition escalate_purchase (a : purchase_args) (purchase_id : string) (decision : verdict) (intent : pyval) (signature : string) : prog world outcome :=
  _ <~ atomic (set_purchase purchase_id "awaiting_escalation" (v_reason_code decision)) ;
  esc_id <~ open_escalation purchase_id (pa_mandate_jti a) (pa_run_id a) (v_diff decision) (v_reason_code decision) ;
  pret (Escalated purchase_id esc_id (v_reason_code decision) (v_detail decision) (v_diff decision) intent signature).

Definition reject_purchase (a : purchase_args) (purchase_id agent : string) (decision : verdict) : prog world outcome :=
  _ <~ atomic (set_purchase purchase_id "rejected" (v_reason_code decision)) ;
  _ <~ atomic (append_event (event "purchase.rejected"
         [("purchase_id", VStr purchase_id); ("reason_code", opt_str (v_reason_code decision)); ("detail", VStr (v_detail decision))]%string
         None (Some agent) (pa_run_id a) (Some (pa_mandate_jti a)))) ;
  pret (Rejected purchase_id (v_reason_code decision) (VStr (v_detail decision))).

Definition submit_purchase (a : purchase_args) : prog world outcome :=
  row <~ get_mandate (pa_mandate_jti a) ;
  claims <~ plift (loads float_repr (mr_claims row)) ;
  found <~ find_offer a ;
  match found with
  | inl answer => pret answer
  | inr (port, offer) =>
      agent_id <~ plift (py_item claims "agent") ;
      intent <~ build_intent (pa_mandate_jti a) agent_id offer ;
      agent <~ plift (sql_text agent_id) ;
      signature <~ plift (Jws.sign_detached intent (agent_private_key agent) (Some agent) "purchase-intent+jws") ;
      purchase_id <~ atomic (new_id "pur") ;
      intent_jti <~ plift (let? j := py_item intent "jti" in sql_text j) ;
      amount <~ plift (let? x := py_item intent "amount" in sql_text x) ;
      _ <~ atomic (insert_new w_purchases set_purchases purchase_id (fun w => pending_row (pa_mandate_jti a) intent_jti amount (stamp w))) ;
      _ <~ atomic (append_event (event "purchase.requested"
             [("purchase_id", VStr purchase_id); ("intent_jti", VStr intent_jti); ("offer_id", VStr (pa_offer_id a)); ("amount", VStr amount);
              ("merchant_id", VStr (port_id port))]%string None (Some agent) (pa_run_id a) (Some (pa_mandate_jti a)))) ;
      token <~ match mr_token row with Some t => pret t | None => praise AttributeError end ;
      decision <~ verify token intent signature true ;
      match v_decision decision with
      | AgentEscalated => escalate_purchase a purchase_id decision intent signature
      | AgentRejected => reject_purchase a purchase_id agent decision
      | AgentApproved => _charge purchase_id token claims intent signature decision (pa_run_id a)
      end
  end.
End Kernel.
