(* ===== verification/AgentEscalation.v ===== *)
(** Escalations of the agent lane (agent/escalation.py): a human's answer, the
    timeout, the retry through the gate, the sweep. *)
From stdpp Require Import sorting.
From S2P Require Import Prelude PyTime Decimal Json JsonLogic JsonParse Models Canonical Jose RappiClient Prog AgentRules AgentBudget AgentAudit AgentJws AgentWorld AgentMandate AgentMerchant AgentKernel.

(** [text LIKE pattern]: [%] any text, [_] any character, a backslash escapes. *)
Fixpoint sql_like (pattern text : string) : bool :=
  match pattern with
  | EmptyString => match text with EmptyString => true | _ => false end
  | String.String c p =>
      if Ascii.eqb c "%" then
        (fix any (t : string) : bool := sql_like p t || match t with EmptyString => false | String.String _ t' => any t' end) text
      else if Ascii.eqb c "_" then match text with EmptyString => false | String.String _ t => sql_like p t end
      else if Ascii.eqb c backslash then
        match p with
        | EmptyString => false
        | String.String e p' => match text with String.String x t => Ascii.eqb e x && sql_like p' t | EmptyString => false end
        end
      else match text with String.String x t => Ascii.eqb c x && sql_like p t | EmptyString => false end
  end.

(** Texts compared in code point order. *)
Definition later (now deadline : string) : bool := match String.compare now deadline with Gt => true | _ => false end.

Inductive answer : Type := Approve | Reject.
Definition answer_text (a : answer) : string := match a with Approve => "APPROVE" | Reject => "REJECT" end.

(** What [resolve] and [expire] answer. *)
Inductive resolution : Type :=
| AlreadyResolved (status : string) (decision : option string)
| TimedOut
| HumanRejected
| Retried (result : outcome).

Section Escalation.
Context `{Ed25519} `{JwsLibrary}.
Variables (uuid : nat -> string) (scrub_text float_repr : string -> string) (str_exn : exn -> string) (fuel : nat).
Variable registry : list (string * merchant_port).
Variables (token_key : Key) (token_kid : string) (capture_dry_run : bool).
Abbreviation append_event := (append_event uuid scrub_text).

Definition get_escalation (esc_id : string) : prog world escalation_row :=
  row <~ atomic (gets (fun w => w_escalations w !! esc_id)) ;
  match row with Some row => pret row | None => praise KeyError end.

Definition is_pending (row : escalation_row) : bool := String.eqb (es_status row) "pending".

Definition is_expired (esc_id : string) : prog world bool :=
  row <~ get_escalation esc_id ;
  if negb (is_pending row) then pret false
  else now <~ atomic (gets stamp) ; pret (later now (es_timeout_at row)).

Definition expired_row (row : escalation_row) : escalation_row :=
  {| es_purchase_id := es_purchase_id row; es_mandate_jti := es_mandate_jti row; es_run_id := es_run_id row; es_approver_id := es_approver_id row;
     es_status := "expired"; es_diff := es_diff row; es_timeout_at := es_timeout_at row; es_decision := Some "TIMEOUT"%string;
     es_approver := es_approver row; es_channel := es_channel row; es_receipt_sig := es_receipt_sig row; es_created_at := es_created_at row |}.
Definition resolved_row (decision approver channel receipt_sig : string) (row : escalation_row) : escalation_row :=
  {| es_purchase_id := es_purchase_id row; es_mandate_jti := es_mandate_jti row; es_run_id := es_run_id row; es_approver_id := es_approver_id row;
     es_status := "resolved"; es_diff := es_diff row; es_timeout_at := es_timeout_at row; es_decision := Some decision;
     es_approver := Some approver; es_channel := Some channel; es_receipt_sig := Some receipt_sig; es_created_at := es_created_at row |}.

(** The row is written whatever it has become since it was read. *)
Definition write_escalation (esc_id : string) (f : escalation_row -> escalation_row) : st world Z :=
  update_at w_escalations set_escalations esc_id (fun _ => true) (fun _ => f).

Definition expire (esc_id : string) : prog world resolution :=
  row <~ get_escalation esc_id ;
  if negb (is_pending row) then pret (AlreadyResolved (es_status row) None)
  else
    _ <~ atomic (write_escalation esc_id expired_row) ;
    _ <~ atomic (set_purchase (es_purchase_id row) "rejected" (Some "ESCALATION_TIMEOUT_DENIED"%string)) ;
    _ <~ atomic (append_event (event "escalation.expired"
           [("escalation_id", VStr esc_id); ("purchase_id", VStr (es_purchase_id row)); ("reason_code", VStr "ESCALATION_TIMEOUT_DENIED")]%string
           None None (es_run_id row) (Some (es_mandate_jti row)))) ;
    pret TimedOut.

(** ** The retry *)

(** [stored.get("offer_id")] and [stored.get("merchant_id")] of the intent, when
    it was kept. *)
Definition stored_offer (purchase : purchase_row) : prog world (pyval * pyval) :=
  kept <~ atomic (gets (fun w => List.find (fun r => String.eqb (pi_jti r) (pu_intent_jti purchase)) (w_intents w))) ;
  match kept with
  | None => pret (VNone, VNone)
  | Some row =>
      match pi_intent row with
      | None => praise TypeError
      | Some text =>
          stored <~ plift (loads float_repr text) ;
          offer_id <~ plift (py_get stored "offer_id") ; merchant_id <~ plift (py_get stored "merchant_id") ;
          pret (offer_id, merchant_id)
      end
  end.

Definition older (a b : event_row) : Prop := er_seq a <= er_seq b.
#[local] Instance older_dec : RelDecision older.
Proof. intros a b. apply Z_le_dec. Defined.

(** The newest request event whose payload mentions the purchase. *)
Definition request_event (purchase_id : string) (w : world) : option event_row :=
  last (merge_sort older
    (List.filter (fun r => String.eqb (er_type r) "purchase.requested" && sql_like ("%" +:+ purchase_id +:+ "%") (er_payload r)) (tr_events (w_trail w)))).

Definition find_request (purchase_id : string) (purchase : purchase_row) : prog world (pyval * pyval) :=
  stored <~ stored_offer purchase ;
  match stored with
  | (VNone, merchant_id) =>
      ev <~ atomic (gets (request_event purchase_id)) ;
      match ev with
      | None => pret (VNone, merchant_id)
      | Some r =>
          payload <~ plift (loads float_repr (er_payload r)) ;
          offer_id <~ plift (py_get payload "offer_id") ; requested <~ plift (py_get payload "merchant_id") ;
          pret (offer_id, py_or merchant_id requested)
      end
  | _ => pret stored
  end.

(** The mini-mandate a sticky approval signs: the amount once, the mandate its
    parent. *)
Definition derived_args (parent : mandate_row) (claims : pyval) (amount approver mandate_jti : string) : res issue_args :=
  let? cnf := py_item claims "cnf" in
  let? jwk := py_item cnf "jwk" in
  let? ref := py_item claims "payment_method_ref" in
  let? ref := sql_text ref in
  let? scope := py_item claims "scope" in
  let? validity := py_item claims "validity" in
  let? currency := py_item claims "currency" in
  let? currency := sql_text currency in
  Ok {| ia_user_id := mr_user_id parent; ia_agent_id := mr_agent_id parent; ia_agent_jwk := jwk; ia_payment_method_ref := ref;
        ia_scope := scope; ia_conditions := VBool true;
        ia_limits := VDict [("max_per_txn", VStr amount); ("total_budget", VStr amount);
                            ("max_txn", VDict [("count", VInt 1); ("period", VStr "once")]%string)]%string;
        ia_validity := validity; ia_currency := currency; ia_parent_jti := Some mandate_jti;
        ia_signed_with := ("approval:" +:+ approver)%string |}.

Definition derive_mandate (mandate_jti amount approver : string) : prog world string :=
  parent <~ get_mandate mandate_jti ;
  claims <~ plift (loads float_repr (mr_claims parent)) ;
  args <~ plift (derived_args parent claims amount approver mandate_jti) ;
  derived <~ issue uuid scrub_text args ;
  pret (is_jti derived).

Definition _retry_through_gate (row : escalation_row) (approver : string) (sticky : bool) : prog world outcome :=
  purchase <~ atomic (gets (fun w => w_purchases w !! es_purchase_id row)) ;
  match purchase with
  | None => praise TypeError
  | Some purchase =>
      request <~ find_request (es_purchase_id row) purchase ;
      match request with
      | (VNone, _) => pret (NotRequested "RAIL_ERROR" "cannot rebuild the intent to retry")
      | (offer_id, merchant_id) =>
          mandate_jti <~ (if sticky then derive_mandate (es_mandate_jti row) (pu_amount purchase) approver else pret (es_mandate_jti row)) ;
          offer_id <~ plift (sql_text offer_id) ;
          merchant_id <~ plift (sql_param merchant_id) ;
          submit_purchase uuid scrub_text float_repr str_exn fuel registry token_key token_kid capture_dry_run
            {| pa_offer_id := offer_id; pa_mandate_jti := mandate_jti; pa_merchant_id := merchant_id; pa_run_id := es_run_id row |}
      end
  end.

Definition resolve (esc_id : string) (decision : answer) (approver channel : string) (sticky : bool) : prog world resolution :=
  row <~ get_escalation esc_id ;
  if negb (is_pending row) then pret (AlreadyResolved (es_status row) (es_decision row))
  else
    now <~ atomic (gets stamp) ;
    if later now (es_timeout_at row) then expire esc_id
    else
      at_ <~ atomic (gets stamp) ;
      receipt_sig <~ plift (Jws.sign_detached
        (VDict [("escalation_id", VStr esc_id); ("purchase_id", VStr (es_purchase_id row)); ("decision", VStr (answer_text decision));
                ("approver", VStr approver); ("channel", VStr channel); ("at", VStr at_)]%string) issuer_key (Some KID) "approval-receipt+jws") ;
      _ <~ atomic (write_escalation esc_id (resolved_row (answer_text decision) approver channel receipt_sig)) ;
      _ <~ atomic (append_event (event "escalation.resolved"
             [("escalation_id", VStr esc_id); ("purchase_id", VStr (es_purchase_id row)); ("decision", VStr (answer_text decision));
              ("approver", VStr approver); ("channel", VStr channel); ("receipt_sig", VStr receipt_sig)]%string
             (Some approver) None (es_run_id row) (Some (es_mandate_jti row)))) ;
      match decision with
      | Reject =>
          _ <~ atomic (set_purchase (es_purchase_id row) "rejected" (Some "HUMAN_REJECTED"%string)) ;
          pret HumanRejected
      | Approve => result <~ _retry_through_gate row approver sticky ; pret (Retried result)
      end.

(** ** The sweep *)

(** [SELECT id ... WHERE status='pending' AND timeout_at < ?], in the order the
    database has the rows. *)
Definition overdue (order : gset string -> list string) (w : world) : list string :=
  List.filter (fun id => match w_escalations w !! id with
                         | Some row => is_pending row && later (stamp w) (es_timeout_at row)
                         | None => false
                         end) (order (dom (w_escalations w))).

Fixpoint expire_each (ids : list string) : prog world (list resolution) :=
  match ids with
  | [] => pret []
  | id :: rest => r <~ expire id ; rs <~ expire_each rest ; pret (r :: rs)
  end.

Definition sweep (order : gset string -> list string) : prog world (list resolution) :=
  ids <~ atomic (gets (overdue order)) ; expire_each ids.
End Escalation.
