(* ===== verification/AgentBooks.v ===== *)
(** The amounts on the mandates: what reservations, releases and settlements do to
    them, and what leaves them as they are. *)
From S2P Require Import Prelude PyTime Decimal Json JsonLogic JsonParse Models Canonical Jose RappiClient Prog AgentRules AgentGate AgentBudget AgentBudgetFacts AgentSpending.

(** The columns of a mandate that money, its limits and its parties are in. *)
Definition amounts (row : mandate_row) : string * string * string * option string * string * string :=
  (mr_reserved_amount row, mr_spent_total row, mr_claims row, mr_parent_jti row, mr_user_id row, mr_agent_id row).

(** Two tables with the same amounts, [f] applied on the mandates of [l]. *)
Definition booked (f : mandate_row -> mandate_row) (l : list string) (m m' : gmap string mandate_row) : Prop :=
  forall j, amounts <$> m' !! j = amounts <$> (if bool_decide (j ∈ l) then f <$> m !! j else m !! j).
Definition same_books (m m' : gmap string mandate_row) : Prop := forall j, amounts <$> m' !! j = amounts <$> m !! j.

#[export] Instance same_books_equiv : Equivalence same_books.
Proof.
  split; [by intros m j|by intros m m' H j|]. intros m1 m2 m3 H12 H23 j. by rewrite H23.
Qed.

Lemma booked_nil f m m' : booked f [] m m' <-> same_books m m'.
Proof. split; intros H j; specialize (H j); by rewrite bool_decide_false in * by apply not_elem_of_nil. Qed.

Lemma same_books_insert j row row' m : m !! j = Some row -> amounts row' = amounts row -> same_books m (<[j := row']> m).
Proof. intros Hj Ha k. destruct (decide (k = j)) as [->|Hne]; [by rewrite lookup_insert_eq, Hj; cbn; rewrite Ha|by rewrite lookup_insert_ne]. Qed.

Section Books.
Variable float_repr : string -> string.
Abbreviation row_ok := (row_ok float_repr).
Abbreviation table_ok := (table_ok float_repr).
Abbreviation total_of := (total_of float_repr).

Definition spent_by (a : Z) (row : mandate_row) : mandate_row :=
  {| mr_user_id := mr_user_id row; mr_agent_id := mr_agent_id row; mr_token := mr_token row; mr_created_at := mr_created_at row;
     mr_status := mr_status row; mr_claims := mr_claims row; mr_reserved_amount := mr_reserved_amount row;
     mr_spent_total := cents_text (spent_of row + a); mr_txn_count := mr_txn_count row; mr_parent_jti := mr_parent_jti row;
     mr_updated_at := mr_updated_at row |}.

Lemma amounts_eq row row' : amounts row = amounts row' -> held row = held row' /\ spent_of row = spent_of row' /\ total_of row = total_of row'.
Proof using Type. unfold amounts, held, spent_of, AgentSpending.total_of. intros [= -> -> -> _ _ _]. done. Qed.

Lemma row_ok_amounts row row' : amounts row = amounts row' -> row_ok row' -> row_ok row.
Proof using Type.
  intros Ha [Hr Hs Ht Hb]. destruct (amounts_eq _ _ Ha) as (E1 & E2 & E3). unfold AgentSpending.row_ok. rewrite E1, E2, E3.
  injection Ha as A1 A2 A3 _ _ _. split; [congruence|congruence|by rewrite A3|done].
Qed.

Lemma booked_lookup f l m m' j row' : booked f l m m' -> m' !! j = Some row' ->
  exists row, m !! j = Some row /\ amounts row' = amounts (if bool_decide (j ∈ l) then f row else row).
Proof using Type.
  intros Hb Hj. specialize (Hb j). rewrite Hj in Hb. destruct (m !! j) as [row|] eqn:E.
  - exists row. split; [done|]. destruct (bool_decide (j ∈ l)); cbn in Hb; congruence.
  - by destruct (bool_decide (j ∈ l)).
Qed.

Lemma table_ok_same m m' : same_books m m' -> table_ok m -> table_ok m'.
Proof using Type.
  intros Hb Hok j row' Hj. apply booked_nil with (f := id) in Hb. destruct (booked_lookup _ _ _ _ _ _ Hb Hj) as (row & Hr & Ha).
  rewrite bool_decide_false in Ha by apply not_elem_of_nil. eapply row_ok_amounts; [exact Ha|by eapply Hok].
Qed.

(** A change that reads the amounts only. *)
Definition respects (f : mandate_row -> mandate_row) : Prop := forall r r', amounts r = amounts r' -> amounts (f r) = amounts (f r').
Lemma moved_respects a : respects (moved_by a).
Proof using Type. intros r r' [= A1 A2 A3 A4 A5 A6]. unfold amounts, moved_by, held. cbn. congruence. Qed.
Lemma spent_respects a : respects (spent_by a).
Proof using Type. intros r r' [= A1 A2 A3 A4 A5 A6]. unfold amounts, spent_by, spent_of. cbn. congruence. Qed.

Lemma same_booked f l m m1 m2 : respects f -> same_books m m1 -> booked f l m1 m2 -> booked f l m m2.
Proof using Type.
  intros Hf Hs Hb j. rewrite (Hb j). specialize (Hs j). destruct (bool_decide _); [|done].
  destruct (m !! j), (m1 !! j); try done. injection Hs as E1 E2 E3 E4 E5 E6. cbn. f_equal. apply Hf. unfold amounts. congruence.
Qed.
Lemma booked_apart f l m m1 m2 : booked f l m m1 -> same_books m1 m2 -> booked f l m m2.
Proof using Type. intros Hb Hs j. by rewrite (Hs j). Qed.

Lemma parents_booked f l m m' j : (forall row, mr_parent_jti (f row) = mr_parent_jti row) -> booked f l m m' -> parent_in m' j = parent_in m j.
Proof using Type.
  intros Hf Hb. specialize (Hb j). unfold parent_in. destruct (m !! j) as [row|], (m' !! j) as [row'|]; destruct (bool_decide (j ∈ l)); try done; cbn in *;
    injection Hb as _ _ _ Hp _ _; [by rewrite Hp, Hf|done].
Qed.

(** The mandate and its ancestors. *)
Definition family (m : gmap string mandate_row) (fuel : nat) (jti : string) : list string :=
  match lineage_from m fuel (Some jti) [] with Ok l => l | Raise _ => [] end.

Lemma size_booked f l m m' : booked f l m m' -> size m' = size m.
Proof using Type.
  intros Hb. rewrite <- !size_dom. f_equal. apply set_eq. intros j. rewrite !elem_of_dom. specialize (Hb j).
  destruct (m !! j), (m' !! j); destruct (bool_decide (j ∈ l)); cbn in Hb; split; intros []; try done; by eexists.
Qed.

Lemma family_booked f l m m' fuel jti : (forall row, mr_parent_jti (f row) = mr_parent_jti row) -> booked f l m m' ->
  family m' fuel jti = family m fuel jti.
Proof using Type.
  intros Hf Hb. unfold family. rewrite (lineage_ext m' m); [done|]. intros j. by eapply parents_booked.
Qed.

Lemma run_chain fuel jti d : (size (mandates d) + 2 <= fuel)%nat ->
  run_prog (chain fuel jti) d = (Ok (family (mandates d) fuel jti), d) /\ NoDup (family (mandates d) fuel jti).
Proof using Type.
  intros Hf. destruct (chain_run fuel jti d Hf) as (l & Hl & Hlin & Hnd). unfold family. by rewrite Hlin.
Qed.

(** What a granted reservation finds on each mandate. *)
Definition fits (a : Z) (row : mandate_row) : Prop := spent_of row + held row + a <= total_of row.
Definition has_room (a : Z) (row : mandate_row) : Prop := mr_status row = "active"%string /\ fits a row.

Lemma matches_booked f l m m' : matches f l m m' -> booked f l m m'.
Proof using Type.
  intros Hm j. specialize (Hm j). assert (He : forall r r', erase r = erase r' -> amounts r = amounts r').
  { intros r r' He. unfold erase, stamped in He. injection He as U1 U2 _ _ _ H2 H3 H4 _ H6. unfold amounts. congruence. }
  destruct (m' !! j) as [row'|], (m !! j) as [row|]; destruct (bool_decide (j ∈ l)); cbn in *; try done; apply (f_equal (from_option id row')) in Hm; cbn in Hm; apply f_equal, He, Hm.
Qed.

Lemma reserve_run fuel jti a d : small a -> table_ok (mandates d) -> (size (mandates d) + 2 <= fuel)%nat ->
  exists b d', run_prog (reserve_chain float_repr fuel jti (cents_text a)) d = (Ok b, d') /\ clock_us d' = clock_us d /\
    booked (moved_by a) (if b then family (mandates d) fuel jti else []) (mandates d) (mandates d') /\
    (b = true -> forall j, j ∈ family (mandates d) fuel jti -> exists row, mandates d !! j = Some row /\ has_room a row).
Proof using Type.
  intros Ha Hok Hf. destruct (run_chain fuel jti d Hf) as [Hl Hnd]. set (l := family _ _ _) in *.
  destruct (run_reserve_each float_repr a Ha l [] d Hnd Hok) with (b := forallb (admits_at float_repr a (mandates d)) l) as (d' & Hrun & Hc & Hm);
    [by intros j row ?%not_elem_of_nil|done|].
  exists (forallb (admits_at float_repr a (mandates d)) l), d'. split; [|split; [done|split]].
  - unfold reserve_chain. rewrite run_pbind. unfold sbind. by rewrite Hl.
  - destruct (forallb _ l); [by apply matches_booked|]. apply booked_nil. apply matches_booked, booked_nil in Hm. exact Hm.
  - intros Hall j Hj. rewrite forallb_forall in Hall. specialize (Hall j (proj1 (list_elem_of_In _ _) Hj)). unfold admits_at in Hall.
    destruct (mandates d !! j) as [row|]; [|done]. exists row. split; [done|]. unfold admits_row in Hall.
    apply andb_prop in Hall as [Hact%String.eqb_eq Hle%Z.leb_le]. by split.
Qed.

(** The amounts once [a] is reserved: [held] is [a] more. *)
Lemma moved_amounts a row : row_ok row -> small (held row + a) ->
  held (moved_by a row) = held row + a /\ spent_of (moved_by a row) = spent_of row /\ total_of (moved_by a row) = total_of row /\ row_ok (moved_by a row).
Proof using Type.
  intros Hok Ha. pose proof (moved_money float_repr a row Hok Ha) as Hm. destruct (money_amounts float_repr _ _ _ _ Hm) as (E1 & E2 & E3).
  split_and!; [exact E1|exact E2|exact E3|]. by eapply money_row_ok.
Qed.

Lemma room_small a row : row_ok row -> small a -> fits a row -> small (held row + a) /\ small (spent_of row + a).
Proof using Type. intros [_ _ _ (H1 & H2 & H3)] Ha Hle. unfold small, fits in *. lia. Qed.

Section Close.
Variables (a : Z) (l : list string) (m m' : gmap string mandate_row).
Hypotheses (Ha : small a) (Hok : table_ok m) (Hroom : forall j, j ∈ l -> exists row, m !! j = Some row /\ fits a row)
  (Hb : booked (moved_by a) l m m').

Lemma reserved_rows j row' : j ∈ l -> m' !! j = Some row' ->
  exists row, m !! j = Some row /\ row_ok row /\ amounts row' = amounts (moved_by a row) /\ row_ok row' /\
    held row' = held row + a /\ spent_of row' = spent_of row /\ total_of row' = total_of row /\ fits a row.
Proof using Ha Hok Hroom Hb.
  intros Hj Hr'. destruct (booked_lookup _ _ _ _ _ _ Hb Hr') as (row & Hr & Ham). rewrite bool_decide_true in Ham by done.
  destruct (Hroom j Hj) as (row0 & Hr0 & Hrm). rewrite Hr in Hr0. injection Hr0 as <-.
  pose proof (Hok j row Hr) as Hrow. destruct (room_small a row Hrow Ha Hrm) as [Hs1 Hs2].
  destruct (moved_amounts a row Hrow Hs1) as (E1 & E2 & E3 & E4). destruct (amounts_eq _ _ Ham) as (F1 & F2 & F3).
  exists row. split_and!; try done; [by eapply row_ok_amounts|congruence..].
Qed.

Lemma table_ok_reserved : table_ok m'.
Proof using Ha Hok Hroom Hb.
  intros j row' Hr'. destruct (decide (j ∈ l)) as [Hj|Hj]; [by destruct (reserved_rows j row' Hj Hr') as (? & _ & _ & _ & H & _)|].
  destruct (booked_lookup _ _ _ _ _ _ Hb Hr') as (row & Hr & Ham). rewrite bool_decide_false in Ham by done. eapply row_ok_amounts; [exact Ham|by eapply Hok].
Qed.

Lemma close_run change hrow f fuel jti d : mandates d = m' -> family m fuel jti = l -> (size m + 2 <= fuel)%nat ->
  (forall j row, j ∈ l -> m' !! j = Some row -> change row = Ok (hrow row)) ->
  (forall j row row' now, j ∈ l -> m !! j = Some row -> m' !! j = Some row' -> amounts (hrow row' now row') = amounts (f row)) ->
  exists d', run_prog (jtis <~ chain fuel jti ; rewrite_each change jtis) d = (Ok tt, d') /\ clock_us d' = clock_us d /\ booked f l m (mandates d').
Proof using Hb.
  intros <- Hl Hf Hch Hrow.
  assert (family (mandates d) fuel jti = l) as Hl' by (rewrite <- Hl; eapply family_booked; [|exact Hb]; done).
  destruct (run_chain fuel jti d) as [Hrun Hnd]; [by rewrite (size_booked _ _ _ _ Hb)|]. rewrite Hl' in Hrun, Hnd.
  destruct (run_rewrite_each change hrow l d Hnd Hch) as (d' & Hd & Hc & Hm).
  exists d'. split; [rewrite run_pbind; unfold sbind; by rewrite Hrun|]. split; [done|]. intros j. rewrite Hm.
  destruct (bool_decide (j ∈ l)) eqn:Ej.
  - apply bool_decide_eq_true in Ej. pose proof (Hb j) as Hj. rewrite bool_decide_true in Hj by done.
    destruct (m !! j) as [row|] eqn:Er, (mandates d !! j) as [row'|] eqn:Er'; try done. cbn. f_equal. by eapply Hrow.
  - pose proof (Hb j) as Hj. by rewrite Ej in Hj.
Qed.

(** Releasing what was reserved restores the amounts. *)
Lemma release_run fuel jti d : mandates d = m' -> family m fuel jti = l -> (size m + 2 <= fuel)%nat ->
  exists d', run_prog (release fuel jti (cents_text a)) d = (Ok tt, d') /\ clock_us d' = clock_us d /\ same_books m (mandates d').
Proof using Ha Hok Hroom Hb.
  intros Hd Hl Hf. destruct (close_run (unreserved_row (cents_text a)) (fun row _ => with_reserved (cents_text (Z.max 0 (held row - a)))) id fuel jti d Hd Hl Hf)
    as (d' & Hrun & Hc & Hbk).
  - intros j row' Hj Hr'. destruct (reserved_rows j row' Hj Hr') as (row & _ & _ & _ & Hrow' & _).
    unfold unreserved_row. by rewrite (freed_exact float_repr row' _ _ _ a Hrow' Ha).
  - intros j row row' now Hj Hr Hr'. destruct (reserved_rows j row' Hj Hr') as (row2 & Hr2 & Hrow & Ham & _ & Hh & _).
    rewrite Hr in Hr2. injection Hr2 as <-. rewrite Hh. replace (held row + a - a) with (held row) by lia.
    destruct Hrow as [H1 _ _ ([? _] & _)]. rewrite Z.max_r by lia. unfold amounts, moved_by, with_reserved in *. cbn in *.
    injection Ham as _ E2 E3 E4 E5 E6. by rewrite <- H1, E2, E3, E4, E5, E6.
  - exists d'. split; [done|]. split; [done|]. intros j. specialize (Hbk j). rewrite Hbk. destruct (bool_decide _); [|done]. by destruct (m !! j).
Qed.

(** Settling turns the reservation into spending. *)
Lemma settle_run fuel jti d : mandates d = m' -> family m fuel jti = l -> (size m + 2 <= fuel)%nat ->
  exists d', run_prog (settle float_repr fuel jti (cents_text a)) d = (Ok tt, d') /\ clock_us d' = clock_us d /\ booked (spent_by a) l m (mandates d').
Proof using Ha Hok Hroom Hb.
  intros Hd Hl Hf. apply (close_run (settled_row float_repr (cents_text a)) (fun row now r =>
      {| mr_user_id := mr_user_id r; mr_agent_id := mr_agent_id r; mr_token := mr_token r; mr_created_at := mr_created_at r;
         mr_status := if total_of row <=? spent_of row + a then "exhausted"%string else mr_status row; mr_claims := mr_claims r;
         mr_reserved_amount := cents_text (Z.max 0 (held row - a)); mr_spent_total := cents_text (spent_of row + a);
         mr_txn_count := mr_txn_count row + 1; mr_parent_jti := mr_parent_jti r; mr_updated_at := now |})); try done.
  - intros j row' Hj Hr'. destruct (reserved_rows j row' Hj Hr') as (row & _ & _ & _ & Hrow' & _).
    by destruct (settled_exact float_repr row' _ _ _ a Hrow' Ha) as (status & -> & ->).
  - intros j row row' now Hj Hr Hr'. destruct (reserved_rows j row' Hj Hr') as (row2 & Hr2 & Hrow & Ham & _ & Hh & Hs & _).
    rewrite Hr in Hr2. injection Hr2 as <-. rewrite Hh, Hs. replace (held row + a - a) with (held row) by lia.
    destruct Hrow as [H1 _ _ ([? _] & _)]. rewrite Z.max_r by lia. unfold amounts, spent_by, moved_by, with_reserved in *. cbn in *.
    injection Ham as _ _ E3 E4 E5 E6. by rewrite <- H1, E3, E4, E5, E6.
Qed.

(** Neither leaves a mandate over its budget. *)
Lemma spent_within d' j row' : booked (spent_by a) l m (mandates d') -> j ∈ l -> mandates d' !! j = Some row' ->
  row_ok row' /\ spent_of row' + held row' <= total_of row'.
Proof using Ha Hok Hroom.
  intros Hbk Hj Hr'. destruct (booked_lookup _ _ _ _ _ _ Hbk Hr') as (row & Hr & Ham). rewrite bool_decide_true in Ham by done.
  destruct (Hroom j Hj) as (row0 & Hr0 & Hrm). rewrite Hr in Hr0. injection Hr0 as <-. pose proof (Hok j row Hr) as Hrow.
  destruct (room_small a row Hrow Ha Hrm) as [_ Hs]. assert (money float_repr (spent_by a row) (held row) (spent_of row + a) (total_of row)) as Hm.
  { destruct Hrow as [H1 H2 H3 (B1 & B2 & B3)]. by split. }
  destruct (money_amounts float_repr _ _ _ _ Hm) as (E1 & E2 & E3). destruct (amounts_eq _ _ Ham) as (F1 & F2 & F3).
  split; [eapply row_ok_amounts; [exact Ham|by eapply money_row_ok]|]. rewrite F1, F2, F3, E1, E2, E3. unfold fits in Hrm. lia.
Qed.
End Close.
End Books.
