(* ===== verification/AgentFrame.v ===== *)
(** What the programs of the agent lane leave alone: a tactic that walks a program
    and checks each statement, used for the amounts of mandates (AgentSaga.v) and
    for the rail (AgentRevocation.v). *)
From S2P Require Import Prelude PyTime Decimal Json JsonLogic JsonParse Models Canonical Jose RappiClient Prog AgentRules AgentBudget AgentAudit AgentJws AgentWorld AgentMandate AgentMerchant AgentKernel AgentEscalation.

(** A part of the database that requests, events, identifiers, escalations and
    counters are not in. *)
Record neutral {T} (v : world -> T) : Prop := {
  n_trail : forall t w, v (set_trail t w) = v w;
  n_drawn : forall n w, v (set_drawn n w) = v w;
  n_intents : forall l w, v (set_intents l w) = v w;
  n_escalations : forall m w, v (set_escalations m w) = v w;
  n_counters : forall m w, v (set_counters m w) = v w;
}.

Lemma append_writes uuid scrub_text a w : exists t n, (append_event uuid scrub_text a w).2 = set_trail t (set_drawn n w).
Proof.
  unfold append_event, new_id, draw, sbind, ret, get, zoom. cbn. destruct (append_transaction _ _ _ _ _ _) as [r t]. cbn. by eexists _, _.
Qed.

Section Frame.
Context {T : Type} (v : world -> T) (Hv : neutral v) (G : world -> world -> Prop) (HG : forall w w', v w' = v w -> G w w').
Variables (uuid : nat -> string) (scrub_text : string -> string).

Lemma frame_gets {A} (f : world -> A) : does G (atomic (gets f)).
Proof using HG. apply does_atomic. intros w. by apply HG. Qed.

Lemma frame_append a : does G (atomic (append_event uuid scrub_text a)).
Proof using Hv HG.
  apply does_atomic. intros w. apply HG. destruct (append_writes uuid scrub_text a w) as (t & n & ->). by rewrite (n_trail v Hv), (n_drawn v Hv).
Qed.

Lemma frame_new_id prefix : does G (atomic (new_id uuid prefix)).
Proof using Hv HG. apply does_atomic. intros w. apply HG. unfold new_id, draw, sbind, ret. cbn. apply (n_drawn v Hv). Qed.

Lemma frame_draw : does G (atomic (draw uuid)).
Proof using Hv HG. apply does_atomic. intros w. apply HG, (n_drawn v Hv). Qed.

Lemma frame_update {V} (view : world -> gmap string V) update key guard f : (forall m w, v (update m w) = v w) ->
  does G (atomic (update_at view update key guard f)).
Proof using HG.
  intros Hu. apply does_atomic. intros w. apply HG. unfold update_at. destruct (view w !! key); [|done]. destruct (guard _); [apply Hu|done].
Qed.

Lemma frame_insert {V} (view : world -> gmap string V) update key row : (forall m w, v (update m w) = v w) ->
  does G (atomic (insert_new view update key row)).
Proof using HG. intros Hu. apply does_atomic. intros w. apply HG. unfold insert_new. destruct (view w !! key); [done|apply Hu]. Qed.

Lemma frame_escalation key f : does G (atomic (write_escalation key f)).
Proof using Hv HG. apply frame_update, (n_escalations v Hv). Qed.
Lemma frame_new_escalation key row : does G (atomic (insert_new w_escalations set_escalations key row)).
Proof using Hv HG. apply frame_insert, (n_escalations v Hv). Qed.

Lemma frame_insert_intent (row : world -> intent_row) : does G (atomic (fun w => insert_intent (row w) w)).
Proof using Hv HG. apply does_atomic. intros w. apply HG. unfold insert_intent. destruct (existsb _ _); [done|apply (n_intents v Hv)]. Qed.

Lemma frame_mark_intent jti status : does G (atomic (mark_intent jti status)).
Proof using Hv HG. apply does_atomic. intros w. apply HG, (n_intents v Hv). Qed.

Lemma frame_guard approver : does G (atomic (guard_escalation approver)).
Proof using Hv HG.
  apply does_atomic. intros w. apply HG. unfold guard_escalation, bump. destruct (_ <? _); [done|apply (n_counters v Hv)].
Qed.
End Frame.

(** Walks a program; [tac] is tried on what it does not know. *)
Ltac frame Hv HG tac :=
  repeat first
    [ progress tac
    | match goal with
      | |- does _ (pret _) => exact I
      | |- does _ (praise _) => exact I
      | |- does _ (plift _) => exact I
      | |- does _ (Finish _) => exact I
      | |- does _ (pbind _ _) => apply does_bind; [|intros ?]
      | |- does _ (atomic (gets _)) => apply frame_gets with (1 := HG)
      | |- does _ (atomic (append_event _ _ _)) => apply frame_append with (1 := Hv) (2 := HG)
      | |- does _ (atomic (new_id _ _)) => apply frame_new_id with (1 := Hv) (2 := HG)
      | |- does _ (atomic (draw _)) => apply frame_draw with (1 := Hv) (2 := HG)
      | |- does _ (atomic (write_escalation _ _)) => apply frame_escalation with (1 := Hv) (2 := HG)
      | |- does _ (atomic (insert_new w_escalations _ _ _)) => apply frame_new_escalation with (1 := Hv) (2 := HG)
      | |- does _ (atomic (fun w => insert_intent _ w)) => apply frame_insert_intent with (1 := Hv) (2 := HG)
      | |- does _ (atomic (mark_intent _ _)) => apply frame_mark_intent with (1 := Hv) (2 := HG)
      | |- does _ (atomic (guard_escalation _)) => apply frame_guard with (1 := Hv) (2 := HG)
      | |- does _ (match ?x with _ => _ end) => destruct x
      end ].
