(* ===== verification/AgentColumns.v ===== *)
(** JSON columns of the agent lane's database: what [json.dumps] wrote,
    [json.loads] reads back, for every text of Unicode. *)
From S2P Require Import Prelude PyTime Decimal Json JsonLogic JsonParse Models Canonical Jose RappiClient Prog AgentRules AgentBudget AgentAudit AgentWorld.

(** ** Texts *)

Definition cont (c : ascii) : bool := ((128 <=? N_of_ascii c) && (N_of_ascii c <? 192))%N.

(** The bytes are the UTF-8 of code points. *)
Fixpoint utf8_text (s : string) : bool :=
  match s with
  | EmptyString => true
  | String.String a s1 =>
      let n := N_of_ascii a in
      if (n <? 128)%N then utf8_text s1
      else if (n <? 224)%N then
        match s1 with String.String b s2 => (194 <=? n)%N && cont b && utf8_text s2 | EmptyString => false end
      else if (n <? 240)%N then
        match s1 with
        | String.String b (String.String c s3) =>
            let p := ((n - 224) * 4096 + (N_of_ascii b - 128) * 64 + (N_of_ascii c - 128))%N in
            cont b && cont c && (2048 <=? p)%N && negb (is_high p) && negb (is_low p) && utf8_text s3
        | _ => false
        end
      else
        match s1 with
        | String.String b (String.String c (String.String d s4)) =>
            let p := ((n - 240) * 262144 + (N_of_ascii b - 128) * 4096 + (N_of_ascii c - 128) * 64 + (N_of_ascii d - 128))%N in
            cont b && cont c && cont d && (65536 <=? p)%N && (p <? 1114112)%N && utf8_text s4
        | _ => false
        end
  end.

Lemma hex_value_chr k : (k < 16)%N -> hex_value (hex_chr k) = Some k.
Proof.
  intros Hk. assert (forallb (fun i => bool_decide (hex_value (hex_chr (N.of_nat i)) = Some (N.of_nat i))) (seq 0 16) = true) as Hall by reflexivity.
  rewrite forallb_forall in Hall. specialize (Hall (N.to_nat k)). rewrite in_seq, bool_decide_eq_true, N2Nat.id in Hall. apply Hall. lia.
Qed.

Lemma hex4_chr n : (n < 65536)%N -> hex4 (hex_chr (n / 4096)) (hex_chr (n / 256 mod 16)) (hex_chr (n / 16 mod 16)) (hex_chr (n mod 16)) = Some n.
Proof.
  intros Hn. unfold hex4. rewrite !hex_value_chr by (try apply N.mod_lt; try done; apply N.Div0.div_lt_upper_bound; lia). f_equal.
  pose proof (N.div_mod n 16). pose proof (N.div_mod (n / 16) 16). pose proof (N.div_mod (n / 256) 16).
  rewrite !N.Div0.div_div in *. change (16 * 16)%N with 256%N in *. change (256 * 16)%N with 4096%N in *. lia.
Qed.

Lemma scan_u16 n r : (n < 65536)%N -> is_high n = false -> scan_string (u16 n r) = ('(t, rest) ← scan_string r; Some (utf8 n t, rest)).
Proof. intros Hn Hh. apply scan_string_u; [by apply hex4_chr|done]. Qed.

(** A pair of surrogates is read as one code point. *)
Lemma scan_pair n m r : (n < 65536)%N -> (m < 65536)%N -> is_high n = true -> is_low m = true ->
  scan_string (u16 n (u16 m r)) = ('(t, rest) ← scan_string r; Some (utf8 (65536 + (n - 55296) * 1024 + (m - 56320)) t, rest)).
Proof.
  intros Hn Hm Hh Hl. unfold u16. cbn -[hex4 utf8 is_high is_low hex_chr N.div N.modulo]. rewrite (hex4_chr n Hn), Hh. cbn [andb]. change (Ascii.eqb backslash backslash) with true.
  change (Ascii.eqb "u" "u") with true. cbv iota. rewrite (hex4_chr m Hm), Hl. done.
Qed.

Lemma ascii_of_N_of a n : N_of_ascii a = n -> ascii_of_N n = a.
Proof. intros <-. apply ascii_N_embedding. Qed.

(** A code point's bytes, from its digits in base 64. *)
Lemma digits_2 x y : (y < 64)%N -> ((x * 64 + y) / 64 = x /\ (x * 64 + y) mod 64 = y)%N.
Proof. intros Hy. split; [by rewrite N.div_add_l, N.div_small, N.add_0_r|by rewrite N.add_comm, N.Div0.mod_add, N.mod_small]. Qed.

Lemma utf8_2 a b t : (194 <= N_of_ascii a < 224)%N -> cont b = true ->
  utf8 ((N_of_ascii a - 192) * 64 + (N_of_ascii b - 128)) t = String.String a (String.String b t).
Proof.
  intros Ha [Hb1%N.leb_le Hb2%N.ltb_lt]%andb_prop. unfold utf8. destruct (digits_2 (N_of_ascii a - 192) (N_of_ascii b - 128)) as [-> ->]; [lia|].
  destruct (N.ltb_spec ((N_of_ascii a - 192) * 64 + (N_of_ascii b - 128)) 128); [lia|].
  destruct (N.ltb_spec ((N_of_ascii a - 192) * 64 + (N_of_ascii b - 128)) 2048); [|lia].
  by rewrite (ascii_of_N_of a), (ascii_of_N_of b) by lia.
Qed.

Lemma utf8_3 a b c t (p := ((N_of_ascii a - 224) * 4096 + (N_of_ascii b - 128) * 64 + (N_of_ascii c - 128))%N) :
  (224 <= N_of_ascii a < 240)%N -> cont b = true -> cont c = true -> (2048 <= p)%N ->
  utf8 p t = String.String a (String.String b (String.String c t)).
Proof.
  intros Ha [Hb1%N.leb_le Hb2%N.ltb_lt]%andb_prop [Hc1%N.leb_le Hc2%N.ltb_lt]%andb_prop Hp. unfold utf8.
  destruct (N.ltb_spec p 128); [lia|]. destruct (N.ltb_spec p 2048); [lia|]. destruct (N.ltb_spec p 65536); [|unfold p in *; lia].
  assert (p = ((N_of_ascii a - 224) * 64 + (N_of_ascii b - 128)) * 64 + (N_of_ascii c - 128))%N as Ep by (unfold p; lia).
  destruct (digits_2 ((N_of_ascii a - 224) * 64 + (N_of_ascii b - 128)) (N_of_ascii c - 128)) as [E1 E2]; [lia|]. rewrite <- Ep in E1, E2.
  destruct (digits_2 (N_of_ascii a - 224) (N_of_ascii b - 128)) as [E3 E4]; [lia|].
  change 4096%N with (64 * 64)%N. rewrite <- N.Div0.div_div, E1, E2, E3, E4.
  by rewrite (ascii_of_N_of a), (ascii_of_N_of b), (ascii_of_N_of c) by lia.
Qed.

Lemma utf8_4 a b c d t (p := ((N_of_ascii a - 240) * 262144 + (N_of_ascii b - 128) * 4096 + (N_of_ascii c - 128) * 64 + (N_of_ascii d - 128))%N) :
  (240 <= N_of_ascii a)%N -> cont b = true -> cont c = true -> cont d = true -> (65536 <= p)%N ->
  utf8 p t = String.String a (String.String b (String.String c (String.String d t))).
Proof.
  intros Ha [Hb1%N.leb_le Hb2%N.ltb_lt]%andb_prop [Hc1%N.leb_le Hc2%N.ltb_lt]%andb_prop [Hd1%N.leb_le Hd2%N.ltb_lt]%andb_prop Hp. unfold utf8.
  destruct (N.ltb_spec p 128); [lia|]. destruct (N.ltb_spec p 2048); [lia|]. destruct (N.ltb_spec p 65536); [lia|].
  assert (p = (((N_of_ascii a - 240) * 64 + (N_of_ascii b - 128)) * 64 + (N_of_ascii c - 128)) * 64 + (N_of_ascii d - 128))%N as Ep by (unfold p; lia).
  destruct (digits_2 (((N_of_ascii a - 240) * 64 + (N_of_ascii b - 128)) * 64 + (N_of_ascii c - 128)) (N_of_ascii d - 128)) as [E1 E2]; [lia|].
  rewrite <- Ep in E1, E2. destruct (digits_2 ((N_of_ascii a - 240) * 64 + (N_of_ascii b - 128)) (N_of_ascii c - 128)) as [E3 E4]; [lia|].
  destruct (digits_2 (N_of_ascii a - 240) (N_of_ascii b - 128)) as [E5 E6]; [lia|].
  change 262144%N with (64 * 64 * 64)%N. change 4096%N with (64 * 64)%N. rewrite <- !N.Div0.div_div, E1, E2, E3, E4, E5, E6.
  by rewrite (ascii_of_N_of a), (ascii_of_N_of b), (ascii_of_N_of c), (ascii_of_N_of d) by lia.
Qed.

Lemma scan_wide p r : (65536 <= p < 1114112)%N -> scan_string (u_escape p r) = ('(t, rest) ← scan_string r; Some (utf8 p t, rest)).
Proof.
  intros Hp. unfold u_escape. destruct (N.ltb_spec p 65536); [lia|].
  pose proof (N.div_mod (p - 65536) 1024 ltac:(done)) as Hd. pose proof (N.mod_lt (p - 65536) 1024 ltac:(done)) as Hm.
  assert ((p - 65536) / 1024 < 1024)%N by (apply N.Div0.div_lt_upper_bound; lia).
  set (q := ((p - 65536) / 1024)%N) in *. set (m := ((p - 65536) mod 1024)%N) in *. clearbody q m.
  rewrite scan_pair; [|lia|lia| |].
  - replace (65536 + (55296 + q - 55296) * 1024 + (56320 + m - 56320))%N with p by lia. done.
  - unfold is_high. apply andb_true_intro. split; apply N.leb_le; lia.
  - unfold is_low. apply andb_true_intro. split; apply N.leb_le; lia.
Qed.

Lemma scan_narrow p r : (p < 65536)%N -> is_high p = false -> scan_string (u_escape p r) = ('(t, rest) ← scan_string r; Some (utf8 p t, rest)).
Proof. intros Hp Hh. unfold u_escape. destruct (N.ltb_spec p 65536); [|lia]. by apply scan_u16. Qed.

Lemma scan_quoted s : forall r, utf8_text s = true -> scan_string (ascii_escape_to s r) = Some (s, r).
Proof.
  induction s as [s IH] using (induction_ltof1 _ String.length). unfold ltof in IH. intros r Hs. destruct s as [|a s]; [done|].
  cbn [utf8_text ascii_escape_to] in *. pose proof (scan_ascii_chr a) as Hc. destruct (N.ltb_spec (N_of_ascii a) 128) as [Ha|Ha].
  { specialize (Hc (ascii_escape_to s r) eq_refl). rewrite (IH s) in Hc by (done || (cbn; lia)). destruct (N.eqb_spec (N_of_ascii a) 127); exact Hc. }
  destruct (N.eqb_spec (N_of_ascii a) 127) as [|_]; [lia|]. destruct (N.ltb_spec (N_of_ascii a) 224) as [Ha2|Ha2].
  { destruct s as [|b s]; [done|]. apply andb_prop in Hs as [[Hlo%N.leb_le Hb]%andb_prop Hs]. assert (Hcb := Hb). apply andb_prop in Hcb as [Hb1%N.leb_le Hb2%N.ltb_lt].
    rewrite scan_narrow, (IH s) by (done || (cbn; lia) || lia || (unfold is_high; apply andb_false_iff; left; apply N.leb_gt; lia)). cbn [mbind option_bind].
    by rewrite utf8_2. }
  destruct (N.ltb_spec (N_of_ascii a) 240) as [Ha3|Ha3].
  { destruct s as [|b [|c s]]; [done..|]. apply andb_prop in Hs as [[[[[Hb Hcc]%andb_prop Hlo%N.leb_le]%andb_prop Hh%negb_true_iff]%andb_prop Hl]%andb_prop Hs].
    assert (Hcb := Hb). apply andb_prop in Hcb as [Hb1%N.leb_le Hb2%N.ltb_lt]. assert (Hc2 := Hcc). apply andb_prop in Hc2 as [Hc1%N.leb_le Hc2%N.ltb_lt].
    rewrite scan_narrow, (IH s) by (done || (cbn; lia) || lia). cbn [mbind option_bind]. by rewrite utf8_3. }
  destruct s as [|b [|c [|d s]]]; [done..|]. apply andb_prop in Hs as [[[[[Hb Hcc]%andb_prop Hd]%andb_prop Hlo%N.leb_le]%andb_prop Hhi%N.ltb_lt]%andb_prop Hs].
  rewrite scan_wide, (IH s) by (done || (cbn; lia) || lia). cbn [mbind option_bind]. by rewrite utf8_4.
Qed.

(** ** Values *)

(** What a JSON column holds without loss: no floats, distinct keys. *)
Fixpoint storable (v : pyval) : bool :=
  match v with
  | VNone | VBool _ => true
  | VInt n => (length (digits (Z.abs n)) <=? max_int_digits)%nat
  | VStr s => utf8_text s
  | VDec _ | VFloat _ | VTime _ => false
  | VList l => forallb storable l
  | VDict kvs => bool_decide (NoDup kvs.*1) && forallb (fun kv => utf8_text kv.1 && storable kv.2) kvs
  end.

Definition jtext (v : pyval) : string := match json_dumps v with Ok s => s | Raise _ => EmptyString end.

Lemma res_seq_all {A B} (f : A -> res B) (g : A -> B) l : Forall (fun x => f x = Ok (g x)) l -> res_seq (map f l) = Ok (map g l).
Proof. induction 1 as [|x l Hx _ IH]; [done|]. cbn. by rewrite Hx, IH. Qed.

Lemma storable_list l : storable (VList l) = true -> Forall (fun x => storable x = true) l.
Proof. cbn. rewrite forallb_forall, Forall_forall. intros H x Hx. by apply H, list_elem_of_In. Qed.
Lemma storable_dict kvs : storable (VDict kvs) = true -> NoDup kvs.*1 /\ Forall (fun kv => utf8_text kv.1 = true /\ storable kv.2 = true) kvs.
Proof.
  cbn. rewrite andb_true_iff, bool_decide_eq_true, forallb_forall, Forall_forall. intros [Hnd H]. split; [done|].
  intros x Hx. by apply andb_prop, H, list_elem_of_In.
Qed.

Definition member_text (kv : string * pyval) : string := quoted kv.1 (": " +:+ jtext kv.2)%string.

Lemma dumps_jtext v : storable v = true -> json_dumps v = Ok (jtext v).
Proof.
  intros Hs. unfold jtext. assert (exists s, json_dumps v = Ok s) as [s ->]; [|done]. revert Hs.
  induction v as [v Hl Hd|l IH|kvs IH] using pyval_nested_ind; intros Hs.
  - destruct v; try done; try (by eexists). by destruct (Hl l). by destruct (Hd kvs).
  - apply storable_list in Hs. cbn [json_dumps]. rewrite (res_seq_all json_dumps jtext); [by eexists|].
    apply Forall_forall. intros x Hx. rewrite Forall_forall in IH, Hs. unfold jtext. by destruct (IH x Hx (Hs x Hx)) as [s ->].
  - apply storable_dict in Hs as [_ Hs]. cbn [json_dumps]. rewrite (res_seq_all _ member_text); [by eexists|].
    apply Forall_forall. intros x Hx. rewrite Forall_forall in IH, Hs. unfold member_text, jtext.
    by destruct (IH x Hx (proj2 (Hs x Hx))) as [s ->].
Qed.

(** The text of the rest of a list or mapping, and what follows it. *)
Fixpoint more_items (l : list pyval) (t : string) : string :=
  match l with [] => String.String "]" t | x :: l' => String.String "," (String.String " " (jtext x +:+ more_items l' t)) end%string.
Fixpoint more_members (kvs : list (string * pyval)) (t : string) : string :=
  match kvs with
  | [] => String.String "}" t
  | (k, x) :: kvs' => String.String "," (String.String " " (quoted k (": " +:+ jtext x +:+ more_members kvs' t)))
  end%string.

Lemma escape_app s t r : (ascii_escape_to s t +:+ r)%string = ascii_escape_to s (t +:+ r)%string.
Proof.
  revert t r. induction s as [s IH] using (induction_ltof1 _ String.length). unfold ltof in IH. intros t r. destruct s as [|a s]; [done|].
  assert (Hu : forall n x, (u16 n x +:+ r)%string = u16 n (x +:+ r)%string) by done.
  assert (Hw : forall n x, (u_escape n x +:+ r)%string = u_escape n (x +:+ r)%string) by (intros n x; unfold u_escape; by destruct (n <? 65536)%N).
  cbn [ascii_escape_to]. destruct (N_of_ascii a =? 127)%N; [rewrite Hu, IH by (cbn; lia); done|].
  destruct (N_of_ascii a <? 128)%N; [rewrite string_app_assoc, IH by (cbn; lia); done|].
  destruct (N_of_ascii a <? 224)%N; [destruct s as [|b s]; rewrite Hw, IH by (cbn; lia); done|].
  destruct (N_of_ascii a <? 240)%N; [destruct s as [|b [|c s]]; rewrite Hw, IH by (cbn; lia); done|].
  destruct s as [|b [|c [|d s]]]; rewrite Hw, IH by (cbn; lia); done.
Qed.

Lemma quoted_app k t r : (quoted k t +:+ r)%string = quoted k (t +:+ r)%string.
Proof. unfold quoted. by rewrite <- escape_app. Qed.

Lemma list_text x l t : storable (VList (x :: l)) = true -> (jtext (VList (x :: l)) +:+ t)%string = String.String "[" (jtext x +:+ more_items l t)%string.
Proof.
  intros Hs%storable_list. unfold jtext at 1. cbn [json_dumps]. rewrite (res_seq_all json_dumps jtext) by (eapply Forall_impl; [exact Hs|exact dumps_jtext]).
  cbn [rbind]. change (("[" +:+ join ", " (map jtext (x :: l)) +:+ "]") +:+ t)%string with (String.String "[" ((join ", " (map jtext (x :: l)) +:+ "]") +:+ t)%string).
  f_equal. rewrite string_app_assoc. clear Hs. revert x. induction l as [|y l IH]; intros x; cbn [map join more_items]; [done|].
  rewrite !string_app_assoc. f_equal. cbn [map] in IH. by rewrite <- IH.
Qed.

Lemma dict_text k x l t : storable (VDict ((k, x) :: l)) = true ->
  (jtext (VDict ((k, x) :: l)) +:+ t)%string = String.String "{" (quoted k (": " +:+ jtext x +:+ more_members l t)%string).
Proof.
  intros [_ Hs]%storable_dict. unfold jtext at 1. cbn [json_dumps]. rewrite (res_seq_all _ member_text).
  2: { eapply Forall_impl; [exact Hs|]. intros kv [_ Hv]. cbn. by rewrite dumps_jtext. }
  cbn [rbind]. change (("{" +:+ join ", " (map member_text ((k, x) :: l)) +:+ "}") +:+ t)%string with (String.String "{" ((join ", " (map member_text ((k, x) :: l)) +:+ "}") +:+ t)%string).
  f_equal. rewrite string_app_assoc. clear Hs. revert k x. induction l as [|[k' y] l IH]; intros k x; cbn [map join more_members]; unfold member_text at 1; cbn [fst snd].
  - by rewrite quoted_app, string_app_assoc.
  - rewrite !quoted_app, !string_app_assoc. cbn [map] in IH. rewrite <- IH. do 3 f_equal.
Qed.

(** ** Reading back *)

Section Reading.
Variable fr : string -> string.

(** The reader finds a value before what may follow one. *)
Definition reads (v : pyval) : Prop := forall fuel t, storable v = true -> follow t -> (2 * String.length (jtext v) <= fuel)%nat ->
  scan fr fuel (jtext v +:+ t)%string = Ok (v, t).

Lemma jtext_head v : storable v = true -> exists c s, jtext v = String.String c s /\ is_json_space c = false /\ Ascii.eqb c "]" = false /\ Ascii.eqb c "}" = false.
Proof.
  intros Hs. destruct v as [|[]|n|s| | | |[|x l]|[|[k x] l]]; try done; try (by do 2 eexists).
  - unfold jtext. cbn [json_dumps]. unfold int_str. destruct (n <? 0) eqn:E; [by do 2 eexists|]. apply Z.ltb_ge in E.
    destruct (digits_str_head n EmptyString E) as (c & s & Hc & Hd). rewrite string_app_nil_r in Hc. rewrite Hc. exists c, s. split; [done|].
    clear -Hd. by destruct c as [[] [] [] [] [] [] [] []].
  - pose proof (list_text x l EmptyString Hs) as Ht. rewrite string_app_nil_r in Ht. rewrite Ht. by do 2 eexists.
  - pose proof (dict_text k x l EmptyString Hs) as Ht. rewrite string_app_nil_r in Ht. rewrite Ht. by do 2 eexists.
Qed.

Lemma skip_jtext v t : storable v = true -> skip (jtext v +:+ t)%string = (jtext v +:+ t)%string.
Proof. intros Hs. destruct (jtext_head v Hs) as (c & s & -> & Hc & _). change ((String.String c s +:+ t)%string) with (String.String c (s +:+ t)%string). cbn [skip]. by rewrite Hc. Qed.

Lemma jtext_pos v : storable v = true -> (1 <= String.length (jtext v))%nat.
Proof. intros Hs. destruct (jtext_head v Hs) as (c & s & -> & _). cbn. lia. Qed.

Lemma more_items_longer l t : (String.length t < String.length (more_items l t))%nat.
Proof. induction l as [|z l IH]; cbn [more_items String.length]; [lia|]. rewrite slen_app. lia. Qed.
Lemma quoted_longer k t : (String.length t < String.length (quoted k t))%nat.
Proof. pose proof (f_equal String.length (quoted_app k EmptyString t)) as H. rewrite slen_app in H. change (EmptyString +:+ t)%string with t in H. rewrite <- H. cbn. lia. Qed.
Lemma more_members_longer l t : (String.length t < String.length (more_members l t))%nat.
Proof.
  induction l as [|[k x] l IH]; cbn [more_members String.length]; [lia|].
  match goal with |- context [quoted k ?r] => pose proof (quoted_longer k r) as H end. rewrite !slen_app in H. lia.
Qed.

Lemma more_items_tail l t : String.length (more_items l t) = (String.length (more_items l EmptyString) + String.length t)%nat.
Proof. induction l as [|z l IH]; cbn [more_items String.length]; [done|]. rewrite !slen_app, IH. lia. Qed.
Lemma quoted_tail k r t : String.length (quoted k (r +:+ t)%string) = (String.length (quoted k r) + String.length t)%nat.
Proof. by rewrite <- quoted_app, slen_app. Qed.
Lemma more_members_app l t : more_members l t = (more_members l EmptyString +:+ t)%string.
Proof.
  induction l as [|[k x] l IH]; [done|]. cbn [more_members]. rewrite IH.
  change ((String.String "," (String.String " " (quoted k (": " +:+ jtext x +:+ more_members l EmptyString))) +:+ t)%string)
    with (String.String "," (String.String " " (quoted k (": " +:+ jtext x +:+ more_members l EmptyString) +:+ t)))%string.
  by rewrite quoted_app, !string_app_assoc.
Qed.
Lemma more_members_tail k x l t : String.length (quoted k (": " +:+ jtext x +:+ more_members l t)) =
  (String.length (quoted k (": " +:+ jtext x +:+ more_members l EmptyString)) + String.length t)%nat.
Proof. rewrite more_members_app, <- quoted_tail, !string_app_assoc. done. Qed.

Lemma scan_items_reads l x acc t fuel : Forall reads (x :: l) -> storable (VList (x :: l)) = true -> follow t ->
  (2 * (String.length (jtext x +:+ more_items l t) - String.length t) <= fuel)%nat ->
  scan_items fr fuel acc (jtext x +:+ more_items l t)%string = Ok (VList (acc ++ x :: l), t).
Proof.
  revert x acc fuel. induction l as [|y l IH]; intros x acc fuel [Hx Hl]%Forall_cons Hs Ht Hf; pose proof Hs as [Sx Sl]%storable_list%Forall_cons;
    pose proof (jtext_pos x Sx); rewrite slen_app in Hf; cbn [more_items String.length] in *.
  - destruct fuel as [|f]; [lia|]. cbn [scan_items]. rewrite (Hx f (String.String "]" t)) by (done || (by right; left) || lia). done.
  - rewrite slen_app in Hf. pose proof (more_items_longer l t). destruct fuel as [|f]; [lia|]. cbn [scan_items].
    rewrite (Hx f) by (done || (by left) || lia). cbn [rbind fst snd skip]. change (is_json_space ",") with false. change (Ascii.eqb "," "]") with false.
    change (Ascii.eqb "," ",") with true. cbv iota. cbn [skip]. change (is_json_space " ") with true. cbv iota.
    pose proof Sl as [Sy _]%Forall_cons. rewrite skip_jtext by done.
    rewrite IH; [by rewrite <- app_assoc|done| |done|rewrite slen_app; lia].
    cbn in Hs |- *. by apply andb_prop in Hs as [_ Hs].
Qed.

Lemma scan_member f k x acc tail : reads x -> utf8_text k = true -> storable x = true -> k ∉ acc.*1 ->
  (2 * String.length (jtext x) <= f)%nat -> follow tail ->
  scan_members fr (S f) acc (quoted k (": " +:+ jtext x +:+ tail)%string) =
  match skip tail with
  | String.String e r3 =>
      if Ascii.eqb e "}" then Ok (VDict (acc ++ [(k, x)]), r3)
      else if Ascii.eqb e "," then scan_members fr f (acc ++ [(k, x)]) (skip r3) else decode_error
  | EmptyString => decode_error
  end.
Proof.
  intros Hx Hk Sx Hfresh Hlen Hfo. unfold quoted. cbn [scan_members]. change (Ascii.eqb quote quote) with true. cbv iota. rewrite scan_quoted by done.
  change ((": " +:+ jtext x +:+ tail)%string) with (String.String ":" (String.String " " (jtext x +:+ tail))). cbn [skip].
  change (is_json_space ":") with false. cbv iota. change (Ascii.eqb ":" ":") with true. cbv iota. cbn [skip].
  change (is_json_space " ") with true. cbv iota. rewrite skip_jtext, (Hx f tail) by done. cbn [rbind fst snd]. by rewrite dict_set_fresh.
Qed.

Lemma scan_members_reads l k x acc t fuel : Forall (fun kv => reads kv.2) ((k, x) :: l) -> storable (VDict ((k, x) :: l)) = true ->
  NoDup (acc.*1 ++ k :: l.*1) -> follow t ->
  (2 * (String.length (quoted k (": " +:+ jtext x +:+ more_members l t)) - String.length t) <= fuel)%nat ->
  scan_members fr fuel acc (quoted k (": " +:+ jtext x +:+ more_members l t)%string) = Ok (VDict (acc ++ (k, x) :: l), t).
Proof.
  revert k x acc fuel. induction l as [|[k' y] l IH]; intros k x acc fuel [Hx Hl]%Forall_cons Hs Hnd Ht Hf; pose proof Hs as [_ [[Sk Sx] Sl]%Forall_cons]%storable_dict;
    match type of Hf with context [quoted k ?r] => pose proof (quoted_longer k r) as Hk end; rewrite !slen_app in Hk;
    match type of Hk with context [more_members ?r t] => pose proof (more_members_longer r t) as Hlen end;
    (assert (k ∉ acc.*1) by (apply NoDup_app in Hnd as (_ & Hnd & _); intros Hin; by apply (Hnd k Hin), list_elem_of_here));
    (destruct fuel as [|f]; [lia|]); cbn [fst snd] in *.
  - rewrite scan_member by (done || (by right; right) || lia). done.
  - rewrite scan_member by (done || (by left) || lia). cbn [more_members skip]. change (is_json_space ",") with false. change (Ascii.eqb "," "}") with false.
    change (Ascii.eqb "," ",") with true. cbv iota. cbn [skip]. change (is_json_space " ") with true. cbv iota.
    change (skip (quoted k' (": " +:+ jtext y +:+ more_members l t))) with (quoted k' (": " +:+ jtext y +:+ more_members l t))%string.
    cbn [more_members String.length] in Hk, Hf. rewrite IH; [by rewrite <- app_assoc|done| | |done|lia].
    + cbn in Hs |- *. apply andb_prop in Hs as [Hd Hs]. apply andb_prop in Hs as [_ Hs]. rewrite Hs, andb_true_r.
      apply bool_decide_eq_true in Hd. apply bool_decide_eq_true. by apply NoDup_cons in Hd as [_ Hd].
    + rewrite fmap_app. cbn [fmap list_fmap fst]. by rewrite <- app_assoc.
Qed.

Lemma reads_all v : reads v.
Proof.
  induction v as [v Hnl Hnd|l IH|kvs IH] using pyval_nested_ind; intros fuel t Hs Ht Hf; pose proof (jtext_pos _ Hs) as Hpos;
    (destruct fuel as [|f]; [lia|]).
  - destruct v as [|b|n|s| | | |l|kvs]; try done; [by destruct b| | |by destruct (Hnl l)|by destruct (Hnd kvs)].
    + apply (scan_found fr (JInt n)); [done|by apply Nat.leb_le|done|]. cbn [print_to]. rewrite slen_app. unfold jtext in Hf. cbn [json_dumps] in Hf. lia.
    + unfold jtext. cbn [json_dumps]. rewrite quoted_app. unfold quoted. cbn [scan].
      change (Ascii.eqb quote quote) with true. cbv iota. by rewrite scan_quoted.
  - destruct l as [|x l]; [done|]. pose proof (list_text x l EmptyString Hs) as Hlen. apply (f_equal String.length) in Hlen.
    rewrite slen_app in Hlen. cbn [String.length] in Hlen. rewrite list_text by done. cbn [scan]. change (Ascii.eqb "[" quote) with false. change (Ascii.eqb "[" "[") with true. cbv iota.
    pose proof Hs as [Sx _]%storable_list%Forall_cons. rewrite skip_jtext by done. destruct (jtext_head x Sx) as (c & s & Hc & _ & Hb & _).
    rewrite Hc at 1. change ((String.String c s +:+ more_items l t)%string) with (String.String c (s +:+ more_items l t)%string). cbv iota. rewrite Hb.
    apply (scan_items_reads l x []); [done..|]. rewrite slen_app in *. pose proof (more_items_tail l t). lia.
  - destruct kvs as [|[k x] l]; [done|]. pose proof (dict_text k x l EmptyString Hs) as Hlen. apply (f_equal String.length) in Hlen.
    rewrite slen_app in Hlen. cbn [String.length] in Hlen. rewrite dict_text by done. cbn [scan]. change (Ascii.eqb "{" quote) with false. change (Ascii.eqb "{" "[") with false.
    change (Ascii.eqb "{" "{") with true. cbv iota. set (text := quoted k _). change (skip text) with text. unfold text, quoted at 1. change (Ascii.eqb quote "}") with false. cbv iota.
    apply (scan_members_reads l k x []); [done|done|by apply storable_dict in Hs as [? _]|done|].
    pose proof (more_members_tail k x l t). lia.
Qed.
End Reading.

(** Reading a JSON column gives back the value it was written from. *)
Lemma loads_jtext fr v : storable v = true -> loads fr (jtext v) = Ok v.
Proof.
  intros Hs. pose proof (reads_all fr v (loads_fuel (jtext v)) EmptyString Hs I) as Hr.
  pose proof (skip_jtext v EmptyString Hs) as Hk. rewrite string_app_nil_r in *. unfold loads. rewrite Hk, Hr; [done|]. unfold loads_fuel. lia.
Qed.

(** ** What is storable *)

Lemma storable_item v k x : storable v = true -> py_item v k = Ok x -> storable x = true.
Proof.
  intros Hs. destruct v; try done. apply storable_dict in Hs as [_ Hs]. cbn. destruct (assoc k kvs) as [y|] eqn:E; [|done]. intros [= <-].
  induction kvs as [|[k' z] kvs IH]; [done|]. apply Forall_cons in Hs as [[_ Hz] Hs]. cbn in E. destruct (String.eqb k k'); [by injection E as <-|by apply IH].
Qed.

Lemma storable_members kvs : bool_decide (NoDup kvs.*1) = true -> Forall (fun kv => utf8_text kv.1 = true /\ storable kv.2 = true) kvs -> storable (VDict kvs) = true.
Proof.
  intros Hnd Hs. cbn. rewrite Hnd. cbn [andb]. apply forallb_forall. intros x Hx. rewrite Forall_forall in Hs.
  apply andb_true_intro, Hs, list_elem_of_In, Hx.
Qed.

Lemma utf8_app a b : utf8_text a = true -> utf8_text (a +:+ b)%string = utf8_text b.
Proof.
  revert b. induction a as [a IH] using (induction_ltof1 _ String.length). unfold ltof in IH. intros b Ha. destruct a as [|x a]; [done|].
  change ((String.String x a +:+ b)%string) with (String.String x (a +:+ b)%string). cbn [utf8_text] in *.
  destruct (N_of_ascii x <? 128)%N; [apply IH; [cbn; lia|done]|].
  destruct (N_of_ascii x <? 224)%N.
  { destruct a as [|y a]; [done|]. change ((String.String y a +:+ b)%string) with (String.String y (a +:+ b)%string). cbv iota. apply andb_prop in Ha as [-> Ha].
    rewrite (IH a) by (done || (cbn; lia)). done. }
  destruct (N_of_ascii x <? 240)%N.
  { destruct a as [|y [|z a]]; [done..|]. change ((String.String y (String.String z a) +:+ b)%string) with (String.String y (String.String z (a +:+ b)))%string.
    cbv iota. apply andb_prop in Ha as [-> Ha]. rewrite (IH a) by (done || (cbn; lia)). done. }
  destruct a as [|y [|z [|u a]]]; [done..|].
  change ((String.String y (String.String z (String.String u a)) +:+ b)%string) with (String.String y (String.String z (String.String u (a +:+ b))))%string.
  cbv iota. apply andb_prop in Ha as [-> Ha]. rewrite (IH a) by (done || (cbn; lia)). done.
Qed.

Lemma utf8_ascii s : ascii_only s = true -> utf8_text s = true.
Proof. unfold ascii_only. induction s as [|a s IH]; [done|]. cbn. intros [-> Hs]%andb_prop. by apply IH. Qed.

Lemma utf8_cents c : 0 <= c -> utf8_text (cents_text c) = true.
Proof.
  intros Hc. apply utf8_ascii. pose proof (cents_text_plain c Hc) as Hp. unfold ascii_only. revert Hp. generalize (cents_text c).
  intros s. induction s as [|a s IH]; [done|]. cbn. intros [Ha Hs]%andb_prop. rewrite IH by done. rewrite andb_true_r.
  clear -Ha. by destruct a as [[] [] [] [] [] [] [] []].
Qed.

Lemma digits_fuel_length f n : (length (digits_fuel f n) <= f)%nat.
Proof. revert n. induction f as [|f IH]; intros n; cbn; [lia|]. destruct (n <? 10); cbn; [lia|]. rewrite length_app. specialize (IH (n / 10)). cbn. lia. Qed.

(** Integers of any practical size. *)
Definition moderate (n : Z) : Prop := Z.abs n < 2 ^ 100.
Lemma storable_int n : moderate n -> storable (VInt n) = true.
Proof.
  intros Hn. change ((length (digits (Z.abs n)) <=? max_int_digits)%nat = true). apply Nat.leb_le. unfold digits.
  etransitivity; [apply digits_fuel_length|]. unfold moderate, max_int_digits in *.
  destruct (decide (Z.abs n = 0)) as [->|Hne]; [cbn; lia|]. assert (Z.log2 (Z.abs n) < 100) by (apply Z.log2_lt_pow2; lia). lia.
Qed.

Lemma digit_ascii n : ascii_only (String.String (digit_chr (Z.to_N (n mod 10))) EmptyString) = true.
Proof.
  pose proof (Z.mod_pos_bound n 10 ltac:(done)) as Hb. assert (forallb (fun k => ascii_only (String.String (digit_chr (N.of_nat k)) EmptyString)) (seq 0 10) = true) as Hall by reflexivity.
  rewrite forallb_forall in Hall. specialize (Hall (Z.to_nat (n mod 10))). rewrite in_seq in Hall. specialize (Hall ltac:(lia)).
  by replace (N.of_nat (Z.to_nat (n mod 10))) with (Z.to_N (n mod 10)) in Hall by lia.
Qed.

Lemma utf8_pad k n : utf8_text (pad k n) = true.
Proof.
  apply utf8_ascii. induction k as [|k IH]; [done|]. cbn [pad]. pose proof (digit_ascii (n / 10 ^ Z.of_nat k)) as Hd. unfold ascii_only in *.
  cbn [str_forallb] in *. rewrite andb_true_r in Hd. by rewrite Hd, IH.
Qed.

Lemma utf8_isoformat us : utf8_text (isoformat us) = true.
Proof.
  unfold isoformat. destruct (ord2ymd _) as [[y mo] dd]. rewrite !utf8_app by (apply utf8_pad || done).
  destruct (Z.eqb _ 0); [done|]. by rewrite !utf8_app by (apply utf8_pad || done).
Qed.

Lemma storable_decodable v : storable v = true -> decodable v.
Proof.
  induction v as [v Hl Hd|l IH|kvs IH] using pyval_nested_ind; intros Hs.
  - destruct v; try done; [by apply Nat.leb_le|by destruct (Hl l)|by destruct (Hd kvs)].
  - apply storable_list in Hs. cbn. induction l as [|x l IHl]; [done|]. apply Forall_cons in IH as [Hx IH]. apply Forall_cons in Hs as [Sx Hs]. split; [by apply Hx|by apply IHl].
  - apply storable_dict in Hs as [Hnd Hs]. split; [done|]. clear Hnd. induction kvs as [|[k x] kvs IHl]; [done|]. apply Forall_cons in IH as [Hx IH].
    apply Forall_cons in Hs as [[_ Sx] Hs]. split; [by apply Hx|by apply IHl].
Qed.

(** Sorting keys changes no item. *)
Lemma sorted_item kvs k : NoDup kvs.*1 -> py_item (sort_value (VDict kvs)) k = (let? v := py_item (VDict kvs) k in Ok (sort_value v)).
Proof.
  intros Hnd. cbn [sort_value py_item]. rewrite (assoc_perm k _ (map (fun kv => (kv.1, sort_value kv.2)) kvs)).
  - clear Hnd. induction kvs as [|[k' x] kvs IH]; [done|]. cbn [map assoc fst snd]. by destruct (String.eqb k k').
  - rewrite sort_keys_perm, <- list_fmap_compose. exact Hnd.
  - apply sort_keys_perm.
Qed.
