(* ===== verification/AgentSaga.v ===== *)
(** The purchase saga and the amounts on the mandates: what a purchase run to its
    end has recorded, whatever the merchant answers and wherever an exception
    stops it. *)
From S2P Require Import Prelude PyTime Decimal Json JsonLogic JsonParse Models Canonical Jose RappiClient Prog AgentRules AgentGate AgentBudget AgentBudgetFacts AgentSpending AgentAudit AgentJws AgentWorld AgentMandate AgentMerchant AgentKernel AgentEscalation AgentBooks AgentFrame.

(** ** What leaves the amounts alone *)

(** A price that is an amount in cents: of every offer, of every purchase. *)
Definition cents_price (price : pyval) : Prop := exists c, small c /\ fmt price = Ok (cents_text c).
Definition offers_priced (w : world) : Prop := map_Forall (fun _ o => cents_price (VStr (of_amount o))) (w_offers w).
Definition payable (w : world) : Prop := map_Forall (fun _ p => cents_price (VStr (pu_amount p))) (w_purchases w).
Definition stock (w : world) : Prop := offers_priced w /\ payable w.

Definition undisturbed (w w' : world) : Prop :=
  same_books (mandates (w_db w)) (mandates (w_db w')) /\ (stock w -> stock w') /\ clock_us (w_db w') = clock_us (w_db w).

#[export] Instance undisturbed_preorder : PreOrder undisturbed.
Proof.
  split; [by intros w|]. intros w1 w2 w3 (H12 & P12 & C12) (H23 & P23 & C23). split; [by etransitivity|]. split; [auto|congruence].
Qed.

Definition money_view (w : world) : db * gmap string offer_row * gmap string purchase_row := (w_db w, w_offers w, w_purchases w).
Lemma money_neutral : neutral money_view.
Proof. by split. Qed.
Lemma money_frame w w' : money_view w' = money_view w -> undisturbed w w'.
Proof. unfold money_view, undisturbed, stock, offers_priced, payable. intros [= -> -> ->]. done. Qed.

(** A purchase row keeps its amount; a new one is for an amount in cents. *)
Lemma quiet_purchase_row key guard f : (forall w row, pu_amount (f w row) = pu_amount row) ->
  does undisturbed (atomic (update_at w_purchases set_purchases key guard f)).
Proof.
  intros Hf. apply does_atomic. intros w. unfold update_at. destruct (w_purchases w !! key) as [row|] eqn:E; [|done]. destruct (guard row); [|done].
  split; [done|]. split; [|done]. intros [Hp Hb]. split; [done|]. unfold payable. cbn. apply map_Forall_insert_2; [|done]. rewrite Hf. by apply (Hb key).
Qed.
Lemma quiet_new_purchase key row : (forall w, cents_price (VStr (pu_amount (row w)))) -> does undisturbed (atomic (insert_new w_purchases set_purchases key row)).
Proof.
  intros Hr. apply does_atomic. intros w. unfold insert_new. destruct (w_purchases w !! key); [done|]. split; [done|]. split; [|done]. intros [Hp Hb]. split; [done|].
  by apply map_Forall_insert_2.
Qed.

Lemma quiet_reads {A} (p : prog db A) : does (fun d d' => d' = d) p -> does undisturbed (on_db p).
Proof. intros Hp. apply (does_pzoom _ _ _ _ (fun d d' => d' = d)); [done|]. intros w d ->. by apply money_frame. Qed.

Lemma quiet_select jti : does undisturbed (on_db (atomic (select_mandate jti))).
Proof. apply quiet_reads. by split. Qed.

Lemma chain_reads fuel jti : does (fun d d' => d' = d) (chain fuel jti).
Proof.
  unfold chain. generalize (Some jti) ([] : list string). induction fuel as [|fuel IH]; intros current seen; cbn [chain_from]; [done|].
  destruct (or_str current None); [|done]. destruct (bool_decide _); [done|]. apply does_bind; [by split|]. intros row. apply IH.
Qed.

Lemma quiet_chain fuel jti : does undisturbed (on_db (chain fuel jti)).
Proof. apply quiet_reads, chain_reads. Qed.

Lemma quiet_rewrite jti guard f : (forall now row, amounts (f now row) = amounts row) -> does undisturbed (on_db (atomic (update_mandate jti guard f))).
Proof.
  intros Hf. apply (does_pzoom _ _ _ _ (fun d d' => same_books (mandates d) (mandates d') /\ clock_us d' = clock_us d)).
  - apply does_atomic. intros d. unfold update_mandate. destruct (mandates d !! jti) as [row|] eqn:E; [|done]. destruct (guard row); [|done].
    split; [by eapply same_books_insert|done].
  - intros w d [Hs Hc]. by split.
Qed.

Lemma quiet_keep token_ref mandate_jti : does undisturbed (atomic (keep_instrument token_ref mandate_jti)).
Proof. apply does_atomic. intros w. apply money_frame. unfold keep_instrument. cbn. by destruct (w_instruments w !! token_ref). Qed.

Ltac money_step := idtac;
  match goal with
  | |- does _ (on_db (atomic (select_mandate _))) => apply quiet_select
  | |- does _ (on_db (chain _ _)) => apply quiet_chain
  | |- does _ (on_db (atomic (update_mandate _ _ _))) => apply quiet_rewrite; intros; reflexivity
  | |- does _ (atomic (set_purchase _ _ _)) => apply quiet_purchase_row; intros; reflexivity
  | |- does _ (atomic (update_at w_purchases _ _ _ _)) => apply quiet_purchase_row; intros; reflexivity
  | |- does _ (atomic (keep_instrument _ _)) => apply quiet_keep
  | |- does _ (atomic (update_at w_instruments _ _ _ _)) => apply frame_update with (1 := money_frame); intros; reflexivity
  | |- does _ (atomic (insert_new w_idempotency _ _ _)) => apply frame_insert with (1 := money_frame); intros; reflexivity
  end.
Ltac money := frame money_neutral money_frame money_step.

(** ** Merchant ports *)

(** What the kernel needs of a merchant: it touches no mandate, it sells at
    prices in cents. *)
Class HonestPort (port : merchant_port) : Prop := {
  get_quiet : forall offer_id, does undisturbed (port_get port offer_id);
  get_priced : forall offer_id w offer, offers_priced w -> (run_prog (port_get port offer_id) w).1 = Ok (Some offer) ->
    exists price, py_item offer "price" = Ok price /\ cents_price price;
  settle_quiet : forall s, does undisturbed (st_verify_fn s) ->
    (forall mint amount cart_hash, st_capture s = Some mint -> does undisturbed (mint amount cart_hash)) -> does undisturbed (port_settle port s);
}.

Lemma fmt_fixed c : small c -> fmt (VStr (cents_text c)) = Ok (cents_text c).
Proof. intros Hc. by apply fmt_of_cents_text, small_coef. Qed.

Section LocalPort.
Context `{Ed25519}.
Variables (uuid : nat -> string) (scrub_text float_repr : string -> string) (str_exn : exn -> string).

Lemma quiet_capture ref amount currency request : does undisturbed (capture uuid float_repr ref amount currency request).
Proof. unfold capture. money. Qed.

Lemma quiet_checkout token intent sig verify_fn : does undisturbed verify_fn -> does undisturbed (checkout_charge uuid scrub_text float_repr str_exn token intent sig verify_fn).
Proof. intros Hv. unfold checkout_charge, get_offer. money. all: try apply quiet_capture; try done. all: money. Qed.

#[export] Instance local_honest : HonestPort (LocalMerchant uuid scrub_text float_repr str_exn).
Proof.
  split.
  - intros offer_id. cbn [port_get LocalMerchant]. unfold local_get, get_offer. money.
  - intros offer_id w offer Hp. cbn. destruct (w_offers w !! offer_id) as [row|] eqn:E; cbn; [|done]. destruct (of_active row); cbn; [|done].
    destruct (Hp _ _ E) as (c & Hc & Hf). rewrite Hf. cbn. destruct (of_description row); cbn; intros [= <-]; cbn.
    all: eexists; split; [reflexivity|]; exists c; split; [done|by apply fmt_fixed].
  - intros s Hv _. cbn [port_settle LocalMerchant]. unfold local_settle. apply does_catch; [by apply quiet_checkout|]. intros []; done.
Qed.
End LocalPort.

(** What every registered merchant is. *)
Lemma registered_all (P : merchant_port -> Prop) registry key port : Forall (fun kp => P kp.2) registry -> registered registry key = Ok port -> P port.
Proof.
  rewrite Forall_forall. intros HP. destruct key; cbn; try done.
  - destruct registry as [|[k p] l] eqn:E; [done|]. intros [= <-]. apply (HP (k, p)). by left.
  - destruct (assoc s registry) as [p|] eqn:E; [|done]. intros [= <-]. assert (exists k, (k, p) ∈ registry) as [k Hk]; [|by apply (HP (k, p))].
    clear -E. induction registry as [|[k q] l IH]; [done|]. cbn in E. destruct (String.eqb s k); [injection E as ->; exists k; by left|].
    destruct (IH E) as [k' Hk]. exists k'. by right.
Qed.
Lemma merchant_all (P : merchant_port -> Prop) registry v port : Forall (fun kp => P kp.2) registry -> merchant_for registry v = Ok port -> P port.
Proof.
  intros HP. unfold merchant_for. destruct v; try by apply registered_all. destruct (py_item _ _); [by apply registered_all|done].
Qed.

(** ** The kernel *)

Section Saga.
Context `{Ed25519} `{JwsLibrary}.
Variables (uuid : nat -> string) (scrub_text float_repr : string -> string) (str_exn : exn -> string) (fuel : nat).
Variable registry : list (string * merchant_port).
Variables (token_key : Key) (token_kid : string) (capture_dry_run : bool).
Hypothesis honest : Forall (fun kp => HonestPort kp.2) registry.

Lemma merchant_honest v port : merchant_for registry v = Ok port -> HonestPort port.
Proof using honest. by apply (merchant_all HonestPort). Qed.

Lemma quiet_refuse_with mandate_jti code detail : does undisturbed (_refuse uuid scrub_text mandate_jti code detail).
Proof using Type. unfold _refuse. money. Qed.
Lemma quiet_refuse {A} mandate_jti code detail : does undisturbed (refuse (A := A) uuid scrub_text mandate_jti code detail).
Proof using Type. unfold refuse. money. apply quiet_refuse_with. Qed.

Ltac kernel_step := first [ money_step | match goal with
  | |- does _ (refuse _ _ _ _ _) => apply quiet_refuse
  | |- does _ (_refuse _ _ _ _ _) => apply quiet_refuse_with
  end ].
Ltac kernel := frame money_neutral money_frame kernel_step.

Lemma quiet_agent token intent sig : does undisturbed (check_agent uuid scrub_text float_repr str_exn token intent sig).
Proof using Type. unfold check_agent. kernel. Qed.

Lemma quiet_dead l : does undisturbed (dead_ancestor l).
Proof using Type. induction l as [|j l IH]; cbn [dead_ancestor]; kernel; exact IH. Qed.

Lemma quiet_mandate claims jti now : does undisturbed (check_mandate uuid scrub_text fuel claims jti now).
Proof using Type. unfold check_mandate. kernel; try apply quiet_dead. Qed.

Lemma quiet_live intent jti : does undisturbed (live_offer uuid scrub_text registry intent jti).
Proof using honest.
  unfold live_offer. apply does_catch.
  - destruct (let? m := py_item intent "merchant_id" in merchant_for registry m) as [port|] eqn:E; [|exact I]. cbn [plift pbind].
    destruct (py_item intent "merchant_id") as [m|]; [|done]. cbn in E. destruct (merchant_honest _ _ E) as [Hget _ _].
    kernel. apply Hget.
  - intros []; try exact I. kernel.
Qed.

Lemma quiet_purchase claims intent jti row now : does undisturbed (check_purchase uuid scrub_text registry claims intent jti row now).
Proof using honest. unfold check_purchase. kernel. apply quiet_live. Qed.

(** A check that goes no further refuses; [P] of one that goes on. *)
Definition goes_on {A} (P : A -> Prop) (x : verdict + A) : Prop := match x with inl v => v_decision v = AgentRejected | inr a => P a end.

Lemma refused_yields mandate_jti code detail : yields (fun v => v_decision v = AgentRejected) (_refuse uuid scrub_text mandate_jti code detail).
Proof using Type. unfold _refuse. apply yields_bind. by intros a. Qed.

Lemma refuse_yields {A} (P : A -> Prop) mandate_jti code detail : yields (goes_on P) (refuse uuid scrub_text mandate_jti code detail).
Proof using Type. unfold refuse. eapply yields_then; [apply refused_yields|]. by intros v Hv. Qed.

Ltac walk := repeat match goal with
  | |- yields _ (pbind (plift _) _) => apply yields_plift; intros ? ?
  | |- yields _ (pbind _ _) => apply yields_bind; intros ?
  | |- yields _ (refuse _ _ _ _ _) => apply refuse_yields
  | |- yields _ (match ?x with _ => _ end) => destruct x eqn:?
  | |- yields _ (praise _) => exact I
  end.

Lemma agent_yields token intent sig : yields (goes_on (fun cjn => py_get intent "mandate_jti" = Ok (VStr cjn.1.2)))
  (check_agent uuid scrub_text float_repr str_exn token intent sig).
Proof using Type.
  unfold check_agent. walk. cbn. match goal with H : py_get intent "mandate_jti" = Ok ?v, E : negb (py_eq ?v _) = false |- _ =>
    rewrite H; apply negb_false_iff in E; destruct v; try done; cbn in E; apply String.eqb_eq in E as -> end. done.
Qed.

Lemma mandate_yields claims jti now : yields (goes_on (fun _ => True)) (check_mandate uuid scrub_text fuel claims jti now).
Proof using Type. unfold check_mandate. walk. done. Qed.

Lemma purchase_yields claims intent jti row now : yields (goes_on (fun _ => True)) (check_purchase uuid scrub_text registry claims intent jti row now).
Proof using Type.
  unfold check_purchase. apply (yields_then (goes_on (fun _ => True))).
  - unfold live_offer. apply yields_catch; [walk; done|]. intros []; try exact I. walk.
  - intros [v|[offer|]] Hv; [exact Hv| |]; walk. done.
Qed.
End Saga.
