(* ===== verification/AgentLane.v ===== *)
(** The programs of the agent lane among each other: what an invariant of the
    database must satisfy statement by statement ([LaneInvariant]), and the walk of
    every program that gives it to every schedule of them.  AgentRevocation.v and
    AgentTypes.v are its uses. *)
From S2P Require Import Prelude PyTime Decimal Json JsonLogic JsonParse Models Canonical Jose RappiClient Prog AgentRules AgentBudget AgentAudit AgentJws AgentWorld AgentMandate AgentMerchant AgentKernel AgentEscalation AgentFrame AgentSaga.

(** The tables are as they were: events, identifiers, counters and offers aside. *)
Record same_tables (w w' : world) : Prop := {
  st_db : w_db w' = w_db w;
  st_intents : w_intents w' = w_intents w;
  st_purchases : w_purchases w' = w_purchases w;
  st_escalations : w_escalations w' = w_escalations w;
  st_instruments : w_instruments w' = w_instruments w;
  st_idempotency : w_idempotency w' = w_idempotency w;
}.

(** Run among statements that keep [G], from where [P] holds, a program keeps [G]
    with every statement. *)
Definition keeps (G : world -> world -> Prop) (P : world -> Prop) {A} (p : prog world A) : Prop := triple G G P p (fun _ => P).

Section Lane.
Context `{Ed25519} `{JwsLibrary}.
Variables (uuid : nat -> string) (scrub_text float_repr : string -> string) (str_exn : exn -> string) (fuel : nat).

(** What is asked of the statements that write. *)
Class LaneInvariant (G : world -> world -> Prop) (P : world -> Prop) : Prop := {
  li_order :: PreOrder G;
  li_keeps : forall w w', G w w' -> P w -> P w';
  li_same : forall w w', same_tables w w' -> G w w';
  li_expired_mandate : forall jti, keeps G P (on_db (atomic (update_mandate jti (fun _ => true) (fun _ => with_mandate_status "expired"))));
  li_revoked_mandate : forall jti, keeps G P (on_db (atomic (update_mandate jti (fun _ => true) (fun now row => stamped now (with_mandate_status "revoked" row)))));
  li_reserve : forall jti amount, keeps G P (on_db (reserve_chain float_repr fuel jti amount));
  li_release : forall jti amount, keeps G P (on_db (release fuel jti amount));
  li_settle : forall jti amount, keeps G P (on_db (settle float_repr fuel jti amount));
  li_issue : forall jti a claims token, keeps G P (on_db (atomic (insert_mandate jti (issued_row a claims token))));
  li_new_purchase : forall id mandate_jti intent_jti amount, keeps G P (atomic (insert_new w_purchases set_purchases id (fun w => pending_row mandate_jti intent_jti amount (stamp w))));
  li_purchase : forall id status reason, status ∈ ["awaiting_escalation"; "rejected"; "compensated"]%string -> keeps G P (atomic (set_purchase id status reason));
  li_charging : forall id reservation, keeps G P (atomic (update_at w_purchases set_purchases id (fun _ => true) (fun w => charging_row reservation (stamp w))));
  li_captured : forall id receipt, keeps G P (atomic (update_at w_purchases set_purchases id (fun _ => true) (fun w => captured_row receipt (stamp w))));
  li_new_intent : forall jti mandate_jti agent nonce intent signature, keeps G P (atomic (fun w => insert_intent {| pi_jti := jti; pi_mandate_jti := mandate_jti;
    pi_agent_id := agent; pi_nonce := nonce; pi_intent := Some intent; pi_signature := Some signature; pi_status := "reserved"; pi_created_at := stamp w |} w));
  li_intent : forall jti, keeps G P (atomic (mark_intent jti "captured"));
  li_new_escalation : forall id row, (forall w, es_status (row w) = "pending"%string /\ es_decision (row w) = None) ->
    keeps G P (atomic (insert_new w_escalations set_escalations id row));
  li_expired : forall id, keeps G P (atomic (write_escalation id expired_row));
  li_resolved : forall id decision approver channel receipt, keeps G P (atomic (write_escalation id (resolved_row (answer_text decision) approver channel receipt)));
  li_keep : forall token_ref mandate_jti, keeps G P (atomic (keep_instrument token_ref mandate_jti));
  li_vault : forall token_ref row, (forall w, in_status (row w) = "active"%string) -> keeps G P (atomic (insert_new w_instruments set_instruments token_ref row));
  li_delete : forall token_ref, keeps G P (delete_token token_ref);
  li_capture : forall token_ref amount currency request, keeps G P (capture uuid float_repr token_ref amount currency request);
}.

Context (G : world -> world -> Prop) (P : world -> Prop) `{HI : !LaneInvariant G P}.
Abbreviation kept := (keeps G P).

Lemma keeps_does {A} (p : prog world A) : does G p -> kept p.
Proof using HI. intros Hp w Hw. apply (does_rg _ G p w P); [done| |done|done|done]. intros s s' Hs Hps. by apply (li_keeps s). Qed.
Lemma keeps_bind {A B} (m : prog world A) (f : A -> prog world B) : kept m -> (forall a, kept (f a)) -> kept (pbind m f).
Proof using HI. intros Hm Hf. eapply triple_bind; [apply _|exact Hm|exact Hf|done]. Qed.
Lemma keeps_catch {A} (m : prog world A) h : kept m -> (forall e, match h e with Some p => kept p | None => True end) -> kept (pcatch m h).
Proof using HI. intros Hm Hh. eapply triple_catch; [apply _|exact Hm|done|]. intros e. specialize (Hh e). by destruct (h e). Qed.

Lemma keeps_same {A} (op : st world A) : (forall w, same_tables w (op w).2) -> kept (atomic op).
Proof using HI. intros Hop. apply keeps_does, does_atomic. intros w. by apply li_same. Qed.
Lemma keeps_finish {A} (r : res A) : kept (Finish r).
Proof using HI. by apply keeps_does. Qed.
Lemma keeps_gets {A} (f : world -> A) : kept (atomic (gets f)).
Proof using HI. by apply keeps_same. Qed.
Lemma keeps_append a : kept (atomic (append_event uuid scrub_text a)).
Proof using HI. apply keeps_same. intros w. destruct (append_writes uuid scrub_text a w) as (t & n & ->). by split. Qed.
Lemma keeps_new_id prefix : kept (atomic (new_id uuid prefix)).
Proof using HI. by apply keeps_same. Qed.
Lemma keeps_draw : kept (atomic (draw uuid)).
Proof using HI. by apply keeps_same. Qed.
Lemma keeps_guard approver : kept (atomic (guard_escalation approver)).
Proof using HI. apply keeps_same. intros w. unfold guard_escalation, bump. by destruct (_ <? _). Qed.
Lemma keeps_price key f : kept (atomic (update_at w_offers set_offers key (fun _ => true) f)).
Proof using HI. apply keeps_same. intros w. unfold update_at. by destruct (w_offers w !! key). Qed.
Lemma keeps_reads {A} (p : prog db A) : does (fun d d' => d' = d) p -> kept (on_db p).
Proof using HI. intros Hp. apply keeps_does. apply (does_pzoom _ _ _ _ (fun d d' => d' = d)); [done|]. intros w d ->. by apply li_same. Qed.
Lemma keeps_select jti : kept (on_db (atomic (select_mandate jti))).
Proof using HI. apply keeps_reads. by split. Qed.
Lemma keeps_chain jti : kept (on_db (chain fuel jti)).
Proof using HI. apply keeps_reads, chain_reads. Qed.

(** One step of the walk of a program; [tac] is tried first. *)
Ltac walk_lane tac := repeat first
  [ progress tac
  | match goal with
    | |- keeps _ _ (pret _) => apply keeps_finish
    | |- keeps _ _ (plift _) => apply keeps_finish
    | |- keeps _ _ (praise _) => apply keeps_finish
    | |- keeps _ _ (Finish _) => apply keeps_finish
    | |- keeps _ _ (pbind _ _) => apply keeps_bind; [|intros ?]
    | |- keeps _ _ (atomic (gets _)) => apply keeps_gets
    | |- keeps _ _ (atomic (append_event _ _ _)) => apply keeps_append
    | |- keeps _ _ (atomic (new_id _ _)) => apply keeps_new_id
    | |- keeps _ _ (atomic (draw _)) => apply keeps_draw
    | |- keeps _ _ (atomic (guard_escalation _)) => apply keeps_guard
    | |- keeps _ _ (on_db (atomic (select_mandate _))) => apply keeps_select
    | |- keeps _ _ (on_db (chain _ _)) => apply keeps_chain
    | |- keeps _ _ (on_db (atomic (update_mandate _ _ _))) => first [apply li_expired_mandate | apply li_revoked_mandate]
    | |- keeps _ _ (on_db (atomic (insert_mandate _ _))) => apply li_issue
    | |- keeps _ _ (on_db (reserve_chain _ _ _ _)) => apply li_reserve
    | |- keeps _ _ (on_db (release _ _ _)) => apply li_release
    | |- keeps _ _ (on_db (settle _ _ _ _)) => apply li_settle
    | |- keeps _ _ (atomic (set_purchase _ _ _)) => apply li_purchase; first [left | right; left | right; right; left]
    | |- keeps _ _ (atomic (insert_new w_purchases _ _ _)) => apply li_new_purchase
    | |- keeps _ _ (atomic (update_at w_purchases _ _ _ _)) => first [apply li_charging | apply li_captured]
    | |- keeps _ _ (atomic (fun w => insert_intent _ w)) => apply li_new_intent
    | |- keeps _ _ (atomic (mark_intent _ _)) => apply li_intent
    | |- keeps _ _ (atomic (insert_new w_escalations _ _ _)) => apply li_new_escalation; done
    | |- keeps _ _ (atomic (write_escalation _ _)) => first [apply li_expired | apply li_resolved]
    | |- keeps _ _ (atomic (keep_instrument _ _)) => apply li_keep
    | |- keeps _ _ (atomic (insert_new w_instruments _ _ _)) => apply li_vault; done
    | |- keeps _ _ (delete_token _) => apply li_delete
    | |- keeps _ _ (capture _ _ _ _ _ _) => apply li_capture
    | |- keeps _ _ (match ?x with _ => _ end) => destruct x
    end ].
Ltac walked := walk_lane ltac:(idtac; fail).

(** ** Merchants *)

Definition merchant_kept (port : merchant_port) : Prop :=
  (forall offer_id, kept (port_get port offer_id)) /\
  (forall s, kept (st_verify_fn s) -> (forall mint amount cart_hash, st_capture s = Some mint -> kept (mint amount cart_hash)) -> kept (port_settle port s)).

Lemma local_kept : merchant_kept (LocalMerchant uuid scrub_text float_repr str_exn).
Proof using HI.
  split; cbn [port_get port_settle LocalMerchant].
  - intros offer_id. unfold local_get, get_offer. walked.
  - intros s Hv _. unfold local_settle. apply keeps_catch; [|intros []; try exact I; apply keeps_finish].
    unfold checkout_charge, get_offer. walk_lane ltac:(idtac; match goal with |- keeps _ _ (st_verify_fn _) => exact Hv end).
Qed.

Variable registry : list (string * merchant_port).
Variables (token_key : Key) (token_kid : string) (capture_dry_run : bool).
Hypothesis merchants : Forall (fun kp => merchant_kept kp.2) registry.

Lemma registered_kept v port : merchant_for registry v = Ok port -> merchant_kept port.
Proof using merchants. by apply merchant_all. Qed.

(** ** The kernel *)

Lemma refuse_kept {A} jti code detail : kept (refuse (A := A) uuid scrub_text jti code detail).
Proof using HI. unfold refuse, _refuse. walked. Qed.
Ltac lane_step := match goal with
  | |- keeps _ _ (refuse _ _ _ _ _) => apply refuse_kept
  | |- keeps _ _ (_refuse _ _ _ _ _) => unfold _refuse
  end.
Ltac lane := walk_lane ltac:(idtac; lane_step).

Lemma agent_kept token intent sig : kept (check_agent uuid scrub_text float_repr str_exn token intent sig).
Proof using HI. unfold check_agent. lane. Qed.
Lemma dead_kept l : kept (dead_ancestor l).
Proof using HI. induction l as [|j l IH]; cbn [dead_ancestor]; walk_lane ltac:(idtac; match goal with |- keeps _ _ (dead_ancestor _) => exact IH end). Qed.
Lemma mandate_kept claims jti now : kept (check_mandate uuid scrub_text fuel claims jti now).
Proof using HI. unfold check_mandate. walk_lane ltac:(idtac; first [lane_step | match goal with |- keeps _ _ (dead_ancestor _) => apply dead_kept end]). Qed.

Lemma live_kept intent jti : kept (live_offer uuid scrub_text registry intent jti).
Proof using HI merchants.
  unfold live_offer. apply keeps_catch; [|intros []; try exact I; lane].
  destruct (let? m := py_item intent "merchant_id" in merchant_for registry m) as [port|] eqn:E; [|apply keeps_finish]. cbn [plift pbind].
  destruct (py_item intent "merchant_id") as [m|]; [|done]. cbn in E. destruct (registered_kept _ _ E) as [Hget _].
  walk_lane ltac:(idtac; match goal with |- keeps _ _ (port_get _ _) => apply Hget end).
Qed.

Lemma verify_kept token intent sig reserve : kept (verify uuid scrub_text float_repr str_exn fuel registry token intent sig reserve).
Proof using HI merchants.
  unfold verify, checked, check_purchase, reserve_intent. walk_lane ltac:(idtac; first [lane_step | match goal with
    | |- keeps _ _ (check_agent _ _ _ _ _ _ _) => apply agent_kept
    | |- keeps _ _ (check_mandate _ _ _ _ _ _) => apply mandate_kept
    | |- keeps _ _ (live_offer _ _ _ _ _) => apply live_kept
    end]).
Qed.

Lemma charge_kept purchase_id token claims intent signature decision run_id :
  kept (_charge uuid scrub_text float_repr str_exn fuel registry token_key token_kid capture_dry_run purchase_id token claims intent signature decision run_id).
Proof using HI merchants.
  assert (Hcomp : forall code detail, kept (_compensate uuid scrub_text fuel purchase_id claims intent code detail run_id)) by (intros; unfold _compensate; lane).
  unfold _charge. apply keeps_bind; [lane|]. intros _. destruct (let? m := py_item intent "merchant_id" in merchant_for registry m) as [port|e] eqn:E; [|apply keeps_finish].
  assert (merchant_kept port) as [Hget Hsettle] by (destruct (py_item intent "merchant_id"); [by eapply registered_kept|done]).
  assert (Hset : forall st, st_verify_fn st = live_state claims (v_reservation_id decision) ->
    st_capture st = (if port_kernel_capture port then Some (mint_for token_key token_kid capture_dry_run intent (v_reservation_id decision)) else None) -> kept (settle_or_refuse port st)).
  { intros st Hv Hm. unfold settle_or_refuse. apply keeps_catch; [|intros e; apply keeps_finish]. apply keeps_bind; [|intros; apply keeps_finish].
    apply Hsettle; [rewrite Hv; unfold live_state; lane|]. intros mint amount cart_hash. rewrite Hm. destruct (port_kernel_capture port); [|done].
    intros [= <-]. unfold mint_for. lane. }
  cbn [plift pbind]. unfold _finish_capture. walk_lane ltac:(idtac; match goal with
    | |- keeps _ _ (port_get _ _) => apply Hget
    | |- keeps _ _ (settle_or_refuse _ _) => by apply Hset
    | |- keeps _ _ (_compensate _ _ _ _ _ _ _ _ _) => apply Hcomp
    end).
Qed.

Lemma submit_kept a : kept (submit_purchase uuid scrub_text float_repr str_exn fuel registry token_key token_kid capture_dry_run a).
Proof using HI merchants.
  unfold submit_purchase, find_offer. apply keeps_bind; [unfold get_mandate; lane|]. intros row. apply keeps_bind; [lane|]. intros claims. apply keeps_bind.
  { destruct (merchant_for registry _) as [port|e] eqn:E; [|destruct e; apply keeps_finish]. destruct (registered_kept _ _ E) as [Hget _].
    apply keeps_bind; [apply Hget|]. intros found. apply keeps_finish. }
  intros [answer|[port offer]]; [apply keeps_finish|]. unfold build_intent, escalate_purchase, open_escalation, reject_purchase.
  walk_lane ltac:(idtac; match goal with
    | |- keeps _ _ (verify _ _ _ _ _ _ _ _ _ _) => apply verify_kept
    | |- keeps _ _ (_charge _ _ _ _ _ _ _ _ _ _ _ _ _ _ _ _) => apply charge_kept
    end).
Qed.

(** ** The other programs *)

Lemma issue_kept a : kept (issue uuid scrub_text a).
Proof using HI. unfold issue. walked. Qed.
Lemma expire_kept esc_id : kept (expire uuid scrub_text esc_id).
Proof using HI. unfold expire, get_escalation. walked. Qed.
Lemma sweep_kept order : kept (sweep uuid scrub_text order).
Proof using HI.
  unfold sweep. apply keeps_bind; [walked|]. intros ids. induction ids as [|id ids IH]; cbn [expire_each]; [walked|].
  apply keeps_bind; [apply expire_kept|]. intros r. apply keeps_bind; [exact IH|intros rs; walked].
Qed.
Lemma resolve_kept esc_id decision approver channel sticky :
  kept (resolve uuid scrub_text float_repr str_exn fuel registry token_key token_kid capture_dry_run esc_id decision approver channel sticky).
Proof using HI merchants.
  unfold resolve, get_escalation, _retry_through_gate, find_request, stored_offer, derive_mandate, get_mandate.
  walk_lane ltac:(idtac; match goal with
    | |- keeps _ _ (expire _ _ _) => apply expire_kept
    | |- keeps _ _ (issue _ _ _) => apply issue_kept
    | |- keeps _ _ (submit_purchase _ _ _ _ _ _ _ _ _ _) => apply submit_kept
    end).
Qed.
Lemma revoke_kept jti actor reason : kept (revoke uuid scrub_text float_repr jti actor reason).
Proof using HI. unfold revoke. walked. Qed.

(** The programs of the lane, their answers aside. *)
Inductive lane_program : prog world unit -> Prop :=
| LaneIssue a : lane_program (_ <~ issue uuid scrub_text a ; pret tt)
| LaneSubmit a : lane_program (_ <~ submit_purchase uuid scrub_text float_repr str_exn fuel registry token_key token_kid capture_dry_run a ; pret tt)
| LaneVerify token intent sig reserve : lane_program (_ <~ verify uuid scrub_text float_repr str_exn fuel registry token intent sig reserve ; pret tt)
| LaneResolve esc_id decision approver channel sticky : lane_program
    (_ <~ resolve uuid scrub_text float_repr str_exn fuel registry token_key token_kid capture_dry_run esc_id decision approver channel sticky ; pret tt)
| LaneExpire esc_id : lane_program (_ <~ expire uuid scrub_text esc_id ; pret tt)
| LaneSweep order : lane_program (_ <~ sweep uuid scrub_text order ; pret tt)
| LaneRevoke jti actor reason : lane_program (_ <~ revoke uuid scrub_text float_repr jti actor reason ; pret tt)
| LaneCapture token_ref amount currency request : lane_program (_ <~ capture uuid float_repr token_ref amount currency request ; pret tt)
| LaneVault mandate_jti : lane_program (_ <~ vault_instrument uuid mandate_jti ; pret tt)
| LanePrice offer_id amount : lane_program (_ <~ set_price uuid scrub_text offer_id amount ; pret tt).

Lemma lane_kept p : lane_program p -> kept p.
Proof using HI merchants.
  intros []; (apply keeps_bind; [|intros ?; apply keeps_finish]).
  - apply issue_kept. - apply submit_kept. - apply verify_kept. - apply resolve_kept. - apply expire_kept. - apply sweep_kept.
  - apply revoke_kept. - apply li_capture. - unfold vault_instrument. walked.
  - unfold set_price. walk_lane ltac:(idtac; match goal with |- keeps _ _ (atomic (update_at w_offers _ _ _ _)) => apply keeps_price end).
Qed.

(** Every schedule of them keeps the invariant. *)
Lemma lane_schedule schedule pool w : P w -> Forall lane_program pool -> P (interleave schedule pool w).2 /\ G w (interleave schedule pool w).2.
Proof using HI merchants.
  intros Hw Hpool.
  pose proof (pool_interleave (A := unit) (fun _ => G) (fun _ => G) (fun _ _ => P) (fun w' => P w' /\ G w w') (length pool)) as Hp.
  specialize (Hp ltac:(by intros) ltac:(intros i s s' _ [H1 H2] H3; split; [by eapply li_keeps|by etransitivity]) schedule pool w).
  destruct Hp as (_ & [HP HG] & _); [|done]. split; [done|]. split; [by split|].
  intros i p Hi. apply lane_kept; [|done]. exact (proj1 (Forall_lookup _ _) Hpool i p Hi).
Qed.
End Lane.
