(* ===== verification/AgentPurchase.v ===== *)
(** A purchase run to its end, whatever the merchant answers and wherever an
    exception stops it: what it has recorded on the mandates. *)
From S2P Require Import Prelude PyTime Decimal Json JsonLogic JsonParse Models Canonical Jose RappiClient Prog AgentRules AgentGate AgentBudget AgentBudgetFacts AgentSpending AgentAudit AgentJws AgentWorld AgentMandate AgentMerchant AgentKernel AgentEscalation AgentBooks AgentFrame AgentSaga.

(** ** Running what leaves the amounts alone *)

Lemma ends_quiet {A B} (I : world -> Prop) (m : prog world A) (f : A -> prog world B) w Q :
  (forall w w', undisturbed w w' -> I w -> I w') -> does undisturbed m -> I w ->
  (forall a w', I w' -> ends (f a) w' Q) -> (forall e w', I w' -> Q (Raise e) w') -> ends (pbind m f) w Q.
Proof.
  intros HI Hm Hw Hf He. apply ends_bind. apply (ends_does undisturbed); [done|]. intros [a|e] w' Hu; [apply Hf|apply He]; by eapply HI.
Qed.

Lemma ends_quiet_yields {A B} (I : world -> Prop) (P : A -> Prop) (m : prog world A) (f : A -> prog world B) w Q :
  (forall w w', undisturbed w w' -> I w -> I w') -> does undisturbed m -> yields P m -> I w ->
  (forall a w', P a -> I w' -> ends (f a) w' Q) -> (forall e w', I w' -> Q (Raise e) w') -> ends (pbind m f) w Q.
Proof.
  intros HI Hm Hy Hw Hf He. apply ends_bind. apply (ends_weaken _ _ (fun r w' => I w' /\ match r with Ok a => P a | Raise _ => True end)).
  - apply ends_both; [|by apply ends_yields]. apply (ends_does undisturbed); [done|]. intros r w' Hu. by eapply HI.
  - intros [a|e] w' [Hw' HP]; [by apply Hf|by apply He].
Qed.

Ltac calm_step := first [ money_step | match goal with
  | |- does _ (refuse _ _ _ _ _) => apply quiet_refuse
  | |- does _ (_refuse _ _ _ _ _) => apply quiet_refuse_with
  end ].
Ltac calm := frame money_neutral money_frame calm_step.
Ltac through kept := eapply ends_quiet; [apply kept|calm|eassumption| |]; [intros ? ? ?|intros ? ? ?].
Ltac lifted := apply ends_plift; [intros ? ?|intros ?].

Section Purchase.
Context `{Ed25519} `{JwsLibrary}.
Variables (uuid : nat -> string) (scrub_text float_repr : string -> string) (str_exn : exn -> string) (fuel : nat).
Variable registry : list (string * merchant_port).
Variables (token_key : Key) (token_kid : string) (capture_dry_run : bool).
Hypothesis honest : Forall (fun kp => HonestPort kp.2) registry.
Abbreviation table_ok := (table_ok float_repr).
Abbreviation total_of := (total_of float_repr).

(** The claims kept with a mandate name it. *)
Definition named (m : gmap string mandate_row) : Prop := forall j row claims,
  m !! j = Some row -> loads float_repr (mr_claims row) = Ok claims -> py_item claims "jti" = Ok (VStr j).

(** Every mandate of the list can take [c] more. *)
Definition room_for (c : Z) (m : gmap string mandate_row) (l : list string) : Prop :=
  forall j, j ∈ l -> exists row, m !! j = Some row /\ fits float_repr c row.

Lemma room_same c m m' l : same_books m m' -> room_for c m' l -> room_for c m l.
Proof using Type.
  intros Hs Hr j Hj. destruct (Hr j Hj) as (row' & Hrow & Hfit). specialize (Hs j). rewrite Hrow in Hs. destruct (m !! j) as [row|]; [|done].
  exists row. split; [done|]. assert (amounts row' = amounts row) as Ha by (cbn in Hs; congruence). unfold fits in *.
  destruct (amounts_eq float_repr _ _ Ha) as (E1 & E2 & E3). by rewrite <- E1, <- E2, <- E3.
Qed.

(** One amount, over the books as they were at the start. *)
Section Fixed.
Variables (m : gmap string mandate_row) (j : string) (c : Z).
Hypotheses (Hc : small c) (Hok : table_ok m) (Hfuel : (size m + 2 <= fuel)%nat).
Abbreviation l := (family m fuel j).

Definition untouched (w : world) : Prop := same_books m (mandates (w_db w)) /\ stock w.
Definition holding (w : world) : Prop := room_for c m l /\ booked (moved_by c) l m (mandates (w_db w)) /\ stock w.
Definition paid (w : world) : Prop := room_for c m l /\ booked (spent_by c) l m (mandates (w_db w)) /\ stock w.
Definition any_books (w : world) : Prop := untouched w \/ holding w \/ paid w.

Lemma untouched_kept w w' : undisturbed w w' -> untouched w -> untouched w'.
Proof using Type. intros (Hs & Hp & _) [H1 H2]. split; [by etransitivity|auto]. Qed.
Lemma holding_kept w w' : undisturbed w w' -> holding w -> holding w'.
Proof using Type. intros (Hs & Hst & _) (H1 & H2 & H3). split; [done|]. split; [by eapply booked_apart|auto]. Qed.
Lemma paid_kept w w' : undisturbed w w' -> paid w -> paid w'.
Proof using Type. intros (Hs & Hst & _) (H1 & H2 & H3). split; [done|]. split; [by eapply booked_apart|auto]. Qed.

Lemma ends_reserve {B} (f : bool -> prog world B) w Q : untouched w ->
  (forall w', untouched w' -> ends (f false) w' Q) -> (forall w', holding w' -> ends (f true) w' Q) ->
  ends (pbind (on_db (reserve_chain float_repr fuel j (cents_text c))) f) w Q.
Proof using Hc Hok Hfuel.
  intros [Hs Hp] Hno Hyes. pose proof (table_ok_same float_repr _ _ Hs Hok) as Hok'. pose proof Hs as Hb. apply (booked_nil id) in Hb.
  destruct (reserve_run float_repr fuel j c (w_db w) Hc Hok') as (b & d' & Hrun & _ & Hbk & Hroom); [by rewrite (size_booked _ _ _ _ Hb)|].
  apply ends_bind. unfold ends. rewrite run_on_db, Hrun. cbn. rewrite (family_booked id [] m) in Hbk, Hroom by done.
  destruct b.
  - apply Hyes. split; [|split; [eapply same_booked; [apply moved_respects|done|done]|done]].
    apply (room_same c m _ _ Hs). intros k Hk. destruct (Hroom eq_refl k Hk) as (row & Hr & [_ Hfit]). eauto.
  - apply Hno. split; [|done]. cbn. etransitivity; [exact Hs|]. by apply booked_nil in Hbk.
Qed.

Lemma ends_release {B} (f : unit -> prog world B) w Q : holding w ->
  (forall w', untouched w' -> ends (f tt) w' Q) ->
  ends (pbind (on_db (release fuel j (cents_text c))) f) w Q.
Proof using Hc Hok Hfuel.
  intros (Hroom & Hb & Hst) Hf. destruct (release_run float_repr c l m _ Hc Hok Hroom Hb fuel j (w_db w) eq_refl eq_refl Hfuel) as (d' & Hrun & _ & Hs).
  apply ends_bind. unfold ends. rewrite run_on_db, Hrun. by apply Hf.
Qed.

Lemma ends_settle {B} (f : unit -> prog world B) w Q : holding w ->
  (forall w', paid w' -> ends (f tt) w' Q) ->
  ends (pbind (on_db (settle float_repr fuel j (cents_text c))) f) w Q.
Proof using Hc Hok Hfuel.
  intros (Hroom & Hb & Hst) Hf. destruct (settle_run float_repr c l m _ Hc Hok Hroom Hb fuel j (w_db w) eq_refl eq_refl Hfuel) as (d' & Hrun & _ & Hs).
  apply ends_bind. unfold ends. rewrite run_on_db, Hrun. apply Hf. by split.
Qed.

(** ** The charge *)

(** An intent for [c] on mandate [j], and claims that name [j]. *)
Variables (claims intent : pyval).
Hypotheses (Hclaims : py_item claims "jti" = Ok (VStr j)) (Hamount : py_item intent "amount" = Ok (VStr (cents_text c))).

(** The books of an answer: one capture has spent the amount on the family,
    nothing else has changed them; an exception may also leave the amount
    held. *)
Definition answered (r : res outcome) (w : world) : Prop :=
  match r with
  | Ok (Captured _ _) => paid w
  | Ok _ => untouched w
  | Raise _ => any_books w
  end.

Lemma compensate_books purchase_id code detail run_id w : holding w ->
  ends (_compensate uuid scrub_text fuel purchase_id claims intent code detail run_id) w answered.
Proof using Hc Hok Hfuel Hclaims Hamount.
  intros Hw. unfold _compensate. rewrite Hclaims, Hamount. cbn [rbind sql_text plift pbind py_str].
  apply ends_release; [done|]. intros w1 Hw1. lifted; [|by left].
  through untouched_kept; [|by left]. lifted; [|by left]. through untouched_kept; [|by left]. done.
Qed.

Lemma untouched_any w : untouched w -> any_books w.
Proof using Type. by left. Qed.
Lemma holding_any w : holding w -> any_books w.
Proof using Type. by right; left. Qed.
Lemma paid_any w : paid w -> any_books w.
Proof using Type. by right; right. Qed.

Lemma finish_books purchase_id result run_id w : holding w ->
  ends (_finish_capture uuid scrub_text float_repr fuel purchase_id claims intent result run_id) w answered.
Proof using Hc Hok Hfuel Hclaims Hamount.
  intros Hw. unfold _finish_capture. rewrite Hclaims, Hamount. cbn [rbind sql_text plift pbind py_str].
  apply ends_settle; [done|]. intros w1 Hw1. do 2 (lifted; [|by apply paid_any]).
  through paid_kept; [|by apply paid_any]. lifted; [|by apply paid_any]. through paid_kept; [|by apply paid_any].
  lifted; [|by apply paid_any]. through paid_kept; [|by apply paid_any]. done.
Qed.

Lemma quiet_live_state reservation_id : does undisturbed (live_state claims reservation_id).
Proof using Type. unfold live_state. calm. Qed.
Lemma quiet_mint reservation_id amount cart_hash :
  does undisturbed (mint_for token_key token_kid capture_dry_run intent reservation_id amount cart_hash).
Proof using Type. unfold mint_for. calm. Qed.

Lemma charge_books purchase_id token signature decision run_id w : holding w ->
  ends (_charge uuid scrub_text float_repr str_exn fuel registry token_key token_kid capture_dry_run purchase_id token claims intent signature decision run_id) w answered.
Proof using honest Hc Hok Hfuel Hclaims Hamount.
  intros Hw. unfold _charge. through holding_kept; [|by apply holding_any].
  apply ends_plift; [intros port Hport|intros e; by apply holding_any].
  assert (HonestPort port) as [Hget _ Hsettle].
  { destruct (py_item intent "merchant_id") as [v|]; [|done]. by eapply merchant_honest. }
  do 2 (lifted; [|by apply holding_any]).
  eapply ends_quiet; [apply holding_kept|apply Hget|eassumption| |]; [intros found w2 Hw2|intros ? ? ?; by apply holding_any].
  eapply ends_quiet; [apply holding_kept| |exact Hw2| |]; [|intros result w3 Hw3|intros ? ? ?; by apply holding_any].
  - unfold settle_or_refuse. apply does_catch; [|by intros e]. apply does_bind; [|by intros r]. apply Hsettle; cbn; [apply quiet_live_state|].
    intros mint amount cart_hash Hm. destruct (port_kernel_capture port); [|done]. injection Hm as <-. apply quiet_mint.
  - destruct result as [e|result]; [destruct e; by apply compensate_books|]. lifted; [|by apply holding_any].
    destruct (negb _); [|by apply finish_books]. do 2 (lifted; [|by apply holding_any]). by apply compensate_books.
Qed.

(** ** The checks and the reservation *)

Hypothesis Hnamed : py_get intent "mandate_jti" = Ok (VStr j).

Definition judged (r : res verdict) (w : world) : Prop :=
  match r with
  | Ok v => match v_decision v with AgentApproved => holding w | _ => untouched w end
  | Raise _ => any_books w
  end.

Lemma ends_checked {A} (P : A -> Prop) (check : prog world (verdict + A)) k w : untouched w -> does undisturbed check -> yields (goes_on P) check ->
  (forall a w', P a -> untouched w' -> ends (k a) w' judged) -> ends (checked check k) w judged.
Proof using Type.
  intros Hw Hd Hy Hk. unfold checked. apply (ends_quiet_yields untouched (goes_on P)); [apply untouched_kept|done..| |by left].
  intros [v|a] w' HP Hw'; [|by apply Hk]. unfold ends. cbn in HP |- *. by rewrite HP.
Qed.

Lemma reserve_intent_books signature token_claims w : untouched w ->
  ends (reserve_intent uuid scrub_text float_repr fuel token_claims intent signature j) w judged.
Proof using Hc Hok Hfuel Hamount.
  intros Hw. unfold reserve_intent. rewrite Hamount. cbn [plift pbind py_str]. apply ends_reserve; [done| |]; cbn [negb].
  - intros w1 Hw1. apply (ends_weaken _ _ (fun r w' => untouched w' /\ match r with Ok v => v_decision v = AgentRejected | Raise _ => True end)).
    + apply ends_both; [|apply ends_yields, refused_yields]. apply (ends_does undisturbed); [apply quiet_refuse_with|].
      intros r w' Hu. by eapply untouched_kept.
    + intros [v|e] w' [Hw' Hv]; cbn; [by rewrite Hv|by left].
  - intros w1 Hw1. through holding_kept; [|by apply holding_any]. do 4 (lifted; [|by apply holding_any]).
    through holding_kept; [|by apply holding_any]. lifted; [|by apply holding_any]. through holding_kept; [|by apply holding_any]. done.
Qed.

Lemma verify_books token signature w : untouched w ->
  ends (verify uuid scrub_text float_repr str_exn fuel registry token intent signature true) w judged.
Proof using honest Hc Hok Hfuel Hamount Hnamed.
  intros Hw. unfold verify. eapply ends_checked; [done|apply quiet_agent|apply agent_yields|]. intros [[token_claims jti] now] w1 Hjti Hw1.
  cbn in Hjti. rewrite Hnamed in Hjti. injection Hjti as <-.
  eapply ends_checked; [done|apply quiet_mandate|apply mandate_yields|]. intros row w2 _ Hw2.
  eapply ends_checked; [done|by apply quiet_purchase|apply purchase_yields|]. intros d w3 _ Hw3.
  destruct (is_approval d) eqn:Ed; cbn [negb orb]; [by apply reserve_intent_books|].
  do 2 (lifted; [|by apply untouched_any]). through untouched_kept; [|by apply untouched_any].
  unfold ends, judged. cbn. unfold is_approval in Ed. by destruct (d_decision d).
Qed.
End Fixed.

(** ** The purchase *)

(** The request [a] asks for [c] cents: what its merchant sells the offer at. *)
Definition asks (a : purchase_args) (w : world) (c : Z) : Prop := exists port offer price,
  (run_prog (find_offer registry a) w).1 = Ok (inr (port, offer)) /\ py_item offer "price" = Ok price /\ fmt price = Ok (cents_text c) /\ small c.

Definition purchased (a : purchase_args) (w : world) (r : res outcome) (w' : world) : Prop :=
  let m := mandates (w_db w) in
  match r with
  | Ok (Captured _ _) => exists c, asks a w c /\ paid m (pa_mandate_jti a) c w'
  | Ok _ => untouched m w'
  | Raise _ => untouched m w' \/ exists c, asks a w c /\ (holding m (pa_mandate_jti a) c w' \/ paid m (pa_mandate_jti a) c w')
  end.

Lemma run_get_mandate jti w :
  run_prog (get_mandate jti) w = (match mandates (w_db w) !! jti with Some row => Ok row | None => Raise KeyError end, w).
Proof using Type.
  unfold get_mandate. rewrite run_pbind. unfold sbind. rewrite run_on_db. cbn. destruct (mandates (w_db w) !! jti); cbn; by destruct w.
Qed.

Lemma quiet_find a : does undisturbed (find_offer registry a).
Proof using honest.
  unfold find_offer. destruct (merchant_for _ _) as [port|e] eqn:E; [|by destruct e]. destruct (merchant_honest _ honest _ _ E) as [Hget _ _].
  apply does_bind; [apply Hget|done].
Qed.

Lemma find_priced a w port offer : offers_priced w -> (run_prog (find_offer registry a) w).1 = Ok (inr (port, offer)) ->
  exists price c, py_item offer "price" = Ok price /\ small c /\ fmt price = Ok (cents_text c).
Proof using honest.
  intros Hp. unfold find_offer. destruct (merchant_for _ _) as [port'|e] eqn:E; [|by destruct e].
  destruct (merchant_honest _ honest _ _ E) as [_ Hpriced _]. rewrite run_pbind. unfold sbind. specialize (Hpriced (pa_offer_id a) w).
  destruct (run_prog (port_get port' (pa_offer_id a)) w) as [[[o|]|e] w1]; cbn; try done. intros [= <- <-].
  destruct (Hpriced o Hp eq_refl) as (price & Hprice & c & Hc & Hf). by exists price, c.
Qed.

Lemma build_yields mandate_jti agent_id offer price amount : py_item offer "price" = Ok price -> fmt price = Ok amount ->
  yields (fun intent => py_item intent "amount" = Ok (VStr amount) /\ py_get intent "mandate_jti" = Ok (VStr mandate_jti)) (build_intent uuid mandate_jti agent_id offer).
Proof using Type.
  intros Hp Hf. unfold build_intent. apply yields_bind. intros now. do 2 (apply yields_plift; intros ? _). rewrite Hp. cbn [plift pbind]. rewrite Hf.
  cbn [plift pbind]. apply yields_plift; intros ? _. by do 2 (apply yields_bind; intros ?).
Qed.

Lemma quiet_escalate a purchase_id decision intent signature : does undisturbed (escalate_purchase uuid scrub_text a purchase_id decision intent signature).
Proof using Type. unfold escalate_purchase, open_escalation. calm. Qed.
Lemma quiet_reject a purchase_id agent decision : does undisturbed (reject_purchase uuid scrub_text a purchase_id agent decision).
Proof using Type. unfold reject_purchase. calm. Qed.
Definition not_captured (o : outcome) : Prop := match o with Captured _ _ => False | _ => True end.
Lemma not_captured_escalated a purchase_id decision intent signature :
  yields not_captured (escalate_purchase uuid scrub_text a purchase_id decision intent signature).
Proof using Type. unfold escalate_purchase. by do 2 (apply yields_bind; intros ?). Qed.
Lemma not_captured_rejected a purchase_id agent decision :
  yields not_captured (reject_purchase uuid scrub_text a purchase_id agent decision).
Proof using Type. unfold reject_purchase. by do 2 (apply yields_bind; intros ?). Qed.

Lemma find_yields a : yields (fun x => match x with inl answer => not_captured answer | inr _ => True end) (find_offer registry a).
Proof using Type. unfold find_offer. destruct (merchant_for _ _) as [port|e]; [|by destruct e]. by apply yields_bind; intros [|]. Qed.

Abbreviation submit := (submit_purchase uuid scrub_text float_repr str_exn fuel registry token_key token_kid capture_dry_run).

Lemma not_captured_books a w p w1 : does undisturbed p -> yields not_captured p -> untouched (mandates (w_db w)) w1 -> ends p w1 (purchased a w).
Proof using Type.
  intros Hd Hy Hs. apply (ends_weaken _ _ (fun r w' => untouched (mandates (w_db w)) w' /\ match r with Ok o => not_captured o | Raise _ => True end)).
  - apply ends_both; [|by apply ends_yields]. apply (ends_does undisturbed); [done|]. intros r w' Hu. by eapply untouched_kept.
  - intros [[]|e] w' [Hs' Hn]; try done. by left.
Qed.

Lemma any_purchased a w c e w' : asks a w c -> any_books (mandates (w_db w)) (pa_mandate_jti a) c w' -> purchased a w (Raise e) w'.
Proof using Type. intros Ha [Hs|[Hh|Hpd]]; [by left|right; exists c; auto..]. Qed.

(** What follows the verdict. *)
Lemma decided_books a w c purchase_id token agent claims intent signature w1 : let m := mandates (w_db w) in
  small c -> table_ok m -> (size m + 2 <= fuel)%nat -> asks a w c -> py_item claims "jti" = Ok (VStr (pa_mandate_jti a)) ->
  py_item intent "amount" = Ok (VStr (cents_text c)) -> py_get intent "mandate_jti" = Ok (VStr (pa_mandate_jti a)) -> untouched m w1 ->
  ends (decision <~ verify uuid scrub_text float_repr str_exn fuel registry token intent signature true ;
        match v_decision decision with
        | AgentEscalated => escalate_purchase uuid scrub_text a purchase_id decision intent signature
        | AgentRejected => reject_purchase uuid scrub_text a purchase_id agent decision
        | AgentApproved => _charge uuid scrub_text float_repr str_exn fuel registry token_key token_kid capture_dry_run purchase_id token claims intent signature decision (pa_run_id a)
        end) w1 (purchased a w).
Proof using honest.
  intros m Hc Hok Hf Hasks Hclaims Hamount Hmandate Hw1. apply ends_bind.
  eapply ends_weaken; [eapply verify_books with (m := m) (c := c) (j := pa_mandate_jti a); try eassumption; done|].
  intros [decision|e] w2 Hj; unfold judged in Hj; [|by apply (any_purchased a w c)]. destruct (v_decision decision).
  - eapply ends_weaken; [eapply charge_books with (m := m) (c := c) (j := pa_mandate_jti a); try eassumption; done|].
    intros [[]|e] w3 Ha; cbn in Ha |- *; try done; [by exists c|by apply (any_purchased a w c)].
  - apply (not_captured_books a w); [apply quiet_escalate|apply not_captured_escalated|done].
  - apply (not_captured_books a w); [apply quiet_reject|apply not_captured_rejected|done].
Qed.

Lemma submit_books a w : table_ok (mandates (w_db w)) -> named (mandates (w_db w)) -> stock w -> (size (mandates (w_db w)) + 2 <= fuel)%nat ->
  ends (submit a) w (purchased a w).
Proof using honest.
  intros Hok Hnamed Hst Hf. set (m := mandates (w_db w)) in *. assert (Hw : untouched m w) by by split.
  assert (Hend : forall e w', untouched m w' -> purchased a w (Raise e) w') by (intros e w' Hu; by left).
  unfold submit_purchase. apply ends_bind. unfold ends at 1. rewrite run_get_mandate. cbn [fst snd]. fold m.
  destruct (m !! pa_mandate_jti a) as [row|] eqn:Erow; [|by apply Hend]. apply ends_plift; [intros claims Hload|intros e; by apply Hend].
  pose proof (Hnamed _ _ _ Erow Hload) as Hjti.
  apply ends_bind. apply (ends_weaken _ _ (fun r w' => untouched m w' /\ r = (run_prog (find_offer registry a) w).1 /\
    match r with Ok (inl answer) => not_captured answer | _ => True end)).
  { split; [|split; [done|pose proof (ends_yields _ _ w (find_yields a)) as Hy; unfold ends in Hy; destruct (run_prog _ w) as [[[]|] ?]; done]].
    eapply untouched_kept; [|exact Hw]. apply does_run; [apply _|apply quiet_find]. }
  intros [[answer|[port offer]]|e] w1 (Hw1 & Hfind & Hnot); cbn beta iota; [| |by apply Hend]; [by destruct answer|].
  symmetry in Hfind. destruct (find_priced a w port offer (proj1 Hst) Hfind) as (price & c & Hprice & Hc & Hfmt).
  assert (Hasks : asks a w c) by by exists port, offer, price.
  apply ends_plift; [intros agent_id _|intros e; by apply Hend].
  eapply ends_quiet_yields; [apply (untouched_kept m)|unfold build_intent; calm|by eapply build_yields|done| |apply Hend].
  intros intent w2 [Hamount Hmandate] Hw2. cbn beta. rewrite Hamount. cbn [rbind sql_text plift pbind].
  do 2 (lifted; [|by apply Hend]). through (untouched_kept m); [|by apply Hend]. lifted; [|by apply Hend].
  eapply ends_quiet; [apply (untouched_kept m)|apply quiet_new_purchase|eassumption|intros ? w3 Hw3|apply Hend].
  { intros ?. cbn. exists c. split; [done|by apply fmt_fixed]. }
  through (untouched_kept m); [|by apply Hend]. destruct (mr_token row) as [token|]; cbn [pbind pret praise]; [|by apply Hend].
  by apply (decided_books a w c).
Qed.

(** C3: A purchase, run to its end in a database whose amounts are well formed, with
    merchants that touch no mandate: if it was captured, the price the merchant
    asked is spent on the mandate and on each of its ancestors, all of which had
    room for it; if it was refused, escalated or compensated, every mandate has
    the amounts it had; and if an exception stopped it, wherever that was, either
    the amounts are as they were, or the price is held on the whole ancestry, or
    it is spent there. *)
Theorem purchase_books a w : table_ok (mandates (w_db w)) -> named (mandates (w_db w)) -> stock w -> (size (mandates (w_db w)) + 2 <= fuel)%nat ->
  purchased a w (run_prog (submit a) w).1 (run_prog (submit a) w).2.
Proof using honest. intros Hok Hn Hst Hf. by apply submit_books. Qed.
End Purchase.
