(* ===== verification/AgentSound.v ===== *)
(** A sound database of the agent lane: every mandate keeps the claims it was
    issued with, names itself in them, and has spent and reserved within its
    budget; every price is an amount in cents.  Issuing, purchasing and a human's
    approval keep it sound, exceptions included. *)
From S2P Require Import Prelude PyTime Decimal Json JsonLogic JsonParse Models Canonical Jose RappiClient Prog AgentRules AgentGate AgentBudget AgentBudgetFacts AgentSpending AgentAudit AgentJws AgentWorld AgentMandate AgentMerchant AgentKernel AgentEscalation AgentBooks AgentFrame AgentColumns AgentSaga AgentPurchase.

(** An expiry of moderate size, when it can be read. *)
Definition exp_moderate (validity : pyval) : Prop := forall default e, moderate default ->
  (let? v := py_get_or validity "exp" (VInt default) in py_int v) = Ok e -> moderate e.

Section Sound.
Variable float_repr : string -> string.
Abbreviation total_of := (total_of float_repr).

(** What the claims column of mandate [j] holds. *)
Definition claims_kept (j : string) (row : mandate_row) : Prop := exists claims validity,
  mr_claims row = jtext claims /\ storable claims = true /\ py_item claims "jti" = Ok (VStr j) /\
  py_item claims "validity" = Ok validity /\ exp_moderate validity /\ utf8_text (mr_user_id row) = true /\ utf8_text (mr_agent_id row) = true.

Definition row_sound (j : string) (row : mandate_row) : Prop :=
  claims_kept j row /\ row_ok float_repr row /\ spent_of row + held row <= total_of row.

Definition sound (w : world) : Prop := map_Forall row_sound (mandates (w_db w)) /\ stock w.
Definition timely (w : world) : Prop := 0 <= clock_us (w_db w) < 2 ^ 90.

Lemma row_sound_amounts j row row' : amounts row = amounts row' -> row_sound j row' -> row_sound j row.
Proof using Type.
  intros Ha ((claims & validity & H1 & H2 & H3 & H4 & H5 & H6 & H7) & Hok & Hle).
  destruct (amounts_eq float_repr _ _ Ha) as (E1 & E2 & E3). split; [|split; [by eapply row_ok_amounts|by rewrite E1, E2, E3]].
  injection Ha as _ _ A3 _ A5 A6. exists claims, validity. rewrite A3, A5, A6. by split_and!.
Qed.

Lemma sound_table w : sound w -> table_ok float_repr (mandates (w_db w)).
Proof using Type. intros (Hm & _) j row Hj. by destruct (Hm j row Hj) as (_ & H & _). Qed.

Lemma sound_insert w j row : sound w -> row_sound j row -> sound (set_db (set_mandates (<[j := row]> (mandates (w_db w))) (w_db w)) w).
Proof using Type. intros [Hm Hst] Hr. split; [|done]. by apply map_Forall_insert_2. Qed.

Lemma sound_named w : sound w -> named float_repr (mandates (w_db w)).
Proof using Type.
  intros (Hm & _) j row claims Hj Hload. destruct (Hm j row Hj) as ((kept & _ & Hc & Hs & Hjti & _) & _).
  rewrite Hc, loads_jtext in Hload by done. by injection Hload as <-.
Qed.

Lemma sound_kept w w' : undisturbed w w' -> sound w /\ timely w -> sound w' /\ timely w'.
Proof using Type.
  intros (Hs & Hst & Hc) [[Hm Hstock] Ht]. split; [split; [|auto]|unfold timely; by rewrite Hc].
  intros j row' Hj. pose proof (Hs j) as Hb. rewrite Hj in Hb. destruct (mandates (w_db w) !! j) as [row|] eqn:E; [|done].
  eapply row_sound_amounts; [|by eapply Hm]. cbn in Hb. congruence.
Qed.

(** A change of the amounts that keeps each row of the list within its budget. *)
Lemma booked_sound f l m m' : map_Forall row_sound m -> booked f l m m' ->
  (forall j row, j ∈ l -> m !! j = Some row -> row_sound j row -> row_sound j (f row)) -> map_Forall row_sound m'.
Proof using Type.
  intros Hm Hb Hf j row' Hj. destruct (booked_lookup _ _ _ _ _ _ Hb Hj) as (row & Hr & Ha). pose proof (Hm j row Hr) as Hrow.
  eapply row_sound_amounts; [exact Ha|]. destruct (bool_decide (j ∈ l)) eqn:E; [|done]. apply bool_decide_eq_true in E. by apply Hf.
Qed.

Lemma same_sound m m' : map_Forall row_sound m -> same_books m m' -> map_Forall row_sound m'.
Proof using Type. intros Hm Hs. apply (booked_nil id) in Hs. eapply booked_sound; [done|exact Hs|]. by intros j row ?%not_elem_of_nil. Qed.

Lemma held_sound c j row : small c -> fits float_repr c row -> row_sound j row -> row_sound j (moved_by c row).
Proof using Type.
  intros Hc Hfit (Hk & Hok & Hle). destruct (room_small float_repr c row Hok Hc Hfit) as [Hs _].
  destruct (moved_amounts float_repr c row Hok Hs) as (E1 & E2 & E3 & E4). split; [done|]. split; [done|]. rewrite E1, E2, E3. unfold fits in Hfit. lia.
Qed.

Lemma spent_sound c j row : small c -> fits float_repr c row -> row_sound j row -> row_sound j (spent_by c row).
Proof using Type.
  intros Hc Hfit (Hk & Hok & Hle). destruct (room_small float_repr c row Hok Hc Hfit) as [_ Hs].
  assert (money float_repr (spent_by c row) (held row) (spent_of row + c) (total_of row)) as Hm.
  { destruct Hok as [H1 H2 H3 (B1 & B2 & B3)]. by split. }
  destruct (money_amounts float_repr _ _ _ _ Hm) as (E1 & E2 & E3). split; [done|]. split; [by eapply money_row_ok|].
  rewrite E1, E2, E3. unfold fits in Hfit. lia.
Qed.

(** ** Issuing *)

Record issue_ok (a : issue_args) : Prop := {
  io_texts : utf8_text (ia_user_id a) = true /\ utf8_text (ia_agent_id a) = true /\ utf8_text (ia_payment_method_ref a) = true /\
    utf8_text (ia_currency a) = true /\ utf8_text (ia_signed_with a) = true /\ utf8_text (from_option id EmptyString (ia_parent_jti a)) = true;
  io_values : storable (ia_agent_jwk a) = true /\ storable (ia_scope a) = true /\ storable (ia_conditions a) = true /\ storable (ia_validity a) = true;
  io_max_txn : forall v, py_get_or (ia_limits a) "max_txn" default_max_txn = Ok v -> storable v = true;
  io_per_txn : exists c, small c /\ (let? v := py_item (ia_limits a) "max_per_txn" in fmt v) = Ok (cents_text c);
  io_total : exists c, small c /\ (let? v := py_item (ia_limits a) "total_budget" in fmt v) = Ok (cents_text c);
  io_exp : exp_moderate (ia_validity a);
}.

Lemma issued_claims_sound a jti now claims : issue_ok a -> utf8_text jti = true -> 0 <= now < 2 ^ 90 -> issued_claims a jti now = Ok claims ->
  storable claims = true /\ py_item claims "jti" = Ok (VStr jti) /\ py_item claims "validity" = Ok (ia_validity a) /\
  py_item claims "cnf" = Ok (VDict [("jwk"%string, ia_agent_jwk a)]) /\ exists c, small c /\ total_budget claims = Ok (cents c).
Proof using Type.
  intros [(U1 & U2 & U3 & U4 & U5 & U6) (S1 & S2 & S3 & S4) Hmax (p & Hp & Hper) (t & Ht & Htotal) Hexp] Hj Hnow. unfold issued_claims.
  pose proof (Hexp (now + 30 * 24 * 3600)) as He. destruct (py_get_or (ia_validity a) "exp" _) as [v|]; [|done]. cbn [rbind] in *.
  destruct (py_int v) as [e|]; [|done]. cbn [rbind]. destruct (py_item (ia_limits a) "max_per_txn") as [per|]; [|done]. cbn [rbind] in *. rewrite Hper.
  cbn [rbind]. destruct (py_item (ia_limits a) "total_budget") as [total|]; [|done]. cbn [rbind] in *. rewrite Htotal. cbn [rbind].
  destruct (py_get_or (ia_limits a) "max_txn" default_max_txn) as [m|] eqn:Em; [|done]. cbn [rbind]. intros [= <-].
  assert (moderate e) as Hme by (apply (He e); [unfold moderate; lia|done]).
  assert (Hlimits : storable (VDict [("max_per_txn", VStr (cents_text p)); ("total_budget", VStr (cents_text t)); ("max_txn", m)]%string) = true).
  { apply storable_members; [done|]. repeat constructor; try done; [apply utf8_cents, Hp|apply utf8_cents, Ht|by apply Hmax]. }
  split; [|split_and!; [done|done|done|]].
  - assert (storable (VInt now) = true) as Hn by (apply storable_int; unfold moderate; lia).
    assert (storable (VDict [("jwk"%string, ia_agent_jwk a)]) = true) as Hj1 by (apply storable_members; [done|by repeat constructor]).
    assert (forall q, or_str (ia_parent_jti a) None = Some q -> utf8_text q = true) as Hq.
    { intros q. destruct (ia_parent_jti a) as [j|]; [|done]. cbn. destruct (truthy_str j); [|done]. by intros [= <-]. }
    pose proof (storable_int e Hme) as Hes. clear -U1 U2 U3 U4 U5 S1 S2 S3 S4 Hn Hj1 Hq Hes Hj Hlimits. destruct (or_str (ia_parent_jti a) None) as [q|].
    + specialize (Hq q eq_refl). apply storable_members; [done|]. by repeat constructor.
    + apply storable_members; [done|]. by repeat constructor.
  - exists t. split; [done|]. unfold total_budget. cbn. by apply dec_cents, small_coef.
Qed.

Section Issue.
Context `{Ed25519}.
Variables (uuid : nat -> string) (scrub_text : string -> string).
Hypothesis uuid_text : forall n, utf8_text (uuid n) = true.

(** How many mandates there are. *)
Abbreviation count := (fun w => size (mandates (w_db w))).

Lemma issued_row_sound a jti now claims token stamp : issue_ok a -> utf8_text jti = true -> 0 <= now < 2 ^ 90 -> issued_claims a jti now = Ok claims ->
  row_sound jti (issued_row a (jtext claims) token stamp).
Proof using Type.
  intros Ha Hj Hnow Hc. destruct (issued_claims_sound a jti now claims Ha Hj Hnow Hc) as (Hs & Hjti & Hv & _ & t & Ht & Htotal).
  assert (money float_repr (issued_row a (jtext claims) token stamp) 0 0 t) as Hm.
  { split; [done|done| |by split_and!; [split..|]]. unfold _parse_json. cbn. by rewrite loads_jtext. }
  destruct (money_amounts float_repr _ _ _ _ Hm) as (E1 & E2 & E3). split; [|split; [by eapply money_row_ok|]].
  - destruct Ha as [(U1 & U2 & _) _ _ _ _ He]. exists claims, (ia_validity a). by split_and!.
  - rewrite E1, E2, E3. unfold small in Ht. lia.
Qed.

Lemma now_moderate w n : timely w -> 0 <= now_ts (set_drawn n w) < 2 ^ 90.
Proof using Type.
  unfold timely, now_ts. cbn [w_db set_drawn]. generalize (clock_us (w_db w)). intros t Ht. split; [apply Z.div_pos; lia|].
  apply (Z.le_lt_trans _ t); [apply Z.div_le_upper_bound; lia|lia].
Qed.

Lemma issue_sound a w : issue_ok a -> sound w -> timely w ->
  ends (issue uuid scrub_text a) w (fun _ w' => sound w' /\ (count w' <= S (count w))%nat).
Proof using uuid_text.
  intros Ha Hw Ht. unfold issue. apply ends_atomic. unfold new_id, draw, sbind, ret. cbv beta iota. set (jti := ("mdt" +:+ "_" +:+ uuid (w_drawn w))%string).
  apply ends_atomic. unfold gets. set (now := now_ts _). assert (0 <= now < 2 ^ 90).
  { by apply now_moderate. }
  assert (utf8_text jti = true) as Hj by (unfold jti; rewrite !utf8_app by done; apply uuid_text).
  apply ends_plift; [intros claims Hclaims|intros e; by split; [|apply Nat.le_succ_diag_r]].
  lifted; [|by split; [|apply Nat.le_succ_diag_r]]. destruct (issued_claims_sound a jti now claims Ha Hj ltac:(done) Hclaims) as (Hs & _).
  rewrite dumps_jtext by done. cbn [plift pbind]. apply ends_bind. unfold ends at 1. rewrite run_on_db. cbn [atomic run_prog].
  unfold insert_mandate. cbn [w_db set_drawn]. destruct (mandates (w_db w) !! jti) eqn:E; cbn [fst snd]; [by split; [|apply Nat.le_succ_diag_r]|].
  assert (Hnew : sound (set_db (set_mandates (<[jti := issued_row a (jtext claims) a0 (now_iso (w_db w))]> (mandates (w_db w))) (w_db w)) (set_drawn (S (w_drawn w)) w))).
  { destruct Hw as [Hm Hst]. split; [|done]. cbn. apply map_Forall_insert_2; [|done]. by eapply issued_row_sound. }
  set (w1 := set_db _ _) in *. assert (count w1 = S (count w)) as Hcount by (cbn; by rewrite map_size_insert_None).
  apply (ends_does undisturbed); [calm|]. intros r w' Hu. split; [by destruct (sound_kept w1 w' Hu)|].
  destruct Hu as (Hsame & _). apply (booked_nil id) in Hsame. rewrite (size_booked _ _ _ _ Hsame). by rewrite Hcount.
Qed.
End Issue.
End Sound.
