(* ===== verification/AgentHistory.v ===== *)
(** Histories of the agent lane: mandates issued, purchases, human answers,
    timeouts, sweeps, revocations and price changes, one call after another, each
    run to its end or to its exception.  No mandate is ever lost, changes its claims
    or is over its budget. *)
From S2P Require Import Prelude PyTime Decimal Json JsonLogic JsonParse Models Canonical Jose RappiClient Prog AgentRules AgentGate AgentBudget AgentBudgetFacts AgentSpending AgentAudit AgentJws AgentWorld AgentMandate AgentMerchant AgentKernel AgentEscalation AgentBooks AgentFrame AgentColumns AgentSaga AgentPurchase AgentSound.

Section History.
Context `{Ed25519} `{JwsLibrary}.
Variables (uuid : nat -> string) (scrub_text float_repr : string -> string) (str_exn : exn -> string).
Variable registry : list (string * merchant_port).
Variables (token_key : Key) (token_kid : string) (capture_dry_run : bool).
Hypothesis honest : Forall (fun kp => HonestPort kp.2) registry.
Hypothesis uuid_text : forall n, utf8_text (uuid n) = true.
Abbreviation sound := (sound float_repr).
Abbreviation row_sound := (row_sound float_repr).
Abbreviation count := (fun w => size (mandates (w_db w))).

(** Every mandate is still there, with the claims it had. *)
Definition preserved (w w' : world) : Prop := forall j row, mandates (w_db w) !! j = Some row ->
  exists row', mandates (w_db w') !! j = Some row' /\ mr_claims row' = mr_claims row.

#[export] Instance preserved_preorder : PreOrder preserved.
Proof using Type.
  split; [by intros w j row Hj; exists row|]. intros w1 w2 w3 H12 H23 j row Hj. destruct (H12 j row Hj) as (row2 & H2 & E2).
  destruct (H23 j row2 H2) as (row3 & H3 & E3). exists row3. split; [done|congruence].
Qed.

Lemma booked_preserves f l w w' : (forall row, mr_claims (f row) = mr_claims row) -> booked f l (mandates (w_db w)) (mandates (w_db w')) -> preserved w w'.
Proof using Type.
  intros Hf Hb j row Hj. specialize (Hb j). rewrite Hj in Hb. destruct (mandates (w_db w') !! j) as [row'|]; destruct (bool_decide (j ∈ l)); cbn in Hb; try done.
  all: exists row'; split; [done|]; injection Hb as _ _ Hc _ _ _; by rewrite ?Hf in Hc.
Qed.
Lemma same_preserves w w' : same_books (mandates (w_db w)) (mandates (w_db w')) -> preserved w w'.
Proof using Type. intros Hs%(booked_nil id). by eapply booked_preserves. Qed.
Lemma undisturbed_preserves w w' : undisturbed w w' -> preserved w w'.
Proof using Type. intros [Hs _]. by apply same_preserves. Qed.

Lemma issue_preserves a w : preserved w (run_prog (issue uuid scrub_text a) w).2.
Proof using Type.
  apply does_run; [apply _|]. assert (forall A (p : prog world A), does undisturbed p -> does preserved p) as Hq.
  { intros A p Hp. apply (does_weaken _ undisturbed); [done|exact undisturbed_preserves]. }
  unfold issue. repeat (apply does_bind; [|intros ?]); try (by apply Hq; calm).
  apply (does_pzoom _ _ _ _ (fun d d' => forall j row, mandates d !! j = Some row -> mandates d' !! j = Some row)).
  - apply does_atomic. intros d. unfold insert_mandate. destruct (mandates d !! _) eqn:E; [done|]. intros j row Hj. cbn. rewrite lookup_insert_ne; [done|congruence].
  - intros w' d Hd j row Hj. exists row. split; [by apply Hd|done].
Qed.

Section Since.
Variable w0 : world.

(** Sound, with [n] mandates, those of [w0] among them. *)
Definition sound_with (n : nat) (w : world) : Prop := (sound w /\ timely w) /\ count w = n /\ preserved w0 w.
Definition grows (n : nat) {A} (_ : res A) (w : world) : Prop := sound w /\ (count w <= S n)%nat /\ preserved w0 w.

Lemma sound_with_kept n w w' : undisturbed w w' -> sound_with n w -> sound_with n w'.
Proof using Type.
  intros Hu (Hs & Hn & Hp). split; [by eapply sound_kept|]. split; [|etransitivity; [done|by apply undisturbed_preserves]].
  destruct Hu as (Hsame & _). apply (booked_nil id) in Hsame. by rewrite (size_booked _ _ _ _ Hsame).
Qed.
Lemma sound_with_grows n {A} (r : res A) w : sound_with n w -> grows n r w.
Proof using Type. intros ([Hs _] & Hn & Hp). split; [done|]. split; [cbn in *; lia|done]. Qed.

Section Calls.
Variable fuel : nat.
Abbreviation submit := (submit_purchase uuid scrub_text float_repr str_exn fuel registry token_key token_kid capture_dry_run).

Lemma room_sound f c j w w' : (forall j row, fits float_repr c row -> row_sound j row -> row_sound j (f row)) -> sound w ->
  room_for float_repr c (mandates (w_db w)) (family (mandates (w_db w)) fuel j) -> booked f (family (mandates (w_db w)) fuel j) (mandates (w_db w)) (mandates (w_db w')) ->
  (forall row, mr_claims (f row) = mr_claims row) -> stock w' -> sound w' /\ count w' = count w /\ preserved w w'.
Proof using Type.
  intros Hf [Hm _] Hroom Hb Hclaims Hst. split; [split; [|done]|split; [by apply size_booked in Hb|by eapply booked_preserves]]. eapply booked_sound; [exact Hm|exact Hb|].
  intros k row Hk Hr Hrow. destruct (Hroom k Hk) as (row2 & Hr2 & Hfit). rewrite Hr in Hr2. injection Hr2 as <-. by apply Hf.
Qed.

Lemma submit_sound a w : sound w -> (count w + 2 <= fuel)%nat -> ends (submit a) w (fun _ w' => sound w' /\ count w' = count w /\ preserved w w').
Proof using honest.
  intros Hs Hf. eapply ends_weaken.
  { apply (submit_books uuid scrub_text float_repr str_exn fuel registry token_key token_kid capture_dry_run honest a w); [by apply sound_table|by apply sound_named|apply Hs|done]. }
  assert (Hu : forall w', untouched (mandates (w_db w)) w' -> sound w' /\ count w' = count w /\ preserved w w').
  { intros w' [Hsame Hst]. split; [split; [|done]; by eapply same_sound; [apply Hs|]|]. split; [|by apply same_preserves]. apply (booked_nil id) in Hsame. by apply size_booked in Hsame. }
  assert (Hh : forall c w', small c -> holding float_repr fuel (mandates (w_db w)) (pa_mandate_jti a) c w' -> sound w' /\ count w' = count w /\ preserved w w').
  { intros c w' Hc (Hroom & Hb & Hst). eapply room_sound; [|done..]. intros. by apply held_sound. }
  assert (Hp : forall c w', small c -> paid float_repr fuel (mandates (w_db w)) (pa_mandate_jti a) c w' -> sound w' /\ count w' = count w /\ preserved w w').
  { intros c w' Hc (Hroom & Hb & Hst). eapply room_sound; [|done..]. intros. by apply spent_sound. }
  intros r w' Hr. destruct r as [[]|e]; cbn in Hr; try (by apply Hu).
  - destruct Hr as (c & (_ & _ & _ & _ & _ & _ & Hc) & Hpaid). by apply (Hp c).
  - destruct Hr as [Hr|(c & (_ & _ & _ & _ & _ & _ & Hc) & [Hr|Hr])]; [by apply Hu|by apply (Hh c)|by apply (Hp c)].
Qed.

(** ** A human's answer *)

Lemma derived_ok parent claims amount approver jti args validity : derived_args parent claims amount approver jti = Ok args ->
  storable claims = true -> py_item claims "validity" = Ok validity -> exp_moderate validity -> utf8_text (mr_user_id parent) = true ->
  utf8_text (mr_agent_id parent) = true -> utf8_text jti = true -> utf8_text approver = true -> cents_price (VStr amount) -> issue_ok args.
Proof using Type.
  intros Hargs Hs Hv He Hu Ha Hj Hap (c & Hc & Hf). unfold derived_args in Hargs. rewrite Hv in Hargs.
  destruct (py_item claims "cnf") as [cnf|] eqn:E1; [|done]. cbn [rbind] in Hargs. destruct (py_item cnf "jwk") as [jwk|] eqn:E2; [|done]. cbn [rbind] in Hargs.
  destruct (py_item claims "payment_method_ref") as [ref|] eqn:E3; [|done]. cbn [rbind] in Hargs. destruct ref; try done. cbn [sql_text rbind] in Hargs.
  destruct (py_item claims "scope") as [scope|] eqn:E4; [|done]. cbn [rbind] in Hargs. destruct (py_item claims "currency") as [cur|] eqn:E5; [|done].
  destruct cur; try done. cbn [sql_text rbind] in Hargs. injection Hargs as <-.
  pose proof (storable_item _ _ _ Hs E1) as S1. pose proof (storable_item _ _ _ S1 E2) as S2. pose proof (storable_item _ _ _ Hs E3) as S3.
  pose proof (storable_item _ _ _ Hs E4) as S4. pose proof (storable_item _ _ _ Hs E5) as S5. pose proof (storable_item _ _ _ Hs Hv) as S6.
  split; cbn [ia_user_id ia_agent_id ia_payment_method_ref ia_currency ia_signed_with ia_parent_jti ia_agent_jwk ia_scope ia_conditions ia_validity ia_limits].
  - by split_and!.
  - by split_and!.
  - by intros v [= <-].
  - exists c. by split.
  - exists c. by split.
  - done.
Qed.

Lemma issue_grows a n w : sound_with n w -> issue_ok a -> ends (issue uuid scrub_text a) w (grows n).
Proof using uuid_text.
  intros ([Hs Ht] & Hn & Hp) Ha. destruct (issue_sound float_repr uuid scrub_text uuid_text a w Ha Hs Ht) as [Hs' Hc].
  split; [done|]. split; [cbn in *; lia|]. etransitivity; [done|apply issue_preserves].
Qed.

Lemma derive_sound jti amount approver n w : sound_with n w -> utf8_text approver = true -> cents_price (VStr amount) ->
  ends (derive_mandate uuid scrub_text float_repr jti amount approver) w (grows n).
Proof using uuid_text.
  intros Hw Hap Hamount. unfold derive_mandate. apply ends_bind. unfold ends at 1. rewrite run_get_mandate. cbn [fst snd].
  destruct (mandates (w_db w) !! jti) as [row|] eqn:Er; [|by apply sound_with_grows]. destruct Hw as ([Hs Ht] & Hn & Hp0). pose proof (proj1 Hs jti row Er) as (Hk & _).
  destruct Hk as (claims & validity & Hc & Hst & Hj & Hv & He & Hu & Ha). rewrite Hc, loads_jtext by done. cbn [plift pbind].
  apply ends_plift; [intros args Hargs|intros e; by apply sound_with_grows].
  assert (issue_ok args) as Hargs'.
  { eapply derived_ok; [exact Hargs|done..| |done|done]. exact (storable_item _ _ _ Hst Hj). }
  apply ends_bind. eapply ends_weaken; [by apply (issue_grows args n w)|]. by intros [i|e] w' Hg.
Qed.
Abbreviation retry := (_retry_through_gate uuid scrub_text float_repr str_exn fuel registry token_key token_kid capture_dry_run).

Lemma submit_grows a n w : grows n (Ok tt) w -> (n + 3 <= fuel)%nat -> ends (submit a) w (grows n).
Proof using honest.
  intros (Hs & Hn & Hp) Hf. eapply ends_weaken; [apply submit_sound; [done|cbn in *; lia]|]. intros r w' (Hs' & Hc & Hp'). split; [done|].
  split; [cbn in *; lia|by etransitivity].
Qed.

Lemma retry_sound row approver sticky n w : sound_with n w -> utf8_text approver = true -> (n + 3 <= fuel)%nat ->
  ends (retry row approver sticky) w (grows n).
Proof using honest uuid_text.
  intros Hw Hap Hf. unfold _retry_through_gate. apply ends_atomic. unfold gets. cbn beta iota.
  destruct (w_purchases w !! es_purchase_id row) as [purchase|] eqn:Ep; [|by apply sound_with_grows].
  pose proof (proj2 (proj2 (proj1 (proj1 Hw))) _ _ Ep) as Hamount. cbn beta in Hamount.
  eapply ends_quiet; [apply (sound_with_kept n)|unfold find_request, stored_offer; calm|exact Hw| |intros; by apply sound_with_grows].
  intros [offer_id merchant_id] w1 Hw1. destruct offer_id; try (by apply sound_with_grows); apply ends_bind.
  all: apply (ends_weaken _ _ (grows n)); [destruct sticky; [by apply derive_sound|by apply sound_with_grows]|].
  all: intros [j|e] w2 Hg2; [|done].
  all: apply ends_plift; [intros ? _|intros; done]; apply ends_plift; [intros ? _|intros; done]; by apply submit_grows.
Qed.

Ltac onward n := eapply ends_quiet; [apply (sound_with_kept n)|unfold get_escalation; calm|eassumption|intros ? ? ?|intros; by apply sound_with_grows].

Lemma quiet_expire esc_id : does undisturbed (expire uuid scrub_text esc_id).
Proof using Type. unfold expire, get_escalation. calm. Qed.

Lemma resolve_sound esc_id decision approver channel sticky n w : sound_with n w -> utf8_text approver = true -> (n + 3 <= fuel)%nat ->
  ends (resolve uuid scrub_text float_repr str_exn fuel registry token_key token_kid capture_dry_run esc_id decision approver channel sticky) w (grows n).
Proof using honest uuid_text.
  intros Hw Hap Hf. unfold resolve.
  onward n. destruct (negb _); [by apply sound_with_grows|]. onward n. destruct (later _ _).
  { apply (ends_does undisturbed); [apply quiet_expire|]. intros r wx Hu. eapply sound_with_grows, sound_with_kept; [exact Hu|eassumption]. }
  onward n. apply ends_plift; [intros sig _|intros; by apply sound_with_grows]. do 2 onward n. destruct decision.
  - apply ends_bind. eapply ends_weaken; [by apply retry_sound|]. by intros [o|e] wx Hg.
  - onward n. by apply sound_with_grows.
Qed.

(** ** Calls *)

Inductive call : Type :=
| Issue (a : issue_args)
| Submit (a : purchase_args)
| Resolve (esc_id : string) (decision : answer) (approver channel : string) (sticky : bool)
| Expire (esc_id : string)
| Sweep (order : gset string -> list string)
| Revoke (jti actor reason : string)
| SetPrice (offer_id amount : string)
| Gate (token : string) (intent : pyval) (signature : string).

(** What is assumed of the caller's values: texts of Unicode, amounts in cents. *)
Definition call_ok (c : call) : Prop :=
  match c with
  | Issue a => issue_ok a
  | Resolve _ _ approver _ _ => utf8_text approver = true
  | SetPrice _ amount => cents_price (VStr amount)
  | _ => True
  end.

(** The database after a call, the exception of the call aside. *)
Definition run_call (c : call) (w : world) : world :=
  match c with
  | Issue a => (run_prog (issue uuid scrub_text a) w).2
  | Submit a => (run_prog (submit a) w).2
  | Resolve esc_id decision approver channel sticky =>
      (run_prog (resolve uuid scrub_text float_repr str_exn fuel registry token_key token_kid capture_dry_run esc_id decision approver channel sticky) w).2
  | Expire esc_id => (run_prog (expire uuid scrub_text esc_id) w).2
  | Sweep order => (run_prog (sweep uuid scrub_text order) w).2
  | Revoke jti actor reason => (run_prog (revoke uuid scrub_text float_repr jti actor reason) w).2
  | SetPrice offer_id amount => (run_prog (set_price uuid scrub_text offer_id amount) w).2
  | Gate token intent signature => (run_prog (verify uuid scrub_text float_repr str_exn fuel registry token intent signature false) w).2
  end.

Definition at_time (t : Z) (w : world) : world := set_db {| mandates := mandates (w_db w); clock_us := t |} w.
Definition history (calls : list (Z * call)) (w : world) : world := fold_left (fun w tc => run_call tc.2 (at_time tc.1 w)) calls w.

Lemma quiet_sweep order : does undisturbed (sweep uuid scrub_text order).
Proof using Type.
  unfold sweep. calm. match goal with |- does _ (expire_each _ _ ?l) => induction l as [|id l IH] end; cbn [expire_each]; calm; [apply quiet_expire|exact IH].
Qed.
Lemma quiet_revoke jti actor reason : does undisturbed (revoke uuid scrub_text float_repr jti actor reason).
Proof using Type. unfold revoke, delete_token. calm. Qed.
Lemma quiet_set_price offer_id amount : cents_price (VStr amount) -> does undisturbed (set_price uuid scrub_text offer_id amount).
Proof using Type.
  intros (c & Hc & Hf). unfold set_price. rewrite Hf. cbn [plift pbind]. calm. apply does_atomic. intros w. unfold update_at.
  destruct (w_offers w !! offer_id) as [row|]; [|done]. split; [done|]. split; [|done]. intros [Hp Hb]. split; [|done].
  apply map_Forall_insert_2; [|done]. exists c. split; [done|by apply fmt_fixed].
Qed.
Lemma quiet_checked {A} (check : prog world (verdict + A)) k : does undisturbed check -> (forall a, does undisturbed (k a)) -> does undisturbed (checked check k).
Proof using Type. intros Hc Hk. apply does_bind; [done|]. intros [v|a]; [exact I|apply Hk]. Qed.
Lemma quiet_gate token intent signature : does undisturbed (verify uuid scrub_text float_repr str_exn fuel registry token intent signature false).
Proof using honest.
  unfold verify. apply quiet_checked; [apply quiet_agent|]. intros [[claims jti] now]. apply quiet_checked; [apply quiet_mandate|]. intros row.
  apply quiet_checked; [by apply quiet_purchase|]. intros d. rewrite orb_true_r. calm.
Qed.

Lemma run_sound c n w : call_ok c -> sound_with n w -> (n + 3 <= fuel)%nat -> grows n (Ok tt) (run_call c w).
Proof using honest uuid_text.
  intros Hc Hw Hf. assert (Hq : forall A (p : prog world A), does undisturbed p -> grows n (Ok tt) (run_prog p w).2).
  { intros A p Hp. eapply sound_with_grows, sound_with_kept; [|exact Hw]. by apply does_run; [apply _|]. }
  assert (grows n (Ok tt) w) as Hg by (eapply sound_with_grows, Hw). destruct c; cbn [run_call call_ok] in *.
  - exact (issue_grows a n w Hw Hc).
  - exact (submit_grows a n w Hg Hf).
  - exact (resolve_sound esc_id decision approver channel sticky n w Hw Hc Hf).
  - apply Hq, quiet_expire.
  - apply Hq, quiet_sweep.
  - apply Hq, quiet_revoke.
  - by apply Hq, quiet_set_price.
  - apply Hq, quiet_gate.
Qed.

(** What a history of calls leaves, from where the mandates of [w0] are. *)
Lemma history_grows calls w : sound w -> preserved w0 w -> Forall (fun tc => 0 <= tc.1 < 2 ^ 90 /\ call_ok tc.2) calls ->
  (count w + length calls + 2 <= fuel)%nat ->
  sound (history calls w) /\ (count (history calls w) <= count w + length calls)%nat /\ preserved w0 (history calls w).
Proof using honest uuid_text.
  unfold history. revert w. induction calls as [|[t c] calls IH]; intros w Hs Hp Hok Hf; [split_and!; [done|cbn; lia|done]|].
  apply Forall_cons in Hok as [[Ht Hc] Hok]. cbn [fold_left fst snd length] in *.
  assert (sound_with (count w) (at_time t w)) as Hw by (split; [split|split]; done).
  destruct (run_sound c _ _ Hc Hw ltac:(lia)) as (Hs' & Hn & Hp'). destruct (IH (run_call c (at_time t w)) Hs' Hp' Hok) as (H1 & H2 & H3); [cbn in *; lia|].
  split; [exact H1|]. split; [cbn in *; lia|exact H3].
Qed.
End Calls.
End Since.

(** C2: In every history of calls, each mandate that there is at any moment is there
    at the end with the claims it had, and every mandate's claims name it and
    bound what it has spent and holds in reserve: whatever humans approve,
    whichever exceptions stop the calls, and whatever the merchants answer,
    provided they write to no mandate and sell at prices in cents
    ([HonestPort], which the local merchant is). *)
Theorem agent_budgets_hold fuel calls w : sound w -> Forall (fun tc => 0 <= tc.1 < 2 ^ 90 /\ call_ok tc.2) calls -> (count w + length calls + 2 <= fuel)%nat ->
  (forall before after j row0, calls = before ++ after -> mandates (w_db (history fuel before w)) !! j = Some row0 ->
     exists row, mandates (w_db (history fuel calls w)) !! j = Some row /\ mr_claims row = mr_claims row0) /\
  forall j row, mandates (w_db (history fuel calls w)) !! j = Some row -> exists claims spent reserved total,
    loads float_repr (mr_claims row) = Ok claims /\ py_item claims "jti" = Ok (VStr j) /\ total_budget claims = Ok (cents total) /\
    mr_spent_total row = cents_text spent /\ mr_reserved_amount row = cents_text reserved /\ 0 <= spent /\ 0 <= reserved /\ spent + reserved <= total.
Proof using honest uuid_text.
  intros Hs Hok Hf. split.
  - intros before after j row0 ->. rewrite length_app in Hf. apply Forall_app in Hok as [Hok1 Hok2].
    destruct (history_grows w fuel before w Hs) as (Hs1 & Hn1 & _); [done|done|cbn in *; lia|].
    destruct (history_grows (history fuel before w) fuel after (history fuel before w) Hs1) as (_ & _ & Hp); [done|done|cbn in *; lia|].
    unfold history at 2. rewrite fold_left_app. exact (Hp j row0).
  - intros j row Hj. destruct (history_grows w fuel calls w Hs) as ([Hm _] & _); [done..|].
    destruct (Hm j row Hj) as ((claims & validity & Hc & Hst & Hjti & _) & [H1 H2 H3 (B1 & B2 & _)] & Hle).
    assert (loads float_repr (mr_claims row) = Ok claims) as Hload by (rewrite Hc; by apply loads_jtext).
    unfold _parse_json in H3. rewrite Hload in H3. exists claims, (spent_of row), (held row), (total_of float_repr row).
    destruct B1, B2. by split_and!.
Qed.
End History.
