(* ===== verification/AgentApproval.v ===== *)
(** What an approval of the agent kernel stands for: every check the answer rests
    on held in the database the answer was made from, and what it recorded. *)
From S2P Require Import Prelude PyTime Decimal Json JsonLogic JsonParse Models Canonical Jose RappiClient Prog AgentRules AgentGate AgentBudget AgentBudgetFacts AgentSpending AgentAudit AgentJws AgentWorld AgentMandate AgentMerchant AgentKernel AgentBooks AgentFrame AgentSaga AgentPurchase.

(** A merchant whose offers are read without writing. *)
Class ReadingPort (port : merchant_port) : Prop := port_reads : forall offer_id w, (run_prog (port_get port offer_id) w).2 = w.

#[export] Instance local_reads `{Ed25519} uuid scrub_text float_repr str_exn : ReadingPort (LocalMerchant uuid scrub_text float_repr str_exn).
Proof.
  intros offer_id w. cbn. destruct (w_offers w !! offer_id) as [row|]; cbn; [|done]. destruct (of_active row); cbn; [|done].
  by destruct (fmt _).
Qed.

Section Approval.
Context `{Ed25519}.
Variables (uuid : nat -> string) (scrub_text float_repr : string -> string) (str_exn : exn -> string) (fuel : nat).
Variable registry : list (string * merchant_port).
Hypothesis readers : Forall (fun kp => ReadingPort kp.2) registry.

(** A check that goes on has found [F] true and has changed nothing. *)
Definition finds {A} (F : A -> Prop) (m : prog world (verdict + A)) (w : world) : Prop :=
  ends m w (fun r w' => match r with Ok (inr a) => w' = w /\ F a | _ => True end).

Lemma refuse_finds {A} (F : A -> Prop) jti code detail w w' : ends (refuse uuid scrub_text jti code detail) w'
  (fun r w' => match r with Ok (inr a) => w' = w /\ F a | _ => True end).
Proof using Type.
  eapply ends_weaken; [apply ends_yields, (refuse_yields uuid scrub_text (fun _ => False))|]. by intros [[v|a]|e] w2.
Qed.

Lemma finds_refuse {A} (F : A -> Prop) jti code detail w : finds F (refuse uuid scrub_text jti code detail) w.
Proof using Type. apply refuse_finds. Qed.

Lemma finds_plift {A B} (F : A -> Prop) (r : res B) k w : (forall b, r = Ok b -> finds F (k b) w) -> finds F (pbind (plift r) k) w.
Proof using Type. intros Hk. destruct r as [b|e]; [by apply Hk|done]. Qed.

Lemma finds_gets {A B} (F : A -> Prop) (f : world -> B) k w : finds F (k (f w)) w -> finds F (pbind (atomic (gets f)) k) w.
Proof using Type. intros Hk. by apply ends_atomic. Qed.

Lemma finds_row {A} (F : A -> Prop) j k w : finds F (k (mandates (w_db w) !! j)) w -> finds F (pbind (on_db (atomic (select_mandate j))) k) w.
Proof using Type. intros Hk. apply ends_bind. unfold ends. rewrite run_on_db. cbn. by destruct w. Qed.

(** *** Who asks *)

(** The agent's claims, and that it signed this intent now, for the first time. *)
Record agent_asks (token : string) (intent : pyval) (signature : string) (w : world) (claims : pyval) (jti : string) : Prop := {
  aa_token : verify_token float_repr token = Ok claims;
  aa_jti : py_item claims "jti" = Ok (VStr jti);
  aa_signature : exists key, agent_key_from_mandate claims = Ok key /\ Jws.verify_detached signature intent key = Ok tt;
  aa_names : py_get intent "mandate_jti" = Ok (VStr jti);
  aa_fresh : exists iat exp, (let? i := py_item intent "iat" in py_int i) = Ok iat /\ (let? e := py_item intent "exp" in py_int e) = Ok exp /\
    exp - iat <= INTENT_TTL_S /\ now_ts w <= exp;
  aa_new : exists ijti nonce, (let? j := py_item intent "jti" in sql_param j) = Ok ijti /\ (let? n := py_item intent "nonce" in sql_param n) = Ok nonce /\
    intent_seen ijti nonce w = false;
}.

Lemma agent_finds token intent signature w :
  finds (fun '(claims, jti, now) => now = now_ts w /\ agent_asks token intent signature w claims jti) (check_agent uuid scrub_text float_repr str_exn token intent signature) w.
Proof using Type.
  unfold check_agent. apply finds_plift. intros [claims|] Hclaims; [|apply finds_refuse].
  assert (verify_token float_repr token = Ok claims) as Htok.
  { unfold bad_signature in Hclaims. destruct (verify_token float_repr token) as [v|[]]; cbn in Hclaims; congruence. }
  apply finds_plift. intros signed Hsigned. apply finds_plift. intros jti Hjti. destruct signed as [u|]; [|apply finds_refuse].
  assert (exists key, agent_key_from_mandate claims = Ok key /\ Jws.verify_detached signature intent key = Ok tt) as Hkey.
  { unfold bad_signature in Hsigned. destruct (agent_key_from_mandate claims) as [key|[]]; cbn [rbind] in Hsigned; try done. exists key. split; [done|].
    by destruct (Jws.verify_detached signature intent key) as [[]|[]]. }
  apply finds_plift. intros named Hnamed. destruct (py_eq named (VStr jti)) eqn:Enamed; cbn [negb]; [|apply finds_refuse].
  apply finds_gets. apply finds_plift. intros exp Hexp. apply finds_plift. intros iat Hiat.
  destruct (Z.ltb_spec INTENT_TTL_S (exp - iat)); [apply finds_refuse|]. destruct (Z.ltb_spec exp (now_ts w)); [apply finds_refuse|].
  apply finds_plift. intros ijti Hijti. apply finds_plift. intros nonce Hnonce. apply finds_gets.
  destruct (intent_seen ijti nonce w) eqn:Eseen; [apply finds_refuse|]. split; [done|]. split; [done|]. split; try done.
  - destruct (py_item claims "jti") as [j|]; [|done]. cbn [rbind] in Hjti. destruct j; try done. by injection Hjti as ->.
  - rewrite Hnamed. destruct named; try done. cbn in Enamed. by apply String.eqb_eq in Enamed as ->.
  - by exists iat, exp.
  - by exists ijti, nonce.
Qed.

(** *** The mandate *)

Definition live_status (status : string) : Prop := status <> "revoked"%string /\ status <> "suspended"%string /\ status <> "exhausted"%string.

Record mandate_lives (claims : pyval) (jti : string) (w : world) (row : mandate_row) : Prop := {
  ml_row : mandates (w_db w) !! jti = Some row;
  ml_status : live_status (mr_status row);
  ml_ancestors : forall a arow, a ∈ tail (family (mandates (w_db w)) fuel jti) -> mandates (w_db w) !! a = Some arow -> mr_status arow = "active"%string;
  ml_window : exists nbf exp, (let? n := py_item claims "nbf" in py_int n) = Ok nbf /\ (let? e := py_item claims "exp" in py_int e) = Ok exp /\
    nbf <= now_ts w <= exp;
}.

Lemma ancestors_alive l w : ends (dead_ancestor l) w (fun r w' => w' = w /\
  (r = Ok None -> forall a arow, a ∈ l -> mandates (w_db w) !! a = Some arow -> mr_status arow = "active"%string)).
Proof using Type.
  induction l as [|j l IH]; cbn [dead_ancestor]; [split; [done|]; by intros _ a arow ?%not_elem_of_nil|].
  apply ends_bind. unfold ends at 1. rewrite run_on_db. cbn. replace (set_db (w_db w) w) with w by by destruct w.
  assert (Hcons : (forall arow, mandates (w_db w) !! j = Some arow -> mr_status arow = "active"%string) ->
    ends (dead_ancestor l) w (fun r w' => w' = w /\ (r = Ok None -> forall a arow, a ∈ j :: l -> mandates (w_db w) !! a = Some arow -> mr_status arow = "active"%string))).
  { intros Hj. eapply ends_weaken; [exact IH|]. intros r w' [Hw' Hl]. split; [done|]. intros Hr a arow [->|Ha]%elem_of_cons; [apply Hj|by apply Hl]. }
  destruct (mandates (w_db w) !! j) as [row|] eqn:E; [|by apply Hcons].
  destruct (String.eqb_spec (mr_status row) "active"); [apply Hcons; by intros arow [= <-]|]. by split.
Qed.

Lemma mandate_finds claims jti w : (size (mandates (w_db w)) + 2 <= fuel)%nat ->
  finds (mandate_lives claims jti w) (check_mandate uuid scrub_text fuel claims jti (now_ts w)) w.
Proof using Type.
  intros Hf. unfold check_mandate. apply finds_row. destruct (mandates (w_db w) !! jti) as [row|] eqn:Er; [|apply finds_refuse].
  destruct (String.eqb_spec (mr_status row) "revoked"); [apply finds_refuse|].
  destruct (run_chain fuel jti (w_db w) Hf) as [Hrun _]. apply ends_bind. unfold ends at 1. rewrite run_on_db, Hrun. cbn [fst snd].
  replace (set_db (w_db w) w) with w by by destruct w.
  apply ends_bind. eapply ends_weaken; [apply ancestors_alive|]. intros [dead|e] w1 [-> Hanc]; [|done].
  destruct dead as [[ancestor status]|]; [apply finds_refuse|].
  destruct (String.eqb_spec (mr_status row) "suspended"); [apply finds_refuse|]. destruct (String.eqb_spec (mr_status row) "exhausted"); [apply finds_refuse|].
  apply finds_plift. intros nbf Hnbf. destruct (Z.ltb_spec (now_ts w) nbf); [apply finds_refuse|].
  apply finds_plift. intros exp Hexp. destruct (Z.ltb_spec exp (now_ts w)).
  { apply ends_bind. unfold ends at 1. destruct (run_prog _ w) as [[b|e] w1]; [apply refuse_finds|done]. }
  split; [done|]. split; [done|done|by apply Hanc|]. exists nbf, exp. by split_and!.
Qed.

(** *** The offer *)

Record offer_stands (claims intent : pyval) (w : world) (row : mandate_row) (d : AgentDecision) : Prop := {
  os_offer : exists m port id offer, py_item intent "merchant_id" = Ok m /\ merchant_for registry m = Ok port /\ py_item intent "offer_id" = Ok (VStr id) /\
    (run_prog (port_get port id) w).1 = Ok (Some offer) /\
    (exists amount price text, py_item intent "amount" = Ok amount /\ fmt amount = Ok text /\ py_item offer "price" = Ok price /\ fmt price = Ok text) /\
    gate claims intent offer (spend_of row) (now_ts w) = Ok d;
}.

Lemma live_finds intent jti w :
  finds (fun found => exists m port id, py_item intent "merchant_id" = Ok m /\ merchant_for registry m = Ok port /\ py_item intent "offer_id" = Ok (VStr id) /\
    (run_prog (port_get port id) w).1 = Ok found) (live_offer uuid scrub_text registry intent jti) w.
Proof using readers.
  unfold live_offer. apply ends_catch. destruct (py_item intent "merchant_id") as [m|e] eqn:Em; cbn [rbind plift pbind]; [|destruct e; try done; apply refuse_finds].
  destruct (merchant_for registry m) as [port|e] eqn:Ep; cbn [plift pbind]; [|destruct e; try done; cbn; apply refuse_finds].
  destruct (py_item intent "offer_id") as [v|e] eqn:Ei; cbn [rbind plift pbind]; [|destruct e; try done; cbn; apply refuse_finds].
  destruct v; try done. cbn [sql_text plift pbind]. assert (ReadingPort port) as Hr by by eapply merchant_all.
  apply ends_bind. unfold ends at 1. rewrite Hr. destruct (run_prog (port_get port s) w).1 as [found|e] eqn:Eg; [|destruct e; try done; apply refuse_finds].
  split; [done|]. by exists m, port, s.
Qed.

Lemma purchase_finds claims intent jti row w :
  finds (offer_stands claims intent w row) (check_purchase uuid scrub_text registry claims intent jti row (now_ts w)) w.
Proof using readers.
  unfold check_purchase. apply ends_bind. eapply ends_weaken; [apply live_finds|]. intros [[v|found]|e] w1; [done| |done].
  intros [-> (m & port & id & Hm & Hp & Hi & Hg)]. destruct found as [offer|]; [|apply finds_refuse].
  apply finds_plift. intros amount Ha. apply finds_plift. intros asked Hasked. apply finds_plift. intros price Hprice. apply finds_plift. intros own Hown.
  destruct (String.eqb_spec asked own) as [->|]; cbn [negb]; [|apply finds_refuse].
  apply finds_plift. intros d Hd. split; [done|]. split. exists m, port, id, offer. split_and!; try done. by exists amount, price, own.
Qed.

(** *** What is recorded *)

(** The amount is held on the mandate and all its ancestors, each of them active
    and with room for it; the signed intent is kept, so that it is not accepted
    twice. *)
Record approval_recorded (c : Z) (intent : pyval) (signature jti : string) (w w' : world) : Prop := {
  ar_room : forall a, a ∈ family (mandates (w_db w)) fuel jti -> exists row, mandates (w_db w) !! a = Some row /\ has_room float_repr c row;
  ar_held : booked (moved_by c) (family (mandates (w_db w)) fuel jti) (mandates (w_db w)) (mandates (w_db w'));
  ar_intent : exists row, w_intents w' = w_intents w ++ [row] /\ pi_mandate_jti row = jti /\ py_item intent "jti" = Ok (VStr (pi_jti row)) /\
    (let? n := py_item intent "nonce" in sql_param n) = Ok (pi_nonce row) /\ pi_signature row = Some signature /\ pi_status row = "reserved"%string;
}.

Definition approves (v : verdict) : Prop := v_decision v = AgentApproved.

Lemma reserve_records c claims intent signature jti w : small c -> table_ok float_repr (mandates (w_db w)) -> (size (mandates (w_db w)) + 2 <= fuel)%nat ->
  py_item intent "amount" = Ok (VStr (cents_text c)) ->
  ends (reserve_intent uuid scrub_text float_repr fuel claims intent signature jti) w
    (fun r w' => match r with Ok v => approves v -> approval_recorded c intent signature jti w w' | Raise _ => True end).
Proof using Type.
  intros Hc Hok Hf Hamount. unfold reserve_intent. rewrite Hamount. cbn [plift pbind py_str].
  destruct (reserve_run float_repr fuel jti c (w_db w) Hc Hok Hf) as (b & d' & Hrun & Hclock & Hbk & Hroom).
  apply ends_bind. unfold ends at 1. rewrite run_on_db, Hrun. cbn [fst snd]. destruct b; cbn [negb].
  2: { eapply ends_weaken; [apply ends_yields, refused_yields|]. intros [v|e] w2; [|done]. intros Hv. unfold approves. by rewrite Hv. }
  apply ends_atomic. unfold AgentWorld.new_id, draw, sbind, ret. cbv beta iota. set (rsv := ("rsv" +:+ _)%string). set (w1 := set_drawn _ _).
  apply ends_plift; [intros ijti Hijti|done]. apply ends_plift; [intros agent Hagent|done]. apply ends_plift; [intros nonce Hnonce|done].
  apply ends_plift; [intros text Htext|done]. apply ends_atomic. unfold insert_intent. destruct (existsb _ _); [done|]. set (w2 := set_intents _ _).
  apply ends_plift; [intros offer_id Hoffer|done]. apply ends_atomic.
  destruct (append_writes uuid scrub_text (event "purchase.verified" [("intent_jti", VStr ijti); ("reservation_id", VStr rsv); ("amount", VStr (cents_text c)); ("offer_id", offer_id)]%string
    None (Some agent) None (Some jti)) w2) as (t & n & Hw). destruct (append_event _ _ _ w2) as [[r|e] w3]; [|done]. cbn in Hw. subst w3. intros _. split; cbn.
  - by apply Hroom.
  - exact Hbk.
  - eexists. split; [done|]. split_and!; try done. cbn. destruct (py_item intent "jti") as [v|]; [|done]. cbn [rbind] in Hijti. destruct v; try done. by injection Hijti as ->.
Qed.

(** ** The approval *)

Lemma checked_stands {A} (F : A -> Prop) (check : prog world (verdict + A)) k w Q : finds F check w -> yields (goes_on (fun _ => True)) check ->
  (forall v w', v_decision v = AgentRejected -> Q (Ok v) w') -> (forall e w', Q (Raise e) w') -> (forall a, F a -> ends (k a) w Q) -> ends (checked check k) w Q.
Proof using Type.
  intros Hf Hy Hv He Hk. unfold checked. apply ends_bind. pose proof (ends_yields _ _ w Hy) as Hr. unfold finds, ends in *.
  destruct (run_prog check w) as [[[v|a]|e] w']; cbn in *; [by apply Hv| |by apply He]. destruct Hf as [-> Ha]. by apply Hk.
Qed.

(** C4: An approval stands for every check: the token is the issuer's and names the
    mandate, the agent it was issued to signed this intent, which is fresh and was
    never seen; the mandate and all its ancestors are alive and within their
    window; the merchant sells the offer at the amount of the intent; the gate
    approves it; and the amount is held on the whole ancestry, each mandate of
    which was active and had room, and the intent is kept, so that it is refused
    from now on. *)
Theorem approval_stands c token intent signature w v w' : small c -> table_ok float_repr (mandates (w_db w)) -> (size (mandates (w_db w)) + 2 <= fuel)%nat ->
  py_item intent "amount" = Ok (VStr (cents_text c)) ->
  run_prog (verify uuid scrub_text float_repr str_exn fuel registry token intent signature true) w = (Ok v, w') -> approves v ->
  exists claims jti row d, agent_asks token intent signature w claims jti /\ mandate_lives claims jti w row /\
    offer_stands claims intent w row d /\ d_decision d = AgentApproved /\ approval_recorded c intent signature jti w w'.
Proof using readers.
  intros Hc Hok Hf Hamount Hrun Hv. set (stands := fun (r : res verdict) (w2 : world) => match r with
    | Ok v => approves v -> exists claims jti row d, agent_asks token intent signature w claims jti /\ mandate_lives claims jti w row /\
        offer_stands claims intent w row d /\ d_decision d = AgentApproved /\ approval_recorded c intent signature jti w w2
    | Raise _ => True end).
  enough (ends (verify uuid scrub_text float_repr str_exn fuel registry token intent signature true) w stands) as Hs.
  { unfold ends in Hs. rewrite Hrun in Hs. by apply Hs. }
  clear Hrun Hv v w'. unfold verify. assert (Hno : forall (v : verdict) (P : Prop), v_decision v = AgentRejected -> approves v -> P) by (intros v P Hv Ha; unfold approves in Ha; congruence).
  eapply checked_stands; [apply agent_finds|eapply yields_weaken, agent_yields; by intros []|intros v w2 Hv Ha; by eapply Hno|done|].
  intros [[claims jti] now] [-> Hagent].
  eapply checked_stands; [by apply mandate_finds|apply mandate_yields|intros v w2 Hv Ha; by eapply Hno|done|]. intros row Hrow.
  eapply checked_stands; [apply purchase_finds|apply purchase_yields|intros v w2 Hv Ha; by eapply Hno|done|]. intros d Hd.
  destruct (is_approval d) eqn:Ed; cbn [negb orb].
  - eapply ends_weaken; [by apply (reserve_records c)|]. intros [v|e] w2; [|done]. intros Hrec Hv. exists claims, jti, row, d. split_and!; try done; [|by apply Hrec].
    unfold is_approval in Ed. by destruct (d_decision d).
  - eapply ends_weaken; [apply (ends_yields (fun v => v_decision v = d_decision d))|].
    + apply yields_plift; intros ? _. apply yields_plift; intros ? _. by apply yields_bind; intros ?.
    + intros [v|e] w2; [|done]. intros Hv Ha. unfold approves in Ha. unfold is_approval in Ed. rewrite Hv in Ha. by rewrite Ha in Ed.
Qed.
End Approval.
