(* ===== verification/AgentTimeout.v ===== *)
(** Escalations nobody answers in time: silence denies. *)
From S2P Require Import Prelude PyTime Decimal Json JsonLogic JsonParse Models Canonical Jose RappiClient Prog AgentRules AgentBudget AgentAudit AgentJws AgentWorld AgentMandate AgentMerchant AgentKernel AgentEscalation AgentAuditFacts AgentFrame.

Section Timeout.
Context `{Ed25519} `{JwsLibrary}.
Variables (uuid : nat -> string) (scrub_text float_repr : string -> string) (str_exn : exn -> string) (fuel : nat).
Variable registry : list (string * merchant_port).
Variables (token_key : Key) (token_kid : string) (capture_dry_run : bool).
Abbreviation expire := (expire uuid scrub_text).
Abbreviation resolve := (resolve uuid scrub_text float_repr str_exn fuel registry token_key token_kid capture_dry_run).

(** Pending past its deadline. *)
Definition is_overdue (w : world) (row : escalation_row) : bool := is_pending row && later (stamp w) (es_timeout_at row).

(** What an expiry writes: the escalation and its purchase, and one event. *)
Definition expired_world (esc_id : string) (row : escalation_row) (w : world) : world :=
  (set_purchase (es_purchase_id row) "rejected" (Some "ESCALATION_TIMEOUT_DENIED"%string)
    (set_escalations (<[esc_id := expired_row row]> (w_escalations w)) w)).2.

Definition expired_event (esc_id : string) (row : escalation_row) : event_args :=
  event "escalation.expired"
    [("escalation_id", VStr esc_id); ("purchase_id", VStr (es_purchase_id row)); ("reason_code", VStr "ESCALATION_TIMEOUT_DENIED")]%string
    None None (es_run_id row) (Some (es_mandate_jti row)).

Lemma expire_step esc_id row w : w_escalations w !! esc_id = Some row -> is_pending row = true ->
  run_prog (expire esc_id) w = (match (append_event uuid scrub_text (expired_event esc_id row) (expired_world esc_id row w)).1 with Ok _ => Ok TimedOut | Raise e => Raise e end,
                                (append_event uuid scrub_text (expired_event esc_id row) (expired_world esc_id row w)).2).
Proof using Type.
  intros Hrow Hp. unfold AgentEscalation.expire, get_escalation. cbn [pbind atomic run_prog gets]. rewrite Hrow. cbn [pret pbind]. rewrite Hp. cbn [negb pbind atomic run_prog].
  unfold write_escalation, update_at at 1. rewrite Hrow. cbn [pbind atomic run_prog].
  assert (Hsp : forall x, set_purchase (es_purchase_id row) "rejected" (Some "ESCALATION_TIMEOUT_DENIED"%string) x
     = (Ok (match w_purchases x !! es_purchase_id row with Some _ => 1 | None => 0 end),
        (set_purchase (es_purchase_id row) "rejected" (Some "ESCALATION_TIMEOUT_DENIED"%string) x).2)).
  { intros x. unfold set_purchase, update_at. by destruct (w_purchases x !! _). }
  rewrite Hsp. cbn [run_prog pbind]. fold (expired_world esc_id row w) (expired_event esc_id row).
  by destruct (append_event uuid scrub_text (expired_event esc_id row) _) as [[r|e] w2].
Qed.

Lemma expire_run esc_id row w : w_escalations w !! esc_id = Some row -> is_pending row = true ->
  exists t n e, run_prog (expire esc_id) w = (match e with None => Ok TimedOut | Some e => Raise e end, set_trail t (set_drawn n (expired_world esc_id row w))).
Proof using Type.
  intros Hrow Hp. rewrite (expire_step esc_id row) by done.
  destruct (append_writes uuid scrub_text (expired_event esc_id row) (expired_world esc_id row w)) as (t & n & ->).
  exists t, n. destruct (append_event _ _ _ _).1 as [r|e]; [by exists None|by exists (Some e)].
Qed.

Lemma expired_same esc_id row w : w_db (expired_world esc_id row w) = w_db w /\ w_escalations (expired_world esc_id row w) = <[esc_id := expired_row row]> (w_escalations w) /\
  w_idempotency (expired_world esc_id row w) = w_idempotency w /\ w_instruments (expired_world esc_id row w) = w_instruments w /\ w_intents (expired_world esc_id row w) = w_intents w /\
  w_purchases (expired_world esc_id row w) !! es_purchase_id row =
    with_status "rejected" (Some "ESCALATION_TIMEOUT_DENIED"%string) (stamp w) <$> w_purchases w !! es_purchase_id row.
Proof using Type.
  unfold expired_world, set_purchase, update_at. cbn [w_purchases set_escalations]. destruct (w_purchases w !! es_purchase_id row) as [p|] eqn:E; cbn; split_and!; try done.
  by rewrite lookup_insert_eq.
Qed.

Lemma expired_purchases esc_id row w p : w_purchases (expired_world esc_id row w) !! p =
  if decide (p = es_purchase_id row) then with_status "rejected" (Some "ESCALATION_TIMEOUT_DENIED"%string) (stamp w) <$> w_purchases w !! p else w_purchases w !! p.
Proof using Type.
  unfold expired_world, set_purchase, update_at. cbn [w_purchases set_escalations]. destruct (decide _) as [->|Hne].
  - destruct (w_purchases w !! es_purchase_id row) as [q|] eqn:E; cbn; [by rewrite lookup_insert_eq|done].
  - destruct (w_purchases w !! es_purchase_id row) as [q|]; cbn; [by rewrite lookup_insert_ne|done].
Qed.

Lemma resolve_overdue esc_id decision approver channel sticky row w : w_escalations w !! esc_id = Some row -> is_overdue w row = true ->
  run_prog (resolve esc_id decision approver channel sticky) w = run_prog (expire esc_id) w.
Proof using Type.
  intros Hrow [Hp Hl]%andb_prop. unfold AgentEscalation.resolve, get_escalation. cbn [pbind atomic run_prog gets]. rewrite Hrow. cbn [pret pbind].
  rewrite Hp. cbn [negb pbind atomic run_prog]. unfold gets at 1. by rewrite Hl.
Qed.

Lemma resolve_again esc_id decision approver channel sticky row w : w_escalations w !! esc_id = Some row -> is_pending row = false ->
  run_prog (resolve esc_id decision approver channel sticky) w = (Ok (AlreadyResolved (es_status row) (es_decision row)), w).
Proof using Type. intros Hrow Hp. unfold AgentEscalation.resolve, get_escalation. cbn [pbind atomic run_prog gets]. rewrite Hrow. cbn [pret pbind]. by rewrite Hp. Qed.

(** C23: Silence denies: an answer after the deadline, an approval as much as a
    rejection, expires the escalation and rejects its purchase; nothing is
    reserved, spent or charged, and every answer after it finds the escalation
    closed. *)
Theorem silence_denies esc_id decision approver channel sticky row w : w_escalations w !! esc_id = Some row -> is_overdue w row = true ->
  exists r w', run_prog (resolve esc_id decision approver channel sticky) w = (r, w') /\ (r = Ok TimedOut \/ exists e, r = Raise e) /\
    w_escalations w' !! esc_id = Some (expired_row row) /\
    w_purchases w' !! es_purchase_id row = with_status "rejected" (Some "ESCALATION_TIMEOUT_DENIED"%string) (stamp w) <$> w_purchases w !! es_purchase_id row /\
    w_db w' = w_db w /\ w_intents w' = w_intents w /\ w_instruments w' = w_instruments w /\ w_idempotency w' = w_idempotency w /\
    forall decision approver channel sticky,
      run_prog (resolve esc_id decision approver channel sticky) w' = (Ok (AlreadyResolved "expired" (Some "TIMEOUT"%string)), w').
Proof using Type.
  intros Hrow Ho. assert (is_pending row = true) as Hp by (by apply andb_prop in Ho as [Hp _]).
  destruct (expire_run esc_id row w Hrow Hp) as (t & n & e & Hrun). destruct (expired_same esc_id row w) as (H1 & H2 & H3 & H4 & H5 & H6).
  eexists _, _. rewrite (resolve_overdue _ _ _ _ _ row) by done. split; [exact Hrun|]. split; [destruct e; [right; by eexists|by left]|].
  cbn [w_escalations w_purchases w_db w_intents w_instruments w_idempotency set_trail set_drawn]. rewrite H2, lookup_insert_eq. split_and!; try done.
  intros d2 a2 c2 s2. by rewrite (resolve_again _ _ _ _ _ (expired_row row)) by (cbn; rewrite ?H2, ?lookup_insert_eq; done).
Qed.

(** ** The sweep *)

(** A trail [k] events can be appended to: the next identifiers are distinct and
    fresh, and no chain counts fewer events than it has. *)
Record open_trail (k : nat) (w : world) : Prop := {
  fresh_ids : forall n r, (w_drawn w <= n < w_drawn w + k)%nat -> r ∈ tr_events (w_trail w) -> er_event_id r <> ("evt" +:+ "_" +:+ uuid n)%string;
  distinct_ids : forall i j, (w_drawn w <= i < w_drawn w + k)%nat -> (w_drawn w <= j < w_drawn w + k)%nat -> uuid i = uuid j -> i = j;
  counted_rows : forall r, r ∈ tr_events (w_trail w) -> exists c, tr_chains (w_trail w) !! er_chain_key r = Some c /\ er_chain_seq r <= cr_length c;
}.

Lemma append_succeeds k a w : plain (clean_payload scrub_text a) = true -> open_trail (S k) w ->
  (exists ref, (append_event uuid scrub_text a w).1 = Ok ref) /\ open_trail k (append_event uuid scrub_text a w).2.
Proof using Type.
  intros Hp [Hf Hd Hc]. unfold append_event, new_id, draw, zoom, sbind, ret, get. cbn [w_trail set_drawn w_drawn].
  change ("evt" +:+ String.String "_" (uuid (w_drawn w)))%string with ("evt" +:+ "_" +:+ uuid (w_drawn w))%string.
  set (id := ("evt" +:+ "_" +:+ uuid (w_drawn w))%string). set (now := stamp _). set (seq := Z.of_nat _). set (t := w_trail w).
  unfold append_transaction, rollback_on_raise, _digest, sbind, lift, get. set (key := event_key a). set (head := override (tr_chains t !! key) _).
  destruct (text_of_plain (event_body id (ea_type a) (ea_actor a) (ea_agent_id a) (ea_run_id a) (ea_mandate_jti a) (clean_payload scrub_text a) now key)) as [body ->];
    [by rewrite body_plain|]. destruct (text_of_plain (clean_payload scrub_text a) Hp) as [text ->]. cbn [rbind fst snd].
  assert (unique_event key id (cr_length head + 1) (tr_events t) = true) as ->.
  { unfold unique_event. apply forallb_forall. intros r Hr%list_elem_of_In. destruct (String.eqb_spec (er_event_id r) id) as [He|_]; [by destruct (Hf (w_drawn w) r); [lia| |]|].
    destruct (String.eqb_spec (er_chain_key r) key) as [Hk|_]; [|done]. destruct (Hc r Hr) as (c & Hc' & Hle). cbn.
    assert (head = c) as -> by (unfold head, t; by rewrite <- Hk, Hc'). apply negb_true_iff, Z.eqb_neq. lia. }
  cbn. split; [by eexists|]. split; cbn [w_trail set_trail set_drawn w_drawn tr_events tr_chains].
  - intros n r Hn [Hr| ->%list_elem_of_singleton]%elem_of_app; [apply Hf; [lia|done]|]. cbn. intros He. apply (string_app_inj "evt_" "evt_") in He as [_ He]; [|done].
    apply Hd in He; lia.
  - intros i j Hi Hj. apply Hd; lia.
  - intros r [Hr| ->%list_elem_of_singleton]%elem_of_app; cbn.
    + destruct (Hc r Hr) as (c & Hc' & Hle). destruct (decide (er_chain_key r = key)) as [Hk|Hk].
      * rewrite Hk, lookup_insert_eq. eexists. split; [done|]. cbn. assert (head = c) as -> by (unfold head, t; by rewrite <- Hk, Hc'). lia.
      * rewrite lookup_insert_ne by done. by exists c.
    + rewrite lookup_insert_eq. eexists. split; [done|]. cbn. lia.
Qed.

(** The purchases a list of escalations is about. *)
Definition purchases_of (m : gmap string escalation_row) (ids : list string) : list string := omap (fun id => es_purchase_id <$> m !! id) ids.

Definition swept (now : string) (ids : list string) (w w' : world) : Prop :=
  w_db w' = w_db w /\ w_intents w' = w_intents w /\ w_idempotency w' = w_idempotency w /\
  (forall id, w_escalations w' !! id = if decide (id ∈ ids) then expired_row <$> w_escalations w !! id else w_escalations w !! id) /\
  (forall p, w_purchases w' !! p = if decide (p ∈ purchases_of (w_escalations w) ids)
     then with_status "rejected" (Some "ESCALATION_TIMEOUT_DENIED"%string) now <$> w_purchases w !! p else w_purchases w !! p).

Lemma purchases_of_cons m id row ids : m !! id = Some row -> purchases_of m (id :: ids) = es_purchase_id row :: purchases_of m ids.
Proof using Type. intros Hm. unfold purchases_of. cbn. by rewrite Hm. Qed.

Lemma purchases_of_insert m id row ids : id ∉ ids -> purchases_of (<[id := row]> m) ids = purchases_of m ids.
Proof using Type.
  unfold purchases_of. induction ids as [|k ids IH]; [done|]. intros [Hne Hn]%not_elem_of_cons. cbn. by rewrite lookup_insert_ne, IH.
Qed.

Lemma rejected_twice reason now row : with_status "rejected" reason now (with_status "rejected" reason now row) = with_status "rejected" reason now row.
Proof using Type. done. Qed.

Lemma expire_each_exact ids w : NoDup ids -> open_trail (length ids) w ->
  (forall id, id ∈ ids -> exists row, w_escalations w !! id = Some row /\ is_pending row = true) ->
  exists w', run_prog (expire_each uuid scrub_text ids) w = (Ok (map (fun _ => TimedOut) ids), w') /\ swept (stamp w) ids w w'.
Proof using Type.
  intros Hnd. revert w. induction Hnd as [|id ids Hid Hnd IH]; intros w Ho Hp; cbn [expire_each map].
  { exists w. split; [done|]. split_and!; done. }
  destruct (Hp id) as (row & Hrow & Hpr); [by left|]. rewrite run_pbind. unfold sbind. rewrite (expire_step id row) by done.
  destruct (append_succeeds (length ids) (expired_event id row) (expired_world id row w) eq_refl) as [[ref Hr] Ho1];
    [destruct Ho; unfold expired_world, set_purchase, update_at; destruct (w_purchases _ !! _); by split|].
  destruct (append_writes uuid scrub_text (expired_event id row) (expired_world id row w)) as (t & n & Hw). destruct (append_event uuid scrub_text _ _) as [r1 w1]. cbn in Hr, Ho1, Hw. subst r1.
  destruct (expired_same id row w) as (H1 & H2 & H3 & H4 & H5 & H6). assert (w_escalations w1 = <[id := expired_row row]> (w_escalations w)) as He by (by rewrite Hw).
  assert (w_db w1 = w_db w) as Hdb by (by rewrite Hw).
  destruct (IH w1 Ho1) as (w2 & Hrun & S1 & S2 & S3 & S4 & S5).
  { intros k Hk. destruct (Hp k) as (krow & Hkr & Hkp); [by right|]. exists krow. split; [|done]. rewrite He, lookup_insert_ne; [done|]. by intros <-. }
  cbn [fst snd]. rewrite run_pbind. unfold sbind. rewrite Hrun. cbn. exists w2. split; [done|]. split_and!.
  - congruence.
  - by rewrite S2, Hw.
  - by rewrite S3, Hw.
  - intros k. rewrite S4, He. destruct (decide (k = id)) as [->|Hne].
    + rewrite lookup_insert_eq, decide_False, decide_True, Hrow by (done || by left). done.
    + rewrite lookup_insert_ne by done. destruct (decide (k ∈ ids)); [by rewrite decide_True by (by right)|].
      rewrite decide_False; [done|]. by apply not_elem_of_cons.
  - intros p. assert (w_purchases w1 = w_purchases (expired_world id row w)) as Hpu by (by rewrite Hw).
    assert (stamp w1 = stamp w) as Hnow by (unfold stamp; by rewrite Hdb).
    rewrite S5, Hnow, He, purchases_of_insert, Hpu, expired_purchases, (purchases_of_cons _ id row) by done.
    destruct (decide (p = es_purchase_id row)) as [->|Hne]; destruct (decide (_ ∈ purchases_of _ ids)) as [Hq|Hq].
    + rewrite decide_True by (by left). by destruct (w_purchases w !! _).
    + by rewrite decide_True by (by left).
    + by rewrite decide_True by (by right).
    + rewrite decide_False; [done|]. by apply not_elem_of_cons.
Qed.

Lemma overdue_in order id w : (forall s, order s ≡ₚ elements s) ->
  id ∈ overdue order w <-> exists row, w_escalations w !! id = Some row /\ is_overdue w row = true.
Proof using Type.
  intros Horder. unfold overdue. rewrite list_elem_of_In, filter_In, <- list_elem_of_In, (Horder _), elem_of_elements, elem_of_dom.
  destruct (w_escalations w !! id) as [row|]; split.
  - intros [_ Ho]. by exists row.
  - intros (? & [= <-] & Ho). split; [by eexists|exact Ho].
  - by intros [[? [=]] _].
  - by intros (? & [=] & _).
Qed.

(** C38: A sweep ends, expires exactly the escalations pending past their deadline,
    rejects exactly the purchases they were about, and reserves, spends and
    charges nothing; none is left overdue. *)
Theorem sweep_expires_overdue order w : (forall s, order s ≡ₚ elements s) -> open_trail (length (overdue order w)) w ->
  exists rs w', run_prog (sweep uuid scrub_text order) w = (Ok rs, w') /\ Forall (eq TimedOut) rs /\ length rs = length (overdue order w) /\
    w_db w' = w_db w /\ w_intents w' = w_intents w /\ w_idempotency w' = w_idempotency w /\
    w_escalations w' = (fun row => if is_overdue w row then expired_row row else row) <$> w_escalations w /\
    (forall p, w_purchases w' !! p = if decide (p ∈ purchases_of (w_escalations w) (overdue order w))
       then with_status "rejected" (Some "ESCALATION_TIMEOUT_DENIED"%string) (stamp w) <$> w_purchases w !! p else w_purchases w !! p) /\
    forall id row, w_escalations w' !! id = Some row -> is_overdue w' row = false.
Proof using Type.
  intros Horder Ho. unfold sweep. cbn [pbind atomic run_prog gets]. pose proof (fun id => overdue_in order id w Horder) as Hin.
  assert (NoDup (overdue order w)) as Hnd.
  { unfold overdue. apply NoDup_ListNoDup, List.NoDup_filter, NoDup_ListNoDup. rewrite (Horder _). apply NoDup_elements. }
  destruct (expire_each_exact (overdue order w) w Hnd Ho) as (w' & Hrun & S1 & S2 & S3 & S4 & S5).
  { intros id (row & Hr & Hp)%Hin. exists row. by apply andb_prop in Hp as [Hp _]. }
  assert (w_escalations w' = (fun row => if is_overdue w row then expired_row row else row) <$> w_escalations w) as He.
  { apply map_eq. intros id. rewrite S4, lookup_fmap. destruct (w_escalations w !! id) as [row|] eqn:Er; [|by destruct (decide _)]. cbn.
    destruct (decide _) as [(row' & Hr & Hp)%Hin|Hn]; [assert (row' = row) as -> by congruence; by rewrite Hp|].
    destruct (is_overdue w row) eqn:E; [|done]. exfalso. apply Hn, Hin. by exists row. }
  eexists _, w'. split; [exact Hrun|]. split; [apply Forall_forall; by intros ? (? & <- & _)%list_elem_of_fmap|]. split; [apply length_map|]. split_and!; try done.
  intros id row. rewrite He, lookup_fmap. destruct (w_escalations w !! id) as [row0|]; [|done]. intros [= <-].
  assert (is_overdue w' = is_overdue w) as -> by (unfold is_overdue, stamp; by rewrite S1). by destruct (is_overdue w row0) eqn:E; [|].
Qed.

End Timeout.
