(* ===== verification/AgentMandateFacts.v ===== *)
(** Mandates and the rail, one call at a time: an issued mandate verifies
    offline and is kept as it was signed; a capture repeats under its request
    id. *)
From S2P Require Import Prelude PyTime Decimal Json JsonLogic JsonParse Models Canonical Jose RappiClient Prog AgentRules AgentGate AgentBudget AgentBudgetFacts AgentSpending AgentAudit AgentJws AgentWorld AgentMandate AgentFrame AgentColumns AgentSound.

Section MandateFacts.
Context `{Ed25519}.
Variables (uuid : nat -> string) (scrub_text float_repr : string -> string).
Hypothesis uuid_text : forall n, utf8_text (uuid n) = true.

(** The published key set holds the issuer's key. *)
Lemma verify_token_compact token : verify_token float_repr token = Jws.verify_compact float_repr token (public_key issuer_key).
Proof using Type. unfold verify_token, jwks. cbn [py_item assoc String.eqb Ascii.eqb Bool.eqb rbind]. by rewrite Jws.jwk_back. Qed.

Lemma jwk_back_sorted pub kid : Jws.jwk_to_public (sort_value (Jws.public_jwk pub kid)) = Ok pub.
Proof using Type.
  rewrite <- (Jws.jwk_back pub kid). unfold Jws.jwk_to_public, Jws.public_jwk. by destruct (or_str kid None).
Qed.

Lemma agent_key_sorted claims : storable claims = true -> forall pub kid, (let? cnf := py_item claims "cnf" in py_item cnf "jwk") = Ok (Jws.public_jwk pub kid) ->
  agent_key_from_mandate claims = Ok pub /\ agent_key_from_mandate (sort_value claims) = Ok pub.
Proof using Type.
  intros Hs pub kid Hk. unfold agent_key_from_mandate. destruct claims as [| | | | | | | |kvs]; try done. pose proof (storable_dict _ Hs) as [Hnd _].
  rewrite sorted_item by done. destruct (py_item (VDict kvs) "cnf") as [cnf|] eqn:Ec; [|done]. cbn [rbind] in *. rewrite Hk. cbn [rbind].
  split; [apply Jws.jwk_back|]. pose proof (storable_item _ _ _ Hs Ec) as Sc. destruct cnf as [| | | | | | | |inner]; try done.
  pose proof (storable_dict _ Sc) as [Hnd' _]. rewrite sorted_item by done. rewrite Hk. cbn [rbind]. apply jwk_back_sorted.
Qed.

(** *** What [issue] leaves *)

Definition same_db (w w' : world) : Prop := w_db w' = w_db w.
#[local] Instance same_db_preorder : PreOrder same_db.
Proof using Type. split; [by intros w|]. unfold same_db. intros w1 w2 w3 H12 H23. congruence. Qed.
Lemma db_neutral : neutral w_db.
Proof using Type. by split. Qed.
Lemma db_frame w w' : w_db w' = w_db w -> same_db w w'.
Proof using Type. done. Qed.

Definition issued_as (a : issue_args) (w : world) (r : res issued) (w' : world) : Prop :=
  match r with
  | Ok i => issued_claims a (is_jti i) (now_ts w) = Ok (is_claims i) /\ storable (is_claims i) = true /\
      py_item (is_claims i) "cnf" = Ok (VDict [("jwk"%string, ia_agent_jwk a)]) /\ Jws.sign_compact (is_claims i) issuer_key (Some KID) "mandate+jwt" = Ok (is_token i) /\
      mandates (w_db w') !! is_jti i = Some (issued_row a (jtext (is_claims i)) (is_token i) (now_iso (w_db w)))
  | Raise _ => True
  end.

Lemma issue_run a w : issue_ok a -> timely w -> ends (issue uuid scrub_text a) w (issued_as a w).
Proof using uuid_text.
  intros Ha Ht. unfold issue. apply ends_atomic. unfold new_id, draw, sbind, ret. cbv beta iota. set (jti := ("mdt" +:+ "_" +:+ uuid (w_drawn w))%string).
  apply ends_atomic. unfold gets. pose proof (now_moderate w (S (w_drawn w)) Ht) as Hnow. change (now_ts (set_drawn (S (w_drawn w)) w)) with (now_ts w) in *.
  assert (utf8_text jti = true) as Hj by (unfold jti; rewrite !utf8_app by done; apply uuid_text).
  apply ends_plift; [intros claims Hclaims|done]. apply ends_plift; [intros token Htoken|done].
  destruct (issued_claims_sound a jti (now_ts w) claims Ha Hj Hnow Hclaims) as (Hs & _ & _ & Hcnf & _). rewrite dumps_jtext by done. cbn [plift pbind].
  apply ends_bind. unfold ends at 1. rewrite run_on_db. cbn [atomic run_prog]. unfold insert_mandate. cbn [w_db set_drawn].
  destruct (mandates (w_db w) !! jti) eqn:E; cbn [fst snd]; [done|]. set (w1 := set_db _ _).
  match goal with |- ends ?p w1 _ => assert (does same_db p /\ yields (fun i => i = {| is_jti := jti; is_token := token; is_claims := claims |}) p) as [Hd Hy] end.
  - split; [|apply yields_bind; intros _; apply yields_plift; intros ? _; by apply yields_bind].
    frame db_neutral db_frame idtac. apply does_atomic. intros x. unfold keep_instrument. cbn. by destruct (w_instruments x !! _).
  - eapply ends_weaken; [apply ends_both; [by apply (ends_does same_db _ _ (fun _ w' => same_db w1 w'))|by apply ends_yields]|].
    intros [i|e] w' [Hdb Hi]; [|done]. cbn in Hi. subst i. cbn [issued_as is_jti is_token is_claims]. rewrite (Hdb : w_db w' = w_db w1).
    split_and!; try done. unfold w1. cbn [w_db set_db mandates set_mandates]. apply lookup_insert_eq.
Qed.

(** C25: An issued mandate, offline and online: its token verifies under the
    published key and says what was signed, the agent's key in it is the one it
    was issued to, and the row keeps the token, the same claims, and nothing
    reserved or spent. *)
Theorem issued_mandate_verifies a i w w' pub kid : issue_ok a -> timely w -> ia_agent_jwk a = Jws.public_jwk pub kid ->
  run_prog (issue uuid scrub_text a) w = (Ok i, w') ->
  exists kvs row, is_claims i = VDict kvs /\ verify_token float_repr (is_token i) = Ok (sort_value (VDict kvs)) /\
    (forall k, py_item (sort_value (VDict kvs)) k = (let? v := py_item (VDict kvs) k in Ok (sort_value v))) /\
    agent_key_from_mandate (VDict kvs) = Ok pub /\ agent_key_from_mandate (sort_value (VDict kvs)) = Ok pub /\
    mandates (w_db w') !! is_jti i = Some row /\ mr_token row = Some (is_token i) /\ loads float_repr (mr_claims row) = Ok (VDict kvs) /\
    mr_status row = "active"%string /\ mr_reserved_amount row = "0.00"%string /\ mr_spent_total row = "0.00"%string.
Proof using uuid_text.
  intros Ha Ht Hjwk.
  intros Hrun. pose proof (issue_run a w Ha Ht) as Hi. unfold ends in Hi. rewrite Hrun in Hi. destruct Hi as (Hclaims & Hs & Hcnf & Hsign & Hrow).
  destruct (is_claims i) as [| | | | | | | |kvs] eqn:Hkvs; try done. pose proof (storable_dict _ Hs) as [Hnd _].
  destruct (agent_key_sorted _ Hs pub kid) as [Hk1 Hk2]; [by rewrite Hcnf; cbn; rewrite Hjwk|].
  eexists kvs, _. split; [done|]. split; [rewrite verify_token_compact; eapply Jws.compact_opens; [exact Hsign|by apply storable_decodable]|].
  split; [intros k; by apply sorted_item|]. split; [exact Hk1|]. split; [exact Hk2|]. split; [exact Hrow|]. split_and!; try done. by apply loads_jtext.
Qed.

(** ** The rail *)

Definition first_capture (token_ref : string) (amount currency : pyval) (request : string) (w : world) (r : res pyval) (w' : world) : Prop :=
  match r with
  | Ok answer => exists kvs row, answer = VDict kvs /\ storable answer = true /\ assoc "token_ref" kvs = Some (VStr token_ref) /\
      w_instruments w !! token_ref = Some row /\ in_status row = "active"%string /\
      w_idempotency w' = <[request := {| ik_scope := "rail.capture"; ik_response := jtext answer |}]> (w_idempotency w) /\ w_idempotency w !! request = None
  | Raise _ => w_idempotency w' = w_idempotency w
  end.

Lemma capture_run token_ref amount currency request w : utf8_text token_ref = true -> storable currency = true ->
  (forall text, fmt amount = Ok text -> utf8_text text = true) -> prior_capture request w = None ->
  ends (capture uuid float_repr token_ref amount currency request) w (first_capture token_ref amount currency request w).
Proof using uuid_text.
  intros Href Hcur Hamount Hprior. unfold capture. apply ends_atomic. unfold gets. rewrite Hprior. apply ends_atomic. cbv beta iota.
  destruct (w_instruments w !! token_ref) as [row|] eqn:Erow; [|done]. destruct (String.eqb_spec (in_status row) "active") as [Ha|]; cbn [negb]; [|done].
  apply ends_plift; [intros text Htext|done]. destruct (String.eqb text "0.00"); [done|].
  apply ends_atomic. unfold new_id, draw, sbind, ret. cbv beta iota. set (capture_id := ("cap" +:+ "_" +:+ uuid (w_drawn w))%string).
  apply ends_atomic. cbv beta iota zeta. set (now := stamp (set_drawn (S (w_drawn w)) w)). set (answer := VDict _).
  assert (storable answer = true) as Hs.
  { assert (utf8_text capture_id = true) as Hid by (unfold capture_id; rewrite !utf8_app by done; apply uuid_text).
    assert (utf8_text now = true) as Hnow by apply utf8_isoformat. specialize (Hamount text Htext). apply storable_members; [done|]. by repeat constructor. }
  rewrite dumps_jtext by done. cbn [plift pbind]. apply ends_atomic. unfold insert_new. cbn [w_idempotency set_drawn].
  destruct (w_idempotency w !! request) eqn:Ei; [done|]. eexists _, row. by split_and!.
Qed.

(** A capture that went through answers every later one under its request id,
    whatever token, amount or currency that one names, the token deleted since or
    not: the first answer, marked as a replay, and nothing is charged. *)
Theorem capture_repeats token_ref amount currency request w answer w1 : utf8_text token_ref = true -> storable currency = true ->
  (forall text, fmt amount = Ok text -> utf8_text text = true) -> prior_capture request w = None ->
  run_prog (capture uuid float_repr token_ref amount currency request) w = (Ok answer, w1) ->
  exists kvs, answer = VDict kvs /\ forall w2 token_ref' amount' currency', w_idempotency w2 !! request = w_idempotency w1 !! request ->
    run_prog (capture uuid float_repr token_ref' amount' currency' request) w2 = (Ok (VDict (dict_set "idempotent_replay" (VBool true) kvs)), w2).
Proof using uuid_text.
  intros Href Hcur Hamount Hprior Hrun. pose proof (capture_run token_ref amount currency request w Href Hcur Hamount Hprior) as Hc. unfold ends in Hc.
  rewrite Hrun in Hc. destruct Hc as (kvs & row & -> & Hs & _ & _ & _ & Hw & _). exists kvs. split; [done|]. intros w2 ref2 amount2 currency2 Hk.
  cbn [fst snd] in Hw. rewrite Hw, lookup_insert_eq in Hk. unfold capture. cbn [pbind atomic run_prog gets]. unfold prior_capture. rewrite Hk. cbn [ik_scope ik_response].
  change (String.eqb "rail.capture" "rail.capture") with true. cbv iota. rewrite loads_jtext by done. done.
Qed.
End MandateFacts.
