(* ===== verification/AgentRevocation.v ===== *)
(** The kill switch of the rail: once a payment token is deleted, no schedule of
    the agent lane's programs charges it again. *)
From S2P Require Import Prelude PyTime Decimal Json JsonLogic JsonParse Models Canonical Jose RappiClient Prog AgentRules AgentBudget AgentAudit AgentJws AgentWorld AgentMandate AgentMerchant AgentKernel AgentEscalation AgentFrame AgentSaga AgentLane.

Section Token.
Variable ref : string.

Definition deleted (w : world) : Prop := exists row, w_instruments w !! ref = Some row /\ in_status row = "deleted"%string.

(** A kept answer of the rail that charged another token. *)
Definition charged_other (row : idempotency_row) : Prop := exists capture_id amount currency other at_,
  other <> ref /\ ik_scope row = "rail.capture"%string /\
  json_dumps (VDict [("capture_id", VStr capture_id); ("status", VStr "COMPLETED"); ("amount", VStr amount);
                     ("currency", currency); ("token_ref", VStr other); ("captured_at", VStr at_)]%string) = Ok (ik_response row).

(** What every statement does, the token being deleted: it stays so, and no
    charge of it is recorded. *)
Definition uncharged (w w' : world) : Prop :=
  (deleted w -> deleted w') /\
  forall request row, w_idempotency w' !! request = Some row -> w_idempotency w !! request = Some row \/ charged_other row.

#[export] Instance uncharged_preorder : PreOrder uncharged.
Proof using Type.
  split; [by intros w; split; [|left]|]. intros w1 w2 w3 [D12 C12] [D23 C23]. split; [auto|].
  intros request row Hrow. destruct (C23 _ _ Hrow) as [H|H]; [by apply C12|by right].
Qed.

Lemma uncharged_same w w' : w_instruments w' = w_instruments w -> w_idempotency w' = w_idempotency w -> uncharged w w'.
Proof using Type. unfold uncharged, deleted. intros -> ->. split; [done|by left]. Qed.

(** What the token's row becomes when an instrument is written. *)
Lemma uncharged_write token_ref row w : (token_ref = ref -> deleted w -> in_status row = "deleted"%string) ->
  uncharged w (set_instruments (<[token_ref := row]> (w_instruments w)) w).
Proof using Type.
  intros Hrow. split; [|by left]. intros Hd. unfold deleted. cbn. destruct (decide (token_ref = ref)) as [->|Hne].
  - rewrite lookup_insert_eq. exists row. split; [done|by apply Hrow].
  - rewrite lookup_insert_ne by done. exact Hd.
Qed.
Lemma uncharged_new token_ref row w : w_instruments w !! token_ref = None -> uncharged w (set_instruments (<[token_ref := row]> (w_instruments w)) w).
Proof using Type. intros Hn. apply uncharged_write. intros -> (r & Hr & _). congruence. Qed.
End Token.

Section Programs.
Context `{Ed25519} `{JwsLibrary}.
Variables (uuid : nat -> string) (scrub_text float_repr : string -> string) (str_exn : exn -> string) (fuel : nat).
Variable ref : string.
Abbreviation kept := (keeps (uncharged ref) (deleted ref)).

Lemma kept_does {A} (p : prog world A) : does (uncharged ref) p -> kept p.
Proof using Type. intros Hp w Hw. apply (does_rg _ (uncharged ref) p w (deleted ref)); [done| |done|done|done]. intros s s' [Hd _]. exact Hd. Qed.
Lemma kept_db {A} (p : prog db A) : kept (on_db p).
Proof using Type.
  apply kept_does, (does_pzoom _ _ _ _ (fun _ _ => True)); [|intros; by apply uncharged_same]. induction p as [r|X op k IH]; cbn; [done|]. by split.
Qed.
Lemma kept_same {A} (op : st world A) : (forall w, w_instruments (op w).2 = w_instruments w /\ w_idempotency (op w).2 = w_idempotency w) -> kept (atomic op).
Proof using Type. intros Hop. apply kept_does, does_atomic. intros w. destruct (Hop w). by apply uncharged_same. Qed.
Lemma kept_update {V} (view : world -> gmap string V) update key guard f : (forall m w, w_instruments (update m w) = w_instruments w /\ w_idempotency (update m w) = w_idempotency w) ->
  kept (atomic (update_at view update key guard f)).
Proof using Type. intros Hu. apply kept_same. intros w. unfold update_at. destruct (view w !! key); [|done]. destruct (guard _); [apply Hu|done]. Qed.
Lemma kept_insert {V} (view : world -> gmap string V) update key row : (forall m w, w_instruments (update m w) = w_instruments w /\ w_idempotency (update m w) = w_idempotency w) ->
  kept (atomic (insert_new view update key row)).
Proof using Type. intros Hu. apply kept_same. intros w. unfold insert_new. destruct (view w !! key); [done|apply Hu]. Qed.

Lemma kept_bind {A B} (m : prog world A) (f : A -> prog world B) : kept m -> (forall a, kept (f a)) -> kept (pbind m f).
Proof using Type. intros Hm Hf. eapply triple_bind; [apply _|exact Hm|exact Hf|done]. Qed.

Lemma capture_kept token_ref amount currency request : kept (capture uuid float_repr token_ref amount currency request).
Proof using Type.
  unfold capture. apply kept_bind; [by apply kept_same|]. intros [response|].
  { apply kept_does. destruct (loads float_repr response) as [[]|]; done. }
  apply (triple_bind _ _ _ _ _ (fun r w => deleted ref w /\ (token_ref = ref -> exists row, r = Ok (Some row) /\ in_status row = "deleted"%string))).
  - apply triple_atomic; [intros w w' [Hd _]; exact Hd|]. intros w Hw. split; [reflexivity|]. intros w' [Hd _]. split; [by apply Hd|].
    intros ->. destruct Hw as (row & Hr & Hs). exists row. cbn. by rewrite Hr.
  - intros [row|] w [Hw Hrow]; [|by apply (kept_does (praise _))].
    destruct (String.eqb_spec (in_status row) "active") as [Ha|Ha]; cbn [negb]; [|by apply (kept_does (praise _))].
    assert (token_ref <> ref) as Hne by (intros ->; destruct (Hrow eq_refl) as (row' & [= <-] & Hs); congruence).
    clear Ha Hrow. revert w Hw. apply kept_does. apply does_plift. intros text _. destruct (String.eqb text "0.00"); [done|].
    apply does_bind; [apply does_atomic; intros w; by apply uncharged_same|]. intros capture_id. apply does_bind; [by apply does_atomic|]. intros now.
    apply does_plift. intros response Hresponse.
    apply does_bind; [|done]. apply does_atomic. intros w. unfold insert_new. destruct (w_idempotency w !! request) eqn:E; [done|]. split; [done|].
    intros k answer. cbn. destruct (decide (k = request)) as [->|Hk]; [|rewrite lookup_insert_ne by done; by left].
    rewrite lookup_insert_eq. intros [= <-]. right. by exists capture_id, text, currency, token_ref, now.
  - by intros e w [Hw _].
Qed.

#[export] Instance uncharged_lane : LaneInvariant uuid float_repr fuel (uncharged ref) (deleted ref).
Proof using Type.
  split; [apply _|by intros w w' [Hd _]|intros w w' Hs; apply uncharged_same; apply Hs|..]; intros.
  all: try apply kept_db; try (apply kept_update; intros; by split); try (apply kept_insert; intros; by split).
  - apply kept_same. intros w. unfold insert_intent. by destruct (existsb _ _).
  - by apply kept_same.
  - apply kept_does, does_atomic. intros w. unfold keep_instrument. cbn. destruct (w_instruments w !! token_ref) eqn:E; [done|by apply uncharged_new].
  - apply kept_does, does_atomic. intros w. unfold insert_new. destruct (w_instruments w !! token_ref) eqn:E; [done|by apply uncharged_new].
  - apply kept_does. apply does_bind; [|done]. apply does_atomic. intros w. unfold update_at. destruct (w_instruments w !! token_ref) as [row|] eqn:E; [|done].
    destruct (String.eqb _ _); [|done]. by apply uncharged_write.
  - apply capture_kept.
Qed.

Variable registry : list (string * merchant_port).
Variables (token_key : Key) (token_kid : string) (capture_dry_run : bool).
Hypothesis merchants : Forall (fun kp => merchant_kept (uncharged ref) (deleted ref) kp.2) registry.

(** A revocation that answers [True] has deleted the token its mandate names. *)
Lemma revoke_deletes jti actor reason row kvs w : mandates (w_db w) !! jti = Some row -> loads float_repr (mr_claims row) = Ok (VDict kvs) ->
  assoc "payment_method_ref" kvs = Some (VStr ref) ->
  ends (revoke uuid scrub_text float_repr jti actor reason) w (fun r w' => r = Ok true -> deleted ref w').
Proof using Type.
  intros Hrow Hload Href. unfold revoke. apply ends_bind. unfold ends at 1. rewrite run_on_db. cbn [atomic run_prog]. unfold update_mandate. rewrite Hrow.
  cbn [fst snd]. apply ends_bind. unfold ends at 1. rewrite run_on_db. cbn. rewrite lookup_insert_eq. cbn. rewrite Hload. cbn [plift pbind pret]. unfold payment_ref. rewrite Href.
  cbn [override from_option truthy]. match goal with |- ends _ ?x _ => set (w1 := x) end. clearbody w1. unfold ends.
  assert (Hlog : forall (b : bool) a w2, (b = true -> deleted ref w2) ->
    (run_prog (_ <~ atomic (append_event uuid scrub_text a) ; pret b) w2).1 = Ok true -> deleted ref (run_prog (_ <~ atomic (append_event uuid scrub_text a) ; pret b) w2).2).
  { intros b a w2 Hb. cbn [atomic pbind run_prog]. destruct (append_writes uuid scrub_text a w2) as (t & n & Hw).
    destruct (append_event uuid scrub_text a w2) as [[r|e] w3]; cbn in *; subst w3; [|done]. intros [= ->]. by apply Hb. }
  destruct (truthy_str ref); [|by apply (Hlog false)]. cbn [sql_text plift pbind]. unfold delete_token. cbn. unfold update_at.
  destruct (w_instruments w1 !! ref) as [irow|] eqn:Ei; [|by apply (Hlog false)]. destruct (String.eqb _ _); [|by apply (Hlog false)].
  apply (Hlog true). intros _. eexists. cbn. by rewrite lookup_insert_eq.
Qed.

(** C5: Once a mandate has been revoked and the rail has deleted its payment token,
    the token stays deleted and no charge of it is recorded, whatever programs of
    the lane run afterwards, interleaved in any way, the other revocations and
    the writes that bring a status back included: the only answers the rail
    records charged other tokens. *)
Theorem revocation_final jti actor reason row kvs w0 schedule pool : mandates (w_db w0) !! jti = Some row ->
  loads float_repr (mr_claims row) = Ok (VDict kvs) -> assoc "payment_method_ref" kvs = Some (VStr ref) ->
  (run_prog (revoke uuid scrub_text float_repr jti actor reason) w0).1 = Ok true -> Forall (lane_program uuid scrub_text float_repr str_exn fuel registry token_key token_kid capture_dry_run) pool ->
  let w := (run_prog (revoke uuid scrub_text float_repr jti actor reason) w0).2 in
  let w' := (interleave schedule pool w).2 in
  deleted ref w' /\ forall request answer, w_idempotency w' !! request = Some answer -> w_idempotency w !! request = Some answer \/ charged_other ref answer.
Proof using merchants.
  intros Hrow Hload Href Htrue Hpool w w'. pose proof (revoke_deletes jti actor reason row kvs w0 Hrow Hload Href Htrue) as Hd. fold w in Hd.
  destruct (lane_schedule uuid scrub_text float_repr str_exn fuel (uncharged ref) (deleted ref) registry token_key token_kid capture_dry_run merchants schedule pool w Hd Hpool) as [H1 [_ H2]].
  by split.
Qed.
End Programs.
