(* ===== verification/AgentTypes.v ===== *)
(** The values the columns of the agent lane's database take: the status of every
    row is one the code knows, and an escalation's status says what its other
    columns hold, under every schedule of the lane's programs. *)
From S2P Require Import Prelude PyTime Decimal Json JsonLogic JsonParse Models Canonical Jose RappiClient Prog AgentRules AgentBudget AgentAudit AgentJws AgentWorld AgentMandate AgentMerchant AgentKernel AgentEscalation AgentFrame AgentSaga AgentLane.

Definition mandate_status (s : string) : Prop := s ∈ ["active"; "suspended"; "revoked"; "expired"; "exhausted"]%string.
Definition purchase_status (s : string) : Prop := s ∈ ["pending"; "charging"; "captured"; "compensated"; "rejected"; "awaiting_escalation"]%string.
Definition intent_status (s : string) : Prop := s ∈ ["reserved"; "captured"]%string.
Definition instrument_status (s : string) : Prop := s ∈ ["active"; "deleted"]%string.

(** Pending and undecided, expired, or resolved with the human's decision, name
    and signed receipt. *)
Definition escalation_typed (row : escalation_row) : Prop :=
  (es_status row = "pending"%string /\ es_decision row = None) \/
  (es_status row = "expired"%string /\ es_decision row = Some "TIMEOUT"%string) \/
  (es_status row = "resolved"%string /\ (es_decision row = Some "APPROVE"%string \/ es_decision row = Some "REJECT"%string) /\
   is_Some (es_approver row) /\ is_Some (es_receipt_sig row)).

Definition mandates_typed (m : gmap string mandate_row) : Prop := map_Forall (fun _ row => mandate_status (mr_status row)) m.

Record typed (w : world) : Prop := {
  ty_mandates : mandates_typed (mandates (w_db w));
  ty_purchases : map_Forall (fun _ row => purchase_status (pu_status row)) (w_purchases w);
  ty_intents : Forall (fun row => intent_status (pi_status row)) (w_intents w);
  ty_escalations : map_Forall (fun _ row => escalation_typed row) (w_escalations w);
  ty_instruments : map_Forall (fun _ row => instrument_status (in_status row)) (w_instruments w);
}.

(** What every statement does, table by table. *)
Record keeps_types (w w' : world) : Prop := {
  kt_mandates : mandates_typed (mandates (w_db w)) -> mandates_typed (mandates (w_db w'));
  kt_purchases : map_Forall (fun _ row => purchase_status (pu_status row)) (w_purchases w) -> map_Forall (fun _ row => purchase_status (pu_status row)) (w_purchases w');
  kt_intents : Forall (fun row => intent_status (pi_status row)) (w_intents w) -> Forall (fun row => intent_status (pi_status row)) (w_intents w');
  kt_escalations : map_Forall (fun _ row => escalation_typed row) (w_escalations w) -> map_Forall (fun _ row => escalation_typed row) (w_escalations w');
  kt_instruments : map_Forall (fun _ row => instrument_status (in_status row)) (w_instruments w) -> map_Forall (fun _ row => instrument_status (in_status row)) (w_instruments w');
}.

#[export] Instance keeps_types_preorder : PreOrder keeps_types.
Proof. split; [by intros w; split|]. intros w1 w2 w3 [] []. split; auto. Qed.

Lemma typed_kept w w' : keeps_types w w' -> typed w -> typed w'.
Proof. intros [] []. split; auto. Qed.

Abbreviation kept := (keeps keeps_types typed).

Lemma typed_does {A} (p : prog world A) : does keeps_types p -> kept p.
Proof. intros Hp w Hw. by apply (does_rg _ keeps_types p w typed); [|apply typed_kept| | |]. Qed.
Lemma kept_op {A} (op : st world A) : (forall w, keeps_types w (op w).2) -> kept (atomic op).
Proof. intros Hop. by apply typed_does, does_atomic. Qed.

(** *** Mandates *)

Definition db_typed (d : db) : Prop := mandates_typed (mandates d).
Definition db_types (d d' : db) : Prop := mandates_typed (mandates d) -> mandates_typed (mandates d').
#[local] Instance db_types_preorder : PreOrder db_types.
Proof. split; [intros d H; exact H|]. intros d1 d2 d3 H12 H23 H. exact (H23 (H12 H)). Qed.

Lemma typed_db {A} (p : prog db A) : triple db_types db_types db_typed p (fun _ _ => True) -> kept (on_db p).
Proof.
  intros Hp w Hw. eapply rg_weaken; [eapply (rg_invariant _ _ typed); [apply typed_kept|apply typed_kept| |done]|by intros r w' [_ H]].
  eapply (rg_pzoom w_db set_db keeps_types keeps_types db_types db_types); [done| | |by apply Hp, ty_mandates].
  - intros w1 w2 Hk. exact (kt_mandates _ _ Hk).
  - intros w1 d Hd. split; [exact Hd|done..].
Qed.

Lemma update_types jti guard f : (forall now row, mandate_status (mr_status row) -> mandate_status (mr_status (f now row))) ->
  does db_types (atomic (update_mandate jti guard f)).
Proof.
  intros Hf. apply does_atomic. intros d. unfold update_mandate. destruct (mandates d !! jti) as [row|] eqn:E; [|done]. destruct (guard row); [|done].
  intros Hm. apply map_Forall_insert_2; [|done]. apply Hf. by apply (Hm jti).
Qed.

Lemma does_triple {A} (p : prog db A) : does db_types p -> triple db_types db_types db_typed p (fun _ => db_typed).
Proof. intros Hp d Hd. apply (does_rg _ db_types p d db_typed); auto. Qed.

Lemma chain_types fuel jti : does db_types (chain fuel jti).
Proof. apply (does_weaken _ (fun d d' => d' = d)); [apply chain_reads|]. by intros d d' ->. Qed.

Lemma unreserve_types jtis amount : does db_types (_unreserve jtis amount).
Proof.
  unfold _unreserve. induction jtis as [|j l IH]; cbn [rewrite_each]; [done|]. apply does_bind; [by split|]. intros [row|].
  - apply does_bind; [|intros _; exact IH]. unfold unreserved_row. destruct (freed_text _ _); [|done]. apply update_types. by intros now r.
  - apply does_bind; [done|]. intros _. exact IH.
Qed.

Lemma reserve_types float_repr jtis done_ amount : does db_types (reserve_each float_repr jtis done_ amount).
Proof.
  revert done_. induction jtis as [|j l IH]; intros done_; cbn [reserve_each]; [done|].
  assert (does db_types (_ <~ _unreserve done_ amount ; pret false)) as Hundo by (apply does_bind; [apply unreserve_types|done]).
  apply does_bind; [by split|]. intros [row|]; [|exact Hundo]. destruct (negb _); [exact Hundo|].
  apply does_plift. intros [] _; [exact Hundo|]. apply does_plift. intros reserved _. apply does_bind; [apply update_types; by intros now r|].
  intros n. destruct (n =? 0); [exact Hundo|apply IH].
Qed.

Lemma types_bind {A B} (m : prog db A) (f : A -> prog db B) : triple db_types db_types db_typed m (fun _ => db_typed) ->
  (forall a, triple db_types db_types db_typed (f a) (fun _ => db_typed)) -> triple db_types db_types db_typed (pbind m f) (fun _ => db_typed).
Proof. intros Hm Hf. by apply (triple_bind _ _ _ _ _ (fun _ => db_typed)). Qed.

(** A settlement writes back the status it has read. *)
Lemma settle_types float_repr jtis amount : triple db_types db_types db_typed (rewrite_each (settled_row float_repr amount) jtis) (fun _ => db_typed).
Proof.
  induction jtis as [|j l IH]; cbn [rewrite_each]; [by apply (does_triple (pret tt))|].
  apply (triple_bind _ _ _ _ _ (fun r d => mandates_typed (mandates d) /\ forall row, r = Ok (Some row) -> mandate_status (mr_status row))).
  - apply triple_atomic; [intros d d' Hd; exact Hd|]. intros d Hd. split; [done|]. intros d' Hd'. split; [by apply Hd'|]. cbn. intros row [= Hr]. by apply (Hd j).
  - intros [row|] d [Hd Hrow].
    + specialize (Hrow row eq_refl). revert d Hd. apply types_bind; [|intros _; exact IH]. apply does_triple. unfold settled_row.
      repeat match goal with |- does _ (pbind (plift (let? _ := ?r in _)) _) => destruct r; cbn [rbind]; [|exact I] end.
      apply update_types. intros now r _. cbn. match goal with |- context [if ?b then _ else _] => destruct b end; [unfold mandate_status; set_solver|done].
    + revert d Hd. clear Hrow. apply types_bind; [by apply (does_triple (pret 0))|intros _; exact IH].
  - by intros e d [Hd _].
Qed.

Lemma typed_db_does {A} (p : prog db A) : does db_types p -> kept (on_db p).
Proof. intros Hp. apply typed_db. eapply triple_conseq; [by apply does_triple|done|done]. Qed.

(** *** The other tables *)

Lemma typed_insert {V} (T : V -> Prop) (view : world -> gmap string V) update key row : (forall w, T (row w)) ->
  (forall m w, (map_Forall (fun _ => T) (view w) -> map_Forall (fun _ => T) m) -> keeps_types w (update m w)) ->
  kept (atomic (insert_new view update key row)).
Proof. intros Hr Hu. apply kept_op. intros w. unfold insert_new. destruct (view w !! key); [done|]. apply Hu. intros Hm. by apply map_Forall_insert_2. Qed.

Lemma typed_update {V} (T : V -> Prop) (view : world -> gmap string V) update key guard f : (forall w row, T row -> T (f w row)) ->
  (forall m w, (map_Forall (fun _ => T) (view w) -> map_Forall (fun _ => T) m) -> keeps_types w (update m w)) ->
  kept (atomic (update_at view update key guard f)).
Proof.
  intros Hf Hu. apply kept_op. intros w. unfold update_at. destruct (view w !! key) as [row|] eqn:E; [|done]. destruct (guard row); [|done].
  apply Hu. intros Hm. apply map_Forall_insert_2; [|done]. apply Hf. by apply (Hm key).
Qed.

Lemma purchases_types m w : (map_Forall (fun _ row => purchase_status (pu_status row)) (w_purchases w) -> map_Forall (fun _ row => purchase_status (pu_status row)) m) ->
  keeps_types w (set_purchases m w).
Proof. intros Hm. split; [done|exact Hm|done..]. Qed.
Lemma escalations_types m w : (map_Forall (fun _ row => escalation_typed row) (w_escalations w) -> map_Forall (fun _ row => escalation_typed row) m) ->
  keeps_types w (set_escalations m w).
Proof. intros Hm. split; [done|done|done|exact Hm|done]. Qed.
Lemma instruments_types m w : (map_Forall (fun _ row => instrument_status (in_status row)) (w_instruments w) -> map_Forall (fun _ row => instrument_status (in_status row)) m) ->
  keeps_types w (set_instruments m w).
Proof. intros Hm. split; [done..|exact Hm]. Qed.
Lemma intents_types l w : (Forall (fun row => intent_status (pi_status row)) (w_intents w) -> Forall (fun row => intent_status (pi_status row)) l) -> keeps_types w (set_intents l w).
Proof. intros Hl. split; [done|done|exact Hl|done..]. Qed.
Lemma same_types w w' : same_tables w w' -> keeps_types w w'.
Proof. intros [Hd Hi Hp He Hs _]. split; by rewrite ?Hd, ?Hi, ?Hp, ?He, ?Hs. Qed.

Lemma capture_types `{Ed25519} uuid float_repr token_ref amount currency request : does keeps_types (capture uuid float_repr token_ref amount currency request).
Proof.
  unfold capture. apply does_bind; [by apply does_atomic|]. intros [response|]; [by destruct (loads float_repr response) as [[]|]|].
  apply does_bind; [by apply does_atomic|]. intros [row|]; [|done]. destruct (negb _); [done|]. apply does_plift. intros text _. destruct (String.eqb text "0.00"); [done|].
  apply does_bind; [apply does_atomic; intros w; by split|]. intros capture_id. apply does_bind; [by apply does_atomic|]. intros now. apply does_plift. intros response _.
  apply does_bind; [|done]. apply does_atomic. intros w. unfold insert_new. destruct (w_idempotency w !! request); [done|]. by split.
Qed.

Ltac purchase_row := apply (typed_update (fun row => purchase_status (pu_status row))); [intros; cbn; unfold purchase_status; set_solver|exact purchases_types].

#[export] Instance types_lane `{Ed25519} uuid float_repr fuel : LaneInvariant uuid float_repr fuel keeps_types typed.
Proof.
  split; [apply _|apply typed_kept|apply same_types|..].
  - intros jti. apply typed_db_does, update_types. intros now row _. cbn. unfold mandate_status. set_solver.
  - intros jti. apply typed_db_does, update_types. intros now row _. cbn. unfold mandate_status. set_solver.
  - intros jti amount. apply typed_db_does, does_bind; [apply chain_types|]. intros l. apply reserve_types.
  - intros jti amount. apply typed_db_does, does_bind; [apply chain_types|]. intros l. apply unreserve_types.
  - intros jti amount. apply typed_db. apply (triple_bind _ _ _ _ _ (fun _ => db_typed)); [apply does_triple, chain_types| |done].
    intros l. eapply triple_conseq; [apply settle_types|done|done].
  - intros jti a claims token. apply typed_db_does, does_atomic. intros d. unfold insert_mandate. destruct (mandates d !! jti); [done|].
    intros Hm. apply map_Forall_insert_2; [|done]. cbn. unfold mandate_status. set_solver.
  - intros. apply (typed_insert (fun row => purchase_status (pu_status row))); [intros; cbn; unfold purchase_status; set_solver|exact purchases_types].
  - intros id status reason Hs. purchase_row.
  - intros. purchase_row.
  - intros. purchase_row.
  - intros. apply kept_op. intros w. unfold insert_intent. destruct (existsb _ _); [done|]. apply intents_types. intros Hl. apply Forall_app. split; [done|].
    constructor; [cbn; unfold intent_status; set_solver|done].
  - intros jti. apply kept_op. intros w. apply intents_types. intros Hl. apply Forall_map. eapply Forall_impl; [exact Hl|]. intros row Hr. cbn.
    destruct (String.eqb _ _); [cbn; unfold intent_status; set_solver|done].
  - intros id row Hrow. apply (typed_insert escalation_typed); [by left|exact escalations_types].
  - intros id. apply (typed_update escalation_typed); [intros w row _; by right; left|exact escalations_types].
  - intros id decision approver channel receipt. apply (typed_update escalation_typed); [|exact escalations_types]. intros w row _. right. right. split; [done|].
    split; [destruct decision; [by left|by right]|by split; eexists].
  - intros token_ref mandate_jti. apply kept_op. intros w. unfold keep_instrument. cbn. destruct (w_instruments w !! token_ref); [done|].
    apply instruments_types. intros Hm. apply map_Forall_insert_2; [cbn; unfold instrument_status; set_solver|done].
  - intros token_ref row Hrow. apply (typed_insert (fun row => instrument_status (in_status row))); [|exact instruments_types]. intros w. rewrite Hrow. unfold instrument_status. set_solver.
  - intros token_ref. unfold delete_token. apply (triple_bind _ _ _ _ _ (fun _ => typed)); [|intros a; by apply (typed_does (pret (0 <? a)))|done].
    apply (typed_update (fun row => instrument_status (in_status row))); [intros; cbn; unfold instrument_status; set_solver|exact instruments_types].
  - intros token_ref amount currency request. apply typed_does, capture_types.
Qed.

(** C26: From a database whose columns hold such values, every schedule of the lane's
    programs leaves one, wherever it stops: statuses the code knows, and every
    escalation undecided, expired, or decided by a named human with a signed
    receipt. *)
Theorem columns_typed `{Ed25519} `{JwsLibrary} uuid scrub_text float_repr str_exn fuel registry token_key token_kid capture_dry_run schedule pool w :
  Forall (fun kp => merchant_kept keeps_types typed kp.2) registry -> typed w ->
  Forall (lane_program uuid scrub_text float_repr str_exn fuel registry token_key token_kid capture_dry_run) pool -> typed (interleave schedule pool w).2.
Proof.
  intros Hm Hw Hpool.
  by destruct (lane_schedule uuid scrub_text float_repr str_exn fuel keeps_types typed registry token_key token_kid capture_dry_run Hm schedule pool w Hw Hpool) as [Ht _].
Qed.
