(* ===== verification/AgentLaneDemo.v ===== *)
(** One agent, one mandate, one merchant: the theorems on the agent lane applied to
    a concrete database, and what a plain approval of an escalation does there. *)
From S2P Require Import Prelude PyTime Decimal Json JsonLogic JsonParse Models Canonical Jose RappiClient Prog AgentRules AgentGate AgentBudget AgentBudgetFacts AgentSpending AgentAudit AgentJws AgentWorld AgentMandate AgentMerchant AgentKernel AgentEscalation AgentBooks AgentFrame AgentColumns AgentSaga AgentLane AgentPurchase AgentSound AgentHistory AgentApproval AgentTimeout AgentMandateFacts AgentRevocation AgentTypes.

(** A key is its name, a signature names the key and what it signs. *)
#[export] Instance named_keys : Ed25519 := {
  PrivateKey := string; PublicKey := string; public_key := id; ed_sign k m := (k +:+ ":" +:+ m)%string;
  ed_verify p s m := String.eqb s (p +:+ ":" +:+ m)%string; public_bytes_raw := id; from_public_bytes := Ok; load_or_create := id;
  sign_verifies := fun k m => String.eqb_refl _; raw_back := fun p => eq_refl }.

Definition demo_uuid (n : nat) : string := pad 6 (Z.of_nat n).
Definition demo_key : Key := "k"%string.
Definition demo_exn (e : exn) : string := "error".
Abbreviation same_text := (fun s : string => s).

Lemma demo_uuid_text n : utf8_text (demo_uuid n) = true.
Proof. apply utf8_pad. Qed.

Definition demo_offer : offer_row :=
  {| of_merchant_id := "vuelaya"; of_category := "flights"; of_title := "BOG-MDE"; of_amount := "130.00"; of_currency := "USD"; of_origin := None;
     of_destination := None; of_depart_date := None; of_description := None; of_active := true |}.

(** The first of March 2026. *)
Definition demo_world : world :=
  {| w_db := {| mandates := ∅; clock_us := 1772359200000000 |}; w_trail := empty_trail; w_intents := []; w_purchases := ∅; w_escalations := ∅;
     w_instruments := ∅; w_offers := {[ "o1" := demo_offer ]}; w_idempotency := ∅; w_approvers := ∅; w_counters := ∅; w_drawn := 0 |}.

Definition demo_agent_key : PublicKey := public_key (load_or_create "agent_ag").
Definition demo_mandate (per_txn : string) : issue_args :=
  {| ia_user_id := "ana"; ia_agent_id := "ag"; ia_agent_jwk := Jws.public_jwk demo_agent_key None; ia_payment_method_ref := "ppt";
     ia_scope := VDict []; ia_conditions := VBool true; ia_limits := VDict [("max_per_txn", VStr per_txn); ("total_budget", VStr "400")]%string;
     ia_validity := VDict []; ia_currency := "USD"; ia_parent_jti := None; ia_signed_with := "passkey" |}.

Definition demo_port : merchant_port := LocalMerchant demo_uuid same_text same_text demo_exn.
Definition demo_registry : list (string * merchant_port) := [("vuelaya"%string, demo_port)].
Definition demo_request : purchase_args := {| pa_offer_id := "o1"; pa_mandate_jti := "mdt_000000"; pa_merchant_id := None; pa_run_id := None |}.

Definition demo_issue (per_txn : string) : prog world issued := issue demo_uuid same_text (demo_mandate per_txn).
Definition demo_submit : prog world outcome := submit_purchase demo_uuid same_text same_text demo_exn 10 demo_registry demo_key "kid" true demo_request.
Definition demo_resolve (decision : answer) (sticky : bool) : prog world resolution :=
  resolve demo_uuid same_text same_text demo_exn 10 demo_registry demo_key "kid" true "esc_000007" decision "boss" "chat" sticky.

(** The mandate issued; a purchase that needs a human. *)
Definition issued_world (per_txn : string) : world := (run_prog (demo_issue per_txn) demo_world).2.
Definition escalated_world : world := (run_prog demo_submit (issued_world "100")).2.

Example demo_runs :
  match (run_prog (demo_issue "150") demo_world).1 with Ok i => is_jti i = "mdt_000000"%string | Raise _ => False end /\
  match (run_prog demo_submit (issued_world "150")).1 with Ok (Captured _ _) => True | _ => False end /\
  match (run_prog demo_submit (issued_world "100")).1 with Ok (Escalated _ esc _ _ _ _ _) => esc = "esc_000007"%string | _ => False end.
Proof. vm_compute. split; [reflexivity|]. split; [exact I|reflexivity]. Qed.

(** ** The database is sound *)

Lemma cents_are_prices c : small c -> cents_price (VStr (cents_text c)).
Proof. intros Hc. exists c. split; [done|by apply fmt_fixed]. Qed.

Lemma demo_sound : sound same_text demo_world /\ timely demo_world.
Proof.
  split; [|unfold timely; cbn; lia]. split; [apply map_Forall_empty|]. split; [|apply map_Forall_empty].
  apply map_Forall_singleton. by apply (cents_are_prices 13000).
Qed.

Lemma demo_mandate_ok per_txn c : small c -> fmt (VStr per_txn) = Ok (cents_text c) -> issue_ok (demo_mandate per_txn).
Proof.
  intros Hc Hf. split; [by split_and!|by split_and!|by intros v [= <-]|by exists c|by exists 40000|].
  intros default e Hd. cbn. by intros [= <-].
Qed.
Lemma demo_mandates_ok : issue_ok (demo_mandate "150") /\ issue_ok (demo_mandate "100").
Proof. split; [by apply (demo_mandate_ok _ 15000)|by apply (demo_mandate_ok _ 10000)]. Qed.

Lemma issued_world_sound per_txn : issue_ok (demo_mandate per_txn) -> sound same_text (issued_world per_txn) /\ (size (mandates (w_db (issued_world per_txn))) <= 1)%nat.
Proof.
  intros Hok. destruct demo_sound as [Hs Ht]. exact (issue_sound same_text demo_uuid same_text demo_uuid_text (demo_mandate per_txn) demo_world Hok Hs Ht).
Qed.

Lemma demo_merchants_honest : Forall (fun kp => HonestPort kp.2) demo_registry.
Proof. apply Forall_singleton, local_honest. Qed.
Lemma demo_merchants_read : Forall (fun kp => ReadingPort kp.2) demo_registry.
Proof. apply Forall_singleton, local_reads. Qed.

(** ** The theorems at work *)

Lemma purchase_books_witness : let w := issued_world "150" in
  table_ok same_text (mandates (w_db w)) /\
  purchased same_text 10 demo_registry demo_request w (run_prog demo_submit w).1 (run_prog demo_submit w).2.
Proof.
  destruct (issued_world_sound "150") as [Hs Hn]; [apply demo_mandates_ok|]. intros w. fold w in Hs, Hn. clearbody w. split; [by apply sound_table|]. unfold demo_submit.
  apply (purchase_books demo_uuid same_text same_text demo_exn 10 demo_registry demo_key "kid" true demo_merchants_honest);
    [by apply sound_table|by apply sound_named|apply Hs|lia].
Defined.

Definition demo_calls : list (Z * call) :=
  [(1772359200000000, Issue (demo_mandate "150")); (1772359201000000, Submit demo_request); (1772359202000000, SetPrice "o1" "120.00");
   (1772359203000000, Submit demo_request); (1772359204000000, Resolve "esc_000007" Approve "boss" "chat" true);
   (1772359205000000, Revoke "mdt_000000" "ana" "done"); (1772359206000000, Sweep elements)].

Definition demo_history : world := history demo_uuid same_text same_text demo_exn demo_registry demo_key "kid" true 10 demo_calls demo_world.

Lemma agent_budgets_hold_witness : let w := demo_history in (mr_spent_total <$> mandates (w_db w) !! "mdt_000000"%string = Some "250.00"%string) /\
  (forall before after j row0, demo_calls = before ++ after ->
     mandates (w_db (history demo_uuid same_text same_text demo_exn demo_registry demo_key "kid" true 10 before demo_world)) !! j = Some row0 ->
     exists row, mandates (w_db w) !! j = Some row /\ mr_claims row = mr_claims row0) /\
  forall j row, mandates (w_db w) !! j = Some row -> exists claims spent reserved total,
    loads same_text (mr_claims row) = Ok claims /\ py_item claims "jti" = Ok (VStr j) /\ total_budget claims = Ok (cents total) /\
    mr_spent_total row = cents_text spent /\ mr_reserved_amount row = cents_text reserved /\ 0 <= spent /\ 0 <= reserved /\ spent + reserved <= total.
Proof.
  split; [vm_compute; reflexivity|]. unfold demo_history.
  apply (agent_budgets_hold demo_uuid same_text same_text demo_exn demo_registry demo_key "kid" true demo_merchants_honest demo_uuid_text 10 demo_calls demo_world).
  - apply demo_sound.
  - assert (cents_price (VStr "120.00")) as Hp by by apply (cents_are_prices 12000). repeat constructor; cbn; try lia; try done; try apply demo_mandates_ok.
  - cbn. rewrite map_size_empty. lia.
Defined.

(** The intent of a purchase of the offer, signed by the agent. *)
Definition demo_signed : prog world (string * pyval * string) :=
  row <~ get_mandate "mdt_000000" ; offer <~ port_get demo_port "o1" ;
  intent <~ build_intent demo_uuid "mdt_000000" (VStr "ag") (override offer VNone) ;
  signature <~ plift (Jws.sign_detached intent (agent_private_key "ag") (Some "ag"%string) "purchase-intent+jws") ;
  pret (override (mr_token row) EmptyString, intent, signature).
Definition demo_intent : pyval := VDict
  [("typ", VStr "purchase_intent_v1"); ("mandate_jti", VStr "mdt_000000"); ("agent", VStr "ag"); ("merchant_id", VStr "vuelaya"); ("offer_id", VStr "o1");
   ("amount", VStr "130.00"); ("currency", VStr "USD"); ("nonce", VStr "000002"); ("jti", VStr "int_000003"); ("iat", VInt 1772359200); ("exp", VInt 1772359320)]%string.
Definition signed_as (s : res (string * pyval * string)) : string * string := match s with Ok (t, _, s) => (t, s) | Raise _ => (EmptyString, EmptyString) end.
Definition demo_token : string := (signed_as (run_prog demo_signed (issued_world "150")).1).1.
Definition demo_signature : string := (signed_as (run_prog demo_signed (issued_world "150")).1).2.
Definition demo_verify : prog world verdict := verify demo_uuid same_text same_text demo_exn 10 demo_registry demo_token demo_intent demo_signature true.
Definition demo_verdict : res verdict * world := run_prog demo_verify (issued_world "150").

Definition demo_approved : verdict := {| v_decision := AgentApproved; v_reason_code := None; v_detail := EmptyString; v_diff := [];
  v_reservation_id := Some "rsv_000002"%string; v_mandate_jti := Some "mdt_000000"%string |}.
Lemma demo_verified : demo_verdict.1 = Ok demo_approved.
Proof. vm_compute. reflexivity. Qed.

Lemma approval_stands_witness : approves demo_approved /\ exists claims jti row d,
  agent_asks same_text demo_token demo_intent demo_signature (issued_world "150") claims jti /\ mandate_lives 10 claims jti (issued_world "150") row /\
  offer_stands demo_registry claims demo_intent (issued_world "150") row d /\ d_decision d = AgentApproved /\
  approval_recorded same_text 10 13000 demo_intent demo_signature jti (issued_world "150") demo_verdict.2.
Proof.
  split; [reflexivity|]. destruct (issued_world_sound "150") as [Hs Hn]; [apply demo_mandates_ok|].
  apply (approval_stands demo_uuid same_text same_text demo_exn 10 demo_registry demo_merchants_read 13000 demo_token demo_intent demo_signature (issued_world "150") demo_approved);
    [done|by apply sound_table|lia|reflexivity| |reflexivity].
  rewrite <- demo_verified. apply surjective_pairing.
Defined.

(** *** Revocation *)

Definition demo_row : option mandate_row := mandates (w_db (issued_world "150")) !! "mdt_000000"%string.
Definition demo_claims : pydict :=
  match demo_row with Some row => match loads same_text (mr_claims row) with Ok (VDict kvs) => kvs | _ => [] end | None => [] end.
Definition demo_revoke : prog world bool := revoke demo_uuid same_text same_text "mdt_000000" "ana" "lost".
Definition demo_pool : list (prog world unit) := [(_ <~ demo_submit ; pret tt); (_ <~ demo_submit ; pret tt)].
Abbreviation demo_lane := (lane_program demo_uuid same_text same_text demo_exn 10 demo_registry demo_key "kid" true).

Lemma demo_pool_lane : Forall demo_lane demo_pool.
Proof. repeat constructor. Qed.

Lemma revocation_final_witness : let w := (run_prog demo_revoke (issued_world "150")).2 in
  let w' := (interleave [0; 1; 0; 0; 1; 1]%nat demo_pool w).2 in
  deleted "ppt" w' /\ forall request answer, w_idempotency w' !! request = Some answer -> w_idempotency w !! request = Some answer \/ charged_other "ppt" answer.
Proof.
  assert (match demo_row with Some row => loads same_text (mr_claims row) | None => Raise KeyError end = Ok (VDict demo_claims)) as Hload by (vm_compute; reflexivity).
  destruct demo_row as [row|] eqn:Hrow; [|discriminate].
  apply (revocation_final demo_uuid same_text same_text demo_exn 10 "ppt" demo_registry demo_key "kid" true
    ltac:(apply Forall_singleton; exact (local_kept demo_uuid same_text same_text demo_exn 10 (uncharged "ppt") (deleted "ppt")))
    "mdt_000000" "ana" "lost" row demo_claims); [exact Hrow|exact Hload|vm_compute; reflexivity|vm_compute; reflexivity|exact demo_pool_lane].
Defined.

Lemma demo_typed : typed demo_world.
Proof. split; try apply map_Forall_empty. constructor. Qed.

(** A mandate, a purchase that needs a human, and then, step by step in turn, the
    human's answer and a second purchase. *)
Definition demo_day : list (prog world unit) :=
  [(_ <~ demo_issue "100" ; pret tt); (_ <~ demo_submit ; pret tt); (_ <~ demo_resolve Approve true ; pret tt); (_ <~ demo_submit ; pret tt)].
Definition demo_turns : list nat := replicate 20 0%nat ++ replicate 60 1%nat ++ concat (replicate 150 [2; 3]%nat).

Lemma demo_day_lane : Forall demo_lane demo_day.
Proof.
  unfold demo_day, demo_issue, demo_submit, demo_resolve. repeat apply Forall_cons_2.
  - exact (LaneIssue demo_uuid same_text same_text demo_exn 10 demo_registry demo_key "kid" true (demo_mandate "100")).
  - exact (LaneSubmit demo_uuid same_text same_text demo_exn 10 demo_registry demo_key "kid" true demo_request).
  - exact (LaneResolve demo_uuid same_text same_text demo_exn 10 demo_registry demo_key "kid" true "esc_000007" Approve "boss" "chat" true).
  - exact (LaneSubmit demo_uuid same_text same_text demo_exn 10 demo_registry demo_key "kid" true demo_request).
  - apply Forall_nil_2.
Qed.

(** The statuses of the rows, table by table. *)
Definition statuses (w : world) : list (string * string) * list (string * string) * list string * list (string * string) * list (string * string) :=
  (map_to_list (mr_status <$> mandates (w_db w)), map_to_list (pu_status <$> w_purchases w), pi_status <$> w_intents w,
   map_to_list (es_status <$> w_escalations w), map_to_list (in_status <$> w_instruments w)).

Lemma columns_typed_witness :
  statuses (interleave demo_turns demo_day demo_world).2 =
    ([("mdt_000014", "exhausted"); ("mdt_000000", "active")],
     [("pur_000012", "awaiting_escalation"); ("pur_000020", "captured"); ("pur_000004", "awaiting_escalation")],
     ["captured"], [("esc_000019", "pending"); ("esc_000007", "resolved")], [("ppt", "active")])%string /\
  typed (interleave demo_turns demo_day demo_world).2.
Proof.
  split; [vm_compute; reflexivity|].
  apply (columns_typed demo_uuid same_text same_text demo_exn 10 demo_registry demo_key "kid" true); [|exact demo_typed|exact demo_day_lane].
  apply Forall_singleton. exact (local_kept demo_uuid same_text same_text demo_exn 10 keeps_types typed).
Defined.

(** *** Escalations *)

(** Three minutes later. *)
Definition later_world : world := at_time 1772359380000000 escalated_world.
Definition demo_escalation : option escalation_row := w_escalations later_world !! "esc_000007"%string.

Lemma silence_denies_witness : exists row, demo_escalation = Some row /\ exists r w', run_prog (demo_resolve Approve true) later_world = (r, w') /\
  (r = Ok TimedOut \/ exists e, r = Raise e) /\ w_escalations w' !! "esc_000007"%string = Some (expired_row row) /\
  w_purchases w' !! es_purchase_id row = with_status "rejected" (Some "ESCALATION_TIMEOUT_DENIED"%string) (stamp later_world) <$> w_purchases later_world !! es_purchase_id row /\
  w_db w' = w_db later_world /\ w_intents w' = w_intents later_world /\ w_instruments w' = w_instruments later_world /\ w_idempotency w' = w_idempotency later_world /\
  forall decision approver channel sticky,
    run_prog (resolve demo_uuid same_text same_text demo_exn 10 demo_registry demo_key "kid" true "esc_000007" decision approver channel sticky) w'
    = (Ok (AlreadyResolved "expired" (Some "TIMEOUT"%string)), w').
Proof.
  assert (match demo_escalation with Some row => is_overdue later_world row | None => false end = true) as Ho by (vm_compute; reflexivity).
  destruct demo_escalation as [row|] eqn:Hrow; [|discriminate]. exists row. split; [reflexivity|]. unfold demo_resolve.
  apply (silence_denies demo_uuid same_text same_text demo_exn 10 demo_registry demo_key "kid" true "esc_000007" Approve "boss" "chat" true row later_world); [exact Hrow|exact Ho].
Defined.

Definition demo_sweep : prog world (list resolution) := sweep demo_uuid same_text elements.

Lemma later_open : open_trail demo_uuid 1 later_world.
Proof.
  split.
  - intros n r Hn Hr. assert (n = w_drawn later_world) as -> by lia.
    assert (forallb (fun r => negb (String.eqb (er_event_id r) ("evt" +:+ "_" +:+ demo_uuid (w_drawn later_world)))) (tr_events (w_trail later_world)) = true) as Hall
      by (vm_compute; reflexivity).
    apply list_elem_of_In in Hr. rewrite forallb_forall in Hall. apply Hall, negb_true_iff, String.eqb_neq in Hr. exact Hr.
  - intros i j Hi Hj _. lia.
  - intros r Hr.
    assert (forallb (fun r => match tr_chains (w_trail later_world) !! er_chain_key r with Some c => er_chain_seq r <=? cr_length c | None => false end)
              (tr_events (w_trail later_world)) = true) as Hall by (vm_compute; reflexivity).
    apply list_elem_of_In in Hr. rewrite forallb_forall in Hall. apply Hall in Hr. destruct (tr_chains _ !! _) as [c|]; [|discriminate]. exists c. split; [done|by apply Z.leb_le].
Qed.

Lemma sweep_expires_overdue_witness : exists rs w', run_prog demo_sweep later_world = (Ok rs, w') /\ length rs = 1%nat /\
  es_status <$> w_escalations w' !! "esc_000007"%string = Some "expired"%string /\ w_db w' = w_db later_world /\
  forall id row, w_escalations w' !! id = Some row -> is_overdue w' row = false.
Proof.
  assert (length (overdue elements later_world) = 1%nat) as Hlen by (vm_compute; reflexivity).
  destruct (sweep_expires_overdue demo_uuid same_text elements later_world) as (rs & w' & Hrun & _ & Hl & Hdb & _ & _ & He & _ & Hnone);
    [reflexivity|rewrite Hlen; exact later_open|]. exists rs, w'. split; [exact Hrun|]. split; [by rewrite Hl|]. split; [|split; [exact Hdb|exact Hnone]].
  rewrite He. vm_compute. reflexivity.
Defined.

(** *** Mandates and the rail *)

Lemma issued_mandate_verifies_witness : exists i w' kvs row, run_prog (demo_issue "150") demo_world = (Ok i, w') /\
  is_claims i = VDict kvs /\ verify_token same_text (is_token i) = Ok (sort_value (VDict kvs)) /\
  (forall k, py_item (sort_value (VDict kvs)) k = (let? v := py_item (VDict kvs) k in Ok (sort_value v))) /\
  agent_key_from_mandate (VDict kvs) = Ok demo_agent_key /\ agent_key_from_mandate (sort_value (VDict kvs)) = Ok demo_agent_key /\
  mandates (w_db w') !! is_jti i = Some row /\ mr_token row = Some (is_token i) /\ loads same_text (mr_claims row) = Ok (VDict kvs) /\
  mr_status row = "active"%string /\ mr_reserved_amount row = "0.00"%string /\ mr_spent_total row = "0.00"%string.
Proof.
  destruct (run_prog (demo_issue "150") demo_world) as [[i|e] w'] eqn:Hrun; [|by apply (f_equal fst) in Hrun; vm_compute in Hrun].
  destruct (issued_mandate_verifies demo_uuid same_text same_text demo_uuid_text (demo_mandate "150") i demo_world w' demo_agent_key None) as (kvs & row & Hall);
    [apply demo_mandates_ok|apply demo_sound|reflexivity|exact Hrun|]. exists i, w', kvs, row. split; [reflexivity|exact Hall].
Defined.

Definition demo_capture (amount : string) : prog world pyval := capture demo_uuid same_text "ppt" (VStr amount) (VStr "USD") "int_1".

Lemma capture_repeats_witness : exists answer w1 kvs, run_prog (demo_capture "130.00") (issued_world "150") = (Ok answer, w1) /\ answer = VDict kvs /\
  forall w2 token_ref' amount' currency', w_idempotency w2 !! "int_1"%string = w_idempotency w1 !! "int_1"%string ->
    run_prog (capture demo_uuid same_text token_ref' amount' currency' "int_1") w2 = (Ok (VDict (dict_set "idempotent_replay" (VBool true) kvs)), w2).
Proof.
  destruct (run_prog (demo_capture "130.00") (issued_world "150")) as [[answer|e] w1] eqn:Hrun; [|by apply (f_equal fst) in Hrun; vm_compute in Hrun].
  destruct (capture_repeats demo_uuid same_text demo_uuid_text "ppt" (VStr "130.00") (VStr "USD") "int_1" (issued_world "150") answer w1) as (kvs & Hall);
    [reflexivity|reflexivity|by intros text [= <-]|vm_compute; reflexivity|exact Hrun|]. exists answer, w1, kvs. split; [reflexivity|exact Hall].
Defined.

(** ** A plain approval *)

(** Which purchase a retry made: escalated again, or captured. *)
Definition retried_as (r : res resolution) : option (string * string * option string + string) :=
  match r with
  | Ok (Retried (Escalated purchase_id escalation_id reason _ _ _ _)) => Some (inl (purchase_id, escalation_id, reason))
  | Ok (Retried (Captured purchase_id _)) => Some (inr purchase_id)
  | _ => None
  end.

(** A human approves, without the sticky choice, the purchase that needed one for
    its amount: the retry meets the same gate and opens a second escalation,
    and nothing is bought.  With the sticky choice the amount is bought, under a
    mandate derived for it.  Either way the purchase the human approved stays
    awaiting its escalation, which is resolved. *)
Theorem plain_approval_escalates_again :
  let summary (answer : answer) (sticky : bool) := let '(r, w) := run_prog (demo_resolve answer sticky) escalated_world in
    (retried_as r, map_to_list ((fun e => (es_status e, es_decision e)) <$> w_escalations w), map_to_list (pu_status <$> w_purchases w), length (map_to_list (w_idempotency w))) in
  summary Approve false = (Some (inl ("pur_000012", "esc_000015", Some "AMOUNT_EXCEEDS_PER_TXN")),
    [("esc_000015", ("pending", None)); ("esc_000007", ("resolved", Some "APPROVE"))],
    [("pur_000012", "awaiting_escalation"); ("pur_000004", "awaiting_escalation")], 0%nat)%string /\
  summary Approve true = (Some (inr "pur_000014"), [("esc_000007", ("resolved", Some "APPROVE"))],
    [("pur_000014", "captured"); ("pur_000004", "awaiting_escalation")], 1%nat)%string.
Proof. vm_compute. split; reflexivity. Qed.
