(* ===== verification/Relay.v ===== *)
(** The outbox relay (api/events/ports.py, relay.py, sinks_memory.py): the
    in-memory store with its in-flight marks, the dispatcher over any sinks, and
    the in-memory sink with its configured failures. *)
From S2P Require Import Prelude PyTime Json Dict.

(** ** ports.py *)

Record OutboxEvent : Type := {
  oe_event_id : string;
  oe_type : string;
  oe_aggregate_id : string;
  oe_payload : pydict;
  oe_created_at : Z;
  oe_seq : option Z;
  oe_relayed_at : option Z;
}.

(** [OutboxEvent(...)] with the checks of [__post_init__]. *)
Definition mk_OutboxEvent (event_id type aggregate_id : string) (payload : pydict) (created_at : datetime) (seq : option Z)
    (relayed_at : option datetime) : res OutboxEvent :=
  if negb (truthy_str event_id) then Raise ValueError
  else if negb (truthy_str type) then Raise ValueError
  else if negb (truthy_str aggregate_id) then Raise ValueError
  else
    let? created := ensure_utc created_at in
    let? relayed := match relayed_at with None => Ok None | Some t => let? u := ensure_utc t in Ok (Some u) end in
    Ok {| oe_event_id := event_id; oe_type := type; oe_aggregate_id := aggregate_id; oe_payload := payload;
          oe_created_at := created; oe_seq := seq; oe_relayed_at := relayed |}.

(** [OutboxEvent.to_dict()] *)
Definition to_dict (e : OutboxEvent) : pyval :=
  VDict [("event_id", VStr (oe_event_id e)); ("type", VStr (oe_type e)); ("aggregate_id", VStr (oe_aggregate_id e));
         ("payload", VDict (oe_payload e)); ("created_at", VStr (isoformat_z (oe_created_at e)));
         ("relayed_at", match oe_relayed_at e with Some t => VStr (isoformat_z t) | None => VNone end)]%string.

Definition with_relayed (t : Z) (e : OutboxEvent) : OutboxEvent :=
  {| oe_event_id := oe_event_id e; oe_type := oe_type e; oe_aggregate_id := oe_aggregate_id e; oe_payload := oe_payload e;
     oe_created_at := oe_created_at e; oe_seq := oe_seq e; oe_relayed_at := Some t |}.
Definition with_seq (n : Z) (e : OutboxEvent) : OutboxEvent :=
  {| oe_event_id := oe_event_id e; oe_type := oe_type e; oe_aggregate_id := oe_aggregate_id e; oe_payload := oe_payload e;
     oe_created_at := oe_created_at e; oe_seq := Some n; oe_relayed_at := oe_relayed_at e |}.

(** ** sinks_memory.py: the store *)

Record InMemoryOutboxStore : Type := { os_events : list OutboxEvent; os_in_flight : gset string }.
Definition empty_store : InMemoryOutboxStore := {| os_events := []; os_in_flight := ∅ |}.

Definition outbox_append (event : OutboxEvent) : st InMemoryOutboxStore OutboxEvent := fun s =>
  let stored := with_seq (Z.of_nat (length (os_events s)) + 1) event in
  (Ok stored, {| os_events := os_events s ++ [stored]; os_in_flight := os_in_flight s |}).

Definition is_pending (e : OutboxEvent) : bool := bool_decide (oe_relayed_at e = None).
Definition is_candidate (in_flight : gset string) (e : OutboxEvent) : bool :=
  is_pending e && negb (bool_decide (oe_event_id e ∈ in_flight)).

(** [l[:limit]] *)
Definition py_take {A} (limit : Z) (l : list A) : list A :=
  if 0 <=? limit then take (Z.to_nat limit) l else take (length l - Z.to_nat (- limit)) l.

Definition fetch_unrelayed (limit : Z) : st InMemoryOutboxStore (list OutboxEvent) := fun s =>
  let batch := py_take limit (List.filter (is_candidate (os_in_flight s)) (os_events s)) in
  (Ok batch, {| os_events := os_events s; os_in_flight := os_in_flight s ∪ list_to_set (map oe_event_id batch) |}).

(** The first event with this id is replaced. *)
Fixpoint mark_first (event_id : string) (t : Z) (l : list OutboxEvent) : list OutboxEvent :=
  match l with
  | [] => []
  | e :: l' => if String.eqb (oe_event_id e) event_id then with_relayed t e :: l' else e :: mark_first event_id t l'
  end.

Definition mark_relayed (event_id : string) (t : Z) : st InMemoryOutboxStore unit :=
  modify (fun s => {| os_events := mark_first event_id t (os_events s); os_in_flight := os_in_flight s ∖ {[event_id]} |}).
Definition release_in_flight (event_id : string) : st InMemoryOutboxStore unit :=
  modify (fun s => {| os_events := os_events s; os_in_flight := os_in_flight s ∖ {[event_id]} |}).

(** ** The destinations *)

(** What the relay asks of sinks and of the clock. *)
Class Sinks : Type := {
  Sink : Type;
  Outside : Type;
  handle : Sink -> OutboxEvent -> Outside -> res unit * Outside;
  clock_now : Outside -> Z * Outside;
}.

(** Sinks whose failures are transient: each refusal uses up patience. *)
Class TransientSinks `{Sinks} : Type := {
  patience : Outside -> nat;
  clock_patience : forall w, patience (clock_now w).2 = patience w;
  handle_patience : forall s e w, match handle s e w with
    | (Ok _, w') => (patience w' <= patience w)%nat
    | (Raise _, w') => (patience w' < patience w)%nat
    end;
}.

(** ** relay.py: the dispatcher *)

Section Relay.
Context `{Sinks}.

Record OutboxRelay : Type := { routes : dict string (list Sink); default_sinks : list Sink }.

Definition register_sink (event_type : string) (sink : Sink) (r : OutboxRelay) : OutboxRelay :=
  {| routes := dset event_type (override (dget event_type (routes r)) [] ++ [sink]) (routes r); default_sinks := default_sinks r |}.

(** [self._routes.get(event.type, self._default_sinks)] *)
Definition sinks_of (r : OutboxRelay) (e : OutboxEvent) : list Sink := override (dget (oe_type e) (routes r)) (default_sinks r).

(** The store, what is outside, and which deliveries were made: to which sink,
    of which event, accepted or not. *)
Record relay_state : Type := { rs_store : InMemoryOutboxStore; rs_outside : Outside; rs_deliveries : list (Sink * string * bool) }.

Definition on_store {A} (m : st InMemoryOutboxStore A) : st relay_state A :=
  zoom rs_store (fun v s => {| rs_store := v; rs_outside := rs_outside s; rs_deliveries := rs_deliveries s |}) m.

Definition now_from_clock : st relay_state Z := fun s =>
  let '(t, w) := clock_now (rs_outside s) in
  (Ok t, {| rs_store := rs_store s; rs_outside := w; rs_deliveries := rs_deliveries s |}).

Definition deliver (sink : Sink) (e : OutboxEvent) : st relay_state unit := fun s =>
  let '(r, w) := handle sink e (rs_outside s) in
  (r, {| rs_store := rs_store s; rs_outside := w;
         rs_deliveries := rs_deliveries s ++ [(sink, oe_event_id e, is_ok r)] |}).

(** [for sink in sinks: try ... except Exception ... break], [all_delivered]. *)
Fixpoint deliver_all (sinks : list Sink) (e : OutboxEvent) : st relay_state bool :=
  match sinks with
  | [] => ret true
  | sink :: rest =>
      delivered <- catch (deliver sink e ;;; ret true) (fun _ => Some (on_store (release_in_flight (oe_event_id e)) ;;; ret false)) ;;
      if (delivered : bool) then deliver_all rest e else ret false
  end.

(** One turn of the loop: whether the event counts as drained. *)
Definition relay_event (r : OutboxRelay) (e : OutboxEvent) : st relay_state bool :=
  now <- now_from_clock ;;
  match sinks_of r e with
  | [] => on_store (mark_relayed (oe_event_id e) now) ;;; ret true
  | sinks =>
      all_delivered <- deliver_all sinks e ;;
      if (all_delivered : bool) then on_store (mark_relayed (oe_event_id e) now) ;;; ret true else ret false
  end.

Fixpoint relay_all (r : OutboxRelay) (events : list OutboxEvent) (drained : Z) : st relay_state Z :=
  match events with
  | [] => ret drained
  | e :: rest =>
      counted <- relay_event r e ;;
      relay_all r rest (if (counted : bool) then drained + 1 else drained)
  end.

Definition drain (r : OutboxRelay) (limit : Z) : st relay_state Z :=
  events <- on_store (fetch_unrelayed limit) ;;
  relay_all r events 0.
End Relay.

(** ** sinks_memory.py: the sink *)

Record InMemorySink : Type := {
  received_events : list OutboxEvent;
  delivered_ids : gset string;
  failure_counts : dict string Z;
}.

Definition fail_times_for_event (event_id : string) (times : Z) (s : InMemorySink) : InMemorySink :=
  {| received_events := received_events s; delivered_ids := delivered_ids s; failure_counts := dset event_id times (failure_counts s) |}.

Definition sink_handle (e : OutboxEvent) : st InMemorySink unit := fun s =>
  let remaining := override (dget (oe_event_id e) (failure_counts s)) 0 in
  if 0 <? remaining then
    (Raise RuntimeError, fail_times_for_event (oe_event_id e) (remaining - 1) s)
  else
    (Ok tt, {| received_events := received_events s ++ [e]; delivered_ids := delivered_ids s ∪ {[oe_event_id e]};
               failure_counts := failure_counts s |}).

(** Several named sinks and a clock. *)
Record memory_sinks : Type := { ms_sinks : list InMemorySink; ms_time : Z }.

Definition failures_left (s : InMemorySink) : nat := Z.to_nat (dsum_of (fun _ n => Z.max 0 n) (failure_counts s)).
Definition total_failures (l : list InMemorySink) : nat := foldr (fun s acc => (failures_left s + acc)%nat) 0%nat l.

Definition memory_handle (i : nat) (e : OutboxEvent) (w : memory_sinks) : res unit * memory_sinks :=
  match ms_sinks w !! i with
  | Some s => let '(r, s') := sink_handle e s in (r, {| ms_sinks := <[i := s']> (ms_sinks w); ms_time := ms_time w |})
  | None => (Ok tt, w)
  end.
