(* ===== verification/RelayFacts.v ===== *)
(** The outbox relay delivers: an event is marked only when all its sinks
    accepted it, everything pending is relayed once sinks stop failing, and
    events that never go through hold up everything behind a full batch of
    them. *)
From S2P Require Import Prelude PyTime Json Dict Relay.

Abbreviation ids l := (map oe_event_id l).

(** ** The store *)

Lemma mark_first_ids id t l : ids (mark_first id t l) = ids l.
Proof. induction l as [|e l IH]; cbn; [done|]. destruct (String.eqb _ _); cbn; [done|by rewrite IH]. Qed.

Lemma mark_first_elem id t l e : NoDup (ids l) -> e ∈ l -> oe_event_id e = id -> 
  forall x, x ∈ mark_first id t l <-> x = with_relayed t e \/ (x ∈ l /\ oe_event_id x <> id).
Proof.
  intros Hnd Hin Hid x. induction l as [|y l IH]; [by apply not_elem_of_nil in Hin|]. cbn in *. apply NoDup_cons in Hnd as [Hy Hnd].
  destruct (String.eqb_spec (oe_event_id y) id) as [Ey|Ey].
  - assert (e = y) as ->.
    { apply elem_of_cons in Hin as [|Hin]; [done|]. exfalso. apply Hy. rewrite Ey, <- Hid. by apply list_elem_of_fmap_2. }
    rewrite !elem_of_cons. split; [|naive_solver]. intros [->|Hx]; [by left|]. right. split; [by right|].
    intros Hxid. apply Hy. rewrite Ey, <- Hxid. by apply list_elem_of_fmap_2.
  - apply elem_of_cons in Hin as [->|Hin]; [done|]. rewrite !elem_of_cons, IH by done. naive_solver.
Qed.

Definition pending (l : list OutboxEvent) : list OutboxEvent := List.filter is_pending l.
Arguments pending : simpl never.

Lemma pending_elem e l : e ∈ pending l <-> e ∈ l /\ oe_relayed_at e = None.
Proof.
  unfold pending. rewrite list_elem_of_In, filter_In, <- list_elem_of_In. unfold is_pending. by rewrite bool_decide_eq_true.
Qed.

(** Marking a pending event leaves one fewer. *)
Lemma mark_first_pending id t l e : NoDup (ids l) -> e ∈ pending l -> oe_event_id e = id ->
  (length (pending (mark_first id t l)) + 1 = length (pending l))%nat.
Proof.
  intros Hnd [Hin Hp]%pending_elem Hid. induction l as [|y l IH]; [by apply not_elem_of_nil in Hin|]. cbn in *.
  apply NoDup_cons in Hnd as [Hy Hnd]. destruct (String.eqb_spec (oe_event_id y) id) as [Ey|Ey].
  - assert (e = y) as ->.
    { apply elem_of_cons in Hin as [|Hin]; [done|]. exfalso. apply Hy. rewrite Ey, <- Hid. by apply list_elem_of_fmap_2. }
    assert (is_pending y = true) as Hpy by (unfold is_pending; by rewrite Hp).
    unfold pending. cbn [List.filter]. rewrite Hpy. replace (is_pending (with_relayed t y)) with false by done. cbn. lia.
  - apply elem_of_cons in Hin as [->|Hin]; [done|]. specialize (IH Hnd Hin). unfold pending in *. cbn. destruct (is_pending y); cbn; lia.
Qed.

Lemma mark_first_keeps id t l x : x ∈ l -> oe_event_id x <> id -> x ∈ mark_first id t l.
Proof.
  intros Hin Hne. induction l as [|y l IH]; [done|]. cbn. apply elem_of_cons in Hin as [->|Hin].
  - destruct (String.eqb_spec (oe_event_id y) id); [done|by left].
  - destruct (String.eqb _ _); right; [done|by apply IH].
Qed.

Lemma py_take_take {A} (n : nat) (l : list A) : py_take (Z.of_nat n) l = take n l.
Proof. unfold py_take. destruct (Z.leb_spec 0 (Z.of_nat n)); [by rewrite Nat2Z.id|lia]. Qed.

Section Facts.
Context `{Sinks}.
Variable r : OutboxRelay.

(** Every sink of the event has accepted it. *)
Definition delivered (log : list (Sink * string * bool)) (e : OutboxEvent) : Prop :=
  forall sink, sink ∈ sinks_of r e -> (sink, oe_event_id e, true) ∈ log.

Lemma delivered_app log log' e : delivered log e -> delivered (log ++ log') e.
Proof. intros Hd sink Hs. apply elem_of_app. left. by apply Hd. Qed.

(** ** One event *)

(** What the delivery of an event to some sinks does: it only adds to the log,
    and on a refusal takes the mark off. *)
Lemma deliver_all_effect sinks e (s : relay_state) : exists (b : bool) new (w : Outside), deliver_all sinks e s =
  (Ok b, {| rs_store := {| os_events := os_events (rs_store s);
                           os_in_flight := if b then os_in_flight (rs_store s) else os_in_flight (rs_store s) ∖ {[oe_event_id e]} |};
            rs_outside := w; rs_deliveries := rs_deliveries s ++ new |}) /\
  (b = true -> forall sink, sink ∈ sinks -> (sink, oe_event_id e, true) ∈ new).
Proof.
  revert s. induction sinks as [|sink sinks IH]; intros s.
  - exists true, [], (rs_outside s). cbn. rewrite app_nil_r. destruct s as [[evs fl] w log]. split; [done|]. intros _ sk Hsk. by apply not_elem_of_nil in Hsk.
  - cbn [deliver_all]. unfold sbind at 1, catch, sbind at 1, deliver. destruct (handle sink e (rs_outside s)) as [[[]|x] w]; cbn.
    + destruct (IH {| rs_store := rs_store s; rs_outside := w; rs_deliveries := rs_deliveries s ++ [(sink, oe_event_id e, true)] |})
        as (b & new & w' & -> & Hb). exists b, ((sink, oe_event_id e, true) :: new), w'. cbn. rewrite <- (assoc_L (++)). split; [done|].
      intros Ht sk [->|Hsk]%elem_of_cons; [by left|]. right. by apply Hb.
    + exists false, [(sink, oe_event_id e, false)], w. by split.
Qed.

(** One turn of the loop. *)
Lemma relay_event_effect e (s : relay_state) : exists (b : bool) new (w : Outside) (t : Z), relay_event r e s =
  (Ok b, {| rs_store := {| os_events := if b then mark_first (oe_event_id e) t (os_events (rs_store s)) else os_events (rs_store s);
                           os_in_flight := os_in_flight (rs_store s) ∖ {[oe_event_id e]} |};
            rs_outside := w; rs_deliveries := rs_deliveries s ++ new |}) /\
  (b = true -> delivered new e).
Proof.
  unfold relay_event, sbind at 1, now_from_clock. destruct (clock_now (rs_outside s)) as [t w]. cbn -[deliver_all].
  unfold delivered. destruct (sinks_of r e) as [|sink sinks] eqn:Es.
  - exists true, [], w, t. cbn. rewrite app_nil_r. split; [done|]. intros _ sk Hsk. by apply not_elem_of_nil in Hsk.
  - unfold sbind at 1. destruct (deliver_all_effect (sink :: sinks) e {| rs_store := rs_store s; rs_outside := w; rs_deliveries := rs_deliveries s |})
      as ([] & new & w' & -> & Hb); cbn; [exists true, new, w', t|exists false, new, w', t]; split; [done|auto|done|done].
Qed.

(** ** Safety *)

(** Relayed events were delivered. *)
Definition relayed_delivered (s : relay_state) : Prop :=
  NoDup (ids (os_events (rs_store s))) /\
  forall e, e ∈ os_events (rs_store s) -> oe_relayed_at e <> None -> delivered (rs_deliveries s) e.

Lemma relay_all_safe events n s : (forall e, e ∈ events -> e ∈ os_events (rs_store s)) -> NoDup (ids events) ->
  relayed_delivered s -> relayed_delivered (relay_all r events n s).2 /\
    ids (os_events (rs_store (relay_all r events n s).2)) = ids (os_events (rs_store s)).
Proof.
  revert n s. induction events as [|e events IH]; intros n s Hin Hnde [Hnd Hd]; [done|]. cbn [relay_all]. unfold sbind at 1 2.
  destruct (relay_event_effect e s) as (b & new & w & t & -> & Hb). apply NoDup_cons in Hnde as [He Hnde].
  assert (e ∈ os_events (rs_store s)) as Hine by (apply Hin; left).
  match goal with |- relayed_delivered (relay_all r events ?n' ?s').2 /\ _ => destruct (IH n' s') as [IH1 IH2] end.
  - intros x Hx. cbn. destruct b; [|apply Hin; by right]. apply mark_first_keeps; [apply Hin; by right|].
    intros Heq. apply He. rewrite <- Heq. by apply list_elem_of_fmap_2.
  - done.
  - split; cbn; [destruct b; [by rewrite mark_first_ids|done]|]. intros x Hx Hr.
    destruct b; [|apply delivered_app; by apply Hd].
    apply (mark_first_elem _ t _ e Hnd Hine eq_refl) in Hx as [->|[Hx _]]; [|apply delivered_app; by apply Hd].
    intros sink Hs. apply elem_of_app. right. by apply Hb.
  - split; [done|]. rewrite IH2. cbn. destruct b; [by rewrite mark_first_ids|done].
Qed.

Lemma batch_sub limit s e : e ∈ py_take limit (List.filter (is_candidate (os_in_flight s)) (os_events s)) -> e ∈ pending (os_events s).
Proof.
  intros He. assert (e ∈ List.filter (is_candidate (os_in_flight s)) (os_events s)) as Hf.
  { unfold py_take in He. destruct (0 <=? limit); by eapply (subseteq_take). }
  apply list_elem_of_In, filter_In in Hf as [Hin%list_elem_of_In Hc]. unfold is_candidate in Hc. apply andb_prop in Hc as [Hp _].
  apply pending_elem. split; [done|]. by apply bool_decide_eq_true in Hp.
Qed.

(** ** Histories *)

(** What the program does with the outbox: handlers append, the poller drains. *)
Inductive relay_op : Type := Append (e : OutboxEvent) | Drain (limit : Z).

Definition relay_step (s : relay_state) (op : relay_op) : relay_state :=
  match op with Append e => (on_store (outbox_append e) s).2 | Drain limit => (drain r limit s).2 end.
Definition relay_run : relay_state -> list relay_op -> relay_state := foldl relay_step.
Definition appended (ops : list relay_op) : list OutboxEvent := omap (fun op => match op with Append e => Some e | Drain _ => None end) ops.
Definition opening (w : Outside) : relay_state := {| rs_store := empty_store; rs_outside := w; rs_deliveries := [] |}.

Lemma batch_ids limit s : NoDup (ids (os_events s)) -> NoDup (ids (py_take limit (List.filter (is_candidate (os_in_flight s)) (os_events s)))).
Proof.
  intros Hnd. eapply sublist_NoDup; [exact Hnd|]. apply (fmap_sublist oe_event_id). etrans; [unfold py_take; destruct (0 <=? limit); apply sublist_take|].
  generalize (os_events s). intros l. induction l as [|e l IH]; cbn; [constructor|]. destruct (is_candidate _ e); by constructor.
Qed.

Lemma drain_safe limit s : relayed_delivered s ->
  relayed_delivered (drain r limit s).2 /\ ids (os_events (rs_store (drain r limit s).2)) = ids (os_events (rs_store s)).
Proof.
  intros [Hnd Hd]. unfold drain, sbind, on_store, zoom, fetch_unrelayed. cbn -[py_take relay_all].
  apply (relay_all_safe _ 0 {| rs_store := {| os_events := _; os_in_flight := _ |}; rs_outside := _; rs_deliveries := _ |}); cbn -[py_take].
  - by intros e [He _]%batch_sub%pending_elem.
  - by apply batch_ids.
  - by split.
Qed.

Lemma append_safe e s : relayed_delivered s -> is_pending e = true -> NoDup (ids (os_events (rs_store s)) ++ [oe_event_id e]) ->
  relayed_delivered (on_store (outbox_append e) s).2.
Proof.
  intros [Hnd Hd] Hp Hnd'. split; cbn; [by rewrite map_app|]. intros x [Hx|Hx]%elem_of_app Hr; [by apply Hd|].
  apply list_elem_of_singleton in Hx as ->. by apply bool_decide_eq_true in Hp.
Qed.

Lemma run_safe ops s : relayed_delivered s -> NoDup (ids (os_events (rs_store s)) ++ ids (appended ops)) ->
  Forall (fun e => is_pending e = true) (appended ops) ->
  relayed_delivered (relay_run s ops) /\ ids (os_events (rs_store (relay_run s ops))) = ids (os_events (rs_store s)) ++ ids (appended ops).
Proof.
  revert s. induction ops as [|[e|limit] ops IH]; intros s Hs Hnd Hp; cbn in *.
  - by rewrite app_nil_r.
  - apply Forall_cons in Hp as [Hpe Hp]. rewrite cons_middle, (assoc_L (++)) in Hnd.
    destruct (IH (on_store (outbox_append e) s).2) as [IH1 IH2].
    + apply append_safe; [done..|]. by apply NoDup_app in Hnd as [? _].
    + cbn. by rewrite map_app.
    + done.
    + split; [done|]. etrans; [exact IH2|]. cbn. by rewrite map_app, <- app_assoc.
  - destruct (drain_safe limit s Hs) as [Hd Hi]. destruct (IH (drain r limit s).2) as [IH1 IH2]; [done|by rewrite Hi|done|].
    split; [done|]. by rewrite <- Hi.
Qed.

Lemma drains_safe limit n s : relayed_delivered s ->
  relayed_delivered (relay_run s (repeat (Drain limit) n)) /\
  ids (os_events (rs_store (relay_run s (repeat (Drain limit) n)))) = ids (os_events (rs_store s)).
Proof.
  revert s. induction n as [|n IH]; intros s Hs; [done|]. destruct (drain_safe limit s Hs) as [Hd Hi].
  destruct (IH (drain r limit s).2 Hd) as [IH1 IH2]. split; [exact IH1|]. by rewrite <- Hi.
Qed.

(** At least once: whatever the order of appends and drains and whatever the
    sinks refuse, the store still holds every event that was appended, in
    order, and an event it shows as relayed was accepted by each of the sinks
    the relay routes it to. *)
Theorem relayed_means_delivered (w : Outside) ops :
  NoDup (ids (appended ops)) -> Forall (fun e => is_pending e = true) (appended ops) ->
  let s := relay_run (opening w) ops in
  ids (os_events (rs_store s)) = ids (appended ops) /\
  forall e, e ∈ os_events (rs_store s) -> oe_relayed_at e <> None ->
    forall sink, sink ∈ sinks_of r e -> (sink, oe_event_id e, true) ∈ rs_deliveries s.
Proof.
  intros Hnd Hp s. destruct (run_safe ops (opening w)) as [[_ Hs] Hi]; [|done|done|done].
  split; [constructor|]. by intros e ?%not_elem_of_nil.
Qed.

(** ** Starvation *)

(** An event whose first sink never accepts it. *)
Definition stuck (e : OutboxEvent) : Prop :=
  match sinks_of r e with [] => False | sink :: _ => forall w, exists x, (handle sink e w).1 = Raise x end.

Lemma stuck_event e s : stuck e -> exists sink w, relay_event r e s =
  (Ok false, {| rs_store := {| os_events := os_events (rs_store s); os_in_flight := os_in_flight (rs_store s) ∖ {[oe_event_id e]} |};
                rs_outside := w; rs_deliveries := rs_deliveries s ++ [(sink, oe_event_id e, false)] |}).
Proof.
  unfold stuck, relay_event. destruct (sinks_of r e) as [|sink sinks]; [done|]. intros Hstuck. exists sink.
  unfold sbind at 1, now_from_clock. destruct (clock_now (rs_outside s)) as [t w]. cbn -[deliver_all]. unfold sbind at 1.
  cbn [deliver_all]. unfold sbind at 1, catch, sbind at 1, deliver. cbn. specialize (Hstuck w).
  destruct (handle sink e w) as [res w']. destruct Hstuck as [x Hx]. cbn in Hx. subst res. cbn. by exists w'.
Qed.

Lemma stuck_all events n s : Forall stuck events -> exists new w, relay_all r events n s =
  (Ok n, {| rs_store := {| os_events := os_events (rs_store s); os_in_flight := os_in_flight (rs_store s) ∖ list_to_set (ids events) |};
            rs_outside := w; rs_deliveries := rs_deliveries s ++ new |}) /\
  Forall (fun d => d.2 = false /\ d.1.2 ∈ ids events) new.
Proof.
  revert s. induction events as [|e events IH]; intros s Hst.
  - exists [], (rs_outside s). destruct s as [[evs fl] w log]. cbn. rewrite app_nil_r, difference_empty_L. by split.
  - apply Forall_cons in Hst as [He Hst]. cbn [relay_all]. unfold sbind at 1. destruct (stuck_event e s He) as (sink & w & ->).
    match goal with |- context [relay_all r events n ?s'] => destruct (IH s' Hst) as (new & w' & -> & Hnew) end.
    exists ((sink, oe_event_id e, false) :: new), w'. cbn. rewrite <- (assoc_L (++)), difference_difference_l_L. split; [done|].
    constructor; [split; [done|by left]|]. eapply Forall_impl; [exact Hnew|]. intros d [? ?]. split; [done|by right].
Qed.

Lemma candidates_pending l : List.filter (is_candidate ∅) l = pending l.
Proof. apply filter_ext. intros e. unfold is_candidate. by rewrite andb_true_r. Qed.

Definition drains (limit : Z) (n : nat) (s : relay_state) : relay_state := relay_run s (repeat (Drain limit) n).

(** When the first [limit] pending events are never accepted, no number of
    drains changes the store: every delivery that is tried is of one of them
    and is refused, and no event behind them is ever tried. *)
Theorem full_batch_of_refusals_starves (s : relay_state) batch rest n :
  os_in_flight (rs_store s) = ∅ -> pending (os_events (rs_store s)) = batch ++ rest -> Forall stuck batch ->
  let s' := drains (Z.of_nat (length batch)) n s in
  rs_store s' = rs_store s /\
  exists new, rs_deliveries s' = rs_deliveries s ++ new /\ Forall (fun d => d.2 = false /\ d.1.2 ∈ ids batch) new.
Proof.
  intros Hfl Hp Hst. unfold drains. revert s Hfl Hp. induction n as [|n IH]; intros s Hfl Hp.
  - cbn. split; [done|]. exists []. by rewrite app_nil_r.
  - change (relay_run s (repeat ?d (S n))) with (relay_run (drain r (Z.of_nat (length batch)) s).2 (repeat d n)).
    assert (exists new w, (drain r (Z.of_nat (length batch)) s).2 =
        {| rs_store := rs_store s; rs_outside := w; rs_deliveries := rs_deliveries s ++ new |} /\
        Forall (fun d => d.2 = false /\ d.1.2 ∈ ids batch) new) as (new & w & -> & Hnew).
    { unfold drain, sbind, on_store, zoom, fetch_unrelayed. cbn -[relay_all py_take]. rewrite Hfl, candidates_pending, Hp, py_take_take, take_app_length.
      match goal with |- context [relay_all r batch 0 ?s'] => destruct (stuck_all batch 0 s' Hst) as (new & w & -> & Hnew) end.
      exists new, w. cbn. split; [|done]. f_equal. destruct (rs_store s) as [evs fl]. cbn in *. subst fl. f_equal. set_solver. }
    destruct (IH {| rs_store := rs_store s; rs_outside := w; rs_deliveries := rs_deliveries s ++ new |} Hfl Hp) as [IH1 (new' & IH2 & Hnew')].
    split; [exact IH1|]. exists (new ++ new'). split; [by rewrite (assoc_L (++))|]. by apply Forall_app.
Qed.
End Facts.

(** ** Liveness *)

Section Live.
Context `{TransientSinks}.
Variable r : OutboxRelay.

(** What is left to do: the events still pending and the refusals left. *)
Definition work (s : relay_state) : nat := (length (pending (os_events (rs_store s))) + patience (rs_outside s))%nat.

Lemma deliver_all_patience sinks e (s : relay_state) :
  match deliver_all sinks e s with
  | (Ok true, s') => (patience (rs_outside s') <= patience (rs_outside s))%nat
  | (_, s') => (patience (rs_outside s') < patience (rs_outside s))%nat
  end.
Proof.
  revert s. induction sinks as [|sink sinks IH]; intros s; cbn; [lia|].
  unfold sbind at 1, catch, sbind at 1, deliver. pose proof (handle_patience sink e (rs_outside s)) as Hh.
  destruct (handle sink e (rs_outside s)) as [[[]|x] w]; cbn; [|lia].
  match goal with |- match deliver_all sinks e ?s' with _ => _ end => specialize (IH s'); cbn in IH; destruct (deliver_all sinks e s') as [[[]|?] ?] end; lia.
Qed.

Lemma relay_event_patience e (s : relay_state) :
  match relay_event r e s with
  | (Ok true, s') => (patience (rs_outside s') <= patience (rs_outside s))%nat
  | (_, s') => (patience (rs_outside s') < patience (rs_outside s))%nat
  end.
Proof.
  unfold relay_event, sbind at 1, now_from_clock. pose proof (clock_patience (rs_outside s)) as Hc.
  destruct (clock_now (rs_outside s)) as [t w]. cbn in Hc. cbn -[deliver_all]. destruct (sinks_of r e) as [|sink sinks]; [cbn; lia|].
  unfold sbind at 1.
  pose proof (deliver_all_patience (sink :: sinks) e {| rs_store := rs_store s; rs_outside := w; rs_deliveries := rs_deliveries s |}) as Hd.
  destruct (deliver_all (sink :: sinks) e _) as [[[]|?] ?]; cbn in *; lia.
Qed.

(** Each turn of the loop gets something done. *)
Lemma relay_event_work e s : NoDup (ids (os_events (rs_store s))) -> e ∈ pending (os_events (rs_store s)) ->
  (work (relay_event r e s).2 + 1 <= work s)%nat.
Proof.
  intros Hnd Hp. pose proof (relay_event_patience e s) as Hpat. destruct (relay_event_effect r e s) as (b & new & w & t & Heq & _).
  rewrite Heq in *. unfold work. cbn in *. destruct b; [|lia]. pose proof (mark_first_pending _ t _ e Hnd Hp eq_refl). lia.
Qed.

Lemma relay_all_work events n s : NoDup (ids (os_events (rs_store s))) -> NoDup (ids events) ->
  (forall e, e ∈ events -> e ∈ pending (os_events (rs_store s))) ->
  (work (relay_all r events n s).2 + length events <= work s)%nat /\
  os_in_flight (rs_store (relay_all r events n s).2) = os_in_flight (rs_store s) ∖ list_to_set (ids events).
Proof.
  revert n s. induction events as [|e events IH]; intros n s Hnd Hnde Hp; cbn [relay_all].
  - cbn. split; [lia|set_solver].
  - unfold sbind at 1 2. assert (e ∈ pending (os_events (rs_store s))) as Hpe by (apply Hp; left).
    pose proof (relay_event_work e s Hnd Hpe) as Hw. destruct (relay_event_effect r e s) as (b & new & w & t & Heq & _).
    rewrite Heq in *. apply NoDup_cons in Hnde as [He Hnde].
    match goal with |- (work (relay_all r events ?n' ?s').2 + _ <= _)%nat /\ _ => destruct (IH n' s') as [IH1 IH2] end.
    + cbn. destruct b; [by rewrite mark_first_ids|done].
    + done.
    + intros x Hx. specialize (Hp x (list_elem_of_further _ _ _ Hx)). cbn. destruct b; [|done].
      apply pending_elem in Hp as [Hin Hr]. apply pending_elem. split; [|done]. apply mark_first_keeps; [done|].
      intros Heq'. apply He. rewrite <- Heq'. by apply list_elem_of_fmap_2.
    + cbn [length]. split; [cbn in Hw; lia|]. rewrite IH2. cbn. set_solver.
Qed.

Lemma drain_work limit s : NoDup (ids (os_events (rs_store s))) -> os_in_flight (rs_store s) = ∅ ->
  let batch := py_take limit (pending (os_events (rs_store s))) in
  (work (drain r limit s).2 + length batch <= work s)%nat /\ os_in_flight (rs_store (drain r limit s).2) = ∅.
Proof.
  intros Hnd Hfl batch. pose proof (batch_ids limit (rs_store s) Hnd) as Hnb. pose proof (batch_sub limit (rs_store s)) as Hsub.
  rewrite Hfl, candidates_pending in Hnb, Hsub. unfold drain, sbind, on_store, zoom, fetch_unrelayed. cbn -[relay_all py_take].
  rewrite Hfl, candidates_pending. fold batch in Hnb, Hsub |- *.
  match goal with |- context [relay_all r batch 0 ?s'] => destruct (relay_all_work batch 0 s' Hnd Hnb Hsub) as [Hw Hf] end.
  split; [exact Hw|]. rewrite Hf. cbn. set_solver.
Qed.

Lemma drains_idle limit n (s : relay_state) : pending (os_events (rs_store s)) = [] -> os_in_flight (rs_store s) = ∅ ->
  drains r limit n s = s.
Proof.
  intros Hp Hfl. induction n as [|n IH]; [done|]. change (drains r limit (S n) s) with (drains r limit n (drain r limit s).2).
  replace (drain r limit s).2 with s; [done|].
  unfold drain, sbind, on_store, zoom, fetch_unrelayed. cbn -[relay_all py_take]. rewrite Hfl, candidates_pending, Hp.
  assert (py_take limit (@nil OutboxEvent) = []) as -> by (unfold py_take; destruct (0 <=? limit); by rewrite take_nil).
  cbn. destruct s as [[evs fl] w log]. cbn in *. subst fl. done.
Qed.

Lemma drains_finish limit n s : 1 <= limit -> relayed_delivered r s -> os_in_flight (rs_store s) = ∅ -> (work s <= n)%nat ->
  pending (os_events (rs_store (drains r limit n s))) = [].
Proof.
  intros Hl. revert s. induction n as [|n IH]; intros s Hs Hfl Hw.
  - unfold work in Hw. destruct (pending _) eqn:Hp; cbn in Hw; [|lia]. done.
  - destruct (pending (os_events (rs_store s))) as [|e l] eqn:Hp; [by rewrite drains_idle|].
    change (drains r limit (S n) s) with (drains r limit n (drain r limit s).2).
    destruct (drain_work limit s (proj1 Hs) Hfl) as [Hd Hfl']. apply IH; [by apply drain_safe|done|].
    rewrite Hp in Hd. unfold py_take in Hd. destruct (Z.leb_spec 0 limit); [|lia]. rewrite length_take in Hd. cbn [length] in Hd. lia.
Qed.

Lemma run_work ops s : relayed_delivered r s -> NoDup (ids (os_events (rs_store s)) ++ ids (appended ops)) ->
  Forall (fun e => is_pending e = true) (appended ops) -> os_in_flight (rs_store s) = ∅ ->
  os_in_flight (rs_store (relay_run r s ops)) = ∅ /\ (work (relay_run r s ops) <= work s + length (appended ops))%nat.
Proof.
  revert s. induction ops as [|[e|limit] ops IH]; intros s Hs Hnd Hp Hfl; cbn in Hnd, Hp.
  - cbn. split; [done|lia].
  - apply Forall_cons in Hp as [Hpe Hp]. rewrite cons_middle, (assoc_L (++)) in Hnd.
    destruct (IH (on_store (outbox_append e) s).2) as [IH1 IH2].
    + apply append_safe; [done..|]. by apply NoDup_app in Hnd as [? _].
    + cbn. by rewrite map_app.
    + done.
    + done.
    + split; [done|]. assert (work (on_store (outbox_append e) s).2 <= work s + 1)%nat as Hw.
      2: { change (length (appended (Append e :: ops))) with (S (length (appended ops))). etrans; [exact IH2|]. lia. }
      unfold work, pending. cbn. rewrite List.filter_app, length_app. cbn. destruct (is_pending _); cbn; lia.
  - destruct (drain_safe r limit s Hs) as [Hd Hi]. destruct (drain_work limit s (proj1 Hs) Hfl) as [Hw Hf].
    destruct (IH (drain r limit s).2) as [IH1 IH2]; [done|by rewrite Hi|done|done|].
    split; [exact IH1|]. etrans; [exact IH2|]. change (appended (Drain limit :: ops)) with (appended ops). lia.
Qed.

(** C28: Eventually: when refusals are transient, draining after any history as many
    times as there are events and refusals left delivers everything: nothing is
    pending and every event appended was accepted by each of its sinks. *)
Theorem everything_delivered (w : Outside) ops limit n :
  NoDup (ids (appended ops)) -> Forall (fun e => is_pending e = true) (appended ops) -> 1 <= limit ->
  (length (appended ops) + patience w <= n)%nat ->
  let s := drains r limit n (relay_run r (opening w) ops) in
  ids (os_events (rs_store s)) = ids (appended ops) /\
  forall e, e ∈ os_events (rs_store s) ->
    oe_relayed_at e <> None /\ forall sink, sink ∈ sinks_of r e -> (sink, oe_event_id e, true) ∈ rs_deliveries s.
Proof.
  intros Hnd Hp Hl Hn s. assert (relayed_delivered r (opening w)) as Ho.
  { split; [constructor|]. by intros e ?%not_elem_of_nil. }
  destruct (run_safe r ops (opening w) Ho Hnd Hp) as [H1 Hi]. destruct (run_work ops (opening w) Ho Hnd Hp eq_refl) as [Hfl Hw].
  destruct (drains_safe r limit n _ H1) as [H2 Hi2]. split; [by etrans; [exact Hi2|exact Hi]|].
  assert (pending (os_events (rs_store s)) = []) as Hdone by (apply drains_finish; [done..|change (work (opening w)) with (patience w) in Hw; lia]).
  intros e He. assert (oe_relayed_at e <> None) as Hr; [|split; [done|by apply H2]].
  intros Hr. assert (e ∈ pending (os_events (rs_store s))) as Hbad by by apply pending_elem. rewrite Hdone in Hbad.
  by apply not_elem_of_nil in Hbad.
Qed.
End Live.

(** ** The in-memory sinks *)

#[export] Instance memory_Sinks : Sinks :=
  {| Sink := nat; Outside := memory_sinks; handle := memory_handle;
     clock_now w := (ms_time w, {| ms_sinks := ms_sinks w; ms_time := ms_time w + 1 |}) |}.

Lemma sink_handle_failures e s : match sink_handle e s with
  | (Ok _, s') => failures_left s' = failures_left s
  | (Raise _, s') => (failures_left s' < failures_left s)%nat
  end.
Proof.
  unfold sink_handle. destruct (Z.ltb_spec 0 (override (dget (oe_event_id e) (failure_counts s)) 0)) as [Hr|Hr]; [|done].
  unfold failures_left, fail_times_for_event. cbn [failure_counts]. rewrite dsum_of_dset. destruct (dget _ _) as [k|] eqn:Hk; cbn in *; [|lia].
  pose proof (dsum_of_dget_le (fun _ n => Z.max 0 n) (oe_event_id e) k (failure_counts s) ltac:(intros; lia) Hk) as Hle. cbn beta in Hle. lia.
Qed.

Lemma total_failures_insert l i s s' : l !! i = Some s ->
  (total_failures (<[i := s']> l) + failures_left s = total_failures l + failures_left s')%nat.
Proof. revert i. induction l as [|x l IH]; intros [|i]; cbn; try done; [intros [= ->]; lia|]. intros Hi. specialize (IH i Hi). rewrite <- !Nat.add_assoc. f_equal. exact IH. Qed.

Lemma memory_handle_failures i e w : match memory_handle i e w with
  | (Ok _, w') => (total_failures (ms_sinks w') <= total_failures (ms_sinks w))%nat
  | (Raise _, w') => (total_failures (ms_sinks w') < total_failures (ms_sinks w))%nat
  end.
Proof.
  unfold memory_handle. destruct (ms_sinks w !! i) as [s|] eqn:Hi; [|done].
  pose proof (sink_handle_failures e s) as Hf. destruct (sink_handle e s) as [[[]|x] s'];
    pose proof (total_failures_insert _ _ _ s' Hi); cbn [ms_sinks]; lia.
Qed.

#[export] Instance memory_transient : TransientSinks :=
  {| patience w := total_failures (ms_sinks w); clock_patience _ := eq_refl; handle_patience i e w := memory_handle_failures i e w |}.

(** ** Examples *)

(** Two events to a flaky sink and one that audits; the first event's sink
    refuses it twice. *)
Definition demo_event (id type : string) : OutboxEvent :=
  {| oe_event_id := id; oe_type := type; oe_aggregate_id := "m1"; oe_payload := []; oe_created_at := 0; oe_seq := None; oe_relayed_at := None |}.
Definition demo_sink : InMemorySink := {| received_events := []; delivered_ids := ∅; failure_counts := [] |}.
Definition demo_sinks : memory_sinks := {| ms_sinks := [fail_times_for_event "e1" 2 demo_sink; demo_sink]; ms_time := 0 |}.
Definition demo_relay : OutboxRelay (H := memory_Sinks) := register_sink "mandate.created" 0%nat {| routes := []; default_sinks := [1%nat] |}.
Definition demo_history : list relay_op :=
  [Append (demo_event "e1" "mandate.created"); Drain 100; Append (demo_event "e2" "purchase.completed")].

Lemma demo_history_events : NoDup (ids (appended demo_history)) /\ Forall (fun e => is_pending e = true) (appended demo_history).
Proof. split; [change (NoDup ["e1"; "e2"]%string); apply (bool_decide_eq_true_1 _); reflexivity|repeat constructor]. Qed.

Lemma relayed_means_delivered_witness :
  let s := relay_run demo_relay (opening (H := memory_Sinks) demo_sinks) demo_history in
  ids (os_events (rs_store s)) = ids (appended demo_history) /\
  forall e, e ∈ os_events (rs_store s) -> oe_relayed_at e <> None ->
    forall sink, sink ∈ sinks_of demo_relay e -> (sink, oe_event_id e, true) ∈ rs_deliveries s.
Proof. exact (relayed_means_delivered demo_relay demo_sinks demo_history (proj1 demo_history_events) (proj2 demo_history_events)). Defined.

(** Four drains of one event each deliver both; the first two were used up by
    the refusals. *)
Lemma everything_delivered_witness :
  let s := drains demo_relay 1 4 (relay_run demo_relay (opening (H := memory_Sinks) demo_sinks) demo_history) in
  ids (os_events (rs_store s)) = ids (appended demo_history) /\
  forall e, e ∈ os_events (rs_store s) ->
    oe_relayed_at e <> None /\ forall sink, sink ∈ sinks_of demo_relay e -> (sink, oe_event_id e, true) ∈ rs_deliveries s.
Proof.
  apply (everything_delivered demo_relay demo_sinks demo_history 1 4); [apply demo_history_events..|lia|].
  apply Nat.leb_le. reflexivity.
Defined.

(** One destination that is down for good, one that works. *)
Definition down_Sinks : Sinks :=
  {| Sink := bool; Outside := unit; handle up _ w := (if up : bool then Ok tt else Raise RuntimeError, w); clock_now w := (0, w) |}.
Definition down_relay : OutboxRelay (H := down_Sinks) := @Build_OutboxRelay down_Sinks [("mandate.created"%string, [false])] [true].
Definition down_state : relay_state (H := down_Sinks) :=
  @Build_relay_state down_Sinks
    {| os_events := [demo_event "e1" "mandate.created"; demo_event "e2" "purchase.completed"]; os_in_flight := ∅ |} tt [].

Lemma full_batch_of_refusals_starves_witness :
  let s := drains down_relay 1 1000 down_state in
  rs_store s = rs_store down_state /\
  exists new, rs_deliveries s = rs_deliveries down_state ++ new /\ Forall (fun d => d.2 = false /\ d.1.2 ∈ ["e1"]%string) new.
Proof.
  apply (full_batch_of_refusals_starves down_relay down_state [demo_event "e1" "mandate.created"] [demo_event "e2" "purchase.completed"] 1000);
    [reflexivity..|repeat constructor; intros w; by exists RuntimeError].
Defined.
