(* ===== verification/LedgerFacts.v ===== *)
(** What the audit ledger proves and what it does not: validation is exactly the
    linking of hashes and sequence numbers; two histories that verify alike are
    the same or exhibit a SHA-256 collision; appending and signing keep a ledger
    verifiable; and what carries no root signature is never compared with the
    witness. *)
From S2P Require Import Prelude PyTime Decimal Sha256 Json Models Dict Ledger.

(** ** Validation is linking *)

(** Each event names the hash before it and carries the hash of its content. *)
Fixpoint linked (prev : string) (events : list AuditEvent) : Prop :=
  match events with
  | [] => True
  | e :: rest => ae_prev_hash e = prev /\ event_hash e = Ok (ae_hash e) /\ linked (ae_hash e) rest
  end.

(** No gap between consecutive sequence numbers. *)
Fixpoint continuous (prev : option AuditEvent) (events : list AuditEvent) : Prop :=
  match events with
  | [] => True
  | e :: rest => seq_gap true prev e = None /\ continuous (Some e) rest
  end.

Definition end_hash (prev : string) (events : list AuditEvent) : string := override (last_hash events) prev.

Lemma last_hash_cons e es : last_hash (e :: es) = Some (override (last_hash es) (ae_hash e)).
Proof. unfold last_hash. rewrite last_cons. by destruct (last es). Qed.

Lemma end_hash_cons prev e es : end_hash prev (e :: es) = end_hash (ae_hash e) es.
Proof. unfold end_hash. by rewrite last_hash_cons. Qed.

Lemma linked_app prev es es' : linked prev (es ++ es') <-> linked prev es /\ linked (end_hash prev es) es'.
Proof.
  revert prev. induction es as [|e es IH]; intros prev; cbn; [unfold end_hash; cbn; tauto|].
  rewrite IH, end_hash_cons. tauto.
Qed.

Lemma validate_event_ok e prev :
  validate_event e prev = Ok None <-> ae_prev_hash e = prev /\ event_hash e = Ok (ae_hash e).
Proof.
  unfold validate_event. destruct (String.eqb_spec (ae_prev_hash e) prev) as [->|]; cbn [negb]; [|naive_solver].
  destruct (event_hash e) as [h|]; cbn [rbind]; [|naive_solver].
  destruct (String.eqb_spec (ae_hash e) h) as [->|]; cbn [negb]; naive_solver.
Qed.

Definition previous (start : option string) (prev : option AuditEvent) (events : list AuditEvent) : string :=
  match events with [] => "" | e :: _ => expected_prev start prev e end.

(** The loop finds nothing exactly on linked and continuous events. *)
Lemma validate_from_ok start i prev es :
  validate_from start true i prev es = Ok None <-> linked (previous start prev es) es /\ continuous prev es.
Proof.
  revert i prev. induction es as [|e es IH]; intros i prev; [by cbn|]. cbn [validate_from previous linked continuous].
  destruct (seq_gap true prev e) as [[a b]|]; [split; [done|]; by intros [_ [? _]]|].
  destruct (validate_event e (expected_prev start prev e)) as [[r|]|x] eqn:E; cbn [rbind].
  - split; [done|]. intros [[Hp [Hh _]] _]. rewrite (proj2 (validate_event_ok e _) (conj Hp Hh)) in E. done.
  - apply validate_event_ok in E as [Hp Hh]. rewrite IH. destruct es as [|e' es]; cbn [previous linked continuous].
    + naive_solver.
    + cbn [expected_prev]. naive_solver.
  - split; [done|]. intros [[Hp [Hh _]] _]. rewrite (proj2 (validate_event_ok e _) (conj Hp Hh)) in E. done.
Qed.

(** What it reports is a failure after the events it has verified. *)
Lemma validate_from_bad start i prev es r : validate_from start true i prev es = Ok (Some r) ->
  cr_ok r = false /\ exists good e rest, es = good ++ e :: rest /\ verified_count r = i + Z.of_nat (length good) /\
    validate_from start true i prev good = Ok None /\
    ~ validate_from start true i prev (good ++ [e]) = Ok None.
Proof.
  revert i prev. induction es as [|e es IH]; intros i prev; [done|]. cbn [validate_from].
  destruct (seq_gap true prev e) as [[a b]|] eqn:Eg.
  { intros [= <-]. split; [done|]. exists [], e, es. cbn [app validate_from length]. rewrite Eg. split_and!; try done. cbn. lia. }
  destruct (validate_event e _) as [[reason|]|x] eqn:E; cbn [rbind]; [| |done].
  - intros [= <-]. split; [done|]. exists [], e, es. cbn [app validate_from length]. rewrite Eg, E. split_and!; try done. cbn. lia.
  - intros Hr. destruct (IH _ _ Hr) as (Hb & good & e' & rest & -> & Hn & Hg & Hbad). split; [done|].
    exists (e :: good), e', rest. cbn [app validate_from length]. rewrite Eg, E. cbn [rbind].
    split_and!; try done. cbn [verified_count] in *. lia.
Qed.

(** A chain validates exactly when every event names the hash before it, carries
    the hash of its own content and follows in sequence; what is reported
    otherwise is a failure at the first event that breaks one of these, with the
    number of events before it. *)
Theorem validate_chain_exact (start : option string) (e : AuditEvent) (es : list AuditEvent) (r : ChainResult) :
  validate_chain (e :: es) start true = Ok r ->
  (cr_ok r = true <-> linked (expected_prev start None e) (e :: es) /\ continuous None (e :: es)) /\
  (cr_ok r = true -> r = whole (e :: es)) /\
  (cr_ok r = false -> exists good bad rest, e :: es = good ++ bad :: rest /\
     verified_count r = Z.of_nat (length good) /\
     (linked (previous start None good) good /\ continuous None good) /\
     ~ (linked (previous start None (good ++ [bad])) (good ++ [bad]) /\ continuous None (good ++ [bad]))).
Proof.
  unfold validate_chain. pose proof (validate_from_ok start 0 None (e :: es)) as Hok.
  cbn [previous] in Hok. destruct (validate_from start true 0 None (e :: es)) as [[x|]|] eqn:E; cbn [rbind override]; [| |done].
  - intros [= <-]. destruct (validate_from_bad _ _ _ _ _ E) as (Hb & good & bad & rest & Heq & Hn & Hg & Hbad).
    split; [|split].
    + rewrite Hb. split; [done|]. intros H. by apply Hok in H.
    + by rewrite Hb.
    + intros _. exists good, bad, rest. rewrite <- !validate_from_ok with (i := 0). split_and!; done.
  - intros [= <-]. split; [|done]. split; [intros _; by apply Hok|done].
Qed.

(** ** A history is bound by its last hash *)

(** The text an event's hash is the digest of. *)
Definition hashed_text (e : AuditEvent) : res string :=
  canonical_json (event_envelope (ae_mandate_id e) (ae_type e) (ae_payload e) (ae_prev_hash e)
                    (isoformat_z (ae_created_at e))).

(** An event of each history whose texts differ and have one digest. *)
Definition sha_collision (es es' : list AuditEvent) : Prop :=
  exists e e' t t', e ∈ es /\ e' ∈ es' /\ hashed_text e = Ok t /\ hashed_text e' = Ok t' /\
    t <> t' /\ sha256_hex t = sha256_hex t'.

Lemma collision_app es es' fs fs' : sha_collision es es' -> sha_collision (es ++ fs) (es' ++ fs').
Proof. intros (e & e' & t & t' & He & He' & H). exists e, e', t, t'. rewrite !elem_of_app. tauto. Qed.

(** What the hash of an event covers; the payload up to its JSON tree. *)
Definition same_content (e e' : AuditEvent) : Prop :=
  ae_mandate_id e = ae_mandate_id e' /\ ae_type e = ae_type e' /\ ae_created_at e = ae_created_at e' /\
  ae_prev_hash e = ae_prev_hash e' /\ ae_hash e = ae_hash e' /\
  to_json _json_default (VDict (ae_payload e)) = to_json _json_default (VDict (ae_payload e')).

(** Canonical trees carry no float. *)
Lemma to_json_exact v j : to_json _json_default v = Ok j -> exact j = true.
Proof.
  revert j. induction v as [v Hl Hd|l IH|kvs IH] using pyval_nested_ind; intros j.
  - destruct v; cbn; try (by intros [= <-]); [|by destruct (Hl l)|by destruct (Hd kvs)].
    unfold normalize_utc. destruct (ensure_utc t); cbn; [|done]. by intros [= <-].
  - cbn. match goal with |- context [rbind (?f l) _] => set (go := f) end. intros Hj.
    assert (Hgo : forall js, go l = Ok js -> forallb exact js = true).
    { clear Hj. induction IH as [|x l Hx _ IHl]; cbn; [by intros js [= <-]|]. intros js.
      destruct (to_json _json_default x) as [y|] eqn:E; cbn; [|done]. fold (go l).
      destruct (go l) as [ys|]; cbn; [|done]. intros [= <-]. cbn. by rewrite (Hx y eq_refl), (IHl ys eq_refl). }
    destruct (go l) as [js|]; cbn in Hj; [|done]. injection Hj as <-. cbn. by apply Hgo.
  - cbn. match goal with |- context [rbind (?f kvs) _] => set (go := f) end. intros Hj.
    assert (Hgo : forall js, go kvs = Ok js -> forallb (fun kv => exact kv.2) js = true).
    { clear Hj. induction IH as [|[k x] l Hx _ IHl]; cbn; [by intros js [= <-]|]. intros js.
      destruct (to_json _json_default x) as [y|] eqn:E; cbn; [|done]. fold (go l).
      destruct (go l) as [ys|]; cbn; [|done]. intros [= <-].
      cbn [forallb]. apply andb_true_intro. split; [by apply Hx|by apply IHl]. }
    destruct (go kvs) as [js|]; cbn in Hj; [|done]. injection Hj as <-. cbn. by apply sort_keys_exact, Hgo.
Qed.

(** The canonical tree of an envelope. *)
Lemma event_text mid ty payload prev iso t :
  canonical_json (event_envelope mid ty payload prev iso) = Ok t ->
  exists j, to_json _json_default (VDict payload) = Ok j /\ exact j = true /\
    t = print (JObj [("created_at", JStr iso); ("mandate_id", JStr mid); ("payload", j); ("prev_hash", JStr prev);
                     ("type", JStr ty)])%string.
Proof.
  unfold canonical_json, event_envelope. destruct (_check_no_floats _); cbn [rbind]; [|done]. unfold dumps.
  generalize (VDict payload). intros p. cbn [to_json].
  destruct (to_json _json_default p) as [j|] eqn:E; cbn [rbind]; [|done]. intros [= <-].
  exists j. split; [done|]. split; [by eapply to_json_exact|]. reflexivity.
Qed.

Lemma event_hash_text e h : event_hash e = Ok h -> exists j t,
  hashed_text e = Ok t /\ h = sha256_hex t /\ to_json _json_default (VDict (ae_payload e)) = Ok j /\ exact j = true /\
  t = print (JObj [("created_at", JStr (isoformat_z (ae_created_at e))); ("mandate_id", JStr (ae_mandate_id e));
    ("payload", j); ("prev_hash", JStr (ae_prev_hash e)); ("type", JStr (ae_type e))])%string.
Proof.
  unfold event_hash, compute_event_hash. destruct (_ || _); [done|]. unfold normalize_utc. cbn [ensure_utc rbind].
  fold (hashed_text e). destruct (hashed_text e) as [t|] eqn:E; cbn [rbind]; [|done]. intros [= <-].
  destruct (event_text _ _ _ _ _ _ E) as (j & Hj & Hx & ->). eauto 8.
Qed.

(** One hash, one content. *)
Lemma event_hash_binds e e' :
  event_hash e = Ok (ae_hash e) -> event_hash e' = Ok (ae_hash e') -> ae_hash e = ae_hash e' ->
  valid_us (ae_created_at e) -> valid_us (ae_created_at e') -> same_content e e' \/ sha_collision [e] [e'].
Proof.
  intros H H' Hh Hu Hu'. destruct (event_hash_text e _ H) as (j & t & Htt & Ht & Hj & Hx & Hp).
  destruct (event_hash_text e' _ H') as (j' & t' & Htt' & Ht' & Hj' & Hx' & Hp').
  destruct (String.eqb_spec t t') as [E|Hn].
  2: { right. exists e, e', t, t'. rewrite !list_elem_of_singleton. split_and!; try done. congruence. }
  left. rewrite Hp, Hp' in E.
  apply print_inj in E; [|cbn; by rewrite Hx|cbn; by rewrite Hx']. injection E as E1 E2 E3 E4 E5.
  apply isoformat_z_inj in E1; [|done..]. unfold same_content. rewrite Hj, Hj'. split_and!; congruence.
Qed.

(** Two linked histories of one length with one last hash have one content. *)
Lemma linked_bound prev es es' : length es = length es' -> linked prev es -> linked prev es' ->
  end_hash prev es = end_hash prev es' ->
  Forall (fun e => valid_us (ae_created_at e)) es -> Forall (fun e => valid_us (ae_created_at e)) es' ->
  Forall2 same_content es es' \/ sha_collision es es'.
Proof.
  revert es'. induction es as [|e es IH] using rev_ind; intros es' Hlen Hl Hl' Hend Hu Hu'.
  { left. destruct es'; [constructor|done]. }
  destruct es' as [|e' es' _] using rev_ind; [rewrite length_app in Hlen; cbn in Hlen; lia|].
  rewrite !length_app in Hlen. cbn in Hlen. apply linked_app in Hl as [Hl [Hp [Hh _]]].
  apply linked_app in Hl' as [Hl' [Hp' [Hh' _]]]. apply Forall_app in Hu as [Hu [Hue _]%Forall_cons].
  apply Forall_app in Hu' as [Hu' [Hue' _]%Forall_cons].
  unfold end_hash, last_hash in Hend. rewrite !last_snoc in Hend. cbn in Hend.
  destruct (event_hash_binds e e' Hh Hh' Hend Hue Hue') as [Hs|Hc].
  2: { right. destruct Hc as (x & x' & t & t' & ->%list_elem_of_singleton & ->%list_elem_of_singleton & Hc).
       exists e, e', t, t'. rewrite !elem_of_app, !list_elem_of_singleton. tauto. }
  destruct (IH es') as [Hf|]; [lia|done|done| |done|done| |right; by apply collision_app].
  - destruct Hs as (_ & _ & _ & Hpp & _). by rewrite <- Hp, <- Hp'.
  - left. by apply Forall2_app; [|constructor].
Qed.

Lemma verify_chain_linked `{RootSigner} s r s1 e es : verify_chain None None s = (Ok r, s1) -> cr_ok r = true ->
  repo s = e :: es -> ae_seq e = Some 1 -> linked GENESIS_PREV_HASH (repo s) /\ r = whole (repo s).
Proof.
  unfold verify_chain, sbind, get, lift, ret. intros Hv Hok Hr He. rewrite Hr in *.
  unfold validate_chain in Hv. pose proof (validate_from_ok None 0 None (e :: es)) as Hlink.
  destruct (validate_from None true 0 None (e :: es)) as [[x|]|] eqn:E; cbn [rbind override] in Hv; [| |done].
  - destruct (validate_from_bad _ _ _ _ _ E) as [Hx _]. rewrite Hx in Hv. cbn in Hv. injection Hv as <- <-. congruence.
  - destruct (proj1 Hlink eq_refl) as [Hl _]. cbn [previous expected_prev] in Hl.
    rewrite bool_decide_eq_true_2 in Hl by done. split; [done|].
    cbn [cr_ok chain_ok negb] in Hv. destruct (check_ranges _ _ _) as [[y|]|] eqn:Ec; [| |done].
    + injection Hv as <- <-. exfalso. clear -Ec Hok. revert Ec. generalize (checkpoint_ranges (e :: es)). intros rs.
      induction rs as [|[[a b] sig] rs IH]; cbn [check_ranges check_range]; [done|].
      destruct (last (get_range a b (e :: es))) as [f|]; [|done].
      destruct (compute_root_hash _ _ _ _) as [root|]; cbn [rbind]; [|done].
      destruct (negb _); cbn [rbind]; [intros [= <-]; done|].
      destruct (witness_get a b (witness s)) as [cp|]; cbn [rbind]; [|by intros [= <-]].
      destruct (_ || _); cbn [rbind]; [by intros [= <-]|done].
    + by injection Hv as <- _.
Qed.

(** C31: Two ledgers that start at the genesis and verify with one count and one last
    hash record the same events, mandate, type, payload, time and links, or
    two of their events exhibit a SHA-256 collision: no event of a verified
    history can be altered, exchanged, dropped or added without changing its last
    hash. *)
Theorem history_bound_by_last_hash (S : RootSigner) (s s1 s' s1' : LedgerState) (e e' : AuditEvent)
    (es es' : list AuditEvent) (r : ChainResult) :
  verify_chain None None s = (Ok r, s1) -> verify_chain None None s' = (Ok r, s1') -> cr_ok r = true ->
  repo s = e :: es -> repo s' = e' :: es' -> ae_seq e = Some 1 -> ae_seq e' = Some 1 ->
  Forall (fun x => valid_us (ae_created_at x)) (repo s) -> Forall (fun x => valid_us (ae_created_at x)) (repo s') ->
  Forall2 same_content (repo s) (repo s') \/ sha_collision (repo s) (repo s').
Proof.
  intros Hv Hv' Hok Hr Hr' He He' Hu Hu'.
  destruct (verify_chain_linked s r s1 e es Hv Hok Hr He) as [Hl Hw].
  destruct (verify_chain_linked s' r s1' e' es' Hv' Hok Hr' He') as [Hl' Hw'].
  rewrite Hw in Hw'. unfold whole, chain_ok in Hw'. injection Hw' as Hn Hh.
  apply (linked_bound GENESIS_PREV_HASH); try done; [lia|]. unfold end_hash. by rewrite Hh.
Qed.

(** ** Appending and signing *)

Fixpoint numbered (n : Z) (es : list AuditEvent) : Prop :=
  match es with [] => True | e :: rest => ae_seq e = Some n /\ numbered (n + 1) rest end.

Definition len (es : list AuditEvent) : Z := Z.of_nat (length es).

Lemma len_cons e es : len (e :: es) = len es + 1.
Proof. unfold len. cbn [length]. lia. Qed.
Lemma len_app es es' : len (es ++ es') = len es + len es'.
Proof. unfold len. rewrite length_app. lia. Qed.

Lemma numbered_app n es es' : numbered n (es ++ es') <-> numbered n es /\ numbered (n + len es) es'.
Proof.
  revert n. induction es as [|e es IH]; intros n; cbn [app numbered].
  - unfold len. cbn. rewrite Z.add_0_r. tauto.
  - rewrite IH, len_cons. replace (n + 1 + len es) with (n + (len es + 1)) by lia. tauto.
Qed.

Lemma numbered_continuous n es prev : numbered n es ->
  match prev with Some p => ae_seq p = Some (n - 1) | None => True end -> continuous prev es.
Proof.
  revert n prev. induction es as [|e es IH]; intros n prev; cbn [numbered continuous]; [done|].
  intros [He Hes] Hp. split.
  - unfold seq_gap. destruct prev as [p|]; [|done]. rewrite Hp, He.
    destruct (Z.eqb_spec n (n - 1 + 1)); [done|lia].
  - apply (IH (n + 1)); [done|]. by replace (n + 1 - 1) with n by lia.
Qed.

(** The events of a numbered block, picked by their sequence numbers. *)
Lemma get_range_none a b n es : numbered n es -> b < n \/ n + len es <= a -> get_range a b es = [].
Proof.
  revert n. induction es as [|e es IH]; intros n; [done|]. rewrite len_cons. intros [He Hes] Hab.
  unfold get_range in *. cbn [List.filter]. unfold in_seq_range at 1. rewrite He.
  destruct (Z.leb_spec a n), (Z.leb_spec n b); cbn [andb]; try (apply (IH (n + 1)); [done|lia]).
  unfold len in *. lia.
Qed.

Lemma get_range_all a b n es : numbered n es -> a <= n -> n + len es - 1 <= b -> get_range a b es = es.
Proof.
  revert n. induction es as [|e es IH]; intros n; [done|]. rewrite len_cons. intros [He Hes] Ha Hb.
  unfold get_range in *. cbn [List.filter]. unfold in_seq_range at 1. rewrite He.
  assert (0 <= len es) by (unfold len; lia).
  destruct (Z.leb_spec a n); [|lia]. destruct (Z.leb_spec n b); [|lia]. cbn [andb]. f_equal. apply (IH (n + 1)); [done|lia|lia].
Qed.

Lemma get_range_block n pre seg post : numbered n (pre ++ seg ++ post) ->
  get_range (n + len pre) (n + len pre + len seg - 1) (pre ++ seg ++ post) = seg.
Proof.
  intros [Hpre [Hseg Hpost]%numbered_app]%numbered_app. unfold get_range. rewrite !List.filter_app.
  fold (get_range (n + len pre) (n + len pre + len seg - 1) pre).
  fold (get_range (n + len pre) (n + len pre + len seg - 1) seg).
  fold (get_range (n + len pre) (n + len pre + len seg - 1) post).
  assert (0 <= len pre /\ 0 <= len seg) as [? ?] by (unfold len; lia).
  rewrite (get_range_none _ _ n pre), (get_range_all _ _ (n + len pre) seg),
    (get_range_none _ _ (n + len pre + len seg) post) by (done || lia).
  by rewrite app_nil_r.
Qed.

(** *** Hexadecimal texts read back *)

Lemma hex_digit_value n : 0 <= n < 16 -> hex_value (hex_digit n) = Some (Z.to_N n) /\ is_hex_space (hex_digit n) = false.
Proof.
  intros Hn. assert (forallb (fun k => match hex_value (hex_digit (Z.of_nat k)) with
      | Some v => (v =? N.of_nat k)%N | None => false end && negb (is_hex_space (hex_digit (Z.of_nat k)))) (seq 0 16) = true)
    as Hall by reflexivity.
  rewrite forallb_forall in Hall. specialize (Hall (Z.to_nat n)). rewrite Z2Nat.id in Hall by lia.
  assert (In (Z.to_nat n) (seq 0 16)) as Hin by (apply in_seq; lia). apply Hall, andb_prop in Hin as [Hv Hs].
  destruct (hex_value (hex_digit n)) as [v|]; [|done]. apply N.eqb_eq in Hv. apply negb_true_iff in Hs.
  split; [|done]. f_equal. lia.
Qed.

Lemma fromhex_hex b : fromhex (bytes_hex b) = Some b.
Proof.
  unfold bytes_hex. induction b as [|c b IH]; [done|]. cbn [bytes_of_string hex fromhex].
  match goal with |- context [hex_digit (?x / 16)] => set (v := x) end.
  assert (0 <= v < 256) as Hv.
  { unfold v. pose proof (N_ascii_bounded c). lia. }
  destruct (hex_digit_value (v / 16)) as [H1 H2]; [split; [apply Z.div_pos; lia|apply Z.div_lt_upper_bound; lia]|].
  destruct (hex_digit_value (v mod 16)) as [H3 _]; [apply Z.mod_pos_bound; lia|].
  rewrite H2, H1, H3. fold (hex (bytes_of_string b)). rewrite IH. cbn [option_map]. do 2 f_equal.
  replace (16 * Z.to_N (v / 16) + Z.to_N (v mod 16))%N with (N_of_ascii c).
  - apply ascii_N_embedding.
  - pose proof (Z.div_mod v 16 ltac:(lia)). pose proof (Z.div_pos v 16 ltac:(lia) ltac:(lia)).
    pose proof (Z.mod_pos_bound v 16 ltac:(lia)). unfold v in *. lia.
Qed.

Lemma bytes_hex_inj a b : bytes_hex a = bytes_hex b -> a = b.
Proof. intros H. apply (f_equal fromhex) in H. rewrite !fromhex_hex in H. by injection H. Qed.

(** *** Signed segments *)

Section Segments.
Context `{RootSigner}.

Definition carries (sig : string) (es : list AuditEvent) : Prop := Forall (fun e => ae_root_sig e = Some sig) es.
Definition unsigned (es : list AuditEvent) : Prop := Forall (fun e => ae_root_sig e = None) es.

(** The checkpoint of a block of events that starts at [n]. *)
Definition witnessed (w : InMemoryWitness) (n : Z) (seg : list AuditEvent) (root : string) : Prop :=
  seg <> [] /\ carries (bytes_hex (sign root)) seg /\
  (exists final, last seg = Some final /\ compute_root_hash n (n + len seg - 1) (ae_hash final) (len seg) = Ok root) /\
  exists cp, witness_get n (n + len seg - 1) w = Some cp /\ cp_root_hash cp = root /\
    cp_root_sig cp = bytes_hex (sign root) /\ cp_cardinality cp = len seg.

(** Blocks in sequence, each with its own root, different from the one before. *)
Fixpoint segs_ok (w : InMemoryWitness) (n : Z) (prev : option string) (segs : list (list AuditEvent)) : Prop :=
  match segs with
  | [] => True
  | seg :: rest => exists root, witnessed w n seg root /\ prev <> Some root /\ segs_ok w (n + len seg) (Some root) rest
  end.

Definition sig_of (seg : list AuditEvent) : string :=
  match seg with e :: _ => override (ae_root_sig e) "" | [] => "" end.

Fixpoint seg_ranges (n : Z) (segs : list (list AuditEvent)) : list (Z * Z * string) :=
  match segs with
  | [] => []
  | seg :: rest => (n, n + len seg - 1, sig_of seg) :: seg_ranges (n + len seg) rest
  end.

Lemma sig_of_carries sig seg : seg <> [] -> carries sig seg -> sig_of seg = sig.
Proof. destruct seg as [|e seg]; [done|]. intros _ [He _]%Forall_cons. cbn. by rewrite He. Qed.

(** The grouping loop over the rest of a block, and over a new block. *)
Lemma group_rest sig n es g : numbered n es -> carries sig es -> cur_sig g = Some sig -> last_seq g = Some (n - 1) ->
  fold_left group_event es g =
  {| closed := closed g; cur_sig := Some sig; range_start := range_start g; last_seq := Some (n + len es - 1) |}.
Proof.
  revert n g. induction es as [|e es IH]; intros n g; cbn [numbered fold_left].
  - intros _ _ Hs Hl. destruct g. cbn in *. unfold len. cbn. rewrite Z.add_0_r. congruence.
  - intros [He Hes] [Hc Hcs]%Forall_cons Hs Hl.
    assert (group_event g e = {| closed := closed g; cur_sig := Some sig; range_start := range_start g;
                                 last_seq := Some n |}) as ->.
    { unfold group_event. rewrite He, Hc, Hs. by rewrite bool_decide_eq_true_2. }
    rewrite (IH (n + 1)); [|done|done|done|cbn; f_equal; lia]. cbn. rewrite len_cons. do 2 f_equal. lia.
Qed.

Lemma group_block sig n seg g : seg <> [] -> numbered n seg -> carries sig seg -> cur_sig g <> Some sig ->
  fold_left group_event seg g =
  {| closed := close_range g; cur_sig := Some sig; range_start := Some n; last_seq := Some (n + len seg - 1) |}.
Proof.
  destruct seg as [|e seg]; [done|]. intros _ [He Hes] [Hc Hcs]%Forall_cons Hs. cbn [fold_left].
  assert (group_event g e = {| closed := close_range g; cur_sig := Some sig; range_start := Some n;
                               last_seq := Some n |}) as ->.
  { unfold group_event. rewrite He, Hc. rewrite bool_decide_eq_false_2; [done|]. congruence. }
  rewrite (group_rest sig (n + 1)); [|done|done|done|cbn; f_equal; lia]. cbn. rewrite len_cons. do 2 f_equal. lia.
Qed.

(** Unsigned events open no range. *)
Lemma group_tail es g : unsigned es -> close_range (fold_left group_event es g) = close_range g.
Proof.
  revert g. induction es as [|e es IH]; intros g; [done|]. intros [Hn Hes]%Forall_cons. cbn [fold_left].
  rewrite IH by done. unfold group_event. destruct (ae_seq e) as [n|]; [|done]. rewrite Hn.
  destruct g as [cl cs rs ls]. cbn. destruct cs as [c|]; cbn; reflexivity.
Qed.

Lemma ranges_of_segs w n prev segs tail g : segs_ok w n prev segs -> numbered n (concat segs) -> unsigned tail ->
  cur_sig g = option_map (fun root => bytes_hex (sign root)) prev ->
  close_range (fold_left group_event (concat segs ++ tail) g) = close_range g ++ seg_ranges n segs.
Proof.
  revert n prev g. induction segs as [|seg segs IH]; intros n prev g; cbn [segs_ok concat seg_ranges].
  { intros _ _ Ht _. rewrite group_tail by done. by rewrite app_nil_r. }
  intros (root & (Hne & Hc & _) & Hp & Hsegs) [Hseg Hrest]%numbered_app Ht Hg.
  rewrite <- app_assoc, fold_left_app.
  assert (cur_sig g <> Some (bytes_hex (sign root))) as Hns.
  { rewrite Hg. destruct prev as [r|]; cbn; [|done]. intros [= E]. apply Hp. f_equal. by apply sign_inj, bytes_hex_inj. }
  rewrite (group_block _ _ _ _ Hne Hseg Hc Hns). rewrite (IH _ _ _ Hsegs Hrest Ht) by done.
  rewrite (sig_of_carries _ _ Hne Hc). unfold close_range at 1. cbn. by rewrite <- app_assoc.
Qed.

(** Every block passes its check. *)
Lemma check_segs w all pre n prev segs tail : all = pre ++ concat segs ++ tail -> numbered 1 all -> n = 1 + len pre ->
  segs_ok w n prev segs -> check_ranges all w (seg_ranges n segs) = Ok None.
Proof.
  revert pre n prev. induction segs as [|seg segs IH]; intros pre n prev Hall Hnum Hn; [done|].
  cbn [segs_ok seg_ranges check_ranges concat] in *.
  intros (root & (Hne & Hc & (final & Hlast & Hroot) & cp & Hcp & Hcr & Hcs & Hcc) & _ & Hsegs).
  pose proof (sig_of_carries _ _ Hne Hc) as Hsig.
  assert (check_range all w (n, n + len seg - 1, sig_of seg) = Ok None) as ->.
  { unfold check_range. rewrite Hall, Hn. rewrite <- app_assoc. rewrite <- app_assoc in Hall. rewrite Hall in Hnum.
    rewrite get_range_block by done. rewrite Hlast, <- Hn. fold (len seg). rewrite Hroot. cbn [rbind].
    rewrite Hsig, fromhex_hex, verify_sign. cbn [negb]. rewrite Hcp, Hcr, Hcs, Hcc, !String.eqb_refl, Z.eqb_refl. done. }
  cbn [rbind]. apply (IH (pre ++ seg) _ (Some root)).
  - rewrite Hall. by rewrite <- !app_assoc.
  - done.
  - rewrite len_app. lia.
  - done.
Qed.
End Segments.

(** *** The ledger invariant *)

(** Digests are accepted as hashes. *)
Lemma py_len_ascii s : ascii_only s = true -> py_len s = Z.of_nat (String.length s).
Proof.
  unfold ascii_only. induction s as [|c s IH]; [done|]. cbn [str_forallb py_len String.length].
  intros [Hc Hs]%andb_prop. rewrite IH by done. apply N.ltb_lt in Hc.
  destruct (N.eqb_spec (N.land (N_of_ascii c) 192) 128) as [E|_]; [|lia].
  exfalso. assert (N.testbit (N_of_ascii c) 7 = true) as Hb.
  { apply (f_equal (fun x => N.testbit x 7)) in E. rewrite N.land_spec in E. cbn in E. by rewrite andb_true_r in E. }
  rewrite N.testbit_eqb in Hb. apply N.eqb_eq in Hb. rewrite N.div_small in Hb by (cbn; lia). done.
Qed.

Lemma sha_not_bad t : bad_hash (sha256_hex t) = false.
Proof.
  unfold bad_hash. rewrite py_len_ascii by apply sha256_hex_ascii. rewrite sha256_hex_length.
  pose proof (sha256_hex_length t). by destruct (sha256_hex t).
Qed.

(** What the constructor of an event checks. *)
Definition sane (e : AuditEvent) : Prop :=
  truthy_str (ae_mandate_id e) = true /\ truthy_str (ae_type e) = true /\
  bad_hash (ae_prev_hash e) = false /\ bad_hash (ae_hash e) = false /\ exists n, ae_seq e = Some n /\ 1 <= n.

Lemma sane_rebuilt e sig : sane e ->
  mk_AuditEvent (ae_mandate_id e) (ae_type e) (ae_payload e) (ae_prev_hash e) (ae_hash e) (Aware (ae_created_at e))
    (ae_seq e) (Some sig) = Ok (with_sig sig e).
Proof.
  intros (Hm & Ht & Hp & Hh & n & Hn & Hpos). unfold mk_AuditEvent. rewrite Hm, Ht, Hp, Hh, Hn. cbn.
  destruct (Z.ltb_spec n 1); [lia|]. unfold with_sig. by rewrite Hn.
Qed.

Section Invariant.
Context `{RootSigner}.

(** Signed and witnessed blocks, then unsigned events. *)
Record ledger_shape (s : LedgerState) (segs : list (list AuditEvent)) (tail : list AuditEvent) : Prop := {
  ls_events : repo s = concat segs ++ tail;
  ls_numbered : numbered 1 (repo s);
  ls_linked : linked GENESIS_PREV_HASH (repo s);
  ls_sane : Forall sane (repo s);
  ls_segs : segs_ok (witness s) 1 None segs;
  ls_tail : unsigned tail;
  ls_keys : forall a b cp, witness_get a b (witness s) = Some cp -> a < 1 + len (concat segs);
}.

Definition ledger_ok (s : LedgerState) : Prop := exists segs tail, ledger_shape s segs tail.

(** A well-kept ledger verifies. *)
Lemma ledger_ok_verifies s : ledger_ok s -> verify_chain None None s = (Ok (whole (repo s)), s).
Proof.
  intros (segs & tail & [He Hn Hl _ Hs Ht _]). unfold verify_chain, sbind, get, lift, ret.
  destruct (repo s) as [|e es] eqn:Er; [done|]. unfold validate_chain.
  assert (validate_from None true 0 None (e :: es) = Ok None) as ->.
  { apply validate_from_ok. split; [|by apply (numbered_continuous 1)]. cbn [previous expected_prev].
    destruct Hn as [Hn _]. by rewrite bool_decide_eq_true_2. }
  cbn [rbind override cr_ok chain_ok negb].
  assert (checkpoint_ranges (e :: es) = seg_ranges 1 segs) as ->.
  { unfold checkpoint_ranges. rewrite He. rewrite (ranges_of_segs (witness s) 1 None); [done|done| |done|done].
    rewrite He in Hn. by apply numbered_app in Hn as [? _]. }
  by rewrite (check_segs (witness s) (e :: es) [] 1 None segs tail).
Qed.

(** Appending keeps the shape. *)
Lemma append_shape type mid payload at_ s segs tail : ledger_shape s segs tail ->
  exists tail', ledger_shape (ledger_append type mid payload at_ s).2 segs tail'.
Proof.
  intros Hs. unfold ledger_append, sbind, get, on_repo, zoom, repo_append, sbind, get, lift, put, ret.
  destruct (compute_event_hash mid type payload _ _) as [h|] eqn:Eh; [|exists tail; by destruct s].
  destruct (mk_AuditEvent _ _ _ _ _ _ _ _) as [e|] eqn:Em; [|exists tail; by destruct s].
  cbn [snd fst]. exists (tail ++ [e]). destruct Hs as [He Hn Hl Hsa Hsg Ht Hk].
  set (ts := override at_ (Aware (clock s))) in *. unfold mk_AuditEvent in Em.
  destruct (negb (truthy_str mid) || _ || _ || _) eqn:Eb; [done|].
  destruct (ensure_utc ts) as [us|] eqn:Eu; cbn [rbind] in Em; [|done].
  destruct (Z.ltb_spec (Z.of_nat (length (repo s)) + 1) 1); [done|]. injection Em as <-.
  apply orb_false_elim in Eb as [[[Eb1%negb_false_iff Eb2%negb_false_iff]%orb_false_elim Eb3]%orb_false_elim Eb4].
  split; cbn [repo witness]; try done.
  - by rewrite He, app_assoc.
  - apply numbered_app. split; [done|]. cbn. split; [|done]. f_equal. unfold len. lia.
  - apply linked_app. split; [done|]. cbn. split_and!; try done. unfold event_hash. cbn. unfold compute_event_hash in *.
    destruct (_ || _); [done|]. unfold normalize_utc in *. rewrite Eu in Eh. cbn [ensure_utc rbind] in *. done.
  - apply Forall_app. split; [done|]. constructor; [|constructor]. split_and!; try done. cbn. eexists. split; [done|lia].
  - apply Forall_app. split; [done|]. by constructor.
Qed.
End Invariant.

(** *** Signing *)

Section Signing.
Context `{RootSigner}.

Lemma witnessed_mono w w' n seg root : (forall a b cp, witness_get a b w = Some cp -> witness_get a b w' = Some cp) ->
  witnessed w n seg root -> witnessed w' n seg root.
Proof.
  intros Hm (Hne & Hc & Hr & cp & Hcp & Hrest). split; [done|]. split; [done|]. split; [done|].
  exists cp. split; [by apply Hm|done].
Qed.

Lemma segs_mono w w' n prev segs : (forall a b cp, witness_get a b w = Some cp -> witness_get a b w' = Some cp) ->
  segs_ok w n prev segs -> segs_ok w' n prev segs.
Proof.
  intros Hm. revert n prev. induction segs as [|seg segs IH]; intros n prev; [done|]. cbn.
  intros (root & Hw & Hp & Hs). exists root. split; [by eapply witnessed_mono|]. auto.
Qed.

(** A published checkpoint and the root text it is the digest of. *)
Definition published (w : InMemoryWitness) (a b : Z) (root : string) : Prop :=
  exists cp h, witness_get a b w = Some cp /\ cp_root_hash cp = root /\
    compute_root_hash a b h (cp_cardinality cp) = Ok root.

(** Checkpoints of ranges with different starts and one root hash: the two root
    texts differ and have one digest. *)
Definition root_collision (w : InMemoryWitness) : Prop :=
  exists a b a' b' root, a <> a' /\ published w a b root /\ published w a' b' root.

Lemma witnessed_published w n seg root : witnessed w n seg root -> published w n (n + len seg - 1) root.
Proof.
  intros (_ & _ & (final & _ & Hr) & cp & Hcp & Hroot & _ & Hc). exists cp, (ae_hash final). by rewrite Hc.
Qed.

(** The root before a block covers events that start earlier. *)
Definition earlier (w : InMemoryWitness) (prev : option string) (n : Z) : Prop :=
  match prev with Some r => exists a b, a < n /\ published w a b r | None => True end.

Lemma segs_snoc w n prev segs seg root : earlier w prev n -> segs_ok w n prev segs ->
  witnessed w (n + len (concat segs)) seg root -> segs_ok w n prev (segs ++ [seg]) \/ root_collision w.
Proof.
  revert n prev. induction segs as [|s0 segs IH]; intros n prev He; cbn [segs_ok app concat].
  - intros _ Hw. unfold len in Hw. cbn in Hw. rewrite Z.add_0_r in Hw.
    destruct (decide (prev = Some root)) as [->|Hne].
    + destruct He as (a & b & Ha & Hroot). right. exists a, b, n, (n + len seg - 1), root.
      split; [lia|]. split; [done|]. by apply witnessed_published.
    + left. exists root. done.
  - intros (r0 & Hw0 & Hp & Hs) Hw. rewrite len_app in Hw.
    destruct (IH (n + len s0) (Some r0)) as [Hok|]; [|done| |left; by exists r0|by right].
    + exists n, (n + len s0 - 1). split; [|by apply witnessed_published]. destruct Hw0 as [Hne _].
      destruct s0; [done|]. rewrite len_cons. unfold len. lia.
    + by replace (n + len s0 + len (concat segs)) with (n + (len s0 + len (concat segs))) by lia.
Qed.

Lemma segs_signed w n prev segs : segs_ok w n prev segs -> Forall (fun e => exists sig, ae_root_sig e = Some sig) (concat segs).
Proof.
  revert n prev. induction segs as [|seg segs IH]; intros n prev; [constructor|]. cbn.
  intros (root & (_ & Hc & _) & _ & Hs). apply Forall_app. split; [|by eapply IH].
  eapply Forall_impl; [exact Hc|]. cbn. eauto.
Qed.

(** Where the next checkpoint starts. *)
Lemma annotated_signed n es : numbered n es -> Forall (fun e => exists sig, ae_root_sig e = Some sig) es ->
  forall m, fold_left Z.max (annotated_seqs es) m = match es with [] => m | _ => Z.max m (n + len es - 1) end.
Proof.
  revert n. induction es as [|e es IH]; intros n; [done|]. intros [Hn Hes] [[sig Hs] Hrest]%Forall_cons m.
  unfold annotated_seqs. cbn [omap list_omap]. rewrite Hn, Hs. cbn [fold_left]. fold (annotated_seqs es).
  rewrite (IH (n + 1) Hes Hrest). rewrite len_cons. unfold len. destruct es; cbn [length]; lia.
Qed.

Lemma annotated_unsigned es : unsigned es -> annotated_seqs es = [].
Proof.
  induction es as [|e es IH]; [done|]. intros [Hn Hes]%Forall_cons. unfold annotated_seqs. cbn. rewrite Hn.
  destruct (ae_seq e); by apply IH.
Qed.

Lemma next_start first pre tail : numbered 1 (pre ++ tail) -> head (pre ++ tail) = Some first ->
  Forall (fun e => exists sig, ae_root_sig e = Some sig) pre -> unsigned tail ->
  default_start first (pre ++ tail) = 1 + len pre.
Proof.
  intros Hn Hf Hp Ht. unfold default_start.
  assert (annotated_seqs (pre ++ tail) = annotated_seqs pre) as ->.
  { unfold annotated_seqs. rewrite omap_app. fold (annotated_seqs pre). fold (annotated_seqs tail).
    rewrite (annotated_unsigned tail) by done. by rewrite app_nil_r. }
  apply numbered_app in Hn as [Hnp Hnt]. destruct pre as [|e pre].
  - cbn. cbn in Hf. destruct tail as [|t tail]; [done|]. injection Hf as ->. destruct Hnt as [-> _]. done.
  - pose proof (annotated_signed 1 (e :: pre) Hnp Hp) as Hm. destruct Hnp as [He Hnp'].
    apply Forall_cons in Hp as [[sig Hs] _].
    assert (annotated_seqs (e :: pre) = 1 :: annotated_seqs pre) as Heq
      by (unfold annotated_seqs; cbn; by rewrite He, Hs).
    specialize (Hm 1). rewrite Heq in *. cbn [fold_left] in Hm. change (Z.max 1 1) with 1 in Hm. rewrite Hm.
    rewrite len_cons. unfold len. lia.
Qed.

(** Annotating the unsigned tail. *)
Lemma annotate_tail sig pre tail n : numbered 1 (pre ++ tail) -> Forall sane (pre ++ tail) ->
  Forall (fun e => exists sig, ae_root_sig e = Some sig) pre -> unsigned tail -> n = len (pre ++ tail) ->
  annotate_root (1 + len pre) n sig (pre ++ tail) = (Ok (len tail), pre ++ map (with_sig sig) tail).
Proof.
  intros Hn Hs Hp Ht ->. unfold annotate_root, sbind, get, lift, put, ret.
  assert (Hpre : forall e, e ∈ pre -> unannotated (1 + len pre) (len (pre ++ tail)) e = false).
  { intros e He. unfold unannotated. rewrite Forall_forall in Hp. destruct (Hp e He) as [sg ->]. apply andb_false_r. }
  assert (Htail : forall k es, numbered k es -> 1 + len pre <= k -> k + len es - 1 <= len (pre ++ tail) -> unsigned es ->
    Forall (fun e => unannotated (1 + len pre) (len (pre ++ tail)) e = true) es).
  { intros k es. revert k. induction es as [|e es IH]; intros k; [constructor|]. rewrite len_cons.
    intros [He Hes] Hk1 Hk2 [Hu Hus]%Forall_cons. constructor; [|apply (IH (k + 1)); try done; lia].
    unfold unannotated, in_seq_range. rewrite He, Hu. assert (0 <= len es) by (unfold len; lia).
    destruct (Z.leb_spec (1 + len pre) k); [|lia]. destruct (Z.leb_spec k (len (pre ++ tail))); [done|lia]. }
  pose proof Hn as [_ Hnt]%numbered_app. specialize (Htail _ _ Hnt ltac:(lia) ltac:(rewrite len_app; lia) Ht).
  set (p := unannotated (1 + len pre) (len (pre ++ tail))) in *. clearbody p.
  assert (Hmap : forall es, Forall sane es -> res_map (fun e => if p e then
      mk_AuditEvent (ae_mandate_id e) (ae_type e) (ae_payload e) (ae_prev_hash e) (ae_hash e) (Aware (ae_created_at e))
        (ae_seq e) (Some sig) else Ok e) es = Ok (map (fun e => if p e then with_sig sig e else e) es)).
  { intros es. induction 1 as [|e es He _ IH]; [done|]. cbn [res_map map]. rewrite IH.
    destruct (p e); [by rewrite sane_rebuilt|done]. }
  rewrite Hmap by done. rewrite map_app, List.filter_app.
  assert (map (fun e => if p e then with_sig sig e else e) pre = pre) as ->.
  { clear -Hpre. induction pre as [|e pre IH]; [done|]. cbn. rewrite Hpre by apply list_elem_of_here. f_equal.
    apply IH. intros x Hx. apply Hpre. by apply list_elem_of_further. }
  assert (map (fun e => if p e then with_sig sig e else e) tail = map (with_sig sig) tail /\
          List.filter p tail = tail) as [-> ->].
  { clear -Htail. induction Htail as [|e es He _ [IH1 IH2]]; [done|]. cbn. rewrite He, IH1, IH2. done. }
  assert (List.filter p pre = []) as ->; [|done].
  clear -Hpre. induction pre as [|e pre IH]; [done|]. cbn. rewrite Hpre by apply list_elem_of_here.
  apply IH. intros x Hx. apply Hpre. by apply list_elem_of_further.
Qed.
End Signing.

Section SignRoot.
Context `{RootSigner}.

Lemma linked_sig prev es sig : linked prev es -> linked prev (map (with_sig sig) es).
Proof. revert prev. induction es as [|e es IH]; intros prev; [done|]. cbn. intros (? & ? & ?). auto. Qed.

Lemma numbered_sig n es sig : numbered n es -> numbered n (map (with_sig sig) es).
Proof. revert n. induction es as [|e es IH]; intros n; [done|]. cbn. intros [? ?]. auto. Qed.

Lemma end_hash_sig prev es sig : end_hash prev (map (with_sig sig) es) = end_hash prev es.
Proof. unfold end_hash, last_hash. rewrite fmap_last. by destruct (last es). Qed.

Lemma len_map (f : AuditEvent -> AuditEvent) es : len (map f es) = len es.
Proof. unfold len. by rewrite length_map. Qed.

(** A failed call leaves the ledger as it was. *)
Definition signed_from (s s' : LedgerState) (segs : list (list AuditEvent)) (tail : list AuditEvent) : Prop :=
  exists cp, cp_seq_start cp = 1 + len (concat segs) /\ cp_seq_end cp = len (repo s) /\
    compute_root_hash (1 + len (concat segs)) (len (repo s)) (override (last_hash tail) "") (len tail) = Ok (cp_root_hash cp) /\
    cp_root_sig cp = bytes_hex (sign (cp_root_hash cp)) /\ cp_cardinality cp = len tail /\
    repo s' = concat segs ++ map (with_sig (cp_root_sig cp)) tail /\
    witness s' = dset (cp_seq_start cp, cp_seq_end cp) cp (witness s).

Lemma numbered_last n es final : numbered n es -> last es = Some final -> ae_seq final = Some (n + len es - 1).
Proof.
  intros Hn Hlast. destruct es as [|e es _] using rev_ind; [done|]. rewrite last_snoc in Hlast. injection Hlast as <-.
  apply numbered_app in Hn as [_ [-> _]]. f_equal. rewrite len_app. unfold len. cbn. lia.
Qed.

(** What remains of the call once its range is known. *)
Lemma sign_range_cases s segs tail t0 tn : ledger_shape s segs tail -> head tail = Some t0 -> last tail = Some tn ->
  let start := 1 + len (concat segs) in
  let stop := len (repo s) in
  forall x, (range_valid <- lift (validate_chain tail (Some (ae_prev_hash t0)) true) ;;
     if negb (cr_ok range_valid) then raise RuntimeError
     else
       root_hash <- lift (compute_root_hash start stop (ae_hash tn) (len tail)) ;;
       checkpoint <- lift (mk_RootCheckpoint start stop root_hash (bytes_hex (sign root_hash)) (len tail) (Aware (clock s))) ;;
       on_repo (annotate_root start stop (bytes_hex (sign root_hash))) ;;;
       on_witness (witness_put checkpoint) ;;;
       ret checkpoint) s = x -> signed_from s x.2 segs tail.
Proof.
  intros Hs Ht0 Htn start stop x Hx. pose proof Hs as [He Hn Hl Hsa Hsg Ht Hk].
  destruct tail as [|t ts]; [done|]. injection Ht0 as ->.
  assert (Hnt : numbered start (t0 :: ts)) by (rewrite He in Hn; by apply numbered_app in Hn as [_ ?]).
  assert (Hlt : linked (end_hash GENESIS_PREV_HASH (concat segs)) (t0 :: ts)) by (rewrite He in Hl; by apply linked_app in Hl as [_ ?]).
  assert (Hst : Forall sane (t0 :: ts)) by (rewrite He in Hsa; by apply Forall_app in Hsa as [_ ?]).
  assert (Hlen : stop = start + len (t0 :: ts) - 1) by (unfold stop, start; rewrite He, len_app; lia).
  assert (Hpos : 1 <= start /\ 1 <= len (t0 :: ts)) by (unfold start, len; cbn [length]; lia).
  unfold validate_chain in Hx. assert (validate_from (Some (ae_prev_hash t0)) true 0 None (t0 :: ts) = Ok None) as Hv.
  { apply validate_from_ok. split; [|by apply (numbered_continuous start)]. cbn [previous expected_prev].
    destruct Hlt as (_ & ? & ?). done. }
  rewrite Hv in Hx. unfold sbind at 1, lift at 1 in Hx. cbn [rbind override cr_ok chain_ok negb] in Hx.
  destruct (compute_root_hash start stop (ae_hash tn) (len (t0 :: ts))) as [root|] eqn:Eroot.
  2: { exfalso. unfold compute_root_hash in Eroot. destruct (Z.ltb_spec start 1); [lia|].
       destruct (Z.ltb_spec stop start); [lia|]. cbn [orb] in Eroot.
       destruct (Z.eqb_spec (len (t0 :: ts)) (stop - start + 1)); [|lia]. cbn [negb] in Eroot.
       assert (bad_hash (ae_hash tn) = false) as Hb; [|rewrite Hb in Eroot; done].
       rewrite Forall_forall in Hst. apply last_Some_elem_of, Hst in Htn. apply Htn. }
  assert (Hbad : bad_hash root = false).
  { unfold compute_root_hash in Eroot. destruct (_ || _); [done|]. destruct (negb _); [done|]. destruct (bad_hash (ae_hash tn)); [done|].
    destruct (canonical_json _); cbn [rbind] in Eroot; [|done]. injection Eroot as <-. apply sha_not_bad. }
  unfold sbind at 1, lift at 1 in Hx. set (sig := bytes_hex (sign root)) in *.
  assert (Hsig : truthy_str sig = true).
  { unfold sig. pose proof (sign_nonempty root) as Hne. by destruct (sign root). }
  set (cp := {| cp_seq_start := start; cp_seq_end := stop; cp_root_hash := root; cp_root_sig := sig;
    cp_cardinality := len (t0 :: ts); cp_created_at := clock s |}).
  assert (mk_RootCheckpoint start stop root sig (len (t0 :: ts)) (Aware (clock s)) = Ok cp) as Hcp.
  { unfold mk_RootCheckpoint. destruct (Z.ltb_spec start 1); [lia|]. destruct (Z.ltb_spec stop start); [lia|]. cbn [orb].
    destruct (Z.eqb_spec (len (t0 :: ts)) (stop - start + 1)); [|lia]. cbn [negb]. by rewrite Hbad, Hsig. }
  rewrite Hcp in Hx. unfold sbind at 1, lift at 1 in Hx. unfold sbind at 1, on_repo, zoom in Hx. rewrite He in Hn, Hsa.
  rewrite He in Hx. unfold start, stop in Hx. rewrite He in Hx.
  rewrite (annotate_tail sig (concat segs) (t0 :: ts) _ Hn Hsa (segs_signed _ _ _ _ Hsg) Ht eq_refl) in Hx.
  unfold sbind at 1, on_witness, zoom, witness_put, sbind, get, put, ret in Hx. cbn [witness cp_seq_start cp_seq_end cp] in Hx.
  change (cp_seq_start cp, cp_seq_end cp) with (start, stop) in Hx.
  destruct (dget (start, stop) (witness s)) as [old|] eqn:Eold.
  { exfalso. specialize (Hk start stop old Eold). unfold start in Hk. lia. }
  subst x. exists cp. cbn [snd repo witness cp_seq_start cp_seq_end cp_root_hash cp_root_sig cp_cardinality cp].
  unfold last_hash. rewrite Htn. split_and!; done.
Qed.
End SignRoot.

(** Histories of the audit ledger: every sequence of appends and root signatures
    leaves a ledger that verifies, and what the verification does not cover. *)

Section History.
Context `{RootSigner}.

(** ** One signature *)

(** Without unsigned events the call leaves the ledger as it was; otherwise it
    signs and publishes them. *)
Lemma sign_root_cases s segs tail : ledger_shape s segs tail ->
  tail = [] /\ (sign_root None None s).2 = s \/ tail <> [] /\ signed_from s (sign_root None None s).2 segs tail.
Proof.
  intros Hs. pose proof Hs as [He Hn Hl Hsa Hsg Ht Hk]. destruct (sign_root None None s) as [r s'] eqn:E. cbn [snd].
  unfold sign_root, sbind at 1, get in E.
  destruct (repo s) as [|first rest] eqn:Er.
  { injection E as _ <-. left. symmetry in He. by apply app_eq_nil in He as [_ ->]. }
  destruct (last (first :: rest)) as [final|] eqn:Elast; [|by apply last_None in Elast]. cbn [override] in E.
  rewrite <- Er in *. assert (Hf : head (repo s) = Some first) by by rewrite Er.
  pose proof (numbered_last 1 _ final Hn Elast) as Hfin. rewrite Hfin in E. cbn [seq_or] in E.
  assert (Hstart : default_start first (repo s) = 1 + len (concat segs)).
  { rewrite He in *. by apply next_start; [| |eapply segs_signed|]. }
  assert (Hlen : 1 + len (repo s) - 1 = len (repo s)) by lia. rewrite Hlen, Hstart in E.
  assert (0 < len (repo s)) by (rewrite Er, len_cons; unfold len; lia).
  destruct (Z.eqb_spec (len (repo s)) 0); [lia|].
  destruct (Z.ltb_spec (len (repo s)) (1 + len (concat segs))) as [Hlt|Hge].
  { injection E as _ <-. left. split; [|done]. destruct tail; [done|]. rewrite He, len_app, len_cons in Hlt.
    unfold len in Hlt. lia. }
  right.
  destruct tail as [|t0 ts]; [rewrite He, len_app in Hge; unfold len in Hge; cbn [length] in Hge; lia|]. split; [done|].
  assert (Hrange : get_range (1 + len (concat segs)) (len (repo s)) (repo s) = t0 :: ts).
  { pose proof (get_range_block 1 (concat segs) (t0 :: ts) []) as Hb. rewrite app_nil_r, <- He in Hb. specialize (Hb Hn).
    etrans; [|exact Hb]. f_equal. rewrite He, len_app. lia. }
  rewrite Hrange in E. assert (exists tn, last (t0 :: ts) = Some tn) as [tn Htn] by (rewrite last_cons; destruct (last ts); eauto).
  rewrite Htn in E. exact (sign_range_cases s segs (t0 :: ts) t0 tn Hs eq_refl Htn _ E).
Qed.

Lemma sane_sig sig e : sane e -> sane (with_sig sig e).
Proof. done. Qed.

Lemma dget_fresh (w : InMemoryWitness) k cp a b cp' : dget k w = None ->
  witness_get a b w = Some cp' -> witness_get a b (dset k cp w) = Some cp'.
Proof.
  unfold witness_get. intros Hk Ha. destruct (decide (k = (a, b))) as [->|Hne]; [congruence|].
  by rewrite dget_dset_ne.
Qed.

(** The signed tail is one more block. *)
Lemma signed_shape s s' segs tail : ledger_shape s segs tail -> tail <> [] -> signed_from s s' segs tail ->
  (exists segs', ledger_shape s' segs' []) \/ root_collision (witness s').
Proof.
  intros [He Hn Hl Hsa Hsg Ht Hk] Hne (cp & Hcs & Hce & Hroot & Hsig & Hcard & Hr & Hw).
  set (sig := cp_root_sig cp) in *. set (seg := map (with_sig sig) tail) in *.
  assert (Hnew : dget (cp_seq_start cp, cp_seq_end cp) (witness s) = None).
  { destruct (dget _ (witness s)) as [old|] eqn:E; [|done]. apply Hk in E. lia. }
  assert (Hls : len seg = len tail) by apply len_map.
  assert (Hlen : len (repo s) = 1 + len (concat segs) + len seg - 1) by (rewrite He, len_app; lia).
  assert (Hpos : 0 < len tail) by (destruct tail; [done|rewrite len_cons; unfold len; lia]).
  destruct (segs_snoc (witness s') 1 None segs seg (cp_root_hash cp)) as [Hok|]; [done| | | |by right].
  - eapply segs_mono; [|exact Hsg]. intros a b c Hc. rewrite Hw. by apply dget_fresh.
  - split; [unfold seg; by destruct tail|]. split.
    { unfold carries, seg. apply Forall_map, Forall_true. intros e. cbn. by rewrite <- Hsig. }
    split.
    + destruct (last tail) as [tn|] eqn:Etn; [|by apply last_None in Etn]. exists (with_sig sig tn).
      split; [unfold seg; by rewrite fmap_last, Etn|]. rewrite <- Hlen, Hls. unfold last_hash in Hroot. by rewrite Etn in Hroot.
    + exists cp. split; [|rewrite Hls; done]. rewrite <- Hlen, Hw, <- Hcs, <- Hce. unfold witness_get. apply dget_dset.
  - left. exists (segs ++ [seg]). rewrite He in Hn, Hl, Hsa.
    apply numbered_app in Hn as [Hn1 Hn2]. apply linked_app in Hl as [Hl1 Hl2]. apply Forall_app in Hsa as [Hsa1 Hsa2].
    split; rewrite ?Hr, ?concat_app; cbn [concat]; rewrite ?app_nil_r; try done.
    + apply numbered_app. split; [done|]. by apply numbered_sig.
    + apply linked_app. split; [done|]. by apply linked_sig.
    + apply Forall_app. split; [done|]. apply Forall_map. eapply Forall_impl; [exact Hsa2|]. intros e. apply sane_sig.
    + constructor.
    + intros a b c. rewrite Hw, len_app. unfold witness_get. destruct (decide ((cp_seq_start cp, cp_seq_end cp) = (a, b))) as [[= <- <-]|Hne'].
      * intros _. lia.
      * rewrite dget_dset_ne by done. intros Hc. apply Hk in Hc. lia.
Qed.

(** ** Sequences of calls *)

Inductive ledger_call : Type :=
  | LAppend (type mandate_id : string) (payload : pydict) (created_at : option datetime)
  | LSignRoot
  | LTick (now : Z).

Definition ledger_step (s : LedgerState) (c : ledger_call) : LedgerState :=
  match c with
  | LAppend type mandate_id payload created_at => (ledger_append type mandate_id payload created_at s).2
  | LSignRoot => (sign_root None None s).2
  | LTick now => {| repo := repo s; witness := witness s; clock := now |}
  end.

Definition run_calls (s : LedgerState) (calls : list ledger_call) : LedgerState := fold_left ledger_step calls s.

Definition empty_ledger (now : Z) : LedgerState := {| repo := []; witness := []; clock := now |}.

Lemma empty_ok now : ledger_ok (empty_ledger now).
Proof. exists [], []. by split; try constructor. Qed.

Lemma sign_ok s : ledger_ok s ->
  (exists segs, ledger_shape (sign_root None None s).2 segs []) \/ root_collision (witness (sign_root None None s).2).
Proof.
  intros (segs & tail & Hs). destruct (sign_root_cases s segs tail Hs) as [[-> ->]|[Hne Hsigned]]; [left; by exists segs|].
  by eapply signed_shape.
Qed.

Lemma call_ok s c : ledger_ok s -> ledger_ok (ledger_step s c) \/ root_collision (witness (ledger_step s c)).
Proof.
  intros Hs. destruct c as [type mid payload at_| |now]; cbn [ledger_step].
  - destruct Hs as (segs & tail & Hs). destruct (append_shape type mid payload at_ s segs tail Hs) as [tail' Ht].
    left. by exists segs, tail'.
  - destruct (sign_ok s Hs) as [[segs Hs']|]; [left; by exists segs, []|by right].
  - left. destruct Hs as (segs & tail & [? ? ? ? ? ? ?]). by exists segs, tail.
Qed.

(** What is published stays published. *)
Lemma step_witness s c a b cp :
  witness_get a b (witness s) = Some cp -> witness_get a b (witness (ledger_step s c)) = Some cp.
Proof.
  intros Hw. destruct c as [type mid payload at_| |now]; cbn [ledger_step]; [| |done].
  - unfold ledger_append, sbind, get, on_repo, zoom. by destruct (repo_append _ _ _ _ _ _) as [[x|y] r].
  - unfold sign_root, on_repo, on_witness, zoom, witness_put, sbind, get, lift, put, ret, raise.
    repeat (case_match; simplify_eq; cbn in *; try done); by apply dget_fresh.
Qed.

Lemma collision_kept s calls : root_collision (witness s) -> root_collision (witness (run_calls s calls)).
Proof.
  unfold run_calls. revert s. induction calls as [|c calls IH]; intros s Hc; [done|]. apply IH.
  destruct Hc as (a & b & a' & b' & root & Hne & (cp & h & Hcp & H1) & (cp' & h' & Hcp' & H2)).
  exists a, b, a', b', root. split; [done|]. split; [exists cp, h|exists cp', h']; split; try done; by apply step_witness.
Qed.

Lemma calls_ok calls s : ledger_ok s ->
  ledger_ok (run_calls s calls) \/ root_collision (witness (run_calls s calls)).
Proof.
  revert s. induction calls as [|c calls IH]; intros s Hs; [by left|].
  destruct (call_ok s c Hs) as [Hc|Hc]; [by apply IH|]. right. exact (collision_kept (ledger_step s c) calls Hc).
Qed.

Lemma linked_hashes prev es : linked prev es -> Forall (fun e => event_hash e = Ok (ae_hash e)) es.
Proof. revert prev. induction es as [|e es IH]; intros prev; constructor; naive_solver. Qed.

(** Every projection verifies too. *)
Lemma projection_ok s mid : ledger_ok s -> exists r, verify_chain (Some mid) None s = (Ok r, s) /\ cr_ok r = true.
Proof.
  intros (segs & tail & [_ _ Hl _ _ _ _]). apply linked_hashes in Hl.
  assert (Hp : check_projection mid (get_by_mandate mid (repo s)) = Ok None).
  { unfold get_by_mandate. induction Hl as [|e es He _ IH]; [done|]. cbn [List.filter].
    destruct (String.eqb _ _); [|done]. cbn [check_projection]. rewrite He. cbn [rbind]. by rewrite String.eqb_refl. }
  unfold verify_chain, sbind, get, lift, ret. destruct (get_by_mandate mid (repo s)) eqn:Eg; [by eexists|].
  rewrite Hp. by eexists.
Qed.
End History.

(** Whatever is appended, signed and timed from an empty ledger on, the ledger
    verifies as a whole and for every mandate, and right after a root signature
    no event is unsigned; unless two checkpoints it published for different
    ranges have one root hash, a SHA-256 collision. *)
Theorem history_verifies (S : RootSigner) (now : Z) (calls : list ledger_call) :
  let s := run_calls (empty_ledger now) calls in
  (verify_chain None None s = (Ok (whole (repo s)), s) /\
   (forall mid, exists r, verify_chain (Some mid) None s = (Ok r, s) /\ cr_ok r = true) /\
   Forall (fun e => exists sig, ae_root_sig e = Some sig) (repo (ledger_step s LSignRoot))) \/
  root_collision (witness (ledger_step s LSignRoot)).
Proof.
  intros s. destruct (calls_ok calls (empty_ledger now) (empty_ok now)) as [Hs|Hc].
  2: { right. exact (collision_kept s [LSignRoot] Hc). }
  fold s in Hs. destruct (sign_ok s Hs) as [[segs [He _ _ _ Hsg _ _]]|]; [|by right]. left.
  split; [by apply ledger_ok_verifies|]. split; [intros mid; by apply projection_ok|].
  cbn [ledger_step]. rewrite He, app_nil_r. by eapply segs_signed.
Qed.

(** ** What carries no signature *)

Definition unsign (e : AuditEvent) : AuditEvent :=
  {| ae_mandate_id := ae_mandate_id e; ae_type := ae_type e; ae_payload := ae_payload e;
     ae_prev_hash := ae_prev_hash e; ae_hash := ae_hash e; ae_created_at := ae_created_at e;
     ae_seq := ae_seq e; ae_root_sig := None |}.

Lemma unsign_linked prev es : linked prev es -> linked prev (map unsign es).
Proof. revert prev. induction es as [|e es IH]; intros prev; [done|]. cbn. intros (? & ? & ?). auto. Qed.

Lemma unsign_numbered n es : numbered n es -> numbered n (map unsign es).
Proof. revert n. induction es as [|e es IH]; intros n; [done|]. cbn. intros [? ?]. auto. Qed.

Lemma unsigned_verifies `{RootSigner} prev n es w now : linked prev es -> numbered n es ->
  (n = 1 -> prev = GENESIS_PREV_HASH) -> unsigned es ->
  let s := {| repo := es; witness := w; clock := now |} in verify_chain None None s = (Ok (whole es), s).
Proof.
  intros Hl Hn Hp Hu s. unfold verify_chain, sbind, get, lift, ret. cbn [repo witness s].
  destruct es as [|e es]; [done|]. unfold validate_chain.
  assert (validate_from None true 0 None (e :: es) = Ok None) as ->.
  { apply validate_from_ok. split; [|by apply (numbered_continuous n)]. cbn [previous expected_prev].
    pose proof Hl as [Hprev _]. destruct Hn as [Hn _]. case_bool_decide as Hb; [|by rewrite Hprev].
    rewrite Hn in Hb. injection Hb as ->. by rewrite <- Hp. }
  cbn [rbind override cr_ok chain_ok negb].
  assert (checkpoint_ranges (e :: es) = []) as ->; [|done].
  unfold checkpoint_ranges. by rewrite group_tail.
Qed.

(** The witness is consulted for signed ranges only: of a ledger that any calls
    built, every suffix, with its first events gone and all its root
    signatures erased, verifies against any witness, the one that recorded the
    whole history included; unless two published checkpoints collide. *)
Theorem unsigned_suffix_accepted (S : RootSigner) (now : Z) (calls : list ledger_call) (k : nat) (w : InMemoryWitness) :
  let s := run_calls (empty_ledger now) calls in
  let es := map unsign (drop k (repo s)) in
  (verify_chain None None {| repo := es; witness := w; clock := now |}
   = (Ok (whole es), {| repo := es; witness := w; clock := now |})) \/ root_collision (witness s).
Proof.
  intros s es. destruct (calls_ok calls (empty_ledger now) (empty_ok now)) as [Hs|]; [|by right]. left. fold s in Hs.
  destruct Hs as (segs & tail & [_ Hn Hl _ _ _ _]). rewrite <- (take_drop k (repo s)) in Hn, Hl.
  apply numbered_app in Hn as [_ Hn]. apply linked_app in Hl as [_ Hl].
  eapply unsigned_verifies; [by apply unsign_linked|by apply unsign_numbered| |].
  - intros E. assert (length (take k (repo s)) = 0)%nat as H0 by (unfold len in E; lia).
    by apply nil_length_inv in H0 as ->.
  - apply Forall_map, Forall_true. done.
Qed.

(** ** Concrete histories *)

(** A signer that marks what it signs. *)
#[export] Instance mark_signer : RootSigner.
Proof.
  refine {| sign := fun data => ("signed:" +:+ data)%string;
            signer_verify := fun data sig => String.eqb sig ("signed:" +:+ data)%string |}.
  - intros data. apply String.eqb_refl.
  - intros a b H. by apply (inj (String.append "signed:")) in H.
  - done.
Defined.

Definition first_event : AuditEvent :=
  {| ae_mandate_id := "m-1"; ae_type := "mandate.created"; ae_payload := [("by", VStr "u")]; ae_prev_hash := GENESIS_PREV_HASH;
     ae_hash := match compute_event_hash "m-1" "mandate.created" [("by", VStr "u")] GENESIS_PREV_HASH (Aware 0) with
                | Ok h => h | Raise _ => "" end;
     ae_created_at := 0; ae_seq := Some 1; ae_root_sig := None |}%string.

Definition first_ledger : LedgerState := {| repo := [first_event]; witness := []; clock := 0 |}.

Lemma first_linked : linked GENESIS_PREV_HASH [first_event].
Proof. split; [reflexivity|]. split; [|done]. lazy -[sha256_hex]. reflexivity. Qed.

Lemma first_validates : validate_chain [first_event] None true = Ok (whole [first_event]).
Proof.
  unfold validate_chain. rewrite (proj2 (validate_from_ok None 0 None [first_event])); [done|].
  split; [exact first_linked|done].
Qed.

Lemma first_verifies : verify_chain None None first_ledger = (Ok (whole [first_event]), first_ledger).
Proof. apply (unsigned_verifies GENESIS_PREV_HASH 1); [exact first_linked|done|done|]. by constructor. Qed.

(** It validates from the genesis, and not from another start. *)
Lemma validate_chain_exact_witness :
  (linked (expected_prev None None first_event) [first_event] /\ continuous None [first_event]) /\
  exists good bad rest, [first_event] = good ++ bad :: rest /\ 0 = Z.of_nat (length good).
Proof.
  split.
  - apply (validate_chain_exact None first_event [] _ first_validates). reflexivity.
  - destruct (validate_chain_exact (Some "other") first_event [] _ eq_refl) as (_ & _ & Hbad).
    destruct (Hbad eq_refl) as (good & bad & rest & Heq & Hn & _). exists good, bad, rest. split; [exact Heq|exact Hn].
Defined.

Lemma history_bound_by_last_hash_witness :
  Forall2 same_content (repo first_ledger) (repo first_ledger) \/ sha_collision (repo first_ledger) (repo first_ledger).
Proof.
  apply (history_bound_by_last_hash mark_signer first_ledger first_ledger first_ledger first_ledger first_event first_event
           [] [] _ first_verifies first_verifies eq_refl eq_refl eq_refl eq_refl eq_refl).
  - repeat constructor; vm_compute; congruence.
  - repeat constructor; vm_compute; congruence.
Defined.
