(* ===== verification/SdJwt.v ===== *)
(** SD-JWT mandates (src/src/trustlib/sdjwt.py): disclosures behind digests, the
    issuer's token, the holder's key binding, and verification; and the AP2
    conversions and bindings of src/src/trustlib/ap2.py that need no mandate
    model.  Times are seconds, random bytes are arguments. *)
From S2P Require Import Prelude PyTime Decimal Json JsonLogic JsonParse Base64 Sha256 Models Canonical Jose RappiClient AgentRules.

(** ** Values JCS writes without loss *)

(** Distinct keys, no float, integers a double holds exactly. *)
Fixpoint signable (v : pyval) : bool :=
  match v with
  | VNone | VBool _ | VStr _ => true
  | VInt n => Z.abs n <? 2 ^ 53
  | VDec _ | VFloat _ | VTime _ => false
  | VList l => forallb signable l
  | VDict kvs => bool_decide (NoDup kvs.*1) && forallb (fun kv => signable kv.2) kvs
  end.

(** Keys as JWKs (jwcrypto): a key read from the members of an exported one, in
    any order, is its public half.  A compact token is three parts in base64url.
    A canonical text reads as the value it was made from, up to the order of
    keys. *)
Class JwkLibrary `{JwsLibrary} : Type := {
  JWK : pyval -> res Key;
  export_public : Key -> pydict;
  export_members : forall k, export_public k <> [] /\ signable (VDict (export_public k)) = true;
  jwk_reads : forall k v, sort_value v = sort_value (VDict (export_public k)) -> JWK v = Ok (public k);
  jws_text : forall k alg protected payload token, jws_sign k alg protected payload = Ok token ->
    exists raw, token = (b64u_encode protected +:+ "." +:+ b64u_encode payload +:+ "." +:+ b64u_encode raw)%string;
  jcs_reads : forall v, signable v = true ->
    exists text v', jcs_dumps v = Ok text /\ loads json_float_repr text = Ok v' /\ sort_value v' = sort_value v;
}.

(** [s.split(sep)] for one character. *)
Fixpoint split_at (sep : ascii) (s : string) : list string :=
  match s with
  | EmptyString => [EmptyString]
  | String.String c s' =>
      if Ascii.eqb c sep then EmptyString :: split_at sep s'
      else match split_at sep s' with
           | [] => [String.String c EmptyString]
           | w :: ws => String.String c w :: ws
           end
  end.

(** [d.pop(key, None)] *)
Definition dict_pop {A} (key : string) (kvs : list (string * A)) : list (string * A) :=
  List.filter (fun kv => negb (String.eqb kv.1 key)) kvs.

(** The number a comparison with an [int] sees. *)
Definition number_of (v : pyval) : res Decimal.dec :=
  match v with
  | VInt n => Ok (decimal_of_int n)
  | VBool b => Ok (decimal_of_int (if b then 1 else 0))
  | VFloat r => Ok (float_exact r)
  | _ => Raise TypeError
  end.

Definition SDJWT_InvalidSignature : exn := SDJWTError "InvalidSignature".
Definition Expired : exn := SDJWTError "Expired".
Definition NotYetValid : exn := SDJWTError "NotYetValid".
Definition InvalidKeyBinding : exn := SDJWTError "InvalidKeyBinding".

Definition SD_ALG : string := "sha-256".
Definition SEPARATOR : string := "~".
Definition KB_TYP : string := "kb+jwt".

(** [except (InvalidJWSSignature, ValueError)] *)
Definition signature_error (e : exn) : bool := match e with InvalidJWSSignature => true | _ => is_value_error e end.

(** [hashlib.sha256(s.encode("ascii")).digest()] *)
Definition sha256_raw (s : string) : string := string_of_bytes (sha256_bytes (bytes_of_string s)).
Definition _digest (disclosure : string) : res string :=
  if ascii_only disclosure then Ok (b64u_encode (sha256_raw disclosure)) else Raise ValueError.

Section SdJwt.
Context `{JwkLibrary}.

(** [token_bytes] is what [secrets] draws. *)
Definition make_disclosure (token_bytes name : string) (value : pyval) : res (string * string) :=
  let salt := b64u_encode token_bytes in
  let? text := jcs_dumps (VList [VStr salt; VStr name; value]) in
  let disclosure := b64u_encode text in
  let? digest := _digest disclosure in
  Ok (disclosure, digest).

(** The loop over [selective]: the [n]-th disclosure has the [n]-th salt. *)
Fixpoint disclose (salts : nat -> string) (n : nat) (selective : pydict) : res (list (string * string)) :=
  match selective with
  | [] => Ok []
  | (name, value) :: rest => let? d := make_disclosure (salts n) name value in let? ds := disclose salts (S n) rest in Ok (d :: ds)
  end.

Definition issue (salts : nat -> string) (claims : pydict) (key : Key) (kid : string) (selective : pydict) : res string :=
  let? made := disclose salts 0 selective in
  let payload := match selective with
                 | [] => claims
                 | _ => dict_set "_sd_alg" (VStr SD_ALG) (dict_set "_sd" (VList (map (fun d => VStr d.2) made)) claims)
                 end in
  let? token := sign_compact (VDict payload) key (Some kid) (Some "sd+jwt"%string) in
  Ok (join SEPARATOR (token :: made.*1) +:+ SEPARATOR)%string.

Definition ends_with_separator (s : string) : bool := match last (list_ascii_of_string s) with Some c => Ascii.eqb c "~" | None => false end.

Definition attach_key_binding (sd_jwt : string) (holder_key : Key) (nonce aud : string) (now : Z) : res string :=
  let presented := if ends_with_separator sd_jwt then sd_jwt else (sd_jwt +:+ SEPARATOR)%string in
  let? sd_hash := _digest presented in
  let? kb := sign_compact (VDict [("nonce", VStr nonce); ("aud", VStr aud); ("iat", VInt now); ("sd_hash", VStr sd_hash)]%string)
               holder_key None (Some KB_TYP) in
  Ok (presented +:+ kb)%string.

(** [rest[-1] != ""] *)
Definition last_present (l : list string) : bool := match last l with Some s => truthy_str s | None => false end.
Definition last_empty (l : list string) : bool := match last l with Some s => negb (truthy_str s) | None => false end.

Definition _split (sd_jwt : string) : string * list string * option string :=
  match split_at "~" sd_jwt with
  | [] => (EmptyString, [], None)
  | issuer_jwt :: rest =>
      let kb := if last_present rest then last rest else None in
      let rest := if last_present rest then removelast rest else rest in
      let rest := if last_empty rest then removelast rest else rest in
      (issuer_jwt, List.filter truthy_str rest, kb)
  end.

(** [keys.get(kid) if kid else next(iter(keys.values()), None)] *)
Definition key_for (keys : list (string * Key)) (kid : pyval) : res (option Key) :=
  if negb (truthy kid) then Ok (snd <$> head keys)
  else match kid with
       | VStr k => Ok (assoc k keys)
       | VList _ | VDict _ => Raise TypeError
       | _ => Ok None
       end.

(** [try: verify_compact(...) except (InvalidJWSSignature, ValueError)] *)
Definition checked_payload (token : string) (key : Key) (failure : exn) : res pyval :=
  match verify_compact token key with
  | Ok v => Ok v
  | Raise e => if signature_error e then Raise failure else Raise e
  end.

(** The temporal window, at the leeway of every caller: none. *)
Definition check_window (claims : pyval) (current : Z) : res unit :=
  let? has_exp := py_in (VStr "exp") claims in
  let? late := (if (has_exp : bool) then let? e := py_item claims "exp" in let? d := number_of e in Ok (gt (decimal_of_int current) d) else Ok false) in
  let? _ := guard_res (negb late) Expired in
  let? has_nbf := py_in (VStr "nbf") claims in
  let? early := (if (has_nbf : bool) then let? n := py_item claims "nbf" in let? d := number_of n in Ok (gt d (decimal_of_int current)) else Ok false) in
  guard_res (negb early) NotYetValid.

(** [set(claims.get("_sd", []))] as a membership test for a digest, which no
    single character is. *)
Definition signed_digests (claims : pyval) : res (string -> bool) :=
  let? sd := py_get_or claims "_sd" (VList []) in
  match sd with
  | VList l => if existsb (fun v => match v with VList _ | VDict _ => true | _ => false end) l then Raise TypeError
               else Ok (fun d => existsb (fun v => match v with VStr s => String.eqb s d | _ => false end) l)
  | VDict kvs => Ok (fun d => existsb (String.eqb d) kvs.*1)
  | VStr _ => Ok (fun _ => false)
  | _ => Raise TypeError
  end.

(** [claims[name] = value]; a name that is no text makes an entry that nothing
    reads. *)
Definition set_claim (name value : pyval) (claims : pydict) : res pydict :=
  match name with
  | VStr k => Ok (dict_set k value claims)
  | VList _ | VDict _ => Raise TypeError
  | _ => Ok claims
  end.

Definition open_disclosure (disclosure : string) : res (pyval * pyval) :=
  let? text := b64u_decode disclosure in
  let? v := loads json_float_repr text in
  let? parts := py_iter v in
  match parts with [_; name; value] => Ok (name, value) | _ => Raise ValueError end.

Fixpoint merge_disclosures (signed : string -> bool) (disclosures : list string) (claims : pydict) : res pydict :=
  match disclosures with
  | [] => Ok claims
  | d :: rest =>
      let? digest := _digest d in
      let? _ := guard_res (signed digest) SDJWT_InvalidSignature in
      let? nv := open_disclosure d in
      let? claims := set_claim nv.1 nv.2 claims in
      merge_disclosures signed rest claims
  end.

(** [if nonce is not None and kb.get("nonce") != nonce] *)
Definition expect_claim (kb : pyval) (name : string) (expected : option string) : res unit :=
  match expected with
  | None => Ok tt
  | Some e => let? v := py_get kb name in guard_res (py_eq v (VStr e)) InvalidKeyBinding
  end.

Definition check_key_binding (issuer_jwt : string) (disclosures : list string) (kb_jwt : option string) (claims : pyval) (nonce aud : option string) : res unit :=
  match or_str kb_jwt None with
  | None => Raise InvalidKeyBinding
  | Some kb_jwt =>
      let? cnf := py_get claims "cnf" in
      let? holder_jwk := py_get (py_or cnf (VDict [])) "jwk" in
      if negb (truthy holder_jwk) then Raise InvalidKeyBinding
      else
        let? kb := match JWK holder_jwk with
                   | Ok key => checked_payload kb_jwt key InvalidKeyBinding
                   | Raise e => if signature_error e then Raise InvalidKeyBinding else Raise e
                   end in
        let? _ := expect_claim kb "nonce" nonce in
        let? _ := expect_claim kb "aud" aud in
        let presented := (issuer_jwt +:+ (match disclosures with [] => EmptyString | _ => SEPARATOR +:+ join SEPARATOR disclosures end) +:+ SEPARATOR)%string in
        let? expected := _digest presented in
        let? sd_hash := py_get kb "sd_hash" in
        guard_res (py_eq sd_hash (VStr expected)) InvalidKeyBinding
  end.

(** Claims that are no mapping fail at the latest where entries are removed. *)
Definition claims_dict (claims : pyval) : res pydict :=
  match claims with VDict kvs => Ok kvs | VStr _ => Raise AttributeError | _ => Raise TypeError end.

Definition verify (sd_jwt : string) (keys : list (string * Key)) (nonce aud : option string) (require_key_binding : bool) (current : Z) : res pydict :=
  let '(issuer_jwt, disclosures, kb_jwt) := _split sd_jwt in
  let? header := peek_header issuer_jwt in
  let? kid := py_get header "kid" in
  let? key := key_for keys kid in
  match key with
  | None => Raise SDJWT_InvalidSignature
  | Some key =>
      let? claims := checked_payload issuer_jwt key SDJWT_InvalidSignature in
      let? _ := check_window claims current in
      let? merged := (match disclosures with
                      | [] => Ok claims
                      | _ => let? signed := signed_digests claims in let? kvs := claims_dict claims in
                             let? kvs := merge_disclosures signed disclosures kvs in Ok (VDict kvs)
                      end) in
      let? _ := (if require_key_binding || match kb_jwt with Some s => truthy_str s | None => false end
                 then check_key_binding issuer_jwt disclosures kb_jwt merged nonce aud else Ok tt) in
      let? kvs := claims_dict merged in
      Ok (dict_pop "_sd_alg" (dict_pop "_sd" kvs))
  end.
End SdJwt.

(** ** ap2.py: amounts and bindings *)

(** [int((Decimal(amount) * 100).to_integral_value())], half to even. *)
Definition to_integral (d : Decimal.dec) : Decimal.dec :=
  match d with
  | DFin neg coef exp => if 0 <=? exp then d else DFin neg (div_round ROUND_HALF_EVEN coef (10 ^ (- exp))) 0
  | _ => d
  end.
Definition to_minor_units (amount : Decimal.dec) : res Z :=
  let? scaled := dmul amount (decimal_of_int 100) in
  dec_int (to_integral scaled).

(** [str((Decimal(minor) / 100).quantize(Decimal("0.01")))] *)
Definition from_minor_units (minor : Z) : res string :=
  let? units := ddiv (decimal_of_int minor) (decimal_of_int 100) in
  let? d := quantize_cent ROUND_HALF_EVEN units in
  Ok (dec_str d).

Definition checkout_hash (checkout_jwt : string) : res string := _digest checkout_jwt.
Definition verify_checkout_binding (checkout_jwt claimed_hash : string) : res bool :=
  let? h := checkout_hash checkout_jwt in if ascii_only claimed_hash then Ok (String.eqb h claimed_hash) else Raise TypeError.

Definition VCT_PAYMENT_CLOSED : string := "mandate.payment.1".
Definition VCT_CHECKOUT_CLOSED : string := "mandate.checkout.1".

(** What the merchant signs; the policies are the defaults of the source. *)
Definition build_checkout_payload (order_id merchant_id merchant_name merchant_website : string) (line_items : list pyval)
    (total_price : Decimal.dec) (currency shipping_policy return_policy : string) : res pydict :=
  let? total := to_minor_units total_price in
  Ok [("order_id", VStr order_id);
      ("merchant", VDict [("id", VStr merchant_id); ("name", VStr merchant_name); ("website", VStr merchant_website)]);
      ("line_items", VList line_items); ("total_price", VInt total); ("currency", VStr currency);
      ("shipping_policy", VStr shipping_policy); ("return_policy", VStr return_policy)]%string.

Definition closed_checkout_mandate (checkout_jwt : string) : res pydict :=
  let? hash := checkout_hash checkout_jwt in
  Ok [("vct", VStr VCT_CHECKOUT_CLOSED); ("checkout_hash", VStr hash); ("_sd_alg", VStr "sha-256")]%string.

Definition closed_payment_mandate (transaction_id payee_id payee_name : string) (amount : Decimal.dec) (currency payment_instrument_id : string)
    (bound_checkout_jwt : option string) : res pydict :=
  let? units := to_minor_units amount in
  let mandate := [("vct", VStr VCT_PAYMENT_CLOSED); ("transaction_id", VStr transaction_id);
                  ("payee", VDict [("id", VStr payee_id); ("name", VStr payee_name)]);
                  ("payment_amount", VDict [("amount", VInt units); ("currency", VStr currency)]);
                  ("payment_instrument", VDict [("id", VStr payment_instrument_id); ("type", VStr "vaulted_token")])]%string in
  match bound_checkout_jwt with
  | None => Ok mandate
  | Some jwt =>
      let? hash := checkout_hash jwt in
      Ok (mandate ++ [("constraints", VList [VDict [("type", VStr "payment.reference"); ("conditional_transaction_id", VStr hash)]])]%string)
  end.
