(* ===== verification/SdJwtFacts.v ===== *)
(** SD-JWT presentations (SdJwt.v): what an issuer signs and a holder binds is
    accepted for exactly the nonce and the audience of the binding and within the
    mandate's window, and opens as the claims with what was disclosed. *)
From S2P Require Import Prelude PyTime Decimal Sha256 Base64 Json JsonParse Models JsonLogic Canonical Jose RappiClient AgentRules AgentAuditFacts SdJwt.

(** ** Texts split where they were joined *)

Definition free_of (sep : ascii) (s : string) : bool := str_forallb (fun c => negb (Ascii.eqb c sep)) s.


Lemma split_free sep s : free_of sep s = true -> split_at sep s = [s].
Proof. unfold free_of. induction s as [|c s IH]; [done|]. cbn. destruct (Ascii.eqb c sep); [done|]. intros Hs. by rewrite IH. Qed.

Lemma split_first sep s r : free_of sep s = true -> split_at sep (s +:+ String.String sep r)%string = s :: split_at sep r.
Proof.
  unfold free_of. induction s as [|c s IH]; intros Hs; [change (split_at sep (String.String sep r) = EmptyString :: split_at sep r); cbn [split_at]; by rewrite Ascii.eqb_refl|].
  change (String.String c s +:+ String.String sep r)%string with (String.String c (s +:+ String.String sep r)%string).
  cbn in *. destruct (Ascii.eqb c sep); [done|]. by rewrite IH.
Qed.

Lemma split_joined s l r : free_of "~" s = true -> Forall (fun x => free_of "~" x = true) l -> free_of "~" r = true ->
  split_at "~" (join SEPARATOR (s :: l) +:+ SEPARATOR +:+ r)%string = s :: l ++ [r].
Proof.
  intros Hs Hl Hr. revert s Hs. induction Hl as [|x l Hx Hl IH]; intros s Hs.
  - cbn [join app]. change (SEPARATOR +:+ r)%string with (String.String "~" r). by rewrite split_first, split_free.
  - change (join SEPARATOR (s :: x :: l)) with (s +:+ SEPARATOR +:+ join SEPARATOR (x :: l))%string. rewrite !string_app_assoc.
    change (split_at "~" (s +:+ String.String "~" (join SEPARATOR (x :: l) +:+ SEPARATOR +:+ r))%string = s :: (x :: l) ++ [r]).
    rewrite split_first by done. by rewrite (IH x Hx).
Qed.

Lemma b64u_free sep s : b64_val sep = None -> free_of sep (b64u_encode s) = true.
Proof.
  intros Hsep. assert (Hchr : forall n, (n < 64)%N -> negb (Ascii.eqb (b64_chr n) sep) = true).
  { intros n Hn. destruct (Ascii.eqb_spec (b64_chr n) sep) as [E|]; [|done]. pose proof (b64_val_chr n Hn) as Hv. by rewrite E, Hsep in Hv. }
  unfold free_of. induction s as [|a|a b|a b c s IH] using by_three; cbn [b64u_encode str_forallb]; [done| | |];
    rewrite !Hchr by N_arith; [done|done|exact IH].
Qed.

Lemma b64u_nonempty s : truthy_str s = true -> truthy_str (b64u_encode s) = true.
Proof. by destruct s as [|a [|b [|c s]]]. Qed.

(** ** Values up to the order of keys *)

Lemma sorted_str v s : sort_value v = VStr s -> v = VStr s.
Proof. by destruct v. Qed.
Lemma sorted_int v n : sort_value v = VInt n -> v = VInt n.
Proof. by destruct v. Qed.
Lemma sorted_list v l : sort_value v = VList l -> exists l', v = VList l' /\ map sort_value l' = l.
Proof. destruct v; try done. intros [= <-]. by eexists. Qed.
Lemma sorted_dict v kvs : sort_value v = sort_value (VDict kvs) -> NoDup kvs.*1 ->
  exists kvs', v = VDict kvs' /\ forall k, sort_value <$> assoc k kvs' = sort_value <$> assoc k kvs.
Proof.
  destruct v as [| | | | | | | |kvs']; try done. intros Hs Hnd. exists kvs'. split; [done|]. intros k.
  assert (Hnd' : NoDup kvs'.*1).
  { assert (kvs'.*1 ≡ₚ kvs.*1) as ->; [|done]. cbn in Hs. injection Hs as Hs. apply (f_equal (fun l => l.*1)) in Hs.
    assert (Hk : forall l : pydict, (sort_keys (map (fun kv => (kv.1, sort_value kv.2)) l)).*1 ≡ₚ l.*1)
      by (intros l; rewrite sort_keys_perm, <- list_fmap_compose; done).
    rewrite <- (Hk kvs'), <- (Hk kvs). by rewrite Hs. }
  assert (Ha : forall l : pydict, NoDup l.*1 -> assoc k (sort_keys (map (fun kv => (kv.1, sort_value kv.2)) l)) = sort_value <$> assoc k l).
  { intros l Hl. rewrite (assoc_perm k _ (map (fun kv => (kv.1, sort_value kv.2)) l)).
    - clear Hl. induction l as [|[k' x] l IH]; [done|]. cbn [map assoc fst snd]. by destruct (String.eqb k k').
    - rewrite sort_keys_perm, <- list_fmap_compose. exact Hl.
    - apply sort_keys_perm. }
  rewrite <- (Ha kvs') by done. rewrite <- (Ha kvs) by done. cbn in Hs. injection Hs as Hs. by rewrite Hs.
Qed.

Lemma assoc_dict_set {A} k k' (v : A) d : assoc k (dict_set k' v d) = if String.eqb k k' then Some v else assoc k d.
Proof.
  induction d as [|[k1 x] d IH]; cbn; [done|]. destruct (String.eqb_spec k' k1) as [->|Hne]; cbn.
  - by destruct (String.eqb k k1).
  - rewrite IH. destruct (String.eqb_spec k k1) as [->|]; [|done]. by destruct (String.eqb_spec k1 k').
Qed.

Lemma dict_set_nodup {A} k (v : A) d : NoDup d.*1 -> NoDup (dict_set k v d).*1.
Proof.
  assert (Hin : forall x (d : list (string * A)), x ∈ (dict_set k v d).*1 -> x = k \/ x ∈ d.*1).
  { intros x l. induction l as [|[k1 y] l IH]; cbn; [by intros ->%list_elem_of_singleton; left|].
    destruct (String.eqb_spec k k1) as [->|]; cbn; [by right|]. intros [->|[->|Hx]%IH]%elem_of_cons; [right; by left|by left|right; by right]. }
  induction d as [|[k1 y] d IH]; cbn; [intros _; constructor; [apply not_elem_of_nil|constructor]|]. intros [Hk Hd]%NoDup_cons.
  destruct (String.eqb_spec k k1) as [->|Hne]; cbn; constructor; [done|done| |by apply IH]. by intros [->|]%Hin.
Qed.

Lemma assoc_pop {A} k k' (d : list (string * A)) : k <> k' -> assoc k (dict_pop k' d) = assoc k d.
Proof.
  intros Hne. unfold dict_pop. induction d as [|[k1 x] d IH]; [done|]. cbn. destruct (String.eqb_spec k1 k') as [->|]; cbn.
  - rewrite IH. by destruct (String.eqb_spec k k').
  - by rewrite IH.
Qed.

Lemma assoc_update {A} k (other d d' : list (string * A)) : assoc k d = assoc k d' -> assoc k (dict_update d other) = assoc k (dict_update d' other).
Proof. unfold dict_update. revert d d'. induction other as [|[k1 x] other IH]; intros d d' Hd; cbn; [done|]. apply IH. by rewrite !assoc_dict_set, Hd. Qed.

Lemma signable_list l : signable (VList l) = true <-> Forall (fun x => signable x = true) l.
Proof. cbn. rewrite forallb_forall, Forall_forall. by setoid_rewrite list_elem_of_In. Qed.
Lemma signable_dict kvs : signable (VDict kvs) = true <-> NoDup kvs.*1 /\ Forall (fun kv => signable kv.2 = true) kvs.
Proof. cbn. rewrite andb_true_iff, bool_decide_eq_true, forallb_forall, Forall_forall. by setoid_rewrite list_elem_of_In. Qed.

Lemma signable_set k v kvs : signable (VDict kvs) = true -> signable v = true -> signable (VDict (dict_set k v kvs)) = true.
Proof.
  rewrite !signable_dict. intros [Hnd Hall] Hv. split; [by apply dict_set_nodup|]. clear Hnd. induction Hall as [|[k1 x] l Hx Hl IH]; [by repeat constructor|].
  cbn. destruct (String.eqb k k1); by constructor.
Qed.

Lemma gt_int a b : gt (decimal_of_int a) (decimal_of_int b) = (b <? a).
Proof.
  unfold gt, decimal_of_int, dcompare. change (Z.min 0 0) with 0. change (10 ^ (0 - 0)) with 1.
  assert (forall z, signed (z <? 0) (Z.abs z) = z) as Hs by (intros z; unfold signed; destruct (Z.ltb_spec z 0); lia).
  rewrite !Hs, !Z.mul_1_r. destruct (Z.compare_spec a b), (Z.ltb_spec b a); try done; lia.
Qed.

Lemma dict_has k (kvs : pydict) : existsb (String.eqb k) kvs.*1 = match assoc k kvs with Some _ => true | None => false end.
Proof. induction kvs as [|[k' v] kvs IH]; [done|]. cbn. destruct (String.eqb k k'); [done|exact IH]. Qed.

Section Presentation.
Context `{JwkLibrary}.

(** A text that goes into a presentation. *)
Definition piece (s : string) : Prop := free_of "~" s = true /\ ascii_only s = true /\ truthy_str s = true.

Lemma encoded_piece s : truthy_str s = true -> piece (b64u_encode s).
Proof. intros Hs. split; [by apply b64u_free|]. split; [apply b64u_ascii|by apply b64u_nonempty]. Qed.

Lemma token_piece a b c : piece (b64u_encode a +:+ "." +:+ b64u_encode b +:+ "." +:+ b64u_encode c).
Proof.
  unfold piece, free_of, ascii_only. rewrite !str_forallb_app. pose proof (fun s => b64u_free "~" s eq_refl) as Hf. pose proof b64u_ascii as Ha.
  unfold free_of, ascii_only in *. rewrite !Hf, !Ha. split; [done|]. split; [done|]. by destruct (b64u_encode a).
Qed.

(** What is signed opens, under the public half of the key, as what was signed. *)
Lemma sign_opens payload k kid typ : kty k = "OKP"%string \/ kty k = "EC"%string -> signable payload = true ->
  exists token v, sign_compact payload k kid typ = Ok token /\ piece token /\
    (forall failure, checked_payload token (public k) failure = Ok v) /\ sort_value v = sort_value payload.
Proof.
  intros Hk Hs. destruct (jcs_reads payload Hs) as (text & v & Ht & Hl & Hv). unfold sign_compact.
  assert (exists alg, alg_for k = Ok alg) as [alg Halg] by (unfold alg_for; destruct Hk as [-> | ->]; by eexists).
  rewrite Halg, Ht. cbn [rbind]. destruct (jws_signs k alg (dumps_header (header_of alg kid typ)) text (alg_cases k alg Halg)) as [sig Hsig].
  set (token := (_ +:+ _)%string) in Hsig. clearbody token. exists token, v. split; [exact Hsig|].
  split; [destruct (jws_text _ _ _ _ _ Hsig) as [raw ->]; apply token_piece|]. split; [|done].
  intros failure. unfold checked_payload, verify_compact. rewrite (jws_opens _ _ _ _ _ Hsig). cbn [rbind]. by rewrite Hl.
Qed.

(** ** Disclosures *)

(** A disclosure opens as the claim it was made from. *)
Definition discloses (d : string * string) (nv : string * pyval) : Prop :=
  piece d.1 /\ _digest d.1 = Ok d.2 /\ exists value, open_disclosure d.1 = Ok (VStr nv.1, value) /\ sort_value value = sort_value nv.2.

Lemma loads_nonempty text v : loads json_float_repr text = Ok v -> truthy_str text = true.
Proof. by destruct text. Qed.

Lemma disclosure_made bytes name value : signable value = true -> exists d, make_disclosure bytes name value = Ok d /\ discloses d (name, value).
Proof.
  intros Hv. destruct (jcs_reads (VList [VStr (b64u_encode bytes); VStr name; value])) as (text & v & Ht & Hl & Hs).
  { cbn. by rewrite Hv. }
  cbn [sort_value map] in Hs. apply sorted_list in Hs as (l & -> & Hl'). destruct l as [|x [|y [|z [|]]]]; try done. injection Hl' as Hx%sorted_str Hy%sorted_str Hz. subst x y.
  unfold make_disclosure. rewrite Ht. cbn [rbind]. pose proof (encoded_piece text (loads_nonempty _ _ Hl)) as Hp.
  assert (_digest (b64u_encode text) = Ok (b64u_encode (sha256_raw (b64u_encode text)))) as Hd by (unfold _digest; by rewrite b64u_ascii).
  rewrite Hd. cbn [rbind]. eexists. split; [done|]. split; [done|]. split; [exact Hd|].
  exists z. split; [|done]. unfold open_disclosure. cbn [fst]. rewrite b64u_roundtrip. cbn [rbind]. by rewrite Hl.
Qed.

Lemma disclosures_made salts n selective : Forall (fun nv => signable nv.2 = true) selective ->
  exists made, disclose salts n selective = Ok made /\ Forall2 discloses made selective.
Proof.
  intros Hall. revert n. induction Hall as [|[name value] rest Hv _ IH]; intros n; cbn [disclose]; [by exists []|].
  destruct (disclosure_made (salts n) name value Hv) as (d & -> & Hd). destruct (IH (S n)) as (ds & -> & Hds). cbn [rbind].
  exists (d :: ds). split; [done|by constructor].
Qed.

(** Two mappings that read alike. *)
Definition alike (a b : pydict) : Prop := forall k, sort_value <$> assoc k a = sort_value <$> assoc k b.

Lemma alike_set a b k v w : alike a b -> sort_value v = sort_value w -> alike (dict_set k v a) (dict_set k w b).
Proof. intros Hab Hv k'. rewrite !assoc_dict_set. destruct (String.eqb k' k); [cbn; by rewrite Hv|apply Hab]. Qed.

Lemma disclosures_merge signed made selective claims base : Forall2 discloses made selective -> Forall (fun d => signed d.2 = true) made -> alike claims base ->
  exists merged, merge_disclosures signed made.*1 claims = Ok merged /\ alike merged (dict_update base selective).
Proof.
  intros H2. revert claims base. induction H2 as [|[d digest] [name value] made selective (_ & Hdig & v & Hopen & Hv) _ IH]; intros claims base Hs Ha.
  - exists claims. split; [done|exact Ha].
  - apply Forall_cons in Hs as [Hd Hs]. cbn [fmap list_fmap fst snd merge_disclosures] in *. rewrite Hdig. cbn [rbind]. rewrite Hd. cbn [guard_res rbind]. rewrite Hopen.
    cbn [rbind fst snd set_claim]. apply IH; [done|]. by apply alike_set.
Qed.

(** ** The issuer's part *)

Lemma join_cons s l : join SEPARATOR (s :: l) = (s +:+ match l with [] => EmptyString | _ => SEPARATOR +:+ join SEPARATOR l end)%string.
Proof. destruct l; [by rewrite string_app_nil_r|done]. Qed.

Lemma ends_with s : ends_with_separator (s +:+ SEPARATOR)%string = true.
Proof.
  unfold ends_with_separator. assert (list_ascii_of_string (s +:+ SEPARATOR) = list_ascii_of_string s ++ ["~"%char]) as ->; [|by rewrite last_snoc].
  induction s as [|c s IH]; [done|]. cbn. by rewrite <- IH.
Qed.

Lemma split_presented token l kb : piece token -> Forall piece l -> piece kb ->
  _split ((join SEPARATOR (token :: l) +:+ SEPARATOR) +:+ kb)%string = (token, l, Some kb).
Proof.
  intros (Hf & _) Hl (Hkf & _ & Hk). unfold _split. rewrite string_app_assoc, split_joined; [|done|by eapply Forall_impl; [exact Hl|]; intros x (Hx & _)|done].
  assert (last_present (l ++ [kb]) = true) as -> by (unfold last_present; by rewrite last_snoc). rewrite last_snoc, removelast_last.
  assert (Forall (fun x => truthy_str x = true) l) as Ht by (eapply Forall_impl; [exact Hl|]; by intros x (_ & _ & Hx)).
  assert (last_empty l = false) as ->.
  { unfold last_empty. destruct (last l) as [x|] eqn:E; [|done]. apply last_Some_elem_of in E. rewrite Forall_forall in Ht. by rewrite (Ht x E). }
  f_equal. f_equal. induction Ht as [|x l' Hx _ IH]; [done|]. cbn. rewrite Hx. by rewrite IH by by apply Forall_cons in Hl as [_ Hl].
Qed.

Lemma ascii_app a b : ascii_only (a +:+ b)%string = ascii_only a && ascii_only b.
Proof. apply str_forallb_app. Qed.

Lemma pieces_ascii token l : piece token -> Forall piece l -> ascii_only (join SEPARATOR (token :: l) +:+ SEPARATOR)%string = true.
Proof.
  intros (_ & Ht & _) Hl. rewrite ascii_app, andb_true_iff. split; [|done]. revert token Ht. induction Hl as [|x l (_ & Hx & _) _ IH]; intros token Ht.
  - exact Ht.
  - rewrite join_cons, !ascii_app, Ht. cbn [andb]. by rewrite (IH x Hx).
Qed.

(** What the issuer signs: the claims, and digests when something is selective. *)
Definition signed_payload (claims selective : pydict) (made : list (string * string)) : pydict :=
  match selective with
  | [] => claims
  | _ => dict_set "_sd_alg" (VStr SD_ALG) (dict_set "_sd" (VList (map (fun d => VStr d.2) made)) claims)
  end.

Lemma payload_signable claims selective made : signable (VDict claims) = true -> signable (VDict (signed_payload claims selective made)) = true.
Proof.
  intros Hc. unfold signed_payload. destruct selective; [done|]. repeat apply signable_set; try done. apply signable_list, Forall_fmap. by apply Forall_forall.
Qed.

Lemma payload_claim claims selective made k : k <> "_sd"%string -> k <> "_sd_alg"%string -> assoc k (signed_payload claims selective made) = assoc k claims.
Proof. intros H1%String.eqb_neq H2%String.eqb_neq. unfold signed_payload. destruct selective; [done|]. by rewrite !assoc_dict_set, H2, H1. Qed.

Lemma digests_signed claims selective made kvs : Forall2 discloses made selective -> alike kvs (signed_payload claims selective made) -> made <> [] ->
  exists signed, signed_digests (VDict kvs) = Ok signed /\ Forall (fun d => signed d.2 = true) made.
Proof.
  intros H2 Ha Hne. specialize (Ha "_sd"%string). destruct selective as [|nv selective]; [inversion H2; by subst|].
  unfold signed_payload in Ha. rewrite !assoc_dict_set in Ha. cbn [String.eqb Ascii.eqb Bool.eqb] in Ha.
  destruct (assoc "_sd" kvs) as [sd|] eqn:Esd; [|done]. cbn in Ha. injection Ha as Ha. apply sorted_list in Ha as (l & -> & Hl).
  assert (l = map (fun d => VStr d.2) made) as ->.
  { clear - Hl. revert l Hl. induction made as [|d made IH]; intros [|x l]; try done. cbn. intros [= Hx%sorted_str Hl]. subst x. by rewrite (IH l). }
  unfold signed_digests. cbn [py_get_or rbind]. rewrite Esd. cbn [override]. eexists. split.
  - assert (existsb (fun v => match v with VList _ | VDict _ => true | _ => false end) (map (fun d : string * string => VStr d.2) made) = false) as ->; [|done].
    clear. by induction made.
  - apply Forall_forall. intros d Hd. apply existsb_exists. exists (VStr d.2). rewrite String.eqb_refl. split; [|done]. apply (in_map (fun d => VStr d.2)). by apply list_elem_of_In.
Qed.

(** ** Acceptance *)

(** What an issuer may sign for a holder: the mandate is readable under the
    issuer's published key, has a window, and names the holder's key, openly or
    selectively. *)
Record presentable (claims selective : pydict) (key holder : Key) (kid : string) (keys : list (string * Key)) (nbf exp : Z) : Prop := {
  p_key : kty key = "OKP"%string \/ kty key = "EC"%string;
  p_holder : kty holder = "OKP"%string \/ kty holder = "EC"%string;
  p_kid : truthy_str kid = true /\ ascii_only kid = true /\ assoc kid keys = Some (public key);
  p_claims : signable (VDict claims) = true;
  p_selective : Forall (fun nv => signable nv.2 = true) selective;
  p_nbf : assoc "nbf" claims = Some (VInt nbf);
  p_exp : assoc "exp" claims = Some (VInt exp);
  p_cnf : exists cnf, assoc "cnf" (dict_update claims selective) = Some (VDict cnf) /\ NoDup cnf.*1 /\ assoc "jwk" cnf = Some (VDict (export_public holder));
}.

Lemma alike_of v kvs : sort_value v = sort_value (VDict kvs) -> signable (VDict kvs) = true -> exists kvs', v = VDict kvs' /\ alike kvs' kvs.
Proof. intros Hv [Hnd _]%signable_dict. exact (sorted_dict v kvs Hv Hnd). Qed.

Lemma alike_int k n a b : alike a b -> assoc k b = Some (VInt n) -> assoc k a = Some (VInt n).
Proof. intros Ha Hb. specialize (Ha k). rewrite Hb in Ha. destruct (assoc k a) as [v|]; [|done]. cbn in Ha. injection Ha as Hv%sorted_int. by rewrite Hv. Qed.
Lemma alike_str k s a b : alike a b -> assoc k b = Some (VStr s) -> assoc k a = Some (VStr s).
Proof. intros Ha Hb. specialize (Ha k). rewrite Hb in Ha. destruct (assoc k a) as [v|]; [|done]. cbn in Ha. injection Ha as Hv%sorted_str. by rewrite Hv. Qed.

Lemma window_checked kvs nbf exp now : assoc "nbf" kvs = Some (VInt nbf) -> assoc "exp" kvs = Some (VInt exp) ->
  check_window (VDict kvs) now = if exp <? now then Raise Expired else if now <? nbf then Raise NotYetValid else Ok tt.
Proof.
  intros Hn He. unfold check_window. cbn [py_in rbind py_item]. rewrite !dict_has, Hn, He. cbn [rbind number_of]. rewrite !gt_int.
  destruct (exp <? now); cbn [negb guard_res rbind]; [done|]. by destruct (now <? nbf).
Qed.

(** The issuer's token reads back. *)
Lemma issued_reads claims selective key holder kid keys nbf exp made : presentable claims selective key holder kid keys nbf exp ->
  exists token header kvs, sign_compact (VDict (signed_payload claims selective made)) key (Some kid) (Some "sd+jwt"%string) = Ok token /\ piece token /\
    peek_header token = Ok header /\ py_get header "kid" = Ok (VStr kid) /\
    checked_payload token (public key) SDJWT_InvalidSignature = Ok (VDict kvs) /\ alike kvs (signed_payload claims selective made).
Proof.
  intros []. destruct p_kid0 as (Hk & Hak & _). pose proof (payload_signable claims selective made p_claims0) as Hs.
  destruct (sign_opens (VDict (signed_payload claims selective made)) key (Some kid) (Some "sd+jwt"%string) p_key0 Hs) as (token & v & Hsign & Hpiece & Hread & Hv).
  destruct (compact_reads _ _ _ _ _ Hsign Hk eq_refl Hak eq_refl) as [[alg Hhead] _].
  destruct (alike_of v _ Hv Hs) as (kvs & -> & Ha). eexists token, _, kvs. split_and!; [done|done|exact Hhead|done|apply Hread|done].
Qed.

(** The holder's token says what it was made with. *)
Lemma binding_reads holder nonce aud bound_at sd_hash : kty holder = "OKP"%string \/ kty holder = "EC"%string -> Z.abs bound_at < 2 ^ 53 ->
  exists kb kvs, sign_compact (VDict [("nonce", VStr nonce); ("aud", VStr aud); ("iat", VInt bound_at); ("sd_hash", VStr sd_hash)]%string) holder None (Some KB_TYP) = Ok kb /\
    piece kb /\ checked_payload kb (public holder) InvalidKeyBinding = Ok (VDict kvs) /\
    assoc "nonce" kvs = Some (VStr nonce) /\ assoc "aud" kvs = Some (VStr aud) /\ assoc "sd_hash" kvs = Some (VStr sd_hash).
Proof.
  intros Hk Hb%Z.ltb_lt. set (claims := [("nonce", VStr nonce); ("aud", VStr aud); ("iat", VInt bound_at); ("sd_hash", VStr sd_hash)]%string).
  assert (signable (VDict claims) = true) as Hs by (cbn; rewrite Hb, andb_true_r; by apply (bool_decide_eq_true_2 _), (bool_decide_unpack _)).
  destruct (sign_opens (VDict claims) holder None (Some KB_TYP) Hk Hs) as (kb & v & Hsign & Hpiece & Hread & Hv).
  destruct (alike_of v _ Hv Hs) as (kvs & -> & Ha). exists kb, kvs. split_and!; [exact Hsign|done|apply Hread|..]; by apply (alike_str _ _ kvs claims Ha).
Qed.

(** The key the claims name is the holder's. *)
Lemma holder_found merged cnf holder : sort_value <$> assoc "cnf" merged = sort_value <$> Some (VDict cnf) -> NoDup cnf.*1 ->
  assoc "jwk" cnf = Some (VDict (export_public holder)) ->
  exists cnf' jwk, py_get (VDict merged) "cnf" = Ok cnf' /\ py_get (py_or cnf' (VDict [])) "jwk" = Ok jwk /\ truthy jwk = true /\ JWK jwk = Ok (public holder).
Proof.
  intros Ha Hnd Hj. destruct (assoc "cnf" merged) as [v|] eqn:Ev; [|done]. cbn in Ha. injection Ha as Hv.
  destruct (sorted_dict v cnf Hv Hnd) as (kvs & -> & Hkvs). specialize (Hkvs "jwk"%string). rewrite Hj in Hkvs.
  destruct (assoc "jwk" kvs) as [jwk|] eqn:Ek; [|done]. cbn [fmap option_fmap option_map] in Hkvs. injection Hkvs as Hjwk.
  exists (VDict kvs), jwk. cbn [py_get]. rewrite Ev. split; [done|]. destruct (export_members holder) as [Hne Hsig%signable_dict]. split_and!.
  - unfold py_or. assert (truthy (VDict kvs) = true) as -> by by destruct kvs. cbn [py_get]. by rewrite Ek.
  - destruct (sorted_dict jwk _ Hjwk (proj1 Hsig)) as (l & -> & Hl). destruct l as [|]; [|done]. destruct (export_public holder) as [|[k x] m]; [done|].
    specialize (Hl k). cbn in Hl. by rewrite String.eqb_refl in Hl.
  - by apply jwk_reads.
Qed.

(** The claims as the verifier opens them. *)
Lemma claims_opened claims selective key holder kid keys nbf exp made kvs : presentable claims selective key holder kid keys nbf exp ->
  Forall2 discloses made selective -> alike kvs (signed_payload claims selective made) ->
  exists merged, (match made.*1 with
                  | [] => Ok (VDict kvs)
                  | _ => let? signed := signed_digests (VDict kvs) in let? l := claims_dict (VDict kvs) in
                         let? l := merge_disclosures signed made.*1 l in Ok (VDict l)
                  end) = Ok (VDict merged) /\
    alike merged (dict_update (signed_payload claims selective made) selective).
Proof.
  intros Hp H2 Ha. destruct made as [|d made]; [inversion H2; subst; by exists kvs|].
  destruct (digests_signed claims selective (d :: made) kvs H2 Ha) as (signed & Hs & Hall); [done|].
  destruct (disclosures_merge signed (d :: made) selective kvs _ H2 Hall Ha) as (merged & Hm & Hmerged). exists merged. split; [|done].
  cbn [fmap list_fmap] in *. rewrite Hs. cbn [rbind claims_dict]. by rewrite Hm.
Qed.

Lemma split_issued token l : piece token -> Forall piece l -> _split (join SEPARATOR (token :: l) +:+ SEPARATOR)%string = (token, l, None).
Proof.
  intros (Hf & _) Hl. unfold _split. rewrite <- (string_app_nil_r SEPARATOR) at 2. rewrite split_joined; [|done|by eapply Forall_impl; [exact Hl|]; intros x (Hx & _)|done].
  assert (last_present (l ++ [EmptyString]) = false) as -> by (unfold last_present; by rewrite last_snoc).
  assert (last_empty (l ++ [EmptyString]) = true) as -> by (unfold last_empty; by rewrite last_snoc). rewrite removelast_last.
  f_equal. f_equal. induction Hl as [|x l' (_ & _ & Hx) _ IH]; [done|]. cbn. by rewrite Hx, IH.
Qed.

(** What the verifier does with a presentation of what was issued. *)
Lemma verify_opened claims selective key holder kid keys nbf exp salts : presentable claims selective key holder kid keys nbf exp ->
  exists token l merged, piece token /\ Forall piece l /\ issue salts claims key kid selective = Ok (join SEPARATOR (token :: l) +:+ SEPARATOR)%string /\
    (forall k, k <> "_sd"%string -> k <> "_sd_alg"%string -> sort_value <$> assoc k merged = sort_value <$> assoc k (dict_update claims selective)) /\
    forall s kb nonce aud required now, _split s = (token, l, kb) ->
      verify s keys nonce aud required now
      = if exp <? now then Raise Expired else if now <? nbf then Raise NotYetValid
        else let? _ := (if required || match kb with Some t => truthy_str t | None => false end
                        then check_key_binding token l kb (VDict merged) nonce aud else Ok tt) in
             Ok (dict_pop "_sd_alg" (dict_pop "_sd" merged)).
Proof.
  intros Hp. destruct (disclosures_made salts 0 selective (p_selective _ _ _ _ _ _ _ _ Hp)) as (made & Hmade & H2).
  destruct (issued_reads _ _ _ _ _ _ _ _ made Hp) as (token & header & kvs & Htoken & Hpiece & Hhead & Hkid & Hread & Ha).
  destruct (claims_opened _ _ _ _ _ _ _ _ made kvs Hp H2 Ha) as (merged & Hmerged & Hal). destruct (p_kid _ _ _ _ _ _ _ _ Hp) as (Hk & _ & Hkeys).
  exists token, made.*1, merged. split_and!; [done| | | |].
  - clear - H2. induction H2 as [|d nv made selective (Hd & _) _ IH]; by constructor.
  - unfold issue. rewrite Hmade. cbn [rbind]. change (match selective with [] => claims | _ :: _ => _ end) with (signed_payload claims selective made). by rewrite Htoken.
  - intros k H1 H3. rewrite Hal. f_equal. apply assoc_update. by apply payload_claim.
  - intros s kb nonce aud required now Hs. unfold verify. rewrite Hs, Hhead. cbn [rbind]. rewrite Hkid. unfold key_for. cbn [rbind truthy]. rewrite Hk. cbn [negb]. rewrite Hkeys.
    cbn [rbind]. rewrite Hread. cbn [rbind]. rewrite (window_checked kvs nbf exp now).
    2, 3: eapply alike_int; [exact Ha|]; rewrite payload_claim by done; apply Hp.
    destruct (exp <? now); [done|]. destruct (now <? nbf); [done|]. cbn [rbind]. rewrite Hmerged. cbn [rbind claims_dict]. done.
Qed.

Lemma popped {A} k k' (d : list (string * A)) : assoc k (dict_pop k (dict_pop k' d)) = None /\ assoc k (dict_pop k' (dict_pop k d)) = None.
Proof.
  assert (forall l : list (string * A), assoc k (dict_pop k l) = None) as Hn.
  { unfold dict_pop. induction l as [|[k1 x] l IH]; [done|]. cbn. destruct (String.eqb_spec k1 k) as [|Hne]; cbn; [done|]. by destruct (String.eqb_spec k k1). }
  split; [apply Hn|]. destruct (String.eqb_spec k k') as [->|]; [apply Hn|]. by rewrite assoc_pop.
Qed.

(** The verifier asked for this value, or for none. *)
Definition meets (value : string) (asked : option string) : bool := match asked with Some v => String.eqb value v | None => true end.

Lemma expect_meets kvs name value asked : assoc name kvs = Some (VStr value) ->
  expect_claim (VDict kvs) name asked = if meets value asked then Ok tt else Raise InvalidKeyBinding.
Proof. intros Hv. destruct asked as [v|]; [|done]. cbn. rewrite Hv. cbn. by destruct (String.eqb value v). Qed.

Lemma presentation_opens claims selective key holder kid keys nbf exp salts nonce aud bound_at :
  presentable claims selective key holder kid keys nbf exp -> Z.abs bound_at < 2 ^ 53 ->
  exists sd_jwt presentation result,
    issue salts claims key kid selective = Ok sd_jwt /\ attach_key_binding sd_jwt holder nonce aud bound_at = Ok presentation /\
    (forall nonce' aud' required now,
       verify presentation keys nonce' aud' required now
       = if exp <? now then Raise Expired else if now <? nbf then Raise NotYetValid
         else if meets nonce nonce' && meets aud aud' then Ok result else Raise InvalidKeyBinding) /\
    (forall nonce' aud' required now, verify sd_jwt keys nonce' aud' required now
       = if exp <? now then Raise Expired else if now <? nbf then Raise NotYetValid else if required then Raise InvalidKeyBinding else Ok result) /\
    (forall k, k <> "_sd"%string -> k <> "_sd_alg"%string -> sort_value <$> assoc k result = sort_value <$> assoc k (dict_update claims selective)) /\
    assoc "_sd" result = None /\ assoc "_sd_alg" result = None.
Proof.
  intros Hp Hb. destruct (verify_opened _ _ _ _ _ _ _ _ salts Hp) as (token & l & merged & Htoken & Hl & Hissue & Hclaims & Hverify).
  pose proof (split_issued token l Htoken Hl) as Hsplit. pose proof (pieces_ascii token l Htoken Hl) as Hascii.
  set (sd_jwt := (join SEPARATOR (token :: l) +:+ SEPARATOR)%string) in *.
  destruct (binding_reads holder nonce aud bound_at (b64u_encode (sha256_raw sd_jwt)) (p_holder _ _ _ _ _ _ _ _ Hp) Hb) as (kb & kvs & Hkb & Hpkb & Hread & Hn & Ha & Hh).
  exists sd_jwt, (sd_jwt +:+ kb)%string. eexists. split_and!; [exact Hissue| | | | |apply popped|apply popped].
  - unfold attach_key_binding, _digest. assert (ends_with_separator sd_jwt = true) as -> by apply ends_with. cbv iota. rewrite Hascii. cbn [rbind]. by rewrite Hkb.
  - intros nonce' aud' required now. rewrite (Hverify _ (Some kb)) by by apply split_presented.
    destruct (exp <? now); [done|]. destruct (now <? nbf); [done|]. destruct Hpkb as (_ & _ & Hkbt). rewrite Hkbt, orb_true_r.
    destruct (p_cnf _ _ _ _ _ _ _ _ Hp) as (cnf & Hcnf & Hnd & Hjwk).
    assert (Hc : sort_value <$> assoc "cnf" merged = sort_value <$> Some (VDict cnf)) by by rewrite Hclaims, Hcnf.
    destruct (holder_found merged cnf holder Hc Hnd Hjwk) as (cnf' & jwk & Hg & Hgj & Htj & Hkey).
    unfold check_key_binding, or_str. rewrite Hkbt, Hg. cbn [rbind]. rewrite Hgj. cbn [rbind]. rewrite Htj, Hkey. cbn [negb]. rewrite Hread. cbn [rbind].
    rewrite (expect_meets _ _ _ _ Hn), (expect_meets _ _ _ _ Ha). destruct (meets nonce nonce'); cbn [rbind andb]; [|done].
    destruct (meets aud aud'); cbn [rbind py_get]; [|done].
    assert (token +:+ (match l with [] => EmptyString | _ => SEPARATOR +:+ join SEPARATOR l end) +:+ SEPARATOR = sd_jwt)%string as ->
      by (unfold sd_jwt; by rewrite join_cons, string_app_assoc).
    unfold _digest. rewrite Hascii. cbn [rbind]. rewrite Hh. cbn [override rbind py_eq]. by rewrite String.eqb_refl.
  - intros nonce' aud' required now. rewrite (Hverify _ None) by exact Hsplit. destruct (exp <? now); [done|]. destruct (now <? nbf); [done|]. by destruct required.
  - intros k H1 H2. rewrite !assoc_pop by done. by apply Hclaims.
Qed.

Lemma app_truthy a b : truthy_str b = true -> truthy_str (a +:+ b)%string = true.
Proof. by destruct a. Qed.

Lemma issued_truthy salts claims key kid selective sd_jwt : issue salts claims key kid selective = Ok sd_jwt -> truthy_str sd_jwt = true.
Proof.
  unfold issue. destruct (disclose salts 0 selective); cbn [rbind]; [|done]. destruct (sign_compact _ _ _ _); cbn [rbind]; [|done]. intros [= <-]. by apply app_truthy.
Qed.

Lemma bound_truthy sd_jwt holder nonce aud now presentation : truthy_str sd_jwt = true -> attach_key_binding sd_jwt holder nonce aud now = Ok presentation -> truthy_str presentation = true.
Proof.
  unfold attach_key_binding. intros Ht. destruct (_digest _); cbn [rbind]; [|done]. destruct (sign_compact _ _ _ _); cbn [rbind]; [|done]. intros [= <-].
  destruct (ends_with_separator sd_jwt); by destruct sd_jwt.
Qed.

(** What the verifier without expectations sees. *)
Lemma bound_and_unbound claims selective key holder kid keys nbf exp salts nonce aud bound_at :
  presentable claims selective key holder kid keys nbf exp -> Z.abs bound_at < 2 ^ 53 ->
  exists sd_jwt presentation result, issue salts claims key kid selective = Ok sd_jwt /\ attach_key_binding sd_jwt holder nonce aud bound_at = Ok presentation /\
    truthy_str sd_jwt = true /\ truthy_str presentation = true /\
    (forall now, verify sd_jwt keys None None false now = if exp <? now then Raise Expired else if now <? nbf then Raise NotYetValid else Ok result) /\
    (forall now, verify presentation keys None None false now = if exp <? now then Raise Expired else if now <? nbf then Raise NotYetValid else Ok result) /\
    (forall k, k <> "_sd"%string -> k <> "_sd_alg"%string -> sort_value <$> assoc k result = sort_value <$> assoc k (dict_update claims selective)).
Proof.
  intros Hp Hb. destruct (presentation_opens _ _ _ _ _ _ _ _ salts nonce aud bound_at Hp Hb) as (sd_jwt & presentation & result & Hi & Ha & Hv & Hu & Hc & _).
  pose proof (issued_truthy _ _ _ _ _ _ Hi) as Ht. exists sd_jwt, presentation, result. split_and!; [done|done|done|by eapply bound_truthy|exact (Hu None None false)| |exact Hc].
  intros now. by rewrite Hv.
Qed.

(** C19: A mandate the issuer signs with any of its claims behind digests, and that the
    holder binds to a nonce and an audience: while it is fresh it verifies exactly
    for that nonce and audience, without the holder's binding exactly where none
    is asked for, and answers the claims with the disclosed ones merged in and the
    digests removed. *)
Theorem presentation_accepted claims selective key holder kid keys nbf exp salts nonce aud bound_at :
  presentable claims selective key holder kid keys nbf exp -> Z.abs bound_at < 2 ^ 53 ->
  exists sd_jwt presentation result,
    issue salts claims key kid selective = Ok sd_jwt /\ attach_key_binding sd_jwt holder nonce aud bound_at = Ok presentation /\
    (forall nonce' aud' required now,
       verify presentation keys nonce' aud' required now
       = if exp <? now then Raise Expired else if now <? nbf then Raise NotYetValid
         else if meets nonce nonce' && meets aud aud' then Ok result else Raise InvalidKeyBinding) /\
    (forall nonce' aud' required now, verify sd_jwt keys nonce' aud' required now
       = if exp <? now then Raise Expired else if now <? nbf then Raise NotYetValid else if required then Raise InvalidKeyBinding else Ok result) /\
    (forall k, k <> "_sd"%string -> k <> "_sd_alg"%string -> sort_value <$> assoc k result = sort_value <$> assoc k (dict_update claims selective)) /\
    assoc "_sd" result = None /\ assoc "_sd_alg" result = None.
Proof. apply presentation_opens. Qed.
End Presentation.

(** A concrete library of keys for SdJwt.v, and a mandate presented under it:
    instances of the acceptance theorem. *)

Lemma sort_value_twice v : sort_value (sort_value v) = sort_value v.
Proof.
  induction v as [v Hl Hd|l IH|kvs IH] using pyval_nested_ind.
  - destruct v; try done; [by destruct (Hl l)|by destruct (Hd kvs)].
  - cbn. f_equal. rewrite map_map. induction IH as [|x l Hx _ IHl]; [done|]. cbn. by rewrite Hx, IHl.
  - cbn [sort_value]. f_equal. rewrite sort_keys_map, map_map. rewrite sort_keys_fixed by apply sort_keys_sorted. f_equal.
    induction IH as [|[k x] l Hx _ IHl]; [done|]. cbn in *. by rewrite Hx, IHl.
Qed.

Lemma signable_plain v : signable v = true -> plain v = true.
Proof.
  induction v as [v Hl Hd|l IH|kvs IH] using pyval_nested_ind.
  - destruct v; try done; [by destruct (Hl l)|by destruct (Hd kvs)].
  - cbn. induction IH as [|x l Hx _ IHl]; [done|]. cbn. intros [H1 H2]%andb_prop. by rewrite (Hx H1), (IHl H2).
  - intros [_ Ha]%signable_dict. cbn. induction IH as [|[k x] l Hx _ IHl]; [done|]. apply Forall_cons in Ha as [H1 H2]. cbn in *. by rewrite (Hx H1), (IHl H2).
Qed.

Lemma signable_decodable v : signable v = true -> decodable v.
Proof.
  induction v as [v Hl Hd|l IH|kvs IH] using pyval_nested_ind.
  - destruct v as [|b|n|s|d|r|t|l|kvs]; try done; [by apply (flat_decodable (VInt n))|by destruct (Hl l)|by destruct (Hd kvs)].
  - cbn. induction IH as [|x l Hx _ IHl]; [done|]. cbn. intros [H1 H2]%andb_prop. split; [by apply Hx|by apply IHl].
  - intros [Hnd Ha]%signable_dict. cbn. split; [done|]. clear Hnd. induction IH as [|[k x] l Hx _ IHl]; [done|].
    apply Forall_cons in Ha as [H1 H2]. split; [by apply Hx|by apply IHl].
Qed.

(** A key as its text, in the members of an OKP key. *)
Definition mark_export (k : string) : pydict := [("kty", VStr "OKP"); ("x", VStr k)]%string.
Definition mark_jwk (v : pyval) : res string :=
  match v with
  | VDict kvs => match assoc "x" kvs with Some (VStr x) => Ok x | _ => Raise ValueError end
  | _ => Raise TypeError
  end.

#[export] Instance mark_keys : JwkLibrary (H := mark_library).
Proof.
  refine {| JWK := mark_jwk; export_public := mark_export |}.
  - intros k. split; [done|]. apply signable_dict. split; [apply (bool_decide_unpack _); reflexivity|by repeat constructor].
  - intros k v Hv. destruct (sorted_dict v (mark_export k) Hv) as (kvs & -> & Ha); [apply (bool_decide_unpack _); reflexivity|].
    unfold mark_jwk. specialize (Ha "x"%string). cbn in Ha. destruct (assoc "x" kvs) as [x|]; [|done]. cbn in Ha. by injection Ha as ->%sorted_str.
  - intros k alg protected payload token Hs. exists (k +:+ alg)%string. symmetry. exact (Ok_inj _ _ Hs).
  - intros v Hs. pose proof (signable_plain v Hs) as Hp. destruct (plain_tree Agent.no_default v Hp) as (j & Hj & _).
    assert (Agent.canonical_json v = Ok (print j)) as Ht by (unfold Agent.canonical_json, dumps; rewrite agent_check, Hp; cbn [rbind]; by rewrite Hj).
    exists (print j), (sort_value v). split; [exact Ht|]. split; [|apply sort_value_twice]. by apply canonical_loads, signable_decodable.
Defined.

(** ** A mandate for one purchase, with the address behind a digest *)

Definition demo_claims : pydict :=
  [("iss", VStr "trystrus"); ("nbf", VInt 100); ("exp", VInt 200); ("limit", VStr "50000.00");
   ("cnf", VDict [("jwk", VDict (mark_export "agent"))])]%string.
Definition demo_selective : pydict := [("address", VStr "Calle 1"); ("email", VStr "a@b.co")]%string.
Definition mark_key (k : string) : Key := k.
Definition demo_keys : list (string * Key) := [("v1"%string, mark_key "issuer")].

Lemma demo_presentable : presentable demo_claims demo_selective (mark_key "issuer") (mark_key "agent") "v1" demo_keys 100 200.
Proof. split; try (by left); try done; [by repeat constructor|]. eexists. split; [reflexivity|]. split; [apply (bool_decide_unpack _); reflexivity|done]. Qed.

(** Accepted within the window for the bound nonce and merchant, with the address
    disclosed; refused for another merchant; refused unbound where binding is
    required. *)
Lemma presentation_accepted_witness : exists sd_jwt presentation result,
  issue (fun _ => "salt") demo_claims (mark_key "issuer") "v1" demo_selective = Ok sd_jwt /\
  attach_key_binding sd_jwt (mark_key "agent") "n-1" "shop" 150 = Ok presentation /\
  verify presentation demo_keys (Some "n-1") (Some "shop") true 150 = Ok result /\
  verify presentation demo_keys None None false 150 = Ok result /\
  verify presentation demo_keys (Some "n-1") (Some "other") true 150 = Raise InvalidKeyBinding /\
  verify presentation demo_keys (Some "n-1") (Some "shop") true 201 = Raise Expired /\
  verify sd_jwt demo_keys None None true 150 = Raise InvalidKeyBinding /\
  sort_value <$> assoc "address" result = Some (VStr "Calle 1").
Proof.
  destruct (presentation_accepted demo_claims demo_selective (mark_key "issuer") (mark_key "agent") "v1" demo_keys 100 200 (fun _ => "salt"%string) "n-1" "shop" 150
    demo_presentable eq_refl) as (sd_jwt & presentation & result & Hi & Ha & Hv & Hu & Hc & _).
  exists sd_jwt, presentation, result. split; [exact Hi|]. split; [exact Ha|]. rewrite !Hv, Hu. rewrite (Hc "address"%string) by done. repeat split; reflexivity.
Defined.
