(* ===== verification/Rail.v ===== *)
(** The payment rail simulator (src/src/yuno_sim): the vault (vault.py), the
    verifier of AP2 mandates (ap2_verifier.py), captures (payments.py), disputes
    (disputes.py) and the endpoints that run them in a session (main.py).

    A step of a program is one SQL statement or one HTTP exchange.  What a
    transaction writes is visible when it commits: the writes of an endpoint and
    the commit or the rollback of [get_session] are one step.  [created_at]
    columns, which the database fills and nothing reads, and the webhooks sent
    after the response are left out. *)
From S2P Require Import Prelude PyTime Decimal Json JsonLogic JsonParse Base64 Sha256 Models Canonical Jose RappiClient Prog AgentRules SdJwt.

(** ** models.py *)

Record SetupTokenRow : Type := { su_mandate_id : string; su_status : string; su_approve_url : string; su_expires_at : Z }.

Record PaymentTokenRow : Type := {
  to_setup_token_id : option string;
  to_mandate_id : string;
  to_status : string;
  to_instrument_label : option string;
  to_deleted_at : option Z;
}.

Record PaymentRow : Type := {
  pay_token_id : string;
  pay_mandate_jti : string;
  pay_amount : Decimal.dec;
  pay_currency : string;
  pay_status : string;
  pay_reason_code : option string;
  pay_checkout_hash : option string;
  pay_intent_ref : option string;
}.

Record IdempotencyRow : Type := { idem_payment_id : string; idem_response : pydict }.

Record DisputeRow : Type := {
  dis_payment_id : string;
  dis_reason : string;
  dis_status : string;
  dis_outcome : option string;
  dis_evidence : option pydict;
  dis_resolved_at : option Z;
}.

(** The tables, by primary key. *)
Record books : Type := {
  setup_tokens : gmap string SetupTokenRow;
  payment_tokens : gmap string PaymentTokenRow;
  payments : gmap string PaymentRow;
  idempotency : gmap string IdempotencyRow;
  disputes : gmap string DisputeRow;
}.

Definition set_setup_tokens m (b : books) : books :=
  {| setup_tokens := m; payment_tokens := payment_tokens b; payments := payments b; idempotency := idempotency b; disputes := disputes b |}.
Definition set_payment_tokens m (b : books) : books :=
  {| setup_tokens := setup_tokens b; payment_tokens := m; payments := payments b; idempotency := idempotency b; disputes := disputes b |}.
Definition set_payments m (b : books) : books :=
  {| setup_tokens := setup_tokens b; payment_tokens := payment_tokens b; payments := m; idempotency := idempotency b; disputes := disputes b |}.
Definition set_idempotency m (b : books) : books :=
  {| setup_tokens := setup_tokens b; payment_tokens := payment_tokens b; payments := payments b; idempotency := m; disputes := disputes b |}.
Definition set_disputes m (b : books) : books :=
  {| setup_tokens := setup_tokens b; payment_tokens := payment_tokens b; payments := payments b; idempotency := idempotency b; disputes := m |}.

Definition with_token_status (status : string) (deleted_at : option Z) (row : PaymentTokenRow) : PaymentTokenRow :=
  {| to_setup_token_id := to_setup_token_id row; to_mandate_id := to_mandate_id row; to_status := status;
     to_instrument_label := to_instrument_label row; to_deleted_at := deleted_at |}.
Definition with_setup_status (status : string) (row : SetupTokenRow) : SetupTokenRow :=
  {| su_mandate_id := su_mandate_id row; su_status := status; su_approve_url := su_approve_url row; su_expires_at := su_expires_at row |}.

(** A [Numeric(12, 2)] column: cents, ties away from zero, ten integer digits. *)
Definition numeric_12_2 (d : Decimal.dec) : res Decimal.dec :=
  match d with
  | DFin neg coef exp =>
      let c := if 0 <=? exp + 2 then coef * 10 ^ (exp + 2) else div_round ROUND_HALF_UP coef (10 ^ (- (exp + 2))) in
      if c <? 10 ^ 12 then Ok (DFin neg c (-2)) else Raise DBAPIError
  | DInf _ => Raise DBAPIError
  | DNaN => Ok DNaN
  end.

(** A [Text] column that is not nullable. *)
Definition text_column (v : pyval) : res string :=
  match v with VStr s => Ok s | VNone => Raise IntegrityError | _ => Raise DBAPIError end.

(** ** The process: tables, the issuer client, what was drawn from outside *)

Record rail `{JwsLibrary} : Type := {
  tables : books;
  jwks_cache : option (list (string * Key));
  fetched_at : Z;
  drawn : nat;
}.

Definition SETUP_TOKEN_TTL_DAYS : Z := 3.
Definition YUNO_TOKEN : string := "ynt".
Definition YUNO_PAYMENT : string := "ynp".
Definition YUNO_DISPUTE : string := "ynd".
Definition BUYER_FAVOR : string := "BUYER_FAVOR".
Definition SELLER_FAVOR : string := "SELLER_FAVOR".

Record VerificationResult : Type := {
  vr_ok : bool;
  vr_reason_code : option ReasonCode;
  vr_mandate_jti : pyval;
  vr_checkout_hash : option string;
}.
Definition refused (reason : ReasonCode) : VerificationResult :=
  {| vr_ok := false; vr_reason_code := Some reason; vr_mandate_jti := VNone; vr_checkout_hash := None |}.
Definition accepted (mandate_jti : pyval) (checkout_hash : option string) : VerificationResult :=
  {| vr_ok := true; vr_reason_code := None; vr_mandate_jti := mandate_jti; vr_checkout_hash := checkout_hash |}.

Definition _reason_for (status : MandateStatus) : ReasonCode :=
  match status with
  | REVOKED => MANDATE_REVOKED
  | SUSPENDED => MANDATE_SUSPENDED
  | EXPIRED => MANDATE_EXPIRED
  | EXHAUSTED => MANDATE_EXHAUSTED
  | _ => MANDATE_SUSPENDED
  end.

(** The [except] clauses around [sdjwt.verify]. *)
Definition sdjwt_reason (e : exn) : option ReasonCode :=
  match e with
  | SDJWTError c =>
      if String.eqb c "Expired" then Some MANDATE_EXPIRED
      else if String.eqb c "NotYetValid" then Some MANDATE_NOT_YET_VALID
      else if String.eqb c "InvalidKeyBinding" then Some INVALID_PROOF_OF_POSSESSION
      else Some INVALID_SIGNATURE
  | _ => None
  end.

(** [MandateStatus(response.json()["status"])] after the checks of the status
    code; any exception reads as no answer. *)
Definition status_answer (answer : res (Z * pyval)) : option MandateStatus :=
  match answer with
  | Ok (code, body) =>
      if code =? 404 then None
      else if (200 <=? code) && (code <? 300) then
        match py_item body "status" with
        | Ok (VStr s) => match MandateStatus_of s with Ok status => Some status | Raise _ => None end
        | _ => None
        end
      else None
  | Raise _ => None
  end.

(** [keys.get(kid)] *)
Definition keys_get {K} (keys : list (string * K)) (kid : pyval) : res (option K) :=
  match kid with VStr k => Ok (assoc k keys) | VList _ | VDict _ => Raise TypeError | _ => Ok None end.

Section Rail.
Context `{JwkLibrary}.
(** By the number of the draw: the text of a ULID, the wall clock and the
    monotonic clock in microseconds, the answers of the issuer over HTTP. *)
Variables (ulid : nat -> string) (utc monotonic : nat -> Z) (get_jwks : nat -> res pyval) (get_status : nat -> string -> res (Z * pyval)).
Variables (jwks_cache_seconds : Z) (approval_base_url : string).

Definition set_tables (b : books) (s : rail) : rail :=
  {| tables := b; jwks_cache := jwks_cache s; fetched_at := fetched_at s; drawn := drawn s |}.
Definition set_jwks (ks : list (string * Key)) (at_ : Z) (s : rail) : rail :=
  {| tables := tables s; jwks_cache := Some ks; fetched_at := at_; drawn := drawn s |}.

Definition draw : st rail nat := fun s =>
  (Ok (drawn s), {| tables := tables s; jwks_cache := jwks_cache s; fetched_at := fetched_at s; drawn := S (drawn s) |}).
Definition new_id (prefix : string) : st rail string := n <- draw ;; ret (prefix +:+ "_" +:+ ulid n)%string.
Definition now : st rail Z := n <- draw ;; ret (utc n).

(** Reads of one table and writes of one row. *)
Definition select {A} (f : books -> A) : prog rail A := atomic (gets (fun s => f (tables s))).
Definition insert_row {V} (view : books -> gmap string V) (update : gmap string V -> books -> books) (key : string) (row : V) : st rail unit := fun s =>
  match view (tables s) !! key with
  | Some _ => (Raise IntegrityError, s)
  | None => (Ok tt, set_tables (update (<[key := row]> (view (tables s))) (tables s)) s)
  end.
(** [UPDATE ... WHERE key AND guard RETURNING key] *)
Definition update_row {V} (view : books -> gmap string V) (update : gmap string V -> books -> books) (key : string) (guard : V -> bool) (f : V -> V) : st rail bool := fun s =>
  match view (tables s) !! key with
  | Some row => if guard row then (Ok true, set_tables (update (<[key := f row]> (view (tables s))) (tables s)) s) else (Ok false, s)
  | None => (Ok false, s)
  end.

(** [get_session]: commit, or roll the tables back when the endpoint raises. *)
Definition in_transaction {A} (m : st rail A) : st rail A := fun s =>
  match m s with
  | (Ok a, s') => (Ok a, s')
  | (Raise e, s') => (Raise e, set_tables (tables s) s')
  end.

(** ** vault.py *)

Definition create_setup_token (mandate_id : string) : prog rail (string * SetupTokenRow) :=
  atomic (in_transaction (
    setup_token_id <- new_id "yst" ;;
    moment <- now ;;
    let row := {| su_mandate_id := mandate_id; su_status := "pending"; su_approve_url := approval_base_url +:+ "/" +:+ setup_token_id;
                  su_expires_at := moment + days SETUP_TOKEN_TTL_DAYS |}%string in
    insert_row setup_tokens set_setup_tokens setup_token_id row ;;;
    ret (setup_token_id, row))).

Definition approve_setup_token (setup_token_id : string) : prog rail unit :=
  updated <~ atomic (update_row setup_tokens set_setup_tokens setup_token_id (fun row => String.eqb (su_status row) "pending") (with_setup_status "approved")) ;
  if updated then pret tt else praise VaultError.

Definition exchange (setup_token_id : string) : prog rail (string * PaymentTokenRow) :=
  row <~ select (fun b => setup_tokens b !! setup_token_id) ;
  match row with
  | None => praise VaultError
  | Some row =>
      if String.eqb (su_status row) "exchanged" then praise VaultError
      else if negb (String.eqb (su_status row) "approved") then praise VaultError
      else
        moment <~ atomic now ;
        if su_expires_at row <? moment then praise VaultError
        else
          atomic (in_transaction (
            token_id <- new_id YUNO_TOKEN ;;
            let token := {| to_setup_token_id := Some setup_token_id; to_mandate_id := su_mandate_id row; to_status := "active";
                            to_instrument_label := Some "VISA ****4242 (simulated)"; to_deleted_at := None |}%string in
            insert_row payment_tokens set_payment_tokens token_id token ;;;
            update_row setup_tokens set_setup_tokens setup_token_id (fun _ => true) (with_setup_status "exchanged") ;;;
            ret (token_id, token)))
  end.

Definition get_active_token (token_id : string) : prog rail (option PaymentTokenRow) :=
  select (fun b => match payment_tokens b !! token_id with
                   | Some row => if String.eqb (to_status row) "active" then Some row else None
                   | None => None
                   end).

Definition delete_token (token_id : string) : prog rail bool :=
  atomic (moment <- now ;;
          update_row payment_tokens set_payment_tokens token_id (fun row => String.eqb (to_status row) "active") (with_token_status "deleted" (Some moment))).

Definition token_exists (token_id : string) : prog rail bool :=
  select (fun b => match payment_tokens b !! token_id with Some _ => true | None => false end).

(** ** ap2_verifier.py *)

(** [{k["kid"]: jwk_from_dict(k) for k in response.json()["keys"]}]; a [kid] is
    a text (RFC 7517). *)
Fixpoint keys_of_entries (entries : list pyval) (ks : list (string * Key)) : res (list (string * Key)) :=
  match entries with
  | [] => Ok ks
  | entry :: rest =>
      let? kid := py_item entry "kid" in
      match kid with
      | VStr kid => let? key := JWK entry in keys_of_entries rest (dict_set kid key ks)
      | _ => Raise TypeError
      end
  end.
Definition keys_of_document (document : pyval) : res (list (string * Key)) :=
  let? entries := py_item document "keys" in let? entries := py_iter entries in keys_of_entries entries [].

(** [IssuerClient.keys] *)
Definition keys : prog rail (list (string * Key)) :=
  cached <~ atomic (n <- draw ;; gets (fun s =>
              match jwks_cache s with
              | Some ks => if jwks_cache_seconds * 1000000 <? monotonic n - fetched_at s then None else Some ks
              | None => None
              end)) ;
  match cached with
  | Some ks => pret ks
  | None =>
      document <~ atomic (n <- draw ;; lift (get_jwks n)) ;
      ks <~ plift (keys_of_document document) ;
      atomic (n <- draw ;; modify (set_jwks ks (monotonic n)) ;;; ret ks)
  end.

(** [IssuerClient.mandate_status] *)
Definition mandate_status (jti : pyval) : prog rail (option MandateStatus) :=
  atomic (n <- draw ;; ret (status_answer (get_status n (py_str jti)))).

Definition _kid_of (token : string) : res pyval := let? header := peek_header token in py_get header "kid".

(** The body of the [try]: the checkout the merchant signed; [None] when no key
    is published under its id. *)
Definition signed_checkout (checkout_jwt : string) (ks : list (string * Key)) : res (option pyval) :=
  let? header_kid := _kid_of checkout_jwt in
  let? key := keys_get ks header_kid in
  match key with
  | None => Ok None
  | Some key => let? checkout := verify_compact checkout_jwt key in Ok (Some checkout)
  end.

Definition _check_checkout (checkout_jwt : option string) (ks : list (string * Key)) (amount : Decimal.dec) (currency : string) : res VerificationResult :=
  match or_str checkout_jwt None with
  | None => Ok (accepted VNone None)
  | Some checkout_jwt =>
      match signed_checkout checkout_jwt ks with
      | Ok (Some checkout) =>
          let? signed_total := py_get checkout "total_price" in
          let? charged := to_minor_units amount in
          if negb (py_eq signed_total (VInt charged)) then Ok (refused CONDITION_FAILED)
          else
            let? signed_currency := py_get checkout "currency" in
            if negb (py_eq signed_currency (VStr currency)) then Ok (refused CONDITION_FAILED)
            else let? hash := checkout_hash checkout_jwt in Ok (accepted VNone (Some hash))
      | _ => Ok (refused INVALID_SIGNATURE)
      end
  end.

(** [AP2Verifier.verify]; [sdjwt.verify] reads the clock itself. *)
Definition verify_payment (mandate_sd_jwt checkout_jwt : option string) (amount : Decimal.dec) (currency : string) : prog rail VerificationResult :=
  match or_str mandate_sd_jwt None with
  | None => pret (refused INVALID_SIGNATURE)
  | Some presented =>
      ks <~ pcatch (ks <~ keys ; pret (Some ks)) (fun _ => Some (pret None)) ;
      match ks with
      | None => pret (refused RAIL_ERROR)
      | Some ks =>
          moment <~ atomic now ;
          match SdJwt.verify presented ks None None false (unix_seconds moment) with
          | Raise e => match sdjwt_reason e with Some reason => pret (refused reason) | None => praise e end
          | Ok claims =>
              let jti := override (assoc "jti" claims) VNone in
              binding <~ plift (_check_checkout checkout_jwt ks amount currency) ;
              if negb (vr_ok binding) then pret binding
              else
                status <~ mandate_status jti ;
                match status with
                | None => pret (refused RAIL_ERROR)
                | Some ACTIVE => pret (accepted jti (vr_checkout_hash binding))
                | Some status => pret (refused (_reason_for status))
                end
          end
      end
  end.

(** ** payments.py *)

Record Settlement : Type := {
  se_payment_id : string;
  se_amount : Decimal.dec;
  se_currency : string;
  se_mandate_jti : string;
  se_captured_at : Z;
  se_replayed : bool;
}.

Definition to_receipt (s : Settlement) (purchase_id : string) : pydict :=
  [("purchase_id", VStr purchase_id); ("capture_id", VStr (se_payment_id s)); ("amount", VStr (dec_str (se_amount s)));
   ("currency", VStr (se_currency s)); ("captured_at", VStr (isoformat (se_captured_at s))); ("mandate_jti", VStr (se_mandate_jti s));
   ("simulated", VBool true)]%string.

Definition stored_text (stored : pydict) (key : string) : res string :=
  match assoc key stored with Some (VStr s) => Ok s | Some _ => Raise TypeError | None => Raise KeyError end.

(** The [Settlement] read from a stored response. *)
Definition replayed (stored : pydict) : res Settlement :=
  let? payment_id := stored_text stored "capture_id" in
  let? amount_text := stored_text stored "amount" in
  let? amount := decimal_of_string amount_text in
  let? currency := stored_text stored "currency" in
  let? mandate_jti := stored_text stored "mandate_jti" in
  let? at_text := stored_text stored "captured_at" in
  match fromisoformat at_text with
  | Some captured_at => Ok {| se_payment_id := payment_id; se_amount := amount; se_currency := currency; se_mandate_jti := mandate_jti;
                              se_captured_at := captured_at; se_replayed := true |}
  | None => Raise ValueError
  end.

Definition _record_refusal (token_id : string) (amount : Decimal.dec) (currency : string) (reason : option ReasonCode) (intent_ref : string)
    (mandate_jti : pyval) (checkout_hash : option string) : st rail unit :=
  payment_id <- new_id YUNO_PAYMENT ;;
  stored <- lift (numeric_12_2 amount) ;;
  jti <- lift (text_column (if truthy mandate_jti then mandate_jti else VStr "unknown")) ;;
  insert_row payments set_payments payment_id
    {| pay_token_id := token_id; pay_mandate_jti := jti; pay_amount := stored; pay_currency := currency; pay_status := "refused";
       pay_reason_code := ReasonCode_value <$> reason; pay_checkout_hash := checkout_hash; pay_intent_ref := Some intent_ref |}.

(** The refusal is written and raised; [get_session] rolls it back. *)
Definition refuse (token_id : string) (amount : Decimal.dec) (currency : string) (reason : option ReasonCode) (intent_ref : string)
    (mandate_jti : pyval) (checkout_hash : option string) : prog rail Settlement :=
  atomic (in_transaction (
    _record_refusal token_id amount currency reason intent_ref mandate_jti checkout_hash ;;;
    raise (PaymentRefused (match reason with Some r => ReasonCode_value r | None => EmptyString end)))).

(** The flush of the payment with its idempotency row, and the commit. *)
Definition settle (payment_id idempotency_key purchase_id token_id currency intent_ref : string) (amount : Decimal.dec) (captured_at : Z)
    (mandate_jti : pyval) (checkout_hash : option string) : st rail Settlement :=
  in_transaction (
    stored <- lift (numeric_12_2 amount) ;;
    jti <- lift (text_column mandate_jti) ;;
    insert_row payments set_payments payment_id
      {| pay_token_id := token_id; pay_mandate_jti := jti; pay_amount := stored; pay_currency := currency; pay_status := "captured";
         pay_reason_code := None; pay_checkout_hash := checkout_hash; pay_intent_ref := Some intent_ref |} ;;;
    let settlement := {| se_payment_id := payment_id; se_amount := amount; se_currency := currency; se_mandate_jti := jti;
                         se_captured_at := captured_at; se_replayed := false |} in
    insert_row idempotency set_idempotency idempotency_key
      {| idem_payment_id := payment_id; idem_response := to_receipt settlement purchase_id |} ;;;
    ret settlement).

Definition capture (token_id : string) (amount : Decimal.dec) (currency idempotency_key intent_ref purchase_id : string)
    (mandate_sd_jwt checkout_jwt : option string) : prog rail Settlement :=
  replay <~ select (fun b => idempotency b !! idempotency_key) ;
  match replay with
  | Some row => plift (replayed (idem_response row))
  | None =>
      token <~ get_active_token token_id ;
      match token with
      | None =>
          exists_ <~ token_exists token_id ;
          refuse token_id amount currency (Some (if exists_ : bool then RAIL_TOKEN_DELETED else RAIL_ERROR)) intent_ref (VStr "unknown") None
      | Some _ =>
          verdict <~ verify_payment mandate_sd_jwt checkout_jwt amount currency ;
          if negb (vr_ok verdict) then
            refuse token_id amount currency (vr_reason_code verdict) intent_ref (vr_mandate_jti verdict) (vr_checkout_hash verdict)
          else
            payment_id <~ atomic (new_id YUNO_PAYMENT) ;
            captured_at <~ atomic now ;
            pcatch (atomic (settle payment_id idempotency_key purchase_id token_id currency intent_ref amount captured_at (vr_mandate_jti verdict) (vr_checkout_hash verdict)))
              (fun e => match e with
                        | IntegrityError => Some (winner <~ select (fun b => idempotency b !! idempotency_key) ;
                                                  match winner with Some row => plift (replayed (idem_response row)) | None => praise IntegrityError end)
                        | _ => None
                        end)
      end
  end.

(** ** disputes.py *)

Definition open_dispute (payment_id reason : string) : prog rail (string * DisputeRow) :=
  payment <~ select (fun b => payments b !! payment_id) ;
  match payment with
  | None => praise DisputeError
  | Some payment =>
      if negb (String.eqb (pay_status payment) "captured") then praise DisputeError
      else
        atomic (in_transaction (
          dispute_id <- new_id YUNO_DISPUTE ;;
          let row := {| dis_payment_id := payment_id; dis_reason := reason; dis_status := "open"; dis_outcome := None; dis_evidence := None;
                        dis_resolved_at := None |}%string in
          insert_row disputes set_disputes dispute_id row ;;;
          ret (dispute_id, row)))
  end.

Definition evidence_get (evidence : pydict) (key : string) : pyval := override (assoc key evidence) VNone.

(** The findings against the seller, in the order they are made. *)
Definition weaknesses (payment : option PaymentRow) (evidence : pydict) : list string :=
  let checkout_hash := evidence_get evidence "checkout_hash" in
  (if truthy (evidence_get evidence "mandate_sd_jwt") then [] else ["no signed mandate presented"%string])
  ++ (if truthy (evidence_get evidence "intent_jwt") then [] else ["no signed purchase intent presented"%string])
  ++ match or_str (payment ≫= pay_checkout_hash) None with
     | Some charged => if py_eq checkout_hash (VStr charged) then [] else ["the cart in evidence is not the cart that was charged"%string]
     | None => if truthy checkout_hash then [] else ["the merchant never committed to a cart"%string]
     end
  ++ (if truthy (evidence_get evidence "escalated") && negb (truthy (evidence_get evidence "approval_receipt_sig"))
      then ["escalated purchase with no approval receipt"%string] else []).

Definition resolved_dispute (payment : option PaymentRow) (evidence : pydict) (moment : Z) (row : DisputeRow) : DisputeRow :=
  let against := weaknesses payment evidence in
  let findings := match against with [] => ["mandate, intent and cart form an unbroken chain"%string] | _ => against end in
  {| dis_payment_id := dis_payment_id row; dis_reason := dis_reason row; dis_status := "resolved";
     dis_outcome := Some (match against with [] => SELLER_FAVOR | _ => BUYER_FAVOR end);
     dis_evidence := Some (dict_set "findings" (VList (map VStr findings)) evidence); dis_resolved_at := Some moment |}.

Definition adjudicate (dispute_id : string) (evidence : pydict) : prog rail DisputeRow :=
  dispute <~ select (fun b => disputes b !! dispute_id) ;
  match dispute with
  | None => praise DisputeError
  | Some dispute =>
      if negb (String.eqb (dis_status dispute) "open") then praise DisputeError
      else
        payment <~ select (fun b => payments b !! dis_payment_id dispute) ;
        atomic (moment <- now ;;
                let row := resolved_dispute payment evidence moment dispute in
                update_row disputes set_disputes dispute_id (fun _ => true) (fun _ => row) ;;;
                ret row)
  end.

(** ** main.py

    An endpoint answers the values it hands to its view. *)

(** [except <class>: raise HTTPException(409)] *)
Definition conflict_on {A} (class : exn) (p : prog rail A) : prog rail A :=
  pcatch p (fun e => if decide (e = class) then Some (praise (HTTPException 409)) else None).

Definition opt_text (s : option string) : pyval := match s with Some s => VStr s | None => VNone end.

Definition enroll (mandate_id : string) : prog rail pydict :=
  token <~ create_setup_token mandate_id ;
  pret [("setup_token_id", VStr token.1); ("approve_url", VStr (su_approve_url token.2)); ("expires_at", VTime (Aware (su_expires_at token.2))); ("simulated", VBool true)]%string.

Definition approve (setup_token_id : string) : prog rail pydict :=
  _ <~ conflict_on VaultError (approve_setup_token setup_token_id) ;
  pret [("status", VStr "approved"); ("setup_token_id", VStr setup_token_id); ("simulated", VBool true)]%string.

Definition confirm (setup_token_id : string) : prog rail pydict :=
  token <~ conflict_on VaultError (exchange setup_token_id) ;
  pret [("token_id", VStr token.1); ("mandate_id", VStr (to_mandate_id token.2)); ("instrument_label", opt_text (to_instrument_label token.2)); ("simulated", VBool true)]%string.

Definition delete_token_endpoint (token_id : string) : prog rail pydict :=
  deleted <~ delete_token token_id ;
  exists_ <~ (if deleted : bool then pret true else token_exists token_id) ;
  if negb exists_ then praise (HTTPException 404)
  else pret [("token_id", VStr token_id); ("status", VStr "deleted"); ("already_deleted", VBool (negb deleted)); ("simulated", VBool true)]%string.

Record CaptureRequest : Type := {
  cr_token_id : string;
  cr_amount : string;
  cr_currency : string;
  cr_intent_ref : string;
  cr_purchase_id : option string;
  cr_mandate_sd_jwt : option string;
  cr_checkout_jwt : option string;
}.

Definition create_payment (body : CaptureRequest) (idempotency_key : string) : prog rail pydict :=
  amount <~ plift (match decimal_of_string (cr_amount body) with Raise InvalidOperation => Raise (HTTPException 422) | r => r end) ;
  let purchase_id := override (or_str (cr_purchase_id body) None) (cr_intent_ref body) in
  settlement <~ capture (cr_token_id body) amount (cr_currency body) idempotency_key (cr_intent_ref body) purchase_id (cr_mandate_sd_jwt body) (cr_checkout_jwt body) ;
  pret (to_receipt settlement purchase_id).

Definition dispute_view (dispute_id : string) (row : DisputeRow) : pydict :=
  [("dispute_id", VStr dispute_id); ("capture_id", VStr (dis_payment_id row)); ("reason", VStr (dis_reason row)); ("status", VStr (dis_status row));
   ("outcome", opt_text (dis_outcome row));
   ("findings", override (assoc "findings" (override (dis_evidence row) [])) (VList [])); ("simulated", VBool true)]%string.

Definition open_dispute_endpoint (payment_id reason : string) : prog rail pydict :=
  opened <~ conflict_on DisputeError (open_dispute payment_id reason) ;
  pret (dispute_view opened.1 opened.2).

Definition adjudicate_endpoint (dispute_id : string) (evidence : pydict) : prog rail pydict :=
  row <~ conflict_on DisputeError (adjudicate dispute_id evidence) ;
  pret (dispute_view dispute_id row).
End Rail.
