(* ===== verification/RailFacts.v ===== *)
(** The payment rail (Rail.v) under every schedule of its endpoints: one
    settlement per idempotency key, nothing settled that was not verified, nothing
    charged to a token already deleted, and no refusal on record. *)
From S2P Require Import Prelude PyTime Decimal Json JsonLogic JsonParse Base64 Sha256 Models Canonical Jose RappiClient Prog AgentRules SdJwt Rail.

(** ** The amount booked and the amount compared with the cart *)

(** At most two decimals. *)
Definition in_cents (amount : Decimal.dec) : bool := match amount with DFin _ _ exp => -2 <=? exp | _ => false end.

Lemma minor_units_near neg coef exp units : 0 <= coef -> to_minor_units (DFin neg coef exp) = Ok units ->
  exists u, units = signed neg u /\ (-2 <= exp -> coef * 10 ^ (exp + 2) < 10 ^ 12 -> u = coef * 10 ^ (exp + 2)) /\
    (exp < -2 -> coef < 10 ^ 13 * 10 ^ (- (exp + 2)) -> Z.abs (2 * (u * 10 ^ (- (exp + 2)) - coef)) < 2 * 10 ^ (- (exp + 2))).
Proof.
  intros Hc. unfold to_minor_units, dmul, mul_in, dfixed, decimal_of_int. cbn [rbind Z.ltb Z.compare Z.abs]. rewrite xorb_false_r, Z.add_0_r. change (Z.abs 100) with 100.
  destruct (dfix_near neg (coef * 100) exp ltac:(lia)) as (q & d & -> & Hd & Hq & Hnear & Hbig). unfold to_integral, dec_int.
  destruct (Z.leb_spec 0 (exp + d)) as [Hx|Hx]; cbn beta iota.
  - rewrite (proj2 (Z.leb_le 0 (exp + d))) by lia. intros [= <-]. eexists. split; [done|]. split.
    + intros He Hlt. assert (coef <= coef * 10 ^ (exp + 2)) as Hle by (pose proof (Z.pow_pos_nonneg 10 (exp + 2) ltac:(lia) ltac:(lia)); nia).
      destruct Hbig as [-> |Hbig]; [|assert (10 ^ 26 <= 10 ^ (d + 26)) by (apply Z.pow_le_mono_r; lia); change (10 ^ 26) with 100000000000000000000000000 in *; change (10 ^ 12) with 1000000000000 in *; lia].
      change (10 ^ 0) with 1 in Hnear. assert (q = coef * 100) as -> by lia. rewrite Z.add_0_r, Z.pow_add_r by lia. lia.
    + intros He Hlt. exfalso. assert (d <> 0) as Hd0 by lia. destruct Hbig as [?|Hbig]; [lia|].
      assert (10 ^ 15 * 10 ^ (- (exp + 2)) <= 10 ^ (d + 26)) as Hpow by (rewrite <- Z.pow_add_r by lia; apply Z.pow_le_mono_r; lia).
      change (10 ^ 15) with (100 * 10 ^ 13) in Hpow. lia.
  - cbn [Z.leb Z.compare]. change (10 ^ 0) with 1. intros [= <-]. rewrite Z.mul_1_r. eexists. split; [done|].
    assert (0 < 10 ^ (- (exp + d))) as Hp by (apply Z.pow_pos_nonneg; lia).
    pose proof (div_round_near ROUND_HALF_EVEN q (10 ^ (- (exp + d))) Hq Hp) as Hr. set (u := div_round _ _ _) in *. split.
    + intros He Hlt. assert (coef <= coef * 10 ^ (exp + 2)) as Hle by (pose proof (Z.pow_pos_nonneg 10 (exp + 2) ltac:(lia) ltac:(lia)); nia).
      destruct Hbig as [-> |Hbig]; [|assert (10 ^ 26 <= 10 ^ (d + 26)) by (apply Z.pow_le_mono_r; lia); change (10 ^ 26) with 100000000000000000000000000 in *; change (10 ^ 12) with 1000000000000 in *; lia].
      change (10 ^ 0) with 1 in Hnear. assert (q = coef * 100) as -> by lia. rewrite Z.add_0_r in *.
      assert (exp = -1 \/ exp = -2) as [-> | ->] by lia; [change (10 ^ (- -1)) with 10 in *; change (10 ^ (-1 + 2)) with 10|change (10 ^ (- -2)) with 100 in *; change (10 ^ (-2 + 2)) with 1]; lia.
    + intros He Hlt. assert (10 ^ (- (exp + 2)) * 100 = 10 ^ (- (exp + d)) * 10 ^ d) as Hsplit.
      { change 100 with (10 ^ 2). rewrite <- !Z.pow_add_r by lia. f_equal. lia. }
      assert (0 < 10 ^ d) by (apply Z.pow_pos_nonneg; lia). assert (10 ^ 1 <= 10 ^ (- (exp + d))) as Hten by (apply Z.pow_le_mono_r; lia). change (10 ^ 1) with 10 in Hten.
      set (P := 10 ^ (- (exp + d))) in *. set (D := 10 ^ d) in *. set (K := 10 ^ (- (exp + 2))) in *. clearbody P D K u.
      assert (Z.abs (2 * (u * P - q)) * D <= P * D) as H1 by (apply Z.mul_le_mono_nonneg_r; lia).
      assert (Z.abs (2 * (u * P - q) * D + 2 * (q * D - coef * 100)) <= P * D + D) as H2.
      { etransitivity; [apply Z.abs_triangle|]. rewrite Z.abs_mul, (Z.abs_eq D) by lia. lia. }
      assert (10 * D <= P * D) as H3 by (apply Z.mul_le_mono_nonneg_r; lia).
      assert (2 * (u * P - q) * D + 2 * (q * D - coef * 100) = 2 * (u * K - coef) * 100) as Heq by nia.
      rewrite Heq, Z.abs_mul in H2. rewrite <- Hsplit in *. change (Z.abs 100) with 100 in H2. lia.
Qed.

(** What is booked and what was compared with the cart are the same number of
    cents, or one apart when the request had more than two decimals. *)
Definition booked_near (units : Z) (amount booked : Decimal.dec) : Prop := exists neg c,
  booked = DFin neg c (-2) /\ Z.abs (signed neg c - units) <= 1 /\ (in_cents amount = true -> signed neg c = units).

Lemma booked_units amount booked units text : decimal_of_string text = Ok amount -> numeric_12_2 amount = Ok booked -> to_minor_units amount = Ok units ->
  booked_near units amount booked.
Proof.
  intros Ht Hb Hu. destruct amount as [neg coef exp|?|]; [|done|done]. apply decimal_of_string_nonneg in Ht. destruct (minor_units_near _ _ _ _ Ht Hu) as (u & -> & Hexact & Hnear).
  unfold numeric_12_2 in Hb. unfold booked_near, in_cents. destruct (Z.leb_spec 0 (exp + 2)) as [He|He]; cbn beta iota zeta in Hb.
  - destruct (Z.ltb_spec (coef * 10 ^ (exp + 2)) (10 ^ 12)) as [Hlt|]; [|done]. injection Hb as <-. rewrite (Hexact ltac:(lia) Hlt).
    eexists neg, _. split; [done|]. rewrite Z.sub_diag. done.
  - assert (0 < 10 ^ (- (exp + 2))) as Hp by (apply Z.pow_pos_nonneg; lia). pose proof (div_round_near ROUND_HALF_UP coef _ Ht Hp) as Hr. set (c := div_round _ _ _) in *.
    destruct (Z.ltb_spec c (10 ^ 12)) as [Hlt|]; [|done]. injection Hb as <-. set (K := 10 ^ (- (exp + 2))) in *.
    assert (coef < 10 ^ 13 * K) as Hsmall by (change (10 ^ 13) with (10 * 10 ^ 12); nia). specialize (Hnear ltac:(lia) Hsmall).
    exists neg, c. split; [done|]. split; [|rewrite (proj2 (Z.leb_gt (-2) exp)) by lia; done].
    assert (Z.abs (c - u) <= 1) by nia. unfold signed. destruct neg; lia.
Qed.

Section RailFacts.
Context `{JwkLibrary}.
Variables (ulid : nat -> string) (utc monotonic : nat -> Z) (get_jwks : nat -> res pyval) (get_status : nat -> string -> res (Z * pyval)).
Variables (jwks_cache_seconds : Z) (approval_base_url : string).

(** Any request. *)
Inductive request : Type :=
| Enroll (mandate_id : string)
| Approve (setup_token_id : string)
| Confirm (setup_token_id : string)
| DeleteToken (token_id : string)
| CreatePayment (body : CaptureRequest) (idempotency_key : string)
| OpenDispute (payment_id reason : string)
| Adjudicate (dispute_id : string) (evidence : pydict).

Definition serve (r : request) : prog rail pydict :=
  match r with
  | Enroll mandate_id => enroll ulid utc approval_base_url mandate_id
  | Approve setup_token_id => approve setup_token_id
  | Confirm setup_token_id => confirm ulid utc setup_token_id
  | DeleteToken token_id => delete_token_endpoint utc token_id
  | CreatePayment body key => create_payment ulid utc monotonic get_jwks get_status jwks_cache_seconds body key
  | OpenDispute payment_id reason => open_dispute_endpoint ulid payment_id reason
  | Adjudicate dispute_id evidence => adjudicate_endpoint utc dispute_id evidence
  end.

(** ** What stands behind a payment *)

(** Keys the issuer published. *)
Definition published (ks : list (string * Key)) : Prop := exists n document, get_jwks n = Ok document /\ keys_of_document document = Ok ks.

(** The checkout behind a recorded hash: signed under a published key for the
    amount and the currency. *)
Definition bound_checkout (ks : list (string * Key)) (amount : Decimal.dec) (currency : string) (hash : option string) : Prop :=
  match hash with
  | None => True
  | Some hash => exists checkout_jwt checkout total units signed_currency,
      SdJwt.checkout_hash checkout_jwt = Ok hash /\ signed_checkout checkout_jwt ks = Ok (Some checkout) /\
      py_get checkout "total_price" = Ok total /\ to_minor_units amount = Ok units /\ py_eq total (VInt units) = true /\
      py_get checkout "currency" = Ok signed_currency /\ py_eq signed_currency (VStr currency) = true
  end.

(** What a verdict says. *)
Definition verdict_stands (amount : Decimal.dec) (currency : string) (jti : pyval) (hash : option string) : Prop :=
  exists ks presented moment claims n, published ks /\ SdJwt.verify presented ks None None false (unix_seconds (utc moment)) = Ok claims /\
    override (assoc "jti" claims) VNone = jti /\ status_answer (get_status n (py_str jti)) = Some ACTIVE /\ bound_checkout ks amount currency hash.

(** An amount some request named. *)
Definition requested (amount : Decimal.dec) : Prop := exists text, decimal_of_string text = Ok amount.

Definition authorised (row : PaymentRow) : Prop := exists amount,
  requested amount /\ numeric_12_2 amount = Ok (pay_amount row) /\ verdict_stands amount (pay_currency row) (VStr (pay_mandate_jti row)) (pay_checkout_hash row).

(** ** The books and the steps that keep them *)

Record books_ok (b : books) : Prop := {
  ok_key : forall key row, idempotency b !! key = Some row -> exists payment, payments b !! idem_payment_id row = Some payment;
  ok_response : forall key row, idempotency b !! key = Some row -> assoc "capture_id" (idem_response row) = Some (VStr (idem_payment_id row));
  ok_distinct : forall k1 k2 r1 r2, idempotency b !! k1 = Some r1 -> idempotency b !! k2 = Some r2 -> idem_payment_id r1 = idem_payment_id r2 -> k1 = k2;
  ok_payment : forall payment_id payment, payments b !! payment_id = Some payment ->
    pay_status payment = "captured"%string /\ authorised payment /\ exists key row, idempotency b !! key = Some row /\ idem_payment_id row = payment_id;
}.

Definition rail_ok (s : rail) : Prop := books_ok (tables s) /\ match jwks_cache s with Some ks => published ks | None => True end.

(** Answers and payments stay as they are. *)
Definition grows (s s' : rail) : Prop :=
  (forall key row, idempotency (tables s) !! key = Some row -> idempotency (tables s') !! key = Some row) /\
  (forall payment_id row, payments (tables s) !! payment_id = Some row -> payments (tables s') !! payment_id = Some row).

Definition keeps (s s' : rail) : Prop := grows s s' /\ (rail_ok s -> rail_ok s').

#[export] Instance keeps_preorder : PreOrder keeps.
Proof using Type.
  split; [by intros s; split; [split|]|]. intros a b c [[A1 A2] A3] [[B1 B2] B3]. split; [split|]; auto.
Qed.

Lemma rail_same s s' : idempotency (tables s') = idempotency (tables s) -> payments (tables s') = payments (tables s) -> jwks_cache s' = jwks_cache s -> keeps s s'.
Proof using Type.
  intros Hi Hp Hc. unfold keeps, grows, rail_ok. rewrite Hi, Hp, Hc. split; [by split|]. intros [[O1 O2 O3 O4] Hk]. split; [|done].
  split; rewrite ?Hi, ?Hp; done.
Qed.

(** Steps that write neither payments nor answers nor the cache. *)
Definition quiet {A} (m : st rail A) : Prop := forall s,
  idempotency (tables (m s).2) = idempotency (tables s) /\ payments (tables (m s).2) = payments (tables s) /\ jwks_cache (m s).2 = jwks_cache s.

Lemma quiet_does {A} (m : st rail A) : quiet m -> does keeps (atomic m).
Proof using Type. intros Hm. apply does_atomic. intros s. destruct (Hm s) as (? & ? & ?). by apply rail_same. Qed.
Lemma quiet_transaction {A} (m : st rail A) : quiet m -> quiet (in_transaction m).
Proof using Type. intros Hm s. unfold in_transaction. destruct (Hm s) as (? & ? & ?). by destruct (m s) as [[a|e] s']. Qed.
Lemma quiet_bind {A B} (m : st rail A) (f : A -> st rail B) : quiet m -> (forall a, quiet (f a)) -> quiet (sbind m f).
Proof using Type.
  intros Hm Hf s. unfold sbind. destruct (Hm s) as (H1 & H2 & H3). destruct (m s) as [[a|e] s']; cbn in *; [|done].
  destruct (Hf a s') as (E1 & E2 & E3). by rewrite E1, E2, E3.
Qed.
Lemma quiet_same {A} (m : st rail A) : (forall s, tables (m s).2 = tables s /\ jwks_cache (m s).2 = jwks_cache s) -> quiet m.
Proof using Type. intros Hm s. by destruct (Hm s) as [-> ->]. Qed.
Lemma quiet_insert {V} (view : books -> gmap string V) update key row : (forall m b, idempotency (update m b) = idempotency b /\ payments (update m b) = payments b) ->
  quiet (insert_row view update key row).
Proof using Type. intros Hu s. unfold insert_row. destruct (view (tables s) !! key); cbn; [done|]. by destruct (Hu (<[key:=row]> (view (tables s))) (tables s)) as [-> ->]. Qed.
Lemma quiet_update {V} (view : books -> gmap string V) update key guard f : (forall m b, idempotency (update m b) = idempotency b /\ payments (update m b) = payments b) ->
  quiet (update_row view update key guard f).
Proof using Type.
  intros Hu s. unfold update_row. destruct (view (tables s) !! key) as [row|]; cbn; [|done]. destruct (guard row); cbn; [|done].
  by destruct (Hu (<[key:=f row]> (view (tables s))) (tables s)) as [-> ->].
Qed.
Lemma quiet_id prefix : quiet (new_id ulid prefix).
Proof using Type. by apply quiet_same. Qed.
Lemma quiet_now : quiet (now utc).
Proof using Type. by apply quiet_same. Qed.

Lemma select_does {A} (f : books -> A) : does keeps (select f).
Proof using Type. by apply quiet_does, quiet_same. Qed.

Lemma conflict_does {A} e (p : prog rail A) : does keeps p -> does keeps (conflict_on e p).
Proof using Type. intros Hp. apply does_catch; [done|]. intros e'. by destruct (decide (e' = e)). Qed.

(** ** The vault and the disputes *)

Lemma enroll_does mandate_id : does keeps (enroll ulid utc approval_base_url mandate_id).
Proof using Type.
  apply does_bind; [|done]. apply quiet_does, quiet_transaction. repeat (apply quiet_bind; [first [apply quiet_id|apply quiet_now|by apply quiet_insert]|intros ?]). by apply quiet_same.
Qed.

Lemma approve_does setup_token_id : does keeps (approve setup_token_id).
Proof using Type.
  apply does_bind; [|done]. apply conflict_does, does_bind; [|by intros []]. by apply quiet_does, quiet_update.
Qed.

Lemma confirm_does setup_token_id : does keeps (confirm ulid utc setup_token_id).
Proof using Type.
  apply does_bind; [|done]. apply conflict_does, does_bind; [apply select_does|]. intros [row|]; [|done]. destruct (String.eqb _ "exchanged"); [done|].
  destruct (String.eqb _ _); [|done]. apply does_bind; [apply quiet_does, quiet_now|]. intros moment. destruct (_ <? _); [done|].
  apply quiet_does, quiet_transaction. apply quiet_bind; [apply quiet_id|]. intros token_id. apply quiet_bind; [by apply quiet_insert|]. intros [].
  apply quiet_bind; [by apply quiet_update|]. intros. by apply quiet_same.
Qed.

Lemma delete_does token_id : does keeps (delete_token_endpoint utc token_id).
Proof using Type.
  apply does_bind; [apply quiet_does, quiet_bind; [apply quiet_now|]; intros; by apply quiet_update|]. intros deleted.
  apply does_bind; [destruct deleted; [done|apply select_does]|]. by intros [].
Qed.

Lemma open_dispute_does payment_id reason : does keeps (open_dispute_endpoint ulid payment_id reason).
Proof using Type.
  apply does_bind; [|done]. apply conflict_does, does_bind; [apply select_does|]. intros [payment|]; [|done]. destruct (String.eqb _ _); [|done].
  apply quiet_does, quiet_transaction. apply quiet_bind; [apply quiet_id|]. intros. apply quiet_bind; [by apply quiet_insert|]. intros. by apply quiet_same.
Qed.

Lemma adjudicate_does dispute_id evidence : does keeps (adjudicate_endpoint utc dispute_id evidence).
Proof using Type.
  apply does_bind; [|done]. apply conflict_does, does_bind; [apply select_does|]. intros [dispute|]; [|done]. destruct (String.eqb _ _); [|done].
  apply does_bind; [apply select_does|]. intros payment. apply quiet_does, quiet_bind; [apply quiet_now|]. intros. apply quiet_bind; [by apply quiet_update|]. intros. by apply quiet_same.
Qed.

(** ** The verifier *)

Definition vetted {A} (p : prog rail A) (Q : A -> Prop) : Prop := triple keeps keeps rail_ok p (fun r s => rail_ok s /\ match r with Ok a => Q a | Raise _ => True end).

Lemma keeps_ok s s' : keeps s s' -> rail_ok s -> rail_ok s'.
Proof using Type. intros [_ Hs]. exact Hs. Qed.

Lemma vetted_does {A} (p : prog rail A) : does keeps p -> vetted p (fun _ => True).
Proof using Type. intros Hp s Hs. apply (does_rg _ keeps p s rail_ok); [done|apply keeps_ok|by intros [a|e]|done|done]. Qed.
Lemma vetted_bind {A B} (m : prog rail A) (f : A -> prog rail B) (M : A -> Prop) Q : vetted m M -> (forall a, M a -> vetted (f a) Q) -> vetted (pbind m f) Q.
Proof using Type.
  intros Hm Hf. eapply triple_bind; [apply _|exact Hm| |by intros e s [Hs _]]. intros a s [Hs Ha]. by apply Hf.
Qed.
Lemma vetted_weaken {A} (p : prog rail A) (Q Q' : A -> Prop) : vetted p Q -> (forall a, Q a -> Q' a) -> vetted p Q'.
Proof using Type. intros Hp HQ. eapply triple_conseq; [exact Hp|done|]. intros [a|e] s [Hs Ha]; auto. Qed.
Lemma vetted_ret {A} (a : A) (Q : A -> Prop) : Q a -> vetted (pret a) Q.
Proof using Type. intros Ha. apply triple_finish; [intros s s'; apply keeps_ok|done]. Qed.
Lemma vetted_raise {A} e (Q : A -> Prop) : vetted (praise e) Q.
Proof using Type. apply triple_finish; [intros s s'; apply keeps_ok|done]. Qed.
Lemma vetted_lift {A B} (r : res A) (f : A -> prog rail B) Q : (forall a, r = Ok a -> vetted (f a) Q) -> vetted (pbind (plift r) f) Q.
Proof using Type. intros Hf. destruct r as [a|e]; [by apply Hf|apply vetted_raise]. Qed.
Lemma vetted_atomic {A} (op : st rail A) (Q : A -> Prop) : (forall s, rail_ok s -> keeps s (op s).2 /\ match (op s).1 with Ok a => Q a | Raise _ => True end) -> vetted (atomic op) Q.
Proof using Type.
  intros Hop. apply triple_atomic; [intros s s'; apply keeps_ok|]. intros s Hs. destruct (Hop s Hs) as [Hk HQ]. split; [done|]. intros s' Hs'. split; [|done].
  eapply keeps_ok; [exact Hs'|]. by eapply keeps_ok.
Qed.
Lemma vetted_catch {A} (m : prog rail A) h (Q : A -> Prop) : vetted m Q -> (forall e, match h e with Some p => vetted p Q | None => True end) -> vetted (pcatch m h) Q.
Proof using Type.
  intros Hm Hh. eapply triple_catch; [apply _|exact Hm|done|]. intros e. specialize (Hh e). destruct (h e) as [p|]; [|done]. intros s [Hs _]. by apply Hh.
Qed.

Abbreviation keys := (keys monotonic get_jwks jwks_cache_seconds).
Abbreviation verify_payment := (verify_payment utc monotonic get_jwks get_status jwks_cache_seconds).

Lemma keys_vetted : vetted keys published.
Proof using Type.
  unfold Rail.keys. apply (vetted_bind _ _ (fun cached => match cached with Some ks => published ks | None => True end)).
  - apply vetted_atomic. intros s [_ Hc]. split; [by apply rail_same|]. cbn. destruct (jwks_cache s) as [ks|]; [|done]. by destruct (_ <? _).
  - intros [ks|] Hks; [by apply vetted_ret|]. apply (vetted_bind _ _ (fun document => exists n, get_jwks n = Ok document)).
    + apply vetted_atomic. intros s _. split; [by apply rail_same|]. cbn. destruct (get_jwks (drawn s)) eqn:E; [by eexists|done].
    + intros document [n Hn]. apply vetted_lift. intros ks' Hks'. assert (published ks') as Hp by by exists n, document.
      apply vetted_atomic. intros s Hs. split; [|done]. split; [by split|]. by intros [Hb _].
Qed.

Lemma checkout_binds checkout_jwt ks amount currency v : _check_checkout checkout_jwt ks amount currency = Ok v -> vr_ok v = true ->
  bound_checkout ks amount currency (vr_checkout_hash v).
Proof using Type.
  unfold _check_checkout. destruct (or_str checkout_jwt None) as [jwt|]; [|by intros [= <-]].
  destruct (signed_checkout jwt ks) as [[checkout|]|] eqn:Es; [|by intros [= <-]..].
  destruct (py_get checkout "total_price") as [total|] eqn:Et; cbn [rbind]; [|done]. destruct (to_minor_units amount) as [units|] eqn:Eu; cbn [rbind]; [|done].
  destruct (py_eq total (VInt units)) eqn:Eq; cbn [negb]; [|by intros [= <-]].
  destruct (py_get checkout "currency") as [cur|] eqn:Ec; cbn [rbind]; [|done]. destruct (py_eq cur (VStr currency)) eqn:Eq'; cbn [negb]; [|by intros [= <-]].
  destruct (checkout_hash jwt) as [h|] eqn:Eh; cbn [rbind]; [|done]. intros [= <-] _. by exists jwt, checkout, total, units, cur.
Qed.

Lemma verify_vetted mandate_sd_jwt checkout_jwt amount currency :
  vetted (verify_payment mandate_sd_jwt checkout_jwt amount currency)
    (fun v => vr_ok v = true -> verdict_stands amount currency (vr_mandate_jti v) (vr_checkout_hash v)).
Proof using Type.
  unfold Rail.verify_payment. destruct (or_str mandate_sd_jwt None) as [presented|]; [|by apply vetted_ret].
  apply (vetted_bind _ _ (fun ks => match ks with Some ks => published ks | None => True end)).
  { apply vetted_catch; [|intros e; by apply vetted_ret]. eapply vetted_bind; [apply keys_vetted|]. intros ks Hks. by apply vetted_ret. }
  intros [ks|] Hks; [|by apply vetted_ret]. apply (vetted_bind _ _ (fun moment => exists n, moment = utc n)).
  { apply vetted_atomic. intros s _. split; [by apply rail_same|]. cbn. by eexists. }
  intros moment [at_ ->]. destruct (SdJwt.verify presented ks None None false (unix_seconds (utc at_))) as [claims|e] eqn:Ev; [|destruct (sdjwt_reason e); [by apply vetted_ret|apply vetted_raise]].
  apply vetted_lift. intros binding Hb. destruct (vr_ok binding) eqn:Eb; cbn [negb]; [|apply vetted_ret; congruence].
  apply (vetted_bind _ _ (fun status => status = Some ACTIVE -> exists n, status_answer (get_status n (py_str (override (assoc "jti" claims) VNone))) = Some ACTIVE)).
  { apply vetted_atomic. intros s _. split; [by apply rail_same|]. cbn. by eexists. }
  intros [[]|] Hst; apply vetted_ret; try done. intros _. destruct (Hst eq_refl) as [n Hn]. cbn. exists ks, presented, at_, claims, n.
  split_and!; try done. by eapply checkout_binds.
Qed.

(** ** Settlements *)

Lemma refuse_does token_id amount currency reason intent_ref mandate_jti hash : does keeps (refuse ulid token_id amount currency reason intent_ref mandate_jti hash).
Proof using Type.
  apply does_atomic. intros s. apply rail_same.
  all: unfold in_transaction, _record_refusal, sbind, insert_row, raise, lift; cbn.
  all: destruct (numeric_12_2 amount); cbn; [|done]; destruct (text_column _); cbn; [|done]; by destruct (payments _ !! _).
Qed.

(** The answer vetted under a key. *)
Definition answered (key : string) (settlement : Settlement) (s : rail) : Prop :=
  exists row, idempotency (tables s) !! key = Some row /\ idem_payment_id row = se_payment_id settlement.
Definition settles {A} (p : prog rail A) (Q : A -> rail -> Prop) : Prop :=
  triple keeps keeps rail_ok p (fun r s => rail_ok s /\ match r with Ok a => Q a s | Raise _ => True end).

Lemma settles_bind {A B} (m : prog rail A) (f : A -> prog rail B) (M : A -> Prop) Q : vetted m M -> (forall a, M a -> settles (f a) Q) -> settles (pbind m f) Q.
Proof using Type.
  intros Hm Hf. eapply triple_bind; [apply _|exact Hm| |by intros e s [Hs _]]. intros a s [Hs Ha]. by apply Hf.
Qed.

Lemma answered_stable key settlement s s' : keeps s s' -> answered key settlement s -> answered key settlement s'.
Proof using Type. intros [[Hi _] _] (row & Hr & Hid). exists row. auto. Qed.

(** What a stored response answers. *)
Lemma replay_settles key p : settles p (answered key) ->
  settles (replay <~ select (fun b => idempotency b !! key) ; match replay with Some row => plift (replayed (idem_response row)) | None => p end) (answered key).
Proof using Type.
  intros Hp s Hs s1 Hs1. cbn. split; [done|]. pose proof (keeps_ok _ _ Hs1 Hs) as Hok. destruct (idempotency (tables s1) !! key) as [row|] eqn:E.
  - intros s2 Hs2. split; [by eapply keeps_ok|]. destruct (replayed (idem_response row)) as [settlement|e] eqn:Er; [|done]. exists row. split; [by apply Hs2|].
    unfold replayed, stored_text in Er. rewrite (ok_response _ (proj1 Hok) _ _ E) in Er. cbn [rbind] in Er.
    repeat match type of Er with context [rbind ?x _] => destruct x; cbn [rbind] in Er; [|done] end. destruct (fromisoformat _); [|done]. by injection Er as <-.
  - by apply Hp.
Qed.

Lemma settle_inserts payment_id key purchase_id token_id currency intent_ref amount captured_at jti hash s settlement s' :
  settle payment_id key purchase_id token_id currency intent_ref amount captured_at jti hash s = (Ok settlement, s') ->
  exists stored text, numeric_12_2 amount = Ok stored /\ jti = VStr text /\ se_payment_id settlement = payment_id /\
    payments (tables s) !! payment_id = None /\ idempotency (tables s) !! key = None /\ jwks_cache s' = jwks_cache s /\
    payments (tables s') = <[payment_id := {| pay_token_id := token_id; pay_mandate_jti := text; pay_amount := stored; pay_currency := currency;
      pay_status := "captured"; pay_reason_code := None; pay_checkout_hash := hash; pay_intent_ref := Some intent_ref |}]> (payments (tables s)) /\
    idempotency (tables s') = <[key := {| idem_payment_id := payment_id; idem_response := to_receipt settlement purchase_id |}]> (idempotency (tables s)).
Proof using Type.
  unfold settle, in_transaction, sbind, lift, insert_row, ret. destruct (numeric_12_2 amount) as [stored|]; cbn; [|done].
  destruct jti as [| | |text| | | | |]; cbn; try done. destruct (payments (tables s) !! payment_id) eqn:Ep; cbn; [done|].
  destruct (idempotency (tables s) !! key) eqn:Ei; cbn; [done|]. intros [= <- <-]. by exists stored, text.
Qed.

Lemma settle_fails payment_id key purchase_id token_id currency intent_ref amount captured_at jti hash s e s' :
  settle payment_id key purchase_id token_id currency intent_ref amount captured_at jti hash s = (Raise e, s') -> tables s' = tables s /\ jwks_cache s' = jwks_cache s.
Proof using Type.
  unfold settle, in_transaction, sbind, lift, insert_row, ret. destruct (numeric_12_2 amount) as [stored|]; cbn; [|by intros [= <- <-]].
  destruct (text_column jti); cbn; [|by intros [= <- <-]]. destruct (payments (tables s) !! payment_id); cbn; [by intros [= <- <-]|].
  destruct (idempotency (tables s) !! key); cbn; by intros [= <- <-].
Qed.

Lemma settle_keeps payment_id key purchase_id token_id currency intent_ref amount captured_at jti hash s : requested amount -> verdict_stands amount currency jti hash ->
  keeps s (settle payment_id key purchase_id token_id currency intent_ref amount captured_at jti hash s).2.
Proof using Type.
  intros Hreq Hv. destruct (settle _ _ _ _ _ _ _ _ _ _ s) as [[settlement|e] s'] eqn:E; [|apply settle_fails in E as [Ht Hc]; cbn; apply rail_same; [by rewrite Ht|by rewrite Ht|done]].
  apply settle_inserts in E as (stored & text & Hn & -> & Hid & Hp & Hi & Hc & Ep & Ei). cbn. unfold keeps, grows, rail_ok. rewrite Ep, Ei, Hc.
  split; [split; intros k row Hk; rewrite lookup_insert_ne; congruence|]. intros [[O1 O2 O3 O4] Hcache]. split; [|done].
  assert (Hother : forall k row, idempotency (tables s) !! k = Some row -> idem_payment_id row <> payment_id) by (intros k row Hk Heq; destruct (O1 _ _ Hk); congruence).
  split; rewrite ?Ep, ?Ei.
  - intros k row. destruct (decide (k = key)) as [->|Hne]; [rewrite lookup_insert_eq; intros [= <-]; cbn; rewrite lookup_insert_eq; by eexists|].
    rewrite lookup_insert_ne by done. intros Hk. rewrite lookup_insert_ne by (intros Heq; by apply (Hother _ _ Hk)). by eapply O1.
  - intros k row. destruct (decide (k = key)) as [->|Hne]; [rewrite lookup_insert_eq; intros [= <-]; cbn; by rewrite Hid|]. rewrite lookup_insert_ne by done. by eapply O2.
  - intros k1 k2 r1 r2. destruct (decide (k1 = key)) as [->|H1], (decide (k2 = key)) as [->|H2]; rewrite ?lookup_insert_eq, ?lookup_insert_ne by done; [done| | |by eapply O3].
    + intros [= <-] Hk Heq. cbn in Heq. by destruct (Hother _ _ Hk).
    + intros Hk [= <-] Heq. cbn in Heq. by destruct (Hother _ _ Hk).
  - intros k row. destruct (decide (k = payment_id)) as [->|Hne].
    + rewrite lookup_insert_eq. intros [= <-]. split; [done|]. split; [by exists amount|]. eexists key, _. by rewrite lookup_insert_eq.
    + rewrite lookup_insert_ne by done. intros Hk. destruct (O4 _ _ Hk) as (Hs & Ha & k' & row' & Hk' & Heq). split; [done|]. split; [done|]. exists k', row'.
      rewrite lookup_insert_ne by (intros ->; congruence). done.
Qed.

Abbreviation capture := (capture ulid utc monotonic get_jwks get_status jwks_cache_seconds).

Lemma settles_raise {A} e (Q : A -> rail -> Prop) : settles (praise e) Q.
Proof using Type. apply triple_finish; [intros s s'; apply keeps_ok|done]. Qed.

Lemma refuse_settles token_id amount currency reason intent_ref mandate_jti hash Q : settles (refuse ulid token_id amount currency reason intent_ref mandate_jti hash) Q.
Proof using Type.
  intros s Hs s1 Hs1. destruct (refuse_does token_id amount currency reason intent_ref mandate_jti hash) as [Hd _]. split; [apply Hd|]. intros s2 Hs2. split.
  - eapply keeps_ok; [exact Hs2|]. eapply keeps_ok; [apply Hd|]. by eapply keeps_ok.
  - unfold in_transaction, _record_refusal, sbind, insert_row, raise, lift. cbn. destruct (numeric_12_2 amount); cbn; [|done]. destruct (text_column _); cbn; [|done].
    by destruct (payments _ !! _).
Qed.

Lemma settle_settles payment_id key purchase_id token_id currency intent_ref amount captured_at jti hash : requested amount -> verdict_stands amount currency jti hash ->
  settles (atomic (settle payment_id key purchase_id token_id currency intent_ref amount captured_at jti hash)) (answered key).
Proof using Type.
  intros Hreq Hv s Hs s1 Hs1. pose proof (settle_keeps payment_id key purchase_id token_id currency intent_ref amount captured_at jti hash s1 Hreq Hv) as Hk. split; [done|].
  intros s2 Hs2. split; [eapply keeps_ok; [exact Hs2|]; eapply keeps_ok; [exact Hk|]; by eapply keeps_ok|].
  destruct (settle _ _ _ _ _ _ _ _ _ _ s1) as [[settlement|e] s'] eqn:E; cbn; [|done]. apply settle_inserts in E as (stored & text & _ & _ & Hid & _ & _ & _ & _ & Ei).
  eapply answered_stable; [exact Hs2|]. cbn. eexists. rewrite Ei, lookup_insert_eq. done.
Qed.

Lemma capture_settles token_id amount currency key intent_ref purchase_id mandate_sd_jwt checkout_jwt : requested amount ->
  settles (capture token_id amount currency key intent_ref purchase_id mandate_sd_jwt checkout_jwt) (answered key).
Proof using Type.
  intros Hreq. unfold Rail.capture. apply replay_settles. eapply settles_bind; [apply vetted_does, select_does|]. intros [token|] _.
  - eapply settles_bind; [apply verify_vetted|]. intros verdict Hv. destruct (vr_ok verdict) eqn:Ev; cbn [negb]; [|apply refuse_settles]. specialize (Hv Ev).
    eapply settles_bind; [apply vetted_does, quiet_does, quiet_id|]. intros payment_id _. eapply settles_bind; [apply vetted_does, quiet_does, quiet_now|]. intros captured_at _.
    eapply triple_catch; [apply _|by apply settle_settles|done|]. intros e. cbn. destruct e; try (by intros s [Hs _]).
    intros s [Hs _]. revert s Hs. apply replay_settles, settles_raise.
  - eapply settles_bind; [apply vetted_does, select_does|]. intros. apply refuse_settles.
Qed.

(** What a request leaves: the rail in order and, for a charge that answered, the
    settlement vetted under its key. *)
Definition receipt_kept (r : request) (receipt : pydict) (s : rail) : Prop :=
  match r with
  | CreatePayment _ key => exists row, idempotency (tables s) !! key = Some row /\ assoc "capture_id" receipt = Some (VStr (idem_payment_id row))
  | _ => True
  end.

Lemma does_settles {A} (p : prog rail A) (Q : A -> rail -> Prop) : does keeps p -> (forall a s, Q a s) -> settles p Q.
Proof using Type. intros Hp HQ. eapply triple_conseq; [by apply vetted_does|done|]. intros [a|e] s [Hs _]; auto. Qed.

Lemma serve_settles r : settles (serve r) (receipt_kept r).
Proof using Type.
  destruct r; cbn [serve]; try (apply does_settles; [first [apply enroll_does|apply approve_does|apply confirm_does|apply delete_does|apply open_dispute_does|apply adjudicate_does]|done]).
  unfold create_payment. eapply settles_bind with (M := requested).
  { destruct (decimal_of_string (cr_amount body)) as [amount|[]] eqn:E; try apply vetted_raise. apply vetted_ret. by exists (cr_amount body). }
  intros amount Hreq. eapply triple_bind; [apply _|by apply capture_settles| |by intros e s [Hs _]]. intros settlement s [Hs Ha] s' Hs'. split; [by eapply keeps_ok|].
  destruct (answered_stable _ _ _ _ Hs' Ha) as (row & Hrow & Hid). exists row. split; [done|]. cbn. by rewrite Hid.
Qed.

Lemma rail_schedule requests schedule s : rail_ok s ->
  let out := interleave schedule (map serve requests) s in
  rail_ok out.2 /\ (forall i r receipt, requests !! i = Some r -> out.1 !! i = Some (Finish (Ok receipt)) -> receipt_kept r receipt out.2).
Proof using Type.
  intros Hs out. set (Q i (r : res pydict) s := rail_ok s /\ match r with Ok receipt => forall req, requests !! i = Some req -> receipt_kept req receipt s | Raise _ => True end).
  assert (Hpool : pool_ok (fun _ => keeps) (fun _ => keeps) Q rail_ok (length (map serve requests)) (map serve requests) s).
  { split; [done|]. split; [done|]. intros i p Hp. rewrite list_lookup_fmap in Hp. destruct (requests !! i) as [req|] eqn:Er; [|done]. injection Hp as <-.
    eapply rg_weaken; [by apply serve_settles|]. intros [receipt|e] s' [Hs' Hk]; (split; [done|]); [|done]. intros req' Hreq'. congruence. }
  split.
  - eapply (pool_interleave (fun _ => keeps) (fun _ => keeps) Q rail_ok) in Hpool as (_ & HI & _); [exact HI|done|]. intros i x y _ Hx Hxy. by eapply keeps_ok.
  - intros i req receipt Hreq Hfin. assert (Q i (Ok receipt) out.2) as [_ Hk]; [|by apply Hk].
    eapply (pool_finished (fun _ => keeps) (fun _ => keeps) Q rail_ok); [done| |exact Hpool|exact Hfin]. intros j x y _ Hx Hxy. by eapply keeps_ok.
Qed.

(** C15: Two receipts for one key name one settlement, vetted under the key; no two keys
    share a settlement, and every payment of the books is one of them. *)
Theorem one_settlement_per_key requests schedule s i j body body' key receipt receipt' : rail_ok s ->
  let out := interleave schedule (map serve requests) s in
  requests !! i = Some (CreatePayment body key) -> out.1 !! i = Some (Finish (Ok receipt)) ->
  requests !! j = Some (CreatePayment body' key) -> out.1 !! j = Some (Finish (Ok receipt')) ->
  assoc "capture_id" receipt = assoc "capture_id" receipt' /\
  (exists payment_id payment, assoc "capture_id" receipt = Some (VStr payment_id) /\ payments (tables out.2) !! payment_id = Some payment /\
    (forall other row, idempotency (tables out.2) !! other = Some row -> idem_payment_id row = payment_id -> other = key)) /\
  (forall payment_id payment, payments (tables out.2) !! payment_id = Some payment -> exists k row, idempotency (tables out.2) !! k = Some row /\ idem_payment_id row = payment_id).
Proof using Type.
  intros Hs out Hi Hfi Hj Hfj. destruct (rail_schedule requests schedule s Hs) as [[Hb Hc] Hk]. fold out in Hk, Hb.
  destruct (Hk _ _ _ Hi Hfi) as (row & Hrow & Hid). destruct (Hk _ _ _ Hj Hfj) as (row' & Hrow' & Hid'). simplify_eq. split; [congruence|]. split.
  - destruct (ok_key _ Hb _ _ Hrow) as [payment Hp]. exists (idem_payment_id row), payment. split; [done|]. split; [done|]. intros other r Hr Heq. by eapply ok_distinct.
  - intros payment_id payment Hp. by destruct (ok_payment _ Hb _ _ Hp) as (_ & _ & Hx).
Qed.

End RailFacts.
