(* ===== verification/RailVault.v ===== *)
(** The rail's kill switch and its disputes (Rail.v): a token that was deleted is
    never charged again, whatever requests run at the same time; a dispute is
    decided by the evidence, once. *)
From S2P Require Import Prelude PyTime Decimal Sha256 Base64 Json JsonParse Models JsonLogic Canonical Jose Prog RappiClient AgentRules SdJwt SdJwtFacts Rail RailFacts.

Section Deleted.
Context `{JwkLibrary}.
Variables (ulid : nat -> string) (utc monotonic : nat -> Z) (get_jwks : nat -> res pyval) (get_status : nat -> string -> res (Z * pyval)).
Variables (jwks_cache_seconds : Z) (approval_base_url : string).
Variable token : string.

Definition deleted (s : rail) : Prop := exists row, payment_tokens (tables s) !! token = Some row /\ to_status row = "deleted"%string.

(** The token stays deleted, and no payment of it is added. *)
Definition spares (s s' : rail) : Prop :=
  (deleted s -> deleted s') /\
  forall payment_id row, payments (tables s') !! payment_id = Some row -> payments (tables s) !! payment_id = Some row \/ pay_token_id row <> token.

#[export] Instance spares_preorder : PreOrder spares.
Proof using Type.
  split; [by intros s; split; [|left]|]. intros a b c [D1 P1] [D2 P2]. split; [auto|]. intros k row Hrow. destruct (P2 _ _ Hrow) as [Hb|]; [by apply P1|by right].
Qed.

Lemma spares_same s s' : payment_tokens (tables s') = payment_tokens (tables s) -> payments (tables s') = payments (tables s) -> spares s s'.
Proof using Type. intros Ht Hp. unfold spares, deleted. rewrite Ht, Hp. split; [done|by left]. Qed.

Definition still {A} (m : st rail A) : Prop := forall s, payments (tables (m s).2) = payments (tables s) /\ (deleted s -> deleted (m s).2).

Lemma still_does {A} (m : st rail A) : still m -> does spares (atomic m).
Proof using Type. intros Hm. apply does_atomic. intros s. destruct (Hm s) as [Hp Hd]. split; [done|]. rewrite Hp. by left. Qed.
Lemma still_transaction {A} (m : st rail A) : still m -> still (in_transaction m).
Proof using Type. intros Hm s. unfold in_transaction. destruct (Hm s) as [? ?]. by destruct (m s) as [[a|e] s']. Qed.
Lemma still_bind {A B} (m : st rail A) (f : A -> st rail B) : still m -> (forall a, still (f a)) -> still (sbind m f).
Proof using Type.
  intros Hm Hf s. unfold sbind. destruct (Hm s) as [H1 H2]. destruct (m s) as [[a|e] s']; cbn in *; [|done].
  destruct (Hf a s') as [E1 E2]. rewrite E1. auto.
Qed.
Lemma still_same {A} (m : st rail A) : (forall s, tables (m s).2 = tables s) -> still m.
Proof using Type. intros Hm s. unfold deleted. by rewrite Hm. Qed.
Lemma still_insert {V} (view : books -> gmap string V) update key row : (forall m b, payment_tokens (update m b) = payment_tokens b /\ payments (update m b) = payments b) ->
  still (insert_row view update key row).
Proof using Type. intros Hu s. unfold insert_row, deleted. destruct (view (tables s) !! key); cbn; [done|]. by destruct (Hu (<[key:=row]> (view (tables s))) (tables s)) as [-> ->]. Qed.
Lemma still_update {V} (view : books -> gmap string V) update key guard f : (forall m b, payment_tokens (update m b) = payment_tokens b /\ payments (update m b) = payments b) ->
  still (update_row view update key guard f).
Proof using Type.
  intros Hu s. unfold update_row, deleted. destruct (view (tables s) !! key) as [row|]; cbn; [|done]. destruct (guard row); cbn; [|done].
  by destruct (Hu (<[key:=f row]> (view (tables s))) (tables s)) as [-> ->].
Qed.
Lemma still_new_token key row : still (insert_row payment_tokens set_payment_tokens key row).
Proof using Type.
  intros s. unfold insert_row, deleted. destruct (payment_tokens (tables s) !! key) eqn:E; cbn; [done|]. split; [done|].
  intros (row' & Hr & Hs). exists row'. rewrite lookup_insert_ne; [done|congruence].
Qed.
Lemma still_delete key at_ : still (update_row payment_tokens set_payment_tokens key (fun row => String.eqb (to_status row) "active") (with_token_status "deleted" at_)).
Proof using Type.
  intros s. unfold update_row, deleted. destruct (payment_tokens (tables s) !! key) as [row|] eqn:E; cbn; [|done]. destruct (String.eqb _ _); cbn; [|done]. split; [done|].
  intros (row' & Hr & Hs). destruct (decide (key = token)) as [->|Hne]; [rewrite lookup_insert_eq; by eexists|]. rewrite lookup_insert_ne by done. by exists row'.
Qed.
Lemma still_draw {A} (f : nat -> A) : still (n <- draw ;; ret (f n)).
Proof using Type. by apply still_same. Qed.

Lemma select_uncharged {A} (f : books -> A) : does spares (select f).
Proof using Type. by apply still_does, still_same. Qed.
Lemma conflict_uncharged {A} e (p : prog rail A) : does spares p -> does spares (conflict_on e p).
Proof using Type. intros Hp. apply does_catch; [done|]. intros e'. by destruct (decide (e' = e)). Qed.

Abbreviation serve := (serve ulid utc monotonic get_jwks get_status jwks_cache_seconds approval_base_url).
Abbreviation capture := (capture ulid utc monotonic get_jwks get_status jwks_cache_seconds).

(** Every request but a charge. *)
Lemma others_uncharged r : (forall body key, r <> CreatePayment body key) -> does spares (serve r).
Proof using Type.
  destruct r; cbn [RailFacts.serve]; intros Hr; try (apply does_bind; [|done]).
  - apply still_does, still_transaction. apply still_bind; [apply still_draw|]. intros. apply still_bind; [apply still_draw|]. intros.
    apply still_bind; [by apply still_insert|]. intros. by apply still_same.
  - apply conflict_uncharged, does_bind; [by apply still_does, still_update|by intros []].
  - apply conflict_uncharged, does_bind; [apply select_uncharged|]. intros [row|]; [|done]. destruct (String.eqb _ "exchanged"); [done|].
    destruct (String.eqb _ _); [|done]. apply does_bind; [apply still_does, still_draw|]. intros moment. destruct (_ <? _); [done|].
    apply still_does, still_transaction. apply still_bind; [apply still_draw|]. intros. apply still_bind; [apply still_new_token|]. intros.
    apply still_bind; [by apply still_update|]. intros. by apply still_same.
  - unfold delete_token_endpoint. apply does_bind; [apply still_does, still_bind; [apply still_draw|intros; apply still_delete]|]. intros del.
    apply does_bind; [destruct del; [done|apply select_uncharged]|]. by intros [].
  - by destruct (Hr body idempotency_key).
  - apply conflict_uncharged, does_bind; [apply select_uncharged|]. intros [payment|]; [|done]. destruct (String.eqb _ _); [|done].
    apply still_does, still_transaction. apply still_bind; [apply still_draw|]. intros. apply still_bind; [by apply still_insert|]. intros. by apply still_same.
  - apply conflict_uncharged, does_bind; [apply select_uncharged|]. intros [dispute|]; [|done]. destruct (String.eqb _ _); [|done].
    apply does_bind; [apply select_uncharged|]. intros. apply still_does, still_bind; [apply still_draw|]. intros. apply still_bind; [by apply still_update|]. intros. by apply still_same.
Qed.

Lemma verify_uncharged mandate_sd_jwt checkout_jwt amount currency : does spares (verify_payment utc monotonic get_jwks get_status jwks_cache_seconds mandate_sd_jwt checkout_jwt amount currency).
Proof using Type.
  unfold verify_payment. destruct (or_str mandate_sd_jwt None) as [presented|]; [|done]. apply does_bind.
  - apply does_catch; [|done]. apply does_bind; [|done]. unfold keys. apply does_bind; [by apply still_does, still_same|]. intros [ks|]; [done|].
    apply does_bind; [apply still_does, still_same; intros s; by destruct (get_jwks (drawn s))|]. intros document. apply does_plift. intros ks _. by apply still_does, still_same.
  - intros [ks|]; [|done]. apply does_bind; [apply still_does, still_draw|]. intros moment. destruct (SdJwt.verify _ _ _ _ _ _) as [claims|e]; [|by destruct (sdjwt_reason e)].
    apply does_plift. intros binding _. destruct (vr_ok binding); [|done]. apply does_bind; [apply still_does, still_draw|]. by intros [[]|].
Qed.

Lemma refuse_uncharged token_id amount currency reason intent_ref mandate_jti hash : does spares (refuse ulid token_id amount currency reason intent_ref mandate_jti hash).
Proof using Type.
  apply still_does, still_same. intros s. unfold in_transaction, _record_refusal, sbind, insert_row, raise, lift. cbn.
  destruct (numeric_12_2 amount); cbn; [|done]. destruct (text_column _); cbn; [|done]. by destruct (payments _ !! _).
Qed.

Lemma settle_uncharged payment_id key purchase_id token_id currency intent_ref amount captured_at jti hash s : token_id <> token ->
  spares s (settle payment_id key purchase_id token_id currency intent_ref amount captured_at jti hash s).2.
Proof using Type.
  intros Hne. unfold settle, in_transaction, sbind, lift, insert_row. destruct (numeric_12_2 amount) as [stored|]; cbn; [|by apply spares_same].
  destruct (text_column jti) as [text|]; cbn; [|by apply spares_same]. destruct (payments (tables s) !! payment_id); cbn; [by apply spares_same|].
  destruct (idempotency (tables s) !! key); cbn; [by apply spares_same|]. split; [done|]. cbn. intros k row.
  destruct (decide (k = payment_id)) as [->|]; [rewrite lookup_insert_eq; intros [= <-]; by right|]. rewrite lookup_insert_ne by done. by left.
Qed.

Abbreviation spared := (fun p => triple spares spares deleted p (fun _ => deleted)).

Lemma spared_does {A} (p : prog rail A) : does spares p -> spared p.
Proof using Type. intros Hp s Hs. apply (does_rg _ spares p s deleted); [done| |done|done|done]. intros x y [Hd _]. exact Hd. Qed.
Lemma spared_bind {A B} (m : prog rail A) (f : A -> prog rail B) : spared m -> (forall a, spared (f a)) -> spared (pbind m f).
Proof using Type. intros Hm Hf. eapply triple_bind; [apply _|exact Hm|exact Hf|done]. Qed.

Lemma capture_spared token_id amount currency key intent_ref purchase_id mandate_sd_jwt checkout_jwt :
  spared (capture token_id amount currency key intent_ref purchase_id mandate_sd_jwt checkout_jwt).
Proof using Type.
  unfold Rail.capture. apply spared_bind; [apply spared_does, select_uncharged|]. intros [row|]; [apply spared_does; by destruct (replayed _)|].
  eapply (triple_bind _ _ _ _ _ (fun r s => deleted s /\ (token_id = token -> r = Ok None))); [| |by intros e s [Hs _]].
  { apply triple_atomic; [intros s s' [Hd _]; exact Hd|]. intros s Hs. split; [reflexivity|]. intros s' [Hd _]. split; [by apply Hd|].
    intros ->. destruct Hs as (row & Hr & Hst). cbn. by rewrite Hr, Hst. }
  intros [row|] s [Hs Hrow].
  - assert (token_id <> token) as Hne by (intros ->; by specialize (Hrow eq_refl)). revert s Hs Hrow. intros s Hs _. revert s Hs.
    apply spared_does, does_bind; [apply verify_uncharged|]. intros verdict. destruct (vr_ok verdict); cbn [negb]; [|apply refuse_uncharged].
    apply does_bind; [apply still_does, still_draw|]. intros payment_id. apply does_bind; [apply still_does, still_draw|]. intros captured_at.
    apply does_catch; [apply does_atomic; intros s; by apply settle_uncharged|]. intros [] ; try done. apply does_bind; [apply select_uncharged|]. intros [w|]; [|done]. by destruct (replayed _).
  - revert s Hs Hrow. intros s Hs _. revert s Hs. apply spared_does, does_bind; [apply select_uncharged|]. intros. apply refuse_uncharged.
Qed.

Lemma serve_spared r : spared (serve r).
Proof using Type.
  destruct r; try (apply spared_does, others_uncharged; done). cbn [RailFacts.serve]. unfold create_payment. apply spared_bind; [apply spared_does; by destruct (decimal_of_string _) as [|[]]|].
  intros amount. apply spared_bind; [apply capture_spared|]. intros. by apply spared_does.
Qed.

Lemma schedule_uncharged requests schedule s : deleted s -> spares s (interleave schedule (map serve requests) s).2.
Proof using Type.
  intros Hs. set (Q (i : nat) (r : res pydict) (x : rail) := deleted x).
  assert (HI : forall x, deleted x /\ spares s x -> forall y, spares x y -> deleted y /\ spares s y).
  { intros x [Hx Hsx] y Hxy. split; [by apply Hxy|]. by transitivity x. }
  assert (Hpool : pool_ok (fun _ => spares) (fun _ => spares) Q (fun x => deleted x /\ spares s x) (length (map serve requests)) (map serve requests) s).
  { split; [done|]. split; [done|]. intros i p Hp. rewrite list_lookup_fmap in Hp. destruct (requests !! i) as [r|]; [|done]. injection Hp as <-. by apply serve_spared. }
  eapply (pool_interleave (fun _ => spares) (fun _ => spares)) in Hpool as (_ & HIs & _); [by apply HIs|done|].
  intros i x y _ Hx Hxy. by eapply HI.
Qed.

(** A DELETE that answered leaves its token deleted. *)
Lemma delete_answers s answer : (forall row, payment_tokens (tables s) !! token = Some row -> to_status row = "active"%string \/ to_status row = "deleted"%string) ->
  (run_prog (delete_token_endpoint utc token) s).1 = Ok answer -> deleted (run_prog (delete_token_endpoint utc token) s).2.
Proof using Type.
  intros Hty. unfold delete_token_endpoint, delete_token. cbn. unfold update_row, deleted. cbn. destruct (payment_tokens (tables s) !! token) as [row|] eqn:E; cbn; [|by rewrite E].
  destruct (String.eqb_spec (to_status row) "active") as [Ha|Ha]; cbn; [intros _; rewrite lookup_insert_eq; by eexists|]. rewrite E. cbn. rewrite E. intros _. exists row.
  split; [done|]. by destruct (Hty row eq_refl).
Qed.

(** C20: Once a DELETE has answered, its token stays deleted and no payment of it is
    added, whatever requests arrive afterwards and however they interleave. *)
Theorem deleted_token_never_charged requests schedule s0 answer :
  (forall row, payment_tokens (tables s0) !! token = Some row -> to_status row = "active"%string \/ to_status row = "deleted"%string) ->
  (run_prog (delete_token_endpoint utc token) s0).1 = Ok answer ->
  let s := (run_prog (delete_token_endpoint utc token) s0).2 in
  let s' := (interleave schedule (map serve requests) s).2 in
  deleted s' /\ forall payment_id row, payments (tables s') !! payment_id = Some row -> pay_token_id row = token -> payments (tables s0) !! payment_id = Some row.
Proof using Type.
  intros Hty Hans s s'. pose proof (delete_answers s0 answer Hty Hans) as Hd. fold s in Hd. destruct (schedule_uncharged requests schedule s Hd) as [H1 H2]. split; [by apply H1|].
  intros payment_id row Hrow Htok. destruct (H2 _ _ Hrow) as [Hs|]; [|done]. assert (does (fun x y : rail => payments (tables y) = payments (tables x)) (delete_token_endpoint utc token)) as Hsame.
  { unfold delete_token_endpoint, delete_token. cbn. split; [|intros [[]|]; [done| |done]; split; [done|by intros [[]|]]]. intros x. unfold update_row. cbn.
    destruct (payment_tokens (tables x) !! token) as [r|]; cbn; [|done]. by destruct (String.eqb _ _). }
  apply (does_run _ _ s0) in Hsame; [|split; [by intros x|intros x y z; congruence]]. fold s in Hsame. by rewrite Hsame in Hs.
Qed.
End Deleted.

(** ** Disputes *)

Section Disputes.
Context `{JwkLibrary}.
Variables (utc : nat -> Z).

(** The seller's chain is unbroken: a mandate, an intent, the cart that was charged
    (any cart, when the payment names none), and a receipt where a human was asked. *)
Definition defensible (payment : option PaymentRow) (evidence : pydict) : Prop :=
  truthy (evidence_get evidence "mandate_sd_jwt") = true /\ truthy (evidence_get evidence "intent_jwt") = true /\
  match or_str (payment ≫= pay_checkout_hash) None with
  | Some charged => py_eq (evidence_get evidence "checkout_hash") (VStr charged) = true
  | None => truthy (evidence_get evidence "checkout_hash") = true
  end /\
  (truthy (evidence_get evidence "escalated") = true -> truthy (evidence_get evidence "approval_receipt_sig") = true).

Lemma weaknesses_exact payment evidence : weaknesses payment evidence = [] <-> defensible payment evidence.
Proof.
  unfold weaknesses, defensible. destruct (truthy (evidence_get evidence "mandate_sd_jwt")), (truthy (evidence_get evidence "intent_jwt")); try by split; [|intros (? & ? & _)].
  destruct (truthy (evidence_get evidence "escalated")), (truthy (evidence_get evidence "approval_receipt_sig")); cbn [negb andb app];
    (destruct (or_str (payment ≫= pay_checkout_hash) None) as [charged|];
     [destruct (py_eq (evidence_get evidence "checkout_hash") (VStr charged))|destruct (truthy (evidence_get evidence "checkout_hash"))]); naive_solver.
Qed.

(** An open dispute is resolved for the seller exactly when the evidence is an
    unbroken chain and for the buyer otherwise, with its findings; nothing else
    changes, and it is resolved once: a later request is answered 409 and changes
    nothing. *)
Theorem adjudication_exact dispute_id evidence row s : disputes (tables s) !! dispute_id = Some row -> dis_status row = "open"%string ->
  let payment := payments (tables s) !! dis_payment_id row in
  let out := run_prog (adjudicate_endpoint utc dispute_id evidence) s in
  exists after, out.1 = Ok (dispute_view dispute_id after) /\
    tables out.2 = set_disputes (<[dispute_id := after]> (disputes (tables s))) (tables s) /\
    dis_payment_id after = dis_payment_id row /\ dis_status after = "resolved"%string /\
    (dis_outcome after = Some SELLER_FAVOR <-> defensible payment evidence) /\
    (dis_outcome after = Some BUYER_FAVOR <-> ~ defensible payment evidence) /\
    (exists finding findings, assoc "findings" (override (dis_evidence after) []) = Some (VList (VStr finding :: findings))) /\
    forall evidence', run_prog (adjudicate_endpoint utc dispute_id evidence') out.2 = (Raise (HTTPException 409), out.2).
Proof.
  intros Hrow Hopen payment out. set (after := resolved_dispute payment evidence (utc (drawn s)) row).
  assert (Hout : out = (Ok (dispute_view dispute_id after), set_tables (set_disputes (<[dispute_id := after]> (disputes (tables s))) (tables s))
    {| tables := tables s; jwks_cache := jwks_cache s; fetched_at := fetched_at s; drawn := S (drawn s) |})).
  { unfold out, adjudicate_endpoint, conflict_on, adjudicate. cbn. rewrite Hrow. cbn. rewrite Hopen. cbn. unfold update_row, sbind. cbn. rewrite Hrow. done. }
  exists after. rewrite Hout. cbn [fst snd]. split; [done|]. split; [done|]. split; [done|]. split; [done|].
  assert (Hcase : dis_outcome after = Some (match weaknesses payment evidence with [] => SELLER_FAVOR | _ => BUYER_FAVOR end)) by done.
  rewrite Hcase, <- weaknesses_exact. split_and!.
  - by destruct (weaknesses payment evidence).
  - by destruct (weaknesses payment evidence).
  - unfold after, resolved_dispute. cbn. rewrite assoc_dict_set. cbn. destruct (weaknesses payment evidence) as [|f fs]; by eexists _, _.
  - intros evidence'. unfold adjudicate_endpoint, conflict_on, adjudicate. cbn. by rewrite lookup_insert_eq.
Qed.
End Disputes.

(** What the rail answers to a mandate the issuer signed and to a cart the
    merchant signed: SdJwt.v and Rail.v composed. *)

Section RailMandate.
Context `{JwkLibrary}.
Variables (ulid : nat -> string) (utc monotonic : nat -> Z) (get_jwks : nat -> res pyval) (get_status : nat -> string -> res (Z * pyval)).
Variables (jwks_cache_seconds : Z).
Abbreviation verify_payment := (verify_payment utc monotonic get_jwks get_status jwks_cache_seconds).

(** The issuer's keys are at hand, and not stale. *)
Definition cached (keys : list (string * Key)) (s : rail) : Prop :=
  jwks_cache s = Some keys /\ monotonic (drawn s) - fetched_at s <= jwks_cache_seconds * 1000000.

(** The verdict by the decision table of the verifier. *)
Definition verdict (nbf exp now : Z) (jti : string) (binding : VerificationResult) (status : option MandateStatus) : VerificationResult :=
  if exp <? now then refused MANDATE_EXPIRED
  else if now <? nbf then refused MANDATE_NOT_YET_VALID
  else if negb (vr_ok binding) then binding
  else match status with
       | None => refused RAIL_ERROR
       | Some ACTIVE => accepted (VStr jti) (vr_checkout_hash binding)
       | Some REVOKED => refused MANDATE_REVOKED
       | Some EXPIRED => refused MANDATE_EXPIRED
       | Some EXHAUSTED => refused MANDATE_EXHAUSTED
       | Some _ => refused MANDATE_SUSPENDED
       end.

Lemma verdict_of_claims presented keys claims s checkout_jwt amount currency binding nbf exp jti : cached keys s -> truthy_str presented = true ->
  (forall now, SdJwt.verify presented keys None None false now = if exp <? now then Raise Expired else if now <? nbf then Raise NotYetValid else Ok claims) ->
  assoc "jti" claims = Some (VStr jti) -> _check_checkout checkout_jwt keys amount currency = Ok binding ->
  (run_prog (verify_payment (Some presented) checkout_jwt amount currency) s).1
  = Ok (verdict nbf exp (unix_seconds (utc (S (drawn s)))) jti binding (status_answer (get_status (S (S (drawn s))) jti))).
Proof.
  intros [Hc Hfresh%Z.ltb_ge] Ht Hv Hjti Hb. unfold Rail.verify_payment, or_str, Rail.keys. rewrite Ht. cbn. rewrite Hc, Hfresh. cbn. rewrite Hv. unfold verdict.
  destruct (exp <? _); [done|]. destruct (_ <? nbf); [done|]. rewrite Hb, Hjti. cbn. destruct (vr_ok binding); cbn; [|done].
  by destruct (status_answer _) as [[]|].
Qed.

Lemma py_eq_int a b : py_eq (VInt a) (VInt b) = (a =? b).
Proof.
  cbn. unfold deq, decimal_of_int, dcompare. change (Z.min 0 0) with 0. change (10 ^ (0 - 0)) with 1. rewrite !Z.mul_1_r.
  assert (forall z, signed (z <? 0) (Z.abs z) = z) as Hs by (intros z; unfold signed; destruct (Z.ltb_spec z 0); lia).
  rewrite !Hs. destruct (Z.compare_spec a b), (Z.eqb_spec a b); done || lia.
Qed.

(** A cart: its total in minor units, and its currency, under the merchant's key. *)
Lemma cart_signed order_id merchant_id merchant_name merchant_website line_items price units currency shipping_policy return_policy payload key kid keys :
  build_checkout_payload order_id merchant_id merchant_name merchant_website line_items price currency shipping_policy return_policy = Ok payload ->
  to_minor_units price = Ok units -> Z.abs units < 2 ^ 53 -> signable (VList line_items) = true ->
  kty key = "OKP"%string \/ kty key = "EC"%string -> truthy_str kid = true -> ascii_only kid = true -> assoc kid keys = Some (public key) ->
  exists jwt hash, sign_compact (VDict payload) key (Some kid) (Some "JWT"%string) = Ok jwt /\ truthy_str jwt = true /\ checkout_hash jwt = Ok hash /\
    forall amount charged currency', to_minor_units amount = Ok charged ->
      _check_checkout (Some jwt) keys amount currency' = Ok (if (units =? charged) && String.eqb currency currency' then accepted VNone (Some hash) else refused CONDITION_FAILED).
Proof.
  unfold build_checkout_payload. intros Hp Hu Hb%Z.ltb_lt Hl Hkty Hk Hak Hkeys. rewrite Hu in Hp. injection Hp as <-.
  set (payload := [_; _; _; _; _; _; _]). assert (Hs : signable (VDict payload) = true).
  { apply signable_dict. split; [apply (bool_decide_unpack _); reflexivity|]. unfold payload. repeat (apply Forall_cons; split; [try done|]); try done. }
  destruct (sign_opens (VDict payload) key (Some kid) (Some "JWT"%string) Hkty Hs) as (jwt & v & Hsign & (Hfree & Hascii & Htruthy) & Hread & Hv).
  destruct (compact_reads _ _ _ _ _ Hsign Hk eq_refl Hak eq_refl) as [[alg Hhead] _].
  destruct (alike_of v _ Hv Hs) as (kvs & -> & Ha). assert (Hopen : verify_compact jwt (public key) = Ok (VDict kvs)).
  { specialize (Hread ValueError). unfold checked_payload in Hread. destruct (verify_compact jwt (public key)) as [x|e]; [congruence|]. by destruct (signature_error e). }
  exists jwt, (b64u_encode (sha256_raw jwt)). split; [done|]. split; [done|]. assert (Hh : checkout_hash jwt = Ok (b64u_encode (sha256_raw jwt))) by (unfold checkout_hash, _digest; by rewrite Hascii).
  split; [done|]. intros amount charged currency' Hc. unfold _check_checkout, or_str. rewrite Htruthy. unfold signed_checkout, _kid_of. rewrite Hhead. cbn [rbind py_get assoc override String.eqb Ascii.eqb Bool.eqb keys_get].
  rewrite Hkeys. cbn [rbind]. rewrite Hopen. cbn [rbind py_get].
  rewrite (alike_int "total_price" units kvs payload Ha eq_refl), (alike_str "currency" currency kvs payload Ha eq_refl). cbn [override rbind]. rewrite Hc. cbn [rbind]. rewrite py_eq_int.
  destruct (units =? charged); cbn; [|done]. destruct (String.eqb currency currency'); cbn; [|done]. by rewrite Hh.
Qed.

(** The issuer's part of a presentation opens under the published key it names, or
    under the first one when it names none. *)
Definition issuer_part (presented : string) : string := (_split presented).1.1.
Definition issuer_opens (keys : list (string * Key)) (presented : string) : Prop := exists header kid key claims,
  peek_header (issuer_part presented) = Ok header /\ py_get header "kid" = Ok kid /\ key_for keys kid = Ok (Some key) /\
  verify_compact (issuer_part presented) key = Ok claims.
(** Its header reads, and no key is published under the id, or the key denies the
    signature. *)
Definition issuer_forged (keys : list (string * Key)) (presented : string) : Prop := exists header kid found,
  peek_header (issuer_part presented) = Ok header /\ py_get header "kid" = Ok kid /\ key_for keys kid = Ok found /\
  match found with Some key => exists e, verify_compact (issuer_part presented) key = Raise e /\ signature_error e = true | None => True end.
Definition cart_opens (keys : list (string * Key)) (cart : string) : Prop := exists header kid key checkout,
  peek_header cart = Ok header /\ py_get header "kid" = Ok kid /\ keys_get keys kid = Ok (Some key) /\ verify_compact cart key = Ok checkout.

Lemma accepted_opens keys presented nonce aud required now claims : SdJwt.verify presented keys nonce aud required now = Ok claims -> issuer_opens keys presented.
Proof.
  unfold SdJwt.verify, issuer_opens, issuer_part. destruct (_split presented) as [[issuer_jwt disclosures] kb]. cbn [fst].
  destruct (peek_header issuer_jwt) as [header|]; [|done]. cbn [rbind]. destruct (py_get header "kid") as [kid|] eqn:Ek; [|done]. cbn [rbind].
  destruct (key_for keys kid) as [[key|]|] eqn:Ekey; [|done..]. cbn [rbind]. unfold checked_payload. destruct (verify_compact issuer_jwt key) as [v|e] eqn:Ev; [|by destruct (signature_error e)].
  intros _. by exists header, kid, key, v.
Qed.
Lemma verify_forged keys presented now : issuer_forged keys presented -> SdJwt.verify presented keys None None false now = Raise SDJWT_InvalidSignature.
Proof.
  unfold SdJwt.verify, issuer_forged, issuer_part. destruct (_split presented) as [[issuer_jwt disclosures] kb]. cbn [fst].
  intros (header & kid & found & -> & Hk & Hf & He). cbn [rbind]. rewrite Hk. cbn [rbind]. rewrite Hf. cbn [rbind]. destruct found as [key|]; [|done].
  destruct He as (e & He & Hs). unfold checked_payload. by rewrite He, Hs.
Qed.
Lemma cart_unopened keys cart amount currency : truthy_str cart = true -> ~ cart_opens keys cart -> _check_checkout (Some cart) keys amount currency = Ok (refused INVALID_SIGNATURE).
Proof.
  intros Ht Hno. unfold _check_checkout, or_str. rewrite Ht. destruct (signed_checkout cart keys) as [[checkout|]|] eqn:E; [|done..]. destruct Hno.
  unfold signed_checkout, _kid_of in E. destruct (peek_header cart) as [header|] eqn:Eh; [|done]. cbn [rbind] in E.
  destruct (py_get header "kid") as [kid|] eqn:Ek; [|done]. cbn [rbind] in E. destruct (keys_get keys kid) as [[key|]|] eqn:Ekey; [|done..]. cbn [rbind] in E.
  destruct (verify_compact cart key) as [v|] eqn:Ev; [|done]. by exists header, kid, key, v.
Qed.

(** What is presented to the rail without the issuer's signature. *)
Lemma unsigned_refused keys cart amount currency s : cached keys s ->
  (run_prog (verify_payment None cart amount currency) s).1 = Ok (refused INVALID_SIGNATURE) /\
  forall presented, truthy_str presented = true ->
    (issuer_forged keys presented -> (run_prog (verify_payment (Some presented) cart amount currency) s).1 = Ok (refused INVALID_SIGNATURE)) /\
    (~ issuer_opens keys presented -> forall v, (run_prog (verify_payment (Some presented) cart amount currency) s).1 = Ok v -> vr_ok v = false).
Proof.
  intros [Hc Hfresh%Z.ltb_ge]. split; [done|]. intros presented Ht. unfold Rail.verify_payment, or_str, Rail.keys. rewrite Ht. cbn. rewrite Hc, Hfresh. cbn. split.
  - intros Hf. by rewrite verify_forged.
  - intros Hno v. destruct (SdJwt.verify _ _ _ _ _ _) as [claims|e] eqn:E; [by apply accepted_opens in E|]. destruct (sdjwt_reason e); cbn; [by intros [= <-]|done].
Qed.

(** C18: The rail's verdict, the issuer's keys being at hand.  Without a mandate, or
    with one whose signature the published keys deny, it is a refusal for the
    signature, and no mandate that does not open under a published key is
    accepted, whatever the cart.  For a mandate of the issuer, presented with or
    without the holder's binding, the verdict is the decision table: the window;
    then the cart, which passes when there is none or when the merchant signed it
    for the amount in minor units and the currency, and is a refusal for the
    signature when it opens under no published key; then the issuer's word on the
    mandate at that moment. *)
Theorem mandate_verdict_exact claims selective key holder kid keys nbf exp salts nonce aud bound_at jti
    order_id merchant_id merchant_name merchant_website line_items price units currency shipping_policy return_policy payload mkey mkid :
  presentable claims selective key holder kid keys nbf exp -> Z.abs bound_at < 2 ^ 53 -> assoc "jti" (dict_update claims selective) = Some (VStr jti) ->
  build_checkout_payload order_id merchant_id merchant_name merchant_website line_items price currency shipping_policy return_policy = Ok payload ->
  to_minor_units price = Ok units -> Z.abs units < 2 ^ 53 -> signable (VList line_items) = true ->
  kty mkey = "OKP"%string \/ kty mkey = "EC"%string -> truthy_str mkid = true -> ascii_only mkid = true -> assoc mkid keys = Some (public mkey) ->
  (forall s cart amount currency', cached keys s ->
    (run_prog (verify_payment None cart amount currency') s).1 = Ok (refused INVALID_SIGNATURE) /\
    forall presented, truthy_str presented = true ->
      (issuer_forged keys presented -> (run_prog (verify_payment (Some presented) cart amount currency') s).1 = Ok (refused INVALID_SIGNATURE)) /\
      (~ issuer_opens keys presented -> forall v, (run_prog (verify_payment (Some presented) cart amount currency') s).1 = Ok v -> vr_ok v = false)) /\
  exists sd_jwt presentation jwt hash,
    issue salts claims key kid selective = Ok sd_jwt /\ attach_key_binding sd_jwt holder nonce aud bound_at = Ok presentation /\
    sign_compact (VDict payload) mkey (Some mkid) (Some "JWT"%string) = Ok jwt /\ checkout_hash jwt = Ok hash /\
    forall presented s amount charged currency', presented = sd_jwt \/ presented = presentation -> cached keys s -> to_minor_units amount = Ok charged ->
      let now := unix_seconds (utc (S (drawn s))) in
      let status := status_answer (get_status (S (S (drawn s))) jti) in
      let cart := if (units =? charged) && String.eqb currency currency' then accepted VNone (Some hash) else refused CONDITION_FAILED in
      (run_prog (verify_payment (Some presented) (Some jwt) amount currency') s).1 = Ok (verdict nbf exp now jti cart status) /\
      (run_prog (verify_payment (Some presented) None amount currency') s).1 = Ok (verdict nbf exp now jti (accepted VNone None) status) /\
      forall forged, truthy_str forged = true -> ~ cart_opens keys forged ->
        (run_prog (verify_payment (Some presented) (Some forged) amount currency') s).1 = Ok (verdict nbf exp now jti (refused INVALID_SIGNATURE) status).
Proof.
  intros Hp Hb Hjti Hpay Hu Hub Hl Hkty Hk Hak Hkeys. split; [intros s cart amount currency' Hs; by apply unsigned_refused|]. destruct (bound_and_unbound _ _ _ _ _ _ _ _ salts nonce aud bound_at Hp Hb)
    as (sd_jwt & presentation & result & Hissue & Hbind & Ht1 & Ht2 & Hv1 & Hv2 & Hclaims).
  destruct (cart_signed _ _ _ _ _ _ _ _ _ _ _ _ _ _ Hpay Hu Hub Hl Hkty Hk Hak Hkeys) as (jwt & hash & Hsign & Hjwt & Hhash & Hcart).
  exists sd_jwt, presentation, jwt, hash. split_and!; [done..|]. intros presented s amount charged currency' Hpres Hs Hc now status cart.
  assert (Hres : assoc "jti" result = Some (VStr jti)).
  { specialize (Hclaims "jti"%string). rewrite Hjti in Hclaims. destruct (assoc "jti" result) as [v|]; [|by specialize (Hclaims ltac:(done) ltac:(done))].
    specialize (Hclaims ltac:(done) ltac:(done)). cbn in Hclaims. by injection Hclaims as ->%sorted_str. }
  assert (Hpt : truthy_str presented = true) by by destruct Hpres as [-> | ->].
  assert (Hpv : forall now, SdJwt.verify presented keys None None false now = if exp <? now then Raise Expired else if now <? nbf then Raise NotYetValid else Ok result)
    by (intros t; destruct Hpres as [-> | ->]; [apply Hv1|apply Hv2]).
  split; [|split; [|intros forged Ht Hno]]; (eapply verdict_of_claims; [exact Hs|exact Hpt|exact Hpv|exact Hres|]); [by apply Hcart|done|by apply cart_unopened].
Qed.
End RailMandate.
