(* ===== verification/RailDemo.v ===== *)
(** The rail at work: instances of the theorems of RailFacts.v and RailVault.v,
    and what the rail does not check. *)
From S2P Require Import Prelude PyTime Decimal Sha256 Base64 Json JsonParse Models JsonLogic Canonical Jose Prog RappiClient AgentRules SdJwt SdJwtFacts Rail RailFacts RailVault.

(** ** A rail with one token, and an issuer that calls every mandate active *)

Definition demo_ulid (n : nat) : string := int_str (Z.of_nat n).
Definition demo_utc (n : nat) : Z := seconds 150.
Definition demo_monotonic (n : nat) : Z := 0.
Definition demo_document : pyval :=
  VDict [("keys", VList [VDict (("kid", VStr "v1") :: mark_export "issuer"); VDict (("kid", VStr "m1") :: mark_export "shop")])]%string.
Definition demo_jwks (n : nat) : res pyval := Ok demo_document.
Definition demo_status (n : nat) (jti : string) : res (Z * pyval) := Ok (200, VDict [("status", VStr "active")])%string.

Definition rail_keys : list (string * Key) := [("v1"%string, mark_key "issuer"); ("m1"%string, mark_key "shop")].

Definition demo_token : PaymentTokenRow :=
  {| to_setup_token_id := Some "yst_1"; to_mandate_id := "mdt_1"; to_status := "active"; to_instrument_label := None; to_deleted_at := None |}%string.
Definition demo_setup : SetupTokenRow := {| su_mandate_id := "mdt_1"; su_status := "approved"; su_approve_url := "u"; su_expires_at := seconds 1000 |}%string.
Definition demo_rail : rail :=
  {| tables := {| setup_tokens := {["yst_1"%string := demo_setup]}; payment_tokens := {["ynt_1"%string := demo_token]};
                  payments := ∅; idempotency := ∅; disputes := ∅ |};
     jwks_cache := None; fetched_at := 0; drawn := 0 |}.

Lemma demo_rail_ok : rail_ok demo_utc demo_jwks demo_status demo_rail.
Proof. split; [|done]. split; intros *; cbn; rewrite !lookup_empty; done. Qed.

(** Another mandate than the token's. *)
Definition rail_claims : pydict :=
  [("iss", VStr "trystrus"); ("jti", VStr "mdt_2"); ("nbf", VInt 100); ("exp", VInt 200);
   ("cnf", VDict [("jwk", VDict (mark_export "agent"))])]%string.
Definition ok_text (r : res string) : string := match r with Ok s => s | Raise _ => EmptyString end.
Definition rail_mandate : string := Eval vm_compute in ok_text (issue (fun _ => "salt"%string) rail_claims (mark_key "issuer") "v1" []).

Definition charge_request (token amount : string) (checkout_jwt : option string) : CaptureRequest :=
  {| cr_token_id := token; cr_amount := amount; cr_currency := "USD"; cr_intent_ref := "int_1"; cr_purchase_id := None;
     cr_mandate_sd_jwt := Some rail_mandate; cr_checkout_jwt := checkout_jwt |}.

Abbreviation demo_serve := (serve demo_ulid demo_utc demo_monotonic demo_jwks demo_status 300 "https://rail").
Definition charges : list request := [CreatePayment (charge_request "ynt_1" "130.00" None) "key-1"; CreatePayment (charge_request "ynt_1" "130.00" None) "key-1"]%string.

(** Both look for the key before either settles. *)
Definition charge_schedule : list nat := [0; 1; 0; 1; 0; 0; 0; 0; 0; 0; 0; 0; 1; 1; 1; 1; 1; 1; 1; 1; 1; 1; 1]%nat.
Abbreviation charged := (interleave charge_schedule (map demo_serve charges) demo_rail).

(** The answer of a program that ended. *)
Definition answer {S A} (p : option (prog S A)) : option (res A) := match p with Some (Finish r) => Some r | _ => None end.
Lemma answer_finished {S A} (p : option (prog S A)) r : answer p = Some r -> p = Some (Finish r).
Proof. destruct p as [[r'|]|]; try done. by intros [= ->]. Qed.

Definition demo_receipt : pydict :=
  [("purchase_id", VStr "int_1"); ("capture_id", VStr "ynp_5"); ("amount", VStr "130.00"); ("currency", VStr "USD");
   ("captured_at", VStr "1970-01-01T00:02:30+00:00"); ("mandate_jti", VStr "mdt_2"); ("simulated", VBool true)]%string.

(** Two requests that raced with one key were answered one settlement. *)
Lemma one_settlement_per_key_witness :
  charged.1 !! 0%nat = Some (Finish (Ok demo_receipt)) /\ charged.1 !! 1%nat = Some (Finish (Ok demo_receipt)) /\
  exists payment_id payment, assoc "capture_id" demo_receipt = Some (VStr payment_id) /\ payments (tables charged.2) !! payment_id = Some payment.
Proof.
  assert (charged.1 !! 0%nat = Some (Finish (Ok demo_receipt))) as H0 by (apply answer_finished; vm_compute; reflexivity).
  assert (charged.1 !! 1%nat = Some (Finish (Ok demo_receipt))) as H1 by (apply answer_finished; vm_compute; reflexivity).
  split; [exact H0|]. split; [exact H1|].
  destruct (one_settlement_per_key demo_ulid demo_utc demo_monotonic demo_jwks demo_status 300 "https://rail" charges charge_schedule demo_rail 0 1 _ _ "key-1" demo_receipt demo_receipt
    demo_rail_ok eq_refl H0 eq_refl H1) as (_ & (payment_id & payment & Hid & Hp & _) & _).
  exists payment_id, payment. split; [exact Hid|exact Hp].
Defined.

Definition price (c : Z) : Decimal.dec := DFin false c (-2).
Definition demo_cart : pydict :=
  match build_checkout_payload "ord_1" "vuelaya" "VuelaYa" "https://vuelaya" [] (price 13000) "USD" "none" "none" with Ok p => p | Raise _ => [] end%string.
Definition cart_jwt : string := Eval vm_compute in ok_text (sign_compact (VDict demo_cart) (mark_key "shop") (Some "m1") (Some "JWT"))%string.

(** The cart of 130.00, charged in cents by one request and with half a cent more by
    another. *)
Definition carted : list request := [CreatePayment (charge_request "ynt_1" "130.00" (Some cart_jwt)) "key-1"; CreatePayment (charge_request "ynt_1" "130.005" (Some cart_jwt)) "key-2"]%string.
Abbreviation cart_charged := (interleave charge_schedule (map demo_serve carted) demo_rail).

(** A payment in the books, and the number of cents its cart was signed for. *)
Definition booked (payment_id : string) (s : rail) : option (Decimal.dec * option string) :=
  (fun row => (pay_amount row, pay_checkout_hash row)) <$> payments (tables s) !! payment_id.
Definition cart_total : option pyval := match signed_checkout cart_jwt rail_keys with Ok (Some checkout) => assoc "total_price" (match checkout with VDict d => d | _ => [] end) | _ => None end.


(** Two conversions of one amount: half a cent over the cart's 130.00 passes the
    comparison with the cart, which rounds a tie to the even cent, and is booked as
    130.01, because the column rounds it up. *)
Theorem booked_over_the_cart : exists hash,
  cart_total = Some (VInt 13000) /\ booked "ynp_5" cart_charged.2 = Some (price 13000, Some hash) /\ booked "ynp_10" cart_charged.2 = Some (price 13001, Some hash).
Proof. eexists. split; [vm_compute; reflexivity|]. split; vm_compute; reflexivity. Qed.

(** A charge and an exchange after the DELETE: the token stays deleted. *)
Definition later_requests : list request := [CreatePayment (charge_request "ynt_1" "130.00" None) "key-2"; Confirm "yst_1"]%string.
Lemma deleted_token_never_charged_witness :
  let s := (run_prog (delete_token_endpoint demo_utc "ynt_1") demo_rail).2 in
  let s' := (interleave [0; 1; 0; 0; 1; 0; 1; 0; 0; 0]%nat (map demo_serve later_requests) s).2 in
  deleted "ynt_1" s' /\ payments (tables s') !! "ynp_5"%string = None.
Proof.
  assert (Htyped : forall row, payment_tokens (tables demo_rail) !! "ynt_1"%string = Some row -> to_status row = "active"%string \/ to_status row = "deleted"%string).
  { intros row Hrow. change (Some demo_token = Some row) in Hrow. injection Hrow as <-. by left. }
  destruct (deleted_token_never_charged demo_ulid demo_utc demo_monotonic demo_jwks demo_status 300 "https://rail" "ynt_1" later_requests [0; 1; 0; 0; 1; 0; 1; 0; 0; 0]%nat demo_rail
    [("token_id", VStr "ynt_1"); ("status", VStr "deleted"); ("already_deleted", VBool false); ("simulated", VBool true)]%string Htyped) as [Hd _]; [vm_compute; reflexivity|].
  split; [exact Hd|]. vm_compute. reflexivity.
Defined.

(** A dispute of a captured payment, with and without the intent. *)
Definition demo_dispute : DisputeRow :=
  {| dis_payment_id := "ynp_5"; dis_reason := "UNAUTHORISED"; dis_status := "open"; dis_outcome := None; dis_evidence := None; dis_resolved_at := None |}%string.
Definition disputed : rail := set_tables (set_disputes {["ynd_1"%string := demo_dispute]} (tables charged.2)) charged.2.
Definition demo_evidence : pydict := [("mandate_sd_jwt", VStr "jwt"); ("intent_jwt", VStr "jwt"); ("checkout_hash", VStr "any")]%string.

Lemma adjudication_exact_witness :
  disputes (tables disputed) !! "ynd_1"%string = Some demo_dispute /\
  exists after, (run_prog (adjudicate_endpoint demo_utc "ynd_1" demo_evidence) disputed).1 = Ok (dispute_view "ynd_1" after) /\ dis_outcome after = Some SELLER_FAVOR.
Proof.
  split; [reflexivity|].
  destruct (adjudication_exact demo_utc "ynd_1" demo_evidence demo_dispute disputed eq_refl eq_refl) as (after & Hv & _ & _ & _ & Hs & _). exists after. split; [exact Hv|].
  apply Hs. vm_compute. split; [reflexivity|]. split; [reflexivity|]. split; [reflexivity|discriminate].
Defined.

(** A cart of 130.00: charged for 130.00, refused for 130.01. *)
Lemma rail_presentable : presentable rail_claims [] (mark_key "issuer") (mark_key "agent") "v1" rail_keys 100 200.
Proof. split; try (by left); try done. eexists. split; [reflexivity|]. split; [apply (bool_decide_unpack _); reflexivity|done]. Qed.

Definition warm_rail : rail := {| tables := tables demo_rail; jwks_cache := Some rail_keys; fetched_at := 0; drawn := 0 |}.

(** The same mandate, signed by another under an id that nobody published. *)
Definition forged_mandate : string := Eval vm_compute in ok_text (issue (fun _ => "salt"%string) rail_claims (mark_key "thief") "v9" []).
Lemma forged_denied : issuer_forged rail_keys forged_mandate.
Proof.
  eexists _, _, _. split; [vm_compute; reflexivity|]. split; [vm_compute; reflexivity|]. split; [vm_compute; reflexivity|]. exact I.
Qed.

Lemma mandate_verdict_exact_witness : exists presented jwt hash,
  (run_prog (verify_payment demo_utc demo_monotonic demo_jwks demo_status 300 (Some presented) (Some jwt) (price 13000) "USD") warm_rail).1 = Ok (accepted (VStr "mdt_2") (Some hash)) /\
  (run_prog (verify_payment demo_utc demo_monotonic demo_jwks demo_status 300 (Some presented) (Some jwt) (price 13001) "USD") warm_rail).1 = Ok (refused CONDITION_FAILED) /\
  (run_prog (verify_payment demo_utc demo_monotonic demo_jwks demo_status 300 (Some forged_mandate) (Some jwt) (price 13000) "USD") warm_rail).1 = Ok (refused INVALID_SIGNATURE).
Proof.
  assert (cached demo_monotonic 300 rail_keys warm_rail) as Hwarm by (split; [reflexivity|discriminate]).
  destruct (mandate_verdict_exact demo_utc demo_monotonic demo_jwks demo_status 300 rail_claims [] (mark_key "issuer") (mark_key "agent") "v1" rail_keys 100 200 (fun _ => "salt"%string) "n" "shop" 150 "mdt_2"
    "ord_1" "vuelaya" "VuelaYa" "https://vuelaya" [] (price 13000) 13000 "USD" "none" "none" demo_cart (mark_key "shop") "m1"
    rail_presentable eq_refl eq_refl eq_refl eq_refl eq_refl eq_refl (or_intror eq_refl) eq_refl eq_refl eq_refl) as (Hunsigned & sd_jwt & presentation & jwt & hash & _ & _ & _ & _ & Hv).
  exists presentation, jwt, hash. split; [|split].
  - refine (eq_trans (proj1 (Hv presentation warm_rail (price 13000) 13000 "USD"%string (or_intror eq_refl) Hwarm eq_refl)) _). reflexivity.
  - refine (eq_trans (proj1 (Hv presentation warm_rail (price 13001) 13001 "USD"%string (or_intror eq_refl) Hwarm eq_refl)) _). reflexivity.
  - destruct (Hunsigned warm_rail (Some jwt) (price 13000) "USD"%string Hwarm) as [_ Hforged].
    exact (proj1 (Hforged forged_mandate eq_refl) forged_denied).
Defined.

(** ** What is not checked *)

(** The token was enrolled for mandate [mdt_1]; presented with mandate [mdt_2] and no
    cart, it is charged nine million. *)
Theorem token_not_tied_to_mandate :
  to_mandate_id demo_token = "mdt_1"%string /\ assoc "jti" rail_claims = Some (VStr "mdt_2") /\
  let s' := (run_prog (demo_serve (CreatePayment (charge_request "ynt_1" "9000000.00" None) "key-1")) demo_rail).2 in
  exists payment, payments (tables s') !! "ynp_5"%string = Some payment /\ pay_token_id payment = "ynt_1"%string /\ pay_mandate_jti payment = "mdt_2"%string /\
    pay_amount payment = price 900000000.
Proof. split; [reflexivity|]. split; [reflexivity|]. eexists. split; [vm_compute; reflexivity|]. split_and!; reflexivity. Qed.

(** Two confirmations that both read the approved setup token each make an active
    payment token of it. *)
Theorem setup_token_exchanged_twice :
  let s' := (interleave [0; 1; 0; 1; 0; 1]%nat (map demo_serve [Confirm "yst_1"; Confirm "yst_1"]%string) demo_rail).2 in
  exists a b row_a row_b, a <> b /\ payment_tokens (tables s') !! a = Some row_a /\ payment_tokens (tables s') !! b = Some row_b /\
    to_setup_token_id row_a = Some "yst_1"%string /\ to_setup_token_id row_b = Some "yst_1"%string /\ to_status row_a = "active"%string /\ to_status row_b = "active"%string.
Proof. exists "ynt_2"%string, "ynt_3"%string. eexists _, _. split; [done|]. split; [vm_compute; reflexivity|]. split; [vm_compute; reflexivity|]. split_and!; reflexivity. Qed.

(** Two adjudications that both read the dispute open: the seller was told he won,
    the books say the buyer did. *)
Theorem adjudicated_twice :
  let out := interleave [0; 1; 0; 1; 0; 1]%nat (map demo_serve [Adjudicate "ynd_1" demo_evidence; Adjudicate "ynd_1" []]%string) disputed in
  exists answer after, out.1 !! 0%nat = Some (Finish (Ok answer)) /\ assoc "outcome" answer = Some (VStr SELLER_FAVOR) /\
    disputes (tables out.2) !! "ynd_1"%string = Some after /\ dis_outcome after = Some BUYER_FAVOR.
Proof. eexists _, _. split; [apply answer_finished; vm_compute; reflexivity|]. split; [reflexivity|]. split; [vm_compute; reflexivity|reflexivity]. Qed.
