(* ===== verification/PgReservation.v ===== *)
(** [PostgresReservationStore] (src/src/api/decision/repository_postgres.py): the
    budget of a mandate kept as texts and reserved by a compare-and-swap on every
    value read.  Each SQL statement is a step; the last one commits. *)
From S2P Require Import Prelude PyTime Decimal Json Models Prog.

(** The columns of [mandates] and [purchases] the store reads or writes. *)
Record pg_mandate : Type := { gm_status : string; gm_reserved_amount : string; gm_spent_total : string; gm_txn_count : Z; gm_updated_at : string }.
Record pg_purchase : Type := { gp_status : string; gp_mandate_jti : string; gp_reservation_id : option string }.

(** The tables, and how many identifiers and instants were drawn. *)
Record pg : Type := { pg_mandates : gmap string pg_mandate; pg_purchases : gmap string pg_purchase; pg_drawn : nat }.

Definition set_pg_mandates (m : gmap string pg_mandate) (s : pg) : pg := {| pg_mandates := m; pg_purchases := pg_purchases s; pg_drawn := pg_drawn s |}.

Definition _money (value : pyval) : res dec := amount_decimal value.
Definition _iso (us : Z) : string := isoformat (us - us mod 1000000).

(** [str(_money(value).quantize(Decimal("0.01"), rounding=ROUND_HALF_UP))] *)
Definition _fmt_money (value : dec) : res string :=
  let? amount := _money (VDec value) in
  let? quantized := quantize_cent ROUND_HALF_UP amount in
  Ok (dec_str quantized).

Section Store.
(** uuid4 and the wall clock, by the number of the draw. *)
Variables (uuid : nat -> string) (utc : nat -> Z).

Definition pg_draw : st pg nat := fun s => (Ok (pg_drawn s), {| pg_mandates := pg_mandates s; pg_purchases := pg_purchases s; pg_drawn := S (pg_drawn s) |}).
Definition pg_select {A} (f : pg -> A) : prog pg A := atomic (gets f).

(** [UPDATE mandates SET ... WHERE jti AND guard], the rows it changed. *)
Definition pg_update (jti : string) (guard : pg_mandate -> bool) (f : pg_mandate -> pg_mandate) : st pg bool := fun s =>
  match pg_mandates s !! jti with
  | Some row => if guard row then (Ok true, set_pg_mandates (<[jti := f row]> (pg_mandates s)) s) else (Ok false, s)
  | None => (Ok false, s)
  end.

Definition swapped (reserved_amount : string) (txn_count : Z) (updated_at : string) (row : pg_mandate) : pg_mandate :=
  {| gm_status := gm_status row; gm_reserved_amount := reserved_amount; gm_spent_total := gm_spent_total row; gm_txn_count := txn_count; gm_updated_at := updated_at |}.

(** [SELECT reservation_id FROM purchases WHERE id AND status = 'pending_capture'] *)
Definition pending_capture (key : string) (s : pg) : option (option string) :=
  match pg_purchases s !! key with
  | Some row => if String.eqb (gp_status row) "pending_capture" then Some (gp_reservation_id row) else None
  | None => None
  end.

(** The decision on the values read: the new reserved amount, or no room. *)
Definition reservation_room (row : pg_mandate) (candidate budget : dec) (max_txn_count : option Z) : res (option string) :=
  if negb (String.eqb (gm_status row) "active") then Ok None
  else
    let? reserved := _money (VStr (gm_reserved_amount row)) in
    let? spent := _money (VStr (gm_spent_total row)) in
    let? used := dadd reserved spent in
    let? total := dadd used candidate in
    let? over := dlt budget total in
    if (over : bool) then Ok None
    else if match max_txn_count with Some m => m <? gm_txn_count row + 1 | None => false end then Ok None
    else
      let? sum := dadd reserved candidate in
      let? text := _fmt_money sum in
      Ok (Some text).

(** From the row of the mandate to the compare-and-swap. *)
Definition reserve_row (mandate_id : string) (candidate budget : dec) (max_txn_count : option Z) (identifier : string) : prog pg (option string) :=
  row <~ pg_select (fun s => pg_mandates s !! mandate_id) ;
  match row with
  | None => pret None
  | Some row =>
      room <~ plift (reservation_room row candidate budget max_txn_count) ;
      match room with
      | None => pret None
      | Some text =>
          n <~ atomic pg_draw ;
          won <~ atomic (pg_update mandate_id
                   (fun now => String.eqb (gm_status now) "active" && String.eqb (gm_reserved_amount now) (gm_reserved_amount row)
                               && String.eqb (gm_spent_total now) (gm_spent_total row) && (gm_txn_count now =? gm_txn_count row))
                   (swapped text (gm_txn_count row + 1) (_iso (utc n)))) ;
          pret (if won : bool then Some identifier else None)
      end
  end.

Definition reserve (mandate_id : string) (amount total_budget : pyval) (max_txn_count : option Z) (reservation_id reservation_key : option string) : prog pg (option string) :=
  candidate <~ plift (_money amount) ;
  budget <~ plift (_money total_budget) ;
  identifier <~ match or_str reservation_id None with
                | Some id => pret id
                | None => n <~ atomic pg_draw ; pret (uuid n)
                end ;
  existing <~ match reservation_key with Some key => pg_select (pending_capture key) | None => pret None end ;
  match existing with
  | Some id => pret (or_str id None)
  | None => reserve_row mandate_id candidate budget max_txn_count identifier
  end.

(** [SELECT 1 FROM purchases WHERE reservation_id AND mandate_jti AND status] *)
Definition holds_reservation (reservation_id mandate_id : string) (s : pg) : bool :=
  existsb (fun kv => bool_decide (gp_reservation_id kv.2 = Some reservation_id) && String.eqb (gp_mandate_jti kv.2) mandate_id && String.eqb (gp_status kv.2) "pending_capture")
    (map_to_list (pg_purchases s)).

Definition release (mandate_id : string) (amount : pyval) (reservation_id : option string) : prog pg bool :=
  candidate <~ plift (_money amount) ;
  held <~ match reservation_id with Some id => pg_select (holds_reservation id mandate_id) | None => pret true end ;
  if negb held then pret false
  else
    row <~ pg_select (fun s => pg_mandates s !! mandate_id) ;
    match row with
    | None => pret false
    | Some row =>
        reserved <~ plift (_money (VStr (gm_reserved_amount row))) ;
        less <~ plift (dlt reserved candidate) ;
        if (less : bool) then pret false
        else
          text <~ plift (let? rest := dsub reserved candidate in _fmt_money rest) ;
          n <~ atomic pg_draw ;
          atomic (pg_update mandate_id
                    (fun now => String.eqb (gm_reserved_amount now) (gm_reserved_amount row) && (gm_txn_count now =? gm_txn_count row))
                    (swapped text (Z.max 0 (gm_txn_count row - 1)) (_iso (utc n))))
    end.
End Store.
