(* ===== verification/PgReservationFacts.v ===== *)
(** Reservations and releases that race on the PostgreSQL store
    (PgReservation.v): the reserved amount of every mandate is exactly what the
    answers say, and stays within the budget. *)
From S2P Require Import Prelude PyTime Decimal Json Models Prog PgReservation.

(** A call, with its amount in cents. *)
Inductive call : Type :=
| Reserve (mandate_id : string) (amount : Z) (max_txn_count : option Z) (reservation_id reservation_key : option string)
| Release (mandate_id : string) (amount : Z) (reservation_id : option string).

Definition on_mandate (c : call) : string := match c with Reserve m _ _ _ _ => m | Release m _ _ => m end.
Definition size (c : call) : Z := match c with Reserve _ a _ _ _ => a | Release _ a _ => a end.
(** What the call adds to the reserved amount when it answers that it did. *)
Definition delta (c : call) : Z := match c with Reserve _ a _ _ _ => a | Release _ a _ => - a end.

Lemma fmt_money_cents c : 0 <= c < max_coef -> _fmt_money (cents c) = Ok (cents_text c).
Proof.
  intros Hc. unfold _fmt_money, _money. rewrite amount_decimal_cents by done. cbn [rbind]. unfold cents. rewrite quantize_cents by lia. cbn [rbind].
  by rewrite dec_str_cents by lia.
Qed.

Section Race.
Variables (uuid : nat -> string) (utc : nat -> Z) (budget : string -> Z).

Definition program (c : call) : prog pg bool :=
  match c with
  | Reserve m a max id key =>
      r <~ reserve uuid utc m (VStr (cents_text a)) (VStr (cents_text (budget m))) max id key ; pret (match r with Some _ => true | None => false end)
  | Release m a id => release utc m (VStr (cents_text a)) id
  end.

(** Amounts in cents that 28 digits hold. *)
Definition bounded (c : call) : Prop := 0 <= size c /\ 0 <= budget (on_mandate c) /\ budget (on_mandate c) + size c < max_coef.

(** A row whose amounts are texts in cents within the budget. *)
Definition amounts (row : pg_mandate) (h s : Z) : Prop := gm_reserved_amount row = cents_text h /\ gm_spent_total row = cents_text s /\ 0 <= h /\ 0 <= s.
Definition typed (j : string) (row : pg_mandate) : Prop := exists h s, amounts row h s /\ h + s <= budget j.

Lemma room_exact c row h s max_txn_count : bounded c -> amounts row h s -> h + s <= budget (on_mandate c) ->
  reservation_room row (cents (size c)) (cents (budget (on_mandate c))) max_txn_count = Ok None \/
  h + s + size c <= budget (on_mandate c) /\
  reservation_room row (cents (size c)) (cents (budget (on_mandate c))) max_txn_count = Ok (Some (cents_text (h + size c))).
Proof using Type.
  intros (Ha & Hb & Hm) (Hr & Hs & Hh0 & Hs0) Hle. unfold reservation_room, _money. destruct (negb _); [by left|]. rewrite Hr, Hs, !amount_decimal_text by lia. cbn [rbind].
  rewrite dadd_cents by lia. cbn [rbind]. rewrite dadd_cents by lia. cbn [rbind]. rewrite dlt_cents. cbn [rbind].
  destruct (Z.ltb_spec (budget (on_mandate c)) (h + s + size c)); [by left|]. destruct (match max_txn_count with Some m => _ | None => _ end); [by left|].
  rewrite dadd_cents by lia. cbn [rbind]. rewrite fmt_money_cents by lia. right. split; [lia|done].
Qed.

(** ** One call among others *)

Variable purchases : gmap string pg_purchase.

Definition valid (s : pg) : Prop := pg_purchases s = purchases /\ forall j row, pg_mandates s !! j = Some row -> typed j row.
(** No purchase under the call's key is already waiting for its capture. *)
Definition unclaimed (c : call) : Prop :=
  match c with
  | Reserve _ _ _ _ (Some key) => match purchases !! key with Some row => gp_status row <> "pending_capture"%string | None => True end
  | _ => True
  end.

(** The row moves by what the call adds. *)
Definition moves (c : call) (row row' : pg_mandate) : Prop := exists h s, amounts row h s /\ amounts row' (h + delta c) s /\ h + delta c + s <= budget (on_mandate c).

(** Each statement leaves the mandates alone, or is the one that moves the row and
    ends the call with its answer; nothing raises. *)
Fixpoint sound (c : call) (p : prog pg bool) : Prop :=
  match p with
  | Finish r => exists b, r = Ok b
  | Do op k => forall s, valid s ->
      pg_purchases (op s).2 = pg_purchases s /\ sound c (k (op s).1) /\
      (pg_mandates (op s).2 = pg_mandates s /\ k (op s).1 <> Finish (Ok true) \/
       exists row row', pg_mandates s !! on_mandate c = Some row /\ pg_mandates (op s).2 = <[on_mandate c := row']> (pg_mandates s) /\
         moves c row row' /\ k (op s).1 = Finish (Ok true))
  end.

#[local] Arguments sound : simpl never.
#[local] Arguments amount_decimal : simpl never.
#[local] Arguments dlt : simpl never.
#[local] Arguments dsub : simpl never.
#[local] Arguments _fmt_money : simpl never.

Lemma sound_read {X} c (op : st pg X) (k : res X -> prog pg bool) :
  (forall s, valid s -> pg_purchases (op s).2 = pg_purchases s /\ pg_mandates (op s).2 = pg_mandates s /\ sound c (k (op s).1) /\ k (op s).1 <> Finish (Ok true)) -> sound c (Do op k).
Proof using Type. intros Hop s Hs. destruct (Hop s Hs) as (H1 & H2 & H3 & H4). split; [done|]. split; [done|]. by left. Qed.

Lemma sound_no c : sound c (Finish (Ok false)) /\ Finish (S := pg) (Ok false) <> Finish (Ok true).
Proof using Type. split; [by exists false|done]. Qed.

(** The compare-and-swap at the end of both. *)
Lemma sound_swap c row h s (guard : pg_mandate -> bool) count at_ k : bounded c -> amounts row h s -> 0 <= h + delta c ->
  h + delta c + s <= budget (on_mandate c) ->
  (forall now, guard now = true -> gm_reserved_amount now = gm_reserved_amount row /\ (delta c <= 0 \/ gm_spent_total now = gm_spent_total row)) ->
  (forall b, k (Ok b) = Finish (Ok b)) ->
  sound c (Do (pg_update (on_mandate c) guard (swapped (cents_text (h + delta c)) count at_)) k).
Proof using Type.
  intros (Ha & Hb & Hm) (Hr & Hsp & Hh & Hs) Hnn Hle Hg Hk st Hst. unfold pg_update. destruct (pg_mandates st !! on_mandate c) as [now|] eqn:En.
  2: { cbn. rewrite Hk. split; [done|]. split; [by exists false|]. by left. }
  destruct (guard now) eqn:Eg; cbn; rewrite Hk; [|split; [done|]; split; [by exists false|]; by left]. split; [done|]. split; [by exists true|]. right. exists now. eexists.
  split; [done|]. split; [done|]. split; [|done]. destruct (Hg now Eg) as [Hr' Hsp']. destruct Hst as [_ Hty]. destruct (Hty _ _ En) as (h' & s' & (Er & Es & Hh' & Hs') & Hle').
  assert (h' = h) as -> by (apply cents_text_inj; congruence). exists h, s'. split; [by split|]. cbn. split; [by repeat split|].
  destruct Hsp' as [Hd|Hsp']; [lia|]. assert (s' = s) as -> by (apply cents_text_inj; congruence). lia.
Qed.

Lemma row_sound c m a max id key identifier : c = Reserve m a max id key -> bounded c ->
  sound c (r <~ reserve_row utc m (cents a) (cents (budget m)) max identifier ; pret (match r with Some _ => true | None => false end)).
Proof using Type.
  intros Hc Hb. unfold reserve_row. cbn [pg_select atomic pbind]. apply sound_read. intros s [_ Hty]. split; [done|]. split; [done|]. cbn.
  destruct (pg_mandates s !! m) as [row|] eqn:Er; cbn; [|apply sound_no]. destruct (Hty _ _ Er) as (h & sp & Hrow & Hle).
  assert (Hm : on_mandate c = m) by (by rewrite Hc). rewrite <- Hm in Hle. destruct (room_exact c row h sp max Hb Hrow Hle) as [Hroom|[Hle' Hroom]]; rewrite Hm, Hc in Hroom; cbn in Hroom;
    rewrite Hroom; cbn; [apply sound_no|]. split; [|done]. apply sound_read. intros s' _. split; [done|]. split; [done|]. cbn. split; [|done].
  assert (Hd : delta c = a) by (by rewrite Hc). rewrite <- Hm, <- Hd. eapply sound_swap; [exact Hb|exact Hrow| | | |by intros []].
  - destruct Hrow as (_ & _ & ? & _), Hb as [Ha _]. rewrite Hc in Ha |- *. cbn in *. lia.
  - rewrite Hc in Hle' |- *. cbn in *. lia.
  - intros now [[[_ ->%String.eqb_eq]%andb_prop ->%String.eqb_eq]%andb_prop _]%andb_prop. split; [done|by right].
Qed.

Lemma program_sound c : bounded c -> unclaimed c -> sound c (program c).
Proof using Type.
  intros Hb Hu. assert (Hsize : 0 <= size c < max_coef) by (destruct Hb as (? & ? & ?); lia). assert (Hbud : 0 <= budget (on_mandate c) < max_coef) by (destruct Hb as (? & ? & ?); lia).
  destruct c as [m a max id key|m a id]; cbn [program size on_mandate] in *.
  - unfold reserve, _money. rewrite !amount_decimal_text by done. cbn [plift pbind].
    assert (Htail : forall identifier, sound (Reserve m a max id key) (r <~ (existing <~ match key with Some key => pg_select (pending_capture key) | None => pret None end ;
      match existing with Some id => pret (or_str id None) | None => reserve_row utc m (cents a) (cents (budget m)) max identifier end) ; pret (match r with Some _ => true | None => false end))).
    { intros identifier. destruct key as [key|]; [|by eapply row_sound]. cbn [pg_select atomic pbind]. apply sound_read. intros s [Hp _]. split; [done|]. split; [done|]. cbn.
      unfold pending_capture. rewrite Hp. unfold unclaimed in Hu. destruct (purchases !! key) as [row|]; [destruct (String.eqb_spec (gp_status row) "pending_capture"); [done|]|];
        (split; [by eapply row_sound|done]). }
    destruct (or_str id None) as [i|]; [apply Htail|]. cbn [atomic pbind]. apply sound_read. intros s _. split; [done|]. split; [done|]. cbn. split; [apply Htail|].
    by destruct key.
  - unfold release, _money. rewrite amount_decimal_text by done. cbn [plift pbind].
    assert (Htail : sound (Release m a id) (row <~ pg_select (fun s => pg_mandates s !! m) ; match row with None => pret false | Some row =>
      reserved <~ plift (amount_decimal (VStr (gm_reserved_amount row))) ; less <~ plift (dlt reserved (cents a)) ; if (less : bool) then pret false else
      text <~ plift (let? rest := dsub reserved (cents a) in _fmt_money rest) ; n <~ atomic pg_draw ;
      atomic (pg_update m (fun now => String.eqb (gm_reserved_amount now) (gm_reserved_amount row) && (gm_txn_count now =? gm_txn_count row))
        (swapped text (Z.max 0 (gm_txn_count row - 1)) (_iso (utc n)))) end)).
    { cbn [pg_select atomic pbind]. apply sound_read. intros s [_ Hty]. split; [done|]. split; [done|]. cbn.
      destruct (pg_mandates s !! m) as [row|] eqn:Er; cbn; [|apply sound_no]. destruct (Hty _ _ Er) as (h & sp & Hrow & Hle). destruct Hb as (Ha & Hb1 & Hb2). cbn in *.
      assert (Hrow' := Hrow). destruct Hrow' as (Hr & _ & Hh & Hsp). rewrite Hr, amount_decimal_text by lia. cbn [plift pbind]. rewrite dlt_cents. cbn [plift pbind].
      destruct (Z.ltb_spec h a); [apply sound_no|]. rewrite dsub_cents by lia. cbn [rbind]. rewrite fmt_money_cents by lia. cbn [plift pbind]. split; [|done].
      apply sound_read. intros s' _. split; [done|]. split; [done|]. cbn. split; [|done].
      replace (h - a) with (h + delta (Release m a id)) by (cbn; lia). change m with (on_mandate (Release m a id)) at 2.
      eapply sound_swap; [split; [exact Ha|by split]|exact Hrow|cbn; lia|cbn; lia| |by intros []].
      intros now [->%String.eqb_eq _]%andb_prop. split; [done|]. left. cbn. lia. }
    destruct id as [id|]; [|exact Htail]. cbn [pg_select atomic pbind]. apply sound_read. intros s _. split; [done|]. split; [done|]. cbn.
    destruct (holds_reservation id m s); cbn [negb]; [split; [exact Htail|done]|apply sound_no].
Qed.
End Race.

(** ** Calls that race *)

(** What the answers of a pool have added on a mandate. *)
Definition added (j : string) (c : call) (p : prog pg bool) : Z :=
  if decide (on_mandate c = j) then match p with Finish (Ok true) => delta c | _ => 0 end else 0.
Definition answered_sum (j : string) (calls : list call) (pool : list (prog pg bool)) : Z := foldr Z.add 0 (zip_with (added j) calls pool).

Lemma answered_insert j calls pool i c p p' : calls !! i = Some c -> pool !! i = Some p ->
  answered_sum j calls (<[i := p']> pool) = answered_sum j calls pool - added j c p + added j c p'.
Proof.
  revert pool i. induction calls as [|c0 calls IH]; intros [|q pool] [|i] Hc Hp; try done.
  - injection Hc as ->. injection Hp as ->. unfold answered_sum. cbn. lia.
  - specialize (IH pool i Hc Hp). change (<[S i := p']> (q :: pool)) with (q :: <[i := p']> pool). unfold answered_sum in *. cbn [zip_with foldr] in *. lia.
Qed.

(** The table against the answers. *)
Definition tallied (budget : string -> Z) (d0 : pg) (g : string -> Z) (d : pg) : Prop :=
  pg_purchases d = pg_purchases d0 /\
  forall j, match pg_mandates d0 !! j with
  | None => pg_mandates d !! j = None
  | Some row0 => exists h s row, amounts row0 h s /\ pg_mandates d !! j = Some row /\ amounts row (h + g j) s /\ h + g j + s <= budget j
  end.

Lemma tallied_ext budget d0 g g' d : (forall j, g j = g' j) -> tallied budget d0 g d -> tallied budget d0 g' d.
Proof. intros Hg [Hp Hd]. split; [done|]. intros j. specialize (Hd j). destruct (pg_mandates d0 !! j); [|done]. by rewrite <- Hg. Qed.

Lemma tallied_valid budget d0 g d : tallied budget d0 g d -> valid budget (pg_purchases d0) d.
Proof.
  intros [Hp Hd]. split; [done|]. intros j row Hj. specialize (Hd j). destruct (pg_mandates d0 !! j); [|congruence].
  destruct Hd as (h & s & r & _ & Hr & Ha & Hle). rewrite Hj in Hr. injection Hr as <-. by exists (h + g j), s.
Qed.

Lemma amounts_unique row h s h' s' : amounts row h s -> amounts row h' s' -> h = h' /\ s = s'.
Proof. intros (E1 & E2 & ? & ?) (E3 & E4 & ? & ?). split; apply cents_text_inj; congruence. Qed.

Lemma tallied_moves budget d0 g d c row row' : tallied budget d0 g d -> pg_mandates d !! on_mandate c = Some row -> moves budget c row row' ->
  tallied budget d0 (fun j => g j + (if decide (on_mandate c = j) then delta c else 0)) (set_pg_mandates (<[on_mandate c := row']> (pg_mandates d)) d).
Proof.
  intros [Hp Hd] Hrow (h & s & Ha & Ha' & Hle). split; [done|]. intros j. specialize (Hd j). cbn [pg_mandates set_pg_mandates]. case_decide as Hj.
  - subst j. rewrite lookup_insert_eq. destruct (pg_mandates d0 !! on_mandate c) as [row0|]; [|congruence]. destruct Hd as (h0 & s0 & r & Ha0 & Hr & Har & _).
    rewrite Hrow in Hr. injection Hr as <-. destruct (amounts_unique _ _ _ _ _ Ha Har) as [-> ->]. exists h0, s0, row'. split; [done|]. split; [done|]. rewrite Z.add_assoc. by split.
  - rewrite lookup_insert_ne by done. by rewrite Z.add_0_r.
Qed.

Lemma tallied_step budget d0 g d c p : tallied budget d0 g d -> sound budget (pg_purchases d0) c p ->
  sound budget (pg_purchases d0) c (step_prog p d).1 /\
  tallied budget d0 (fun j => g j - added j c p + added j c (step_prog p d).1) (step_prog p d).2.
Proof.
  intros Hd Hp. destruct p as [r|X op k].
  { split; [done|]. eapply tallied_ext; [|exact Hd]. intros j. cbn [step_prog fst]. lia. }
  destruct (Hp d (tallied_valid _ _ _ _ Hd)) as (Hpur & Hk & Hmove). cbn [step_prog]. destruct (op d) as [r d'] eqn:Eo. cbn [fst snd] in *. split; [done|].
  assert (forall j, added j c (Do op k) = 0) as Hz by (intros j; unfold added; by case_decide). destruct Hmove as [[Hsame Hno]|(row & row' & Hrow & Hins & Hmv & Hyes)].
  - apply (tallied_ext _ _ g); [intros j; rewrite Hz; unfold added; case_decide; [|lia]; destruct (k r) as [[[]|]|]; first [lia|done]|].
    destruct Hd as [Hp0 Hd]. split; [congruence|]. by rewrite Hsame.
  - pose proof (tallied_moves _ _ _ _ _ _ _ Hd Hrow Hmv) as [_ Ht]. destruct Hd as [Hp0 _]. split; [congruence|].
    intros j. specialize (Ht j). cbn [pg_mandates set_pg_mandates] in Ht. rewrite Hins, Hz, Hyes. replace (g j - 0 + added j c (Finish (Ok true))) with (g j + (if decide (on_mandate c = j) then delta c else 0)); [done|].
    unfold added. case_decide; lia.
Qed.

Lemma program_unanswered uuid utc budget c : program uuid utc budget c <> Finish (Ok true).
Proof.
  destruct c as [m a max id key|m a id]; cbn [program].
  - unfold reserve. destruct (_money (VStr (cents_text a))); [|done]. cbn [plift pbind]. destruct (_money _); [|done]. cbn [plift pbind].
    destruct (or_str id None); [|done]. cbn [pbind]. by destruct key.
  - unfold release. destruct (_money _); [|done]. cbn [plift pbind]. by destruct id.
Qed.

Lemma answered_start uuid utc budget calls j : answered_sum j calls (map (program uuid utc budget) calls) = 0.
Proof.
  induction calls as [|c calls IH]; [done|]. unfold answered_sum in *. cbn [map zip_with foldr]. rewrite IH. unfold added. case_decide; [|done].
  pose proof (program_unanswered uuid utc budget c). by destruct (program uuid utc budget c) as [[[]|]|].
Qed.

Lemma pool_sound uuid utc budget purchases calls : Forall (fun c => bounded budget c /\ unclaimed purchases c) calls ->
  Forall2 (sound budget purchases) calls (map (program uuid utc budget) calls).
Proof. induction 1 as [|c calls [Hb Hu] _ IH]; constructor; [by apply program_sound|done]. Qed.

Lemma tallied_start budget d : (forall j row, pg_mandates d !! j = Some row -> typed budget j row) -> tallied budget d (fun _ => 0) d.
Proof.
  intros Hty. split; [done|]. intros j. destruct (pg_mandates d !! j) as [row|] eqn:Ej; [|done]. destruct (Hty _ _ Ej) as (h & s & Ha & Hle).
  exists h, s, row. rewrite Z.add_0_r. by destruct Ha as (? & ? & ? & ?).
Qed.

(** C21: Reservations and releases on the PostgreSQL store that run at the same time,
    interleaved statement by statement in any way and stopped anywhere, none
    under a key whose purchase already waits for its capture: none raises, and the
    reserved amount of every mandate is what it was plus the amounts of exactly
    the reservations that answered an identifier, less those of exactly the
    releases that answered True, within the budget with what is spent. *)
Theorem pg_reservations_counted uuid utc budget (calls : list call) schedule d :
  Forall (fun c => bounded budget c /\ unclaimed (pg_purchases d) c) calls ->
  (forall j row, pg_mandates d !! j = Some row -> typed budget j row) ->
  let run := interleave schedule (map (program uuid utc budget) calls) d in
  (forall i e, run.1 !! i <> Some (Finish (Raise e))) /\
  forall j row h s, pg_mandates d !! j = Some row -> amounts row h s ->
    exists row', pg_mandates run.2 !! j = Some row' /\ amounts row' (h + answered_sum j calls run.1) s /\ h + answered_sum j calls run.1 + s <= budget j.
Proof.
  intros Hcalls Hty run.
  assert (Forall2 (sound budget (pg_purchases d)) calls run.1 /\ tallied budget d (fun j => answered_sum j calls run.1) run.2) as [Hst Ht].
  { apply (interleave_invariant (fun pool st => Forall2 (sound budget (pg_purchases d)) calls pool /\ tallied budget d (fun j => answered_sum j calls pool) st)).
    - intros i p pool st Hp [Hst Ht]. destruct (Forall2_lookup_r _ _ _ _ _ Hst Hp) as (c & Hc & Hcs). destruct (tallied_step _ _ _ _ _ _ Ht Hcs) as [Hs' Ht'].
      split; [by rewrite <- (list_insert_id calls i c Hc); apply Forall2_insert|]. eapply tallied_ext; [|exact Ht']. intros j. symmetry. by apply answered_insert.
    - split; [by apply pool_sound|]. eapply tallied_ext; [|by apply tallied_start]. intros j. symmetry. apply answered_start. }
  split.
  - intros i e Hi. destruct (Forall2_lookup_r _ _ _ _ _ Hst Hi) as (c & _ & b & Hb). done.
  - intros j row h s Hj Ha. destruct Ht as [_ Ht]. specialize (Ht j). rewrite Hj in Ht. destruct Ht as (h0 & s0 & row' & Ha0 & Hr & Ha' & Hle).
    destruct (amounts_unique _ _ _ _ _ Ha Ha0) as [-> ->]. by exists row'.
Qed.

(** ** A concrete race *)

Definition shared : pg := {| pg_mandates := {["m-1" := {| gm_status := "active"; gm_reserved_amount := "10.00"; gm_spent_total := "20.00"; gm_txn_count := 1; gm_updated_at := "" |}]}; pg_purchases := ∅; pg_drawn := 0 |}.
Definition contenders : list call := [Reserve "m-1" 5000 None (Some "r-1") None; Reserve "m-1" 4000 (Some 5) None (Some "k-2"); Release "m-1" 1000 None].
(** The first call reads the row, the second takes it, the first loses its swap,
    the release follows. *)
Definition contention : list nat := [0; 0; 1; 1; 1; 1; 1; 0; 2; 2; 2]%nat.
Definition demo_uuid (_ : nat) : string := "u-1".
Definition demo_utc (n : nat) : Z := Z.of_nat n.
Abbreviation demo_budget := (fun _ : string => 10000).

Lemma pg_reservations_counted_witness :
  let run := interleave contention (map (program demo_uuid demo_utc demo_budget) contenders) shared in
  answered_sum "m-1" contenders run.1 = 3000 /\
  exists row', pg_mandates run.2 !! "m-1"%string = Some row' /\ amounts row' (1000 + answered_sum "m-1" contenders run.1) 2000.
Proof.
  intros run. split; [vm_compute; reflexivity|].
  destruct (pg_reservations_counted demo_uuid demo_utc demo_budget contenders contention shared) as [_ Hrun].
  - repeat constructor; cbn; lia.
  - intros j row Hj. unfold shared in Hj. cbn [pg_mandates] in Hj. apply lookup_singleton_Some in Hj as [<- <-]. exists 1000, 2000. by repeat split.
  - destruct (Hrun "m-1"%string _ 1000 2000 eq_refl) as (row' & Hr & Ha & _); [by repeat split|]. exact (ex_intro _ row' (conj Hr Ha)).
Defined.
