(* ===== verification/ApiEscalation.v ===== *)
(** Escalations of the API lane (src/src/api/services/escalations.py, the
    endpoints of src/src/api/routers/escalations.py, [emit_event] of
    src/src/trustlib/events.py).

    A step of a program is one SELECT or the writes of a transaction with its
    commit: the rows a transaction updates stay locked until it ends, so nobody
    sees or changes them in between. *)
From S2P Require Import Prelude PyTime Decimal Json JsonParse Models Canonical Jose Prog.

(** ** Tables *)

Record Escalation : Type := {
  e_purchase_id : string;
  e_mandate_jti : string;
  e_status : string;
  e_diff : option string;
  e_timeout_at : string;
  e_decision : option string;
  e_approver : option string;
  e_channel : option string;
  e_receipt_sig : option string;
  e_resolved_at : option string;
  e_created_at : string;
}.

(** A row of [outbox]; the payload before [json.dumps] makes it a text. *)
Record EventEnvelope : Type := { v_type : string; v_aggregate_id : string; v_payload : pydict; v_created_at : string }.

Record desk : Type := { escalations : gmap string Escalation; outbox : gmap string EventEnvelope; drawn : nat }.

Definition set_escalations m (d : desk) : desk := {| escalations := m; outbox := outbox d; drawn := drawn d |}.
Definition set_outbox m (d : desk) : desk := {| escalations := escalations d; outbox := m; drawn := drawn d |}.

Definition KNOWN_EVENT_TYPES : list string :=
  ["mandate.created"; "mandate.activated"; "mandate.revoked"; "mandate.suspended"; "mandate.exhausted"; "mandate.expired"; "payment_instrument.linked";
   "escalation.resolved"; "escalation.expired"; "offer.seen"; "purchase.requested"; "purchase.verified"; "purchase.escalated"; "purchase.captured";
   "purchase.rejected"; "payment.captured"; "payment.refused"; "dispute.opened"; "dispute.resolved"; "root.checkpoint"]%string.

Definition _iso (moment : Z) : string := isoformat (moment - moment mod 1000000).
Definition _from_iso (value : string) : res Z := match fromisoformat value with Some us => Ok us | None => Raise ValueError end.

(** What the endpoints answer. *)
Record EscalationResolution : Type := {
  rs_decision : string; rs_approver : string; rs_channel : string; rs_resolved_at : Z; rs_receipt_sig : option string }.
Record EscalationView : Type := {
  w_escalation_id : string; w_mandate_id : string; w_purchase_id : string; w_status : string; w_diff : pyval; w_timeout_at : Z;
  w_resolution : option EscalationResolution }.

Definition override_text (s : option string) (default : string) : string := match or_str s None with Some s => s | None => default end.

(** [EscalationStatus(...)] and the [Literal] fields of the view. *)
Definition one_of (l : list string) (s : string) : res string := if existsb (String.eqb s) l then Ok s else Raise ValueError.

Definition resolution_of (row : Escalation) : res (option EscalationResolution) :=
  match or_str (e_decision row) None with
  | None => Ok None
  | Some decision =>
      let? decision := one_of ["APPROVE"; "REJECT"]%string decision in
      let? channel := one_of ["telegram"; "web"]%string (override_text (e_channel row) "web") in
      let? resolved_at := _from_iso (override_text (e_resolved_at row) (e_timeout_at row)) in
      Ok (Some {| rs_decision := decision; rs_approver := override_text (e_approver row) "system"; rs_channel := channel; rs_resolved_at := resolved_at;
                  rs_receipt_sig := e_receipt_sig row |})
  end.

Section Escalations.
Context `{JwsLibrary}.
(** By the number of the draw: the text of a ULID and the wall clock; the key of
    the issuer with its id; [settings().escalation_timeout_seconds]. *)
Variables (ulid : nat -> string) (utc : nat -> Z) (issuer_key : Key) (issuer_kid : string) (escalation_timeout_seconds : Z).

Definition _view (escalation_id : string) (row : Escalation) : res EscalationView :=
  let? resolution := resolution_of row in
  let? status := one_of ["pending"; "resolved"; "expired"]%string (e_status row) in
  let? diff := match or_str (e_diff row) None with Some text => loads json_float_repr text | None => Ok VNone end in
  let? timeout_at := _from_iso (e_timeout_at row) in
  Ok {| w_escalation_id := escalation_id; w_mandate_id := e_mandate_jti row; w_purchase_id := e_purchase_id row; w_status := status; w_diff := diff;
        w_timeout_at := timeout_at; w_resolution := resolution |}.

(** ** Statements *)

Definition draw : st desk nat := fun d => (Ok (drawn d), {| escalations := escalations d; outbox := outbox d; drawn := S (drawn d) |}).
Definition new_id (prefix : string) : st desk string := n <- draw ;; ret (prefix +:+ "_" +:+ ulid n)%string.
Definition now : st desk Z := n <- draw ;; ret (utc n).
Definition select {A} (f : desk -> A) : prog desk A := atomic (gets f).

Definition insert_escalation (key : string) (row : Escalation) : st desk unit := fun d =>
  match escalations d !! key with
  | Some _ => (Raise IntegrityError, d)
  | None => (Ok tt, set_escalations (<[key := row]> (escalations d)) d)
  end.

Definition emit_event (type aggregate_id : string) (payload : pydict) : st desk unit :=
  if negb (existsb (String.eqb type) KNOWN_EVENT_TYPES) then raise ValueError
  else
    event_id <- new_id "evt" ;;
    created_at <- now ;;
    fun d => match outbox d !! event_id with
             | Some _ => (Raise IntegrityError, d)
             | None => (Ok tt, set_outbox (<[event_id := {| v_type := type; v_aggregate_id := aggregate_id; v_payload := payload; v_created_at := _iso created_at |}]> (outbox d)) d)
             end.

(** [get_session]: commit, or roll back when the endpoint raises. *)
Definition in_transaction {A} (m : st desk A) : st desk A := fun d =>
  match m d with
  | (Ok a, d') => (Ok a, d')
  | (Raise e, d') => (Raise e, {| escalations := escalations d; outbox := outbox d; drawn := drawn d' |})
  end.

(** ** create *)

Definition create (purchase_id mandate_id : string) (diff : option pydict) (timeout_at : option Z) : prog desk EscalationView :=
  atomic (in_transaction (
    deadline <- match timeout_at with Some t => ret t | None => moment <- now ;; ret (moment + escalation_timeout_seconds * 1000000) end ;;
    escalation_id <- new_id "esc" ;;
    text <- match diff with Some kvs => text <- lift (dumps Canonical.Agent.no_default (VDict kvs)) ;; ret (Some text) | None => ret None end ;;
    created_at <- now ;;
    let row := {| e_purchase_id := purchase_id; e_mandate_jti := mandate_id; e_status := "pending"; e_diff := text; e_timeout_at := _iso deadline;
                  e_decision := None; e_approver := None; e_channel := None; e_receipt_sig := None; e_resolved_at := None; e_created_at := _iso created_at |}%string in
    insert_escalation escalation_id row ;;;
    lift (_view escalation_id row))).

(** ** expire_pending *)

Definition overdue (moment : Z) (row : Escalation) : bool := String.eqb (e_status row) "pending" && String.ltb (e_timeout_at row) (_iso moment).
Definition expired_row (row : Escalation) : Escalation :=
  {| e_purchase_id := e_purchase_id row; e_mandate_jti := e_mandate_jti row; e_status := "expired"; e_diff := e_diff row; e_timeout_at := e_timeout_at row;
     e_decision := Some "REJECT"%string; e_approver := e_approver row; e_channel := e_channel row; e_receipt_sig := e_receipt_sig row;
     e_resolved_at := e_resolved_at row; e_created_at := e_created_at row |}.

(** The ids the guarded UPDATE matches. *)
Definition overdue_ids (moment : Z) (d : desk) : list string := (List.filter (fun kv => overdue moment kv.2) (map_to_list (escalations d))).*1.

(** The UPDATE and the event of one of its rows. *)
Definition expire_one (moment : Z) (escalation_id : string) : st desk unit := fun d =>
  match escalations d !! escalation_id with
  | Some row =>
      if overdue moment row then
        emit_event "escalation.expired" (e_purchase_id row) [("escalation_id", VStr escalation_id)]%string
          (set_escalations (<[escalation_id := expired_row row]> (escalations d)) d)
      else (Ok tt, d)
  | None => (Ok tt, d)
  end.

Fixpoint expire_each (moment : Z) (ids : list string) : st desk unit :=
  match ids with
  | [] => ret tt
  | escalation_id :: rest => expire_one moment escalation_id ;;; expire_each moment rest
  end.

Definition expire_pending (moment : Z) : st desk (list string) :=
  ids <- gets (overdue_ids moment) ;;
  expire_each moment ids ;;;
  ret ids.

(** ** list_escalations *)

Fixpoint insert_newest (kv : string * Escalation) (l : list (string * Escalation)) : list (string * Escalation) :=
  match l with
  | [] => [kv]
  | x :: rest => if String.ltb (e_created_at kv.2) (e_created_at x.2) then x :: insert_newest kv rest else kv :: l
  end.

Definition matches (mandate_id status : option string) (row : Escalation) : bool :=
  match or_str mandate_id None with Some m => String.eqb (e_mandate_jti row) m | None => true end
  && match status with Some s => String.eqb (e_status row) s | None => true end.

Definition list_escalations (mandate_id status : option string) : prog desk (list EscalationView) :=
  atomic (in_transaction (
    moment <- now ;;
    expire_pending moment ;;;
    rows <- gets (fun d => fold_right insert_newest [] (List.filter (fun kv => matches mandate_id status kv.2) (map_to_list (escalations d)))) ;;
    lift (res_map (fun kv => _view kv.1 kv.2) rows))).

(** One round of [sweep_forever]; what it raises is logged. *)
Definition sweep : prog desk unit :=
  pcatch (atomic (in_transaction (moment <- now ;; expire_pending moment ;;; ret tt))) (fun _ => Some (pret tt)).

(** ** resolve *)

Definition timed_out : exn := EscalationConflict (Some (ReasonCode_value ESCALATION_TIMEOUT_DENIED)).
Definition already_resolved : exn := EscalationConflict None.

Definition receipt_payload (escalation_id decision approver channel : string) (moment : Z) : pyval :=
  VDict [("escalation_id", VStr escalation_id); ("decision", VStr decision); ("approver", VStr approver); ("channel", VStr channel);
         ("resolved_at", VStr (isoformat moment))]%string.

Definition receipt (escalation_id decision approver channel : string) (moment : Z) : res string :=
  sign_compact (receipt_payload escalation_id decision approver channel moment) issuer_key (Some issuer_kid) (Some "escalation-receipt+jwt"%string).

Definition resolved_row (decision approver channel receipt_sig : string) (row : Escalation) : Escalation :=
  {| e_purchase_id := e_purchase_id row; e_mandate_jti := e_mandate_jti row; e_status := "resolved"; e_diff := e_diff row; e_timeout_at := e_timeout_at row;
     e_decision := Some decision; e_approver := Some approver; e_channel := Some channel; e_receipt_sig := Some receipt_sig;
     e_resolved_at := e_resolved_at row; e_created_at := e_created_at row |}.

(** The guarded UPDATE, its event and the view. *)
Definition answer_pending (escalation_id decision approver channel receipt_sig : string) (moment : Z) : st desk EscalationView := fun d =>
  match escalations d !! escalation_id with
  | None => (Raise already_resolved, d)
  | Some row =>
      if String.eqb (e_status row) "pending" && negb (String.ltb (e_timeout_at row) (_iso moment)) then
        let resolved := resolved_row decision approver channel receipt_sig row in
        ((if String.eqb decision "APPROVE" then
            emit_event "escalation.resolved" (e_purchase_id row)
              [("escalation_id", VStr escalation_id); ("decision", VStr decision); ("receipt_sig", VStr receipt_sig)]%string
          else emit_event "escalation.expired" (e_purchase_id row) [("escalation_id", VStr escalation_id)]%string) ;;;
         lift (_view escalation_id resolved))
          (set_escalations (<[escalation_id := resolved]> (escalations d)) d)
      else (Raise (if String.eqb (e_status row) "expired" then timed_out else already_resolved), d)
  end.

(** [expire_pending] at its head expires rows of this transaction; when the row
    asked for is one of them it reads back expired, and the answer rolls it back. *)
Definition resolve (escalation_id decision approver channel : string) (sticky : option pydict) : prog desk EscalationView :=
  match sticky with
  | Some _ => praise (EscalationConflict None)
  | None =>
      moment <~ atomic now ;
      expiring <~ select (overdue_ids moment) ;
      row <~ select (fun d => escalations d !! escalation_id) ;
      match row with
      | None => praise EscalationNotFound
      | Some row =>
          if existsb (String.eqb escalation_id) expiring || String.eqb (e_status row) "expired" then praise timed_out
          else if negb (String.eqb (e_status row) "pending") then praise already_resolved
          else
            receipt_sig <~ plift (receipt escalation_id decision approver channel moment) ;
            atomic (in_transaction (
              expire_each moment expiring ;;;
              answer_pending escalation_id decision approver channel receipt_sig moment))
      end
  end.

(** ** The endpoint *)

Record ResolveRequest : Type := { q_decision : string; q_approver : string; q_channel : string; q_sticky : option pydict }.

Definition resolve_escalation (escalation_id : string) (body : ResolveRequest) : prog desk EscalationView :=
  pcatch (resolve escalation_id (q_decision body) (q_approver body) (q_channel body) (q_sticky body))
    (fun e => match e with
              | EscalationNotFound => Some (praise (HTTPException 404))
              | EscalationConflict _ => Some (praise (HTTPException 409))
              | _ => None
              end).
End Escalations.
