(* ===== verification/ApiEscalationFacts.v ===== *)
(** Escalations under requests that race (ApiEscalation.v): each is decided once,
    by one answer or by its deadline, and each decision leaves one event. *)
From stdpp Require Import pretty.
From S2P Require Import Prelude PyTime Decimal Json JsonParse Models Canonical Jose Prog ApiEscalation.

Section Facts.
Context `{JwsLibrary}.
Variables (ulid : nat -> string) (utc : nat -> Z) (issuer_key : Key) (issuer_kid : string) (escalation_timeout_seconds : Z).
Abbreviation receipt := (receipt issuer_key issuer_kid).

(** ** What a desk in order holds *)

(** An event about an escalation. *)
Definition about (id : string) (v : EventEnvelope) : Prop := assoc "escalation_id" (v_payload v) = Some (VStr id).

(** Exactly one event of the outbox is about the escalation, of this type and under
    its purchase. *)
Definition told_once (id type : string) (row : Escalation) (d : desk) : Prop :=
  exists ev v, outbox d !! ev = Some v /\ about id v /\ v_type v = type /\ v_aggregate_id v = e_purchase_id row /\
    forall ev' v', outbox d !! ev' = Some v' -> about id v' -> ev' = ev.

(** A human answered at a moment the clock has told, before the deadline, and the
    receipt of it is signed. *)
Definition answered (d : desk) (id : string) (row : Escalation) : Prop :=
  exists decision approver channel n sig, (n < drawn d)%nat /\ e_decision row = Some decision /\ e_approver row = Some approver /\ e_channel row = Some channel /\
    e_receipt_sig row = Some sig /\ receipt id decision approver channel (utc n) = Ok sig /\ String.ltb (e_timeout_at row) (_iso (utc n)) = false.

(** The clock has told a moment after the deadline. *)
Definition lapsed (d : desk) (row : Escalation) : Prop := exists n, (n < drawn d)%nat /\ String.ltb (e_timeout_at row) (_iso (utc n)) = true.

Definition event_type (row : Escalation) : string :=
  if bool_decide (e_status row = "resolved"%string /\ e_decision row = Some "APPROVE"%string) then "escalation.resolved"%string else "escalation.expired"%string.

Record row_ok (d : desk) (id : string) (row : Escalation) : Prop := {
  ok_pending : e_status row = "pending"%string -> e_decision row = None /\ forall ev v, outbox d !! ev = Some v -> ~ about id v;
  ok_decided : e_status row <> "pending"%string -> told_once id (event_type row) row d;
  ok_resolved : e_status row = "resolved"%string -> answered d id row;
  ok_expired : e_status row = "expired"%string -> e_decision row = Some "REJECT"%string /\ lapsed d row;
  ok_status : e_status row ∈ ["pending"; "resolved"; "expired"]%string;
}.

Record desk_ok (d : desk) : Prop := {
  ok_rows : forall id row, escalations d !! id = Some row -> row_ok d id row;
  ok_events : forall ev v id, outbox d !! ev = Some v -> about id v -> is_Some (escalations d !! id);
}.

(** A decided escalation never changes; one pending keeps what was asked. *)
Definition keeps (d d' : desk) : Prop := forall id row, escalations d !! id = Some row ->
  exists row', escalations d' !! id = Some row' /\ (e_status row <> "pending"%string -> row' = row) /\
    e_purchase_id row' = e_purchase_id row /\ e_mandate_jti row' = e_mandate_jti row /\ e_diff row' = e_diff row /\ e_timeout_at row' = e_timeout_at row.

#[export] Instance keeps_preorder : PreOrder keeps.
Proof using Type.
  split; [intros d id row Hr; by exists row|]. intros a b c Hab Hbc id row Hr. destruct (Hab _ _ Hr) as (r1 & Hr1 & Hn & ? & ? & ? & ?).
  destruct (Hbc _ _ Hr1) as (r2 & Hr2 & Hn2 & ? & ? & ? & ?). exists r2. split; [done|]. split; [|split_and!; congruence].
  intros Hne. specialize (Hn Hne). subst r1. auto.
Qed.

Lemma untouched_keeps d d' : escalations d' = escalations d -> keeps d d'.
Proof using Type. intros He id row Hr. exists row. by rewrite He. Qed.

Definition resolved (id : string) (d : desk) : bool :=
  match escalations d !! id with Some row => String.eqb (e_status row) "resolved" | None => false end.

(** What the clock has told it goes on having told. *)
Lemma answered_later d d' id row : (drawn d <= drawn d')%nat -> answered d id row -> answered d' id row.
Proof using Type. intros Hle (decision & approver & channel & n & sig & Hn & H1). exists decision, approver, channel, n, sig. split; [lia|done]. Qed.
Lemma lapsed_later d d' row : (drawn d <= drawn d')%nat -> lapsed d row -> lapsed d' row.
Proof using Type. intros Hle (n & Hn & H1). exists n. split; [lia|done]. Qed.

Lemma same_ok d d' : escalations d' = escalations d -> outbox d' = outbox d -> (drawn d <= drawn d')%nat -> desk_ok d -> desk_ok d'.
Proof using Type.
  intros He Ho Hle [Hrows Hevs]. split; [|intros ev v id; rewrite Ho, He; apply Hevs]. intros id row. rewrite He. intros Hr. destruct (Hrows _ _ Hr) as [A B C D E].
  split; try done; unfold told_once in *; rewrite ?Ho; try done.
  - intros Hs. by eapply answered_later, C.
  - intros Hs. destruct (D Hs) as [D1 D2]. split; [done|by eapply lapsed_later].
Qed.

(** ** Events *)

Lemma emit_inserts type agg payload d d' : emit_event ulid utc type agg payload d = (Ok tt, d') ->
  exists ev v, outbox d !! ev = None /\ escalations d' = escalations d /\ outbox d' = <[ev := v]> (outbox d) /\ (drawn d <= drawn d')%nat /\
    v_type v = type /\ v_aggregate_id v = agg /\ v_payload v = payload.
Proof using Type.
  unfold emit_event. destruct (negb _); [done|]. unfold new_id, now, draw, sbind, ret. cbn.
  destruct (outbox d !! _) eqn:E; cbn; [done|]. intros [= <-]. eexists _, _. split_and!; try done. cbn. lia.
Qed.

#[local] Arguments emit_event : simpl never.

(** A pending row decided, with the one event about it. *)
Lemma decided_ok id row row' ev v d d' : desk_ok d -> escalations d !! id = Some row -> e_status row = "pending"%string ->
  outbox d !! ev = None -> escalations d' = <[id := row']> (escalations d) -> outbox d' = <[ev := v]> (outbox d) -> (drawn d <= drawn d')%nat ->
  assoc "escalation_id" (v_payload v) = Some (VStr id) -> v_type v = event_type row' -> v_aggregate_id v = e_purchase_id row' ->
  (e_status row' = "resolved"%string /\ answered d id row' \/ e_status row' = "expired"%string /\ e_decision row' = Some "REJECT"%string /\ lapsed d row') ->
  desk_ok d'.
Proof using Type.
  intros [Hrows Hevs] Hr Hp Hev He Ho Hle Hab Hty Hag Hcase. assert (Hsame : forall k x, k <> id -> escalations d !! k = Some x -> row_ok d' k x).
  { intros k x Hk Hx. destruct (Hrows _ _ Hx) as [A B C D E]. split; try done.
    - intros Hst. split; [by apply A|]. intros ev' v'. rewrite Ho. intros [[<- <-]|[_ Hv]]%lookup_insert_Some Hab'; [unfold about in *; congruence|by eapply A].
    - intros Hst. destruct (B Hst) as (e & w & Hw & Ha & Ht & Hg & Hu). exists e, w. rewrite Ho. split; [rewrite lookup_insert_ne; [done|congruence]|].
      split_and!; [done..|]. intros ev' v' [[<- <-]|[_ Hv]]%lookup_insert_Some Hab'; [unfold about in *; congruence|by eapply Hu].
    - intros Hst. by eapply answered_later, C.
    - intros Hst. destruct (D Hst) as [D1 D2]. split; [done|by eapply lapsed_later]. }
  split.
  - intros k x. rewrite He. intros [[<- <-]|[Hk Hx]]%lookup_insert_Some; [|by apply Hsame]. destruct (Hrows _ _ Hr) as [A _ _ _ _]. destruct (A Hp) as [_ Hno].
    assert (told_once id (event_type row') row' d').
    { exists ev, v. rewrite Ho, lookup_insert_eq. split_and!; [done..|]. intros ev' v' [[<- <-]|[_ Hv]]%lookup_insert_Some Hab'; [done|by destruct (Hno _ _ Hv)]. }
    destruct Hcase as [[Hs Ha]|(Hs & Ha & Hl)]; split; rewrite ?Hs; try done.
    + intros _. by eapply answered_later. + set_solver. + intros _. split; [done|by eapply lapsed_later]. + set_solver.
  - intros ev' v' k. rewrite Ho, He. intros [[<- <-]|[_ Hv]]%lookup_insert_Some Hab'.
    + assert (k = id) as -> by (unfold about in *; congruence). by rewrite lookup_insert_eq.
    + destruct (Hevs _ _ _ Hv Hab') as [x Hx]. destruct (decide (k = id)) as [->|Hne]; [by rewrite lookup_insert_eq|]. by rewrite lookup_insert_ne.
Qed.

(** ** The expiry *)

(** Rows expire, and are told; nothing is resolved. *)
Definition expires (d d' : desk) : Prop := (drawn d <= drawn d')%nat /\ (desk_ok d -> desk_ok d' /\ keeps d d' /\ forall id, resolved id d' = resolved id d).

#[export] Instance expires_preorder : PreOrder expires.
Proof using Type.
  split; [by intros d; split|]. intros a b c [L1 Hab] [L2 Hbc]. split; [lia|]. intros Ha. destruct (Hab Ha) as (Hb & K1 & R1). destruct (Hbc Hb) as (Hc & K2 & R2).
  split; [done|]. split; [by etransitivity|]. intros id. by rewrite R2.
Qed.

Lemma expire_one_expires n id d d' : (n < drawn d)%nat -> expire_one ulid utc (utc n) id d = (Ok tt, d') -> expires d d'.
Proof using Type.
  intros Hlt. unfold expire_one. destruct (escalations d !! id) as [row|] eqn:Er; [|by intros [= <-]]. destruct (overdue (utc n) row) eqn:Eo; [|by intros [= <-]].
  intros (ev & v & Hn & He & Ho & Hle & Ht & Ha & Hp)%emit_inserts. cbn in *. split; [done|]. intros Hok. apply andb_prop in Eo as [Hpend%String.eqb_eq Hover].
  split; [|split].
  - eapply decided_ok; [exact Hok|exact Er|done|exact Hn|exact He|exact Ho|done|by rewrite Hp|done|done|right]. split; [done|]. split; [done|]. by exists n.
  - intros k x Hx. rewrite He. destruct (decide (k = id)) as [->|Hne]; [|exists x; by rewrite lookup_insert_ne]. exists (expired_row row). rewrite lookup_insert_eq.
    assert (x = row) as -> by congruence. done.
  - intros k. unfold resolved. rewrite He. destruct (decide (k = id)) as [->|Hne]; [|by rewrite lookup_insert_ne]. rewrite lookup_insert_eq, Er. cbn. by rewrite Hpend.
Qed.

Lemma expire_each_expires n ids d d' : (n < drawn d)%nat -> expire_each ulid utc (utc n) ids d = (Ok tt, d') -> expires d d'.
Proof using Type.
  revert d. induction ids as [|id ids IH]; intros d Hlt; cbn; [by intros [= <-]|]. unfold sbind. destruct (expire_one _ _ _ _ d) as [[[]|e] d1] eqn:E; [|done].
  apply expire_one_expires in E; [|done]. intros Hrest. etransitivity; [exact E|]. apply IH; [destruct E; lia|done].
Qed.
#[local] Arguments expire_pending : simpl never.
#[local] Arguments expire_each : simpl never.
#[local] Arguments insert_escalation : simpl never.
#[local] Arguments dumps : simpl never.
#[local] Arguments ApiEscalation.receipt : simpl never.

(** ** The answer *)

(** What the answer of a request leaves: the row, resolved as it asked, with the
    view it was given. *)
Definition stands (id : string) (body : ResolveRequest) (views : list EscalationView) (d : desk) : Prop :=
  exists row v, escalations d !! id = Some row /\ e_status row = "resolved"%string /\ e_decision row = Some (q_decision body) /\
    e_approver row = Some (q_approver body) /\ e_channel row = Some (q_channel body) /\ views = [v] /\ _view id row = Ok v.

Lemma stands_kept id body views d d' : keeps d d' -> stands id body views d -> stands id body views d'.
Proof using Type.
  intros Hk (row & v & Hr & Hs & Hrest). destruct (Hk _ _ Hr) as (row' & Hr' & Hn & _). rewrite Hn in Hr' by (rewrite Hs; done). by exists row, v.
Qed.

Lemma answer_decides id body sig n view d d' : (n < drawn d)%nat -> receipt id (q_decision body) (q_approver body) (q_channel body) (utc n) = Ok sig ->
  answer_pending ulid utc id (q_decision body) (q_approver body) (q_channel body) sig (utc n) d = (Ok view, d') -> desk_ok d ->
  (drawn d <= drawn d')%nat /\ desk_ok d' /\ keeps d d' /\ (forall k, resolved k d' = resolved k d || String.eqb id k) /\ resolved id d = false /\ stands id body [view] d'.
Proof using Type.
  intros Hlt Hsig. unfold answer_pending. destruct (escalations d !! id) as [row|] eqn:Er; [|done]. destruct (_ && negb _) eqn:Eg; [|done].
  apply andb_prop in Eg as [Hpend%String.eqb_eq Hin%negb_true_iff]. set (row' := resolved_row _ _ _ _ row). intros Ha Hok.
  assert (exists ev v, outbox d !! ev = None /\ escalations d' = <[id := row']> (escalations d) /\ outbox d' = <[ev := v]> (outbox d) /\ (drawn d <= drawn d')%nat /\
    v_type v = event_type row' /\ v_aggregate_id v = e_purchase_id row' /\ assoc "escalation_id" (v_payload v) = Some (VStr id) /\ _view id row' = Ok view) as (ev & v & Hn & He & Ho & Hle & Ht & Hg & Hp & Hv).
  { revert Ha. unfold sbind, event_type. cbn. destruct (String.eqb_spec (q_decision body) "APPROVE") as [->|Hne].
    - destruct (emit_event _ _ _ _ _ _) as [[[]|e] d1] eqn:E; [|done]. apply emit_inserts in E as (ev & v & Hn & He & Ho & Hle & Ht & Ha & Hp). intros [= Hv <-].
      exists ev, v. rewrite bool_decide_eq_true_2 by done. split_and!; try done. by rewrite Hp.
    - destruct (emit_event _ _ _ _ _ _) as [[[]|e] d1] eqn:E; [|done]. apply emit_inserts in E as (ev & v & Hn & He & Ho & Hle & Ht & Ha & Hp). intros [= Hv <-].
      exists ev, v. rewrite bool_decide_eq_false_2 by naive_solver. split_and!; try done. by rewrite Hp. }
  split_and!.
  - done.
  - eapply decided_ok; [exact Hok|exact Er|done|exact Hn|exact He|exact Ho|done|done|done|done|]. left. split; [done|]. by eexists _, _, _, n, sig.
  - intros k x Hx. rewrite He. destruct (decide (k = id)) as [->|Hne]; [|exists x; by rewrite lookup_insert_ne]. exists row'. rewrite lookup_insert_eq.
    assert (x = row) as -> by congruence. done.
  - intros k. unfold resolved. rewrite He. destruct (String.eqb_spec id k) as [->|Hne]; [by rewrite lookup_insert_eq, Er, orb_true_r|].
    by rewrite lookup_insert_ne, orb_false_r.
  - unfold resolved. rewrite Er, Hpend. done.
  - exists row', view. rewrite He, lookup_insert_eq. by split_and!.
Qed.

(** The clock and the identifiers only advance. *)
Definition advances {A} (m : st desk A) : Prop := forall d, (drawn d <= drawn (m d).2)%nat.

Lemma advances_bind {A B} (m : st desk A) (f : A -> st desk B) : advances m -> (forall a, advances (f a)) -> advances (sbind m f).
Proof using Type.
  intros Hm Hf d. specialize (Hm d). unfold sbind. destruct (m d) as [[a|e] d1]; [|done]. cbn in Hm. specialize (Hf a d1). lia.
Qed.
Lemma advances_still {A} (r : desk -> res A) : advances (fun d => (r d, d)).
Proof using Type. intros d. done. Qed.
Lemma advances_draw : advances draw.
Proof using Type. intros d. cbn. lia. Qed.
Lemma advances_now : advances (now utc).
Proof using Type. apply advances_bind; [apply advances_draw|intros n; apply advances_still]. Qed.
Lemma advances_emit type agg payload : advances (emit_event ulid utc type agg payload).
Proof using Type.
  unfold emit_event. destruct (negb _); [apply (advances_still (fun _ => Raise ValueError))|].
  apply advances_bind; [apply advances_bind; [apply advances_draw|intros n; apply advances_still]|]. intros id.
  apply advances_bind; [apply advances_now|]. intros t d. by destruct (outbox d !! id).
Qed.
Lemma advances_expire moment ids : advances (expire_each ulid utc moment ids).
Proof using Type.
  unfold expire_each. induction ids as [|id ids IH]; [apply (advances_still (fun _ => Ok tt))|]. apply advances_bind; [|intros _; exact IH].
  intros d. unfold expire_one. destruct (escalations d !! id) as [row|]; [|done]. destruct (overdue moment row); [|done].
  exact (advances_emit "escalation.expired" (e_purchase_id row) _ (set_escalations _ d)).
Qed.
Lemma advances_answer id decision approver channel sig moment : advances (answer_pending ulid utc id decision approver channel sig moment).
Proof using Type.
  intros d. unfold answer_pending. destruct (escalations d !! id) as [row|]; [|done]. destruct (_ && negb _); [|done].
  match goal with |- (_ <= drawn (?m ?d1).2)%nat => assert (advances m) as Hm; [|exact (Hm d1)] end.
  apply advances_bind; [destruct (String.eqb _ _); apply advances_emit|]. intros []. apply (advances_still (fun _ => _view id _)).
Qed.
Lemma advances_insert id row : advances (insert_escalation id row).
Proof using Type. intros d. unfold insert_escalation. by destruct (escalations d !! id). Qed.

(** A transaction that raises leaves the tables as they were. *)
Lemma transaction_raises {A} (m : st desk A) e d : advances m -> (in_transaction m d).1 = Raise e -> expires d (in_transaction m d).2.
Proof using Type. intros Hm. specialize (Hm d). revert Hm. unfold in_transaction. destruct (m d) as [[a|e'] d']; [done|]. cbn. intros Hle _. split; [done|]. intros Hok. split; [by apply (same_ok d)|]. split; [by apply untouched_keeps|done]. Qed.

(** ** Requests that race *)

Inductive request : Type :=
| Create (purchase_id mandate_id : string) (diff : option pydict) (timeout_at : option Z)
| ListEscalations (mandate_id status : option string)
| Sweep
| Resolve (escalation_id : string) (body : ResolveRequest).

Definition serve (r : request) : prog desk (list EscalationView) :=
  match r with
  | Create p m diff t => v <~ create ulid utc escalation_timeout_seconds p m diff t ; pret [v]
  | ListEscalations m status => list_escalations ulid utc m status
  | Sweep => _ <~ sweep ulid utc ; pret []
  | Resolve id body => v <~ resolve_escalation ulid utc issuer_key issuer_kid id body ; pret [v]
  end.

(** A request to resolve the escalation that was answered its view. *)
Definition wins (id : string) (r : request) (p : prog desk (list EscalationView)) : bool :=
  match r, p with Resolve id' _, Finish (Ok _) => String.eqb id' id | _, _ => false end.
Definition winner_stands (r : request) (p : prog desk (list EscalationView)) (d : desk) : Prop :=
  match r, p with Resolve id body, Finish (Ok views) => stands id body views d | _, _ => True end.

(** A program whose statements resolve an escalation only with its answer, from
    where the clock has been read [N] times. *)
Fixpoint sound (N : nat) (r : request) (p : prog desk (list EscalationView)) : Prop :=
  match p with
  | Finish _ => True
  | Do op k => forall d, desk_ok d -> (N <= drawn d)%nat ->
      (drawn d <= drawn (op d).2)%nat /\ desk_ok (op d).2 /\ keeps d (op d).2 /\ sound (drawn (op d).2) r (k (op d).1) /\
      winner_stands r (k (op d).1) (op d).2 /\
      forall id, resolved id (op d).2 = resolved id d || wins id r (k (op d).1) /\ (wins id r (k (op d).1) = true -> resolved id d = false)
  end.

Lemma sound_later N N' r p : (N <= N')%nat -> sound N r p -> sound N' r p.
Proof using Type. intros Hle. destruct p as [|X op k]; [done|]. intros Hs d Hd HN. apply Hs; [done|lia]. Qed.
#[local] Arguments sound : simpl never.

(** A statement that expires rows at most, and does not answer. *)
Lemma sound_expires {X} N r (op : st desk X) (k : res X -> prog desk (list EscalationView)) :
  (forall d, (N <= drawn d)%nat -> expires d (op d).2 /\ sound (drawn (op d).2) r (k (op d).1) /\ forall id body views, r = Resolve id body -> k (op d).1 <> Finish (Ok views)) ->
  sound N r (Do op k).
Proof using Type.
  intros Hop d Hd HN. destruct (Hop d HN) as ([Hle He] & Hs & Hn). destruct (He Hd) as (Hd' & Hk & Hr). do 4 (split; [done|]).
  assert (Hw : forall id, wins id r (k (op d).1) = false).
  { intros id. unfold wins. destruct r as [| | |id' body]; try done. specialize (Hn id' body). destruct (k (op d).1) as [[views|]|]; [by specialize (Hn views eq_refl)|done..]. }
  split; [|intros id; by rewrite Hw, Hr, orb_false_r]. unfold winner_stands. destruct r as [| | |id' body]; try done. specialize (Hn id' body).
  destruct (k (op d).1) as [[views|]|]; [by destruct (Hn views eq_refl)|done..].
Qed.

Lemma sound_quiet {X} N r (op : st desk X) (k : res X -> prog desk (list EscalationView)) : (forall d, (op d).2 = d) ->
  (forall x, sound N r (k x) /\ forall id body views, r = Resolve id body -> k x <> Finish (Ok views)) -> sound N r (Do op k).
Proof using Type.
  intros Hop Hk. apply sound_expires. intros d HN. rewrite Hop. destruct (Hk (op d).1) as [Hs Hn]. split; [done|]. split; [by eapply sound_later|done].
Qed.
Lemma sound_transaction {A} N r (m : st desk A) (k : res A -> prog desk (list EscalationView)) : advances m -> (forall d a d', m d = (Ok a, d') -> expires d d') ->
  (forall x, sound 0 r (k x) /\ forall id body views, r = Resolve id body -> k x <> Finish (Ok views)) -> sound N r (Do (in_transaction m) k).
Proof using Type.
  intros Hadv Hm Hk. apply sound_expires. intros d HN. destruct (Hk (in_transaction m d).1) as [Hs Hn].
  split; [|split; [eapply sound_later, Hs; lia|exact Hn]]. destruct (in_transaction m d).1 as [a|e] eqn:E; [|by eapply transaction_raises].
  unfold in_transaction in *. destruct (m d) as [[b|e] d'] eqn:Em; [|done]. by eapply Hm.
Qed.

Lemma drawn_expires d : expires d (draw d).2.
Proof using Type. split; [cbn; lia|]. intros Hd. split; [apply (same_ok d); [done|done|cbn; lia|done]|]. split; [by apply untouched_keeps|done]. Qed.

Lemma pending_expires n d ids d' : (n < drawn d)%nat -> expire_pending ulid utc (utc n) d = (Ok ids, d') -> expires d d'.
Proof using Type.
  intros Hn. unfold expire_pending, sbind, gets, ret. destruct (expire_each _ _ _ _ d) as [[[]|e] d1] eqn:E; [|done]. intros [= _ <-]. by eapply expire_each_expires.
Qed.
Lemma advances_pending moment : advances (expire_pending ulid utc moment).
Proof using Type.
  unfold expire_pending. apply advances_bind; [apply advances_still|]. intros ids. apply advances_bind; [apply advances_expire|]. intros []. apply advances_still.
Qed.

Lemma sound_list N mandate_id status : sound N (ListEscalations mandate_id status) (list_escalations ulid utc mandate_id status).
Proof using Type.
  apply sound_transaction; [| |done].
  - apply advances_bind; [apply advances_now|]. intros moment. apply advances_bind; [apply advances_pending|]. intros ids.
    apply advances_bind; [apply advances_still|]. intros rows. apply (advances_still (fun _ => res_map _ rows)).
  - intros d views d'. unfold sbind, now, draw, ret, gets, lift. cbn.
    destruct (expire_pending _ _ _ _) as [[ids|e] d1] eqn:E; [|done]. intros [= _ <-]. etransitivity; [apply drawn_expires|]. eapply pending_expires; [|exact E]. cbn. lia.
Qed.

Lemma sound_sweep N : sound N Sweep (serve Sweep).
Proof using Type.
  apply (sound_transaction N Sweep (moment <- now utc ;; expire_pending ulid utc moment ;;; ret tt)); [| |intros [[]|e]; by split].
  - apply advances_bind; [apply advances_now|]. intros moment. apply advances_bind; [apply advances_pending|]. intros ids. apply advances_still.
  - intros d [] d'. unfold sbind, now, draw, ret, gets. cbn.
    destruct (expire_pending _ _ _ _) as [[ids|e] d1] eqn:E; [|done]. intros [= <-]. etransitivity; [apply drawn_expires|]. eapply pending_expires; [|exact E]. cbn. lia.
Qed.

(** A new row is pending under a fresh id. *)
Lemma insert_expires id row d d' : e_status row = "pending"%string -> e_decision row = None -> insert_escalation id row d = (Ok tt, d') -> expires d d'.
Proof using Type.
  intros Hp Hn. unfold insert_escalation. destruct (escalations d !! id) eqn:Er; [done|]. intros [= <-]. split; [done|]. intros [Hrows Hevs]. split; [split|split]; cbn.
  - intros k x [[<- <-]|[Hk Hx]]%lookup_insert_Some; [|by destruct (Hrows _ _ Hx)]. split; rewrite ?Hp; try done; [|set_solver].
    split; [done|]. intros ev v Hv Hab. destruct (Hevs _ _ _ Hv Hab) as [y Hy]. congruence.
  - intros ev v k Hv Hab. destruct (Hevs _ _ _ Hv Hab) as [y Hy]. exists y. rewrite lookup_insert_ne; [done|congruence].
  - intros k x Hx. exists x. cbn. rewrite lookup_insert_ne by congruence. done.
  - intros k. unfold resolved. cbn. destruct (decide (k = id)) as [->|Hne]; [by rewrite lookup_insert_eq, Er, Hp|by rewrite lookup_insert_ne].
Qed.

Lemma sound_create N p m diff t : sound N (Create p m diff t) (serve (Create p m diff t)).
Proof using Type.
  apply sound_transaction; [| |intros [v|e]; by split].
  { apply advances_bind; [destruct t; [apply advances_still|apply advances_bind; [apply advances_now|intros moment; apply advances_still]]|]. intros deadline.
    apply advances_bind; [apply advances_bind; [apply advances_draw|intros n; apply advances_still]|]. intros id.
    apply advances_bind; [destruct diff as [kvs|]; [apply advances_bind; [apply (advances_still (fun _ => dumps _ _))|intros text]|]; apply advances_still|]. intros text.
    apply advances_bind; [apply advances_now|]. intros created. apply advances_bind; [apply advances_insert|]. intros []. apply (advances_still (fun _ => _view id _)). }
  intros d v d'. unfold sbind at 1. intros Hm.
  assert (exists deadline d0, expires d d0 /\ (match t with Some t => ret t | None => moment <- now utc ;; ret (moment + escalation_timeout_seconds * 1000000) end) d = (Ok deadline, d0)) as (deadline & d0 & H0 & E0).
  { destruct t; [by exists z, d|]. eexists _, _. split; [apply drawn_expires|done]. }
  rewrite E0 in Hm. unfold sbind, new_id, now, lift, ret, draw in Hm. cbn in Hm.
  destruct diff as [kvs|]; [destruct (dumps _ _) as [text|e]; [|done]|]; cbn in Hm;
    (destruct (insert_escalation _ _ _) as [[[]|e] d2] eqn:E2; [|done]; injection Hm as _ <-;
     etransitivity; [exact H0|]; etransitivity; [apply drawn_expires|]; etransitivity; [apply drawn_expires|]; by eapply insert_expires; [..|exact E2]).
Qed.

Lemma sound_answer N id body n expiring sig : (n < N)%nat -> receipt id (q_decision body) (q_approver body) (q_channel body) (utc n) = Ok sig ->
  sound N (Resolve id body) (Do (in_transaction (expire_each ulid utc (utc n) expiring ;;;
    answer_pending ulid utc id (q_decision body) (q_approver body) (q_channel body) sig (utc n)))
    (fun r => pbind (pcatch (Finish r) (fun e => match e with EscalationNotFound => Some (praise (HTTPException 404)) | EscalationConflict _ => Some (praise (HTTPException 409)) | _ => None end)) (fun v => pret [v]))).
Proof using Type.
  intros HnN Hsig d Hd HN. destruct (in_transaction _ d).1 as [view|e] eqn:E.
  - unfold in_transaction in *. destruct ((_ ;;; _) d) as [[v|e] d'] eqn:Em; [|done]. cbn in E. injection E as ->. unfold sbind in Em.
    destruct (expire_each _ _ _ _ d) as [[[]|e] d1] eqn:Ee; [|done]. destruct (expire_each_expires n expiring d d1 ltac:(lia) Ee) as [L1 He]. destruct (He Hd) as (Hd1 & K1 & R1).
    destruct (answer_decides id body sig n view d1 d' ltac:(lia) Hsig Em Hd1) as (L2 & Hd' & K2 & R2 & Hnot & Hst). cbn. split_and!; [lia|done|by etransitivity|exact I|exact Hst|].
    intros k. rewrite R2, R1. split; [done|]. intros <-%String.eqb_eq. by rewrite <- R1.
  - pose proof E as Hraise. apply transaction_raises in Hraise as [Hle He]; [|apply advances_bind; [apply advances_expire|intros []; apply advances_answer]].
    destruct (He Hd) as (Hd' & K & R). do 3 (split; [done|]).
    assert (Hfin : forall x, exists e', pbind (pcatch (Finish (S := desk) (Raise x)) (fun e => match e with EscalationNotFound => Some (praise (HTTPException 404)) | EscalationConflict _ => Some (praise (HTTPException 409)) | _ => None end)) (fun v : EscalationView => pret [v]) = Finish (Raise e')) by (intros x; destruct x; by eexists).
    destruct (Hfin e) as [e' ->]. split_and!; [exact I|exact I|]. intros k. cbn. by rewrite R, orb_false_r.
Qed.

Lemma serve_sound N r : sound N r (serve r).
Proof using Type.
  destruct r as [p m diff t|m status| |id body]; [apply sound_create|apply sound_list|apply sound_sweep|].
  cbn [serve]. unfold resolve_escalation, resolve. destruct (q_sticky body); [exact I|]. cbn [pbind pcatch atomic select].
  apply sound_expires. intros d HN. split; [apply drawn_expires|]. cbn. split; [|done].
  apply sound_quiet; [done|]. intros [expiring|e]; cbn; [|by destruct e; split]. split; [|done].
  apply sound_quiet; [done|]. intros [[row|]|e]; cbn; [|by split|by destruct e; split].
  destruct (_ || _); cbn; [by split|]. destruct (negb _); cbn; [by split|]. destruct (receipt _ _ _ _ _) as [sig|e] eqn:Hsig; cbn.
  - split; [|done]. apply sound_answer; [lia|done].
  - by destruct e; split.
Qed.
(** ** The count of answers *)

Definition answers (id : string) (requests : list request) (pool : list (prog desk (list EscalationView))) : Z :=
  foldr Z.add 0 (zip_with (fun r p => Z.b2z (wins id r p)) requests pool).

Lemma answers_insert id requests pool i r p p' : requests !! i = Some r -> pool !! i = Some p ->
  answers id requests (<[i := p']> pool) = answers id requests pool - Z.b2z (wins id r p) + Z.b2z (wins id r p').
Proof using Type.
  revert pool i. induction requests as [|r0 requests IH]; intros [|q pool] [|i] Hr Hp; try done.
  - injection Hr as ->. injection Hp as ->. unfold answers. cbn. lia.
  - specialize (IH pool i Hr Hp). change (<[S i := p']> (q :: pool)) with (q :: <[i := p']> pool). unfold answers in *. cbn [zip_with foldr] in *. lia.
Qed.

Lemma unserved id r : wins id r (serve r) = false.
Proof using Type. destruct r as [| | |id' body]; [done..|]. cbn. unfold resolve_escalation, resolve. by destruct (q_sticky body). Qed.

Lemma answers_start id requests : answers id requests (map serve requests) = 0.
Proof using Type. induction requests as [|r requests IH]; [done|]. unfold answers in *. cbn [map zip_with foldr]. by rewrite IH, unserved. Qed.

Definition racing (d0 : desk) (requests : list request) (pool : list (prog desk (list EscalationView))) (d : desk) : Prop :=
  desk_ok d /\ keeps d0 d /\ Forall2 (fun r p => sound (drawn d) r p /\ winner_stands r p d) requests pool /\
  forall id, answers id requests pool = Z.b2z (resolved id d) - Z.b2z (resolved id d0).

Lemma winner_kept r p d d' : keeps d d' -> winner_stands r p d -> winner_stands r p d'.
Proof using Type. intros Hk. destruct r as [| | |id body], p as [[views|]|]; try done. by apply stands_kept. Qed.

Lemma racing_step d0 requests i p pool d : pool !! i = Some p -> racing d0 requests pool d ->
  racing d0 requests (<[i := (step_prog p d).1]> pool) (step_prog p d).2.
Proof using Type.
  intros Hp (Hd & Hk & Hst & Hcount). destruct (Forall2_lookup_r _ _ _ _ _ Hst Hp) as (r & Hr & Hs & Hw). destruct p as [x|X op k].
  { cbn [step_prog fst snd]. by rewrite list_insert_id. }
  destruct (Hs d Hd (Nat.le_refl _)) as (Hle & Hd' & Hk' & Hs' & Hw' & Hres). cbn [step_prog]. destruct (op d) as [x d'] eqn:Eo. cbn [fst snd] in *.
  split; [done|]. split; [by etransitivity|]. split.
  - rewrite <- (list_insert_id requests i r Hr). apply Forall2_insert; [|by split]. eapply Forall2_impl; [exact Hst|]. intros r' q [H1 H2]. split; [by eapply sound_later|by eapply winner_kept].
  - intros id. destruct (Hres id) as [Hid Hno]. rewrite (answers_insert id requests pool i r _ _ Hr Hp), Hcount, Hid. assert (wins id r (Do op k) = false) as -> by (by destruct r).
    destruct (wins id r (k x)); [rewrite Hno by done; cbn; lia|rewrite orb_false_r; cbn; lia].
Qed.

(** C17: Whatever requests race, interleaved statement by statement and stopped anywhere:
    each escalation keeps what was asked and, once decided, its decision.  It is
    resolved by exactly one answer, with a signed receipt and at a moment the clock
    has told that is not after its deadline; it is expired only when the clock has
    told a moment after its deadline.  Every decision has exactly one event of its
    kind in the outbox, and a pending escalation none. *)
Theorem escalations_decided_once requests schedule d : desk_ok d ->
  let out := interleave schedule (map serve requests) d in
  desk_ok out.2 /\ keeps d out.2 /\
  (forall id, answers id requests out.1 = Z.b2z (resolved id out.2) - Z.b2z (resolved id d)) /\
  forall i id body views, requests !! i = Some (Resolve id body) -> out.1 !! i = Some (Finish (Ok views)) -> stands id body views out.2.
Proof using Type.
  intros Hd out. assert (racing d requests out.1 out.2) as (Hd' & Hk & Hst & Hcount).
  { apply (interleave_invariant (racing d requests)); [intros i p pool s; apply racing_step|]. split; [done|]. split; [done|]. split.
    - clear out. induction requests as [|r l IH]; cbn; constructor; [|done]. split; [apply serve_sound|].
      pose proof (unserved "" r) as Hu. destruct r as [| | |id body]; try done. cbn in *. unfold resolve_escalation, resolve. by destruct (q_sticky body).
    - intros id. rewrite answers_start. lia. }
  split; [done|]. split; [done|]. split; [done|]. intros i id body views Hr Hv. destruct (Forall2_lookup_lr _ _ _ _ _ _ Hst Hr Hv) as [_ Hw]. exact Hw.
Qed.

(** ** One answer alone *)

(** The next events have ids of their own. *)
Definition fresh (d : desk) : Prop := forall n, (drawn d <= n)%nat -> outbox d !! ("evt" +:+ "_" +:+ ulid n)%string = None.

(** The [n]-th event: its key in the outbox, and the row of it. *)
Definition event_key (n : nat) : string := ("evt" +:+ "_" +:+ ulid n)%string.
Definition told_at (n : nat) (type aggregate_id : string) (payload : pydict) : EventEnvelope :=
  {| v_type := type; v_aggregate_id := aggregate_id; v_payload := payload; v_created_at := _iso (utc (S n)) |}.

Lemma emit_fresh type agg payload d : (forall a b, ulid a = ulid b -> a = b) -> existsb (String.eqb type) KNOWN_EVENT_TYPES = true -> fresh d ->
  let d' := {| escalations := escalations d; outbox := <[event_key (drawn d) := told_at (drawn d) type agg payload]> (outbox d); drawn := S (S (drawn d)) |} in
  emit_event ulid utc type agg payload d = (Ok tt, d') /\ fresh d'.
Proof using Type.
  intros Hinj Hty Hf d'. unfold emit_event. rewrite Hty. unfold new_id, now, draw, sbind, ret. cbn. rewrite Hf by done. split; [done|].
  intros n Hn. cbn in *. unfold event_key. rewrite lookup_insert_ne; [apply Hf; lia|]. intros Heq. assert (drawn d = n) by (apply Hinj; by injection Heq). lia.
Qed.

(** The rows of these ids expired, and each told in its turn from the [n]-th event on. *)
Definition expire_rows (ids : list string) (rows : gmap string Escalation) : gmap string Escalation :=
  foldl (fun m id => alter expired_row id m) rows ids.
Fixpoint told_expired (n : nat) (ids : list string) (rows : gmap string Escalation) (box : gmap string EventEnvelope) : gmap string EventEnvelope :=
  match ids with
  | [] => box
  | id :: rest =>
      told_expired (S (S n)) rest rows
        match rows !! id with
        | Some row => <[event_key n := told_at n "escalation.expired" (e_purchase_id row) [("escalation_id", VStr id)]%string]> box
        | None => box
        end
  end.

Lemma told_ext n ids rows rows' box : (forall id, id ∈ ids -> rows !! id = rows' !! id) -> told_expired n ids rows box = told_expired n ids rows' box.
Proof using Type.
  revert n box. induction ids as [|id ids IH]; intros n box Hext; [done|]. cbn [told_expired]. rewrite (Hext id) by left.
  apply IH. intros k Hk. apply Hext. by right.
Qed.

Lemma expiry_run moment ids d : (forall a b, ulid a = ulid b -> a = b) -> fresh d -> NoDup ids ->
  (forall id, id ∈ ids -> exists row, escalations d !! id = Some row /\ overdue moment row = true) ->
  let d' := {| escalations := expire_rows ids (escalations d); outbox := told_expired (drawn d) ids (escalations d) (outbox d);
               drawn := drawn d + 2 * length ids |} in
  expire_each ulid utc moment ids d = (Ok tt, d') /\ fresh d'.
Proof using Type.
  intros Hinj. unfold expire_each. revert d. induction ids as [|id ids IH]; intros d Hf Hnd Hover; cbn [length].
  { rewrite Nat.add_0_r. by destruct d. }
  apply NoDup_cons in Hnd as [Hid Hnd]. destruct (Hover id) as (row & Hr & Ho); [by left|]. unfold sbind at 1. unfold expire_one at 1. rewrite Hr, Ho.
  destruct (emit_fresh "escalation.expired" (e_purchase_id row) [("escalation_id", VStr id)]%string (set_escalations (<[id := expired_row row]> (escalations d)) d) Hinj eq_refl Hf)
    as [He Hf']. rewrite He. cbn [escalations outbox drawn set_escalations] in Hf' |- *. destruct (IH _ Hf' Hnd) as [-> Hf2].
  { intros k Hk. cbn. rewrite lookup_insert_ne by (by intros ->). apply Hover. by right. }
  cbn [escalations outbox drawn set_escalations told_expired expire_rows foldl] in *. rewrite Hr.
  assert (<[id := expired_row row]> (escalations d) = alter expired_row id (escalations d)) as Halter.
  { apply map_eq. intros k. destruct (decide (k = id)) as [->|Hne]; [by rewrite lookup_insert_eq, lookup_alter_eq, Hr|by rewrite lookup_insert_ne, lookup_alter_ne]. }
  rewrite Halter in *.
  assert (forall box, told_expired (S (S (drawn d))) ids (alter expired_row id (escalations d)) box = told_expired (S (S (drawn d))) ids (escalations d) box) as Hext.
  { intros box. apply told_ext. intros k Hk. rewrite lookup_alter_ne; [done|]. by intros ->. }
  rewrite Hext in *. replace (drawn d + 2 * S (length ids))%nat with (S (S (drawn d)) + 2 * length ids)%nat by lia. by split.
Qed.

Lemma expire_rows_lookup ids rows k : NoDup ids -> expire_rows ids rows !! k = if bool_decide (k ∈ ids) then expired_row <$> rows !! k else rows !! k.
Proof using Type.
  unfold expire_rows. revert rows. induction ids as [|id ids IH]; intros rows Hnd; [done|]. apply NoDup_cons in Hnd as [Hid Hnd]. cbn [foldl]. rewrite IH by done.
  destruct (decide (k = id)) as [->|Hne].
  - rewrite bool_decide_false by done. rewrite bool_decide_true by left. apply lookup_alter_eq.
  - rewrite lookup_alter_ne by done. destruct (bool_decide_reflect (k ∈ ids)) as [Hk|Hk].
    + rewrite bool_decide_true by (by right). done.
    + rewrite bool_decide_false; [done|]. intros [->|Hk']%elem_of_cons; done.
Qed.

(** The ids the UPDATE matches: each overdue row once. *)
Lemma overdue_ids_spec moment d : NoDup (overdue_ids moment d) /\
  forall id, id ∈ overdue_ids moment d <-> exists row, escalations d !! id = Some row /\ overdue moment row = true.
Proof using Type.
  unfold overdue_ids. assert (forall l : list (string * Escalation), List.filter (fun kv => overdue moment kv.2) l = filter (fun kv => Is_true (overdue moment kv.2)) l) as Hl.
  { intros l. induction l as [|x l IH]; [done|]. cbn [List.filter]. rewrite IH, filter_cons. by destruct (overdue moment x.2). }
  rewrite Hl. split.
  - eapply sublist_NoDup; [apply (NoDup_fst_map_to_list (escalations d))|]. apply fmap_sublist, sublist_filter.
  - intros id. rewrite list_elem_of_fmap. split.
    + intros ([k row] & -> & [Ho Hin]%list_elem_of_filter). exists row. split; [by apply elem_of_map_to_list|by apply Is_true_true].
    + intros (row & Hr & Ho). exists (id, row). split; [done|]. apply list_elem_of_filter. split; [by apply Is_true_true|by apply elem_of_map_to_list].
Qed.
Lemma receipt_signed id decision approver channel moment : kty issuer_key = "OKP"%string \/ kty issuer_key = "EC"%string ->
  exists sig, receipt id decision approver channel moment = Ok sig.
Proof using Type.
  intros Hk. unfold ApiEscalation.receipt, sign_compact, receipt_payload.
  assert (exists alg, alg_for issuer_key = Ok alg /\ (alg = "EdDSA" \/ alg = "ES256")%string) as (alg & -> & Halg).
  { unfold alg_for. destruct Hk as [-> | ->]; cbn; by eexists; split; [done|auto]. }
  cbn [rbind]. match goal with |- context [jcs_dumps (VDict ?kvs)] => destruct (jcs_decodes kvs) as (text & _ & -> & _) end; [done| |done|].
  - cbn. repeat (constructor; [set_solver|]). constructor.
  - cbn [rbind]. match goal with |- context [jws_sign issuer_key alg ?h text] => destruct (jws_signs issuer_key alg h text Halg) as (sig & ->) end. by eexists.
Qed.

(** What a request to resolve answers when nothing runs beside it. *)
Definition resolution_verdict (d : desk) (id : string) (body : ResolveRequest) : option exn :=
  match q_sticky body, escalations d !! id with
  | Some _, _ => Some (HTTPException 409)
  | _, None => Some (HTTPException 404)
  | _, Some row =>
      if String.eqb (e_status row) "pending" && negb (String.ltb (e_timeout_at row) (_iso (utc (drawn d)))) then None else Some (HTTPException 409)
  end.

Lemma expiring_exact moment id row d : escalations d !! id = Some row -> existsb (String.eqb id) (overdue_ids moment d) = overdue moment row.
Proof using Type.
  intros Hr. apply eq_bool_prop_intro. rewrite !Is_true_true, existsb_exists. destruct (overdue_ids_spec moment d) as [_ Hin]. split.
  - intros (k & Hk & ->%String.eqb_eq). apply list_elem_of_In, Hin in Hk as (x & Hx & Ho). congruence.
  - intros Ho. exists id. split; [|by apply String.eqb_refl]. apply list_elem_of_In, Hin. by exists row.
Qed.

(** The view of a row just resolved. *)
Lemma view_resolved id body sig row deadline diff : valid_us deadline -> e_timeout_at row = isoformat deadline -> e_resolved_at row = None ->
  match or_str (e_diff row) None with Some text => loads json_float_repr text = Ok diff | None => diff = VNone end ->
  (q_decision body = "APPROVE" \/ q_decision body = "REJECT")%string -> (q_channel body = "telegram" \/ q_channel body = "web")%string ->
  exists v resolution, _view id (resolved_row (q_decision body) (q_approver body) (q_channel body) sig row) = Ok v /\
    w_status v = "resolved"%string /\ w_resolution v = Some resolution /\ rs_decision resolution = q_decision body /\ rs_receipt_sig resolution = Some sig /\
    rs_resolved_at resolution = w_timeout_at v.
Proof using Type.
  intros Hus Ht Hr Hdiff Hdec Hch. unfold _view, resolution_of. cbn [e_decision e_status e_channel e_approver e_resolved_at e_timeout_at e_diff e_receipt_sig resolved_row].
  rewrite Hr, Ht. assert (forall l s, truthy_str s = true -> existsb (String.eqb s) l = true -> or_str (Some s) None = Some s /\ one_of l s = Ok s) as Hone
    by (intros l x Hx Hl; unfold or_str, one_of; by rewrite Hx, Hl).
  destruct (Hone ["APPROVE"; "REJECT"]%string (q_decision body)) as [-> ->]; [by destruct Hdec as [-> | ->]..|].
  destruct (Hone ["telegram"; "web"]%string (q_channel body)) as [Hc Hc']; [by destruct Hch as [-> | ->]..|].
  unfold override_text. rewrite Hc. cbn. rewrite Hc'. cbn. unfold _from_iso. rewrite isoformat_parse by done. cbn.
  assert (match or_str (e_diff row) None with Some text => loads json_float_repr text | None => Ok VNone end = Ok diff) as -> by (destruct (or_str _ _); [done|by rewrite Hdiff]).
  cbn. by eexists _, _.
Qed.

(** The event of an answer. *)
Definition answer_type (decision : string) : string := if String.eqb decision "APPROVE" then "escalation.resolved"%string else "escalation.expired"%string.
Definition answer_payload (id decision sig : string) : pydict :=
  if String.eqb decision "APPROVE" then [("escalation_id", VStr id); ("decision", VStr decision); ("receipt_sig", VStr sig)]%string
  else [("escalation_id", VStr id)]%string.

(** An answer in time to a pending escalation, once the overdue ones are expired. *)
Lemma answer_fresh id body sig row moment d v : (forall a b, ulid a = ulid b -> a = b) -> fresh d -> escalations d !! id = Some row ->
  e_status row = "pending"%string -> String.ltb (e_timeout_at row) (_iso moment) = false ->
  _view id (resolved_row (q_decision body) (q_approver body) (q_channel body) sig row) = Ok v ->
  answer_pending ulid utc id (q_decision body) (q_approver body) (q_channel body) sig moment d =
    (Ok v, {| escalations := <[id := resolved_row (q_decision body) (q_approver body) (q_channel body) sig row]> (escalations d);
              outbox := <[event_key (drawn d) := told_at (drawn d) (answer_type (q_decision body)) (e_purchase_id row) (answer_payload id (q_decision body) sig)]> (outbox d);
              drawn := S (S (drawn d)) |}).
Proof using Type.
  intros Hinj Hf Er Hp Hin Hv. unfold answer_pending. rewrite Er, Hp, Hin. cbn [negb andb String.eqb Ascii.eqb Bool.eqb]. set (d0 := set_escalations _ d).
  unfold sbind, answer_type, answer_payload, lift.
  destruct (String.eqb (q_decision body) "APPROVE"); (match goal with |- context [emit_event _ _ ?ty ?agg ?pay d0] =>
    destruct (emit_fresh ty agg pay d0 Hinj eq_refl Hf) as [-> _] end); by rewrite Hv.
Qed.

(** C37: Run alone, an answer is refused exactly when it is sticky (409), unknown (404),
    overdue or decided (409), and then changes no table: an overdue escalation is
    not expired by it.  Otherwise every overdue escalation is expired and told,
    and the one answered is resolved as asked, with one event more: a resolution
    with the signed receipt if it was approved, an expiry if it was rejected.  The
    view tells the deadline as the moment of the resolution. *)
Theorem resolve_exact id body d : (forall a b, ulid a = ulid b -> a = b) -> fresh d ->
  (forall row, escalations d !! id = Some row -> exists deadline diff, valid_us deadline /\ e_timeout_at row = isoformat deadline /\ e_resolved_at row = None /\
    match or_str (e_diff row) None with Some text => loads json_float_repr text = Ok diff | None => diff = VNone end) ->
  kty issuer_key = "OKP"%string \/ kty issuer_key = "EC"%string ->
  (q_decision body = "APPROVE" \/ q_decision body = "REJECT")%string -> (q_channel body = "telegram" \/ q_channel body = "web")%string ->
  let out := run_prog (resolve_escalation ulid utc issuer_key issuer_kid id body) d in
  let moment := utc (drawn d) in
  let overdue_ones := overdue_ids moment d in
  match resolution_verdict d id body with
  | Some e => out.1 = Raise e /\ escalations out.2 = escalations d /\ outbox out.2 = outbox d
  | None => exists v row sig resolution, out.1 = Ok v /\ escalations d !! id = Some row /\
      receipt id (q_decision body) (q_approver body) (q_channel body) moment = Ok sig /\
      escalations out.2 = <[id := resolved_row (q_decision body) (q_approver body) (q_channel body) sig row]>
        ((fun row => if overdue moment row then expired_row row else row) <$> escalations d) /\
      outbox out.2 = (let n := (S (drawn d) + 2 * length overdue_ones)%nat in
        <[event_key n := told_at n (answer_type (q_decision body)) (e_purchase_id row) (answer_payload id (q_decision body) sig)]>
          (told_expired (S (drawn d)) overdue_ones (escalations d) (outbox d))) /\
      w_status v = "resolved"%string /\ w_resolution v = Some resolution /\ rs_decision resolution = q_decision body /\ rs_receipt_sig resolution = Some sig /\
      rs_resolved_at resolution = w_timeout_at v
  end.
Proof using Type.
  intros Hinj Hf Hrow Hsig Hdec Hch out moment overdue_ones. unfold resolution_verdict, out, resolve_escalation, resolve. destruct (q_sticky body); [done|].
  destruct (escalations d !! id) as [row|] eqn:Er; [|cbn; by rewrite Er]. cbn. rewrite Er. cbn. fold moment overdue_ones.
  set (d1 := {| escalations := escalations d; outbox := outbox d; drawn := S (drawn d) |}). change (overdue_ids moment d1) with overdue_ones.
  assert (existsb (String.eqb id) overdue_ones = overdue moment row) as Hexp by by apply expiring_exact. rewrite Hexp.
  assert (overdue moment row = String.eqb (e_status row) "pending" && String.ltb (e_timeout_at row) (_iso moment)) as Hov by done. rewrite Hov.
  destruct (String.eqb_spec (e_status row) "pending") as [Hp|Hp]; cbn [andb orb negb].
  2: { destruct (String.eqb (e_status row) "expired"); cbn; done. }
  rewrite Hp. destruct (String.ltb (e_timeout_at row) (_iso moment)) eqn:Eo; cbn [orb negb]; [done|]. cbn.
  destruct (receipt_signed id (q_decision body) (q_approver body) (q_channel body) moment Hsig) as [sig Hs]. rewrite Hs. cbn.
  assert (fresh d1) as Hf1 by (intros n Hn; apply Hf; cbn in Hn; lia).
  destruct (overdue_ids_spec moment d) as [Hnd Hover]. fold overdue_ones in Hnd, Hover.
  destruct (expiry_run moment overdue_ones d1 Hinj Hf1 Hnd) as [He Hf2]; [intros k Hk; by apply Hover|].
  destruct (Hrow row eq_refl) as (deadline & diff & Hus & Ht & Hr & Hdiff).
  destruct (view_resolved id body sig row deadline diff) as (v & resolution & Hv & Hview); [done..|].
  assert (expire_rows overdue_ones (escalations d) = (fun row => if overdue moment row then expired_row row else row) <$> escalations d) as Hrows.
  { apply map_eq. intros k. rewrite expire_rows_lookup, lookup_fmap by done. destruct (escalations d !! k) as [x|] eqn:Ex; [|by destruct (bool_decide _)]. cbn.
    destruct (overdue moment x) eqn:Eox; [rewrite bool_decide_true by (apply Hover; by exists x); done|]. rewrite bool_decide_false; [done|].
    intros (y & Hy & Hoy)%Hover. congruence. }
  cbn [escalations outbox drawn d1] in He, Hf2. rewrite Hrows in He, Hf2.
  unfold in_transaction, sbind. rewrite He. rewrite (answer_fresh id body sig row moment _ v Hinj Hf2); [|cbn|done..].
  - cbn. exists v, row, sig, resolution. split; [done|]. split; [done|]. split; [done|]. split; [done|]. split; [done|]. exact Hview.
  - rewrite lookup_fmap, Er. cbn. by rewrite Hov.
Qed.
End Facts.

(** The theorems of ApiEscalationFacts.v at a concrete desk. *)

Definition desk_ulid (n : nat) : string := pretty (N.of_nat n).
(** A clock that moves one minute at every draw. *)
Definition desk_utc (n : nat) : Z := Z.of_nat n * 60000000.
Definition desk_key : Key := "issuer"%string.

Lemma desk_ulid_inj a b : desk_ulid a = desk_ulid b -> a = b.
Proof. unfold desk_ulid. intros E%(inj pretty). lia. Qed.

Definition waiting (deadline : Z) : Escalation :=
  {| e_purchase_id := "pur_1"; e_mandate_jti := "mdt_1"; e_status := "pending"; e_diff := None; e_timeout_at := isoformat deadline; e_decision := None;
     e_approver := None; e_channel := None; e_receipt_sig := None; e_resolved_at := None; e_created_at := "" |}%string.
Definition front : desk := {| escalations := {["esc_1"%string := waiting 600000000]}; outbox := ∅; drawn := 0 |}.

Lemma front_ok : desk_ok desk_utc desk_key "v1" front.
Proof.
  split.
  - intros id row Hr. cbn in Hr. apply lookup_singleton_Some in Hr as [<- <-]. split; cbn; [intros _; split; [done|intros ev v; by rewrite lookup_empty]|done..|set_solver].
  - intros ev v id Hv. cbn in Hv. by rewrite lookup_empty in Hv.
Qed.

Definition yes : ResolveRequest := {| q_decision := "APPROVE"; q_approver := "usr_1"; q_channel := "web"; q_sticky := None |}.
Definition no : ResolveRequest := {| q_decision := "REJECT"; q_approver := "usr_2"; q_channel := "telegram"; q_sticky := None |}.
Definition visitors : list request := [Resolve "esc_1" yes; Resolve "esc_1" no; Sweep]%string.
(** Both read the escalation pending before the rejection commits. *)
Definition visits : list nat := [0; 0; 0; 1; 1; 1; 1; 0; 2]%nat.
Abbreviation visited := (interleave visits (map (serve desk_ulid desk_utc desk_key "v1" 120) visitors) front).

Lemma escalations_decided_once_witness :
  answers "esc_1" visitors visited.1 = 1 /\ exists views, stands "esc_1" no views visited.2.
Proof.
  destruct (escalations_decided_once desk_ulid desk_utc desk_key "v1" 120 visitors visits front front_ok) as (_ & _ & Hcount & Hstands).
  split; [rewrite Hcount; vm_compute; reflexivity|].
  destruct (visited.1 !! 1%nat) as [[[views|e]|]|] eqn:E; [|vm_compute in E; discriminate..]. exists views. exact (Hstands 1%nat "esc_1"%string no views eq_refl E).
Defined.

(** Answered in time, and after the deadline. *)
Lemma resolve_exact_witness :
  (exists v resolution, (run_prog (resolve_escalation desk_ulid desk_utc desk_key "v1" "esc_1" yes) front).1 = Ok v /\ w_resolution v = Some resolution /\
     rs_resolved_at resolution = w_timeout_at v) /\
  let late := {| escalations := escalations front; outbox := outbox front; drawn := 11 |} in
  (run_prog (resolve_escalation desk_ulid desk_utc desk_key "v1" "esc_1" yes) late).1 = Raise (HTTPException 409).
Proof.
  assert (Hf : forall n, fresh desk_ulid {| escalations := escalations front; outbox := outbox front; drawn := n |}) by (intros n k _; apply lookup_empty).
  assert (Hrow : forall row, escalations front !! "esc_1"%string = Some row -> exists deadline diff, valid_us deadline /\ e_timeout_at row = isoformat deadline /\
    e_resolved_at row = None /\ match or_str (e_diff row) None with Some text => loads json_float_repr text = Ok diff | None => diff = VNone end).
  { intros row [= <-]. exists 600000000, VNone. by split; [split; vm_compute|]. }
  split.
  - destruct (resolve_exact desk_ulid desk_utc desk_key "v1" "esc_1" yes front desk_ulid_inj (Hf 0%nat) Hrow ltac:(by left) ltac:(by left) ltac:(by right))
      as (v & row & sig & resolution & Hv & _ & _ & _ & _ & _ & Hr & _ & _ & Hat). exists v, resolution. by split_and!.
  - destruct (resolve_exact desk_ulid desk_utc desk_key "v1" "esc_1" yes {| escalations := escalations front; outbox := outbox front; drawn := 11 |}
      desk_ulid_inj (Hf 11%nat) Hrow ltac:(by left) ltac:(by left) ltac:(by right)) as (Hv & _ & _). exact Hv.
Defined.
