(* ===== verification/Merchant.v ===== *)
(** The merchant VuelaYa (src/src/merchant): its catalogue (catalog.py), the signed
    carts (checkout_jwt.py), the clients of the kernel and of the rail
    (kernel_client.py, rail_client.py), the charge (charge.py) and the endpoints
    that run them in a session (main.py).

    A step of a program is one SQL statement or one HTTP exchange, except that a
    charge holds the row of its order from [SELECT ... FOR UPDATE] to its commit:
    nobody else reads or writes that order meanwhile, so that part is one step. *)
From S2P Require Import Prelude PyTime Decimal Json JsonLogic JsonParse Base64 Sha256 Models Canonical Jose RappiClient Prog AgentRules SdJwt Rail.

(** ** models.py, trustlib/models.py *)

Record OfferRow : Type := {
  r_merchant_id : string; r_category : string; r_title : string; r_amount : string; r_currency : string;
  r_origin : option string; r_destination : option string; r_depart_date : option string; r_description : option string; r_active : bool }.

Record CatalogOffer : Type := {
  f_offer_id : string; f_merchant_id : string; f_category : string; f_title : string; f_amount : string; f_currency : string;
  f_origin : option string; f_destination : option string; f_date : option string; f_description : option string }.

Record MerchantOrder : Type := {
  m_offer_id : string; m_amount : Decimal.dec; m_currency : string; m_checkout_jwt : string; m_checkout_hash : string;
  m_status : string; m_purchase_id : option string; m_receipt : option pydict; m_updated_at : option Z }.

Record SignedIntent : Type := {
  n_typ : string; n_mandate_jti : string; n_agent : string; n_merchant_id : string; n_offer_id : string; n_amount : string; n_currency : string;
  n_nonce : string; n_jti : string; n_iat : Z; n_exp : Z; n_checkout_hash : option string }.

(** [intent.model_dump(mode="json")] *)
Definition intent_dump (i : SignedIntent) : pydict :=
  [("typ", VStr (n_typ i)); ("mandate_jti", VStr (n_mandate_jti i)); ("agent", VStr (n_agent i)); ("merchant_id", VStr (n_merchant_id i));
   ("offer_id", VStr (n_offer_id i)); ("amount", VStr (n_amount i)); ("currency", VStr (n_currency i)); ("nonce", VStr (n_nonce i));
   ("jti", VStr (n_jti i)); ("iat", VInt (n_iat i)); ("exp", VInt (n_exp i)); ("checkout_hash", opt_str (n_checkout_hash i))]%string.

(** What the charge reads of [MandateClaims]. *)
Record ClaimsView : Type := { k_jti : string; k_agent : string; k_currency : string; k_payment_method_ref : option string; k_jwk : pydict }.

Record Receipt : Type := {
  re_purchase_id : string; re_capture_id : string; re_amount : string; re_currency : string; re_captured_at : Z; re_mandate_jti : string; re_simulated : bool }.

Record ChargeRequest : Type := {
  b_purchase_id : string; b_mandate_id : string; b_mandate_sd_jwt : string; b_intent : SignedIntent; b_intent_jwt : string; b_checkout_jwt : string;
  b_payment_method_ref : string; b_amount : string; b_currency : string; b_idempotency_key : option string }.

(** What [MerchantRailClient.capture] posts. *)
Record RailCall : Type := {
  c_token_id : string; c_amount : string; c_currency : string; c_intent_ref : string; c_purchase_id : string; c_mandate_sd_jwt : string;
  c_checkout_jwt : string; c_idempotency_key : string }.

(** [format(d, ".2f")] *)
Definition format_2f (d : Decimal.dec) : string :=
  match d with
  | DFin neg coef exp => dec_str (DFin neg (if 0 <=? exp + 2 then coef * 10 ^ (exp + 2) else div_round ROUND_HALF_EVEN coef (10 ^ (- (exp + 2)))) (-2))
  | _ => dec_str d
  end.

(** schemas.py *)
Definition _fixed_amount (value : string) : res string :=
  let? amount := match decimal_of_string value with Raise InvalidOperation => Raise ValueError | r => r end in
  let? not_positive := dle amount (decimal_of_int 0) in
  match amount with
  | DFin _ _ exp => if not_positive || negb (exp =? -2) then Raise ValueError else Ok (format_2f amount)
  | _ => Raise ValueError
  end.

(** [hmac.compare_digest] on texts. *)
Definition compare_digest (a b : string) : res bool := if ascii_only a && ascii_only b then Ok (String.eqb a b) else Raise TypeError.

(** [a == b] for a dict whose values are no containers. *)
Definition dict_eq (a b : pyval) : bool :=
  match a, b with
  | VDict x, VDict y => (List.length x =? List.length y)%nat && forallb (fun kv => match assoc kv.1 y with Some v => py_eq kv.2 v | None => false end) x
  | _, _ => false
  end.

Definition refusal (r : ReasonCode) : exn := ChargeRefused (ReasonCode_value r).

(** A text or nothing in a dict. *)
Definition text_field (kvs : pydict) (key : string) : res string := match assoc key kvs with Some (VStr s) => Ok s | _ => Raise ValueError end.
Definition text_or (kvs : pydict) (key default : string) : res string :=
  match assoc key kvs with Some (VStr s) => Ok s | None => Ok default | _ => Raise ValueError end.
Definition optional_text (kvs : pydict) (key : string) : res (option string) :=
  match assoc key kvs with Some (VStr s) => Ok (Some s) | Some VNone | None => Ok None | _ => Raise ValueError end.

(** ** The process: tables, the cached keys, the captures it asked for *)

Record shop `{JwsLibrary} : Type := {
  offers : gmap string OfferRow;
  orders : gmap string MerchantOrder;
  jwks : option (list (string * Key));
  fetched_at : Z;
  rail_calls : list RailCall;
  drawn : nat;
}.

Section Merchant.
Context `{JwkLibrary}.
(** By the number of the draw: the text of a ULID, the clocks, the answers of the
    kernel and the rail over HTTP (a status and, when it parses, a body). *)
Variables (ulid : nat -> string) (utc monotonic : nat -> Z) (get_jwks : nat -> res pyval)
  (post_verify : nat -> string -> string -> string -> string -> res (Z * option pyval)) (post_payment : nat -> RailCall -> res (Z * option pyval)).
(** What pydantic makes of a datetime and of a bool, how it writes a datetime, and
    whether it accepts the fields of the claims and of a decision that nothing
    reads here. *)
Variables (pydantic_datetime : pyval -> res Z) (pydantic_bool : pyval -> res bool) (json_datetime : Z -> string) (claims_valid decision_valid : pydict -> bool).
(** Settings, and the merchant's key with its curve. *)
Variables (merchant_id merchant_name merchant_website merchant_kid : string) (signing_key : Key) (crv : Key -> string).

Definition set_offers m (s : shop) : shop :=
  {| offers := m; orders := orders s; jwks := jwks s; fetched_at := fetched_at s; rail_calls := rail_calls s; drawn := drawn s |}.
Definition set_orders m (s : shop) : shop :=
  {| offers := offers s; orders := m; jwks := jwks s; fetched_at := fetched_at s; rail_calls := rail_calls s; drawn := drawn s |}.
Definition set_jwks (ks : list (string * Key)) (at_ : Z) (s : shop) : shop :=
  {| offers := offers s; orders := orders s; jwks := Some ks; fetched_at := at_; rail_calls := rail_calls s; drawn := drawn s |}.
Definition log_call (c : RailCall) (s : shop) : shop :=
  {| offers := offers s; orders := orders s; jwks := jwks s; fetched_at := fetched_at s; rail_calls := rail_calls s ++ [c]; drawn := drawn s |}.

Definition draw : st shop nat := fun s =>
  (Ok (drawn s), {| offers := offers s; orders := orders s; jwks := jwks s; fetched_at := fetched_at s; rail_calls := rail_calls s; drawn := S (drawn s) |}).
Definition new_id (prefix : string) : st shop string := n <- draw ;; ret (prefix +:+ "_" +:+ ulid n)%string.
Definition now : st shop Z := n <- draw ;; ret (utc n).
Definition select {A} (f : shop -> A) : prog shop A := atomic (gets f).

(** [get_session]: an endpoint that raises leaves the orders as they were. *)
Definition in_transaction {A} (m : st shop A) : st shop A := fun s =>
  match m s with
  | (Ok a, s') => (Ok a, s')
  | (Raise e, s') => (Raise e, set_orders (orders s) s')
  end.

(** ** catalog.py *)

Definition to_offer (id : string) (row : OfferRow) : CatalogOffer :=
  {| f_offer_id := id; f_merchant_id := r_merchant_id row; f_category := r_category row; f_title := r_title row; f_amount := r_amount row;
     f_currency := r_currency row; f_origin := r_origin row; f_destination := r_destination row; f_date := r_depart_date row; f_description := r_description row |}.

Definition get_offer (offer_id : string) : prog shop (option CatalogOffer) :=
  select (fun s => match offers s !! offer_id with Some row => if r_active row then Some (to_offer offer_id row) else None | None => None end).

Definition repriced (amount : string) (row : OfferRow) : OfferRow :=
  {| r_merchant_id := r_merchant_id row; r_category := r_category row; r_title := r_title row; r_amount := amount; r_currency := r_currency row;
     r_origin := r_origin row; r_destination := r_destination row; r_depart_date := r_depart_date row; r_description := r_description row; r_active := r_active row |}.

Definition update_price (offer_id : string) (amount : Decimal.dec) : prog shop (option CatalogOffer) :=
  atomic (fun s => match offers s !! offer_id with
                   | Some row => if r_active row then let row := repriced (format_2f amount) row in (Ok (Some (to_offer offer_id row)), set_offers (<[offer_id := row]> (offers s)) s)
                                 else (Ok None, s)
                   | None => (Ok None, s)
                   end).

(** ** kernel_client.py *)

(** [{item["kid"]: jwk_from_dict(item) for item in ... if item.get("kid")}] *)
Fixpoint published_keys (entries : list pyval) (ks : list (string * Key)) : res (list (string * Key)) :=
  match entries with
  | [] => Ok ks
  | item :: rest =>
      let? kid := py_get item "kid" in
      if negb (truthy kid) then published_keys rest ks
      else match kid with
           | VStr kid => let? key := JWK item in published_keys rest (dict_set kid key ks)
           | _ => Raise TypeError
           end
  end.
Definition keys_of_answer (answer : res pyval) : res (list (string * Key)) :=
  let? document := answer in let? entries := py_get_or document "keys" (VList []) in let? entries := py_iter entries in published_keys entries [].

(** [IssuerJWKSClient.keys] *)
Definition keys : prog shop (list (string * Key)) :=
  cached <~ atomic (n <- draw ;; gets (fun s =>
              match jwks s with
              | Some ks => if 300 * 1000000 <? monotonic n - fetched_at s then None else Some ks
              | None => None
              end)) ;
  match cached with
  | Some ks => pret ks
  | None =>
      ks <~ atomic (n <- draw ;; lift (match keys_of_answer (get_jwks n) with Ok ks => Ok ks | Raise _ => Raise KernelClientError end)) ;
      atomic (n <- draw ;; modify (set_jwks ks (monotonic n)) ;;; ret ks)
  end.

Definition _reason_or_default (value : pyval) : ReasonCode :=
  match ReasonCode_of (py_str value) with Ok r => r | Raise _ => RAIL_ERROR end.

(** [Decision.model_validate(data)]: what the charge reads. *)
Definition decision_of (data : pyval) : res (DecisionValue * option ReasonCode) :=
  match data with
  | VDict kvs =>
      let? d := text_field kvs "decision" in
      let? d := enum_of DecisionValue_value all_DecisionValue d in
      let? r := optional_text kvs "reason_code" in
      let? r := match r with Some r => let? r := ReasonCode_of r in Ok (Some r) | None => Ok None end in
      if decision_valid kvs then Ok (d, r) else Raise ValueError
  | _ => Raise ValueError
  end.

(** [KernelVerifyClient.verify], from the answer. *)
Definition verify_answer (answer : res (Z * option pyval)) : res (DecisionValue * option ReasonCode) :=
  match answer with
  | Raise _ => Raise KernelClientError
  | Ok (status, body) =>
      let data := override body (VDict []) in
      if negb (status =? 200) then let? code := py_get data "reason_code" in Ok (REJECTED, Some (_reason_or_default code))
      else match decision_of data with Ok d => Ok d | Raise _ => Raise KernelClientError end
  end.

(** ** rail_client.py *)

Definition Receipt_of (data : pyval) : res Receipt :=
  match data with
  | VDict kvs =>
      let? purchase_id := text_field kvs "purchase_id" in
      let? capture_id := text_field kvs "capture_id" in
      let? amount := text_field kvs "amount" in
      let? currency := text_field kvs "currency" in
      let? captured_at := pydantic_datetime (override (assoc "captured_at" kvs) VNone) in
      let? mandate_jti := text_field kvs "mandate_jti" in
      let? simulated := match assoc "simulated" kvs with Some v => pydantic_bool v | None => Ok false end in
      Ok {| re_purchase_id := purchase_id; re_capture_id := capture_id; re_amount := amount; re_currency := currency; re_captured_at := captured_at;
            re_mandate_jti := mandate_jti; re_simulated := simulated |}
  | _ => Raise ValueError
  end.

Definition receipt_dump (r : Receipt) : pydict :=
  [("purchase_id", VStr (re_purchase_id r)); ("capture_id", VStr (re_capture_id r)); ("amount", VStr (re_amount r)); ("currency", VStr (re_currency r));
   ("captured_at", VStr (json_datetime (re_captured_at r))); ("mandate_jti", VStr (re_mandate_jti r)); ("simulated", VBool (re_simulated r))]%string.

(** What the rail's answer means: a [RailError] carries the reason code. *)
Definition payment_answer (answer : res (Z * option pyval)) : res Receipt :=
  match answer with
  | Raise _ => Raise (RailError EmptyString)
  | Ok (status, body) =>
      let data := override body (VDict []) in
      if 400 <=? status then let? code := py_get data "reason_code" in Raise (RailError (match code with VStr s => s | _ => EmptyString end))
      else Receipt_of data
  end.

(** [MerchantRailClient.capture] *)
Definition rail_capture (call : RailCall) : st shop Receipt :=
  modify (log_call call) ;;; n <- draw ;; lift (payment_answer (post_payment n call)).

Definition _rail_reason (code : string) : ReasonCode :=
  if truthy_str code then match ReasonCode_of code with Ok r => r | Raise _ => RAIL_ERROR end else RAIL_ERROR.
(** ** checkout_jwt.py *)

Definition CLOSED_SHIPPING : string := "No physical shipment; e-ticket issued on capture.".
Definition CLOSED_RETURN : string := "Refundable up to 24h before departure.".

(** [_key] of a key already loaded, through [_validate_key]. *)
Definition _validate_key : res Key :=
  if negb (String.eqb (kty signing_key) "EC") || negb (String.eqb (crv signing_key) "P-256") then Raise CheckoutJWTError else Ok signing_key.

(** An INSERT under the keys of [merchant_orders]. *)
Definition insert_order (order_id : string) (order : MerchantOrder) : st shop unit := fun s =>
  if existsb (fun kv => String.eqb kv.1 order_id || String.eqb (m_checkout_jwt kv.2) (m_checkout_jwt order) || String.eqb (m_checkout_hash kv.2) (m_checkout_hash order))
       (map_to_list (orders s))
  then (Raise IntegrityError, s)
  else (Ok tt, set_orders (<[order_id := order]> (orders s)) s).

Definition cart_payload (order_id : string) (offer : CatalogOffer) : res pydict :=
  let? price := decimal_of_string (f_amount offer) in
  let? units := to_minor_units price in
  build_checkout_payload order_id merchant_id merchant_name merchant_website
    [VDict [("id", VStr (f_offer_id offer)); ("label", VStr (f_title offer)); ("amount", VInt units); ("quantity", VInt 1)]%string]
    price (f_currency offer) CLOSED_SHIPPING CLOSED_RETURN.

(** The answer is the order's id, the signed cart and its hash. *)
Definition quote (offer : CatalogOffer) : prog shop (string * string * string) :=
  atomic (in_transaction (
    order_id <- new_id "ord" ;;
    payload <- lift (cart_payload order_id offer) ;;
    key <- lift _validate_key ;;
    token <- lift (sign_compact (VDict payload) key (Some merchant_kid) (Some "JWT"%string)) ;;
    digest <- lift (checkout_hash token) ;;
    amount <- lift (decimal_of_string (f_amount offer)) ;;
    stored <- lift (Rail.numeric_12_2 amount) ;;
    insert_order order_id {| m_offer_id := f_offer_id offer; m_amount := stored; m_currency := f_currency offer; m_checkout_jwt := token; m_checkout_hash := digest;
                             m_status := "quoted"; m_purchase_id := None; m_receipt := None; m_updated_at := None |} ;;;
    ret (order_id, token, digest))).

(** The signature and the key id: the body of the [try]. *)
Definition cart_of (checkout_jwt : string) : res pyval :=
  match (let? header := peek_header checkout_jwt in
         let? kid := py_get header "kid" in
         if negb (py_eq kid (VStr merchant_kid)) then Raise CheckoutJWTError
         else let? key := _validate_key in verify_compact checkout_jwt key) with
  | Ok payload => Ok payload
  | Raise _ => Raise CheckoutJWTError
  end.

(** The cart against the order it names. *)
Definition same_cart (checkout_jwt : string) (payload : pyval) (order : MerchantOrder) : res unit :=
  let? same := compare_digest (m_checkout_jwt order) checkout_jwt in
  let? _ := guard_res same CheckoutJWTError in
  let? digest := checkout_hash checkout_jwt in
  let? same := compare_digest (m_checkout_hash order) digest in
  let? _ := guard_res same CheckoutJWTError in
  let? merchant := py_get_or payload "merchant" (VDict []) in
  let? id := py_get merchant "id" in
  let? _ := guard_res (py_eq id (VStr merchant_id)) CheckoutJWTError in
  let? currency := py_get payload "currency" in
  let? _ := guard_res (py_eq currency (VStr (m_currency order))) CheckoutJWTError in
  let? total := py_get payload "total_price" in
  let? units := to_minor_units (m_amount order) in
  guard_res (py_eq total (VInt units)) CheckoutJWTError.

(** [CheckoutJWTService.verify] *)
Definition verify_checkout (checkout_jwt : string) : st shop (string * MerchantOrder) :=
  payload <- lift (cart_of checkout_jwt) ;;
  order_id <- lift (py_get payload "order_id") ;;
  match order_id with
  | VStr order_id =>
      order <- gets (fun s => orders s !! order_id) ;;
      match order with
      | None => raise CheckoutJWTError
      | Some order => lift (same_cart checkout_jwt payload order) ;;; ret (order_id, order)
      end
  | _ => raise CheckoutJWTError
  end.

Definition captured_order (purchase_id : string) (receipt : Receipt) (moment : Z) (order : MerchantOrder) : MerchantOrder :=
  {| m_offer_id := m_offer_id order; m_amount := m_amount order; m_currency := m_currency order; m_checkout_jwt := m_checkout_jwt order;
     m_checkout_hash := m_checkout_hash order; m_status := "captured"; m_purchase_id := Some purchase_id; m_receipt := Some (receipt_dump receipt);
     m_updated_at := Some moment |}.

Definition mark_captured (order_id : string) (order : MerchantOrder) (purchase_id : string) (receipt : Receipt) : st shop unit :=
  if String.eqb (m_status order) "captured" && negb (bool_decide (m_purchase_id order = Some purchase_id)) then raise CheckoutJWTError
  else
    moment <- now ;;
    fun s =>
      if existsb (fun kv => negb (String.eqb kv.1 order_id) && bool_decide (m_purchase_id kv.2 = Some purchase_id)) (map_to_list (orders s))
      then (Raise IntegrityError, s)
      else (Ok tt, set_orders (<[order_id := captured_order purchase_id receipt moment order]> (orders s)) s).

(** ** charge.py *)

(** [verify_detached] of trustlib/jose.py *)
Definition verify_detached (token : string) (payload : pydict) (key : Key) : res pyval :=
  match split_at "." token with
  | [header; _; signature] =>
      let? text := jcs_dumps (VDict payload) in
      verify_compact (header +:+ "." +:+ b64u_encode text +:+ "." +:+ signature)%string key
  | _ => Raise ValueError
  end.

(** [MandateClaims.model_validate(claims)] *)
Definition claims_of (kvs : pydict) : res ClaimsView :=
  let? jti := text_field kvs "jti" in
  let? agent := text_field kvs "agent" in
  let? currency := text_or kvs "currency" "USD" in
  let? payment_method_ref := optional_text kvs "payment_method_ref" in
  match assoc "cnf" kvs with
  | Some (VDict cnf) =>
      match assoc "jwk" cnf with
      | Some (VDict jwk) =>
          if claims_valid kvs then Ok {| k_jti := jti; k_agent := agent; k_currency := currency; k_payment_method_ref := payment_method_ref; k_jwk := jwk |}
          else Raise ValueError
      | _ => Raise ValueError
      end
  | _ => Raise ValueError
  end.

(** [_verify_mandate]; [sdjwt.verify] reads the clock itself. *)
Definition _verify_mandate (token : string) : prog shop ClaimsView :=
  pcatch (ks <~ keys ;
          moment <~ atomic now ;
          plift (let? claims := SdJwt.verify token ks None None false (unix_seconds moment) in claims_of claims))
    (fun e => match e with
              | KernelClientError | SDJWTError _ => Some (praise (refusal INVALID_SIGNATURE))
              | _ => if is_value_error e then Some (praise (refusal INVALID_SIGNATURE)) else None
              end).

(** The body of the [try] of [_verify_intent]. *)
Definition intent_stands (body : ChargeRequest) (claims : ClaimsView) (moment : Z) : res unit :=
  let intent := b_intent body in
  let? key := JWK (VDict (k_jwk claims)) in
  let? signed := verify_detached (b_intent_jwt body) (intent_dump intent) key in
  let? _ := guard_res (dict_eq signed (VDict (intent_dump intent))) ValueError in
  let? _ := guard_res (negb ((120 <? n_exp intent - n_iat intent) || (n_exp intent <? moment) || (moment + 5 <? n_iat intent))) ValueError in
  let? _ := guard_res (String.eqb (n_mandate_jti intent) (k_jti claims) && String.eqb (n_agent intent) (k_agent claims)) ValueError in
  let? _ := guard_res (String.eqb (n_merchant_id intent) merchant_id && String.eqb (n_currency intent) (k_currency claims)) ValueError in
  guard_res (match or_str (k_payment_method_ref claims) None with Some ref => String.eqb (b_payment_method_ref body) ref | None => false end) ValueError.

Definition _verify_intent (body : ChargeRequest) (claims : ClaimsView) (moment : Z) : res unit :=
  match intent_stands body claims moment with Ok _ => Ok tt | Raise _ => Raise (refusal INVALID_PROOF_OF_POSSESSION) end.

(** [_verify_price], with the equality that stops at the first difference. *)
Definition same_price (body : ChargeRequest) (offer : CatalogOffer) : res bool :=
  let? proposed := decimal_of_string (n_amount (b_intent body)) in
  let? price := decimal_of_string (f_amount offer) in
  if negb (deq proposed price) then Ok false
  else let? asked := decimal_of_string (b_amount body) in Ok (deq asked price && String.eqb (b_currency body) (f_currency offer)).

Definition _verify_price (body : ChargeRequest) (offer : CatalogOffer) : res unit :=
  match same_price body offer with
  | Ok true => Ok tt
  | Ok false => Raise (refusal CONDITION_FAILED)
  | Raise e => if is_value_error e || bool_decide (e = InvalidOperation) then Raise (refusal CONDITION_FAILED) else Raise e
  end.

Definition rail_call (body : ChargeRequest) (offer : CatalogOffer) (amount : Decimal.dec) : RailCall :=
  {| c_token_id := b_payment_method_ref body; c_amount := format_2f amount; c_currency := f_currency offer; c_intent_ref := n_jti (b_intent body);
     c_purchase_id := b_purchase_id body; c_mandate_sd_jwt := b_mandate_sd_jwt body; c_checkout_jwt := b_checkout_jwt body;
     c_idempotency_key := override (or_str (b_idempotency_key body) None) (b_purchase_id body) |}.

(** [body.intent.checkout_hash] binds the cart. *)
Definition cart_bound (body : ChargeRequest) : res bool :=
  match n_checkout_hash (b_intent body) with None => Ok false | Some claimed => verify_checkout_binding (b_checkout_jwt body) claimed end.

(** A cart already captured: its receipt again, for the same purchase. *)
Definition stored_receipt (body : ChargeRequest) (order : MerchantOrder) : res Receipt :=
  if negb (bool_decide (m_purchase_id order = Some (b_purchase_id body))) then Raise (refusal CONDITION_FAILED)
  else match m_receipt order with
       | None => Raise ChargeSettlementError
       | Some receipt => match Receipt_of (VDict receipt) with Ok r => Ok r | Raise _ => Raise ChargeSettlementError end
       end.

(** Steps 5 to 7, on a cart still quoted. *)
Definition settle_order (body : ChargeRequest) (offer : CatalogOffer) (amount : Decimal.dec) (order_id : string) (order : MerchantOrder) : st shop Receipt :=
  n <- draw ;;
  decision <- lift (match verify_answer (post_verify n (b_mandate_id body) (b_intent_jwt body) (override (or_str (b_idempotency_key body) None) (b_purchase_id body)) (n_agent (b_intent body))) with
                    | Raise KernelClientError => Raise (refusal RAIL_ERROR)
                    | r => r
                    end) ;;
  if negb (bool_decide (decision.1 = APPROVED)) then raise (refusal (override decision.2 RAIL_ERROR))
  else
    receipt <- catch (rail_capture (rail_call body offer amount)) (fun e => match e with RailError code => Some (raise (refusal (_rail_reason code))) | _ => None end) ;;
    catch (mark_captured order_id order (b_purchase_id body) receipt) (fun e => match e with CheckoutJWTError => Some (raise ChargeSettlementError) | _ => None end) ;;;
    ret {| re_purchase_id := b_purchase_id body; re_capture_id := re_capture_id receipt; re_amount := re_amount receipt; re_currency := re_currency receipt;
           re_captured_at := re_captured_at receipt; re_mandate_jti := re_mandate_jti receipt; re_simulated := re_simulated receipt |}.

(** Steps 4 to 7, under the lock of the order. *)
Definition charge_order (body : ChargeRequest) (offer : CatalogOffer) : st shop Receipt :=
  checkout <- catch (verify_checkout (b_checkout_jwt body)) (fun e => match e with CheckoutJWTError => Some (raise (refusal CONDITION_FAILED)) | _ => None end) ;;
  bound <- lift (cart_bound body) ;;
  if negb bound then raise (refusal CONDITION_FAILED)
  else if negb (String.eqb (m_offer_id checkout.2) (f_offer_id offer)) then raise (refusal CONDITION_FAILED)
  else
    amount <- lift (decimal_of_string (f_amount offer)) ;;
    if negb (deq (m_amount checkout.2) amount) then raise (refusal CONDITION_FAILED)
    else if String.eqb (m_status checkout.2) "captured" then lift (stored_receipt body checkout.2)
    else if negb (String.eqb (m_status checkout.2) "quoted") then raise (refusal CONDITION_FAILED)
    else settle_order body offer amount checkout.1 checkout.2.

(** [ChargeService.charge] *)
Definition charge (body : ChargeRequest) : prog shop Receipt :=
  claims <~ _verify_mandate (b_mandate_sd_jwt body) ;
  moment <~ atomic now ;
  _ <~ plift (_verify_intent body claims (unix_seconds moment)) ;
  offer <~ get_offer (n_offer_id (b_intent body)) ;
  match offer with
  | None => praise (refusal CONDITION_FAILED)
  | Some offer =>
      _ <~ plift (_verify_price body offer) ;
      atomic (in_transaction (charge_order body offer))
  end.

(** ** main.py

    An endpoint answers a status and what its body says. *)

Definition price_endpoint (offer_id amount : string) : prog shop (Z * pydict) :=
  match _fixed_amount amount with
  | Raise e => if is_value_error e then pret (422, []) else praise e
  | Ok amount =>
      amount <~ plift (decimal_of_string amount) ;
      offer <~ update_price offer_id amount ;
      match offer with
      | None => praise (HTTPException 404)
      | Some offer => pret (200, [("offer_id", VStr (f_offer_id offer)); ("amount", VStr (f_amount offer))]%string)
      end
  end.

Definition quote_endpoint (offer_id : string) : prog shop (Z * pydict) :=
  offer <~ get_offer offer_id ;
  match offer with
  | None => praise (HTTPException 404)
  | Some offer =>
      quoted <~ quote offer ;
      pret (201, [("order_id", VStr quoted.1.1); ("checkout_jwt", VStr quoted.1.2); ("checkout_hash", VStr quoted.2)]%string)
  end.

(** The amount of the body is checked before the endpoint runs. *)
Definition charge_endpoint (body : ChargeRequest) : prog shop (Z * pydict) :=
  match _fixed_amount (b_amount body) with
  | Raise e => if is_value_error e then pret (422, []) else praise e
  | Ok _ =>
      pcatch (receipt <~ charge body ; pret (200, receipt_dump receipt))
        (fun e => match e with
                  | ChargeRefused reason => Some (pret (402, [("reason_code", VStr reason); ("purchase_id", VStr (b_purchase_id body))]%string))
                  | ChargeSettlementError =>
                      Some (pret (500, [("reason_code", VStr (ReasonCode_value RAIL_ERROR)); ("purchase_id", VStr (b_purchase_id body))]%string))
                  | _ => None
                  end)
  end.
End Merchant.
