(* ===== verification/MerchantFacts.v ===== *)
(** Charges that race at the merchant (Merchant.v): the rail is asked for money
    only with everything verified behind it, and a cart is captured once. *)
From stdpp Require Import pretty.
From S2P Require Import Prelude PyTime Decimal Sha256 Base64 Json JsonParse Models JsonLogic Canonical Jose Prog RappiClient AgentRules SdJwt SdJwtFacts Merchant.

Section MerchantFacts.
Context `{JwkLibrary}.
Variables (ulid : nat -> string) (utc monotonic : nat -> Z) (get_jwks : nat -> res pyval)
  (post_verify : nat -> string -> string -> string -> string -> res (Z * option pyval)) (post_payment : nat -> RailCall -> res (Z * option pyval)).
Variables (pydantic_datetime : pyval -> res Z) (pydantic_bool : pyval -> res bool) (json_datetime : Z -> string) (claims_valid decision_valid : pydict -> bool).
Variables (merchant_id merchant_name merchant_website merchant_kid : string) (signing_key : Key) (crv : Key -> string).
(** The charges that were asked for, the states the shop went through, and what the
    rail had been asked before. *)
Variables (asked : ChargeRequest -> Prop) (happened : shop -> Prop) (before : list RailCall).

Abbreviation payment_answer := (payment_answer pydantic_datetime pydantic_bool).
Abbreviation cart_of := (cart_of merchant_kid signing_key crv).

(** ** What stands behind a call to the rail *)

Definition published (ks : list (string * Key)) : Prop := exists n, keys_of_answer (get_jwks n) = Ok ks.

(** Claims of a mandate that verified when the clock showed a draw before [limit]. *)
Definition vetted (body : ChargeRequest) (limit : nat) (claims : ClaimsView) : Prop :=
  exists ks kvs n, (n < limit)%nat /\ published ks /\ SdJwt.verify (b_mandate_sd_jwt body) ks None None false (unix_seconds (utc n)) = Ok kvs /\ claims_of claims_valid kvs = Ok claims.

(** The agent the mandate names signed this intent; it has at most two minutes to
    live and is inside them; it is for this mandate, this merchant and this
    instrument. *)
Definition intent_signed (body : ChargeRequest) (claims : ClaimsView) : Prop := exists key signed,
  JWK (VDict (k_jwk claims)) = Ok key /\ verify_detached (b_intent_jwt body) (intent_dump (b_intent body)) key = Ok signed /\
  dict_eq signed (VDict (intent_dump (b_intent body))) = true.
Definition intent_fresh (intent : SignedIntent) (moment : Z) : Prop := n_exp intent - n_iat intent <= 120 /\ n_iat intent <= moment + 5 /\ moment <= n_exp intent.
Definition intent_names (body : ChargeRequest) (claims : ClaimsView) : Prop :=
  n_mandate_jti (b_intent body) = k_jti claims /\ n_agent (b_intent body) = k_agent claims /\ n_merchant_id (b_intent body) = merchant_id /\
  n_currency (b_intent body) = k_currency claims /\ k_payment_method_ref claims = Some (b_payment_method_ref body).

(** The price of an offer is the intent's and the request's. *)
Definition price_agreed (body : ChargeRequest) (offer : CatalogOffer) (price : Decimal.dec) : Prop := exists proposed wanted,
  decimal_of_string (f_amount offer) = Ok price /\ decimal_of_string (n_amount (b_intent body)) = Ok proposed /\ deq proposed price = true /\
  decimal_of_string (b_amount body) = Ok wanted /\ deq wanted price = true /\ b_currency body = f_currency offer.

(** An offer the catalogue listed, at the price it had, in a state later than the
    draw [after] and no later than the draw [limit]. *)
Definition listed (offer_id : string) (offer : CatalogOffer) (after limit : nat) : Prop := exists seen row,
  happened seen /\ (after < drawn seen <= limit)%nat /\ offers seen !! offer_id = Some row /\ r_active row = true /\ offer = to_offer offer_id row.

(** A mandate that verified, then an intent that was fresh, then the offer of the
    catalogue at its price, then, holding the order, a cart the merchant signed for
    that offer and that price and the intent names by its hash, and the approval of
    the kernel. *)
Inductive backed (c : RailCall) : Prop :=
| Backed body claims clock offer price taken payload order_id order claimed reason :
    asked body -> c = rail_call body offer price ->
    vetted body clock claims -> intent_signed body claims -> intent_fresh (b_intent body) (unix_seconds (utc clock)) -> intent_names body claims ->
    listed (n_offer_id (b_intent body)) offer clock (drawn taken) -> price_agreed body offer price ->
    happened taken -> orders taken !! order_id = Some order -> m_status order = "quoted"%string -> m_checkout_jwt order = b_checkout_jwt body ->
    m_offer_id order = n_offer_id (b_intent body) -> deq (m_amount order) price = true ->
    cart_of (b_checkout_jwt body) = Ok payload -> py_get payload "order_id" = Ok (VStr order_id) -> same_cart merchant_id (b_checkout_jwt body) payload order = Ok tt ->
    n_checkout_hash (b_intent body) = Some claimed -> verify_checkout_binding (b_checkout_jwt body) claimed = Ok true ->
    verify_answer decision_valid (post_verify (drawn taken) (b_mandate_id body) (b_intent_jwt body) (override (or_str (b_idempotency_key body) None) (b_purchase_id body)) (n_agent (b_intent body)))
      = Ok (APPROVED, reason) ->
    backed c.

(** A captured order has the receipt the rail gave for it. *)
Definition paid (o : MerchantOrder) (calls : list RailCall) : Prop :=
  exists c n r, c ∈ calls /\ c_checkout_jwt c = m_checkout_jwt o /\ m_purchase_id o = Some (c_purchase_id c) /\
    payment_answer (post_payment n c) = Ok r /\ m_receipt o = Some (receipt_dump json_datetime r).

(** The tables and the cached keys in order. *)
Record well_kept (s : shop) : Prop := {
  g_keys : match jwks s with Some ks => published ks | None => True end;
  g_paid : forall id o, orders s !! id = Some o -> m_status o = "captured"%string -> paid o (rail_calls s);
  g_carts : forall i j a b, orders s !! i = Some a -> orders s !! j = Some b -> m_checkout_jwt a = m_checkout_jwt b -> i = j;
  g_purchases : forall i j a b p, orders s !! i = Some a -> orders s !! j = Some b -> m_purchase_id a = Some p -> m_purchase_id b = Some p -> i = j;
}.

Definition good (s : shop) : Prop := well_kept s /\ exists new, rail_calls s = before ++ new /\ Forall backed new.

(** An order keeps its cart and, once captured, everything; the rail is never asked
    again for a captured cart. *)
Definition grows (s s' : shop) : Prop :=
  (drawn s <= drawn s')%nat /\ (forall id o, orders s !! id = Some o -> exists o', orders s' !! id = Some o' /\ m_checkout_jwt o' = m_checkout_jwt o /\ m_offer_id o' = m_offer_id o /\
     m_amount o' = m_amount o /\ m_currency o' = m_currency o /\ (m_status o = "captured"%string -> o' = o)) /\
  exists new, rail_calls s' = rail_calls s ++ new /\
    forall id o c, orders s !! id = Some o -> m_status o = "captured"%string -> c ∈ new -> c_checkout_jwt c <> m_checkout_jwt o.

#[export] Instance grows_preorder : PreOrder grows.
Proof using Type.
  split.
  - intros s. split; [done|]. split; [intros id o Ho; by exists o|]. exists []. rewrite app_nil_r. split; [done|]. intros id o c _ _ Hc. by apply not_elem_of_nil in Hc.
  - intros a b c [A0 [A1 (n1 & A2 & A3)]] [B0 [B1 (n2 & B2 & B3)]]. split; [by etransitivity|]. split.
    + intros id o Ho. destruct (A1 _ _ Ho) as (o1 & Ho1 & ? & ? & ? & ? & Hc1). destruct (B1 _ _ Ho1) as (o2 & Ho2 & ? & ? & ? & ? & Hc2). exists o2.
      split; [done|]. split_and!; try congruence. intros Hc. specialize (Hc1 Hc). subst o1. auto.
    + exists (n1 ++ n2). rewrite B2, A2, app_assoc. split; [done|]. intros id o x Ho Hc [Hx|Hx]%elem_of_app; [by eapply A3|].
      destruct (A1 _ _ Ho) as (o1 & Ho1 & _ & _ & _ & _ & Hc1). rewrite (Hc1 Hc) in Ho1. by eapply B3.
Qed.

Definition safe (s s' : shop) : Prop := good s -> good s' /\ grows s s'.

#[export] Instance safe_preorder : PreOrder safe.
Proof using Type.
  split; [intros s Hs; split; [done|reflexivity]|]. intros a b c Hab Hbc Ha. destruct (Hab Ha) as [Hb H1]. destruct (Hbc Hb) as [Hc H2]. split; [done|by etransitivity].
Qed.

(** Nothing that matters changed. *)
Lemma same_safe s s' : (drawn s <= drawn s')%nat -> orders s' = orders s -> rail_calls s' = rail_calls s -> match jwks s' with Some ks => jwks s = Some ks \/ published ks | None => True end -> safe s s'.
Proof using Type.
  intros Hd Ho Hr Hj [[G1 G3 G4 G5] G2]. split; [split; [split|]; rewrite ?Ho, ?Hr; try done|].
  - destruct (jwks s'); [|done]. destruct Hj as [Hj|]; [by rewrite Hj in G1|done].
  - split; [done|]. split; [intros id o Hx; exists o; by rewrite Ho|]. exists []. rewrite app_nil_r. split; [done|]. intros id o c _ _ Hc. by apply not_elem_of_nil in Hc.
Qed.

(** ** Programs that are safe at every statement *)

(** [d] is what the draws had come to after the last statement. *)
Fixpoint sound {A} (Q : nat -> A -> Prop) (d : nat) (p : prog shop A) : Prop :=
  match p with
  | Finish (Ok a) => Q d a
  | Finish (Raise _) => True
  | Do op k => forall s, good s -> happened s -> (d <= drawn s)%nat -> (good (op s).2 /\ grows s (op s).2) /\ sound Q (drawn (op s).2) (k (op s).1)
  end.
#[local] Arguments sound : simpl never.

Definition any {A} (d : nat) (a : A) : Prop := True.

Lemma sound_bind {A B} (Q : nat -> A -> Prop) (R : nat -> B -> Prop) d m f : sound Q d m -> (forall d' a, Q d' a -> sound R d' (f a)) -> sound R d (pbind m f).
Proof using Type.
  intros Hm Hf. revert d Hm. induction m as [[a|e]|X op k IH]; intros d Hm; [by apply Hf|done|]. intros s Hs Hh Hd. destruct (Hm s Hs Hh Hd) as [H1 H2]. split; [done|]. by apply IH.
Qed.
Lemma sound_catch {A} (Q : nat -> A -> Prop) d m h : sound Q d m -> (forall d' e, match h e with Some p => sound Q d' p | None => True end) -> sound Q d (pcatch m h).
Proof using Type.
  intros Hm Hh. revert d Hm. induction m as [[a|e]|X op k IH]; intros d Hm; [done| |].
  - unfold sound. cbn. specialize (Hh d e). by destruct (h e).
  - intros s Hs Hx Hd. destruct (Hm s Hs Hx Hd) as [H1 H2]. split; [done|]. by apply IH.
Qed.
Lemma sound_lift {A} (Q : nat -> A -> Prop) d (r : res A) : (forall a, r = Ok a -> Q d a) -> sound Q d (plift r).
Proof using Type. intros Hr. destruct r; [by apply Hr|done]. Qed.
Lemma sound_atomic {A} (Q : nat -> A -> Prop) d (op : st shop A) :
  (forall s, good s -> happened s -> (d <= drawn s)%nat -> safe s (op s).2 /\ forall a, (op s).1 = Ok a -> Q (drawn (op s).2) a) -> sound Q d (atomic op).
Proof using Type.
  intros Hop s Hs Hh Hd. destruct (Hop s Hs Hh Hd) as [H1 H2]. split; [by apply H1|]. unfold sound. destruct (op s).1; [by apply H2|done].
Qed.

Lemma draw_safe s : safe s (draw s).2.
Proof using Type. apply same_safe; [cbn; lia|done..|]. cbn. destruct (jwks s); [by left|done]. Qed.
Lemma sound_now d : sound (fun d' moment => exists n, moment = utc n /\ (d <= n < d')%nat) d (atomic (now utc)).
Proof using Type. apply sound_atomic. intros s _ _ Hd. split; [apply draw_safe|]. intros a [= <-]. exists (drawn s). split; [done|]. cbn. lia. Qed.
Lemma sound_select {A} (f : shop -> A) d : sound (fun d' a => exists s, happened s /\ (d <= drawn s)%nat /\ d' = drawn s /\ a = f s) d (select f).
Proof using Type. apply sound_atomic. intros s _ Hh Hd. split; [reflexivity|]. intros a [= <-]. by exists s. Qed.

Lemma keys_sound d : sound (fun _ => published) d (keys monotonic get_jwks).
Proof using Type.
  unfold keys. eapply (sound_bind (fun _ cached => match cached with Some ks => published ks | None => True end)).
  - apply sound_atomic. intros s [[Hk _ _ _] _] _ _. split; [apply draw_safe|]. intros [ks|]; [|done]. unfold sbind, gets. cbn.
    destruct (jwks s) as [ks'|]; [|done]. destruct (_ <? _); [done|]. by intros [= <-].
  - intros d' [ks|] Hks; [done|]. eapply (sound_bind (fun _ => published)).
    + apply sound_atomic. intros s _ _ _. split; [apply draw_safe|]. intros ks. unfold sbind, lift. cbn. destruct (keys_of_answer (get_jwks (drawn s))) eqn:E; [|done].
      intros [= <-]. by eexists.
    + intros d'' ks Hp. apply sound_atomic. intros s _ _ _. split; [apply same_safe; [cbn; lia|done..|cbn; by right]|]. by intros a [= <-].
Qed.

Lemma mandate_sound body d : sound (vetted body) d (_verify_mandate utc monotonic get_jwks claims_valid (b_mandate_sd_jwt body)).
Proof using Type.
  apply sound_catch; [|intros d' []; cbn; try done; by destruct (is_value_error _)].
  eapply sound_bind; [apply keys_sound|]. intros d1 ks Hks. eapply sound_bind; [apply sound_now|]. intros d2 moment (n & -> & Hn). apply sound_lift. intros claims Hc.
  destruct (SdJwt.verify _ _ _ _ _ _) as [kvs|] eqn:E; [|done]. exists ks, kvs, n. split; [lia|done].
Qed.
(** ** Quotes *)

Lemma existsb_not {A} (f : A -> bool) l : existsb f l = false -> forall x, x ∈ l -> f x = false.
Proof using Type. intros Hl x Hx. apply not_true_iff_false. intros Hf. apply not_true_iff_false in Hl. apply Hl, existsb_exists. exists x. by rewrite <- list_elem_of_In. Qed.

(** A new cart, quoted. *)
Lemma insert_safe id o s s' : m_status o <> "captured"%string -> m_purchase_id o = None -> insert_order id o s = (Ok tt, s') -> safe s s'.
Proof using Type.
  intros Hst Hp. unfold insert_order. destruct (existsb _ _) eqn:E; [done|]. intros [= <-].
  assert (Hno : forall k x, orders s !! k = Some x -> k <> id /\ m_checkout_jwt x <> m_checkout_jwt o).
  { intros k x Hx. pose proof (existsb_not _ _ E (k, x)) as Hf. rewrite elem_of_map_to_list in Hf. specialize (Hf Hx). cbn in Hf.
    apply orb_false_elim in Hf as [[H1%String.eqb_neq H2%String.eqb_neq]%orb_false_elim _]. by split. }
  intros [[G1 G3 G4 G5] G2]. split; [split; [split|]; cbn; try done|].
  - intros k x [[<- <-]|[_ Hx]]%lookup_insert_Some; [done|by eapply G3].
  - intros i j x y [[<- <-]|[_ Hx]]%lookup_insert_Some [[<- <-]|[_ Hy]]%lookup_insert_Some Heq; [done| | |by eapply G4].
    + by destruct (Hno _ _ Hy) as [_ []].
    + by destruct (Hno _ _ Hx) as [_ []].
  - intros i j x y p [[<- <-]|[_ Hx]]%lookup_insert_Some [[<- <-]|[_ Hy]]%lookup_insert_Some; [done|congruence..|by eapply G5].
  - split; [done|]. split; cbn.
    + intros k x Hx. exists x. destruct (Hno _ _ Hx) as [Hne _]. by rewrite lookup_insert_ne.
    + exists []. rewrite app_nil_r. split; [done|]. intros k x c _ _ Hc. by apply not_elem_of_nil in Hc.
Qed.

(** A transaction is safe from a state: what it raises undoes the orders. *)
Definition tsafe {A} (m : st shop A) (s : shop) : Prop := safe s (in_transaction m s).2.

Lemma tsafe_bind {A B} (m : st shop A) (f : A -> st shop B) s : orders (m s).2 = orders s -> safe s (m s).2 ->
  (forall a, (m s).1 = Ok a -> tsafe (f a) (m s).2) -> tsafe (sbind m f) s.
Proof using Type.
  unfold tsafe, in_transaction, sbind. destruct (m s) as [[a|e] s1]; cbn; intros Ho Hs Hf.
  - specialize (Hf a eq_refl). rewrite Ho in Hf. destruct (f a s1) as [[b|e] s2]; (etransitivity; [exact Hs|exact Hf]).
  - rewrite <- Ho. etransitivity; [exact Hs|]. apply same_safe; [done..|]. cbn. destruct (jwks s1); [by left|done].
Qed.
Lemma tsafe_lift {A B} (r : res A) (f : A -> st shop B) s : (forall a, r = Ok a -> tsafe (f a) s) -> tsafe (sbind (lift r) f) s.
Proof using Type. intros Hf. apply tsafe_bind; [done|reflexivity|exact Hf]. Qed.
Lemma tsafe_raise {A} e s : tsafe (A := A) (raise e) s.
Proof using Type. apply same_safe; [done..|]. cbn. destruct (jwks s); [by left|done]. Qed.
Lemma tsafe_last {A} (m : st shop A) s : orders (m s).2 = orders s -> safe s (m s).2 -> tsafe m s.
Proof using Type.
  unfold tsafe, in_transaction. destruct (m s) as [[a|e] s1]; cbn; intros Ho Hs; [done|]. rewrite <- Ho. etransitivity; [exact Hs|]. apply same_safe; [done..|].
  cbn. destruct (jwks s1); [by left|done].
Qed.

Lemma quote_sound offer d : sound any d (quote ulid merchant_id merchant_name merchant_website merchant_kid signing_key crv offer).
Proof using Type.
  apply sound_atomic. intros s _ _ _. split; [|done].
  apply tsafe_bind; [done|apply draw_safe|]. intros order_id _. do 6 (apply tsafe_lift; intros ? _).
  unfold tsafe, in_transaction, sbind, ret. match goal with |- context [insert_order ?i ?o ?t] => pose proof (insert_safe i o t) as Hs; destruct (insert_order i o t) as [[[]|e] s1] eqn:E end.
  - by apply Hs.
  - unfold insert_order in E. destruct (existsb _ _); [|done]. injection E as _ <-. apply same_safe; [done..|]. cbn. destruct (jwks s); [by left|done].
Qed.

Lemma price_sound offer_id amount d : sound any d (update_price offer_id amount).
Proof using Type.
  apply sound_atomic. intros s _ _ _. split; [|done]. destruct (offers s !! offer_id) as [row|]; [|reflexivity]. destruct (r_active row); [|reflexivity].
  apply same_safe; [done..|]. cbn. destruct (jwks s); [by left|done].
Qed.

(** ** The charge under the lock *)

Definition receipt_with (purchase_id : string) (r : Receipt) : Receipt :=
  {| re_purchase_id := purchase_id; re_capture_id := re_capture_id r; re_amount := re_amount r; re_currency := re_currency r;
     re_captured_at := re_captured_at r; re_mandate_jti := re_mandate_jti r; re_simulated := re_simulated r |}.

(** The rail is asked, for a cart that is only quoted. *)
Lemma call_safe c id o s : backed c -> orders s !! id = Some o -> m_status o <> "captured"%string -> c_checkout_jwt c = m_checkout_jwt o -> safe s (log_call c s).
Proof using Type.
  intros Hc Ho Hst Hj [[G1 G3 G4 G5] (new & G2 & Gnew)]. split; [split; [split|]; cbn; try done|].
  - intros k x Hx Hs. destruct (G3 _ _ Hx Hs) as (c' & n & r & Hin & Hrest). exists c', n, r. split; [|done]. apply elem_of_app. by left.
  - exists (new ++ [c]). rewrite G2, app_assoc. split; [done|]. apply Forall_app. by split; [|constructor].
  - split; [done|]. split; [intros k x Hx; by exists x|]. exists [c]. split; [done|]. intros k x c' Hx Hs ->%list_elem_of_singleton Heq.
    assert (k = id) as -> by (eapply G4; [exact Hx|exact Ho|congruence]). congruence.
Qed.

(** The receipt is filed. *)
Lemma file_safe c n r id o s moment : orders s !! id = Some o -> m_status o <> "captured"%string -> c ∈ rail_calls s -> c_checkout_jwt c = m_checkout_jwt o ->
  payment_answer (post_payment n c) = Ok r ->
  existsb (fun kv => negb (String.eqb kv.1 id) && bool_decide (m_purchase_id kv.2 = Some (c_purchase_id c))) (map_to_list (orders s)) = false ->
  safe s (set_orders (<[id := captured_order json_datetime (c_purchase_id c) r moment o]> (orders s)) s).
Proof using Type.
  intros Ho Hst Hc Hj Hr He [[G1 G3 G4 G5] G2].
  assert (Hno : forall k x, orders s !! k = Some x -> k <> id -> m_purchase_id x <> Some (c_purchase_id c)).
  { intros k x Hx Hk Hp. pose proof (existsb_not _ _ He (k, x)) as Hf. rewrite elem_of_map_to_list in Hf. specialize (Hf Hx). cbn in Hf.
    rewrite (proj2 (String.eqb_neq k id) Hk), bool_decide_eq_true_2 in Hf by done. done. }
  split; [split; [split|]; cbn; try done|].
  - intros k x [[<- <-]|[_ Hx]]%lookup_insert_Some Hs; [|by eapply G3]. exists c, n, r. by split_and!.
  - intros i j x y [[<- <-]|[Hi Hx]]%lookup_insert_Some [[<- <-]|[Hjj Hy]]%lookup_insert_Some Heq; [done| | |by eapply G4]; cbn in Heq;
      [eapply G4; [exact Ho|exact Hy|done]|eapply G4; [exact Hx|exact Ho|done]].
  - intros i j x y p [[<- <-]|[Hi Hx]]%lookup_insert_Some [[<- <-]|[Hjj Hy]]%lookup_insert_Some; [done| | |by eapply G5]; cbn; intros Hp Hq.
    + injection Hp as <-. by destruct (Hno _ _ Hy ltac:(done)).
    + injection Hq as <-. by destruct (Hno _ _ Hx ltac:(done)).
  - split; [done|]. split; cbn.
    + intros k x Hx. destruct (decide (k = id)) as [->|Hne]; [|exists x; by rewrite lookup_insert_ne]. eexists. rewrite lookup_insert_eq. assert (x = o) as -> by congruence. split; [done|]. by split_and!.
    + exists []. rewrite app_nil_r. split; [done|]. intros k x c' _ _ Hc'. by apply not_elem_of_nil in Hc'.
Qed.
Abbreviation rail_capture := (rail_capture post_payment pydantic_datetime pydantic_bool).

Lemma rail_capture_does c h s : (forall e, match h e with Some p => exists e', p = raise e' | None => True end) ->
  (catch (rail_capture c) h s).2 = (draw (log_call c s)).2 /\ forall r, (catch (rail_capture c) h s).1 = Ok r -> payment_answer (post_payment (drawn s) c) = Ok r.
Proof using Type.
  intros Hh. unfold catch, Merchant.rail_capture, sbind, modify, lift. cbn. destruct (payment_answer _) as [r|e]; cbn; [by split; [|intros r' [= <-]]|].
  specialize (Hh e). destruct (h e) as [p|]; [|done]. destruct Hh as [e' ->]. by split.
Qed.

Abbreviation settle_order := (settle_order utc post_verify post_payment pydantic_datetime pydantic_bool json_datetime decision_valid).

Lemma settle_tsafe body claims clock offer amount payload id order claimed s :
  asked body -> vetted body clock claims -> intent_signed body claims -> intent_fresh (b_intent body) (unix_seconds (utc clock)) -> intent_names body claims ->
  listed (n_offer_id (b_intent body)) offer clock (drawn s) -> price_agreed body offer amount -> cart_of (b_checkout_jwt body) = Ok payload -> py_get payload "order_id" = Ok (VStr id) ->
  same_cart merchant_id (b_checkout_jwt body) payload order = Ok tt -> m_offer_id order = n_offer_id (b_intent body) -> deq (m_amount order) amount = true ->
  n_checkout_hash (b_intent body) = Some claimed -> verify_checkout_binding (b_checkout_jwt body) claimed = Ok true ->
  happened s -> orders s !! id = Some order -> m_status order = "quoted"%string -> m_checkout_jwt order = b_checkout_jwt body ->
  tsafe (settle_order body offer amount id order) s.
Proof using Type.
  intros Hask Hvet Hsigned Hfresh Hnames Hlisted Hprice Hcart Hid Hsame Hoff Hdeq Hcl Hbind Hhap Hord Hst Hjwt. unfold Merchant.settle_order.
  apply tsafe_bind; [done|apply draw_safe|]. intros n [= <-]. set (s1 := (draw s).2). apply tsafe_lift. intros decision Hd.
  destruct (bool_decide_reflect (decision.1 = APPROVED)) as [Happ|]; cbn [negb]; [|apply tsafe_raise].
  destruct decision as [d reason]. cbn in Happ. subst d.
  assert (Hb : backed (rail_call body offer amount)).
  { destruct (verify_answer _ _) as [x|e] eqn:Ev in Hd; [|by destruct e]. injection Hd as ->. by eapply Backed. }
  set (c := rail_call body offer amount) in *. match goal with |- tsafe (sbind (catch _ ?h) _) _ => destruct (rail_capture_does c h s1) as [Hstate Hok] end; [by intros []; cbn; eauto|].
  apply tsafe_bind; [by rewrite Hstate| |].
  { rewrite Hstate. etransitivity; [|apply draw_safe]. eapply (call_safe c id order s1); [done|done|by rewrite Hst|by rewrite Hjwt]. }
  intros r Hr. specialize (Hok r Hr). rewrite Hstate. set (s2 := (draw (log_call c s1)).2).
  unfold tsafe, in_transaction, sbind, catch, mark_captured. rewrite Hst. cbn [String.eqb Ascii.eqb Bool.eqb andb]. unfold now, sbind, ret, draw. cbn beta iota.
  match goal with |- context [existsb ?f ?l] => destruct (existsb f l) eqn:Ee end; cbn.
  - apply same_safe; [cbn; lia|done..|]. cbn. destruct (jwks s); [by left|done].
  - etransitivity; [apply (draw_safe s2)|]. eapply (file_safe c (drawn s1) r id order (draw s2).2); [done|by rewrite Hst| |by rewrite Hjwt|done|exact Ee].
    cbn. apply elem_of_app. right. by apply list_elem_of_singleton.
Qed.

Abbreviation charge_order := (charge_order utc post_verify post_payment pydantic_datetime pydantic_bool json_datetime decision_valid merchant_id merchant_kid signing_key crv).
Abbreviation verify_checkout := (verify_checkout merchant_id merchant_kid signing_key crv).

(** The cart that verified is the order it names. *)
Lemma verify_checkout_does jwt s : (verify_checkout jwt s).2 = s /\ forall id order, (verify_checkout jwt s).1 = Ok (id, order) ->
  exists payload, cart_of jwt = Ok payload /\ py_get payload "order_id" = Ok (VStr id) /\ orders s !! id = Some order /\ same_cart merchant_id jwt payload order = Ok tt.
Proof using Type.
  unfold Merchant.verify_checkout, sbind, lift. destruct (cart_of jwt) as [payload|]; [|by split]. destruct (py_get payload "order_id") as [[]|] eqn:Eid; try by split.
  unfold gets, raise. destruct (orders s !! s0) as [order|] eqn:Eo; [|by split]. destruct (same_cart _ _ _ _) as [[]|] eqn:Es; [|by split].
  split; [done|]. intros id o [= <- <-]. by exists payload.
Qed.

Lemma same_cart_jwt jwt payload order : same_cart merchant_id jwt payload order = Ok tt -> m_checkout_jwt order = jwt.
Proof using Type.
  unfold same_cart, compare_digest. destruct (ascii_only _ && _); [|done]. cbn. destruct (String.eqb_spec (m_checkout_jwt order) jwt); [done|]. done.
Qed.

Lemma same_price_agreed body offer : same_price body offer = Ok true -> exists price, price_agreed body offer price.
Proof using Type.
  unfold same_price. destruct (decimal_of_string (n_amount (b_intent body))) as [proposed|] eqn:E1; [|done]. cbn [rbind].
  destruct (decimal_of_string (f_amount offer)) as [price|] eqn:E2; [|done]. cbn [rbind]. destruct (deq proposed price) eqn:E3; cbn [negb]; [|done].
  destruct (decimal_of_string (b_amount body)) as [wanted|] eqn:E4; [|done]. cbn [rbind]. intros [= [Hw Hc%String.eqb_eq]%andb_true_iff]. by exists price, proposed, wanted.
Qed.

Lemma intent_stands_says body claims moment : intent_stands merchant_id body claims moment = Ok tt ->
  intent_signed body claims /\ intent_fresh (b_intent body) moment /\ intent_names body claims.
Proof using Type.
  unfold intent_stands, guard_res. destruct (JWK _) as [key|] eqn:Ek; [|done]. cbn [rbind]. destruct (verify_detached _ _ _) as [signed|] eqn:Es; [|done]. cbn [rbind].
  destruct (dict_eq _ _) eqn:Ed; [|done]. cbn [rbind]. match goal with |- context [negb ?b] => destruct b eqn:Ef end; cbn [negb rbind]; [done|].
  destruct (_ && String.eqb (n_agent _) _) eqn:En; cbn [rbind]; [|done]. destruct (_ && String.eqb (n_currency _) _) eqn:Em; cbn [rbind]; [|done].
  destruct (or_str _ None) as [ref|] eqn:Er; [|done]. destruct (String.eqb_spec (b_payment_method_ref body) ref) as [Href|]; [|done]. intros _.
  apply andb_true_iff in En as [?%String.eqb_eq ?%String.eqb_eq], Em as [?%String.eqb_eq ?%String.eqb_eq]. split; [by exists key, signed|]. split; [unfold intent_fresh; lia|].
  split_and!; try done. unfold or_str in Er. destruct (k_payment_method_ref claims) as [t|]; [|done]. destruct (truthy_str t); congruence.
Qed.

Lemma order_tsafe body claims clock offer price s : asked body -> vetted body clock claims -> intent_signed body claims -> intent_fresh (b_intent body) (unix_seconds (utc clock)) ->
  intent_names body claims -> listed (n_offer_id (b_intent body)) offer clock (drawn s) -> price_agreed body offer price -> happened s ->
  tsafe (charge_order body offer) s.
Proof using Type.
  intros Hask Hvet Hsigned Hfresh Hnames Hlisted Hprice Hhap. unfold Merchant.charge_order. destruct (verify_checkout_does (b_checkout_jwt body) s) as [Hstate Hok].
  match goal with |- tsafe (sbind (catch _ ?h) _) _ => assert (Hcatch : (catch (verify_checkout (b_checkout_jwt body)) h s).2 = s /\
    forall x, (catch (verify_checkout (b_checkout_jwt body)) h s).1 = Ok x -> (verify_checkout (b_checkout_jwt body) s).1 = Ok x) end.
  { unfold catch. destruct (verify_checkout _ s) as [[x|e] s1]; cbn in *; [by split|]. subst s1. destruct e; by split. }
  destruct Hcatch as [Hsame Hval]. apply tsafe_bind; [by rewrite Hsame|by rewrite Hsame|]. intros [id order] Hx. rewrite Hsame. specialize (Hok id order (Hval _ Hx)).
  destruct Hok as (payload & Hcart & Hid & Hord & Hsc). cbn [fst snd]. apply tsafe_lift. intros [] Hbound; cbn [negb]; [|apply tsafe_raise].
  destruct (String.eqb_spec (m_offer_id order) (f_offer_id offer)) as [Hoff|]; cbn [negb]; [|apply tsafe_raise]. apply tsafe_lift. intros amount Hamount.
  assert (amount = price) as -> by (destruct Hprice as (? & ? & ? & _); congruence). assert (f_offer_id offer = n_offer_id (b_intent body)) as Hid' by (destruct Hlisted as (? & ? & _ & _ & _ & _ & Heq); by rewrite Heq).
  destruct (deq (m_amount order) price) eqn:Hdeq; cbn [negb]; [|apply tsafe_raise].
  destruct (String.eqb (m_status order) "captured"); [by apply tsafe_last|]. destruct (String.eqb_spec (m_status order) "quoted") as [Hst|]; cbn [negb]; [|apply tsafe_raise].
  unfold cart_bound in Hbound. destruct (n_checkout_hash (b_intent body)) as [claimed|] eqn:Hcl; [|done].
  eapply settle_tsafe; try done; [congruence|]. by eapply same_cart_jwt.
Qed.
Lemma charge_sound body d : asked body ->
  sound any d (charge utc monotonic get_jwks post_verify post_payment pydantic_datetime pydantic_bool json_datetime claims_valid decision_valid
    merchant_id merchant_kid signing_key crv body).
Proof using Type.
  intros Hask. unfold charge. eapply sound_bind; [apply mandate_sound|]. intros d1 claims Hv. eapply sound_bind; [apply sound_now|]. intros d2 moment (clock & -> & Hclock).
  assert (vetted body clock claims) as Hvet by (destruct Hv as (ks & kvs & n & Hn & Hrest); exists ks, kvs, n; split; [lia|done]).
  unfold _verify_intent. destruct (intent_stands _ _ _ _) as [[]|] eqn:Hint; [|done]. cbn [plift pbind]. apply intent_stands_says in Hint as (Hsigned & Hfresh & Hnames).
  eapply sound_bind; [apply sound_select|]. intros d3 found (seen & Hseen & Hd & -> & Hf). destruct found as [offer|]; [|done].
  unfold _verify_price. destruct (same_price body offer) as [[]|e] eqn:Hprice; cbn [plift pbind]; [|done|by destruct (_ || _)].
  apply same_price_agreed in Hprice as [price Hprice]. apply sound_atomic. intros s _ Hs Hlim. split; [|done]. eapply order_tsafe; try done.
  destruct (offers seen !! _) as [row|] eqn:Erow; [|done]. destruct (r_active row) eqn:Eact; [|done]. injection Hf as ->. exists seen, row. split; [done|]. split; [lia|]. done.
Qed.
End MerchantFacts.

(** ** Requests that race *)

Inductive request : Type :=
| SetPrice (offer_id amount : string)
| Quote (offer_id : string)
| Charge (body : ChargeRequest).

Section Requests.
Context `{JwkLibrary}.
Variables (ulid : nat -> string) (utc monotonic : nat -> Z) (get_jwks : nat -> res pyval)
  (post_verify : nat -> string -> string -> string -> string -> res (Z * option pyval)) (post_payment : nat -> RailCall -> res (Z * option pyval)).
Variables (pydantic_datetime : pyval -> res Z) (pydantic_bool : pyval -> res bool) (json_datetime : Z -> string) (claims_valid decision_valid : pydict -> bool).
Variables (merchant_id merchant_name merchant_website merchant_kid : string) (signing_key : Key) (crv : Key -> string).

Definition serve (r : request) : prog shop (Z * pydict) :=
  match r with
  | SetPrice offer_id amount => price_endpoint offer_id amount
  | Quote offer_id => quote_endpoint ulid merchant_id merchant_name merchant_website merchant_kid signing_key crv offer_id
  | Charge body => charge_endpoint utc monotonic get_jwks post_verify post_payment pydantic_datetime pydantic_bool json_datetime claims_valid decision_valid
                     merchant_id merchant_kid signing_key crv body
  end.

Abbreviation good := (good utc get_jwks post_verify post_payment pydantic_datetime pydantic_bool json_datetime claims_valid decision_valid merchant_id merchant_kid signing_key crv).
Abbreviation backed := (backed utc get_jwks post_verify claims_valid decision_valid merchant_id merchant_kid signing_key crv).
Abbreviation sound := (sound utc get_jwks post_verify post_payment pydantic_datetime pydantic_bool json_datetime claims_valid decision_valid merchant_id merchant_kid signing_key crv).
Abbreviation well_kept := (well_kept get_jwks post_payment pydantic_datetime pydantic_bool json_datetime).
Abbreviation paid := (paid post_payment pydantic_datetime pydantic_bool json_datetime).

Lemma request_sound asked happened before r d : (forall body, r = Charge body -> asked body) -> sound asked happened before any d (serve r).
Proof using Type.
  intros Hask. destruct r as [offer_id amount|offer_id|body]; cbn [serve].
  - unfold price_endpoint. destruct (_fixed_amount amount) as [text|e]; [|by destruct (is_value_error e)]. eapply (sound_bind _ _ _ _ _ _ _ _ _ _ _ _ _ _ _ _ any); [by apply sound_lift|].
    intros d1 amount' _. eapply sound_bind; [apply price_sound|]. by intros d2 [offer|] _.
  - eapply sound_bind; [apply sound_select|]. intros d1 [offer|] _; [|done]. eapply sound_bind; [apply quote_sound|]. done.
  - unfold charge_endpoint. destruct (_fixed_amount _) as [text|e]; [|by destruct (is_value_error e)]. apply sound_catch; [|by intros d1 []].
    eapply sound_bind; [apply charge_sound; auto|]. done.
Qed.

(** The states of a run: what an initial part of the schedule left. *)
Definition run (requests : list request) (schedule : list nat) (s : shop) : list (prog shop (Z * pydict)) * shop := interleave schedule (map serve requests) s.
Definition state_of (requests : list request) (schedule : list nat) (s : shop) (state : shop) : Prop := exists past, past `prefix_of` schedule /\ state = (run requests past s).2.

Lemma shop_schedule asked happened requests schedule s : well_kept s -> (forall body, Charge body ∈ requests -> asked body) ->
  (forall past, past `prefix_of` schedule -> happened (run requests past s).2) ->
  good asked happened (rail_calls s) (run requests schedule s).2 /\ grows s (run requests schedule s).2.
Proof using Type.
  intros Hs Hreq. enough ((forall past, past `prefix_of` schedule -> happened (run requests past s).2) ->
    Forall (fun p => exists d, (d <= drawn (run requests schedule s).2)%nat /\ sound asked happened (rail_calls s) any d p) (run requests schedule s).1 /\
    good asked happened (rail_calls s) (run requests schedule s).2 /\ grows s (run requests schedule s).2) as Hx by (intros Hh; by apply Hx).
  induction schedule as [|i past IH] using rev_ind; intros Hh.
  - split; [|split; [split; [done|exists []; by rewrite app_nil_r]|reflexivity]]. apply Forall_map, Forall_forall. intros r Hr. exists 0%nat. split; [lia|].
    apply request_sound. intros body ->. by apply Hreq.
  - destruct IH as (Hpool & Ht & Hg); [intros l Hl; apply Hh; by apply prefix_app_r|]. specialize (Hh past (prefix_app_r _ _ _ (reflexivity _))).
    unfold run, interleave in *. rewrite fold_left_app. cbn [fold_left]. destruct (fold_left _ past _) as [pool t]. cbn [fst snd] in *. rewrite step_at_prog.
    destruct (pool !! i) as [p|] eqn:Ep; [|done]. destruct (proj1 (Forall_lookup _ _) Hpool i _ Ep) as (d & Hd & Hp).
    destruct p as [x|X op k]; [cbn [step_prog fst snd]; by rewrite list_insert_id|]. destruct (Hp t Ht Hh Hd) as [[Ht' Hg'] Hk]. cbn [step_prog]. destruct (op t) as [x t']. cbn [fst snd] in *.
    split; [|split; [done|by etransitivity]]. apply Forall_insert; [|by exists (drawn t')]. eapply Forall_impl; [exact Hpool|]. intros q (dq & Hdq & Hq). exists dq.
    split; [destruct Hg' as [Hle _]; lia|done].
Qed.

(** C11: The money route: whatever quotes, price changes and charges race, interleaved
    in any way and stopped anywhere, each call the rail got in the run was made by
    one of its charges, and behind it stand, in this order: a mandate that verified
    under keys the issuer published, at what the clock then showed; an intent signed
    by the agent that mandate names, for that mandate, this merchant and this
    instrument, with at most two minutes to live and not over when the clock was
    read; then the offer the intent names, active in the catalogue of a later state
    of the run, at the price it had in that state, which is the price the intent
    and the request name; then, in a still later state, that offer's order, quoted,
    with the cart the merchant signed for that price and the intent names by its
    hash; and an approval of the kernel given in that state. *)
Theorem money_route requests schedule s new c : well_kept s ->
  rail_calls (run requests schedule s).2 = rail_calls s ++ new -> c ∈ new ->
  backed (fun body => Charge body ∈ requests) (state_of requests schedule s) c.
Proof using Type.
  intros Hs Hnew Hc. destruct (shop_schedule (fun body => Charge body ∈ requests) (state_of requests schedule s) requests schedule s Hs) as [[_ (new' & Heq & Hcalls)] _];
    [done|by intros past Hp; exists past|]. rewrite Hnew in Heq. apply app_inv_head in Heq as ->. by eapply (proj1 (Forall_forall _ _) Hcalls).
Qed.

(** C12: A cart is captured once: whatever races, an order captured before stays as it
    is and the rail is never asked for its cart again; every captured order has
    the receipt the rail gave for its cart, and no two orders have one purchase. *)
Theorem captured_once requests schedule s : well_kept s ->
  let s' := (interleave schedule (map serve requests) s).2 in
  (forall id o, orders s !! id = Some o -> m_status o = "captured"%string -> orders s' !! id = Some o) /\
  (exists new, rail_calls s' = rail_calls s ++ new /\
     forall id o c, orders s !! id = Some o -> m_status o = "captured"%string -> c ∈ new -> c_checkout_jwt c <> m_checkout_jwt o) /\
  (forall id o, orders s' !! id = Some o -> m_status o = "captured"%string -> paid o (rail_calls s')) /\
  (forall i j a b p, orders s' !! i = Some a -> orders s' !! j = Some b -> m_purchase_id a = Some p -> m_purchase_id b = Some p -> i = j).
Proof using Type.
  intros Hs s'. destruct (shop_schedule (fun _ => True) (fun _ => True) requests schedule s Hs) as [[[_ G3 _ G5] _] (_ & Ho & Hcalls)]; [done..|].
  split; [|split_and!; [exact Hcalls|exact G3|exact G5]].
  intros id o Hid Hst. destruct (Ho _ _ Hid) as (o' & Ho' & _ & _ & _ & _ & Hc). by rewrite (Hc Hst) in Ho'.
Qed.
End Requests.

(** ** The answer of the rail is lost *)

Section LostAnswer.
Context `{JwkLibrary}.
Variables (ulid : nat -> string) (utc monotonic : nat -> Z) (get_jwks : nat -> res pyval)
  (post_verify : nat -> string -> string -> string -> string -> res (Z * option pyval)) (post_payment : nat -> RailCall -> res (Z * option pyval)).
Variables (pydantic_datetime : pyval -> res Z) (pydantic_bool : pyval -> res bool) (json_datetime : Z -> string) (claims_valid decision_valid : pydict -> bool).
Variables (merchant_id merchant_kid : string) (signing_key : Key) (crv : Key -> string).

Abbreviation charge_order := (charge_order utc post_verify post_payment pydantic_datetime pydantic_bool json_datetime decision_valid merchant_id merchant_kid signing_key crv).
Abbreviation settle_order := (settle_order utc post_verify post_payment pydantic_datetime pydantic_bool json_datetime decision_valid).
Abbreviation charge := (charge utc monotonic get_jwks post_verify post_payment pydantic_datetime pydantic_bool json_datetime claims_valid decision_valid merchant_id merchant_kid signing_key crv).
Abbreviation charge_endpoint := (charge_endpoint utc monotonic get_jwks post_verify post_payment pydantic_datetime pydantic_bool json_datetime claims_valid decision_valid merchant_id merchant_kid signing_key crv).
Abbreviation _verify_mandate := (_verify_mandate utc monotonic get_jwks claims_valid).
Abbreviation verify_checkout := (verify_checkout merchant_id merchant_kid signing_key crv).

(** Statements that ask the rail for nothing and leave the tables alone. *)
Definition asks_nothing (s s' : shop) : Prop := rail_calls s' = rail_calls s /\ orders s' = orders s /\ offers s' = offers s.
#[export] Instance asks_nothing_preorder : PreOrder asks_nothing.
Proof. split; [by intros s|]. intros a b c (H1 & H2 & H3) (E1 & E2 & E3). unfold asks_nothing. split_and!; congruence. Qed.

Lemma mandate_asks_nothing token : does asks_nothing (_verify_mandate token).
Proof using Type.
  unfold Merchant._verify_mandate. apply does_catch; [|intros []; cbn; try done; by destruct (is_value_error _)].
  apply does_bind; [|intros ks; apply does_bind; [by apply does_atomic|by intros]]. unfold keys. apply does_bind.
  - apply does_atomic. intros s. unfold sbind, gets. cbn. done.
  - intros [ks|]; [done|]. apply does_bind; [|intros; by apply does_atomic]. apply does_atomic. intros s. unfold sbind, lift. cbn. done.
Qed.

(** Everything the charge checks of an order, down to a quoted cart. *)
Definition due (body : ChargeRequest) (offer : CatalogOffer) (s : shop) (order_id : string) (order : MerchantOrder) (amount : Decimal.dec) : Prop :=
  verify_checkout (b_checkout_jwt body) s = (Ok (order_id, order), s) /\ cart_bound body = Ok true /\ m_offer_id order = f_offer_id offer /\
  decimal_of_string (f_amount offer) = Ok amount /\ deq (m_amount order) amount = true /\ m_status order = "quoted"%string.

Definition kernel_says (body : ChargeRequest) (n : nat) : res (DecisionValue * option ReasonCode) :=
  verify_answer decision_valid (post_verify n (b_mandate_id body) (b_intent_jwt body) (override (or_str (b_idempotency_key body) None) (b_purchase_id body)) (n_agent (b_intent body))).

(** The rail is asked only for a cart that is due, approved by the kernel. *)
Lemma charge_order_asks body offer s : rail_calls (charge_order body offer s).2 = rail_calls s \/
  exists order_id order amount reason, due body offer s order_id order amount /\ kernel_says body (drawn s) = Ok (APPROVED, reason).
Proof using Type.
  unfold Merchant.charge_order, sbind, catch, lift, raise. destruct (verify_checkout (b_checkout_jwt body) s) as [[[id order]|e] t] eqn:Ev.
  2: { left. pose proof (proj1 (verify_checkout_does merchant_id merchant_kid signing_key crv (b_checkout_jwt body) s)) as Hs. rewrite Ev in Hs. cbn in Hs. subst t. by destruct e. }
  pose proof (proj1 (verify_checkout_does merchant_id merchant_kid signing_key crv (b_checkout_jwt body) s)) as Hs. rewrite Ev in Hs. cbn in Hs. subst t.
  destruct (cart_bound body) as [[]|] eqn:Eb; cbn [negb]; [|by left..]. cbn [fst snd]. destruct (String.eqb_spec (m_offer_id order) (f_offer_id offer)) as [Hof|]; cbn [negb]; [|by left].
  destruct (decimal_of_string (f_amount offer)) as [amount|] eqn:Ea; [|by left]. destruct (deq (m_amount order) amount) eqn:Ed; cbn [negb]; [|by left].
  destruct (String.eqb (m_status order) "captured"); [by left|]. destruct (String.eqb_spec (m_status order) "quoted") as [Hq|]; cbn [negb]; [|by left].
  unfold Merchant.settle_order, sbind, lift, raise, draw. fold (kernel_says body (drawn s)). destruct (kernel_says body (drawn s)) as [[d reason]|e] eqn:Ek; [|left; by destruct e].
  cbn [fst snd]. destruct (bool_decide_reflect (d = APPROVED)) as [->|]; cbn [negb]; [|by left]. right. by exists id, order, amount, reason.
Qed.

(** Such a cart is asked for, and when no receipt comes back nothing else changes. *)
Lemma due_is_asked body offer s order_id order amount reason : due body offer s order_id order amount -> kernel_says body (drawn s) = Ok (APPROVED, reason) ->
  exists rest, rail_calls (charge_order body offer s).2 = rail_calls s ++ [rail_call body offer amount] /\
    (payment_answer pydantic_datetime pydantic_bool (post_payment (S (drawn s)) (rail_call body offer amount)) = Raise (RailError EmptyString) ->
     charge_order body offer s = (Raise (refusal RAIL_ERROR), rest) /\ orders rest = orders s /\ offers rest = offers s).
Proof using Type.
  intros (Ev & Eb & Eo & Ea & Ed & Eq) Ek. unfold Merchant.charge_order, sbind, catch, lift, raise. rewrite Ev, Eb. cbn [negb fst snd]. rewrite Eo, String.eqb_refl. cbn [negb].
  rewrite Ea, Ed, Eq. cbn [negb String.eqb Ascii.eqb Bool.eqb]. unfold Merchant.settle_order, sbind, lift, raise, draw. fold (kernel_says body (drawn s)). rewrite Ek. cbn [fst snd].
  rewrite bool_decide_eq_true_2 by done. cbn [negb]. unfold catch, Merchant.rail_capture, sbind, modify, lift, draw, raise. cbn [drawn log_call].
  set (c := rail_call body offer amount). destruct (payment_answer _ _ _) as [r|e] eqn:Er.
  - exists s. split; [|done]. unfold mark_captured. rewrite Eq. cbn [String.eqb Ascii.eqb Bool.eqb andb]. unfold now, sbind, draw, ret, raise. cbn [drawn log_call].
    match goal with |- context [existsb ?f ?l] => destruct (existsb f l) end; done.
  - eexists. split; [by destruct e|]. intros [= ->]. cbn. done.
Qed.

(** What a charge comes to once the mandate, the intent and the price stand. *)
Definition reaches (body : ChargeRequest) (s : shop) (claims : ClaimsView) (later : shop) (offer : CatalogOffer) : Prop :=
  run_prog (_verify_mandate (b_mandate_sd_jwt body)) s = (Ok claims, later) /\ intent_stands merchant_id body claims (unix_seconds (utc (drawn later))) = Ok tt /\
  (run_prog (get_offer (n_offer_id (b_intent body))) s).1 = Ok (Some offer) /\ same_price body offer = Ok true.

Lemma reaches_order body s claims later offer : reaches body s claims later offer -> run_prog (charge body) s = in_transaction (charge_order body offer) (draw later).2.
Proof using Type.
  intros (Hm & Hi & Ho & Hp). unfold Merchant.charge. rewrite run_pbind. unfold sbind at 1. rewrite Hm, run_pbind. unfold sbind at 1. cbn [atomic run_prog].
  unfold now, sbind at 1. cbn [draw ret]. unfold _verify_intent. rewrite Hi. cbn [plift pbind]. rewrite run_pbind. unfold sbind at 1. cbn [get_offer select atomic run_prog gets] in *.
  destruct (does_run asks_nothing _ s _ (mandate_asks_nothing (b_mandate_sd_jwt body))) as (_ & _ & Hoff). rewrite Hm in Hoff. cbn [snd] in Hoff. cbn [offers fst snd] in *. rewrite <- Hoff in Ho.
  injection Ho as Ho. rewrite Ho. unfold _verify_price. rewrite Hp. cbn [atomic run_prog draw snd]. by destruct (in_transaction _ _).
Qed.

(** A charge after which the rail was asked had all of that. *)
Lemma charge_asks body s : rail_calls (run_prog (charge body) s).2 <> rail_calls s -> exists claims later offer, reaches body s claims later offer.
Proof using Type.
  intros Hne. destruct (does_run asks_nothing _ s _ (mandate_asks_nothing (b_mandate_sd_jwt body))) as (Hcalls & _ & Hoff).
  destruct (run_prog (_verify_mandate (b_mandate_sd_jwt body)) s) as [[claims|e] later] eqn:Hm; unfold Merchant.charge in Hne; rewrite run_pbind in Hne; unfold sbind at 1 in Hne; rewrite Hm in Hne; [|done].
  cbn [fst snd] in *. rewrite run_pbind in Hne. unfold sbind at 1 in Hne. cbn [atomic run_prog] in Hne. unfold now, sbind at 1 in Hne. cbn [draw ret] in Hne. unfold _verify_intent in Hne.
  destruct (intent_stands merchant_id body claims _) as [[]|] eqn:Hi; [|done]. cbn [plift pbind] in Hne. rewrite run_pbind in Hne. unfold sbind at 1 in Hne.
  cbn [get_offer select atomic run_prog gets offers] in Hne. rewrite Hoff in Hne. exists claims, later.
  destruct (run_prog (get_offer (n_offer_id (b_intent body))) s).1 as [[offer|]|] eqn:Ho; cbn [get_offer select atomic run_prog gets offers fst] in Ho; [|by injection Ho as Ho; rewrite Ho in Hne|done].
  injection Ho as Ho. rewrite Ho in Hne. unfold _verify_price in Hne. exists offer. destruct (same_price body offer) as [[]|e] eqn:Hp; [|done|by destruct (_ || _)].
  split; [done|]. split; [done|]. split; [|done]. cbn. by rewrite Ho.
Qed.

Lemma endpoint_of_charge body s : match _fixed_amount (b_amount body) with
  | Ok _ => (run_prog (charge_endpoint body) s).2 = (run_prog (charge body) s).2 /\
            (forall reason, (run_prog (charge body) s).1 = Raise (ChargeRefused reason) ->
               (run_prog (charge_endpoint body) s).1 = Ok (402, [("reason_code", VStr reason); ("purchase_id", VStr (b_purchase_id body))]%string))
  | Raise _ => (run_prog (charge_endpoint body) s).2 = s
  end.
Proof using Type.
  unfold Merchant.charge_endpoint. destruct (_fixed_amount (b_amount body)) as [t|e]; [|by destruct (is_value_error e)]. rewrite run_pcatch. unfold catch. rewrite run_pbind. unfold sbind.
  destruct (run_prog (charge body) s) as [[r|e] s']; cbn; [by split|]. split; [by destruct e|]. by intros reason [= ->].
Qed.

Lemma verify_checkout_orders jwt r s s' : orders s' = orders s -> verify_checkout jwt s = (r, s) -> verify_checkout jwt s' = (r, s').
Proof using Type.
  intros Ho. unfold Merchant.verify_checkout, sbind, lift, gets, raise, ret. destruct (cart_of _ _ _ _) as [payload|]; [|by intros [= <-]].
  destruct (py_get payload "order_id") as [[]|]; try by intros [= <-]. cbn beta iota. rewrite Ho. destruct (orders s !! _) as [order|]; [|by intros [= <-]]. destruct (same_cart _ _ _ _); by intros [= <-].
Qed.

(** The same purchase asked again by the customer, under an id of its own. *)
Definition asked_again (purchase_id : string) (body : ChargeRequest) : ChargeRequest :=
  {| b_purchase_id := purchase_id; b_mandate_id := b_mandate_id body; b_mandate_sd_jwt := b_mandate_sd_jwt body; b_intent := b_intent body; b_intent_jwt := b_intent_jwt body;
     b_checkout_jwt := b_checkout_jwt body; b_payment_method_ref := b_payment_method_ref body; b_amount := b_amount body; b_currency := b_currency body; b_idempotency_key := None |}.

(** C39: A charge for which the rail was asked and whose answer is lost, whatever the
    rail did with it, is answered 402 and leaves the catalogue and every order as
    they were; so the same cart, charged again under another purchase id while the
    mandate verifies, the intent is fresh and the kernel approves, goes to the rail
    a second time, under an idempotency key of its own. *)
Theorem lost_answer_charges_twice body purchase_id s c claims later reason :
  let first := run_prog (charge_endpoint body) s in
  let second := run_prog (charge_endpoint (asked_again purchase_id body)) first.2 in
  rail_calls first.2 = rail_calls s ++ [c] -> (forall n, exists e, post_payment n c = Raise e) ->
  run_prog (_verify_mandate (b_mandate_sd_jwt body)) first.2 = (Ok claims, later) -> intent_stands merchant_id body claims (unix_seconds (utc (drawn later))) = Ok tt ->
  kernel_says (asked_again purchase_id body) (S (drawn later)) = Ok (APPROVED, reason) ->
  first.1 = Ok (402, [("reason_code", VStr (ReasonCode_value RAIL_ERROR)); ("purchase_id", VStr (b_purchase_id body))]%string) /\
  orders first.2 = orders s /\ offers first.2 = offers s /\
  exists c', rail_calls second.2 = rail_calls s ++ [c; c'] /\ c_checkout_jwt c' = c_checkout_jwt c /\ c_token_id c' = c_token_id c /\ c_amount c' = c_amount c /\
    c_mandate_sd_jwt c' = c_mandate_sd_jwt c /\ c_purchase_id c' = purchase_id /\ c_idempotency_key c' = purchase_id.
Proof using Type.
  intros first second Hasked Hlost Hmandate Hintent Hkernel. pose proof (endpoint_of_charge body s) as Hend. fold first in Hend.
  assert (rail_calls first.2 <> rail_calls s) as Hne by (rewrite Hasked; intros Heq%(f_equal length); rewrite length_app in Heq; cbn in Heq; lia).
  destruct (_fixed_amount (b_amount body)) as [fixed|] eqn:Hfixed; [|by rewrite Hend in Hne]. destruct Hend as [Hstate Hanswer].
  destruct (charge_asks body s) as (claims0 & later0 & offer & Hreach); [by rewrite <- Hstate|]. pose proof (reaches_order _ _ _ _ _ Hreach) as Hrun.
  destruct Hreach as (Hm0 & _ & Hoffer & Hprice). destruct (does_run asks_nothing _ s _ (mandate_asks_nothing (b_mandate_sd_jwt body))) as (Hcalls0 & Hord0 & Hoff0).
  rewrite Hm0 in Hcalls0, Hord0, Hoff0. cbn [snd] in Hcalls0, Hord0, Hoff0. set (sx := (draw later0).2) in *.
  assert (rail_calls sx = rail_calls s) as Hcx by done. assert (orders sx = orders s) as Hox by done. assert (offers sx = offers s) as Hfx by done. clearbody sx.
  assert (forall m : st shop Receipt, rail_calls (in_transaction m sx).2 = rail_calls (m sx).2) as Htx by (intros m; unfold in_transaction; by destruct (m sx) as [[]]).
  destruct (charge_order_asks body offer sx) as [Hno|(order_id & order & amount & why & Hdue & Hk)]; [by rewrite Hstate, Hrun, Htx, Hno in Hne|].
  destruct (due_is_asked _ _ _ _ _ _ _ Hdue Hk) as (rest & Hasks & Hrest).
  assert (c = rail_call body offer amount) as ->. { rewrite Hstate, Hrun, Htx, Hasks, Hcx in Hasked. by apply app_inv_head in Hasked as [= ->]. }
  destruct (Hlost (S (drawn sx))) as [e He]. destruct Hrest as (Hresult & Hro & Hrf); [by rewrite He|].
  assert (run_prog (charge body) s = (Raise (refusal RAIL_ERROR), set_orders (orders sx) rest)) as Hfirst by (rewrite Hrun; unfold in_transaction; by rewrite Hresult).
  assert (first.2 = set_orders (orders sx) rest) as Hfs by by rewrite Hstate, Hfirst.
  split; [apply Hanswer; by rewrite Hfirst|]. split; [by rewrite Hfs|]. assert (offers first.2 = offers s) as Hoffers by (rewrite Hfs; cbn; congruence). split; [done|].
  assert (reaches (asked_again purchase_id body) first.2 claims later offer) as Hreach2.
  { split; [done|]. split; [done|]. split; [|done]. cbn [get_offer select atomic run_prog gets fst b_intent asked_again] in *. by rewrite Hoffers. }
  destruct (does_run asks_nothing _ first.2 _ (mandate_asks_nothing (b_mandate_sd_jwt body))) as (Hcalls2 & Hord2 & _). rewrite Hmandate in Hcalls2, Hord2. cbn [snd] in Hcalls2, Hord2.
  pose proof (endpoint_of_charge (asked_again purchase_id body) first.2) as Hend2. fold second in Hend2. change (b_amount (asked_again purchase_id body)) with (b_amount body) in Hend2.
  rewrite Hfixed in Hend2. destruct Hend2 as [Hstate2 _]. rewrite (reaches_order _ _ _ _ _ Hreach2) in Hstate2. set (sy := (draw later).2) in *.
  assert (due (asked_again purchase_id body) offer sy order_id order amount) as Hdue2.
  { destruct Hdue as (Hv & Hrest). split; [|exact Hrest]. eapply verify_checkout_orders; [|exact Hv]. change (orders sy) with (orders later). rewrite Hord2, Hfs. done. }
  destruct (due_is_asked _ _ _ _ _ _ reason Hdue2 Hkernel) as (_ & Hasks2 & _). exists (rail_call (asked_again purchase_id body) offer amount).
  split; [|by split_and!]. rewrite Hstate2. unfold in_transaction. assert (rail_calls sy = rail_calls s ++ [rail_call body offer amount]) as Hcy by (change (rail_calls sy) with (rail_calls later); congruence).
  rewrite Hcy, <- app_assoc in Hasks2. by destruct (charge_order (asked_again purchase_id body) offer sy) as [[]].
Qed.
End LostAnswer.

(** A cart quoted, charged and charged again at the merchant: instances of the
    theorems of MerchantFacts.v, and a capture that is reported as a refusal. *)

Definition shop_ulid (n : nat) : string := pretty (N.of_nat n).
Definition shop_utc (n : nat) : Z := 150000000.
Definition shop_monotonic (n : nat) : Z := 0.
Definition shop_jwks (n : nat) : res pyval := Ok (VDict [("keys", VList [VDict (("kid", VStr "v1") :: mark_export "issuer")])])%string.
Definition kernel_approves (n : nat) (mandate_id intent_jwt key agent : string) : res (Z * option pyval) :=
  Ok (200, Some (VDict [("decision", VStr "APPROVED")]))%string.
Definition rail_captures (n : nat) (c : RailCall) : res (Z * option pyval) :=
  Ok (200, Some (VDict [("purchase_id", VStr (c_purchase_id c)); ("capture_id", VStr "ynp_1"); ("amount", VStr (c_amount c)); ("currency", VStr (c_currency c));
                        ("captured_at", VStr "t"); ("mandate_jti", VStr "mdt_1"); ("simulated", VBool true)]))%string.
(** The capture went through and its answer was lost. *)
Definition rail_times_out (n : nat) (c : RailCall) : res (Z * option pyval) := Raise RuntimeError.
Definition one_time (v : pyval) : res Z := match v with VStr _ => Ok 150000000 | _ => Raise ValueError end.
Definition one_bool (v : pyval) : res bool := match v with VBool b => Ok b | _ => Raise ValueError end.
Definition any_dict (kvs : pydict) : bool := true.

Definition text_of (r : res string) : string := match r with Ok s => s | Raise _ => EmptyString end.
Definition shop_claims : pydict :=
  [("iss", VStr "trystrus"); ("jti", VStr "mdt_1"); ("agent", VStr "agt_1"); ("payment_method_ref", VStr "ynt_1"); ("nbf", VInt 100); ("exp", VInt 200);
   ("cnf", VDict [("jwk", VDict (mark_export "agent"))])]%string.
Definition shop_mandate : string := Eval vm_compute in text_of (issue (fun _ => "salt"%string) shop_claims (mark_key "issuer") "v1" []).

Definition seat : OfferRow :=
  {| r_merchant_id := "vuelaya"; r_category := "flights"; r_title := "BOG-MDE"; r_amount := "130.00"; r_currency := "USD"; r_origin := None; r_destination := None;
     r_depart_date := None; r_description := None; r_active := true |}%string.
Definition open_shop : shop := {| offers := {["ofr_1"%string := seat]}; orders := ∅; jwks := None; fetched_at := 0; rail_calls := []; drawn := 0 |}.

(** The cart the merchant signs for the first quote. *)
Definition seat_cart : string := Eval vm_compute in
  text_of (let? payload := cart_payload "vuelaya" "VuelaYa" "https://merchant.aval.example" "ord_0" (to_offer "ofr_1" seat) in
           sign_compact (VDict payload) (mark_key "shop") (Some "m1"%string) (Some "JWT"%string)).

Definition seat_intent : SignedIntent :=
  {| n_typ := "purchase_intent_v1"; n_mandate_jti := "mdt_1"; n_agent := "agt_1"; n_merchant_id := "vuelaya"; n_offer_id := "ofr_1"; n_amount := "130.00";
     n_currency := "USD"; n_nonce := "n-1"; n_jti := "int_1"; n_iat := 100; n_exp := 200; n_checkout_hash := Some (text_of (checkout_hash seat_cart)) |}%string.
(** Signed by the agent, without its payload. *)
Definition seat_intent_jwt : string := Eval vm_compute in
  match split_at "." (text_of (sign_compact (VDict (intent_dump seat_intent)) (mark_key "agent") None None)) with
  | [header; _; signature] => (header +:+ ".." +:+ signature)%string
  | _ => EmptyString
  end.

Definition seat_charge (purchase_id : string) : ChargeRequest :=
  {| b_purchase_id := purchase_id; b_mandate_id := "mdt_1"; b_mandate_sd_jwt := shop_mandate; b_intent := seat_intent; b_intent_jwt := seat_intent_jwt;
     b_checkout_jwt := seat_cart; b_payment_method_ref := "ynt_1"; b_amount := "130.00"; b_currency := "USD"; b_idempotency_key := None |}.

Abbreviation shop_serve rail := (serve shop_ulid shop_utc shop_monotonic shop_jwks kernel_approves rail one_time one_bool (fun _ => "t"%string) any_dict any_dict
  "vuelaya" "VuelaYa" "https://merchant.aval.example" "m1" (mark_key "shop") (fun _ => "P-256"%string)).

(** A quote, two charges of one purchase and one of another. *)
Definition customers : list request := [Quote "ofr_1"; Charge (seat_charge "pur_1"); Charge (seat_charge "pur_1"); Charge (seat_charge "pur_2")]%string.
Definition visits : list nat := [0; 0; 1; 1; 1; 1; 1; 1; 2; 2; 2; 2; 2; 1; 2; 2; 2; 3; 3; 3; 3; 3; 3; 3]%nat.
Abbreviation served := (interleave visits (map (shop_serve rail_captures) customers) open_shop).

Definition status_of {S} (p : option (prog S (Z * pydict))) : option Z := match p with Some (Finish (Ok r)) => Some r.1 | _ => None end.
(** What they were answered, what the rail was asked, and the order. *)
Definition seen (run : list (prog shop (Z * pydict)) * shop) : list (option Z) * list RailCall * option MerchantOrder :=
  (map (fun i => status_of (run.1 !! i)) [0; 1; 2; 3]%nat, rail_calls run.2, orders run.2 !! "ord_0"%string).
Definition outcome : list (option Z) * list RailCall * option MerchantOrder := Eval vm_compute in seen served.
Lemma outcome_exact : rail_calls served.2 = outcome.1.2 /\ orders served.2 !! "ord_0"%string = outcome.2.
Proof.
  assert (Hseen : seen served = (outcome.1.1, outcome.1.2, outcome.2)) by (vm_compute; reflexivity).
  unfold seen in Hseen. apply pair_equal_spec in Hseen as [[_ H1]%pair_equal_spec H2]. exact (conj H1 H2).
Qed.
Example statuses : outcome.1.1 = [Some 201; Some 200; Some 200; Some 402].
Proof. reflexivity. Qed.

Lemma open_kept rail : well_kept shop_jwks rail one_time one_bool (fun _ => "t"%string) open_shop.
Proof. split; [done|..]; cbn; intros *; by rewrite lookup_empty. Qed.

Lemma in_one (c : RailCall) : c ∈ [c].
Proof. by apply list_elem_of_singleton. Qed.

(** The capture that was made has everything behind it. *)
Lemma money_route_witness : exists c, rail_calls served.2 = [c] /\ c_purchase_id c = "pur_1"%string /\
  backed shop_utc shop_jwks kernel_approves any_dict any_dict "vuelaya" "m1" (mark_key "shop") (fun _ => "P-256"%string) (fun body => Charge body ∈ customers)
    (state_of shop_ulid shop_utc shop_monotonic shop_jwks kernel_approves rail_captures one_time one_bool (fun _ => "t"%string) any_dict any_dict
      "vuelaya" "VuelaYa" "https://merchant.aval.example" "m1" (mark_key "shop") (fun _ => "P-256"%string) customers visits open_shop) c.
Proof.
  destruct outcome_exact as [E _].
  eexists. split; [exact E|]. split; [reflexivity|].
  refine (money_route shop_ulid shop_utc shop_monotonic shop_jwks kernel_approves rail_captures one_time one_bool (fun _ => "t"%string) any_dict any_dict
    "vuelaya" "VuelaYa" "https://merchant.aval.example" "m1" (mark_key "shop") (fun _ => "P-256"%string) customers visits open_shop
    _ _ (open_kept rail_captures) E (in_one _)).
Defined.

(** Charged again after its capture: the order stays, with the receipt of the rail. *)
Lemma captured_once_witness : exists o, orders served.2 !! "ord_0"%string = Some o /\ m_status o = "captured"%string /\ m_purchase_id o = Some "pur_1"%string /\
  paid rail_captures one_time one_bool (fun _ => "t"%string) o (rail_calls served.2).
Proof.
  destruct (captured_once shop_ulid shop_utc shop_monotonic shop_jwks kernel_approves rail_captures one_time one_bool (fun _ => "t"%string) any_dict any_dict
    "vuelaya" "VuelaYa" "https://merchant.aval.example" "m1" (mark_key "shop") (fun _ => "P-256"%string) customers visits open_shop
    (open_kept rail_captures)) as (_ & _ & Hpaid & _).
  destruct outcome_exact as [_ E].
  eexists. split; [exact E|]. split; [reflexivity|]. split; [reflexivity|]. exact (Hpaid _ _ E eq_refl).
Defined.

(** A quoted cart, charged while every answer of the rail is lost, and again. *)
Abbreviation lost_serve := (charge_endpoint shop_utc shop_monotonic shop_jwks kernel_approves rail_times_out one_time one_bool (fun _ => "t"%string) any_dict any_dict
  "vuelaya" "m1" (mark_key "shop") (fun _ => "P-256"%string)).
Definition quoted_shop : shop := (run_prog (shop_serve rail_times_out (Quote "ofr_1"%string)) open_shop).2.
Definition lost_first : res (Z * pydict) * shop := run_prog (lost_serve (seat_charge "pur_1")) quoted_shop.
Definition lost_mandate : res ClaimsView * shop := run_prog (_verify_mandate shop_utc shop_monotonic shop_jwks any_dict shop_mandate) lost_first.2.
Definition seat_claims : ClaimsView :=
  {| k_jti := "mdt_1"; k_agent := "agt_1"; k_currency := "USD"; k_payment_method_ref := Some "ynt_1"; k_jwk := mark_export "agent" |}%string.

Lemma lost_answer_charges_twice_witness :
  status_of (S := shop) (Some (Finish lost_first.1)) = Some 402 /\
  exists c c', rail_calls (run_prog (lost_serve (seat_charge "pur_2")) lost_first.2).2 = [c; c'] /\ c_checkout_jwt c = c_checkout_jwt c' /\
    c_purchase_id c = "pur_1"%string /\ c_purchase_id c' = "pur_2"%string.
Proof.
  assert (exists c, rail_calls lost_first.2 = [c] /\ c_purchase_id c = "pur_1"%string) as (c & Hc & Hp) by (eexists; split; [vm_compute; reflexivity|reflexivity]).
  assert (rail_calls quoted_shop = []) as Hq by (vm_compute; reflexivity). assert (lost_mandate.1 = Ok seat_claims) as Hm by (vm_compute; reflexivity).
  destruct (lost_answer_charges_twice shop_utc shop_monotonic shop_jwks kernel_approves rail_times_out one_time one_bool (fun _ => "t"%string) any_dict any_dict
    "vuelaya" "m1" (mark_key "shop") (fun _ => "P-256"%string) (seat_charge "pur_1") "pur_2" quoted_shop c seat_claims lost_mandate.2 None)
    as (Hfirst & _ & _ & c' & Hcalls & Hcart & _ & _ & _ & Hp' & _).
  - rewrite Hq. exact Hc.
  - intros n. exists RuntimeError. reflexivity.
  - rewrite <- Hm. apply surjective_pairing.
  - vm_compute. reflexivity.
  - vm_compute. reflexivity.
  - split; [vm_compute; reflexivity|]. rewrite Hq in Hcalls. exists c, c'. split; [exact Hcalls|]. split; [symmetry; exact Hcart|]. split; [exact Hp|exact Hp'].
Defined.
