(* ===== verification/ApiMandate.v ===== *)
(** Mandates of the API lane: their claims and AP2 projection (trustlib/models.py,
    ap2.py), the registry that builds and signs them
    (api/services/mandate_registry.py), the passkey ceremony
    (api/services/passkey.py), the tables (api/repository.py), the client of the
    rail (api/services/rail_client.py) and the endpoints that create, activate and
    revoke them (api/routers/mandates.py).

    A step of a program is one SELECT, one HTTP exchange, or the writes of a
    transaction with its commit.  An UPDATE keeps its row locked until the commit,
    so a row a request claims is looked at first and claimed, with its guard, in
    the step that commits: a request that would wait for the lock finds the guard
    false there. *)
From S2P Require Import Prelude PyTime Decimal Json JsonLogic JsonParse Base64 Sha256 Models Canonical Jose RappiClient Prog AgentRules SdJwt StateMachine ApiEscalation.

(** ** trustlib/models.py *)

Inductive Period : Type := DAY | WEEK | MONTH.
Definition Period_value (p : Period) : string := match p with DAY => "day" | WEEK => "week" | MONTH => "month" end.
Record MaxTxn : Type := { x_count : Z; x_period : Period }.
Record MandateLimits : Type := { l_max_per_txn : option Decimal.dec; l_total_budget : option Decimal.dec; l_max_txn : option MaxTxn }.
Record MandateScope : Type := { sc_categories : list string; sc_merchants : list string }.
Record MandateValidity : Type := { va_not_before : Z; va_expires_at : Z }.

Record MandateClaimsInput : Type := {
  ci_user_id : string; ci_agent_id : string; ci_currency : string; ci_scope : MandateScope; ci_limits : MandateLimits; ci_validity : MandateValidity;
  ci_conditions : option pydict; ci_payment_method_ref : option string; ci_agent_jwk : option pydict }.

Record MandateClaims : Type := {
  a_iss : string; a_iat : Z; a_nbf : Z; a_exp : Z; a_jti : string; a_type : string; a_sub : string; a_agent : string; a_jwk : pydict;
  a_payment_method_ref : option string; a_currency : string; a_scope : MandateScope; a_conditions : option pydict; a_limits : MandateLimits;
  a_validity : MandateValidity; a_parent_jti : option string; a_vct : option string; a_constraints : option (list pyval) }.

Definition no_none (key : string) (v : option pyval) : pydict := match v with Some v => [(key, v)] | None => [] end.

Definition limits_dump (l : MandateLimits) : pyval :=
  VDict (no_none "max_per_txn" (VStr ∘ dec_str <$> l_max_per_txn l) ++ no_none "total_budget" (VStr ∘ dec_str <$> l_total_budget l)
         ++ no_none "max_txn" ((fun x => VDict [("count", VInt (x_count x)); ("period", VStr (Period_value (x_period x)))]%string) <$> l_max_txn l)).
Definition scope_dump (s : MandateScope) : pyval := VDict [("categories", VList (map VStr (sc_categories s))); ("merchants", VList (map VStr (sc_merchants s)))]%string.

(** Pydantic: the text of claims without their [None]s ([model_dump_json]), claims
    from a text or from a dict, how it writes a datetime.  Claims that were read
    are written so that they read back. *)
Class ClaimsLibrary : Type := {
  claims_text : MandateClaims -> string;
  claims_read : string -> res MandateClaims;
  claims_validate : pydict -> res MandateClaims;
  json_datetime : Z -> string;
  claims_stable : forall text c, claims_read text = Ok c -> claims_read (claims_text c) = Ok c;
}.

(** [claims.model_dump(mode="json", exclude_none=True)] *)
Definition claims_dump `{ClaimsLibrary} (c : MandateClaims) : pydict :=
  ([("iss", VStr (a_iss c)); ("iat", VInt (a_iat c)); ("nbf", VInt (a_nbf c)); ("exp", VInt (a_exp c)); ("jti", VStr (a_jti c)); ("type", VStr (a_type c));
    ("sub", VStr (a_sub c)); ("agent", VStr (a_agent c)); ("cnf", VDict [("jwk", VDict (a_jwk c))])]%string
   ++ no_none "payment_method_ref" (VStr <$> a_payment_method_ref c)
   ++ [("currency", VStr (a_currency c)); ("scope", scope_dump (a_scope c))]%string
   ++ no_none "conditions" (VDict <$> a_conditions c)
   ++ [("limits", limits_dump (a_limits c));
       ("validity", VDict [("not_before", VStr (json_datetime (va_not_before (a_validity c)))); ("expires_at", VStr (json_datetime (va_expires_at (a_validity c))))])]%string
   ++ no_none "parent_jti" (VStr <$> a_parent_jti c) ++ no_none "vct" (VStr <$> a_vct c) ++ no_none "constraints" (VList <$> a_constraints c)).

(** ** trustlib/ap2.py *)

Definition VCT_PAYMENT_OPEN : string := "mandate.payment.open.1".
Definition _AP2_FREQUENCY (p : Period) : string := match p with DAY => "DAILY" | WEEK => "WEEKLY" | MONTH => "MONTHLY" end.

Definition minor_units (d : option Decimal.dec) : res (option Z) :=
  match d with Some d => let? units := to_minor_units d in Ok (Some units) | None => Ok None end.

Definition constraints_for (c : MandateClaims) : res (list pyval) :=
  let limits := a_limits c in
  let? max_per_txn := minor_units (l_max_per_txn limits) in
  let? total_budget := minor_units (l_total_budget limits) in
  Ok (match max_per_txn with
      | Some units => [VDict [("type", VStr "payment.amount_range"); ("currency", VStr (a_currency c)); ("min", VInt 0); ("max", VInt units)]]%string
      | None => []
      end
      ++ match total_budget with
         | Some units => [VDict [("type", VStr "payment.budget"); ("currency", VStr (a_currency c)); ("max", VInt units)]]%string
         | None => []
         end
      ++ match sc_merchants (a_scope c) with
         | [] => []
         | merchants => [VDict [("type", VStr "payment.allowed_payees"); ("allowed", VList (map (fun m => VDict [("id", VStr m)]) merchants))]]%string
         end
      ++ match l_max_txn limits with
         | Some x => [VDict [("type", VStr "payment.agent_recurrence"); ("frequency", VStr (_AP2_FREQUENCY (x_period x))); ("max_occurrences", VInt (x_count x))]]%string
         | None => []
         end
      ++ [VDict [("type", VStr "payment.execution_date"); ("not_before", VStr (isoformat (va_not_before (a_validity c))));
                 ("not_after", VStr (isoformat (va_expires_at (a_validity c))))]]%string).

Definition apply_ap2_projection (c : MandateClaims) : res MandateClaims :=
  let? constraints := constraints_for c in
  Ok {| a_iss := a_iss c; a_iat := a_iat c; a_nbf := a_nbf c; a_exp := a_exp c; a_jti := a_jti c; a_type := a_type c; a_sub := a_sub c; a_agent := a_agent c;
        a_jwk := a_jwk c; a_payment_method_ref := a_payment_method_ref c; a_currency := a_currency c; a_scope := a_scope c; a_conditions := a_conditions c;
        a_limits := a_limits c; a_validity := a_validity c; a_parent_jti := a_parent_jti c; a_vct := Some VCT_PAYMENT_OPEN; a_constraints := Some constraints |}.

(** ** mandate_registry.py *)

Definition SELECTIVE_CLAIMS : list string := ["email"; "shipping_address"]%string.

Definition build_claims (issuer : string) (request : MandateClaimsInput) (jti : string) (agent_jwk : pydict) (parent_jti : option string) : res MandateClaims :=
  apply_ap2_projection
    {| a_iss := issuer; a_iat := unix_seconds (va_not_before (ci_validity request)); a_nbf := unix_seconds (va_not_before (ci_validity request));
       a_exp := unix_seconds (va_expires_at (ci_validity request)); a_jti := jti; a_type := "purchase_mandate_v1"; a_sub := ci_user_id request;
       a_agent := ci_agent_id request; a_jwk := agent_jwk; a_payment_method_ref := ci_payment_method_ref request; a_currency := ci_currency request;
       a_scope := ci_scope request; a_conditions := ci_conditions request; a_limits := ci_limits request; a_validity := ci_validity request;
       a_parent_jti := parent_jti; a_vct := None; a_constraints := None |}.

Definition derive (parent : MandateClaims) (limits : MandateLimits) (ttl_seconds : Z) (jti : string) (now : Z) : res MandateClaims :=
  apply_ap2_projection
    {| a_iss := a_iss parent; a_iat := now; a_nbf := now; a_exp := Z.min (now + ttl_seconds) (a_exp parent); a_jti := jti; a_type := a_type parent;
       a_sub := a_sub parent; a_agent := a_agent parent; a_jwk := a_jwk parent; a_payment_method_ref := a_payment_method_ref parent;
       a_currency := a_currency parent; a_scope := a_scope parent; a_conditions := a_conditions parent; a_limits := limits; a_validity := a_validity parent;
       a_parent_jti := Some (a_jti parent); a_vct := a_vct parent; a_constraints := a_constraints parent |}.

Section Registry.
Context `{JwkLibrary, !ClaimsLibrary}.

(** [salts] are the random bytes of the disclosures; the answer is the SD-JWT. *)
Definition sign (salts : nat -> string) (issuer_key : Key) (issuer_kid : string) (claims : MandateClaims) (disclose : pydict) : res string :=
  SdJwt.issue salts (claims_dump claims) issuer_key issuer_kid (List.filter (fun kv => existsb (String.eqb kv.1) SELECTIVE_CLAIMS) disclose).

Definition registry_verify (keys : list (string * Key)) (sd_jwt : string) (nonce aud : option string) (require_key_binding : bool) (current : Z) : res MandateClaims :=
  let? claims := SdJwt.verify sd_jwt keys nonce aud require_key_binding current in claims_validate claims.

(** ** passkey.py *)

(** [canonical_hash] of the dump: the bytes the human signs. *)
Definition mandate_challenge (claims : MandateClaims) : res string := let? text := jcs_dumps (VDict (claims_dump claims)) in Ok (sha256_raw text).
End Registry.

Inductive Purpose : Type := REGISTER | ACTIVATE | REVOKE.
#[export] Instance Purpose_eq_dec : EqDecision Purpose.
Proof. solve_decision. Defined.
Definition Purpose_value (p : Purpose) : string := match p with REGISTER => "register" | ACTIVATE => "activate" | REVOKE => "revoke" end.

Record Challenge : Type := { h_value : string; h_user_id : string; h_purpose : Purpose; h_expires_at : Z; h_mandate_id : option string }.
Record StoredCredential : Type := { d_credential_id : string; d_user_id : string; d_public_key : string; d_sign_count : Z }.

Definition _issue (challenge_ttl_seconds : Z) (digest user_id : string) (purpose : Purpose) (mandate_id : option string) (moment : Z) : Challenge :=
  {| h_value := b64u_encode digest; h_user_id := user_id; h_purpose := purpose; h_expires_at := moment + challenge_ttl_seconds * 1000000; h_mandate_id := mandate_id |}.
Definition _assert_usable (challenge : Challenge) (moment : Z) : res unit := guard_res (negb (h_expires_at challenge <? moment)) PasskeyError.

(** ** Tables *)

Record Mandate : Type := {
  m_user_id : string; m_agent_id : string; m_status : string; m_claims : string; m_sd_jwt : option string; m_reserved_amount : string; m_spent_total : string;
  m_txn_count : Z; m_parent_jti : option string; m_version : Z; m_created_at : string; m_updated_at : string }.
Record PaymentInstrument : Type := { i_mandate_jti : string; i_rail : string; i_status : string; i_created_at : string; i_deleted_at : option string }.
Record WebAuthnCredential : Type := { w_user_id : string; w_public_key : string; w_sign_count : Z; w_last_used_at : option Z }.
(** Under its value and its purpose. *)
Record WebAuthnChallenge : Type := { g_user_id : string; g_mandate_id : option string; g_expires_at : Z; g_consumed_at : option Z }.

(** The database, whose outbox and escalations are the desk of ApiEscalation.v,
    and the tokens the rail was asked to delete. *)
Record office : Type := {
  mandates : gmap string Mandate;
  instruments : gmap string PaymentInstrument;
  credentials : gmap string WebAuthnCredential;
  challenges : gmap (string * string) WebAuthnChallenge;
  events : desk;
  deletions : list string;
}.
Definition set_mandates m (o : office) : office :=
  {| mandates := m; instruments := instruments o; credentials := credentials o; challenges := challenges o; events := events o; deletions := deletions o |}.
Definition set_instruments m (o : office) : office :=
  {| mandates := mandates o; instruments := m; credentials := credentials o; challenges := challenges o; events := events o; deletions := deletions o |}.
Definition set_credentials m (o : office) : office :=
  {| mandates := mandates o; instruments := instruments o; credentials := m; challenges := challenges o; events := events o; deletions := deletions o |}.
Definition set_challenges m (o : office) : office :=
  {| mandates := mandates o; instruments := instruments o; credentials := credentials o; challenges := m; events := events o; deletions := deletions o |}.
Definition set_events d (o : office) : office :=
  {| mandates := mandates o; instruments := instruments o; credentials := credentials o; challenges := challenges o; events := d; deletions := deletions o |}.
Definition log_deletion (token_ref : string) (o : office) : office :=
  {| mandates := mandates o; instruments := instruments o; credentials := credentials o; challenges := challenges o; events := events o;
     deletions := deletions o ++ [token_ref] |}.

(** [get_session]: an endpoint that raises leaves the tables as they were. *)
Definition rolled_back (o o' : office) : office :=
  {| mandates := mandates o; instruments := instruments o; credentials := credentials o; challenges := challenges o;
     events := {| escalations := escalations (events o); outbox := outbox (events o); drawn := drawn (events o') |}; deletions := deletions o' |}.
Definition in_transaction {A} (m : st office A) : st office A := fun o =>
  match m o with
  | (Ok a, o') => (Ok a, o')
  | (Raise e, o') => (Raise e, rolled_back o o')
  end.
Definition select {A} (f : office -> A) : prog office A := atomic (gets f).

(** An INSERT under a primary key. *)
Definition insert_row {K V} `{Countable K} (view : office -> gmap K V) (update : gmap K V -> office -> office) (key : K) (row : V) : st office unit := fun o =>
  match view o !! key with
  | Some _ => (Raise IntegrityError, o)
  | None => (Ok tt, update (<[key := row]> (view o)) o)
  end.
(** An UPDATE of the row under a key. *)
Definition update_row {V} (view : office -> gmap string V) (update : gmap string V -> office -> office) (key : string) (f : V -> V) : st office unit := fun o =>
  match view o !! key with
  | Some row => (Ok tt, update (<[key := f row]> (view o)) o)
  | None => (Ok tt, o)
  end.

(** ** repository.py *)

Section Repository.
Context `{JwkLibrary, !ClaimsLibrary}.

Definition draft (claims : MandateClaims) (moment : Z) : Mandate :=
  {| m_user_id := a_sub claims; m_agent_id := a_agent claims; m_status := MandateStatus_value DRAFT; m_claims := claims_text claims; m_sd_jwt := None;
     m_reserved_amount := "0.00"; m_spent_total := "0.00"; m_txn_count := 0; m_parent_jti := a_parent_jti claims; m_version := 1;
     m_created_at := _iso moment; m_updated_at := _iso moment |}.
Definition insert_mandate (claims : MandateClaims) (moment : Z) : st office unit := fun o =>
  match a_parent_jti claims with
  | Some parent => match mandates o !! parent with
                   | Some _ => insert_row mandates set_mandates (a_jti claims) (draft claims moment) o
                   | None => (Raise IntegrityError, o)
                   end
  | None => insert_row mandates set_mandates (a_jti claims) (draft claims moment) o
  end.

Definition get_mandate (mandate_id : string) (o : office) : option Mandate := mandates o !! mandate_id.

Definition signed_row (sd_jwt text : string) (moment : Z) (row : Mandate) : Mandate :=
  {| m_user_id := m_user_id row; m_agent_id := m_agent_id row; m_status := m_status row; m_claims := text; m_sd_jwt := Some sd_jwt;
     m_reserved_amount := m_reserved_amount row; m_spent_total := m_spent_total row; m_txn_count := m_txn_count row; m_parent_jti := m_parent_jti row;
     m_version := m_version row; m_created_at := m_created_at row; m_updated_at := _iso moment |}.
Definition attach_sd_jwt (mandate_id sd_jwt : string) (claims : MandateClaims) (moment : Z) : st office unit :=
  update_row mandates set_mandates mandate_id (signed_row sd_jwt (claims_text claims) moment).

Definition moved_row (to : MandateStatus) (moment : Z) (row : Mandate) : Mandate :=
  {| m_user_id := m_user_id row; m_agent_id := m_agent_id row; m_status := MandateStatus_value to; m_claims := m_claims row; m_sd_jwt := m_sd_jwt row;
     m_reserved_amount := m_reserved_amount row; m_spent_total := m_spent_total row; m_txn_count := m_txn_count row; m_parent_jti := m_parent_jti row;
     m_version := m_version row + 1; m_created_at := m_created_at row; m_updated_at := _iso moment |}.

Definition _current_status (mandate_id : string) : st office (option MandateStatus) :=
  row <- gets (get_mandate mandate_id) ;;
  match row with
  | Some row => if truthy_str (m_status row) then s <- lift (MandateStatus_of (m_status row)) ;; ret (Some s) else ret None
  | None => ret None
  end.

(** The guarded UPDATE with the refusal it explains. *)
Definition transition (mandate_id : string) (to : MandateStatus) (moment : Z) : st office TransitionResult := fun o =>
  match mandates o !! mandate_id with
  | Some row =>
      if existsb (String.eqb (m_status row)) (sources_for to) then
        (event <- lift (TRANSITION_EVENTS to) ;;
         ret {| tr_ok := true; tr_frm := None; tr_to := to; tr_reason_code := None; tr_event := Some event |})
          (set_mandates (<[mandate_id := moved_row to moment row]> (mandates o)) o)
      else (current <- _current_status mandate_id ;; ret (refused to current)) o
  | None => (current <- _current_status mandate_id ;; ret (refused to current)) o
  end.

Definition link_instrument (token_ref mandate_jti : string) (moment : Z) : st office unit := fun o =>
  match instruments o !! token_ref with
  | Some _ => (Ok tt, o)
  | None => (Ok tt, set_instruments (<[token_ref := {| i_mandate_jti := mandate_jti; i_rail := "yuno_sim"; i_status := "active"; i_created_at := _iso moment;
                                                       i_deleted_at := None |}]> (instruments o)) o)
  end.

Definition active_for (mandate_jti : string) (row : PaymentInstrument) : bool := String.eqb (i_mandate_jti row) mandate_jti && String.eqb (i_status row) "active".
Definition instruments_for (mandate_jti : string) (o : office) : list string :=
  (List.filter (fun kv => active_for mandate_jti kv.2) (map_to_list (instruments o))).*1.

Definition deleted_row (moment : Z) (row : PaymentInstrument) : PaymentInstrument :=
  {| i_mandate_jti := i_mandate_jti row; i_rail := i_rail row; i_status := "deleted"; i_created_at := i_created_at row; i_deleted_at := Some (_iso moment) |}.
Definition mark_instrument_deleted (token_ref : string) (moment : Z) : st office unit := update_row instruments set_instruments token_ref (deleted_row moment).

Definition challenge_row (challenge : Challenge) : WebAuthnChallenge :=
  {| g_user_id := h_user_id challenge; g_mandate_id := h_mandate_id challenge; g_expires_at := h_expires_at challenge; g_consumed_at := None |}.
Definition store_challenge (challenge : Challenge) : st office unit :=
  insert_row challenges set_challenges (h_value challenge, Purpose_value (h_purpose challenge)) (challenge_row challenge).

(** The challenge the guarded UPDATE of [consume_challenge] would claim. *)
Definition free_challenge (value : string) (purpose : Purpose) (o : office) : option Challenge :=
  match challenges o !! (value, Purpose_value purpose) with
  | Some row =>
      match g_consumed_at row with
      | None => Some {| h_value := value; h_user_id := g_user_id row; h_purpose := purpose; h_expires_at := g_expires_at row; h_mandate_id := g_mandate_id row |}
      | Some _ => None
      end
  | None => None
  end.
Definition consumed_row (moment : Z) (row : WebAuthnChallenge) : WebAuthnChallenge :=
  {| g_user_id := g_user_id row; g_mandate_id := g_mandate_id row; g_expires_at := g_expires_at row; g_consumed_at := Some moment |}.
Definition consume_challenge (value : string) (purpose : Purpose) (moment : Z) : st office (option Challenge) := fun o =>
  match free_challenge value purpose o, challenges o !! (value, Purpose_value purpose) with
  | Some challenge, Some row => (Ok (Some challenge), set_challenges (<[(value, Purpose_value purpose) := consumed_row moment row]> (challenges o)) o)
  | _, _ => (Ok None, o)
  end.

Definition store_credential (credential : StoredCredential) : st office unit :=
  insert_row credentials set_credentials (d_credential_id credential)
    {| w_user_id := d_user_id credential; w_public_key := d_public_key credential; w_sign_count := d_sign_count credential; w_last_used_at := None |}.
Definition stored (credential_id : string) (row : WebAuthnCredential) : StoredCredential :=
  {| d_credential_id := credential_id; d_user_id := w_user_id row; d_public_key := w_public_key row; d_sign_count := w_sign_count row |}.
Definition credentials_for (user_id : string) (o : office) : list StoredCredential :=
  map (fun kv => stored kv.1 kv.2) (List.filter (fun kv => String.eqb (w_user_id kv.2) user_id) (map_to_list (credentials o))).
Definition get_credential (credential_id : string) (o : office) : option StoredCredential := stored credential_id <$> credentials o !! credential_id.
Definition advance_sign_count (credential_id : string) (new_count moment : Z) : st office unit :=
  update_row credentials set_credentials credential_id
    (fun row => {| w_user_id := w_user_id row; w_public_key := w_public_key row; w_sign_count := new_count; w_last_used_at := Some moment |}).
End Repository.

(** ** The ceremony and the endpoints *)

Record PasskeyAssertion : Type := {
  p_id : string; p_rawId : option string; p_response : pydict; p_type : string; p_clientExtensionResults : pydict; p_extra : pydict }.
(** [body.model_dump()] *)
Definition assertion_dump (body : PasskeyAssertion) : pydict :=
  [("id", VStr (p_id body)); ("rawId", opt_str (p_rawId body)); ("response", VDict (p_response body)); ("type", VStr (p_type body));
   ("clientExtensionResults", VDict (p_clientExtensionResults body))]%string ++ p_extra body.

Record MandateView : Type := {
  vw_mandate_id : string; vw_status : string; vw_limits : MandateLimits; vw_scope : MandateScope; vw_spent : Decimal.dec; vw_reserved : Decimal.dec;
  vw_txn_count_period : Z; vw_payment_method_ref : option string; vw_parent_jti : option string; vw_created_at : Z }.
Record MandateDraft : Type := { md_mandate_id : string; md_challenge : string; md_payment_enroll : option (string * string) }.

Definition unauthorized : exn := HTTPException 401.
Definition not_found : exn := HTTPException 404.
Definition conflict : exn := HTTPException 409.
Definition no_passkey : exn := HTTPException 412.

(** rail_client.py: what an answer of the rail means. *)
Definition rail_answer (answer : res (Z * option pyval)) : res pyval :=
  let? ' (status, body) := answer in
  if 400 <=? status then
    Raise (RailError (match body with Some (VDict kvs) => match assoc "reason_code" kvs with Some (VStr s) => s | _ => EmptyString end | _ => EmptyString end))
  else match body with Some data => Ok data | None => Raise ValueError end.

Definition delete_payment_token (answer : res (Z * option pyval)) : res unit :=
  match rail_answer answer with
  | Ok _ => Ok tt
  | Raise (RailError code) => if String.eqb code "RAIL_TOKEN_DELETED" then Ok tt else Raise (RailError code)
  | Raise e => Raise e
  end.

(** [SetupToken(...)]: its id and the page that approves it. *)
Definition create_setup_token (answer : res (Z * option pyval)) : res (string * string) :=
  let? data := rail_answer answer in
  match data with
  | VDict kvs => match assoc "setup_token_id" kvs, assoc "approve_url" kvs with
                 | Some (VStr setup_token_id), Some (VStr approve_url) => Ok (setup_token_id, approve_url)
                 | _, _ => Raise ValueError
                 end
  | _ => Raise TypeError
  end.

(** The members of [limits.model_dump(mode="json")] in an event, [None]s kept. *)
Definition limits_event (l : MandateLimits) : pyval :=
  VDict [("max_per_txn", opt_str (dec_str <$> l_max_per_txn l)); ("total_budget", opt_str (dec_str <$> l_total_budget l));
         ("max_txn", match l_max_txn l with Some x => VDict [("count", VInt (x_count x)); ("period", VStr (Period_value (x_period x)))] | None => VNone end)]%string.

(** [Decimal] of a view: finite. *)
Definition finite_decimal (text : string) : res Decimal.dec :=
  match decimal_of_string text with Ok (DFin n c e) => Ok (DFin n c e) | _ => Raise ValueError end.

Section Endpoints.
Context `{JwkLibrary, !ClaimsLibrary}.
(** By the number of the draw: the text of a ULID, the clock, the challenge of a
    registration, the key pair of an agent that has none, the random bytes of the
    disclosures, the answers of the rail. *)
Variables (ulid : nat -> string) (utc : nat -> Z) (registration_challenge : nat -> string) (fresh_jwk : nat -> pydict) (salts : nat -> nat -> string)
  (rail_enroll rail_delete : nat -> string -> res (Z * option pyval)).
(** py_webauthn, with the relying party of the settings: a registration that
    verifies gives the raw id, the public key and the count of a credential; an
    assertion that verifies gives the new count. *)
Variables (webauthn_registration : pydict -> string -> res (string * string * Z)) (webauthn_assertion : pydict -> string -> string -> Z -> res Z).
(** Pydantic on a datetime column; the settings. *)
Variables (pydantic_datetime : string -> res Z) (issuer issuer_kid : string) (issuer_key : Key) (challenge_ttl_seconds : Z).

Definition draw : st office nat := zoom events set_events ApiEscalation.draw.
Definition now : st office Z := n <- draw ;; ret (utc n).
Definition new_id (prefix : string) : st office string := n <- draw ;; ret (prefix +:+ "_" +:+ ulid n)%string.
Definition emit_event (type aggregate_id : string) (payload : pydict) : st office unit :=
  zoom events set_events (ApiEscalation.emit_event ulid utc type aggregate_id payload).

(** *** Registration *)

Definition registration_options (user_id : string) (n : nat) (moment : Z) : Challenge :=
  _issue challenge_ttl_seconds (registration_challenge n) user_id REGISTER None moment.

Definition begin_registration (user_id : string) : prog office string :=
  atomic (in_transaction (
    n <- draw ;;
    moment <- now ;;
    let challenge := registration_options user_id n moment in
    store_challenge challenge ;;;
    ret (h_value challenge))).

Definition verify_registration (response : pydict) (challenge : Challenge) (moment : Z) : res StoredCredential :=
  let? _ := _assert_usable challenge moment in
  match (let? expected := b64u_decode (h_value challenge) in webauthn_registration response expected) with
  | Ok (raw_id, public_key, sign_count) =>
      Ok {| d_credential_id := b64u_encode raw_id; d_user_id := h_user_id challenge; d_public_key := public_key; d_sign_count := sign_count |}
  | Raise _ => Raise PasskeyError
  end.

(** Claimed in the transaction that needs it: gone, it is a 401. *)
Definition claim (value : string) (purpose : Purpose) : st office unit :=
  moment <- now ;;
  challenge <- consume_challenge value purpose moment ;;
  match challenge with Some _ => ret tt | None => raise unauthorized end.

Definition complete_registration (value : string) (response : pydict) : prog office StoredCredential :=
  challenge <~ select (free_challenge value REGISTER) ;
  match challenge with
  | None => praise unauthorized
  | Some challenge =>
      moment <~ atomic now ;
      credential <~ plift (match verify_registration response challenge moment with Raise PasskeyError => Raise unauthorized | r => r end) ;
      atomic (in_transaction (claim value REGISTER ;;; store_credential credential ;;; ret credential))
  end.

(** *** The gesture *)

Definition mandate_options (claims : MandateClaims) (purpose : Purpose) (allowed : list StoredCredential) (moment : Z) : res Challenge :=
  let? digest := mandate_challenge claims in
  let? _ := res_map (fun c => b64u_decode (d_credential_id c)) allowed in
  Ok (_issue challenge_ttl_seconds digest (a_sub claims) purpose (Some (a_jti claims)) moment).

Definition verify_assertion (response : pydict) (challenge : Challenge) (credential : StoredCredential) (claims : option MandateClaims) (moment : Z) : res Z :=
  let? _ := _assert_usable challenge moment in
  let? _ := match claims with
            | Some claims => let? digest := mandate_challenge claims in guard_res (String.eqb (h_value challenge) (b64u_encode digest)) PasskeyError
            | None => Ok tt
            end in
  match (let? expected := b64u_decode (h_value challenge) in webauthn_assertion response expected (d_public_key credential) (d_sign_count credential)) with
  | Ok new_sign_count =>
      if (0 <? d_sign_count credential) && (new_sign_count <=? d_sign_count credential) then Raise PasskeyError else Ok new_sign_count
  | Raise _ => Raise PasskeyError
  end.

(** [data["challenge"]] of [clientDataJSON]. *)
Definition _challenge_from (body : PasskeyAssertion) : res pyval :=
  match override (assoc "clientDataJSON" (p_response body)) (VStr EmptyString) with
  | VStr raw =>
      let? text := b64u_decode raw in
      let? data := loads json_float_repr text in
      match data with
      | VDict kvs => match assoc "challenge" kvs with Some v => Ok v | None => Raise KeyError end
      | _ => Raise TypeError
      end
  | _ => Raise TypeError
  end.
Definition presented_challenge (body : PasskeyAssertion) : res pyval :=
  match assoc "clientDataJSON_challenge" (p_response body) with
  | Some v => if truthy v then Ok v else _challenge_from body
  | None => _challenge_from body
  end.

(** A gesture that verified: what its transaction claims and advances. *)
Record Gesture : Type := { z_claims : MandateClaims; z_challenge : Challenge; z_credential_id : string; z_new_count : Z }.

Definition _verify_gesture (record : Mandate) (body : PasskeyAssertion) (purpose : Purpose) : prog office Gesture :=
  claims <~ plift (claims_read (m_claims record)) ;
  presented <~ plift (presented_challenge body) ;
  challenge <~ match presented with VStr value => select (free_challenge value purpose) | _ => praise DBAPIError end ;
  match challenge with
  | None => praise unauthorized
  | Some challenge =>
      if negb (bool_decide (h_purpose challenge = purpose)) then praise unauthorized
      else
        credential <~ select (get_credential (p_id body)) ;
        match credential with
        | None => praise unauthorized
        | Some credential =>
            if negb (String.eqb (d_user_id credential) (m_user_id record)) then praise unauthorized
            else
              moment <~ atomic now ;
              new_count <~ plift (match verify_assertion (assertion_dump body) challenge credential (Some claims) moment with
                                  | Raise PasskeyError => Raise unauthorized
                                  | r => r
                                  end) ;
              pret {| z_claims := claims; z_challenge := challenge; z_credential_id := d_credential_id credential; z_new_count := new_count |}
        end
  end.

(** The writes of the gesture, in the transaction of its endpoint. *)
Definition spend_gesture (g : Gesture) : st office unit :=
  claim (h_value (z_challenge g)) (h_purpose (z_challenge g)) ;;;
  moment <- now ;;
  advance_sign_count (z_credential_id g) (z_new_count g) moment.

(** The guarded transition of an endpoint: refused, it is a 409. *)
Definition move (mandate_id : string) (to : MandateStatus) : st office unit :=
  moment <- now ;;
  result <- transition mandate_id to moment ;;
  if tr_ok result then ret tt else raise conflict.

(** *** Create *)

Definition claims_input (user_id agent_id currency : string) (scope : MandateScope) (limits : MandateLimits) (validity : MandateValidity)
    (conditions agent_jwk : option pydict) (payment_method_ref : option string) : MandateClaimsInput :=
  {| ci_user_id := user_id; ci_agent_id := agent_id; ci_currency := currency; ci_scope := scope; ci_limits := limits; ci_validity := validity;
     ci_conditions := conditions; ci_payment_method_ref := payment_method_ref; ci_agent_jwk := agent_jwk |}.

Definition assemble (request : MandateClaimsInput) : st office MandateClaims :=
  agent_jwk <- match ci_agent_jwk request with Some k => ret k | None => n <- draw ;; ret (fresh_jwk n) end ;;
  jti <- new_id "mdt" ;;
  lift (build_claims issuer request jti agent_jwk None).

Definition create_mandate (request : MandateClaimsInput) : prog office MandateDraft :=
  claims <~ atomic (assemble request) ;
  allowed <~ select (credentials_for (ci_user_id request)) ;
  match allowed with
  | [] => praise no_passkey
  | _ =>
      atomic (in_transaction (
        created_at <- now ;;
        insert_mandate claims created_at ;;;
        moment <- now ;;
        challenge <- lift (mandate_options claims ACTIVATE allowed moment) ;;
        store_challenge challenge ;;;
        n <- draw ;;
        emit_event "mandate.created" (a_jti claims) [("jti", VStr (a_jti claims)); ("limits", limits_event (a_limits claims))]%string ;;;
        ret {| md_mandate_id := a_jti claims; md_challenge := h_value challenge;
               md_payment_enroll := match create_setup_token (rail_enroll n (a_jti claims)) with Ok setup => Some setup | Raise _ => None end |}))
  end.

(** *** Activate *)

Definition _disclosable (record : Mandate) : res pydict :=
  let? claims := if truthy_str (m_claims record) then loads json_float_repr (m_claims record) else Ok (VDict []) in
  match claims with
  | VDict kvs => Ok (flat_map (fun k => match assoc k kvs with Some v => [(k, v)] | None => [] end) SELECTIVE_CLAIMS)
  | _ => Raise TypeError
  end.

Definition link (claims : MandateClaims) : st office unit :=
  match or_str (a_payment_method_ref claims) None with
  | Some token_ref =>
      moment <- now ;;
      link_instrument token_ref (a_jti claims) moment ;;;
      emit_event "payment_instrument.linked" (a_jti claims) [("mandate_jti", VStr (a_jti claims)); ("token_ref", VStr token_ref)]%string
  | None => ret tt
  end.

Definition assert_passkey (mandate_id : string) (body : PasskeyAssertion) : prog office string :=
  record <~ select (get_mandate mandate_id) ;
  match record with
  | None => praise not_found
  | Some record =>
      g <~ _verify_gesture record body ACTIVATE ;
      let claims := z_claims g in
      atomic (in_transaction (
        spend_gesture g ;;;
        move mandate_id ACTIVE ;;;
        disclose <- lift (_disclosable record) ;;
        n <- draw ;;
        sd_jwt <- lift (sign (salts n) issuer_key issuer_kid claims disclose) ;;
        moment <- now ;;
        attach_sd_jwt mandate_id sd_jwt claims moment ;;;
        link claims ;;;
        emit_event "mandate.activated" (a_jti claims) [("jti", VStr (a_jti claims)); ("limits", limits_event (a_limits claims))]%string ;;;
        ret sd_jwt))
  end.

(** *** Revoke *)

Definition begin_revoke (mandate_id : string) : prog office string :=
  record <~ select (get_mandate mandate_id) ;
  match record with
  | None => praise not_found
  | Some record =>
      claims <~ plift (claims_read (m_claims record)) ;
      allowed <~ select (credentials_for (m_user_id record)) ;
      match allowed with
      | [] => praise no_passkey
      | _ =>
          atomic (in_transaction (
            moment <- now ;;
            challenge <- lift (mandate_options claims REVOKE allowed moment) ;;
            store_challenge challenge ;;;
            ret (h_value challenge)))
      end
  end.

(** The tokens the rail deleted; what it raises is logged. *)
Fixpoint delete_each (tokens : list string) : prog office (list string) :=
  match tokens with
  | [] => pret []
  | token_ref :: rest =>
      deleted <~ atomic (modify (log_deletion token_ref) ;;; n <- draw ;; ret (is_ok (delete_payment_token (rail_delete n token_ref)))) ;
      others <~ delete_each rest ;
      pret (if deleted : bool then token_ref :: others else others)
  end.
Fixpoint mark_each (tokens : list string) : st office unit :=
  match tokens with
  | [] => ret tt
  | token_ref :: rest => moment <- now ;; mark_instrument_deleted token_ref moment ;;; mark_each rest
  end.

Definition _to_view (mandate_id : string) (record : Mandate) : res MandateView :=
  let? claims := claims_read (m_claims record) in
  let? spent := finite_decimal (m_spent_total record) in
  let? reserved := finite_decimal (m_reserved_amount record) in
  let? created_at := pydantic_datetime (m_created_at record) in
  Ok {| vw_mandate_id := mandate_id; vw_status := m_status record; vw_limits := a_limits claims; vw_scope := a_scope claims; vw_spent := spent;
        vw_reserved := reserved; vw_txn_count_period := m_txn_count record; vw_payment_method_ref := a_payment_method_ref claims;
        vw_parent_jti := m_parent_jti record; vw_created_at := created_at |}.
Definition _view (mandate_id : string) (o : office) : res MandateView :=
  match get_mandate mandate_id o with Some record => _to_view mandate_id record | None => Raise not_found end.

Definition revoke_mandate (mandate_id : string) (body : PasskeyAssertion) : prog office MandateView :=
  record <~ select (get_mandate mandate_id) ;
  match record with
  | None => praise not_found
  | Some record =>
      g <~ _verify_gesture record body REVOKE ;
      tokens <~ atomic (in_transaction (
        spend_gesture g ;;;
        move mandate_id REVOKED ;;;
        moment <- now ;;
        emit_event "mandate.revoked" mandate_id
          [("jti", VStr mandate_id); ("by", VStr (m_user_id record)); ("at", VStr (isoformat moment))]%string ;;;
        gets (instruments_for mandate_id))) ;
      deleted <~ delete_each tokens ;
      atomic (in_transaction (mark_each deleted ;;; view <- gets (_view mandate_id) ;; lift view))
  end.

(** *** Read *)

Fixpoint insert_newest (kv : string * Mandate) (l : list (string * Mandate)) : list (string * Mandate) :=
  match l with
  | [] => [kv]
  | x :: rest => if String.ltb (m_created_at kv.2) (m_created_at x.2) then x :: insert_newest kv rest else kv :: l
  end.
(** Rows that cannot be read are skipped. *)
Definition list_mandates (user_id : string) : prog office (list MandateView) :=
  rows <~ select (fun o => fold_right insert_newest [] (List.filter (fun kv => String.eqb (m_user_id kv.2) user_id) (map_to_list (mandates o)))) ;
  pret (flat_map (fun kv => match _to_view kv.1 kv.2 with Ok v => [v] | Raise _ => [] end) rows).

Definition get_mandate_view (mandate_id : string) : prog office MandateView := view <~ select (_view mandate_id) ; plift view.
End Endpoints.
