(* ===== verification/ApiMandateFacts.v ===== *)
(** Mandates of the API lane under requests that race (ApiMandate.v): what stands
    behind every mandate that left its draft, and the challenge that locks a
    revocation out. *)
From stdpp Require Import pretty.
From S2P Require Import Prelude PyTime Decimal Json JsonLogic JsonParse Base64 Sha256 Models Canonical Jose RappiClient Prog AgentRules SdJwt SdJwtFacts StateMachine ApiEscalation ApiMandate.

(** ** The rail after a revocation *)

Lemma instruments_nodup id o : NoDup (instruments_for id o).
Proof.
  unfold instruments_for. assert (Hs : NoDup (map_to_list (instruments o)).*1) by apply NoDup_fst_map_to_list. revert Hs.
  induction (map_to_list (instruments o)) as [|[k x] l IH]; cbn; [done|]. intros [Hk Hl]%NoDup_cons. destruct (active_for id x); [|by apply IH].
  cbn. apply NoDup_cons. split; [|by apply IH]. intros Hin. apply Hk. apply list_elem_of_fmap in Hin as (kv & -> & Hkv). apply list_elem_of_In, filter_In in Hkv as [Hkv _].
  apply list_elem_of_fmap. exists kv. split; [done|by apply list_elem_of_In].
Qed.
Lemma instruments_elem id o t inst : instruments o !! t = Some inst -> t ∈ instruments_for id o <-> active_for id inst = true.
Proof.
  intros Ht. unfold instruments_for. rewrite list_elem_of_fmap. split.
  - intros ([k x] & -> & Hin). apply list_elem_of_In, filter_In in Hin as [Hin Ha]. apply list_elem_of_In, elem_of_map_to_list in Hin. cbn in *. congruence.
  - intros Ha. exists (t, inst). split; [done|]. apply list_elem_of_In, filter_In. split; [|done]. by apply list_elem_of_In, elem_of_map_to_list.
Qed.

Section Deletions.
Variable rail_delete : nat -> string -> res (Z * option pyval).

(** The tokens the rail was asked to delete, and the ones it answered. *)
Lemma deletions_run tokens o : NoDup tokens -> exists del o', run_prog (delete_each rail_delete tokens) o = (Ok del, o') /\ mandates o' = mandates o /\
  instruments o' = instruments o /\ deletions o' = deletions o ++ tokens /\ (forall t, t ∈ del -> t ∈ tokens) /\
  forall t, t ∈ tokens -> exists n, (t ∈ del) <-> is_ok (delete_payment_token (rail_delete n t)) = true.
Proof.
  intros Hnd. revert o. induction Hnd as [|t l Ht Hnd IH]; intros o; [exists [], o; rewrite app_nil_r; by split_and!; try set_solver|].
  cbn [delete_each]. rewrite run_pbind. cbn. unfold sbind. cbn. set (answer := is_ok _). set (o1 := set_events _ _). destruct (IH o1) as (del & o' & Hrun & E1 & E2 & E3 & Hsub & Hdel).
  rewrite run_pbind. unfold sbind. rewrite Hrun. exists (if answer then t :: del else del), o'. split_and!; [done..|rewrite E3; cbn; by rewrite <- app_assoc|destruct answer; set_solver|].
  intros x Hx. destruct (decide (x = t)) as [->|Hne].
  - exists (drawn (events o)). fold answer. destruct answer; [set_solver|]. split; [|done]. intros Hin. by apply Hsub in Hin.
  - destruct (Hdel x) as [n Hn]; [set_solver|]. exists n. rewrite <- Hn. destruct answer; set_solver.
Qed.
End Deletions.

Section Marks.
Variable utc : nat -> Z.

Lemma marks_run tokens o : exists o', mark_each utc tokens o = (Ok tt, o') /\ mandates o' = mandates o /\ deletions o' = deletions o /\
  forall t, if decide (t ∈ tokens) then i_status <$> instruments o' !! t = (fun _ => "deleted"%string) <$> instruments o !! t else instruments o' !! t = instruments o !! t.
Proof.
  revert o. induction tokens as [|t l IH]; intros o; [exists o; split_and!; try done; intros x; by destruct (decide (x ∈ [])) as [?%elem_of_nil|]|].
  cbn [mark_each]. unfold sbind at 1. cbn. unfold sbind, mark_instrument_deleted, update_row. cbn. destruct (instruments o !! t) as [row|] eqn:Et.
  - set (o1 := set_instruments _ _). destruct (IH o1) as (o' & Hrun & E1 & E2 & Hmark). exists o'. split_and!; [done..|]. intros x. specialize (Hmark x). cbn in Hmark.
    destruct (decide (x = t)) as [->|Hne].
    + rewrite decide_True by set_solver. rewrite lookup_insert_eq in Hmark. rewrite Et. destruct (decide (t ∈ l)); [exact Hmark|by rewrite Hmark].
    + rewrite lookup_insert_ne in Hmark by done. destruct (decide (x ∈ l)); [rewrite decide_True by set_solver; exact Hmark|rewrite decide_False by set_solver; exact Hmark].
  - set (o1 := set_events _ o). destruct (IH o1) as (o' & Hrun & E1 & E2 & Hmark). exists o'. split_and!; [done..|]. intros x. specialize (Hmark x). cbn in Hmark.
    destruct (decide (x = t)) as [->|Hne].
    + rewrite decide_True by set_solver. rewrite Et in *. destruct (decide (t ∈ l)); [exact Hmark|by rewrite Hmark].
    + destruct (decide (x ∈ l)); [rewrite decide_True by set_solver; exact Hmark|rewrite decide_False by set_solver; exact Hmark].
Qed.
End Marks.

Section Facts.
Context `{JwkLibrary, !ClaimsLibrary}.
Variables (ulid : nat -> string) (utc : nat -> Z) (registration_challenge : nat -> string) (fresh_jwk : nat -> pydict) (salts : nat -> nat -> string)
  (rail_enroll rail_delete : nat -> string -> res (Z * option pyval)).
Variables (webauthn_registration : pydict -> string -> res (string * string * Z)) (webauthn_assertion : pydict -> string -> string -> Z -> res Z).
Variables (pydantic_datetime : string -> res Z) (issuer issuer_kid : string) (issuer_key : Key) (challenge_ttl_seconds : Z).

(** ** Requests *)

Inductive request : Type :=
| BeginRegistration (user_id : string)
| CompleteRegistration (value : string) (response : pydict)
| CreateMandate (input : MandateClaimsInput)
| Activate (mandate_id : string) (body : PasskeyAssertion)
| BeginRevoke (mandate_id : string)
| Revoke (mandate_id : string) (body : PasskeyAssertion)
| ListMandates (user_id : string)
| GetMandate (mandate_id : string).

Definition serve (r : request) : prog office unit :=
  match r with
  | BeginRegistration user_id => _ <~ begin_registration utc registration_challenge challenge_ttl_seconds user_id ; pret tt
  | CompleteRegistration value response => _ <~ complete_registration utc webauthn_registration value response ; pret tt
  | CreateMandate input => _ <~ create_mandate ulid utc fresh_jwk rail_enroll issuer challenge_ttl_seconds input ; pret tt
  | Activate id body => _ <~ assert_passkey ulid utc salts webauthn_assertion issuer_kid issuer_key id body ; pret tt
  | BeginRevoke id => _ <~ begin_revoke utc challenge_ttl_seconds id ; pret tt
  | Revoke id body => _ <~ revoke_mandate ulid utc rail_delete webauthn_assertion pydantic_datetime id body ; pret tt
  | ListMandates user_id => _ <~ list_mandates pydantic_datetime user_id ; pret tt
  | GetMandate id => _ <~ get_mandate_view pydantic_datetime id ; pret tt
  end.

(** ** What stands behind a mandate *)

(** The request that presents a gesture. *)
Definition presents (purpose : Purpose) (id : string) (body : PasskeyAssertion) : option request :=
  match purpose with ACTIVATE => Some (Activate id body) | REVOKE => Some (Revoke id body) | REGISTER => None end.

(** The assertion of a credential of the mandate's user verified, at the [n]th
    draw, against the hash of the mandate's claims, issued for this purpose and
    not expired; the counter of the authenticator had advanced. *)
Definition evidence (o : office) (row : Mandate) (body : PasskeyAssertion) (purpose : Purpose) (c : MandateClaims) (n : nat) : Prop :=
  exists digest ch cr count new, claims_read (m_claims row) = Ok c /\ mandate_challenge c = Ok digest /\
    challenges o !! (b64u_encode digest, Purpose_value purpose) = Some ch /\ utc n <= g_expires_at ch /\
    credentials o !! p_id body = Some cr /\ w_user_id cr = m_user_id row /\
    webauthn_assertion (assertion_dump body) digest (w_public_key cr) count = Ok new /\ (0 < count -> count < new).

(** The challenge of the claims was consumed. *)
Definition spent (o : office) (purpose : Purpose) (c : MandateClaims) : Prop :=
  exists digest ch, mandate_challenge c = Ok digest /\ challenges o !! (b64u_encode digest, Purpose_value purpose) = Some ch /\ is_Some (g_consumed_at ch).

Section Asked.
(** The requests that were asked, by the draw at which they are looked at. *)
Variable asked : request -> nat -> Prop.

Definition gestured (o : office) (id : string) (row : Mandate) (purpose : Purpose) : Prop :=
  exists body c n r, presents purpose id body = Some r /\ asked r n /\ evidence o row body purpose c n /\ spent o purpose c.

(** The text is the issuer's SD-JWT of the row's claims. *)
Definition issued (row : Mandate) (sd_jwt : string) : Prop :=
  exists n c disclose, claims_read (m_claims row) = Ok c /\ sign (salts n) issuer_key issuer_kid c disclose = Ok sd_jwt.

Record row_ok (o : office) (id : string) (row : Mandate) : Prop := {
  ok_known : exists s, m_status row = MandateStatus_value s;
  ok_active : m_status row <> MandateStatus_value DRAFT -> gestured o id row ACTIVATE;
  ok_revoked : m_status row = MandateStatus_value REVOKED -> gestured o id row REVOKE;
  ok_signed : forall sd_jwt, m_sd_jwt row = Some sd_jwt -> gestured o id row ACTIVATE /\ issued row sd_jwt;
}.
Definition office_ok (o : office) : Prop := forall id row, mandates o !! id = Some row -> row_ok o id row.

(** ** What stays *)

(** A move of the state machine, on texts. *)
Definition moves (a b : string) : Prop := exists x y, a = MandateStatus_value x /\ b = MandateStatus_value y /\ StateMachine.step x y.

Record row_kept (row row' : Mandate) : Prop := {
  kept_claims : forall c, claims_read (m_claims row) = Ok c -> claims_read (m_claims row') = Ok c;
  kept_user : m_user_id row' = m_user_id row;
  kept_status : rtc moves (m_status row) (m_status row');
}.
#[export] Instance row_kept_preorder : PreOrder row_kept.
Proof using Type.
  split; [by split|]. intros a b c [A1 A2 A3] [B1 B2 B3]. split; [auto|congruence|by etransitivity].
Qed.

Record persists (o o' : office) : Prop := {
  kept_mandates : forall id row, mandates o !! id = Some row -> exists row', mandates o' !! id = Some row' /\ row_kept row row';
  kept_credentials : forall id cr, credentials o !! id = Some cr ->
    exists cr', credentials o' !! id = Some cr' /\ w_user_id cr' = w_user_id cr /\ w_public_key cr' = w_public_key cr;
  kept_challenges : forall key ch, challenges o !! key = Some ch ->
    exists ch', challenges o' !! key = Some ch' /\ g_expires_at ch' = g_expires_at ch /\ (is_Some (g_consumed_at ch) -> ch' = ch);
  kept_drawn : (drawn (events o) <= drawn (events o'))%nat;
}.
#[export] Instance persists_preorder : PreOrder persists.
Proof using Type.
  split.
  - intros o. split; [intros id row Hr; by exists row|intros id cr Hc; by exists cr|intros key ch Hc; by exists ch|done].
  - intros a b c [A1 A2 A3 A4] [B1 B2 B3 B4]. split; [| | |lia].
    + intros id row Hr. destruct (A1 _ _ Hr) as (r1 & L1 & K1). destruct (B1 _ _ L1) as (r2 & L2 & K2). exists r2. split; [done|by etransitivity].
    + intros id cr Hc. destruct (A2 _ _ Hc) as (c1 & L1 & ? & ?). destruct (B2 _ _ L1) as (c2 & L2 & ? & ?). exists c2. split_and!; congruence.
    + intros key ch Hc. destruct (A3 _ _ Hc) as (c1 & L1 & E1 & K1). destruct (B3 _ _ L1) as (c2 & L2 & E2 & K2). exists c2. split; [done|]. split; [congruence|].
      intros Hs. specialize (K1 Hs). subst c1. auto.
Qed.

Lemma evidence_kept o o' row row' body purpose c n : persists o o' -> row_kept row row' -> evidence o row body purpose c n -> evidence o' row' body purpose c n.
Proof using Type.
  intros [_ Kc Kh _] [Rc Ru _] (digest & ch & cr & count & new & Hread & Hd & Hch & Hexp & Hcr & Hu & Hw & Hcount).
  destruct (Kh _ _ Hch) as (ch' & Hch' & He & _). destruct (Kc _ _ Hcr) as (cr' & Hcr' & Hu' & Hk').
  exists digest, ch', cr', count, new. split_and!; [by apply Rc|done|done|congruence|done|congruence|congruence|done].
Qed.
Lemma spent_kept o o' purpose c : persists o o' -> spent o purpose c -> spent o' purpose c.
Proof using Type. intros [_ _ Kh _] (digest & ch & Hd & Hch & Hs). destruct (Kh _ _ Hch) as (ch' & Hch' & _ & Heq). rewrite (Heq Hs) in Hch'. by exists digest, ch. Qed.
Lemma gestured_kept o o' id row row' purpose : persists o o' -> row_kept row row' -> gestured o id row purpose -> gestured o' id row' purpose.
Proof using Type. intros Hp Hr (body & c & n & r & ? & ? & He & Hs). exists body, c, n, r. split_and!; [done..| |]; [by eapply evidence_kept|by eapply spent_kept]. Qed.

Definition keeps (o o' : office) : Prop := persists o o' /\ (office_ok o -> office_ok o').
#[export] Instance keeps_preorder : PreOrder keeps.
Proof using Type. split; [by split|]. intros a b c [A1 A2] [B1 B2]. split; [by etransitivity|auto]. Qed.

Lemma row_ok_kept o o' id row : persists o o' -> row_ok o id row -> row_ok o' id row.
Proof using Type.
  intros Hp [A B C D]. split; [done|intros ?; by eapply gestured_kept, B|intros ?; by eapply gestured_kept, C|].
  intros t Ht. destruct (D t Ht) as [D1 D2]. split; [by eapply gestured_kept|done].
Qed.

(** A step that leaves the mandates. *)
Lemma aside_keeps o o' : persists o o' -> mandates o' = mandates o -> keeps o o'.
Proof using Type. intros Hp Hm. split; [done|]. intros Hok id row. rewrite Hm. intros Hr. by eapply row_ok_kept, Hok. Qed.

Lemma same_keeps o o' : mandates o' = mandates o -> credentials o' = credentials o -> challenges o' = challenges o ->
  (drawn (events o) <= drawn (events o'))%nat -> keeps o o'.
Proof using Type.
  intros Hm Hc Hh Hd. apply aside_keeps; [|done]. split; rewrite ?Hm, ?Hc, ?Hh; [by intros id row Hr; exists row|by intros id cr Hr; exists cr|by intros key ch Hr; exists ch|done].
Qed.

(** One mandate changed. *)
Lemma mandate_keeps o o' id row row' : persists o o' -> mandates o' = <[id := row']> (mandates o) -> mandates o !! id = Some row ->
  (office_ok o -> row_ok o' id row') -> keeps o o'.
Proof using Type.
  intros Hp Hm Hr Hok'. split; [done|]. intros Hok k x. rewrite Hm. intros [[<- <-]|[_ Hx]]%lookup_insert_Some; [by apply Hok'|]. by eapply row_ok_kept, Hok.
Qed.

Lemma rows_persist o o' id row row' : mandates o' = <[id := row']> (mandates o) -> mandates o !! id = Some row -> row_kept row row' ->
  credentials o' = credentials o -> challenges o' = challenges o -> (drawn (events o) <= drawn (events o'))%nat -> persists o o'.
Proof using Type.
  intros Hm Hr Hk Hc Hh Hd. split; rewrite ?Hm, ?Hc, ?Hh; [|by intros k cr Hx; exists cr|by intros key ch Hx; exists ch|done].
  intros k x Hx. destruct (decide (k = id)) as [->|Hne]; [|exists x; by rewrite lookup_insert_ne]. exists row'. rewrite lookup_insert_eq. split; [done|]. congruence.
Qed.

(** ** Statements of a transaction *)

(** What a statement leaves when it does not raise; in any case the draws go on. *)
Definition sends {A} (o : office) (m : st office A) (Q : A -> office -> Prop) : Prop :=
  match m o with
  | (Ok a, o') => keeps o o' /\ Q a o'
  | (Raise _, o') => (drawn (events o) <= drawn (events o'))%nat
  end.

Lemma sends_bind {A B} o (m : st office A) (f : A -> st office B) P Q :
  sends o m P -> (forall a o', keeps o o' -> P a o' -> sends o' (f a) Q) -> sends o (sbind m f) Q.
Proof using Type.
  unfold sends, sbind. destruct (m o) as [[a|e] o1]; [|done]. intros [Hk HP] Hf. specialize (Hf a o1 Hk HP).
  destruct (f a o1) as [[b|e] o2]; [destruct Hf; split; [by etransitivity|done]|]. destruct Hk as [[_ _ _ Hd] _]. lia.
Qed.
Lemma sends_raise {A} o e (Q : A -> office -> Prop) : sends o (raise e) Q.
Proof using Type. unfold sends. cbn. done. Qed.
Lemma sends_ret {A} o (a : A) (Q : A -> office -> Prop) : Q a o -> sends o (ret a) Q.
Proof using Type. by split. Qed.
Lemma sends_lift {A} o (r : res A) (Q : A -> office -> Prop) : (forall a, r = Ok a -> Q a o) -> sends o (lift r) Q.
Proof using Type. unfold sends, lift. destruct r as [a|e]; [split; [done|auto]|done]. Qed.
Lemma sends_weaken {A} o (m : st office A) (P Q : A -> office -> Prop) : sends o m P -> (forall a o', keeps o o' -> P a o' -> Q a o') -> sends o m Q.
Proof using Type. unfold sends. destruct (m o) as [[a|e] o']; [|done]. intros [Hk HP] HQ. auto. Qed.

(** Statements that read, draw, tell, or write instruments. *)
Definition calm {A} (m : st office A) : Prop := forall o,
  mandates (m o).2 = mandates o /\ credentials (m o).2 = credentials o /\ challenges (m o).2 = challenges o /\ (drawn (events o) <= drawn (events (m o).2))%nat.
Lemma calm_bind {A B} (m : st office A) (f : A -> st office B) : calm m -> (forall a, calm (f a)) -> calm (sbind m f).
Proof using Type.
  intros Hm Hf o. unfold sbind. destruct (Hm o) as (E1 & E2 & E3 & E4). destruct (m o) as [[a|e] o1]; [|done].
  destruct (Hf a o1) as (F1 & F2 & F3 & F4). cbn in *. split_and!; [congruence..|lia].
Qed.
Lemma calm_refl {A} (m : st office A) : (forall o, (m o).2 = o) -> calm m.
Proof using Type. intros Hm o. by rewrite Hm. Qed.
Lemma calm_draw : calm draw.
Proof using Type. intros o. cbn. split_and!; [done..|lia]. Qed.
Lemma calm_now : calm (now utc).
Proof using Type. intros o. cbn. split_and!; [done..|lia]. Qed.
Lemma calm_event type agg payload : calm (emit_event ulid utc type agg payload).
Proof using Type.
  intros o. unfold emit_event, zoom, ApiEscalation.emit_event. destruct (negb _); [done|]. unfold ApiEscalation.new_id, ApiEscalation.now, ApiEscalation.draw, sbind, ret. cbn.
  destruct (outbox (events o) !! _); cbn; split_and!; try done; lia.
Qed.
Lemma calm_link c : calm (link ulid utc c).
Proof using Type.
  unfold link. destruct (or_str _ _); [|by apply calm_refl]. apply calm_bind; [apply calm_now|]. intros moment. apply calm_bind; [|intros _; apply calm_event].
  intros o. unfold link_instrument. by destruct (instruments o !! _).
Qed.
Lemma calm_marks tokens : calm (mark_each utc tokens).
Proof using Type.
  induction tokens as [|t l IH]; [by apply calm_refl|]. apply calm_bind; [apply calm_now|]. intros moment. apply calm_bind; [|done].
  intros o. unfold mark_instrument_deleted, update_row. by destruct (instruments o !! _).
Qed.
Lemma sends_quiet {A} o (m : st office A) : calm m -> sends o m (fun _ _ => True).
Proof using Type. intros Hm. unfold sends. destruct (Hm o) as (? & ? & ? & ?). destruct (m o) as [[a|e] o']; [|done]. split; [by apply same_keeps|done]. Qed.

Lemma store_sends o challenge : sends o (store_challenge challenge) (fun _ _ => True).
Proof using Type.
  unfold sends, store_challenge, insert_row. destruct (challenges o !! _) eqn:E; [done|]. split; [|done]. apply aside_keeps; [|done].
  split; cbn; [by intros id row Hr; exists row|by intros id cr Hr; exists cr| |done]. intros key ch Hc. exists ch. split; [|done]. rewrite lookup_insert_ne; [done|congruence].
Qed.
Lemma credential_sends o credential : sends o (store_credential credential) (fun _ _ => True).
Proof using Type.
  unfold sends, store_credential, insert_row. destruct (credentials o !! _) eqn:E; [done|]. split; [|done]. apply aside_keeps; [|done].
  split; cbn; [by intros id row Hr; exists row| |by intros key ch Hr; exists ch|done]. intros id cr Hc. exists cr. split; [|done]. rewrite lookup_insert_ne; [done|congruence].
Qed.
Lemma advance_sends o id new moment : sends o (advance_sign_count id new moment) (fun _ _ => True).
Proof using Type.
  unfold sends, advance_sign_count, update_row. destruct (credentials o !! id) as [cr|] eqn:E; [|done]. split; [|done]. apply aside_keeps; [|done].
  split; cbn; [by intros k row Hr; exists row| |by intros key ch Hr; exists ch|done]. intros k x Hx.
  destruct (decide (k = id)) as [->|Hne]; [|exists x; by rewrite lookup_insert_ne]. eexists. rewrite lookup_insert_eq. split; [done|]. cbn. split; congruence.
Qed.

Lemma insert_sends o claims moment : sends o (insert_mandate claims moment) (fun _ _ => True).
Proof using Type.
  assert (Hi : sends o (insert_row mandates set_mandates (a_jti claims) (draft claims moment)) (fun _ _ => True)).
  { unfold sends, insert_row. destruct (mandates o !! _) eqn:E; [done|]. split; [|done]. assert (persists o (set_mandates (<[a_jti claims:=draft claims moment]> (mandates o)) o)).
    { split; cbn; [|by intros k cr Hr; exists cr|by intros key ch Hr; exists ch|done]. intros id row Hr. exists row. split; [|done]. rewrite lookup_insert_ne; [done|congruence]. }
    split; [done|]. intros Hok id row. cbn. intros [[<- <-]|[_ Hr]]%lookup_insert_Some; [|by eapply row_ok_kept, Hok]. by split; try done; exists DRAFT. }
  unfold insert_mandate, sends in *. destruct (a_parent_jti claims); [|done]. by destruct (mandates o !! _).
Qed.

(** The challenge is claimed by the transaction that goes on. *)
Lemma claim_sends o value purpose : sends o (claim utc value purpose) (fun _ o' =>
  exists ch, challenges o' !! (value, Purpose_value purpose) = Some ch /\ is_Some (g_consumed_at ch)).
Proof using Type.
  unfold claim. eapply sends_bind; [apply sends_quiet, calm_now|]. intros moment o1 _ _. unfold sends, sbind, consume_challenge, free_challenge.
  destruct (challenges o1 !! _) as [ch|] eqn:E; [|cbn; lia]. destruct (g_consumed_at ch) eqn:Eg; cbn; [lia|]. split.
  - apply aside_keeps; [|done]. split; cbn; [by intros id row Hr; exists row|by intros id cr Hr; exists cr| |done]. intros key x Hx.
    destruct (decide (key = (value, Purpose_value purpose))) as [->|Hne]; [|exists x; by rewrite lookup_insert_ne]. eexists. rewrite lookup_insert_eq. split; [done|].
    assert (x = ch) as -> by congruence. cbn. split; [done|]. rewrite Eg. by intros [? ?].
  - eexists. rewrite lookup_insert_eq. split; [done|]. by eexists.
Qed.

Lemma source_allowed s to : existsb (String.eqb s) (sources_for to) = true -> exists x, s = MandateStatus_value x /\ is_allowed x to = true.
Proof using Type.
  intros (t & Ht & ->%String.eqb_eq)%existsb_exists. destruct to; cbn in Ht; repeat destruct Ht as [<-|Ht]; try done;
    [exists DRAFT|exists SUSPENDED|exists ACTIVE|exists ACTIVE|exists SUSPENDED|exists ACTIVE|exists SUSPENDED|exists ACTIVE]; done.
Qed.

Lemma transition_sends o id to moment :
  (to = ACTIVE \/ to = REVOKED) -> (forall row, mandates o !! id = Some row -> gestured o id row (if decide (to = ACTIVE) then ACTIVATE else REVOKE)) ->
  sends o (transition id to moment) (fun _ _ => True).
Proof using Type.
  intros Hto Hg. unfold sends, transition. assert (Hcur : forall s, (s <- ApiMandate._current_status id ;; ret (refused to s)) s = (s <- ApiMandate._current_status id ;; ret (refused to s)) s) by done.
  assert (Hexp : match (current <- ApiMandate._current_status id ;; ret (refused to current)) o with
                 | (Ok _, o') => keeps o o' /\ True | (Raise _, o') => (drawn (events o) <= drawn (events o'))%nat end).
  { unfold ApiMandate._current_status, sbind, gets, ret, lift. destruct (get_mandate id o) as [row|]; [|done]. destruct (truthy_str _); [|done]. by destruct (MandateStatus_of _). }
  destruct (mandates o !! id) as [row|] eqn:Er; [|exact Hexp]. destruct (existsb _ _) eqn:Ea; [|exact Hexp]. clear Hexp Hcur.
  apply source_allowed in Ea as (x & Hx & Hal). set (o1 := set_mandates _ o).
  assert (row_kept row (moved_row to moment row)) as Hk.
  { split; [done|done|]. apply rtc_once. exists x, to. split_and!; [done..|by constructor]. }
  assert (persists o o1) as Hp by (by eapply rows_persist). assert (keeps o o1) as Hkeep.
  { eapply mandate_keeps; [exact Hp|done|exact Er|]. intros Hok. destruct (Hok _ _ Er) as [A B C D]. specialize (Hg row eq_refl).
    split; cbn; [by exists to| | |].
    - intros _. destruct (decide (to = ACTIVE)); [by eapply gestured_kept|]. destruct Hto as [-> | ->]; [done|]. eapply gestured_kept; [exact Hp|exact Hk|]. apply B. rewrite Hx. by destruct x.
    - intros Hr. destruct Hto as [-> | ->]; [done|]. by eapply gestured_kept.
    - intros t Ht. destruct (D t Ht) as [D1 D2]. split; [by eapply gestured_kept|done]. }
  unfold sbind, lift, ret. by destruct Hto as [-> | ->].
Qed.

Lemma move_sends o id to : (to = ACTIVE \/ to = REVOKED) ->
  (forall o', keeps o o' -> forall row, mandates o' !! id = Some row -> gestured o' id row (if decide (to = ACTIVE) then ACTIVATE else REVOKE)) ->
  sends o (move utc id to) (fun _ _ => True).
Proof using Type.
  intros Hto Hg. unfold move. eapply sends_bind; [apply sends_quiet, calm_now|]. intros moment o1 Hk _.
  eapply sends_bind; [apply transition_sends; [done|by apply Hg]|]. intros r o2 _ _. destruct (tr_ok r); [by apply sends_ret|apply sends_raise].
Qed.

Lemma attach_sends o id n sd_jwt claims disclose moment row : mandates o !! id = Some row -> claims_read (m_claims row) = Ok claims ->
  sign (salts n) issuer_key issuer_kid claims disclose = Ok sd_jwt -> gestured o id row ACTIVATE ->
  sends o (attach_sd_jwt id sd_jwt claims moment) (fun _ _ => True).
Proof using Type.
  intros Er Hread Hsign Hg. unfold sends, attach_sd_jwt, update_row. rewrite Er. split; [|done]. set (row' := signed_row _ _ _ row).
  assert (row_kept row row') as Hk by (split; [intros c Hc; cbn; assert (c = claims) as -> by congruence; by eapply claims_stable|done|done]).
  set (o1 := set_mandates _ o). assert (persists o o1) as Hp by (by eapply rows_persist).
  eapply mandate_keeps; [exact Hp|done|exact Er|]. intros Hok. destruct (Hok _ _ Er) as [A B C D].
  split; [done|intros ?; by eapply gestured_kept, B|intros ?; by eapply gestured_kept, C|].
  intros t [= <-]. split; [by eapply gestured_kept|]. exists n, claims, disclose. split; [cbn; by eapply claims_stable|done].
Qed.

(** ** Programs *)

Abbreviation safely p o Q := (rg keeps keeps p o Q).

Lemma safe_select {A B} (f : office -> A) (k : A -> prog office B) o Q :
  (forall o', keeps o o' -> safely (k (f o')) o' Q) -> safely (pbind (select f) k) o Q.
Proof using Type. intros Hk o1 Ho1. cbn. split; [done|by apply Hk]. Qed.
Lemma safe_plift {A B} (r : res A) (k : A -> prog office B) o Q :
  (forall a, r = Ok a -> safely (k a) o Q) -> (forall e o', r = Raise e -> Q (Raise e) o') -> safely (pbind (plift r) k) o Q.
Proof using Type. intros Hk He. destruct r as [a|e]; [by apply Hk|]. intros o' _. by apply He. Qed.
Lemma safe_now {B} (k : Z -> prog office B) o Q :
  (forall n o', keeps o o' -> (drawn (events o) <= n)%nat -> safely (k (utc n)) o' Q) -> safely (pbind (atomic (now utc)) k) o Q.
Proof using Type.
  intros Hk o1 Ho1. pose proof (calm_now o1) as (Q1 & Q2 & Q3 & Q4). assert (keeps o1 (now utc o1).2) as Hn by (by apply same_keeps). split; [done|].
  cbn. apply Hk; [by etransitivity|]. by destruct Ho1 as [[_ _ _ Hd] _].
Qed.
Lemma safe_raise {A} e o (Q : res A -> office -> Prop) : (forall o', Q (Raise e) o') -> safely (praise e) o Q.
Proof using Type. intros HQ o' _. apply HQ. Qed.

Lemma rolled_keeps o o' : (drawn (events o) <= drawn (events o'))%nat -> keeps o (rolled_back o o').
Proof using Type. intros Hd. by apply same_keeps. Qed.

(** A transaction commits what its statements leave, or nothing. *)
Lemma safe_transaction {A} (m : st office A) o (Q : res A -> office -> Prop) :
  (forall o1, keeps o o1 -> sends o1 m (fun a o' => forall o2, keeps o' o2 -> Q (Ok a) o2)) -> (forall e o', Q (Raise e) o') ->
  safely (atomic (in_transaction m)) o Q.
Proof using Type.
  intros Hm He o1 Ho1. specialize (Hm o1 Ho1). unfold sends in Hm. unfold in_transaction. destruct (m o1) as [[a|e] o']; cbn.
  - destruct Hm as [Hk HQ]. split; [done|]. exact HQ.
  - split; [by apply rolled_keeps|]. intros o2 _. apply He.
Qed.

Lemma safe_done {A B} (p : prog office A) (k : A -> prog office B) o (Q : res B -> office -> Prop) :
  safely p o (fun _ _ => True) -> (forall a, exists r, k a = Finish r) -> (forall r o', Q r o') -> safely (pbind p k) o Q.
Proof using Type.
  intros Hp Hk HQ. apply (rg_bind keeps keeps). eapply rg_weaken; [exact Hp|]. intros [a|e] o' _; [|apply HQ]. destruct (Hk a) as [r ->]. intros o2 _. apply HQ.
Qed.

(** A gesture that verified, looked at after the first [since] draws. *)
Definition vetted (since : nat) (o : office) (id : string) (body : PasskeyAssertion) (purpose : Purpose) (g : Gesture) : Prop :=
  exists n row digest, (since <= n)%nat /\ mandates o !! id = Some row /\ evidence o row body purpose (z_claims g) n /\
    mandate_challenge (z_claims g) = Ok digest /\ h_value (z_challenge g) = b64u_encode digest /\ h_purpose (z_challenge g) = purpose.

Lemma vetted_kept since o o' id body purpose g : persists o o' -> vetted since o id body purpose g -> vetted since o' id body purpose g.
Proof using Type.
  intros Hp (n & row & digest & Hn & Hr & He & Hrest). destruct (kept_mandates _ _ Hp _ _ Hr) as (row' & Hr' & Hk). exists n, row', digest.
  split_and!; try done; [by eapply evidence_kept|..]; by destruct Hrest as (?&?&?).
Qed.

Lemma free_stored value purpose o challenge : free_challenge value purpose o = Some challenge ->
  h_value challenge = value /\ h_purpose challenge = purpose /\ exists ch, challenges o !! (value, Purpose_value purpose) = Some ch /\ g_expires_at ch = h_expires_at challenge.
Proof using Type.
  unfold free_challenge. destruct (challenges o !! _) as [ch|]; [|done]. destruct (g_consumed_at ch); [done|]. intros [= <-]. cbn. split_and!; [done..|]. by exists ch.
Qed.

(** An assertion that verified. *)
Lemma assertion_verified response challenge credential claims moment new : verify_assertion webauthn_assertion response challenge credential (Some claims) moment = Ok new ->
  moment <= h_expires_at challenge /\ exists digest, mandate_challenge claims = Ok digest /\ h_value challenge = b64u_encode digest /\
    webauthn_assertion response digest (d_public_key credential) (d_sign_count credential) = Ok new /\ (0 < d_sign_count credential -> d_sign_count credential < new).
Proof using Type.
  unfold verify_assertion, _assert_usable. destruct (h_expires_at challenge <? moment) eqn:Ee; [done|]. cbn [negb guard_res rbind].
  destruct (mandate_challenge claims) as [digest|]; [|done]. cbn [rbind]. destruct (String.eqb_spec (h_value challenge) (b64u_encode digest)) as [Hv|]; [|done].
  cbn [guard_res rbind]. rewrite Hv, b64u_roundtrip. cbn [rbind]. destruct (webauthn_assertion _ _ _ _) as [m|] eqn:Ew; [|done].
  destruct (_ && _) eqn:Ec; [done|]. intros [= ->]. split; [lia|]. exists digest. split_and!; [done..|]. intros Hpos. apply andb_false_iff in Ec. lia.
Qed.

Lemma gesture_safe o id record body purpose : mandates o !! id = Some record ->
  safely (_verify_gesture utc webauthn_assertion record body purpose) o
    (fun r o' => match r with Ok g => vetted (drawn (events o)) o' id body purpose g | Raise _ => True end).
Proof using Type.
  intros Hrec. unfold _verify_gesture. apply safe_plift; [|done]. intros claims Hread. apply safe_plift; [|done]. intros presented _.
  destruct presented as [| | |value| | | | |]; try by apply safe_raise. apply safe_select. intros o1 H01.
  destruct (free_challenge value purpose o1) as [challenge|] eqn:Ef; [|by apply safe_raise]. apply free_stored in Ef as (Hval & Hpur & ch & Hch & Hexp).
  destruct (negb _); [by apply safe_raise|]. apply safe_select. intros o2 H12. unfold get_credential.
  destruct (credentials o2 !! p_id body) as [cr|] eqn:Ecr; [|by apply safe_raise]. cbn [fmap option_fmap option_map]. destruct (String.eqb_spec (d_user_id (stored (p_id body) cr)) (m_user_id record)) as [Hu|]; [|by apply safe_raise].
  cbn [negb]. apply safe_now. intros n o3 H23 Hn. apply safe_plift; [|done]. intros new Hnew.
  destruct (verify_assertion _ _ _ _ _ _) as [m|e] eqn:Ev; [|by destruct e]. injection Hnew as ->. apply assertion_verified in Ev as (Htime & digest & Hd & Hv & Hw & Hcount).
  assert (persists o o2) as P02 by (etransitivity; [apply H01|apply H12]).
  intros o4 H34. apply (vetted_kept _ o2); [etransitivity; [apply H23|apply H34]|]. destruct (kept_mandates _ _ P02 _ _ Hrec) as (row & Hrow & Hk).
  destruct (kept_challenges _ _ (proj1 H12) _ _ Hch) as (ch' & Hch' & He' & _).
  exists n, row, digest. split; [destruct P02 as [_ _ _ Hdr]; lia|]. split; [done|]. split_and!; [|done..].
  exists digest, ch', cr, (d_sign_count (stored (p_id body) cr)), new. split_and!; try done; [by apply (kept_claims _ _ Hk)|congruence|lia|]. rewrite (kept_user _ _ Hk). exact Hu.
Qed.

(** The gesture spent at the head of a transaction. *)
Lemma spend_sends since o id body purpose g r : presents purpose id body = Some r -> (forall n, (since <= n)%nat -> asked r n) -> vetted since o id body purpose g ->
  sends o (spend_gesture utc g) (fun _ o' => forall o2, keeps o' o2 -> forall row, mandates o2 !! id = Some row ->
    gestured o2 id row purpose /\ claims_read (m_claims row) = Ok (z_claims g)).
Proof using Type.
  intros Hr Hasked Hv. unfold spend_gesture. pose proof Hv as (n0 & row0 & digest & _ & _ & _ & Hd & Hval & Hpur).
  rewrite Hval, Hpur. eapply sends_bind; [apply claim_sends|]. intros [] o1 K1 (ch & Hch & Hs). cbn beta.
  assert (spent o1 purpose (z_claims g)) as Hspent by (by exists digest, ch).
  assert (Hall : forall o2, keeps o1 o2 -> forall row, mandates o2 !! id = Some row -> gestured o2 id row purpose /\ claims_read (m_claims row) = Ok (z_claims g)).
  { intros o2 K2 row Hrow. apply (vetted_kept _ _ o2) in Hv as (n & row' & d & Hn & Hrow' & He & _); [|etransitivity; [apply K1|apply K2]].
    assert (row' = row) as -> by congruence. split; [exists body, (z_claims g), n, r; split_and!; [done|by apply Hasked|done|]|by destruct He as (?&?&?&?&?&?&_)].
    eapply spent_kept; [apply K2|done]. }
  eapply sends_bind; [apply sends_quiet, calm_now|]. intros moment o2 K2 _. eapply sends_weaken; [apply advance_sends|]. intros [] o3 K3 _ o4 K4. apply Hall.
  etransitivity; [exact K2|]. by etransitivity.
Qed.

(** ** The requests *)

(** One more statement that needs no more than the invariant. *)
Ltac quietly :=
  first [apply sends_quiet; first [apply calm_now|apply calm_draw|apply calm_event|apply calm_link|apply calm_marks|by apply calm_refl]
        |apply store_sends|apply insert_sends|apply credential_sends|by apply sends_lift].
Tactic Notation "onward" simple_intropattern(a) simple_intropattern(o) simple_intropattern(K) :=
  apply (sends_bind _ _ _ (fun _ _ => True)); [quietly|intros a o K _].

Lemma sends_close {A} o (m : st office A) : sends o m (fun _ _ => True) -> sends o m (fun _ o' => forall o2, keeps o' o2 -> True).
Proof using Type. intros Hm. by eapply sends_weaken. Qed.

(** A transaction whose answer does not matter. *)
Lemma safe_write {A} (m : st office A) o : (forall o1, keeps o o1 -> sends o1 m (fun _ _ => True)) -> safely (atomic (in_transaction m)) o (fun _ _ => True).
Proof using Type. intros Hm. apply safe_transaction; [|done]. intros o1 Ho1. by apply sends_close, Hm. Qed.

Lemma assert_safe o id body : (forall n, (drawn (events o) <= n)%nat -> asked (Activate id body) n) ->
  safely (assert_passkey ulid utc salts webauthn_assertion issuer_kid issuer_key id body) o (fun _ _ => True).
Proof using Type.
  intros Hasked. apply safe_select. intros o1 H01. unfold get_mandate. destruct (mandates o1 !! id) as [record|] eqn:Er; [|by apply safe_raise].
  apply (rg_bind keeps keeps). eapply rg_weaken; [by apply gesture_safe|]. intros [g|e] o2 Hv; [|done]. cbn zeta. apply safe_write. intros o3 H23.
  apply (vetted_kept _ _ o3) in Hv; [|apply H23]. eapply sends_bind; [apply (spend_sends (drawn (events o1)) o3 id body ACTIVATE g (Activate id body)); [done| |exact Hv]|].
  { intros n Hn. apply Hasked. destruct H01 as [[_ _ _ Hd] _]. lia. }
  intros [] o4 K4 Hg. eapply sends_bind; [apply move_sends; [by left|]|].
  { intros o5 K5 row Hrow. cbn. by apply Hg. }
  intros [] o5 K5 _. onward disclose o6 K6.
  onward n o7 K7.
  eapply sends_bind; [apply (sends_lift _ _ (fun t _ => sign (salts n) issuer_key issuer_kid (z_claims g) disclose = Ok t)); auto|]. intros sd_jwt o8 K8 Hsign. cbn beta in Hsign.
  onward moment o9 K9.
  assert (keeps o4 o9) as K49 by (etransitivity; [exact K5|]; etransitivity; [exact K6|]; etransitivity; [exact K7|]; by etransitivity).
  apply (sends_bind _ _ _ (fun _ _ => True)).
  { destruct (mandates o9 !! id) as [row|] eqn:Erow; [|unfold sends, attach_sd_jwt, update_row; by rewrite Erow]. destruct (Hg _ K49 _ Erow) as [Hge Hre].
    by eapply attach_sends. }
  intros [] o10 _ _. onward [] o11 _.
  onward [] o12 _. by apply sends_ret.
Qed.

Lemma deletions_safe tokens o : safely (delete_each rail_delete tokens) o (fun _ _ => True).
Proof using Type.
  revert o. induction tokens as [|t l IH]; intros o; [done|]. cbn [delete_each]. apply (rg_bind keeps keeps). intros o1 H01. cbn. split.
  - apply same_keeps; [done..|]. cbn. lia.
  - intros o2 _. cbn. apply safe_done; [apply IH|intros a; by destruct (is_ok _); eexists|done].
Qed.

Lemma revoke_safe o id body : (forall n, (drawn (events o) <= n)%nat -> asked (Revoke id body) n) ->
  safely (revoke_mandate ulid utc rail_delete webauthn_assertion pydantic_datetime id body) o (fun _ _ => True).
Proof using Type.
  intros Hasked. apply safe_select. intros o1 H01. unfold get_mandate. destruct (mandates o1 !! id) as [record|] eqn:Er; [|by apply safe_raise].
  apply (rg_bind keeps keeps). eapply rg_weaken; [by apply gesture_safe|]. intros [g|e] o2 Hv; [|done].
  apply (rg_bind keeps keeps). eapply rg_weaken; [apply safe_write|].
  - intros o3 H23. apply (vetted_kept _ _ o3) in Hv; [|apply H23]. eapply sends_bind; [apply (spend_sends (drawn (events o1)) o3 id body REVOKE g (Revoke id body)); [done| |exact Hv]|].
    { intros n Hn. apply Hasked. destruct H01 as [[_ _ _ Hd] _]. lia. }
    intros [] o4 K4 Hg. eapply sends_bind; [apply move_sends; [by right|]|].
    { intros o5 K5 row Hrow. cbn. by apply Hg. }
    intros [] o5 K5 _. onward moment o6 _.
    onward [] o7 _. by apply sends_quiet, calm_refl.
  - intros [tokens|e] o3 _; [|done]. apply (rg_bind keeps keeps). eapply rg_weaken; [apply deletions_safe|]. intros [deleted|e] o4 _; [|done].
    apply safe_write. intros o5 _. onward [] o6 _.
    onward view o7 _. by apply sends_lift.
Qed.

Lemma create_safe o input : safely (create_mandate ulid utc fresh_jwk rail_enroll issuer challenge_ttl_seconds input) o (fun _ _ => True).
Proof using Type.
  apply (rg_bind keeps keeps). assert (Hq : calm (assemble ulid fresh_jwk issuer input)).
  { apply calm_bind; [destruct (ci_agent_jwk input); [by apply calm_refl|apply calm_bind; [apply calm_draw|by intros; apply calm_refl]]|].
    intros jwk. apply calm_bind; [apply calm_bind; [apply calm_draw|by intros; apply calm_refl]|by intros; apply calm_refl]. }
  intros o1 H01. split; [by apply same_keeps; destruct (Hq o1) as (?&?&?&?)|]. destruct (assemble _ _ _ _ o1) as [[claims|e] o2]; cbn [fst snd]; [|done].
  intros o3 _. cbn. intros o4 _. split; [done|]. cbn. destruct (credentials_for _ _) as [|cr crs]; [done|]. apply safe_write. intros o5 _.
  onward created o6 _.
  onward [] o7 _.
  onward moment o8 _.
  onward challenge o9 _.
  onward [] o10 _.
  onward n o11 _.
  onward [] o12 _. by apply sends_ret.
Qed.

Lemma begin_registration_safe o user_id : safely (begin_registration utc registration_challenge challenge_ttl_seconds user_id) o (fun _ _ => True).
Proof using Type. apply safe_write. intros o1 _. onward n o2 _. onward moment o3 _. onward [] o4 _. by apply sends_ret. Qed.

Lemma complete_registration_safe o value response : safely (complete_registration utc webauthn_registration value response) o (fun _ _ => True).
Proof using Type.
  apply safe_select. intros o1 _. destruct (free_challenge _ _ _) as [challenge|]; [|by apply safe_raise]. apply safe_now. intros n o2 _ _. apply safe_plift; [|done].
  intros credential _. apply safe_write. intros o3 _. eapply sends_bind; [apply claim_sends|]. intros [] o4 _ _. onward [] o5 _. by apply sends_ret.
Qed.

Lemma begin_revoke_safe o id : safely (begin_revoke utc challenge_ttl_seconds id) o (fun _ _ => True).
Proof using Type.
  apply safe_select. intros o1 _. destruct (get_mandate id o1) as [record|]; [|by apply safe_raise]. apply safe_plift; [|done]. intros claims _.
  apply safe_select. intros o2 _. destruct (credentials_for _ _); [by apply safe_raise|]. apply safe_write. intros o3 _.
  onward moment o4 _. onward challenge o5 _. onward [] o6 _. by apply sends_ret.
Qed.

Lemma request_safe o r : (forall n, (drawn (events o) <= n)%nat -> asked r n) -> safely (serve r) o (fun _ _ => True).
Proof using Type.
  intros Hasked. destruct r; (apply safe_done; [|by eexists|done]).
  - apply begin_registration_safe.
  - apply complete_registration_safe.
  - apply create_safe.
  - by apply assert_safe.
  - apply begin_revoke_safe.
  - by apply revoke_safe.
  - by apply safe_select.
  - apply safe_select. intros o1 _. by intros o2 _.
Qed.

Lemma requests_keep requests schedule o : (forall r n, r ∈ requests -> (drawn (events o) <= n)%nat -> asked r n) ->
  keeps o (interleave schedule (map serve requests) o).2.
Proof using Type.
  intros Hasked. assert (pool_ok (fun _ => keeps) (fun _ => keeps) (fun _ _ _ => True) (keeps o) (length requests)
    (interleave schedule (map serve requests) o).1 (interleave schedule (map serve requests) o).2) as (_ & Hk & _); [|done].
  apply pool_interleave; [intros _; apply _|done|by intros i s s' _; etransitivity|]. split; [by rewrite length_map|]. split; [done|].
  intros i p Hi. apply list_lookup_fmap_Some in Hi as (r & -> & Hr). apply request_safe. intros n. by apply Hasked, (list_elem_of_lookup_2 _ i).
Qed.

(** C13: Under any interleaving, stopped anywhere, of requests to register passkeys and
    to create, activate, revoke and read mandates: every mandate past its draft
    was activated by a request whose assertion verified against the hash of the
    claims the mandate has, with a passkey of its user, for this purpose, in time,
    on a challenge that is spent; every revoked one was revoked so as well; every
    signed text is the issuer's SD-JWT of those claims and of an activated
    mandate; and claims, users and keys stay what they were while statuses only
    take the steps of the state machine. *)
Theorem mandates_consented requests schedule o : office_ok o -> (forall r n, r ∈ requests -> (drawn (events o) <= n)%nat -> asked r n) ->
  let o' := (interleave schedule (map serve requests) o).2 in office_ok o' /\ persists o o'.
Proof using Type. intros Hok Hasked o'. destruct (requests_keep requests schedule o Hasked) as [Hp Hk]. auto. Qed.
End Asked.

(** ** A challenge that expired *)

Section Locked.
(** The mandate [id], whose challenge to revoke is in the table and expired. *)
Variables (start : office) (id : string) (c : MandateClaims) (digest : string) (expires : Z).
Hypothesis challenge_of : mandate_challenge c = Ok digest.
Hypothesis expired : forall n, (drawn (events start) <= n)%nat -> expires < utc n.

Definition locked (o : office) : Prop :=
  (exists row, mandates o !! id = Some row /\ claims_read (m_claims row) = Ok c) /\
  exists ch, challenges o !! (b64u_encode digest, Purpose_value REVOKE) = Some ch /\ g_expires_at ch = expires.

Lemma locked_kept o o' : persists o o' -> locked o -> locked o'.
Proof using Type.
  intros Hp [(row & Hr & Hc) (ch & Hch & He)]. split.
  - destruct (kept_mandates _ _ Hp _ _ Hr) as (row' & Hr' & Hk). exists row'. split; [done|by apply (kept_claims _ _ Hk)].
  - destruct (kept_challenges _ _ Hp _ _ Hch) as (ch' & Hch' & He' & _). exists ch'. split; [done|congruence].
Qed.

(** The requests to revoke it that are looked at from now on. *)
Definition from_now (r : request) (n : nat) : Prop := match r with Revoke id' _ => id' = id -> (drawn (events start) <= n)%nat | _ => True end.

Lemma late_evidence o row body n c' : locked o -> mandates o !! id = Some row -> (drawn (events start) <= n)%nat -> ~ evidence o row body REVOKE c' n.
Proof using challenge_of expired.
  intros [(row0 & Hr0 & Hread) (ch & Hch & He)] Hr Hn (d & ch' & cr & count & new & Hread' & Hd & Hch' & Ht & _).
  assert (row0 = row) as -> by congruence. assert (c' = c) as -> by congruence. assert (d = digest) as -> by congruence. assert (ch' = ch) as -> by congruence.
  specialize (expired n Hn). lia.
Qed.

Lemma from_now_ok : (forall row, mandates start !! id = Some row -> m_status row <> MandateStatus_value REVOKED) -> office_ok (fun _ _ => True) start -> office_ok from_now start.
Proof using Type.
  intros Hnot Hok k row Hr. assert (Hg : forall purpose, (purpose = REVOKE -> k <> id) -> gestured (fun _ _ => True) start k row purpose -> gestured from_now start k row purpose).
  { intros purpose Hne (body & c' & n & r & Hpr & _ & Hrest). exists body, c', n, r. split; [done|]. split; [|done]. destruct purpose; [done|by injection Hpr as <-|].
    injection Hpr as <-. intros ->. by destruct (Hne eq_refl). }
  destruct (Hok _ _ Hr) as [A B C D]. split; [done|intros ?; apply Hg; [done|auto]| |].
  - intros Hrev. apply Hg; [|auto]. intros _ ->. by apply (Hnot _ Hr).
  - intros t Ht. destruct (D t Ht) as [D1 D2]. split; [by apply Hg|done].
Qed.

Abbreviation securely p o Q := (rg (keeps from_now) (keeps from_now) p o Q).

(** No gesture to revoke it verifies. *)
Lemma revoke_refused o body : locked o -> (drawn (events start) <= drawn (events o))%nat ->
  securely (revoke_mandate ulid utc rail_delete webauthn_assertion pydantic_datetime id body) o (fun r _ => forall a, r <> Ok a).
Proof using challenge_of expired.
  intros Hl Hd. apply safe_select. intros o1 H01. assert (locked o1) as Hl1 by (eapply locked_kept; [apply H01|done]).
  unfold get_mandate. destruct (mandates o1 !! id) as [record|] eqn:Er; [|by apply safe_raise].
  apply (rg_bind (keeps from_now) (keeps from_now)).
  eapply rg_weaken; [apply (rg_invariant (keeps from_now) (keeps from_now) locked); [by intros s s' [Hp _]; apply locked_kept|by intros s s' [Hp _]; apply locked_kept|by apply (gesture_safe from_now)|done]|].
  intros [g|e] o2 [Hv Hl2]; [|done]. destruct Hv as (n & row & d & Hn & Hrow & He & _). exfalso.
  eapply late_evidence; [exact Hl2|exact Hrow| |exact He]. destruct H01 as [[_ _ _ Hdr] _]. lia.
Qed.

(** And no other challenge to revoke it can be stored. *)
Lemma begin_refused o : locked o -> securely (begin_revoke utc challenge_ttl_seconds id) o (fun r _ => forall a, r <> Ok a).
Proof using challenge_of.
  intros Hl. apply safe_select. intros o1 H01. assert (locked o1) as Hl1 by (eapply locked_kept; [apply H01|done]).
  unfold get_mandate. destruct (mandates o1 !! id) as [record|] eqn:Er; [|by apply safe_raise]. apply safe_plift; [|done]. intros claims Hread.
  assert (claims = c) as -> by (destruct Hl1 as [(row & Hrow & Hc) _]; congruence).
  apply safe_select. intros o2 H12. destruct (credentials_for _ _) as [|cr crs]; [by apply safe_raise|]. apply safe_transaction; [|done]. intros o3 H23.
  eapply sends_bind; [apply sends_quiet, calm_now|]. intros moment o4 H34 _. eapply sends_bind.
  { apply (sends_lift from_now _ _ (fun challenge _ => h_value challenge = b64u_encode digest /\ h_purpose challenge = REVOKE)). intros challenge. unfold mandate_options.
    rewrite challenge_of. cbn [rbind]. destruct (res_map _ _); [|done]. by intros [= <-]. }
  intros challenge o5 H45 [Hv Hp]. assert (locked o5) as [_ (ch & Hch & _)].
  { eapply locked_kept; [|exact Hl1]. etransitivity; [apply H12|]. etransitivity; [apply H23|]. etransitivity; [apply H34|apply H45]. }
  apply (sends_bind from_now _ _ _ (fun _ _ => False)); [|done]. unfold sends, store_challenge, insert_row. by rewrite Hv, Hp, Hch.
Qed.

Definition to_revoke (r : request) : Prop := match r with BeginRevoke id' | Revoke id' _ => id' = id | _ => False end.

Lemma locked_requests requests schedule : locked start -> let out := interleave schedule (map serve requests) start in
  keeps from_now start out.2 /\ forall i r a, requests !! i = Some r -> to_revoke r -> out.1 !! i <> Some (Finish (Ok a)).
Proof using challenge_of expired.
  intros Hl out. assert (pool_ok (fun _ => keeps from_now) (fun _ => keeps from_now)
    (fun i res _ => forall r a, requests !! i = Some r -> to_revoke r -> res <> Ok a) (keeps from_now start) (length requests) out.1 out.2) as (_ & Hk & Hp).
  { apply pool_interleave; [intros _; apply _|done|by intros i s s' _; etransitivity|]. split; [by rewrite length_map|]. split; [done|].
    intros i p Hi. apply list_lookup_fmap_Some in Hi as (r & -> & Hr). destruct r as [| | | |k|k body| |];
      try (eapply rg_weaken; [apply (request_safe from_now); intros n Hn; done|]; intros res o' _ r a Hr' Ht; rewrite Hr in Hr'; by injection Hr' as <-).
    - destruct (decide (k = id)) as [->|Hne].
      + apply (rg_bind (keeps from_now) (keeps from_now)). eapply rg_weaken; [by apply begin_refused|]. intros [v|e] o' Hno; [by destruct (Hno v)|done].
      + eapply rg_weaken; [by apply (request_safe from_now)|]. intros res o' _ r a Hr' Ht. rewrite Hr in Hr'. injection Hr' as <-. by destruct (Hne Ht).
    - destruct (decide (k = id)) as [->|Hne].
      + apply (rg_bind (keeps from_now) (keeps from_now)). eapply rg_weaken; [by apply revoke_refused|]. intros [v|e] o' Hno; [by destruct (Hno v)|done].
      + eapply rg_weaken; [apply (request_safe from_now); by intros n Hn Heq|]. intros res o' _ r a Hr' Ht. rewrite Hr in Hr'. injection Hr' as <-. by destruct (Hne Ht). }
  split; [done|]. intros i r a Hr Ht Hi. specialize (Hp i _ Hi out.2 ltac:(reflexivity)). by eapply Hp.
Qed.
End Locked.

(** C40: A person who lets the challenge to revoke a mandate expire can never revoke it:
    the challenge is the hash of the claims, its row stays, and so no request to
    begin or to finish the revocation succeeds, and the mandate is not revoked,
    whatever requests run in whatever order. *)
Theorem revocation_locked_out requests schedule o id row c digest ch :
  office_ok (fun _ _ => True) o -> mandates o !! id = Some row -> m_status row <> MandateStatus_value REVOKED ->
  claims_read (m_claims row) = Ok c -> mandate_challenge c = Ok digest -> challenges o !! (b64u_encode digest, Purpose_value REVOKE) = Some ch ->
  (forall n, (drawn (events o) <= n)%nat -> g_expires_at ch < utc n) ->
  let out := interleave schedule (map serve requests) o in
  (exists row', mandates out.2 !! id = Some row' /\ m_status row' <> MandateStatus_value REVOKED) /\
  forall i r a, requests !! i = Some r -> to_revoke id r -> out.1 !! i <> Some (Finish (Ok a)).
Proof using Type.
  intros Hok Hr Hst Hread Hd Hch Hexp out. assert (locked id c digest (g_expires_at ch) o) as Hl by (split; [by exists row|by exists ch]).
  destruct (locked_requests o id c digest _ Hd Hexp requests schedule Hl) as [[Hp Hok'] Hno]. split; [|done].
  destruct (kept_mandates _ _ Hp _ _ Hr) as (row' & Hr' & _). exists row'. split; [done|]. intros Hrev.
  assert (office_ok (from_now o id) out.2) as Hfin by (apply Hok', from_now_ok; [|done]; intros x Hx; congruence).
  destruct (ok_revoked _ _ _ _ (Hfin _ _ Hr') Hrev) as (body & c' & n & r & Hpr & Hask & He & _). injection Hpr as <-.
  eapply (late_evidence o id c digest); [done|exact Hexp|by eapply locked_kept|exact Hr'|by apply Hask|exact He].
Qed.

(** ** One revocation alone *)

(** Only draws were made. *)
Definition untouched (o o' : office) : Prop :=
  mandates o' = mandates o /\ instruments o' = instruments o /\ credentials o' = credentials o /\ challenges o' = challenges o /\
  escalations (events o') = escalations (events o) /\ outbox (events o') = outbox (events o) /\ deletions o' = deletions o.
#[export] Instance untouched_preorder : PreOrder untouched.
Proof using Type. split; [done|]. intros a b c (?&?&?&?&?&?&?) (?&?&?&?&?&?&?). unfold untouched. split_and!; congruence. Qed.

Lemma gesture_untouched record body purpose : does untouched (_verify_gesture utc webauthn_assertion record body purpose).
Proof using Type.
  apply does_plift. intros claims _. apply does_plift. intros presented _. apply does_bind; [by destruct presented|]. intros [challenge|]; [|done].
  destruct (negb _); [done|]. apply does_bind; [by apply does_atomic|]. intros [cr|]; [|done]. destruct (negb _); [done|].
  apply does_bind; [by apply does_atomic|]. intros moment. by apply does_plift.
Qed.

(** The mandates, the instruments and the log of deletions. *)
Definition aside (o o' : office) : Prop := mandates o' = mandates o /\ instruments o' = instruments o /\ deletions o' = deletions o.
#[export] Instance aside_preorder : PreOrder aside.
Proof using Type. split; [done|]. intros a b c (?&?&?) (?&?&?). unfold aside. split_and!; congruence. Qed.

Lemma spend_aside g o o' : spend_gesture utc g o = (Ok tt, o') -> aside o o'.
Proof using Type.
  unfold spend_gesture, claim, consume_challenge, advance_sign_count, update_row, now, draw, zoom, sbind, ret, raise. cbn.
  destruct (free_challenge _ _ _); [|done]. destruct (challenges o !! _); [|done]. cbn. destruct (credentials o !! _); cbn; by intros [= <-].
Qed.

Lemma move_moves id to o o' row : mandates o !! id = Some row -> move utc id to o = (Ok tt, o') ->
  exists moment, mandates o' = <[id := moved_row to moment row]> (mandates o) /\ instruments o' = instruments o /\ deletions o' = deletions o.
Proof using Type.
  intros Hr. unfold move, now, draw, zoom, sbind, ret, raise. cbn. unfold transition. cbn. rewrite Hr. destruct (existsb _ _).
  - unfold sbind, lift, ret. destruct (TRANSITION_EVENTS to); cbn; [|done]. intros [= <-]. by eexists.
  - unfold ApiMandate._current_status, sbind, gets, get_mandate, lift, ret. cbn. rewrite Hr. destruct (truthy_str _); [|done]. by destruct (MandateStatus_of _).
Qed.

Lemma event_aside type agg payload o o' : emit_event ulid utc type agg payload o = (Ok tt, o') -> aside o o'.
Proof using Type.
  unfold emit_event, zoom, ApiEscalation.emit_event. destruct (negb _); [done|]. unfold ApiEscalation.new_id, ApiEscalation.now, ApiEscalation.draw, sbind, ret. cbn.
  destruct (outbox (events o) !! _); cbn; [done|]. by intros [= <-].
Qed.


(** The transaction of a revocation: nothing is written, or the mandate is revoked
    and its active tokens are known. *)
Definition revocation (id : string) (row : Mandate) (g : Gesture) : st office (list string) :=
  spend_gesture utc g ;;;
  move utc id REVOKED ;;;
  moment <- now utc ;;
  emit_event ulid utc "mandate.revoked" id [("jti", VStr id); ("by", VStr (m_user_id row)); ("at", VStr (isoformat moment))]%string ;;;
  gets (instruments_for id).

(** Nothing in it asks the rail. *)
Definition silent {A} (m : st office A) : Prop := forall o, deletions (m o).2 = deletions o.
Lemma silent_bind {A B} (m : st office A) (f : A -> st office B) : silent m -> (forall a, silent (f a)) -> silent (sbind m f).
Proof using Type. intros Hm Hf o. unfold sbind. specialize (Hm o). destruct (m o) as [[a|e] o1]; [|done]. rewrite (Hf a o1). exact Hm. Qed.
Lemma spend_silent g : silent (spend_gesture utc g).
Proof using Type.
  apply silent_bind; [|intros []; apply silent_bind; [done|intros moment o]].
  - apply silent_bind; [done|]. intros moment. apply silent_bind; [|by intros []]. intros o. unfold consume_challenge. destruct (free_challenge _ _ _); [|done]. by destruct (challenges o !! _).
  - unfold advance_sign_count, update_row. by destruct (credentials o !! _).
Qed.
Lemma move_silent id to : silent (move utc id to).
Proof using Type.
  apply silent_bind; [done|]. intros moment. apply silent_bind; [|intros r; by destruct (tr_ok r)]. intros o. unfold transition, ApiMandate._current_status, sbind, gets, lift, ret, get_mandate.
  destruct (mandates o !! id) as [row|]; [|done]. destruct (existsb _ _); [by destruct (TRANSITION_EVENTS to)|]. destruct (truthy_str _); [|done]. by destruct (MandateStatus_of _).
Qed.
Lemma revocation_silent id row g : silent (revocation id row g).
Proof using Type.
  apply silent_bind; [apply spend_silent|]. intros []. apply silent_bind; [apply move_silent|]. intros []. apply silent_bind; [done|]. intros moment.
  apply silent_bind; [|done]. intros o. unfold emit_event, zoom. by destruct (ApiEscalation.emit_event _ _ _ _ _ _).
Qed.

Lemma revocation_run id row g o : mandates o !! id = Some row ->
  (untouched o (in_transaction (revocation id row g) o).2 /\ exists e, (in_transaction (revocation id row g) o).1 = Raise e) \/
  exists moment o', in_transaction (revocation id row g) o = (Ok (instruments_for id o), o') /\
    mandates o' = <[id := moved_row REVOKED moment row]> (mandates o) /\ instruments o' = instruments o /\ deletions o' = deletions o.
Proof using Type.
  intros Hr. unfold in_transaction. destruct (revocation id row g o) as [[tokens|e] o'] eqn:E; [|left; split; [split_and!; try done; cbn; by rewrite <- (revocation_silent id row g o), E|by exists e]]. right.
  unfold revocation, sbind in E. destruct (spend_gesture utc g o) as [[[]|e] o1] eqn:E1; [|done]. apply spend_aside in E1 as (M1 & I1 & D1).
  rewrite <- M1 in Hr. destruct (move utc id REVOKED o1) as [[[]|e] o2] eqn:E2; [|done]. apply (move_moves _ _ _ _ row Hr) in E2 as (moment & M2 & I2 & D2).
  destruct (now utc o2) as [[m|e] o3] eqn:E3; [|done]. assert (aside o2 o3) as (M3 & I3 & D3) by (by injection E3 as _ <-; split_and!).
  destruct (emit_event _ _ _ _ _ o3) as [[[]|e] o4] eqn:E4; [|done]. apply event_aside in E4 as (M4 & I4 & D4). injection E as <- <-.
  exists moment, o4. split; [|split_and!; congruence]. unfold instruments_for. by rewrite I4, I3, I2, I1.
Qed.

(** What follows the gesture, and the transaction. *)
Definition told (id : string) (tokens : list string) : prog office MandateView :=
  deleted <~ delete_each rail_delete tokens ;
  atomic (in_transaction (mark_each utc deleted ;;; view <- gets (_view pydantic_datetime id) ;; lift view)).

Lemma revoke_run id body o row : mandates o !! id = Some row ->
  run_prog (revoke_mandate ulid utc rail_delete webauthn_assertion pydantic_datetime id body) o =
  sbind (run_prog (_verify_gesture utc webauthn_assertion row body REVOKE)) (fun g => sbind (in_transaction (revocation id row g)) (fun tokens => run_prog (told id tokens))) o.
Proof using Type.
  intros Hr. change (run_prog (pbind (select (get_mandate id)) (fun record => match record with
    | None => praise not_found
    | Some record => pbind (_verify_gesture utc webauthn_assertion record body REVOKE) (fun g => pbind (atomic (in_transaction (revocation id record g))) (told id))
    end)) o = sbind (run_prog (_verify_gesture utc webauthn_assertion row body REVOKE)) (fun g => sbind (in_transaction (revocation id row g)) (fun tokens => run_prog (told id tokens))) o).
  rewrite run_pbind. unfold sbind at 1. change (run_prog (select (get_mandate id)) o) with (Ok (mandates o !! id), o). rewrite Hr. cbn beta iota.
  rewrite run_pbind. unfold sbind. destruct (run_prog (_verify_gesture _ _ _ _ _) o) as [[g|e] o1]; [|done]. rewrite run_pbind. unfold sbind. cbn.
  by destruct (in_transaction _ o1) as [[tokens|e] o2].
Qed.

Lemma told_run id row moment tokens o0 o : NoDup tokens -> (forall t inst, instruments o0 !! t = Some inst -> t ∈ tokens <-> active_for id inst = true) ->
  mandates o !! id = Some (moved_row REVOKED moment row) -> instruments o = instruments o0 ->
  let out := run_prog (told id tokens) o in
  mandates out.2 = mandates o /\ deletions out.2 = deletions o ++ tokens /\
  match out.1 with
  | Raise _ => instruments out.2 = instruments o0
  | Ok view => vw_status view = MandateStatus_value REVOKED /\ forall t inst, instruments o0 !! t = Some inst ->
      if active_for id inst
      then exists n, i_status <$> instruments out.2 !! t = Some (if is_ok (delete_payment_token (rail_delete n t)) then "deleted" else "active")%string
      else instruments out.2 !! t = Some inst
  end.
Proof using Type.
  intros Hnd Htok Hr Hi out. unfold out, told. rewrite run_pbind. unfold sbind.
  destruct (deletions_run rail_delete tokens o Hnd) as (del & o1 & -> & M1 & I1 & D1 & Hsub & Hdel). cbn [run_prog atomic]. unfold in_transaction.
  destruct (marks_run utc del o1) as (o2 & -> & M2 & D2 & Hmark). unfold gets, lift, _view, get_mandate. rewrite M2, M1, Hr.
  destruct (_to_view pydantic_datetime id _) as [view|e] eqn:Ev; cbn; [|split_and!; congruence].
  split_and!; [congruence|congruence| |].
  - unfold _to_view in Ev. destruct (claims_read _); [|done]. cbn [rbind] in Ev. destruct (finite_decimal _); [|done]. cbn [rbind] in Ev.
    destruct (finite_decimal _); [|done]. cbn [rbind] in Ev. destruct (pydantic_datetime _); [|done]. by injection Ev as <-.
  - intros t inst Ht. specialize (Hmark t). rewrite I1, Hi, Ht in Hmark. specialize (Htok t inst Ht). destruct (active_for id inst) eqn:Ea.
    + destruct (Hdel t) as [n Hn]; [by apply Htok|]. exists n. apply andb_prop in Ea as [_ Hact%String.eqb_eq].
      destruct (decide (t ∈ del)) as [Hin|Hnin]; [rewrite (proj1 Hn Hin); exact Hmark|]. rewrite Hmark. cbn. rewrite Hact.
      destruct (is_ok _) eqn:Eok; [|done]. by destruct (Hnin (proj2 Hn eq_refl)).
    + rewrite decide_False in Hmark; [exact Hmark|]. intros Hin. apply Hsub, Htok in Hin. done.
Qed.

(** C14: A revocation alone writes nothing and raises; or it stands, whatever the rail
    answers: the mandate is revoked, each of its active tokens was asked for at
    the rail, once, and in the answer exactly those the rail deleted are marked. *)
Theorem revocation_stands id body o row : mandates o !! id = Some row ->
  let out := run_prog (revoke_mandate ulid utc rail_delete webauthn_assertion pydantic_datetime id body) o in
  (untouched o out.2 /\ exists e, out.1 = Raise e) \/
  exists moment, mandates out.2 = <[id := moved_row REVOKED moment row]> (mandates o) /\ deletions out.2 = deletions o ++ instruments_for id o /\
    match out.1 with
    | Raise _ => instruments out.2 = instruments o
    | Ok view => vw_status view = MandateStatus_value REVOKED /\ forall t inst, instruments o !! t = Some inst ->
        if active_for id inst
        then exists n, i_status <$> instruments out.2 !! t = Some (if is_ok (delete_payment_token (rail_delete n t)) then "deleted" else "active")%string
        else instruments out.2 !! t = Some inst
    end.
Proof using Type.
  intros Hr out. unfold out. rewrite (revoke_run _ _ _ _ Hr). unfold sbind.
  pose proof (does_run untouched (_verify_gesture utc webauthn_assertion row body REVOKE) o _ (gesture_untouched row body REVOKE)) as Hg.
  destruct (run_prog (_verify_gesture utc webauthn_assertion row body REVOKE) o) as [[g|e] o1]; cbn [fst snd] in *; [|left; split; [exact Hg|by eexists]].
  assert (mandates o1 = mandates o /\ instruments o1 = instruments o /\ deletions o1 = deletions o) as (M1 & I1 & D1) by (by destruct Hg as (?&?&?&?&?&?&?)).
  rewrite <- M1 in Hr. destruct (revocation_run id row g o1 Hr) as [[Hu [e He]]|(moment & o2 & -> & M2 & I2 & D2)].
  - left. destruct (in_transaction _ o1) as [r o2]. cbn in *. subst r. split; [by etransitivity|by eexists].
  - right. exists moment. destruct (told_run id row moment (instruments_for id o1) o o2) as (M3 & D3 & Hend).
    + apply instruments_nodup.
    + intros t inst Ht. rewrite <- I1 in Ht. by apply instruments_elem.
    + rewrite M2. apply lookup_insert_eq.
    + congruence.
    + split; [by rewrite M3, M2, M1|]. split; [rewrite D3, D2, D1; unfold instruments_for; by rewrite I1|exact Hend].
Qed.
End Facts.

(** ** A mandate created, activated and revoked *)

Definition day_request : MandateClaimsInput :=
  {| ci_user_id := "marta"; ci_agent_id := "agt_1"; ci_currency := "USD"; ci_scope := {| sc_categories := ["flights"]; sc_merchants := ["vuelaya"] |};
     ci_limits := {| l_max_per_txn := Some (DFin false 15000 (-2)); l_total_budget := None; l_max_txn := Some {| x_count := 3; x_period := MONTH |} |};
     ci_validity := {| va_not_before := 0; va_expires_at := 86400000000 |}; ci_conditions := None; ci_payment_method_ref := Some "ynt_1";
     ci_agent_jwk := Some (mark_export "agent") |}%string.
Definition day_claims (jti : string) : res MandateClaims := build_claims "aval" day_request jti (mark_export "agent") None.

(** The only text of the day. *)
#[export] Instance day_library : ClaimsLibrary.
Proof.
  refine {| claims_text := fun _ => "{}"%string; claims_read := fun text => if String.eqb text "{}" then day_claims "mdt_4" else Raise ValueError;
            claims_validate := fun _ => Raise ValueError; json_datetime := isoformat |}.
  intros text c. by destruct (String.eqb text "{}").
Defined.

Definition day_ulid (n : nat) : string := pretty (N.of_nat n).
Definition day_utc (n : nat) : Z := Z.of_nat n * 1000000.
(** The same clock, until a pause of an hour. *)
Definition late_utc (n : nat) : Z := if (n <? 22)%nat then Z.of_nat n * 1000000 else 3600000000 + Z.of_nat n * 1000000.
Definition day_salts (n i : nat) : string := "salt".
Definition day_rail (n : nat) (s : string) : res (Z * option pyval) := Ok (200, Some (VDict [])).
(** An authenticator that counts. *)
Definition day_registration (response : pydict) (expected : string) : res (string * string * Z) := Ok ("thumb", "pub", 0)%string.
Definition day_assertion (response : pydict) (expected public_key : string) (count : Z) : res Z := if String.eqb public_key "pub" then Ok (count + 1) else Raise ValueError.
Definition day_datetime (text : string) : res Z := match fromisoformat text with Some us => Ok us | None => Raise ValueError end.

Abbreviation day_serve clock := (serve (H := mark_library) day_ulid clock day_ulid (fun _ => []) day_salts day_rail day_rail day_registration day_assertion day_datetime
  "aval"%string "v1"%string (mark_key "issuer") 300).

Definition day_value : string := Eval vm_compute in
  match (let? c := day_claims "mdt_4" in mandate_challenge (H := mark_library) c) with Ok digest => b64u_encode digest | Raise _ => EmptyString end.
Definition thumb : PasskeyAssertion :=
  {| p_id := b64u_encode "thumb"; p_rawId := None; p_response := [("clientDataJSON_challenge", VStr day_value)]; p_type := "public-key";
     p_clientExtensionResults := []; p_extra := [] |}%string.

Definition morning : list request :=
  [BeginRegistration "marta"; CompleteRegistration (b64u_encode "0") []; CreateMandate day_request; Activate "mdt_4" thumb; BeginRevoke "mdt_4"; Revoke "mdt_4" thumb]%string.
Definition hours : list nat := [0; 1; 1; 1; 2; 2; 2; 3; 3; 3; 3; 3; 4; 4; 4; 5; 5; 5; 5; 5; 5; 5]%nat.
Definition nothing : office := {| mandates := ∅; instruments := ∅; credentials := ∅; challenges := ∅; events := {| escalations := ∅; outbox := ∅; drawn := 0 |}; deletions := [] |}.
Definition seen (run : list (prog office unit) * office) :=
  (map (fun p => match p with Finish (Ok _) => true | _ => false end) run.1, mandates run.2 !! "mdt_4"%string, drawn (events run.2), deletions run.2,
   challenges run.2 !! (day_value, "revoke")%string).
Abbreviation day := (interleave hours (map (day_serve day_utc) morning) nothing).
Abbreviation pause := (interleave (firstn 15 hours) (map (day_serve late_utc) morning) nothing).
Definition day_seen := Eval vm_compute in seen day.
Definition pause_seen := Eval vm_compute in seen pause.
Lemma day_exact : seen day = day_seen.
Proof. vm_compute. reflexivity. Qed.
Lemma pause_exact : seen pause = pause_seen.
Proof. vm_compute. reflexivity. Qed.

(** Everyone is answered; the mandate is revoked and the rail was told. *)
Example day_answers : day_seen.1.1.1.1 = [true; true; true; true; true; true] /\ day_seen.1.2 = ["ynt_1"]%string.
Proof. by split. Qed.

Lemma seen_fields run x : seen run = x -> mandates run.2 !! "mdt_4"%string = x.1.1.1.2 /\ drawn (events run.2) = x.1.1.2 /\ challenges run.2 !! (day_value, "revoke"%string) = x.2.
Proof. by intros <-. Qed.

Lemma nothing_ok (clock : nat -> Z) asked : office_ok (H := mark_library) clock day_salts day_assertion "v1" (mark_key "issuer") asked nothing.
Proof. intros id row. cbn. by rewrite lookup_empty. Qed.

Lemma mandates_consented_witness : exists row, mandates day.2 !! "mdt_4"%string = Some row /\ m_status row = "revoked"%string /\
  gestured (H := mark_library) day_utc day_assertion (fun r _ => r ∈ morning) day.2 "mdt_4" row ACTIVATE /\
  gestured (H := mark_library) day_utc day_assertion (fun r _ => r ∈ morning) day.2 "mdt_4" row REVOKE.
Proof.
  destruct (seen_fields _ _ day_exact) as (Hrow & _). eexists. split; [exact Hrow|]. split; [reflexivity|].
  destruct (mandates_consented (H := mark_library) day_ulid day_utc day_ulid (fun _ => []) day_salts day_rail day_rail day_registration day_assertion day_datetime
    "aval" "v1" (mark_key "issuer") 300 (fun r _ => r ∈ morning) morning hours nothing (nothing_ok day_utc _) (fun r n Hr _ => Hr)) as [Hok _].
  destruct (Hok _ _ Hrow) as [_ Hactive Hrevoked _]. split; [apply Hactive; discriminate|apply Hrevoked; reflexivity].
Defined.

(** The page to revoke stayed open for an hour: neither it nor another one ends. *)
Lemma pause_ok : office_ok (H := mark_library) late_utc day_salts day_assertion "v1" (mark_key "issuer") (fun _ _ => True) pause.2.
Proof.
  apply (requests_keep (H := mark_library) day_ulid late_utc day_ulid (fun _ => []) day_salts day_rail day_rail day_registration day_assertion day_datetime
    "aval" "v1" (mark_key "issuer") 300 (fun _ _ => True)); [done|apply nothing_ok].
Qed.
Definition retries : list request := [BeginRevoke "mdt_4"; Revoke "mdt_4" thumb]%string.
Lemma revocation_locked_out_witness : let out := interleave [0; 0; 0; 1; 1; 1; 1; 1]%nat (map (day_serve late_utc) retries) pause.2 in
  (exists row, mandates out.2 !! "mdt_4"%string = Some row /\ m_status row <> MandateStatus_value REVOKED) /\
  out.1 !! 0%nat <> Some (Finish (Ok tt)) /\ out.1 !! 1%nat <> Some (Finish (Ok tt)).
Proof.
  destruct (seen_fields _ _ pause_exact) as (Hrow & Hdrawn & Hch).
  assert (exists c digest, claims_read "{}" = Ok c /\ mandate_challenge (H := mark_library) c = Ok digest /\ b64u_encode digest = day_value) as (c & digest & Hc & Hd & Hv)
    by (eexists _, _; split; [reflexivity|]; split; [vm_compute; reflexivity|vm_compute; reflexivity]).
  change "revoke"%string with (Purpose_value REVOKE) in Hch. rewrite <- Hv in Hch.
  destruct (revocation_locked_out (H := mark_library) day_ulid late_utc day_ulid (fun _ => []) day_salts day_rail day_rail day_registration day_assertion day_datetime
    "aval" "v1" (mark_key "issuer") 300 retries [0; 0; 0; 1; 1; 1; 1; 1]%nat pause.2 "mdt_4" _ c digest _ pause_ok Hrow ltac:(discriminate) Hc Hd Hch) as [Hst Hno].
  - intros n. rewrite Hdrawn. change pause_seen.1.1.2 with 22%nat. intros Hn. unfold late_utc. destruct (Nat.ltb_spec n 22); [lia|]. change (321000000 < 3600000000 + Z.of_nat n * 1000000). lia.
  - split; [exact Hst|]. split; [exact (Hno 0%nat _ tt eq_refl eq_refl)|exact (Hno 1%nat _ tt eq_refl eq_refl)].
Defined.

(** The same revocation in time, alone. *)
Abbreviation ready := (interleave (firstn 15 hours) (map (day_serve day_utc) morning) nothing).
Abbreviation revoked_alone := (run_prog (revoke_mandate (H := mark_library) day_ulid day_utc day_rail day_assertion day_datetime "mdt_4" thumb) ready.2).
Lemma ready_exact : exists row, mandates ready.2 !! "mdt_4"%string = Some row.
Proof. eexists. vm_compute. reflexivity. Qed.
Lemma revoked_answer : match revoked_alone.1 with Ok _ => true | Raise _ => false end = true.
Proof. vm_compute. reflexivity. Qed.
Lemma revocation_stands_witness : exists row moment, mandates revoked_alone.2 = <["mdt_4"%string := moved_row REVOKED moment row]> (mandates ready.2) /\
  deletions revoked_alone.2 = deletions ready.2 ++ instruments_for "mdt_4" ready.2.
Proof.
  destruct ready_exact as [row Hrow]. exists row.
  destruct (revocation_stands (H := mark_library) day_ulid day_utc day_rail day_assertion day_datetime "mdt_4" thumb ready.2 row Hrow) as [[_ [e He]]|(moment & Hm & Hd & _)].
  - exfalso. generalize revoked_answer. rewrite He. discriminate.
  - exists moment. split; [exact Hm|exact Hd].
Defined.
